(* ===== verification/_CoqProject ===== *)
-Q . S2P
Prelude.v
CString.v
Mmu.v
Kalloc.v
Vm.v
VmSpec.v
Spinlock.v
Proc.v
ProcSpec.v
ProcSys.v
ProcSafe.v
ProcRuns.v
Bio.v
BufferCache.v
BioSpec.v
Bytes.v
Log.v
LogSpec.v
LogCrash.v
Fs.v
FsLayout.v
FsSpec.v
Pipe.v
File.v
FileSpec.v
FileRw.v
FsName.v
FileRwSpec.v
Mkfs.v
MkfsSpec.v
MkfsKernel.v
Syscall.v
Sysproc.v
Exec.v
Sysfile.v
Trap.v
Ends.v
Sh.v
ShSpec.v
ShShow.v
ShRun.v
SysfileSpec.v
SysEnds.v
Ports.v
Printf.v
Console.v
ConsoleSpec.v
ConsoleSys.v
Grep.v
Umalloc.v
UmallocSpec.v
Mp.v
MpSpec.v
Irq.v
IrqSpec.v
Ide.v
IdeSpec.v
Kbd.v
KbdSpec.v
Bootmain.v
User.v
Progs.v
ProgsSpec.v
Kvm.v
Boot.v
BootSpec.v
