(* ===== verification/Prelude.v ===== *)
(** * A verification development of the xv6 kernel of cs153-xv6 (src/xv6-lab1)

    xv6 is a small Unix for 32-bit x86 multiprocessors: a kernel, a builder of file system images, and user programs.  This lab version adds
    exit statuses, [waitpid], priorities and [cur_index], the count of the processes that wait for one.  The development translates the C code,
    function by function and with the names of the source, into executable definitions, and proves what each part guarantees.

    ** How the code is modelled

    A function of the kernel is a computation [K S A] of this file: from a state it returns a value ([Ok]), stops the machine ([Panic]), gives up the
    CPU in [sleep] or [sched] ([Block]), or exceeds a bound of the model ([NoFuel]).  What C leaves undefined (a store outside an
    array, a fault in the kernel) is a [Panic] whose message starts with "undefined".  [runs m s Q] is total correctness: [m] returns from [s] and [Q] holds.
    A C integer is a [Z] with its wrap-around written out ([u32], [u16], [u8], [s32], [s8]).  Memory is a function from addresses to bytes, and a structure on the disk or in a
    page is read at its offsets; other pointers to elements of a static array are indices.  Spin locks are the list of the locks a thread holds: taking
    one twice, or giving back one that is not held, is a panic as in spinlock.c.  User programs are computations [U W A] of User.v over the system calls ([Sys]).

    What is not code of the repository is a parameter with named laws: the devices ([Ports], [Mmio], [Crtc], [PicPair], [IoApic], [LocalApic], [WarmReset], [IdeDisk],
    [Keyboard]), the linker's symbols, and for a user program the rest of the system ([Posix], [Jobs]).  Parts of the kernel meet at interfaces, too: [AddrSpace] (implemented by
    Vm.v, used by Proc.v), [FileOps] (File.v, for Proc.v), [BufferOps] and [BufferCache] (Bio.v and BioSpec.v, for Log.v and Fs.v), [HasLocks] (every state).
    Each class of laws has an instance, at which the theorems are applied.

    ** The parts, and what is shown

    - Memory and strings.  CString.v: string.c, ulib.c, x86.h ([stosb], [stosl]); each routine does what its contract says, overlapping moves included.  Mmu.v: the macros of mmu.h and
      memlayout.h.
    - Pages and address spaces.  Kalloc.v: kalloc.c, a stack of distinct pages.  Vm.v: the page tables of vm.c; VmSpec.v: [mappages] and [allocuvm] change
      exactly the entries asked for, against the ownership invariant [pt_inv], and what [allocuvm] does when a page table is missing.  Kvm.v: the entry of every address in the address space
      [setupkvm] makes, and that 65 free pages are enough for it.
    - Spin locks.  Spinlock.v: [acquire] and [release] step by step on any number of CPUs; mutual exclusion, interrupts off while a lock is held.
    - Processes.  Proc.v: proc.c, with the context switch as the value [p_kont] that says where a process goes on.  ProcSpec.v: each operation, the choice of the
      scheduler with the task state and the page table it loads, when the loop of [exit] over [cur_index] ends.  ProcSys.v, ProcSafe.v: in every reachable state of a system of any number of CPUs and processes, in
      which [fork] runs without the lock stage by stage, the table is consistent, no wakeup of [wait] is lost, and none of [waitpid] but for a fork that fails.  ProcRuns.v: runs of the system, to a
      state in which [exit] hangs and to one in which a process waits for a fork that has failed.
    - Disk and buffers.  Bio.v: bio.c and memide.c; BufferCache.v and BioSpec.v: a sector has one current content, buffers are recycled in the order of their last use.  Ide.v: ide.c; IdeSpec.v: the
      driver implements a queue of requests and serves them all, and on a disk without errors the buffers and sectors are those of the memory disk whenever its queue is empty.
    - Log and files.  Log.v: log.c; LogSpec.v, LogCrash.v: a transaction is atomic wherever a crash cuts its writes, recovery can be cut anywhere, and nine blocks are the most a transaction can have.  Fs.v: fs.c;  Bytes.v, FsLayout.v, FsSpec.v: files as arrays of bytes;
      FsName.v: [namei] finds what a path names.  File.v, Pipe.v: file.c and pipe.c; FileSpec.v: the type invariant of files and pipes; Pipe.v also: a pipe is a queue, and no reader or
      writer sleeps in vain.  FileRw.v, FileRwSpec.v: [filewrite] and [fileread] over the whole stack, crashes included.
    - File system images.  Mkfs.v: mkfs.c; MkfsSpec.v, MkfsKernel.v: the image is well formed, and a kernel booted on it finds every file by its name and reads its bytes.
    - System calls and traps.  Syscall.v, Sysproc.v, Sysfile.v, Exec.v, Trap.v: syscall.c, sysproc.c, sysfile.c, exec.c and [trap] of trap.c on the whole state.  Ends.v, SysEnds.v: every file system call
      returns, sleeps or panics, and no file refers to a pipe that is gone.  SysfileSpec.v: which pointers [argptr] lets through.  Trap.v: a killed process does not return to its program, on whatever leg of the trap.
    - Devices.  Ports.v, Console.v: console.c and uart.c; ConsoleSpec.v, ConsoleSys.v: output stays on the screen, and the input ring is a line discipline for any
      interleaving of readers and interrupts.  Kbd.v: kbd.c, kbd.h, [consoleinit], [uartinit]; KbdSpec.v: a line that is typed on a US keyboard is the line that is read.  Irq.v: picirq.c, ioapic.c, lapic.c, timer.c; IrqSpec.v:
      which interrupts are delivered, and how another processor is started.
    - Start.  Bootmain.v: bootmain.c loads the kernel.  Mp.v, MpSpec.v: mp.c finds the processors.  Boot.v, BootSpec.v: the descriptor tables, entryother.S, and that main.c starts every
      processor on a stack of its own.
    - User programs.  Printf.v: printf.c.  Umalloc.v, UmallocSpec.v: umalloc.c implements arrays.  Sh.v, ShSpec.v, ShShow.v: the parser of sh.c reads back every command; ShRun.v: [runcmd] starts the
      programs of a command and connects them.  Grep.v: grep.c, whose matcher accepts the language of the pattern.  User.v, Progs.v: the other programs and the main functions; ProgsSpec.v: cat, wc, echo,
      grep and the loop of the shell.

    ** Bounds

    A loop that is not a recursion over a list has a bound.  Most are computed from the state and are shown to be enough, since the theorems conclude [runs], or that the
    call ends (SysEnds.v): the pages of a region in [mappages], the blocks of a read or write ([rw_fuel]), the pieces of a write ([filewrite_fuel]), the units of the heap ([um_fuel]), four
    steps of the parser per character ([parse_fuel]).  Loops that wait for a device take the bound as an argument ([polls]); the laws of the device give one that is enough.  The loop of [exit] over [cur_index]
    and the loop of [mpinit] over an unknown entry have no bound that is enough, which is shown.  A reader of a file gets one round more than the file has bytes.

    ** Not modelled

    - Assembly (bootasm.S, entry.S, initcode.S, swtch.S, trapasm.S, usys.S, and vectors.S, which vectors.pl makes): it runs below the C abstraction.  A
      context switch is the step from [sched] to [resume], and a system call the call of the function.  Of entryother.S, what it does with its three arguments is modelled; the processor that runs it is an argument of
      [startothers], given in BootSpec.v by what a processor does between its reset and this code.
    - [main] of main.c, which calls the initialisation of each part in turn; the functions it calls are modelled with the part, [fileinit], [iinit] and [pinit] excepted, which only name a lock.
    - The test programs (usertests.c, forktest.c, stressfs.c, test.c, priority_test.c, wait_test1.c, wait_test2.c): they print whether a scenario went as expected.
    - Time and caches: the memory is sequentially consistent, a device answers after a number of reads, and delays do nothing.
    - Overflow of [nextpid] and [cur_index], the contents of user stacks beyond what [exec] puts there, and the messages of the kernel except where a theorem is about them. *)

From stdpp Require Export base tactics numbers option list sets gmap strings.
From Stdlib Require Export ZArith Lia.

#[global] Open Scope Z_scope.

(** Linear arithmetic with division and remainder by constants. *)
Ltac mlia := Z.to_euclidean_division_equations; lia.

(** ** Machine integers

    The C types of types.h ([uint], [ushort], [uchar]) and the plain [int],
    [short] and [char] of the 32-bit x86 target (two's complement, [char]
    signed) are integers of [Z] together with their wrap-around. *)

Definition u32 (z : Z) : Z := z mod 4294967296.
Definition u16 (z : Z) : Z := z mod 65536.
Definition u8 (z : Z) : Z := z mod 256.
Definition s32 (z : Z) : Z := (z + 2147483648) mod 4294967296 - 2147483648.
Definition s16 (z : Z) : Z := (z + 32768) mod 65536 - 32768.
Definition s8 (z : Z) : Z := (z + 128) mod 256 - 128.

Lemma u32_range z : 0 <= u32 z < 4294967296.
Proof. unfold u32. mlia. Qed.

Lemma u32_small z : 0 <= z < 4294967296 -> u32 z = z.
Proof. intros. unfold u32. mlia. Qed.

Lemma u32_idem z : u32 (u32 z) = u32 z.
Proof. unfold u32. mlia. Qed.

Lemma u32_add_l a b : u32 (u32 a + b) = u32 (a + b).
Proof. unfold u32. apply Zplus_mod_idemp_l. Qed.

Lemma u32_sub_l a b : u32 (u32 a - b) = u32 (a - b).
Proof. unfold u32. apply Zminus_mod_idemp_l. Qed.

Lemma u8_range z : 0 <= u8 z < 256.
Proof. unfold u8. mlia. Qed.

Lemma u8_small z : 0 <= z < 256 -> u8 z = z.
Proof. intros. unfold u8. mlia. Qed.

Lemma u8_idem z : u8 (u8 z) = u8 z.
Proof. unfold u8. mlia. Qed.

Lemma s32_small z : -2147483648 <= z < 2147483648 -> s32 z = z.
Proof. intros. unfold s32. mlia. Qed.

Lemma s32_range z : -2147483648 <= s32 z < 2147483648.
Proof. unfold s32. mlia. Qed.

Lemma u32_s32 z : u32 (s32 z) = u32 z.
Proof. unfold u32, s32. mlia. Qed.

(** ** Kernel identities: sleep channels and spin locks

    [sleep] and [wakeup] use the address of a kernel object as a channel; only
    equality of channels matters, and addresses of different objects differ.
    [ch_proc i] is [&ptable.proc[i]], [ch_pipe_nread p] is [&p->nread] for the
    pipe in the page [p], and so on. *)

Inductive chan :=
  | ch_null
  | ch_proc (i : nat)
  | ch_buf (i : nat)
  | ch_inode (i : nat)
  | ch_log
  | ch_ticks
  | ch_input
  | ch_pipe_nread (p : Z)
  | ch_pipe_nwrite (p : Z).

#[global] Instance chan_eq_dec : EqDecision chan.
Proof. solve_decision. Defined.

(** The spin locks of the kernel, by the object they guard. *)
Inductive lockid :=
  | lk_kmem
  | lk_ptable
  | lk_bcache
  | lk_ide
  | lk_log
  | lk_icache
  | lk_ftable
  | lk_cons
  | lk_input
  | lk_ticks
  | lk_pipe (p : Z).

#[global] Instance lockid_eq_dec : EqDecision lockid.
Proof. solve_decision. Defined.

(** ** Outcomes of kernel code

    A kernel function run by one thread returns ([Ok]), stops the machine in
    [panic] ([Panic]), or gives up the CPU in [sleep] ([Block], with the
    channel it waits on and the state it leaves behind).  [NoFuel] is the
    result of a bounded loop of the model whose bound was too small. *)

Inductive outcome (S A : Type) : Type :=
  | Ok (a : A) (s : S)
  | Panic (msg : string) (s : S)
  | Block (c : chan) (s : S)
  | NoFuel.
Arguments Ok {S A} a s.
Arguments Panic {S A} msg%_string s.
Arguments Block {S A} c s.
Arguments NoFuel {S A}.

Definition K (S A : Type) : Type := S -> outcome S A.

Definition kret {S A} (a : A) : K S A := fun s => Ok a s.

Definition kbind {S A B} (m : K S A) (f : A -> K S B) : K S B := fun s =>
  match m s with
  | Ok a s' => f a s'
  | Panic msg s' => Panic msg s'
  | Block c s' => Block c s'
  | NoFuel => NoFuel
  end.

Definition kpanic {S A} (msg : string) : K S A := fun s => Panic msg s.
Arguments kpanic {S A} msg%_string.
Definition kblock {S A} (c : chan) : K S A := fun s => Block c s.
Definition kget {S} : K S S := fun s => Ok s s.
Definition kgets {S A} (f : S -> A) : K S A := fun s => Ok (f s) s.
Definition kmod {S} (f : S -> S) : K S unit := fun s => Ok tt (f s).
Definition knofuel {S A} : K S A := fun _ => NoFuel.

Lemma kbind_ok {S A B} (m : K S A) (f : A -> K S B) s a s' : m s = Ok a s' -> kbind m f s = f a s'.
Proof. unfold kbind. by intros ->. Qed.

Declare Scope kernel_scope.
Delimit Scope kernel_scope with K.
Notation "'let*' x ':=' m 'in' k" := (kbind m (fun x => k))
  (at level 10, x pattern, m at level 100, k at level 200) : kernel_scope.
Notation "m ';;;' k" := (kbind m (fun _ => k))
  (at level 199, right associativity) : kernel_scope.
Notation "'when' b 'do' m" := (if b then m else kret tt)
  (at level 198, b at level 100, m at level 198) : kernel_scope.
#[global] Open Scope kernel_scope.

(** [for] loops: over all the elements, and up to the first one for which the
    body produces a value ([return] or [break] inside the loop). *)
Fixpoint for_each {S X} (l : list X) (body : X -> K S unit) : K S unit :=
  match l with
  | [] => kret tt
  | x :: l' => body x ;;; for_each l' body
  end.

Fixpoint for_first {S X R} (l : list X) (body : X -> K S (option R)) : K S (option R) :=
  match l with
  | [] => kret None
  | x :: l' =>
      let* r := body x in
      match r with
      | Some v => kret (Some v)
      | None => for_first l' body
      end
  end.

(** *** Total-correctness triples: the call returns, with a value and a state
    that satisfy the postcondition. *)
Definition runs {S A} (m : K S A) (s : S) (Q : A -> S -> Prop) : Prop :=
  match m s with
  | Ok a s' => Q a s'
  | _ => False
  end.

Section runs.
Context {S : Type}.

Lemma runs_ret {A} (a : A) s (Q : A -> S -> Prop) : Q a s -> runs (kret a) s Q.
Proof. done. Qed.

Lemma runs_bind {A B} (m : K S A) (f : A -> K S B) s Q :
  runs m s (fun a s' => runs (f a) s' Q) -> runs (kbind m f) s Q.
Proof. unfold runs, kbind. destruct (m s); done. Qed.

Lemma runs_gets {A} (f : S -> A) s (Q : A -> S -> Prop) : Q (f s) s -> runs (kgets f) s Q.
Proof. done. Qed.

Lemma runs_mod f s (Q : unit -> S -> Prop) : Q tt (f s) -> runs (kmod f) s Q.
Proof. done. Qed.

Lemma runs_conseq {A} (m : K S A) s (Q Q' : A -> S -> Prop) :
  runs m s Q' -> (forall a s', Q' a s' -> Q a s') -> runs m s Q.
Proof. unfold runs. destruct (m s); eauto. Qed.

(** A property of the outcome, which may be a sleep or a panic, after a part that returns. *)
Lemma outcome_bind {A C} (m : K S A) (f : A -> K S C) s (O : outcome S C -> Prop) : runs m s (fun a s' => O (f a s')) -> O (kbind m f s).
Proof. unfold runs, kbind. by destruct (m s). Qed.

Lemma runs_Ok {A} (m : K S A) s Q :
  runs m s Q <-> exists a s', m s = Ok a s' /\ Q a s'.
Proof.
  unfold runs. split.
  - destruct (m s); naive_solver.
  - intros (a & s' & -> & HQ). done.
Qed.

Lemma runs_eq {A} (m : K S A) s a s' (Q : A -> S -> Prop) :
  m s = Ok a s' -> Q a s' -> runs m s Q.
Proof. unfold runs. by intros ->. Qed.
End runs.

(** *** Partial-correctness triples: if the call returns the result satisfies [Q],
    if it gives up the CPU the state left behind satisfies [B]. *)
Definition post {S A} (m : K S A) (s : S) (Q : A -> S -> Prop) (B : S -> Prop) : Prop :=
  match m s with
  | Ok a s' => Q a s'
  | Block _ s' => B s'
  | _ => True
  end.

Section post.
Context {S : Type}.

Lemma post_ret {A} (a : A) s (Q : A -> S -> Prop) B : Q a s -> post (kret a) s Q B.
Proof. done. Qed.

Lemma post_bind {A C} (m : K S A) (f : A -> K S C) s Q B :
  post m s (fun a s' => post (f a) s' Q B) B -> post (kbind m f) s Q B.
Proof. unfold post, kbind. destruct (m s); done. Qed.

Lemma post_get s (Q : S -> S -> Prop) B : Q s s -> post kget s Q B.
Proof. done. Qed.

Lemma post_gets {A} (f : S -> A) s (Q : A -> S -> Prop) B : Q (f s) s -> post (kgets f) s Q B.
Proof. done. Qed.

Lemma post_mod f s (Q : unit -> S -> Prop) B : Q tt (f s) -> post (kmod f) s Q B.
Proof. done. Qed.

Lemma post_panic {A} msg s (Q : A -> S -> Prop) B : post (kpanic msg) s Q B.
Proof. done. Qed.

Lemma post_conseq {A} (m : K S A) s (Q Q' : A -> S -> Prop) (B B' : S -> Prop) :
  post m s Q' B' -> (forall a s', Q' a s' -> Q a s') -> (forall s', B' s' -> B s') -> post m s Q B.
Proof. unfold post. destruct (m s); eauto. Qed.

Lemma post_eq {A} (m : K S A) s a s' (Q : A -> S -> Prop) B : m s = Ok a s' -> Q a s' -> post m s Q B.
Proof. unfold post. by intros ->. Qed.

Lemma post_for_each {X} (I : list X -> S -> Prop) (l : list X) (f : X -> K S unit) B s :
  I [] s ->
  (forall x d s', I d s' -> x ∈ l -> post (f x) s' (fun _ s'' => I (d ++ [x]) s'') B) ->
  post (for_each l f) s (fun _ s' => I l s') B.
Proof.
  intros H0 Hs. assert (Hg : forall l' d s', d ++ l' = l -> I d s' ->
    post (for_each l' f) s' (fun _ s'' => I l s'') B).
  { induction l' as [|x l' IH]; intros d s' Hd HI; simpl.
    - apply post_ret. by rewrite app_nil_r in Hd; subst.
    - apply post_bind. eapply post_conseq; [apply Hs; [exact HI|]| |done].
      + subst. apply elem_of_app. right. left.
      + intros u s'' HI'. apply (IH (d ++ [x])); [by rewrite <- app_assoc|done]. }
  by apply (Hg l []).
Qed.
End post.

(** The bounds of the loops are large enough: no run ends in [NoFuel]. *)
Definition total {S A} (m : K S A) : Prop := forall s, m s <> NoFuel.

Section total.
Context {S : Type}.

Lemma total_bind {A B} (m : K S A) (f : A -> K S B) :
  total m -> (forall a, total (f a)) -> total (kbind m f).
Proof. intros Hm Hf s. unfold kbind. specialize (Hm s). destruct (m s); try done. apply Hf. Qed.

Lemma total_ret {A} (a : A) : total (S := S) (kret a).
Proof. done. Qed.

Lemma total_panic {A} msg : total (S := S) (A := A) (kpanic msg).
Proof. done. Qed.

Lemma total_get : total (S := S) kget.
Proof. done. Qed.

Lemma total_gets {A} (f : S -> A) : total (kgets f).
Proof. done. Qed.

Lemma total_mod (f : S -> S) : total (kmod f).
Proof. done. Qed.

Lemma total_block {A} c : total (S := S) (A := A) (kblock c).
Proof. done. Qed.

Lemma total_for_each {X} (l : list X) (f : X -> K S unit) :
  (forall x, total (f x)) -> total (for_each l f).
Proof. intros Hf. induction l; simpl; [apply total_ret|]. by apply total_bind. Qed.

Lemma total_for_first {X R} (l : list X) (f : X -> K S (option R)) :
  (forall x, total (f x)) -> total (for_first l f).
Proof.
  intros Hf. induction l; simpl; [apply total_ret|]. apply total_bind; [done|].
  intros [r|]; [apply total_ret|done].
Qed.
End total.

(** ** Spin locks as a thread of the kernel sees them

    [acquire] panics when the CPU already holds the lock and otherwise returns
    with the lock held; [release] panics when it is not held.  Spinning while
    another CPU holds the lock is the subject of Spinlock.v. *)
Class HasLocks (S : Type) := {
  held : S -> list lockid;
  set_held : list lockid -> S -> S;
  held_set_held : forall l s, held (set_held l s) = l;
  set_held_held : forall s, set_held (held s) s = s;
  set_held_set_held : forall l l' s, set_held l (set_held l' s) = set_held l s
}.

Definition remove_lock (lk : lockid) (l : list lockid) : list lockid :=
  filter (fun x => x <> lk) l.

Section locks.
Context {S : Type} `{HasLocks S}.

Definition acquire (lk : lockid) : K S unit :=
  let* s := kget in
  if decide (lk ∈ held s) then kpanic "acquire"
  else kmod (set_held (lk :: held s)).

Definition release (lk : lockid) : K S unit :=
  let* s := kget in
  if decide (lk ∈ held s) then kmod (set_held (remove_lock lk (held s)))
  else kpanic "release".

Lemma acquire_ok lk s :
  lk ∉ held s -> acquire lk s = Ok tt (set_held (lk :: held s) s).
Proof. intros Hn. unfold acquire, kbind, kget. by rewrite decide_False. Qed.

Lemma total_acquire lk : total (acquire lk).
Proof. unfold acquire. intros s. unfold kbind, kget. by case_decide. Qed.

Lemma total_release lk : total (release lk).
Proof. unfold release. intros s. unfold kbind, kget. by case_decide. Qed.

Lemma release_ok lk s :
  lk ∈ held s -> release lk s = Ok tt (set_held (remove_lock lk (held s)) s).
Proof. intros Hn. unfold release, kbind, kget. by rewrite decide_True. Qed.
End locks.

Lemma remove_lock_notin lk l : lk ∉ l -> remove_lock lk l = l.
Proof.
  unfold remove_lock. induction l as [|x l IH]; intros Hn; [done|].
  rewrite filter_cons_True by set_solver. rewrite IH; set_solver.
Qed.

Lemma remove_lock_cons lk l : lk ∉ l -> remove_lock lk (lk :: l) = l.
Proof.
  intros Hn. unfold remove_lock. rewrite filter_cons_False by naive_solver.
  by apply remove_lock_notin.
Qed.

(** ** Maps as functions *)

Definition upd {X Y} `{EqDecision X} (f : X -> Y) (x : X) (y : Y) : X -> Y :=
  fun x' => if decide (x' = x) then y else f x'.

Lemma upd_eq {X Y} `{EqDecision X} (f : X -> Y) x y : upd f x y x = y.
Proof. unfold upd. by rewrite decide_True. Qed.

Lemma upd_ne {X Y} `{EqDecision X} (f : X -> Y) x y x' : x' <> x -> upd f x y x' = f x'.
Proof. intros. unfold upd. by rewrite decide_False. Qed.

(** ** Lists *)

(** Induction that looks two elements ahead. *)
Lemma list_ind2 {A} (P : list A -> Prop) : P [] -> (forall x, P [x]) -> (forall x y l, P l -> P (y :: l) -> P (x :: y :: l)) -> forall l, P l.
Proof.
  intros H0 H1 H2. assert (H : forall l, P l /\ forall x, P (x :: l)).
  { induction l as [|y l [IH1 IH2]]; [done|]. split; [apply IH2|]. intros x. by apply H2. }
  intros l. apply H.
Qed.

Lemma find_app {A} (f : A -> bool) (l1 l2 : list A) : find f (l1 ++ l2) = match find f l1 with Some x => Some x | None => find f l2 end.
Proof. induction l1 as [|x l1 IH]; [done|]. simpl. by destruct (f x). Qed.

Lemma filter_all {A} (P : A -> Prop) `{!forall x, Decision (P x)} (l : list A) : (forall x, x ∈ l -> P x) -> filter P l = l.
Proof. induction l as [|x l IH]; intros Hl; [done|]. rewrite filter_cons_True by (apply Hl; left). f_equal. apply IH. intros y Hy. apply Hl. by right. Qed.

Lemma filter_none {A} (P : A -> Prop) `{!forall x, Decision (P x)} (l : list A) : (forall x, x ∈ l -> ~ P x) -> filter P l = [].
Proof. induction l as [|x l IH]; intros Hl; [done|]. rewrite filter_cons_False by (apply Hl; left). apply IH. intros y Hy. apply Hl. by right. Qed.

(** ** Byte arrays *)

(** [memmove] into a byte array at an offset. *)
Definition splice {A} (off : nat) (new l : list A) : list A :=
  take off l ++ new ++ drop (off + length new) l.

Lemma length_splice {A} off (new l : list A) :
  (off + length new <= length l)%nat -> length (splice off new l) = length l.
Proof.
  intros. unfold splice. rewrite !length_app, length_take, length_drop. lia.
Qed.

Lemma lookup_splice_in {A} off (new l : list A) i :
  (off + length new <= length l)%nat -> (off <= i < off + length new)%nat ->
  splice off new l !! i = new !! (i - off)%nat.
Proof.
  intros. unfold splice.
  rewrite lookup_app_r by (rewrite length_take; lia).
  rewrite length_take, Nat.min_l by lia.
  by rewrite lookup_app_l by lia.
Qed.

Lemma lookup_splice_out {A} off (new l : list A) i :
  (off + length new <= length l)%nat -> (i < off \/ off + length new <= i)%nat ->
  splice off new l !! i = l !! i.
Proof.
  intros ? [Hi|Hi]; unfold splice.
  - rewrite lookup_app_l by (rewrite length_take; lia).
    rewrite lookup_take_lt; [done|lia].
  - rewrite lookup_app_r by (rewrite length_take; lia).
    rewrite length_take, Nat.min_l by lia.
    rewrite lookup_app_r by lia. rewrite lookup_drop. f_equal. lia.
Qed.

(** ** Automation shared by the components *)

Create HintDb xv6.
Create Rewrite HintDb xv6.
#[export] Hint Resolve u32_range u8_range s32_range : xv6.
#[export] Hint Resolve total_ret total_panic total_get total_gets total_mod total_block
  total_acquire total_release : xv6.
#[export] Hint Rewrite u32_idem u8_idem u32_add_l u32_sub_l : xv6.
#[export] Hint Rewrite @length_splice using lia : xv6.

(** Boolean facts of the model as propositions [lia] understands. *)
Ltac bool_hyps :=
  repeat match goal with
  | H : (_ && _)%bool = true |- _ => apply andb_prop in H as [? ?]
  | H : (_ && _)%bool = false |- _ => apply andb_false_iff in H as [?|?]
  | H : (_ || _)%bool = false |- _ => apply orb_false_elim in H as [? ?]
  | H : (_ || _)%bool = true |- _ => apply orb_prop in H as [?|?]
  | H : negb _ = true |- _ => apply negb_true_iff in H
  | H : negb _ = false |- _ => apply negb_false_iff in H
  | H : (_ <? _) = true |- _ => apply Z.ltb_lt in H
  | H : (_ <? _) = false |- _ => apply Z.ltb_ge in H
  | H : (_ <=? _) = true |- _ => apply Z.leb_le in H
  | H : (_ <=? _) = false |- _ => apply Z.leb_gt in H
  | H : (_ =? _) = true |- _ => apply Z.eqb_eq in H
  | H : (_ =? _) = false |- _ => apply Z.eqb_neq in H
  end.

(** The same after a case analysis on every [if] of the goal. *)
Ltac bool_cases :=
  repeat match goal with
  | |- context [ if ?b then _ else _ ] =>
      lazymatch type of b with
      | bool => let E := fresh "E" in destruct b eqn:E
      end
  end;
  bool_hyps.

(** Steps through the monad on a known state. *)
Ltac kstep := unfold kbind, kret, kget, kgets, kmod, kpanic, kblock, knofuel.

(** Totality of a computation by its structure and the hints of [xv6]. *)
Ltac total_tac :=
  repeat first
    [ progress intros
    | lazymatch goal with
      | |- total (kbind _ _) => apply total_bind
      | |- total (for_each _ _) => apply total_for_each
      | |- total (for_first _ _) => apply total_for_first
      | |- total (if ?b then _ else _) => let E := fresh "E" in destruct b eqn:E
      | |- total (match ?x with _ => _ end) => let E := fresh "E" in destruct x eqn:E
      | |- total _ => solve [auto with xv6]
      end ].
