(* ===== verification/CString.v ===== *)
(** * Memory and strings: string.c, ulib.c and the string instructions of x86.h

    Memory is a function from 32-bit addresses to bytes.  The kernel's
    [memset], [memcmp], [memmove], [strncmp], [strncpy], [safestrcpy] and
    [strlen] (string.c) and the user library's [strcpy], [strcmp], [strlen],
    [strchr], [atoi] and [memmove] (ulib.c) are the loops of the source over
    that memory, with pointer arithmetic modulo 2^32. *)

From S2P Require Import Prelude.

Definition mem : Type := Z -> Z.

Definition ld (m : mem) (a : Z) : Z := m (u32 a).
Definition st (m : mem) (a v : Z) : mem := fun x => if x =? u32 a then u8 v else m x.

(** ** The string instructions (x86.h) *)

(** [rep stosb]: [cnt] bytes from [addr] upwards. *)
Fixpoint stosb (m : mem) (addr data : Z) (cnt : nat) : mem :=
  match cnt with
  | O => m
  | S cnt' => stosb (st m addr data) (addr + 1) data cnt'
  end.

(** A 32-bit little-endian store. *)
Definition st32 (m : mem) (a v : Z) : mem :=
  st (st (st (st m a v) (a + 1) (Z.shiftr v 8)) (a + 2) (Z.shiftr v 16)) (a + 3) (Z.shiftr v 24).

Definition ld32 (m : mem) (a : Z) : Z :=
  ld m a + 256 * ld m (a + 1) + 65536 * ld m (a + 2) + 16777216 * ld m (a + 3).

(** [rep stosl]: [cnt] words. *)
Fixpoint stosl (m : mem) (addr data : Z) (cnt : nat) : mem :=
  match cnt with
  | O => m
  | S cnt' => stosl (st32 m addr data) (addr + 4) data cnt'
  end.

(** ** string.c *)

Definition memset (m : mem) (dst c n : Z) : mem :=
  if (Z.rem (s32 dst) 4 =? 0) && (n mod 4 =? 0) then
    let c := Z.land c 255 in
    stosl m dst
      (u32 (Z.lor (Z.lor (Z.lor (Z.shiftl c 24) (Z.shiftl c 16)) (Z.shiftl c 8)) c))
      (Z.to_nat (n / 4))
  else stosb m dst c (Z.to_nat n).

Fixpoint memcmp (m : mem) (s1 s2 : Z) (n : nat) : Z :=
  match n with
  | O => 0
  | S n' =>
      if negb (ld m s1 =? ld m s2) then ld m s1 - ld m s2
      else memcmp m (s1 + 1) (s2 + 1) n'
  end.

Fixpoint copy_up (m : mem) (d s : Z) (n : nat) : mem :=
  match n with
  | O => m
  | S n' => copy_up (st m d (ld m s)) (d + 1) (s + 1) n'
  end.

Fixpoint copy_down (m : mem) (d s : Z) (n : nat) : mem :=
  match n with
  | O => m
  | S n' => copy_down (st m (d - 1) (ld m (s - 1))) (d - 1) (s - 1) n'
  end.

Definition memmove (m : mem) (dst src n : Z) : mem :=
  if (src <? dst) && (dst <? u32 (src + n)) then
    copy_down m (u32 (dst + n)) (u32 (src + n)) (Z.to_nat n)
  else copy_up m dst src (Z.to_nat n).

Definition memcpy (m : mem) (dst src n : Z) : mem := memmove m dst src n.

Fixpoint strncmp (m : mem) (p q : Z) (n : nat) : Z :=
  match n with
  | O => 0
  | S n' =>
      if negb (ld m p =? 0) && (ld m p =? ld m q) then strncmp m (p + 1) (q + 1) n'
      else ld m p - ld m q
  end.

(** [while(n-- > 0) *s++ = 0] *)
Fixpoint zero_fill (m : mem) (s : Z) (n : nat) : mem :=
  match n with
  | O => m
  | S n' => zero_fill (st m s 0) (s + 1) n'
  end.

Fixpoint strncpy_loop (m : mem) (s t : Z) (n : nat) : mem :=
  match n with
  | O => m
  | S n' =>
      let c := ld m t in
      if c =? 0 then zero_fill (st m s c) (s + 1) n'
      else strncpy_loop (st m s c) (s + 1) (t + 1) n'
  end.

Definition strncpy (m : mem) (s t n : Z) : mem := strncpy_loop m s t (Z.to_nat n).

(** The loop of [safestrcpy] with [k] = the value [--n] is about to take. *)
Fixpoint safestrcpy_loop (m : mem) (s t : Z) (k : nat) : mem :=
  match k with
  | O => st m s 0
  | S k' =>
      let c := ld m t in
      if c =? 0 then st (st m s c) (s + 1) 0
      else safestrcpy_loop (st m s c) (s + 1) (t + 1) k'
  end.

Definition safestrcpy (m : mem) (s t n : Z) : mem :=
  if n <=? 0 then m else safestrcpy_loop m s t (Z.to_nat (n - 1)).

(** [strlen] looks for the NUL within [fuel] bytes. *)
Fixpoint strlen_from (m : mem) (s n : Z) (fuel : nat) : option Z :=
  match fuel with
  | O => None
  | S fuel' => if ld m (s + n) =? 0 then Some n else strlen_from m s (n + 1) fuel'
  end.

Definition strlen (m : mem) (s : Z) (fuel : nat) : option Z := strlen_from m s 0 fuel.

(** ** ulib.c *)

Fixpoint strcpy (m : mem) (s t : Z) (fuel : nat) : option mem :=
  match fuel with
  | O => None
  | S fuel' =>
      let c := ld m t in
      let m' := st m s c in
      if c =? 0 then Some m' else strcpy m' (s + 1) (t + 1) fuel'
  end.

Fixpoint strcmp (m : mem) (p q : Z) (fuel : nat) : option Z :=
  match fuel with
  | O => None
  | S fuel' =>
      if negb (ld m p =? 0) && (ld m p =? ld m q) then strcmp m (p + 1) (q + 1) fuel'
      else Some (ld m p - ld m q)
  end.

(** The address found, [Some 0] for a null result. *)
Fixpoint strchr (m : mem) (s c : Z) (fuel : nat) : option Z :=
  match fuel with
  | O => None
  | S fuel' =>
      if ld m s =? 0 then Some 0
      else if ld m s =? u8 c then Some (u32 s)
      else strchr m (s + 1) c fuel'
  end.

Fixpoint atoi_loop (m : mem) (s n : Z) (fuel : nat) : option Z :=
  match fuel with
  | O => None
  | S fuel' =>
      let c := s8 (ld m s) in
      if (48 <=? c) && (c <=? 57) then atoi_loop m (s + 1) (s32 (n * 10 + c - 48)) fuel'
      else Some n
  end.

Definition atoi (m : mem) (s : Z) (fuel : nat) : option Z := atoi_loop m s 0 fuel.

(** The user library's [memmove] always copies upwards. *)
Definition ulib_memmove (m : mem) (vdst vsrc n : Z) : mem :=
  copy_up m vdst vsrc (Z.to_nat n).

Definition ulib_memset (m : mem) (dst c n : Z) : mem := stosb m dst c (Z.to_nat n).

(** ** Properties *)

(** Memory holds bytes. *)
Definition mem_ok (m : mem) : Prop := forall a, 0 <= m a < 256.

(** The bytes of [[a, a+n)] do not wrap around the end of the address space. *)
Definition fits (a n : Z) : Prop := 0 <= a /\ 0 <= n /\ a + n <= 4294967296.

Lemma st_at m a v x :
  0 <= a < 4294967296 -> st m a v x = if x =? a then u8 v else m x.
Proof. intros. unfold st. by rewrite u32_small. Qed.

Lemma ld_at m a : 0 <= a < 4294967296 -> ld m a = m a.
Proof. intros. unfold ld. by rewrite u32_small. Qed.

Lemma st_cong m a a' v : u32 a = u32 a' -> st m a v = st m a' v.
Proof. intros E. unfold st. by rewrite E. Qed.

Lemma ld_cong m a a' : u32 a = u32 a' -> ld m a = ld m a'.
Proof. intros E. unfold ld. by rewrite E. Qed.

Lemma st_ok m a v : mem_ok m -> mem_ok (st m a v).
Proof. intros Hm x. unfold st. case_match; [apply u8_range|apply Hm]. Qed.
#[export] Hint Resolve st_ok : xv6.

Ltac addr_cases := repeat case_match; bool_cases; subst; try lia; try done.

Lemma stosb_spec n : forall m a c x, 0 <= a -> a + Z.of_nat n <= 4294967296 ->
  stosb m a c n x = if (a <=? x) && (x <? a + Z.of_nat n) then u8 c else m x.
Proof.
  induction n as [|n IH]; intros m a c x Ha Hn; simpl.
  - addr_cases.
  - rewrite IH by lia. rewrite st_at by lia. addr_cases.
Qed.

Lemma st32_bytes m a v x : 0 <= a -> a + 4 <= 4294967296 ->
  st32 m a v x =
    if x =? a then u8 v
    else if x =? a + 1 then u8 (Z.shiftr v 8)
    else if x =? a + 2 then u8 (Z.shiftr v 16)
    else if x =? a + 3 then u8 (Z.shiftr v 24)
    else m x.
Proof. intros. unfold st32. rewrite !st_at by lia. addr_cases. Qed.

Lemma stosl_spec n : forall m a c x, 0 <= a -> a + 4 * Z.of_nat n <= 4294967296 ->
  (forall k, k = 8 \/ k = 16 \/ k = 24 -> u8 (Z.shiftr c k) = u8 c) ->
  stosl m a c n x = if (a <=? x) && (x <? a + 4 * Z.of_nat n) then u8 c else m x.
Proof.
  induction n as [|n IH]; intros m a c x Ha Hn Hc; simpl.
  - addr_cases.
  - rewrite IH by (done || lia). rewrite st32_bytes by lia.
    rewrite !Hc by lia. addr_cases.
Qed.

(** The word [memset] repeats has the byte [c] in each of its four places. *)
Lemma memset_word c k : 0 <= c < 256 -> k = 0 \/ k = 8 \/ k = 16 \/ k = 24 ->
  u8 (Z.shiftr (u32 (Z.lor (Z.lor (Z.lor (Z.shiftl c 24) (Z.shiftl c 16)) (Z.shiftl c 8)) c)) k) = c.
Proof.
  intros Hc Hk.
  set (f := fun c => u8 (Z.shiftr (u32 (Z.lor (Z.lor (Z.lor (Z.shiftl c 24) (Z.shiftl c 16)) (Z.shiftl c 8)) c)) k)).
  change (f c = c). apply Z.eqb_eq.
  assert (Hall : forallb (fun i => f (Z.of_nat i) =? Z.of_nat i) (seq 0 256) = true).
  { subst f. destruct Hk as [->|[->|[->| ->]]]; vm_compute; reflexivity. }
  rewrite forallb_forall in Hall. specialize (Hall (Z.to_nat c)).
  rewrite Z2Nat.id in Hall by lia. apply Hall, in_seq. lia.
Qed.

Lemma memset_spec m dst c n x : fits dst n ->
  memset m dst c n x = if (dst <=? x) && (x <? dst + n) then u8 c else m x.
Proof.
  intros (H1 & H2 & H3). unfold memset.
  destruct ((Z.rem (s32 dst) 4 =? 0) && (n mod 4 =? 0)) eqn:E.
  - apply andb_prop in E as [_ E]. apply Z.eqb_eq in E.
    assert (Hland : Z.land c 255 = u8 c) by (apply (Z.land_ones c 8); lia).
    pose proof (u8_range c) as Hr. rewrite Hland.
    set (w := u32 _).
    assert (Hw : u8 w = u8 c).
    { pose proof (memset_word (u8 c) 0 Hr (or_introl eq_refl)) as Hk.
      by rewrite Z.shiftr_0_r in Hk. }
    rewrite stosl_spec.
    + rewrite Hw. replace (4 * Z.of_nat (Z.to_nat (n / 4))) with n by mlia. done.
    + lia.
    + mlia.
    + intros k Hk. rewrite Hw. apply memset_word; [done|]. lia.
  - rewrite stosb_spec by lia. by rewrite Z2Nat.id by lia.
Qed.

Lemma copy_up_spec n : forall m d s x, mem_ok m -> fits d (Z.of_nat n) -> fits s (Z.of_nat n) ->
  d <= s \/ s + Z.of_nat n <= d ->
  copy_up m d s n x = if (d <=? x) && (x <? d + Z.of_nat n) then m (s + (x - d)) else m x.
Proof.
  unfold fits. induction n as [|n IH]; intros m d s x Hm Hd Hs Ho; simpl.
  - addr_cases.
  - rewrite IH by (auto with xv6 || lia). rewrite !st_at, ld_at by lia.
    rewrite u8_small by apply Hm. addr_cases; f_equal; lia.
Qed.

Lemma copy_down_spec n : forall m d s x, mem_ok m ->
  0 <= d - Z.of_nat n -> d <= 4294967296 -> 0 <= s - Z.of_nat n -> s <= d ->
  copy_down m d s n x = if (d - Z.of_nat n <=? x) && (x <? d) then m (s + (x - d)) else m x.
Proof.
  induction n as [|n IH]; intros m d s x Hm H1 H2 H3 H4; simpl.
  - addr_cases.
  - rewrite IH by (auto with xv6 || lia). rewrite !st_at, ld_at by lia.
    rewrite u8_small by apply Hm. addr_cases; f_equal; lia.
Qed.

Lemma copy_down_cong n : forall m d d' s s', u32 d = u32 d' -> u32 s = u32 s' ->
  copy_down m d s n = copy_down m d' s' n.
Proof.
  induction n as [|n IH]; intros m d d' s s' Hd Hs; simpl; [done|].
  assert (Hd1 : u32 (d - 1) = u32 (d' - 1)) by (rewrite <- (u32_sub_l d), Hd; apply u32_sub_l).
  assert (Hs1 : u32 (s - 1) = u32 (s' - 1)) by (rewrite <- (u32_sub_l s), Hs; apply u32_sub_l).
  rewrite (st_cong m _ _ _ Hd1), (ld_cong m _ _ Hs1). by apply IH.
Qed.

(** The kernel's [memmove] copies [n] bytes from [src] to [dst] as if through
    a temporary buffer, whether or not the two regions overlap, and changes no
    byte outside the destination. *)
Theorem memmove_correct m dst src n x :
  mem_ok m -> fits dst n -> fits src n ->
  memmove m dst src n x =
    if (dst <=? x) && (x <? dst + n) then m (src + (x - dst)) else m x.
Proof.
  intros Hm (Hd1 & Hd2 & Hd3) (Hs1 & Hs2 & Hs3). unfold memmove.
  destruct ((src <? dst) && (dst <? u32 (src + n))) eqn:E.
  - bool_hyps.
    rewrite (copy_down_cong _ _ _ (dst + n) _ (src + n)) by apply u32_idem.
    rewrite copy_down_spec by (done || lia). rewrite Z2Nat.id by lia.
    replace (dst + n - n) with dst by lia.
    replace (src + n + (x - (dst + n))) with (src + (x - dst)) by lia. done.
  - assert (Ho : dst <= src \/ src + n <= dst).
    { apply andb_false_iff in E as [E|E]; [bool_hyps; lia|]. apply Z.ltb_ge in E.
      destruct (decide (src + n = 4294967296)); [lia|].
      rewrite u32_small in E by lia. lia. }
    rewrite copy_up_spec by (try done; unfold fits; lia).
    by rewrite Z2Nat.id by lia.
Qed.

Definition sample_mem : mem := fun a => u8 (a * 7 + 1).

Lemma memmove_correct_witness :
  mem_ok sample_mem /\ memmove sample_mem 102 100 6 105 = sample_mem 103.
Proof.
  assert (Hok : mem_ok sample_mem) by (intros a; apply u8_range).
  split; [exact Hok|].
  rewrite (memmove_correct sample_mem 102 100 6 105 Hok); [reflexivity| |]; unfold fits; lia.
Defined.

(** The user library's [memmove] is a [memmove] only when the destination does not
    start inside the source. *)
Lemma ulib_memmove_spec m dst src n x :
  mem_ok m -> fits dst n -> fits src n -> dst <= src \/ src + n <= dst ->
  ulib_memmove m dst src n x =
    if (dst <=? x) && (x <? dst + n) then m (src + (x - dst)) else m x.
Proof.
  unfold fits. intros Hm Hd Hs Ho. unfold ulib_memmove.
  rewrite copy_up_spec by (try done; unfold fits; lia). by rewrite Z2Nat.id by lia.
Qed.

Example ulib_memmove_overlap :
  map (ulib_memmove sample_mem 102 100 6) [102; 103; 104; 105] <>
  map (memmove sample_mem 102 100 6) [102; 103; 104; 105].
Proof. vm_compute. discriminate. Qed.

(** *** Comparison *)

Lemma memcmp_zero_iff n : forall m s1 s2,
  memcmp m s1 s2 n = 0 <->
  forall i, 0 <= i < Z.of_nat n -> ld m (s1 + i) = ld m (s2 + i).
Proof.
  induction n as [|n IH]; intros m s1 s2; simpl; [split; [lia|done]|].
  destruct (ld m s1 =? ld m s2) eqn:E; simpl; bool_cases.
  - rewrite IH. split; intros H i Hi.
    + destruct (decide (i = 0)) as [->|]; [by rewrite !Z.add_0_r|].
      specialize (H (i - 1)). rewrite <- !Z.add_assoc in H.
      replace (1 + (i - 1)) with i in H by lia. apply H; lia.
    + rewrite <- !Z.add_assoc. apply H. lia.
  - split; intros H; [lia|]. specialize (H 0). rewrite !Z.add_0_r in H. lia.
Qed.

(** [strncmp] answers 0 exactly when the two strings agree on every position
    below [n] up to and including the first NUL. *)
Theorem strncmp_zero_iff n : forall m p q,
  strncmp m p q n = 0 <->
  forall i, 0 <= i < Z.of_nat n -> (forall j, 0 <= j < i -> ld m (p + j) <> 0) ->
    ld m (p + i) = ld m (q + i).
Proof.
  induction n as [|n IH]; intros m p q; simpl; [split; [lia|done]|].
  destruct (negb (ld m p =? 0) && (ld m p =? ld m q)) eqn:E.
  - bool_hyps. rewrite IH. split; intros HA i Hi Hj.
    + destruct (decide (i = 0)) as [->|]; [by rewrite !Z.add_0_r|].
      specialize (HA (i - 1)). rewrite <- !Z.add_assoc in HA.
      replace (1 + (i - 1)) with i in HA by lia. apply HA; [lia|].
      intros j Hj'. rewrite <- Z.add_assoc. apply Hj. lia.
    + rewrite <- !Z.add_assoc. apply HA; [lia|]. intros j Hj'.
      destruct (decide (j = 0)) as [->|]; [by rewrite Z.add_0_r|].
      specialize (Hj (j - 1)). rewrite <- Z.add_assoc in Hj.
      replace (1 + (j - 1)) with j in Hj by lia. apply Hj. lia.
  - split; intros HA.
    + intros i Hi Hj. destruct (decide (i = 0)) as [->|]; [rewrite !Z.add_0_r; lia|].
      specialize (Hj 0). rewrite Z.add_0_r in Hj. bool_hyps; lia.
    + specialize (HA 0). rewrite !Z.add_0_r in HA. rewrite HA; [lia|lia|lia].
Qed.

(** *** Copying strings *)

Lemma zero_fill_spec n : forall m s x, 0 <= s -> s + Z.of_nat n <= 4294967296 ->
  zero_fill m s n x = if (s <=? x) && (x <? s + Z.of_nat n) then 0 else m x.
Proof.
  induction n as [|n IH]; intros m s x Hs Hn; simpl.
  - addr_cases.
  - rewrite IH by lia. rewrite st_at by lia. addr_cases.
Qed.

(** [v] is byte [i] of the string at [t] copied into a field padded with NULs. *)
Definition padded (m : mem) (t i v : Z) : Prop :=
  ((forall j, 0 <= j < i -> m (t + j) <> 0) -> v = m (t + i)) /\
  ((exists j, 0 <= j < i /\ m (t + j) = 0) -> v = 0).

Lemma padded_shift m t i v : m t <> 0 -> 0 < i ->
  padded m (t + 1) (i - 1) v -> padded m t i v.
Proof.
  intros Ht Hi [P1 P2]. split.
  - intros Hj. rewrite P1; [f_equal; lia|]. intros j Hj'.
    replace (t + 1 + j) with (t + (j + 1)) by lia. apply Hj. lia.
  - intros (j & Hj & Hz). apply P2. exists (j - 1).
    assert (j <> 0) by (intros ->; rewrite Z.add_0_r in Hz; done).
    replace (t + 1 + (j - 1)) with (t + j) by lia. split; [lia|done].
Qed.

Lemma padded_zero m t i : m t = 0 -> 0 <= i -> padded m t i 0.
Proof.
  intros Hz Hi. split; [|done]. intros Hj.
  destruct (decide (i = 0)) as [->|]; [by rewrite Z.add_0_r|].
  destruct (Hj 0); [lia|]. by rewrite Z.add_0_r.
Qed.

(** [padded] only looks at the source string. *)
Lemma padded_frame m m' t i v : 0 <= i ->
  (forall j, 0 <= j <= i -> m' (t + j) = m (t + j)) -> padded m' t i v -> padded m t i v.
Proof.
  intros Hi Hf [P1 P2]. split.
  - intros Hj. rewrite P1; [apply Hf; lia|]. intros j Hj'. rewrite Hf by lia. by apply Hj.
  - intros (j & Hj & Hz). apply P2. exists j. rewrite Hf by lia. done.
Qed.

Definition disjoint (s t n : Z) : Prop := s + n <= t \/ t + n <= s.

Lemma strncpy_loop_spec n : forall m s t, mem_ok m ->
  fits s (Z.of_nat n) -> fits t (Z.of_nat n) -> disjoint s t (Z.of_nat n) ->
  (forall i, 0 <= i < Z.of_nat n -> padded m t i (strncpy_loop m s t n (s + i))) /\
  (forall x, x < s \/ s + Z.of_nat n <= x -> strncpy_loop m s t n x = m x).
Proof.
  unfold fits, disjoint.
  induction n as [|n IH]; intros m s t Hm Hs Ht Hd; [split; [lia|done]|].
  simpl strncpy_loop. rewrite ld_at by lia.
  destruct (m t =? 0) eqn:E; bool_hyps.
  - split.
    + intros i Hi. rewrite zero_fill_spec by lia. rewrite st_at by lia.
      refine (eq_ind_r (padded m t i) (padded_zero m t i _ _) _); [lia|lia|].
      rewrite E. addr_cases.
    + intros x Hx. rewrite zero_fill_spec by lia. rewrite st_at by lia. addr_cases.
  - destruct (IH (st m s (m t)) (s + 1) (t + 1)) as [IH1 IH2]; auto with xv6; try lia.
    split.
    + intros i Hi. destruct (decide (i = 0)) as [->|Hi0].
      * rewrite IH2, st_at by lia. rewrite Z.add_0_r, Z.eqb_refl, u8_small by apply Hm.
        split; [by rewrite Z.add_0_r|]. intros (j & ? & _). lia.
      * apply padded_shift; [done|lia|].
        eapply padded_frame; [lia| |replace (s + i) with (s + 1 + (i - 1)) by lia; apply IH1; lia].
        intros j Hj. rewrite st_at by lia. addr_cases.
    + intros x Hx. rewrite IH2, st_at by lia. addr_cases.
Qed.

(** [strncpy] fills exactly the [n]-byte field at [s]: it copies the string at
    [t] up to its first NUL, pads the rest with NULs, and touches no other byte. *)
Theorem strncpy_correct m s t n :
  mem_ok m -> fits s n -> fits t n -> disjoint s t n ->
  (forall i, 0 <= i < n -> padded m t i (strncpy m s t n (s + i))) /\
  (forall x, x < s \/ s + n <= x -> strncpy m s t n x = m x).
Proof.
  intros Hm Hs Ht Hd. unfold strncpy. destruct Hs as (? & ? & ?).
  assert (Z.of_nat (Z.to_nat n) = n) as En by lia.
  pose proof (strncpy_loop_spec (Z.to_nat n) m s t) as H'. rewrite En in H'.
  apply H'; done.
Qed.

Lemma strncpy_correct_witness :
  fits 200 14 /\ padded sample_mem 100 3 (strncpy sample_mem 200 100 14 203).
Proof.
  split; [unfold fits; lia|].
  refine (proj1 (strncpy_correct sample_mem 200 100 14 _ _ _ _) 3 _);
    [intros a; apply u8_range| | | |]; unfold fits, disjoint; lia.
Defined.

Lemma safestrcpy_loop_spec k : forall m s t, mem_ok m ->
  fits s (Z.of_nat k + 1) -> fits t (Z.of_nat k + 1) -> disjoint s t (Z.of_nat k + 1) ->
  let m' := safestrcpy_loop m s t k in
  (forall x, x < s \/ s + (Z.of_nat k + 1) <= x -> m' x = m x) /\
  exists len, 0 <= len <= Z.of_nat k /\ m' (s + len) = 0 /\
    (forall i, 0 <= i < len -> m (t + i) <> 0 /\ m' (s + i) = m (t + i)) /\
    (len = Z.of_nat k \/ m (t + len) = 0).
Proof.
  unfold fits, disjoint.
  induction k as [|k IH]; intros m s t Hm Hs Ht Hd; simpl safestrcpy_loop.
  - split; [intros x Hx; rewrite st_at by lia; addr_cases|].
    exists 0. rewrite st_at, Z.add_0_r, Z.eqb_refl by lia. repeat split; lia.
  - rewrite ld_at by lia. destruct (m t =? 0) eqn:E; bool_hyps.
    + split; [intros x Hx; rewrite !st_at by lia; addr_cases|].
      exists 0. rewrite !st_at, !Z.add_0_r, Z.eqb_refl by lia.
      repeat split; try lia. rewrite E. addr_cases.
    + destruct (IH (st m s (m t)) (s + 1) (t + 1)) as [IH1 (len & Hl & Hz & Hc & He)];
        auto with xv6; try lia.
      split; [intros x Hx; rewrite IH1, st_at by lia; addr_cases|].
      exists (len + 1). replace (s + (len + 1)) with (s + 1 + len) by lia.
      split; [lia|]. split; [done|]. split.
      * intros i Hi. destruct (decide (i = 0)) as [->|].
        -- rewrite IH1, st_at, !Z.add_0_r, Z.eqb_refl, u8_small by (lia || apply Hm). done.
        -- destruct (Hc (i - 1)) as [Hc1 Hc2]; [lia|]. revert Hc1 Hc2.
           replace (s + 1 + (i - 1)) with (s + i) by lia.
           replace (t + 1 + (i - 1)) with (t + i) by lia.
           intros Hc1 Hc2. rewrite Hc2. rewrite st_at in * by lia. revert Hc1. addr_cases.
      * destruct He as [->|He]; [left; lia|right].
        replace (t + (len + 1)) with (t + 1 + len) by lia.
        revert He. rewrite st_at by lia. addr_cases.
Qed.

(** [safestrcpy] with a positive size always leaves a NUL-terminated string in
    the [n]-byte buffer at [s], equal to the longest prefix of the string at [t]
    that fits, and writes nothing outside the buffer. *)
Theorem safestrcpy_correct m s t n :
  mem_ok m -> 0 < n -> fits s n -> fits t n -> disjoint s t n ->
  (forall x, x < s \/ s + n <= x -> safestrcpy m s t n x = m x) /\
  exists len, 0 <= len < n /\ safestrcpy m s t n (s + len) = 0 /\
    (forall i, 0 <= i < len -> m (t + i) <> 0 /\ safestrcpy m s t n (s + i) = m (t + i)) /\
    (len = n - 1 \/ m (t + len) = 0).
Proof.
  intros Hm Hn Hs Ht Hd. unfold safestrcpy.
  destruct (n <=? 0) eqn:E; bool_hyps; [lia|].
  assert (Z.of_nat (Z.to_nat (n - 1)) + 1 = n) as En by lia.
  pose proof (safestrcpy_loop_spec (Z.to_nat (n - 1)) m s t) as H'. rewrite En in H'.
  destruct (H' Hm Hs Ht Hd) as [H1 (len & H2 & H3 & H4 & H5)]. split; [done|].
  exists len. split; [lia|]. split; [done|]. split; [done|]. destruct H5; [left; lia|by right].
Qed.

Lemma safestrcpy_correct_witness :
  fits 200 16 /\ exists len, 0 <= len < 16 /\ safestrcpy sample_mem 200 100 16 (200 + len) = 0.
Proof.
  split; [unfold fits; lia|].
  refine (match safestrcpy_correct sample_mem 200 100 16 _ _ _ _ _ with
          | conj _ (ex_intro _ len (conj H1 (conj H2 _))) => ex_intro _ len (conj H1 H2)
          end); [intros a; apply u8_range|lia| | |]; unfold fits, disjoint; lia.
Defined.

(** *** Lengths *)

Lemma strlen_from_spec fuel : forall m s n k, n <= k -> (Z.to_nat (k - n) < fuel)%nat ->
  ld m (s + k) = 0 -> (forall i, n <= i < k -> ld m (s + i) <> 0) ->
  strlen_from m s n fuel = Some k.
Proof.
  induction fuel as [|fuel IH]; intros m s n k Hn Hf Hz Hnz; [lia|]. simpl.
  destruct (decide (n = k)) as [->|Hne].
  - by rewrite Hz.
  - destruct (ld m (s + n) =? 0) eqn:E; bool_hyps.
    + exfalso. apply (Hnz n); [lia|done].
    + apply IH; [lia|lia|done|]. intros i Hi. apply Hnz. lia.
Qed.

Lemma strlen_correct m s k fuel : 0 <= k -> (Z.to_nat k < fuel)%nat ->
  ld m (s + k) = 0 -> (forall i, 0 <= i < k -> ld m (s + i) <> 0) ->
  strlen m s fuel = Some k.
Proof. intros. unfold strlen. apply strlen_from_spec; auto. lia. Qed.

(** *** Words *)

Lemma shiftr_bytes v : 0 <= v < 4294967296 ->
  v = v mod 256 + 256 * (Z.shiftr v 8 mod 256) + 65536 * (Z.shiftr v 16 mod 256)
      + 16777216 * (Z.shiftr v 24 mod 256).
Proof.
  intros Hv. rewrite !Z.shiftr_div_pow2 by lia.
  change (2 ^ 8) with 256. change (2 ^ 16) with 65536. change (2 ^ 24) with 16777216. mlia.
Qed.

Lemma ld32_st32 m a v : fits a 4 -> 0 <= v < 4294967296 -> ld32 (st32 m a v) a = v.
Proof.
  unfold fits. intros Ha Hv. unfold ld32. rewrite !ld_at, !st32_bytes by lia.
  repeat (case_match; bool_hyps; try lia). symmetry. by apply shiftr_bytes.
Qed.

Lemma ld32_st32_ne m a b v : fits a 4 -> fits b 4 -> a + 4 <= b \/ b + 4 <= a ->
  ld32 (st32 m a v) b = ld32 m b.
Proof.
  unfold fits. intros Ha Hb Hd. unfold ld32. rewrite !ld_at, !st32_bytes by lia.
  repeat (case_match; bool_hyps; try lia).
Qed.

Lemma ld32_eq m m' a : fits a 4 -> (forall b, a <= b < a + 4 -> m' b = m b) -> ld32 m' a = ld32 m a.
Proof. intros [H1 H2] H. unfold ld32. rewrite !ld_at, !H by lia. done. Qed.

Lemma st32_ok m a v : mem_ok m -> mem_ok (st32 m a v).
Proof. intros. unfold st32. auto with xv6. Qed.
#[export] Hint Resolve st32_ok : xv6.

Lemma ld32_range m a : mem_ok m -> 0 <= ld32 m a < 4294967296.
Proof.
  intros Hm. unfold ld32, ld.
  pose proof (Hm (u32 a)). pose proof (Hm (u32 (a + 1))).
  pose proof (Hm (u32 (a + 2))). pose proof (Hm (u32 (a + 3))). lia.
Qed.
