(* ===== verification/Mmu.v ===== *)
(** * The x86 MMU as the kernel sees it: mmu.h and memlayout.h

    Page-directory and page-table indices, page rounding, page table entries,
    the kernel's direct map of physical memory, and the segment and gate
    descriptors, as the macros compute them on 32-bit words. *)

From S2P Require Import Prelude.

(** ** Constants (mmu.h, memlayout.h) *)

Definition NPDENTRIES : Z := 1024.
Definition NPTENTRIES : Z := 1024.
Definition PGSIZE : Z := 4096.
Definition PTXSHIFT : Z := 12.
Definition PDXSHIFT : Z := 22.
Definition PTE_P : Z := 1.
Definition PTE_W : Z := 2.
Definition PTE_U : Z := 4.

(** Segment selectors of the kernel's descriptor table. *)
Definition SEG_KCODE : Z := 1.
Definition SEG_KDATA : Z := 2.
Definition SEG_KCPU : Z := 3.
Definition SEG_UCODE : Z := 4.
Definition SEG_UDATA : Z := 5.
Definition SEG_TSS : Z := 6.
Definition DPL_USER : Z := 3.
Definition FL_IF : Z := 0x200.
Definition EXTMEM : Z := 0x100000.
Definition PHYSTOP : Z := 0xE000000.
Definition DEVSPACE : Z := 0xFE000000.
Definition KERNBASE : Z := 0x80000000.
Definition KERNLINK : Z := KERNBASE + EXTMEM.

(** ** Addresses *)

Definition PDX (va : Z) : Z := Z.land (Z.shiftr (u32 va) PDXSHIFT) 0x3FF.
Definition PTX (va : Z) : Z := Z.land (Z.shiftr (u32 va) PTXSHIFT) 0x3FF.
Definition PGADDR (d t o : Z) : Z :=
  u32 (Z.lor (Z.lor (Z.shiftl d PDXSHIFT) (Z.shiftl t PTXSHIFT)) o).
Definition PGROUNDUP (sz : Z) : Z := Z.land (u32 (sz + PGSIZE - 1)) (u32 (Z.lnot (PGSIZE - 1))).
Definition PGROUNDDOWN (a : Z) : Z := Z.land (u32 a) (u32 (Z.lnot (PGSIZE - 1))).
Definition PTE_ADDR (pte : Z) : Z := Z.land (u32 pte) (u32 (Z.lnot 0xFFF)).
Definition PTE_FLAGS (pte : Z) : Z := Z.land (u32 pte) 0xFFF.

Definition v2p (a : Z) : Z := u32 (a - KERNBASE).
Definition p2v (a : Z) : Z := u32 (a + KERNBASE).

(** ** Segment and gate descriptors *)

Record segdesc := {
  lim_15_0 : Z; base_15_0 : Z; base_23_16 : Z; sd_type : Z; sd_s : Z; sd_dpl : Z; sd_p : Z;
  lim_19_16 : Z; sd_avl : Z; sd_rsv1 : Z; sd_db : Z; sd_g : Z; base_31_24 : Z
}.

(** Bit-fields keep the low bits of what is stored in them. *)
Definition bits (n z : Z) : Z := z mod 2 ^ n.

Definition SEG (type base lim dpl : Z) : segdesc := {|
  lim_15_0 := bits 16 (Z.land (Z.shiftr lim 12) 0xffff);
  base_15_0 := bits 16 (Z.land (u32 base) 0xffff);
  base_23_16 := bits 8 (Z.land (Z.shiftr (u32 base) 16) 0xff);
  sd_type := bits 4 type; sd_s := 1; sd_dpl := bits 2 dpl; sd_p := 1;
  lim_19_16 := bits 4 (Z.shiftr (u32 lim) 28);
  sd_avl := 0; sd_rsv1 := 0; sd_db := 1; sd_g := 1;
  base_31_24 := bits 8 (Z.shiftr (u32 base) 24)
|}.

Definition SEG16 (type base lim dpl : Z) : segdesc := {|
  lim_15_0 := bits 16 (Z.land lim 0xffff);
  base_15_0 := bits 16 (Z.land (u32 base) 0xffff);
  base_23_16 := bits 8 (Z.land (Z.shiftr (u32 base) 16) 0xff);
  sd_type := bits 4 type; sd_s := 1; sd_dpl := bits 2 dpl; sd_p := 1;
  lim_19_16 := bits 4 (Z.shiftr (u32 lim) 16);
  sd_avl := 0; sd_rsv1 := 0; sd_db := 1; sd_g := 0;
  base_31_24 := bits 8 (Z.shiftr (u32 base) 24)
|}.

Record gatedesc := {
  off_15_0 : Z; gd_cs : Z; gd_args : Z; gd_rsv1 : Z; gd_type : Z; gd_s : Z; gd_dpl : Z;
  gd_p : Z; off_31_16 : Z
}.

(** Stores into the fields [s] and [type]. *)
Definition set_sd_s (v : Z) (d : segdesc) : segdesc := {|
  lim_15_0 := lim_15_0 d; base_15_0 := base_15_0 d; base_23_16 := base_23_16 d; sd_type := sd_type d; sd_s := bits 1 v; sd_dpl := sd_dpl d; sd_p := sd_p d;
  lim_19_16 := lim_19_16 d; sd_avl := sd_avl d; sd_rsv1 := sd_rsv1 d; sd_db := sd_db d; sd_g := sd_g d; base_31_24 := base_31_24 d
|}.
Definition set_sd_type (v : Z) (d : segdesc) : segdesc := {|
  lim_15_0 := lim_15_0 d; base_15_0 := base_15_0 d; base_23_16 := base_23_16 d; sd_type := bits 4 v; sd_s := sd_s d; sd_dpl := sd_dpl d; sd_p := sd_p d;
  lim_19_16 := lim_19_16 d; sd_avl := sd_avl d; sd_rsv1 := sd_rsv1 d; sd_db := sd_db d; sd_g := sd_g d; base_31_24 := base_31_24 d
|}.

Definition STS_T32A : Z := 0x9.
Definition STS_T32B : Z := 0xB.
Definition STS_IG32 : Z := 0xE.
Definition STS_TG32 : Z := 0xF.

Definition SETGATE (istrap : bool) (sel off d : Z) : gatedesc := {|
  off_15_0 := bits 16 (Z.land (u32 off) 0xffff);
  gd_cs := bits 16 sel; gd_args := 0; gd_rsv1 := 0;
  gd_type := if istrap then STS_TG32 else STS_IG32;
  gd_s := 0; gd_dpl := bits 2 d; gd_p := 1;
  off_31_16 := bits 16 (Z.shiftr (u32 off) 16)
|}.

(** What the processor reads back from the descriptors. *)
Definition seg_base (s : segdesc) : Z :=
  base_15_0 s + 65536 * base_23_16 s + 16777216 * base_31_24 s.
Definition seg_limit (s : segdesc) : Z :=
  let l := lim_15_0 s + 65536 * lim_19_16 s in
  if sd_g s =? 1 then l * 4096 + 4095 else l.
Definition gate_off (g : gatedesc) : Z := off_15_0 g + 65536 * off_31_16 g.

(** ** Properties *)

Lemma land_ones_const a n m : 0 <= n -> m = Z.ones n -> Z.land a m = a mod 2 ^ n.
Proof. intros ? ->. by apply Z.land_ones. Qed.

Lemma page_mask a : 0 <= a < 4294967296 -> Z.land a 4294963200 = a - a mod 4096.
Proof.
  intros Ha. change 4294963200 with (Z.shiftl (Z.ones 20) 12).
  assert (Z.land a (Z.shiftl (Z.ones 20) 12) = Z.shiftl (Z.land (Z.shiftr a 12) (Z.ones 20)) 12) as ->.
  { apply Z.bits_inj'. intros n Hn. rewrite Z.land_spec, !Z.shiftl_spec by done.
    destruct (decide (n < 12)).
    - rewrite !(Z.testbit_neg_r _ (n - 12)) by lia. apply andb_false_r.
    - rewrite Z.land_spec, Z.shiftr_spec by lia. by replace (n - 12 + 12) with n by lia. }
  rewrite Z.land_ones, Z.shiftl_mul_pow2, Z.shiftr_div_pow2 by lia.
  change (2 ^ 12) with 4096. change (2 ^ 20) with 1048576. mlia.
Qed.

Lemma PGROUNDDOWN_eq a : 0 <= a < 4294967296 -> PGROUNDDOWN a = a - a mod 4096.
Proof. intros. unfold PGROUNDDOWN. rewrite u32_small by done. by apply page_mask. Qed.

Lemma PTE_ADDR_eq a : 0 <= a < 4294967296 -> PTE_ADDR a = a - a mod 4096.
Proof. apply PGROUNDDOWN_eq. Qed.

Lemma PTE_FLAGS_eq a : 0 <= a < 4294967296 -> PTE_FLAGS a = a mod 4096.
Proof.
  intros. unfold PTE_FLAGS. rewrite u32_small by done.
  by rewrite (land_ones_const _ 12) by done.
Qed.

Lemma PGROUNDUP_eq a : 0 <= a <= 4294963200 -> PGROUNDUP a = (a + 4095) / 4096 * 4096.
Proof.
  intros. unfold PGROUNDUP, PGSIZE. rewrite u32_small by lia.
  replace (a + 4096 - 1) with (a + 4095) by lia.
  rewrite page_mask by lia. mlia.
Qed.

Lemma PDX_eq va : 0 <= va < 4294967296 -> PDX va = va / 4194304.
Proof.
  intros. unfold PDX, PDXSHIFT. rewrite u32_small by done.
  rewrite (land_ones_const _ 10) by done. rewrite Z.shiftr_div_pow2 by lia.
  change (2 ^ 22) with 4194304. change (2 ^ 10) with 1024. mlia.
Qed.

Lemma PTX_eq va : 0 <= va < 4294967296 -> PTX va = (va / 4096) mod 1024.
Proof.
  intros. unfold PTX, PTXSHIFT. rewrite u32_small by done.
  rewrite (land_ones_const _ 10) by done. by rewrite Z.shiftr_div_pow2 by lia.
Qed.

Lemma lor_disjoint a b n : 0 <= n -> 0 <= b < 2 ^ n -> Z.lor (Z.shiftl a n) b = a * 2 ^ n + b.
Proof.
  intros Hn Hb. pose proof (Z.add_lor_land (Z.shiftl a n) b) as E.
  assert (Z.land (Z.shiftl a n) b = 0) as El.
  { apply Z.bits_inj'. intros i Hi. rewrite Z.land_spec, Z.bits_0, Z.shiftl_spec by done.
    destruct (decide (i < n)).
    - by rewrite Z.testbit_neg_r by lia.
    - rewrite <- (Z.mod_small b (2 ^ n)) by done.
      rewrite Z.mod_pow2_bits_high by lia. apply andb_false_r. }
  rewrite Z.shiftl_mul_pow2 in * by done. lia.
Qed.

(** The three parts of a 32-bit virtual address recompose to it:
    [PGADDR(PDX(va), PTX(va), va & 0xFFF) == va], and the indices are in range. *)
Theorem PGADDR_roundtrip va : 0 <= va < 4294967296 ->
  PGADDR (PDX va) (PTX va) (PTE_FLAGS va) = va /\
  0 <= PDX va < NPDENTRIES /\ 0 <= PTX va < NPTENTRIES.
Proof.
  intros Hva. unfold PGADDR, NPDENTRIES, NPTENTRIES.
  rewrite PDX_eq, PTX_eq, PTE_FLAGS_eq by done. unfold PDXSHIFT, PTXSHIFT.
  split; [|mlia].
  assert (E : Z.lor (Z.shiftl (va / 4194304) 22) (Z.shiftl ((va / 4096) mod 1024) 12)
          = Z.shiftl (va / 4096) 12).
  { rewrite lor_disjoint; [|lia|rewrite Z.shiftl_mul_pow2 by lia; change (2 ^ 22) with 4194304;
      change (2 ^ 12) with 4096; mlia].
    rewrite !Z.shiftl_mul_pow2 by lia. change (2 ^ 22) with 4194304. change (2 ^ 12) with 4096.
    mlia. }
  rewrite E, lor_disjoint by (try lia; change (2 ^ 12) with 4096; mlia).
  change (2 ^ 12) with 4096. rewrite u32_small; mlia.
Qed.

Lemma PGADDR_roundtrip_witness : PGADDR (PDX 0x80103abc) (PTX 0x80103abc) (PTE_FLAGS 0x80103abc) = 0x80103abc.
Proof. refine (proj1 (PGADDR_roundtrip 0x80103abc _)). lia. Defined.

Lemma page_index_inj va va' : 0 <= va < 4294967296 -> 0 <= va' < 4294967296 ->
  PDX va = PDX va' -> PTX va = PTX va' -> PGROUNDDOWN va = PGROUNDDOWN va'.
Proof.
  intros H H'. rewrite !PDX_eq, !PTX_eq, !PGROUNDDOWN_eq by done. mlia.
Qed.

Lemma PGROUNDUP_bounds sz : 0 <= sz <= 0xFFFFF000 ->
  PGROUNDUP sz mod PGSIZE = 0 /\ sz <= PGROUNDUP sz < sz + PGSIZE.
Proof. intros. rewrite PGROUNDUP_eq by lia. unfold PGSIZE. mlia. Qed.

(** [PGROUNDUP] yields the least page boundary at or above a size, except that a
    size above 0xFFFFF000 wraps to 0; every caller bounds the size by [KERNBASE]. *)
Theorem PGROUNDUP_spec sz : 0 <= sz < 4294967296 ->
  (sz <= 0xFFFFF000 ->
     PGROUNDUP sz mod PGSIZE = 0 /\ sz <= PGROUNDUP sz < sz + PGSIZE) /\
  (0xFFFFF000 < sz -> PGROUNDUP sz = 0).
Proof.
  intros Hsz. split; intros Hb.
  - apply PGROUNDUP_bounds. lia.
  - unfold PGROUNDUP, PGSIZE.
    assert (u32 (sz + 4096 - 1) = sz + 4096 - 1 - 4294967296) as -> by (unfold u32; mlia).
    change (u32 (Z.lnot (4096 - 1))) with 4294963200. rewrite page_mask by lia. mlia.
Qed.

Lemma PGROUNDUP_spec_witness : PGROUNDUP 5000 mod PGSIZE = 0 /\ PGROUNDUP 0xFFFFFFFF = 0.
Proof.
  split.
  - refine (proj1 (proj1 (PGROUNDUP_spec 5000 _) _)); lia.
  - refine (proj2 (PGROUNDUP_spec 0xFFFFFFFF _) _); lia.
Defined.

(** The direct map of physical memory. *)
Lemma v2p_p2v pa : 0 <= pa < PHYSTOP -> v2p (p2v pa) = pa.
Proof. unfold v2p, p2v, PHYSTOP, KERNBASE, u32. intros. mlia. Qed.

Lemma p2v_v2p va : KERNBASE <= va < KERNBASE + PHYSTOP -> p2v (v2p va) = va.
Proof. unfold v2p, p2v, PHYSTOP, KERNBASE, u32. intros. mlia. Qed.

Lemma v2p_eq va : KERNBASE <= va < KERNBASE + PHYSTOP -> v2p va = va - KERNBASE.
Proof. unfold v2p, PHYSTOP, KERNBASE, u32. intros. mlia. Qed.

(** A segment or gate descriptor gives the processor back the base, limit and
    offset it was built from. *)
Lemma SEG_base type base lim dpl : 0 <= base < 4294967296 ->
  seg_base (SEG type base lim dpl) = base.
Proof.
  intros. unfold seg_base, SEG, bits. simpl. rewrite u32_small by done.
  rewrite (land_ones_const base 16), (land_ones_const _ 8) by done.
  rewrite !Z.shiftr_div_pow2 by lia.
  change (2 ^ 16) with 65536. change (2 ^ 24) with 16777216. change (2 ^ 8) with 256. mlia.
Qed.

Lemma SETGATE_off istrap sel off d : 0 <= off < 4294967296 ->
  gate_off (SETGATE istrap sel off d) = off.
Proof.
  intros. unfold gate_off, SETGATE, bits. simpl. rewrite u32_small by done.
  rewrite (land_ones_const off 16) by done. rewrite !Z.shiftr_div_pow2 by lia.
  change (2 ^ 16) with 65536. mlia.
Qed.

Example SEG_flat : seg_limit (SEG 0xa 0 0xffffffff 0) = 0xffffffff.
Proof. reflexivity. Qed.
