(* ===== verification/Kalloc.v ===== *)
(** * The physical page allocator: kalloc.c

    The free list is a linked list threaded through the free pages themselves
    ([struct run]); memory is addressed by kernel virtual addresses.  The
    linker symbol [end] is the section variable [kend]. *)

From S2P Require Import Prelude CString Mmu.

(** [kmem] together with the memory the pages live in. *)
Record kstate := {
  k_mem : mem;
  k_freelist : Z;
  k_use_lock : bool;
  k_held : list lockid
}.

Definition set_mem (m : mem) (s : kstate) : kstate :=
  {| k_mem := m; k_freelist := k_freelist s; k_use_lock := k_use_lock s; k_held := k_held s |}.
Definition set_freelist (p : Z) (s : kstate) : kstate :=
  {| k_mem := k_mem s; k_freelist := p; k_use_lock := k_use_lock s; k_held := k_held s |}.
Definition set_use_lock (b : bool) (s : kstate) : kstate :=
  {| k_mem := k_mem s; k_freelist := k_freelist s; k_use_lock := b; k_held := k_held s |}.
Definition set_kheld (l : list lockid) (s : kstate) : kstate :=
  {| k_mem := k_mem s; k_freelist := k_freelist s; k_use_lock := k_use_lock s; k_held := l |}.

#[global, refine] Instance kstate_locks : HasLocks kstate := {|
  held := k_held; set_held := set_kheld
|}.
Proof. all: intros; repeat match goal with s : kstate |- _ => destruct s end; reflexivity. Defined.

Section kalloc.
Variable kend : Z.

Definition kfree (v : Z) : K kstate unit :=
  if negb (v mod PGSIZE =? 0) || (v <? kend) || (PHYSTOP <=? v2p v) then kpanic "kfree"
  else
    kmod (fun s => set_mem (memset (k_mem s) v 1 PGSIZE) s) ;;;
    let* lock := kgets k_use_lock in
    (when lock do acquire lk_kmem) ;;;
    kmod (fun s => set_freelist v (set_mem (st32 (k_mem s) v (k_freelist s)) s)) ;;;
    (when lock do release lk_kmem).

Definition kalloc : K kstate Z :=
  let* lock := kgets k_use_lock in
  (when lock do acquire lk_kmem) ;;;
  let* r := kgets k_freelist in
  (when negb (r =? 0) do kmod (fun s => set_freelist (ld32 (k_mem s) r) s)) ;;;
  (when lock do release lk_kmem) ;;;
  kret r.

(** The loop of [freerange] from [p]; [fuel] bounds the number of pages. *)
Fixpoint freerange_loop (p vend : Z) (fuel : nat) : K kstate unit :=
  match fuel with
  | O => knofuel
  | S fuel' =>
      if u32 (p + PGSIZE) <=? vend then kfree p ;;; freerange_loop (u32 (p + PGSIZE)) vend fuel'
      else kret tt
  end.

Definition freerange (vstart vend : Z) : K kstate unit :=
  freerange_loop (PGROUNDUP vstart) vend (S (Z.to_nat (vend / PGSIZE))).

Definition kinit1 (vstart vend : Z) : K kstate unit :=
  kmod (set_use_lock false) ;;;
  freerange vstart vend.

Definition kinit2 (vstart vend : Z) : K kstate unit :=
  freerange vstart vend ;;;
  kmod (set_use_lock true).

(** ** The abstraction: a stack of pages *)

(** An address [kfree] accepts. *)
Definition is_page (p : Z) : Prop :=
  p mod PGSIZE = 0 /\ kend <= p /\ KERNBASE <= p < KERNBASE + PHYSTOP.

Fixpoint chain (m : mem) (head : Z) (l : list Z) : Prop :=
  match l with
  | [] => head = 0
  | p :: l' => head = p /\ is_page p /\ chain m (ld32 m p) l'
  end.

(** The free list of the state is the list [l] of distinct pages. *)
Definition free_list (s : kstate) (l : list Z) : Prop :=
  mem_ok (k_mem s) /\ chain (k_mem s) (k_freelist s) l /\ NoDup l.

Definition lock_free (s : kstate) : Prop := lk_kmem ∉ k_held s.

Lemma chain_pages m h l : chain m h l -> Forall is_page l.
Proof. revert h. induction l; intros h; simpl; [constructor|]. intros (? & ? & ?). eauto. Qed.

Lemma is_page_fits p : is_page p -> fits p PGSIZE.
Proof. unfold is_page, fits, PGSIZE, KERNBASE, PHYSTOP. intros. lia. Qed.

(** Different pages do not overlap. *)
Lemma pages_disjoint p q : is_page p -> is_page q -> p <> q -> p + PGSIZE <= q \/ q + PGSIZE <= p.
Proof. unfold is_page, PGSIZE. intros. mlia. Qed.

Lemma chain_frame m m' h l :
  (forall p, p ∈ l -> ld32 m' p = ld32 m p) -> chain m h l -> chain m' h l.
Proof.
  revert h. induction l as [|p l IH]; intros h Hf; simpl; [done|].
  intros (-> & Hp & Hc). split_and!; [done|done|].
  rewrite Hf by set_solver. apply IH; [|done]. set_solver.
Qed.

Lemma ld32_page_ext m m' p : is_page p ->
  (forall x, p <= x < p + PGSIZE -> m' x = m x) -> ld32 m' p = ld32 m p.
Proof.
  intros Hp Hx. pose proof (is_page_fits p Hp) as (? & ? & ?). unfold PGSIZE in *.
  unfold ld32. rewrite !ld_at by lia. rewrite !Hx by lia. done.
Qed.

Lemma memset_ok m a c n : mem_ok m -> fits a n -> mem_ok (memset m a c n).
Proof.
  intros Hm Hf x. rewrite memset_spec by done. case_match; [apply u8_range|apply Hm].
Qed.

(** The guard of [kfree] rejects exactly the addresses that are not pages. *)
Lemma kfree_guard v : 0 <= v < 4294967296 -> KERNBASE <= kend ->
  negb (v mod PGSIZE =? 0) || (v <? kend) || (PHYSTOP <=? v2p v) = false <-> is_page v.
Proof.
  unfold is_page, PGSIZE, KERNBASE, PHYSTOP, v2p, u32. intros Hv Hk. split.
  - intros E. bool_hyps. unfold KERNBASE in *. mlia.
  - intros (H1 & H2 & H3). rewrite !orb_false_iff, negb_false_iff.
    rewrite Z.eqb_eq, Z.ltb_ge, Z.leb_gt. unfold KERNBASE. mlia.
Qed.

Lemma kfree_panics v s : 0 <= v < 4294967296 -> KERNBASE <= kend -> ~ is_page v ->
  kfree v s = Panic "kfree" s.
Proof.
  intros Hv Hk Hn. unfold kfree.
  destruct (negb (v mod PGSIZE =? 0) || (v <? kend) || (PHYSTOP <=? v2p v)) eqn:E; [done|].
  by apply kfree_guard in E.
Qed.

(** ** What the operations do *)

Lemma kfree_eq v s : 0 <= v < 4294967296 -> KERNBASE <= kend -> is_page v -> lock_free s ->
  kfree v s = Ok tt (set_freelist v (set_mem (st32 (memset (k_mem s) v 1 PGSIZE) v (k_freelist s)) s)).
Proof.
  intros Hv Hk Hp Hl. pose proof (proj2 (kfree_guard v Hv Hk) Hp) as E.
  unfold kfree. rewrite E. clear E.
  destruct s as [m fl ul hl]. unfold lock_free in Hl. simpl in Hl. kstep. simpl.
  destruct ul; [|done].
  rewrite acquire_ok by done. simpl. rewrite release_ok by (simpl; constructor).
  simpl. rewrite remove_lock_cons by done. done.
Qed.

Lemma kalloc_eq s : lock_free s ->
  kalloc s = Ok (k_freelist s)
    (if k_freelist s =? 0 then s else set_freelist (ld32 (k_mem s) (k_freelist s)) s).
Proof.
  intros Hl. destruct s as [m fl ul hl]. unfold lock_free in Hl. simpl in Hl.
  unfold kalloc. kstep. simpl. destruct ul.
  - rewrite acquire_ok by done. simpl. destruct (fl =? 0); simpl;
      by rewrite remove_lock_cons.
  - destruct (fl =? 0) eqn:E; simpl; by rewrite ?E.
Qed.

Hypothesis kend_ok : KERNBASE <= kend.

Lemma is_page_nonzero p : is_page p -> 0 < p < 4294967296.
Proof. unfold is_page, KERNBASE, PHYSTOP in *. lia. Qed.

Lemma kfree_spec v s l : free_list s l -> lock_free s -> is_page v -> v ∉ l ->
  runs (kfree v) s (fun _ s' =>
    free_list s' (v :: l) /\ k_held s' = k_held s /\ k_use_lock s' = k_use_lock s /\
    (forall x, x < v \/ v + PGSIZE <= x -> k_mem s' x = k_mem s x)).
Proof.
  intros (Hm & Hc & Hnd) Hl Hp Hv. pose proof (is_page_nonzero v Hp).
  pose proof (is_page_fits v Hp) as Hf.
  eapply runs_eq; [apply kfree_eq; (done || lia)|]. simpl.
  assert (Hout : forall x, x < v \/ v + PGSIZE <= x ->
    st32 (memset (k_mem s) v 1 PGSIZE) v (k_freelist s) x = k_mem s x).
  { intros x Hx. unfold fits, PGSIZE in *. rewrite st32_bytes by lia.
    repeat case_match; bool_hyps; try lia.
    rewrite memset_spec by (unfold fits; lia). case_match; bool_hyps; (lia || done). }
  split; [|split_and!; [done|done|exact Hout]]. split; [|split].
  - simpl. auto using st32_ok, memset_ok.
  - simpl. split_and!; [done|done|].
    assert (Hfl : 0 <= k_freelist s < 4294967296).
    { destruct l as [|q l']; simpl in Hc; [lia|]. destruct Hc as (-> & Hq & _).
      pose proof (is_page_nonzero q Hq). lia. }
    rewrite ld32_st32 by (unfold fits, PGSIZE in *; lia).
    eapply chain_frame; [|exact Hc]. intros q Hq.
    assert (is_page q) by (eapply Forall_forall; [eapply chain_pages, Hc|done]).
    assert (q <> v) by (intros ->; done).
    apply ld32_page_ext; [done|]. intros x Hx. apply Hout.
    destruct (pages_disjoint q v); (done || lia).
  - by constructor.
Qed.

Lemma kalloc_spec s l : free_list s l -> lock_free s ->
  runs kalloc s (fun r s' =>
    r = hd 0 l /\ free_list s' (tl l) /\ k_held s' = k_held s /\
    k_use_lock s' = k_use_lock s /\ k_mem s' = k_mem s).
Proof.
  intros (Hm & Hc & Hnd) Hl. eapply runs_eq; [by apply kalloc_eq|].
  destruct l as [|p l]; simpl in Hc.
  - rewrite Hc. simpl. split; [done|]. split; [split; [done|by split]|done].
  - destruct Hc as (E & Hp & Hc). pose proof (is_page_nonzero p Hp). rewrite E.
    destruct (p =? 0) eqn:E0; bool_hyps; [lia|]. simpl.
    inversion Hnd; subst. split; [done|]. split; [split; [done|by split]|done].
Qed.

(** The pages of [[p, p + n*PGSIZE)], in the order [freerange] frees them. *)
Fixpoint page_range (p : Z) (n : nat) : list Z :=
  match n with O => [] | S n' => p :: page_range (p + PGSIZE) n' end.

Lemma page_range_elem n : forall p x, x ∈ page_range p n -> p <= x < p + PGSIZE * Z.of_nat n.
Proof.
  unfold PGSIZE. induction n as [|n IH]; intros p x; simpl; [set_solver|].
  intros [->|Hx]%elem_of_cons; [lia|]. apply IH in Hx. unfold PGSIZE in *. lia.
Qed.

Lemma freerange_loop_spec n : forall p vend s l fuel,
  free_list s l -> lock_free s -> is_page p \/ n = O -> 0 <= p -> (n < fuel)%nat ->
  p + PGSIZE * Z.of_nat n <= vend < p + PGSIZE * (Z.of_nat n + 1) ->
  vend <= KERNBASE + PHYSTOP -> (forall x, x ∈ l -> x < p) ->
  runs (freerange_loop p vend fuel) s (fun _ s' =>
    free_list s' (rev (page_range p n) ++ l) /\ k_held s' = k_held s /\ k_use_lock s' = k_use_lock s).
Proof.
  induction n as [|n IH]; intros p vend s l fuel Hfl Hl Hp Hp0 Hfuel Hv Hend Hlt;
    (destruct fuel as [|fuel]; [lia|]); simpl.
  - unfold PGSIZE, KERNBASE, PHYSTOP in *. rewrite u32_small by lia.
    destruct (p + 4096 <=? vend) eqn:E; bool_hyps; [lia|]. done.
  - destruct Hp as [Hp|]; [|done].
    unfold PGSIZE, KERNBASE, PHYSTOP in *. rewrite u32_small by lia.
    destruct (p + 4096 <=? vend) eqn:E; bool_hyps; [|lia].
    apply runs_bind. eapply runs_conseq.
    { apply (kfree_spec p s l); try done. intros Hin. specialize (Hlt p Hin). lia. }
    intros _ s' (Hfl' & Hh & Hu & _). eapply runs_conseq.
    { apply (IH (p + 4096) vend s' (p :: l) fuel); try done; try lia.
      - unfold lock_free in *. by rewrite Hh.
      - destruct n; [by right|left]. unfold is_page, PGSIZE, KERNBASE, PHYSTOP in *. mlia.
      - intros x [->|Hx]%elem_of_cons; [lia|]. specialize (Hlt x Hx). lia. }
    intros _ s'' (Hfl'' & Hh' & Hu'). rewrite <- app_assoc. simpl.
    split_and!; [done|congruence|congruence].
Qed.
End kalloc.

(** [kfree] and [kalloc] implement a stack of distinct, page-aligned pages inside
    [[end, P2V(PHYSTOP))]: freeing pushes (and keeps every byte outside the page),
    allocating pops or answers 0 on an empty list, memory is left untouched by an
    allocation, and the lock is released on every path. *)
Theorem kalloc_stack_refinement kend s l v :
  KERNBASE <= kend -> free_list kend s l -> lock_free s -> is_page kend v -> v ∉ l ->
  runs (kfree kend v) s (fun _ s1 =>
    free_list kend s1 (v :: l) /\ lock_free s1 /\
    (forall x, x < v \/ v + PGSIZE <= x -> k_mem s1 x = k_mem s x) /\
    runs kalloc s1 (fun r s2 => r = v /\ free_list kend s2 l /\ lock_free s2)) /\
  runs kalloc s (fun r s1 => r = hd 0 l /\ free_list kend s1 (tl l) /\ lock_free s1 /\
    k_mem s1 = k_mem s).
Proof.
  intros Hk Hfl Hl Hp Hv. split.
  - eapply runs_conseq; [by apply kfree_spec|]. intros _ s1 (H1 & H2 & _ & H3).
    assert (lock_free s1) by (unfold lock_free in *; by rewrite H2).
    split_and!; [done|done|done|]. eapply runs_conseq; [by eapply kalloc_spec|].
    intros r s2 (-> & H4 & H5 & _). split_and!; [done|done|].
    unfold lock_free in *. by rewrite H5.
  - eapply runs_conseq; [by eapply kalloc_spec|]. intros r s1 (-> & H1 & H2 & _ & H3).
    split_and!; [done|done| |done]. unfold lock_free in *. by rewrite H2.
Qed.

(** An allocator whose list holds no page yet, with zeroed memory. *)
Definition empty_kstate : kstate :=
  {| k_mem := fun _ => 0; k_freelist := 0; k_use_lock := true; k_held := [] |}.

Lemma empty_free_list kend : free_list kend empty_kstate [].
Proof. split_and!; [intros a; simpl; lia|done|constructor]. Qed.

Lemma kalloc_stack_refinement_witness :
  runs (kfree 0x80110000 0x80200000) empty_kstate (fun _ s1 =>
    runs kalloc s1 (fun r s2 => r = 0x80200000)).
Proof.
  refine (runs_conseq _ _ _ _ (proj1 (kalloc_stack_refinement 0x80110000 empty_kstate [] 0x80200000 _ _ _ _ _)) _).
  - unfold KERNBASE. lia.
  - apply empty_free_list.
  - unfold lock_free. simpl. set_solver.
  - unfold is_page, PGSIZE, KERNBASE, PHYSTOP. split_and!; lia || reflexivity.
  - set_solver.
  - intros _ s1 (_ & _ & _ & H). eapply runs_conseq; [exact H|]. by intros r s2 (-> & _).
Defined.

(** [freerange] terminates and puts exactly the whole pages of [[vstart, vend)]
    on the free list, the last page first; [kinit1] does so from an empty list. *)
Theorem freerange_spec kend s l vstart vend :
  KERNBASE <= kend <= vstart -> vstart <= KERNBASE + PHYSTOP -> free_list kend s l -> lock_free s ->
  PGROUNDUP vstart <= vend <= KERNBASE + PHYSTOP -> (forall x, x ∈ l -> x < PGROUNDUP vstart) ->
  runs (freerange kend vstart vend) s (fun _ s' =>
    free_list kend s' (rev (page_range (PGROUNDUP vstart)
      (Z.to_nat ((vend - PGROUNDUP vstart) / PGSIZE))) ++ l) /\ lock_free s').
Proof.
  intros Hk Hvs Hfl Hl Hv Hlt. unfold freerange. unfold KERNBASE, PHYSTOP in Hvs, Hk.
  destruct (PGROUNDUP_bounds vstart) as [Hr1 Hr2]; [lia|].
  set (p := PGROUNDUP vstart) in *. unfold PGSIZE, KERNBASE, PHYSTOP in *.
  eapply runs_conseq.
  { apply (freerange_loop_spec kend (proj1 Hk) (Z.to_nat ((vend - p) / 4096)) p vend s l);
      unfold PGSIZE, KERNBASE, PHYSTOP; try done; try mlia.
    destruct (Z.to_nat ((vend - p) / 4096)) eqn:En; [by right|left].
    unfold is_page, PGSIZE, KERNBASE, PHYSTOP. mlia. }
  intros _ s' (H1 & H2 & _). split; [done|]. unfold lock_free in *. by rewrite H2.
Qed.

Lemma freerange_spec_witness :
  runs (freerange 0x80110000 0x80110010 0x80113000) empty_kstate (fun _ s' =>
    free_list 0x80110000 s' [0x80112000; 0x80111000]).
Proof.
  refine (runs_conseq _ _ _ _ (freerange_spec 0x80110000 empty_kstate [] 0x80110010 0x80113000 _ _ _ _ _ _) _).
  - unfold KERNBASE. lia.
  - unfold KERNBASE, PHYSTOP. lia.
  - apply empty_free_list.
  - unfold lock_free. simpl. apply not_elem_of_nil.
  - vm_compute. split; discriminate.
  - intros x Hx. by apply not_elem_of_nil in Hx.
  - intros _ s' [H _]. exact H.
Defined.

(** [kfree] does not look for the page on the list: a double free makes the list
    cyclic, and [kalloc] then hands the same page out twice. *)
Example kfree_twice :
  match kfree 0x80110000 0x80200000 empty_kstate with
  | Ok _ s => match kfree 0x80110000 0x80200000 s with
              | Ok _ s => match kalloc s with
                          | Ok a s => match kalloc s with
                                      | Ok b _ => a =? b
                                      | _ => false end
                          | _ => false end
              | _ => false end
  | _ => false
  end = true.
Proof. vm_compute. reflexivity. Qed.

Lemma kfree_total kend v : total (kfree kend v).
Proof. unfold kfree. total_tac. Qed.

Lemma kalloc_total : total kalloc.
Proof. unfold kalloc. total_tac. Qed.

#[export] Hint Resolve kfree_total kalloc_total : xv6.
