(* ===== verification/Vm.v ===== *)
(** * Virtual memory: vm.c

    Page directories and page tables are pages of the kernel's memory; the code
    reaches them through the direct map ([p2v]).  A page table operation is a
    computation over the state of the page allocator ([kstate]: the memory and
    the free list).  The linker symbols [end] and [data] are the section
    variables [kend] and [kdata]; the inode that [loaduvm] reads from is the
    function argument [readi]. *)

From S2P Require Import Prelude CString Mmu Kalloc.

Section vm.
Variable kend : Z.   (* end[] *)
Variable kdata : Z.  (* data[] *)

Definition present (e : Z) : bool := negb (Z.land e PTE_P =? 0).

Definition load32 (a : Z) : K kstate Z := kgets (fun s => ld32 (k_mem s) a).
Definition store32 (a v : Z) : K kstate unit := kmod (fun s => set_mem (st32 (k_mem s) a v) s).

(** The address of the PTE for [va], or 0. *)
Definition walkpgdir (pgdir va : Z) (alloc : bool) : K kstate Z :=
  let pde := pgdir + 4 * PDX va in
  let* e := load32 pde in
  if present e then kret (p2v (PTE_ADDR e) + 4 * PTX va)
  else if negb alloc then kret 0
  else
    let* pgtab := kalloc in
    if pgtab =? 0 then kret 0
    else
      kmod (fun s => set_mem (memset (k_mem s) pgtab 0 PGSIZE) s) ;;;
      store32 pde (Z.lor (Z.lor (Z.lor (v2p pgtab) PTE_P) PTE_W) PTE_U) ;;;
      kret (pgtab + 4 * PTX va).

(** The loop of [mappages]; 0 on success, -1 when a page table cannot be
    allocated. *)
Fixpoint mappages_loop (pgdir a last pa perm : Z) (fuel : nat) : K kstate Z :=
  match fuel with
  | O => knofuel
  | S fuel' =>
      let* pte := walkpgdir pgdir a true in
      if pte =? 0 then kret (-1)
      else
        let* e := load32 pte in
        if present e then kpanic "remap"
        else
          store32 pte (Z.lor (Z.lor pa perm) PTE_P) ;;;
          if a =? last then kret 0
          else mappages_loop pgdir (u32 (a + PGSIZE)) last (u32 (pa + PGSIZE)) perm fuel'
  end.

Definition mappages (pgdir va size pa perm : Z) : K kstate Z :=
  let a := PGROUNDDOWN va in
  let last := PGROUNDDOWN (u32 (u32 (va + size) - 1)) in
  mappages_loop pgdir a last pa perm (S (Z.to_nat (u32 (last - a) / PGSIZE))).

(** [struct kmap] and the kernel's mappings. *)
Record kmap_entry := { km_virt : Z; km_phys_start : Z; km_phys_end : Z; km_perm : Z }.

Definition kmap : list kmap_entry := [
  {| km_virt := KERNBASE; km_phys_start := 0; km_phys_end := EXTMEM; km_perm := PTE_W |};
  {| km_virt := KERNLINK; km_phys_start := v2p KERNLINK; km_phys_end := v2p kdata; km_perm := 0 |};
  {| km_virt := kdata; km_phys_start := v2p kdata; km_phys_end := PHYSTOP; km_perm := PTE_W |};
  {| km_virt := DEVSPACE; km_phys_start := DEVSPACE; km_phys_end := 0; km_perm := PTE_W |}
].

Definition setupkvm : K kstate Z :=
  let* pgdir := kalloc in
  if pgdir =? 0 then kret 0
  else
    kmod (fun s => set_mem (memset (k_mem s) pgdir 0 PGSIZE) s) ;;;
    if DEVSPACE <? p2v PHYSTOP then kpanic "PHYSTOP too high"
    else
      let* failed := for_first kmap (fun k =>
        let* r := mappages pgdir (km_virt k) (u32 (km_phys_end k - km_phys_start k))
                    (km_phys_start k) (km_perm k) in
        kret (if r <? 0 then Some tt else None)) in
      kret (match failed with Some _ => 0 | None => pgdir end).

(** Bytes of the embedded initcode program, copied by [memmove]. *)
Fixpoint st_bytes (m : mem) (a : Z) (bs : list Z) : mem :=
  match bs with
  | [] => m
  | b :: bs' => st_bytes (st m a b) (a + 1) bs'
  end.

Definition inituvm (pgdir : Z) (init : list Z) : K kstate unit :=
  if PGSIZE <=? Z.of_nat (length init) then kpanic "inituvm: more than a page"
  else
    let* page := kalloc in
    kmod (fun s => set_mem (memset (k_mem s) page 0 PGSIZE) s) ;;;
    mappages pgdir 0 PGSIZE (v2p page) (Z.lor PTE_W PTE_U) ;;;
    kmod (fun s => set_mem (st_bytes (k_mem s) page init) s).

(** [readi dst off n] reads [n] bytes at offset [off] of the inode into kernel
    memory at [dst] and returns the count, or -1.  It works on the file system too: [X] is a state
    with the memory in it, on which [lift] runs the code of this file. *)
Fixpoint loaduvm_loop {X} (lift : forall A, K kstate A -> K X A) (readi : Z -> Z -> Z -> K X Z)
    (pgdir addr offset sz i : Z) (fuel : nat) : K X Z :=
  match fuel with
  | O => knofuel
  | S fuel' =>
      if i <? sz then
        let* pte := lift _ (walkpgdir pgdir (u32 (addr + i)) false) in
        if pte =? 0 then kpanic "loaduvm: address should exist"
        else
          let* e := lift _ (load32 pte) in
          let pa := PTE_ADDR e in
          let n := if sz - i <? PGSIZE then sz - i else PGSIZE in
          let* r := readi (p2v pa) (u32 (offset + i)) n in
          if negb (u32 r =? n) then kret (-1)
          else loaduvm_loop lift readi pgdir addr offset sz (u32 (i + PGSIZE)) fuel'
      else kret 0
  end.

Definition loaduvm {X} (lift : forall A, K kstate A -> K X A) (readi : Z -> Z -> Z -> K X Z)
    (pgdir addr offset sz : Z) : K X Z :=
  if negb (addr mod PGSIZE =? 0) then kpanic "loaduvm: addr must be page aligned"
  else loaduvm_loop lift readi pgdir addr offset sz 0 (S (Z.to_nat (sz / PGSIZE + 1))).

Fixpoint deallocuvm_loop (pgdir a oldsz : Z) (fuel : nat) : K kstate unit :=
  match fuel with
  | O => knofuel
  | S fuel' =>
      if a <? oldsz then
        let* pte := walkpgdir pgdir a false in
        if pte =? 0 then
          deallocuvm_loop pgdir (u32 (u32 (a + (NPTENTRIES - 1) * PGSIZE) + PGSIZE)) oldsz fuel'
        else
          let* e := load32 pte in
          (when present e do
             let pa := PTE_ADDR e in
             if pa =? 0 then kpanic "kfree"
             else
               kfree kend (p2v pa) ;;;
               store32 pte 0) ;;;
          deallocuvm_loop pgdir (u32 (a + PGSIZE)) oldsz fuel'
      else kret tt
  end.

Definition deallocuvm (pgdir oldsz newsz : Z) : K kstate Z :=
  if oldsz <=? newsz then kret oldsz
  else
    deallocuvm_loop pgdir (PGROUNDUP newsz) oldsz (S (Z.to_nat (oldsz / PGSIZE + 1))) ;;;
    kret newsz.

(** The loop of [allocuvm]; the result of [mappages] is discarded, as in the
    source. *)
Fixpoint allocuvm_loop (pgdir a oldsz newsz : Z) (fuel : nat) : K kstate Z :=
  match fuel with
  | O => knofuel
  | S fuel' =>
      if a <? newsz then
        let* page := kalloc in
        if page =? 0 then
          deallocuvm pgdir newsz oldsz ;;; kret 0
        else
          kmod (fun s => set_mem (memset (k_mem s) page 0 PGSIZE) s) ;;;
          mappages pgdir a PGSIZE (v2p page) (Z.lor PTE_W PTE_U) ;;;
          allocuvm_loop pgdir (u32 (a + PGSIZE)) oldsz newsz fuel'
      else kret newsz
  end.

Definition allocuvm (pgdir oldsz newsz : Z) : K kstate Z :=
  if KERNBASE <=? newsz then kret 0
  else if newsz <? oldsz then kret oldsz
  else allocuvm_loop pgdir (PGROUNDUP oldsz) oldsz newsz (S (Z.to_nat (newsz / PGSIZE + 1))).

Definition freevm (pgdir : Z) : K kstate unit :=
  if pgdir =? 0 then kpanic "freevm: no pgdir"
  else
    deallocuvm pgdir KERNBASE 0 ;;;
    for_each (seqZ 0 NPDENTRIES) (fun i =>
      let* e := load32 (pgdir + 4 * i) in
      when present e do kfree kend (p2v (PTE_ADDR e))) ;;;
    kfree kend pgdir.

Definition clearpteu (pgdir uva : Z) : K kstate unit :=
  let* pte := walkpgdir pgdir uva false in
  if pte =? 0 then kpanic "clearpteu"
  else
    let* e := load32 pte in
    store32 pte (Z.land e (u32 (Z.lnot PTE_U))).

(** The loop of [copyuvm]: [false] is the jump to [bad]. *)
Fixpoint copyuvm_loop (pgdir d sz i : Z) (fuel : nat) : K kstate bool :=
  match fuel with
  | O => knofuel
  | S fuel' =>
      if i <? sz then
        let* pte := walkpgdir pgdir i false in
        if pte =? 0 then kpanic "copyuvm: pte should exist"
        else
          let* e := load32 pte in
          if negb (present e) then kpanic "copyuvm: page not present"
          else
            let pa := PTE_ADDR e in
            let flags := PTE_FLAGS e in
            let* page := kalloc in
            if page =? 0 then kret false
            else
              kmod (fun s => set_mem (memmove (k_mem s) page (p2v pa) PGSIZE) s) ;;;
              let* r := mappages d i PGSIZE (v2p page) flags in
              if r <? 0 then kret false
              else copyuvm_loop pgdir d sz (u32 (i + PGSIZE)) fuel'
      else kret true
  end.

Definition copyuvm (pgdir sz : Z) : K kstate Z :=
  let* d := setupkvm in
  if d =? 0 then kret 0
  else
    let* ok := copyuvm_loop pgdir d sz 0 (S (Z.to_nat (sz / PGSIZE + 1))) in
    if (ok : bool) then kret d
    else freevm d ;;; kret 0.

(** As in the source, a missing page table ([pte == 0]) is not checked: the
    code then reads the word at address 0. *)
Definition uva2ka (pgdir uva : Z) : K kstate Z :=
  let* pte := walkpgdir pgdir uva false in
  let* e := load32 pte in
  if Z.land e PTE_P =? 0 then kret 0
  else if Z.land e PTE_U =? 0 then kret 0
  else kret (p2v (PTE_ADDR e)).

(** [copyout] of the bytes [buf] to user address [va]. *)
Fixpoint copyout_loop (pgdir va : Z) (buf : list Z) (fuel : nat) : K kstate Z :=
  match fuel with
  | O => knofuel
  | S fuel' =>
      if 0 <? Z.of_nat (length buf) then
        let va0 := PGROUNDDOWN va in
        let* pa0 := uva2ka pgdir va0 in
        if pa0 =? 0 then kret (-1)
        else
          let n := PGSIZE - (va - va0) in
          let n := if Z.of_nat (length buf) <? n then Z.of_nat (length buf) else n in
          kmod (fun s => set_mem (st_bytes (k_mem s) (pa0 + (va - va0)) (take (Z.to_nat n) buf)) s) ;;;
          copyout_loop pgdir (u32 (va0 + PGSIZE)) (drop (Z.to_nat n) buf) fuel'
      else kret 0
  end.

Definition copyout (pgdir va : Z) (buf : list Z) : K kstate Z :=
  copyout_loop pgdir va buf (S (length buf)).
End vm.

(** ** The loops end *)

Lemma load32_total a : total (load32 a).
Proof. apply total_gets. Qed.

Lemma store32_total a v : total (store32 a v).
Proof. apply total_mod. Qed.

#[export] Hint Resolve load32_total store32_total : xv6.

Lemma walkpgdir_total pgdir va alloc : total (walkpgdir pgdir va alloc).
Proof. unfold walkpgdir. total_tac. Qed.

#[export] Hint Resolve walkpgdir_total : xv6.

Lemma mappages_loop_total fuel : forall pgdir a last pa perm,
  0 <= a < 4294967296 -> 0 <= last < 4294967296 -> a mod PGSIZE = 0 -> last mod PGSIZE = 0 ->
  u32 (last - a) / PGSIZE < Z.of_nat fuel -> total (mappages_loop pgdir a last pa perm fuel).
Proof.
  unfold PGSIZE. induction fuel as [|fuel IH]; intros pgdir a last pa perm Ha Hl Hma Hml Hf.
  - pose proof (u32_range (last - a)). mlia.
  - simpl. total_tac. bool_hyps. unfold PGSIZE. apply IH; try done; unfold u32 in *; mlia.
Qed.

Lemma mappages_total pgdir va size pa perm : 0 <= va < 4294967296 ->
  total (mappages pgdir va size pa perm).
Proof.
  intros Hva. unfold mappages. pose proof (u32_range (u32 (va + size) - 1)).
  apply mappages_loop_total; rewrite ?PGROUNDDOWN_eq by done; unfold PGSIZE; try mlia.
Qed.

Lemma deallocuvm_loop_total kend fuel : forall pgdir a oldsz, 0 <= a -> oldsz <= KERNBASE ->
  oldsz - a <= PGSIZE * Z.of_nat fuel - PGSIZE -> (0 < fuel)%nat ->
  total (deallocuvm_loop kend pgdir a oldsz fuel).
Proof.
  unfold PGSIZE, KERNBASE, NPTENTRIES. induction fuel as [|fuel IH]; intros pgdir a oldsz Ha Ho Hf Hp; [lia|].
  simpl. destruct (a <? oldsz) eqn:E; [|apply total_ret]. bool_hyps.
  unfold PGSIZE, NPTENTRIES. rewrite u32_add_l, !(u32_small (_ + _)) by lia.
  total_tac; apply IH; lia.
Qed.

Lemma deallocuvm_total kend pgdir oldsz newsz : 0 <= newsz -> oldsz <= KERNBASE ->
  total (deallocuvm kend pgdir oldsz newsz).
Proof.
  intros Hn Ho. unfold deallocuvm. destruct (oldsz <=? newsz) eqn:E; [apply total_ret|]. bool_hyps.
  apply total_bind; [|auto with xv6].
  apply deallocuvm_loop_total; [|done| |lia]; unfold KERNBASE, PGSIZE in *.
  - rewrite PGROUNDUP_eq by lia. mlia.
  - pose proof (PGROUNDUP_bounds newsz ltac:(lia)). mlia.
Qed.

Lemma freevm_total kend pgdir : total (freevm kend pgdir).
Proof.
  unfold freevm. total_tac. apply deallocuvm_total; [done|]. done.
Qed.

#[export] Hint Resolve freevm_total : xv6.

Lemma copyuvm_loop_total fuel : forall pgdir d sz i, 0 <= i -> sz <= KERNBASE -> 
  sz - i <= PGSIZE * Z.of_nat fuel - PGSIZE -> (0 < fuel)%nat -> total (copyuvm_loop pgdir d sz i fuel).
Proof.
  unfold PGSIZE, KERNBASE. induction fuel as [|fuel IH]; intros pgdir d sz i Hi Hs Hf Hp; [lia|].
  simpl. destruct (i <? sz) eqn:E; [|apply total_ret]. bool_hyps. unfold PGSIZE.
  rewrite (u32_small (i + _)) by lia. total_tac; try (apply IH; lia). apply mappages_total. lia.
Qed.

Lemma setupkvm_total kdata : 0 <= kdata < 4294967296 -> total (setupkvm kdata).
Proof.
  intros Hd. unfold setupkvm, kmap. cbn [for_first].
  total_tac; apply mappages_total; cbn [km_virt]; unfold KERNLINK, DEVSPACE, KERNBASE, EXTMEM; lia.
Qed.

Lemma copyuvm_total kend kdata pgdir sz : 0 <= kdata < 4294967296 -> sz <= KERNBASE ->
  total (copyuvm kend kdata pgdir sz).
Proof.
  intros Hd Hs. unfold copyuvm. apply total_bind; [by apply setupkvm_total|]. intros d.
  destruct (d =? 0); [apply total_ret|]. apply total_bind.
  - apply copyuvm_loop_total; [done|done| |lia]. unfold PGSIZE, KERNBASE in *. mlia.
  - intros []; total_tac.
Qed.
