(* ===== verification/VmSpec.v ===== *)
(** * What the page table operations do (vm.c)

    [pte_of m pgdir va] is the page table entry the MMU finds for [va] (0 when
    there is no page table).  [pt_inv] is the ownership invariant of a page
    directory: the directory, its page tables, the other pages in use and the
    free pages are all different.  The operations of Vm.v preserve it, and their
    effect is stated on [pte_of]. *)

From S2P Require Import Prelude CString Mmu Kalloc Vm.

(** ** Entries *)

Definition pde_of (m : mem) (pgdir i : Z) : Z := ld32 m (pgdir + 4 * i).
Definition tab_of (m : mem) (pgdir i : Z) : Z := p2v (PTE_ADDR (pde_of m pgdir i)).
Definition pte_addr (m : mem) (pgdir va : Z) : Z := tab_of m pgdir (PDX va) + 4 * PTX va.
Definition pte_of (m : mem) (pgdir va : Z) : Z :=
  if present (pde_of m pgdir (PDX va)) then ld32 m (pte_addr m pgdir va) else 0.

Definition is_va (va : Z) : Prop := 0 <= va < 4294967296.
Definition same_page (m m' : mem) (q : Z) : Prop := forall x, q <= x < q + PGSIZE -> m' x = m x.

Lemma lor_aligned a b : a mod 4096 = 0 -> 0 <= b < 4096 -> Z.lor a b = a + b.
Proof.
  intros Ha Hb. replace a with (Z.shiftl (a / 4096) 12).
  - rewrite lor_disjoint by (try lia; exact Hb).
    rewrite Z.shiftl_mul_pow2 by lia. done.
  - rewrite Z.shiftl_mul_pow2 by lia. change (2 ^ 12) with 4096. mlia.
Qed.

Lemma present_odd e : present e = (e mod 2 =? 1).
Proof.
  unfold present, PTE_P. rewrite (land_ones_const e 1) by done. change (2 ^ 1) with 2.
  destruct (e mod 2 =? 1) eqn:E, (e mod 2 =? 0) eqn:E'; simpl; bool_hyps; (done || mlia).
Qed.

Lemma lor_1_odd b : 0 <= b < 4096 -> 0 <= Z.lor b 1 < 4096 /\ Z.lor b 1 mod 2 = 1.
Proof.
  intros Hb. assert (Z.lor b 1 = b - b mod 2 + 1) as ->; [|mlia].
  replace b with (2 * (b / 2) + b mod 2) at 1 by mlia.
  rewrite Z.add_comm. destruct (decide (b mod 2 = 0)) as [E|E].
  - rewrite E, Z.add_0_l. rewrite Z.mul_comm, <- (Z.shiftl_mul_pow2 _ 1) by lia.
    rewrite lor_disjoint by lia. change (2 ^ 1) with 2. mlia.
  - assert (E1 : b mod 2 = 1) by mlia. rewrite E1.
    replace (1 + 2 * (b / 2)) with (Z.lor (Z.shiftl (b / 2) 1) 1).
    + rewrite <- Z.lor_assoc. change (Z.lor 1 1) with 1. rewrite lor_disjoint by lia.
      change (2 ^ 1) with 2. mlia.
    + rewrite lor_disjoint by lia. change (2 ^ 1) with 2. lia.
Qed.

Lemma PDX_range va : is_va va -> 0 <= PDX va < 1024.
Proof. unfold is_va. intros. rewrite PDX_eq by done. mlia. Qed.

Lemma PTX_range va : is_va va -> 0 <= PTX va < 1024.
Proof. unfold is_va. intros. rewrite PTX_eq by done. mlia. Qed.

Section vmspec.
Variable kend : Z.

#[local] Abbreviation is_page := (Kalloc.is_page kend).

Lemma entry_fits p i : is_page p -> 0 <= i < 1024 -> fits (p + 4 * i) 4.
Proof. intros Hp Hi. apply is_page_fits in Hp. unfold fits, PGSIZE in *. lia. Qed.

Lemma ld32_same m m' p i : is_page p -> 0 <= i < 1024 -> same_page m m' p ->
  ld32 m' (p + 4 * i) = ld32 m (p + 4 * i).
Proof.
  intros Hp Hi Hs. destruct (entry_fits p i Hp Hi) as (H1 & _ & H3).
  unfold ld32. rewrite !ld_at by lia. unfold same_page, PGSIZE in Hs.
  rewrite !Hs by lia. done.
Qed.

Lemma st32_other_page m p i v q : is_page p -> 0 <= i < 1024 -> is_page q -> q <> p ->
  same_page m (st32 m (p + 4 * i) v) q.
Proof.
  intros Hp Hi Hq Hne x Hx. destruct (entry_fits p i Hp Hi) as (H1 & _ & H3).
  rewrite st32_bytes by lia. unfold PGSIZE in *.
  destruct (pages_disjoint kend q p Hq Hp Hne); unfold PGSIZE in *;
    repeat (case_match; bool_hyps; try lia); done.
Qed.

Lemma st32_entry m p i j v : is_page p -> 0 <= i < 1024 -> 0 <= j < 1024 -> 0 <= v < 4294967296 ->
  ld32 (st32 m (p + 4 * i) v) (p + 4 * j) = if i =? j then v else ld32 m (p + 4 * j).
Proof.
  intros Hp Hi Hj Hv. pose proof (entry_fits p i Hp Hi). pose proof (entry_fits p j Hp Hj).
  destruct (i =? j) eqn:E; bool_hyps.
  - subst. by apply ld32_st32.
  - apply ld32_st32_ne; (done || lia).
Qed.

Lemma memset_other_page m p c q : is_page p -> is_page q -> q <> p ->
  same_page m (memset m p c PGSIZE) q.
Proof.
  intros Hp Hq Hne x Hx. rewrite memset_spec by by apply (is_page_fits kend).
  destruct (pages_disjoint kend q p Hq Hp Hne); case_match; bool_hyps; (lia || done).
Qed.

Lemma memset_zero_entry m p i : is_page p -> 0 <= i < 1024 ->
  ld32 (memset m p 0 PGSIZE) (p + 4 * i) = 0.
Proof.
  intros Hp Hi. destruct (entry_fits p i Hp Hi) as (H1 & _ & H3).
  unfold ld32. rewrite !ld_at by lia.
  rewrite !memset_spec by by apply (is_page_fits kend).
  unfold PGSIZE. repeat (case_match; bool_hyps; try lia). done.
Qed.

(** ** The invariant *)

(** [pgdir] owns the page tables [tabs]; [R] are other pages in use (user frames,
    other directories); [l] is the free list. *)
Record pt_inv (s : kstate) (pgdir : Z) (tabs R l : list Z) : Prop := {
  inv_free : free_list kend s l;
  inv_lock : lock_free s;
  inv_nodup : NoDup (pgdir :: tabs ++ R ++ l);
  inv_pages : Forall is_page (pgdir :: tabs ++ R);
  inv_tab : forall i, 0 <= i < 1024 -> present (pde_of (k_mem s) pgdir i) = true ->
    tab_of (k_mem s) pgdir i ∈ tabs;
  inv_inj : forall i j, 0 <= i < 1024 -> 0 <= j < 1024 ->
    present (pde_of (k_mem s) pgdir i) = true -> present (pde_of (k_mem s) pgdir j) = true ->
    tab_of (k_mem s) pgdir i = tab_of (k_mem s) pgdir j -> i = j
}.

Lemma inv_pgdir s pgdir tabs R l : pt_inv s pgdir tabs R l -> is_page pgdir.
Proof. intros H. apply inv_pages in H. by inversion H. Qed.

Lemma inv_tab_page s pgdir tabs R l i : pt_inv s pgdir tabs R l -> 0 <= i < 1024 ->
  present (pde_of (k_mem s) pgdir i) = true ->
  is_page (tab_of (k_mem s) pgdir i) /\ tab_of (k_mem s) pgdir i <> pgdir.
Proof.
  intros H Hi Hp. pose proof (inv_tab _ _ _ _ _ H i Hi Hp) as Hin. split.
  - apply inv_pages in H. inversion H as [|? ? _ Hf]; subst.
    apply Forall_app in Hf as [Hf _]. by eapply Forall_forall in Hf.
  - intros E. apply inv_nodup in H. inversion H as [|? ? Hn _]; subst. apply Hn.
    rewrite <- E. apply elem_of_app. by left.
Qed.

Lemma inv_mem_ok s pgdir tabs R l : pt_inv s pgdir tabs R l -> mem_ok (k_mem s).
Proof. intros H. by destruct (inv_free _ _ _ _ _ H). Qed.

Lemma inv_free_page s pgdir tabs R l p : pt_inv s pgdir tabs R l -> p ∈ l -> is_page p.
Proof.
  intros H Hp. destruct (inv_free _ _ _ _ _ H) as (_ & Hc & _).
  eapply Forall_forall; [by eapply chain_pages|done].
Qed.

Lemma free_list_mem s l m' : free_list kend s l -> mem_ok m' ->
  (forall p, p ∈ l -> same_page (k_mem s) m' p) -> free_list kend (set_mem m' s) l.
Proof.
  intros (Hm & Hc & Hn) Hm' Hs. split; [done|]. split; [|done].
  eapply chain_frame; [|exact Hc]. intros p Hp. simpl.
  apply (ld32_page_ext kend); [|by apply Hs].
  eapply Forall_forall; [by eapply chain_pages|done].
Qed.

(** ** walkpgdir *)

Lemma walkpgdir_false pgdir va s :
  walkpgdir pgdir va false s =
    Ok (if present (pde_of (k_mem s) pgdir (PDX va)) then pte_addr (k_mem s) pgdir va else 0) s.
Proof.
  unfold walkpgdir, load32, pte_addr, tab_of, pde_of. kstep. simpl. by case_match.
Qed.

Lemma pte_addr_nonzero s pgdir tabs R l va : pt_inv s pgdir tabs R l -> is_va va ->
  present (pde_of (k_mem s) pgdir (PDX va)) = true -> 0 < pte_addr (k_mem s) pgdir va.
Proof.
  intros H Hva Hp. destruct (inv_tab_page _ _ _ _ _ (PDX va) H (PDX_range va Hva) Hp) as [Ht _].
  pose proof (is_page_nonzero kend _ Ht). pose proof (PTX_range va Hva).
  unfold pte_addr. lia.
Qed.

(** The entry for a fresh page table. *)
Lemma new_pde p : is_page p ->
  let e := Z.lor (Z.lor (Z.lor (v2p p) PTE_P) PTE_W) PTE_U in
  0 <= e < 4294967296 /\ present e = true /\ p2v (PTE_ADDR e) = p.
Proof.
  intros Hp e. assert (He : e = v2p p + 7 /\ v2p p = p - KERNBASE).
  { destruct Hp as (H1 & H2 & H3). unfold PGSIZE in H1. rewrite v2p_eq by done.
    subst e. rewrite v2p_eq by done. rewrite <- !Z.lor_assoc.
    change (Z.lor PTE_P (Z.lor PTE_W PTE_U)) with 7.
    rewrite lor_aligned by (unfold KERNBASE in *; mlia). done. }
  destruct He as [-> Ev]. destruct Hp as (H1 & H2 & H3).
  unfold PGSIZE, KERNBASE, PHYSTOP in *. rewrite Ev, present_odd, PTE_ADDR_eq by lia.
  split; [lia|]. split; [apply Z.eqb_eq; mlia|].
  unfold p2v, KERNBASE, u32. mlia.
Qed.

(** The effect of an operation on memory is confined to the pages of a list. *)
Definition only_pages (m m' : mem) (ps : list Z) : Prop :=
  forall q, is_page q -> q ∉ ps -> same_page m m' q.

Lemma same_page_trans m1 m2 m3 q : same_page m1 m2 q -> same_page m2 m3 q -> same_page m1 m3 q.
Proof. intros H1 H2 x Hx. rewrite H2 by done. by apply H1. Qed.

Lemma pte_of_ext m m' pgdir va tabs : is_page pgdir -> is_va va ->
  (present (pde_of m pgdir (PDX va)) = true -> tab_of m pgdir (PDX va) ∈ tabs) ->
  Forall is_page tabs ->
  same_page m m' pgdir -> (forall q, q ∈ tabs -> same_page m m' q) ->
  pde_of m' pgdir (PDX va) = pde_of m pgdir (PDX va) /\ pte_of m' pgdir va = pte_of m pgdir va.
Proof.
  intros Hd Hva Ht Hp Hs1 Hs2. pose proof (PDX_range va Hva). pose proof (PTX_range va Hva).
  assert (E : pde_of m' pgdir (PDX va) = pde_of m pgdir (PDX va)) by (by apply ld32_same).
  split; [done|]. unfold pte_of, pte_addr, tab_of in *. rewrite E.
  destruct (present _) eqn:Ep; [|done].
  specialize (Ht eq_refl). apply ld32_same; [|done|by apply Hs2].
  by eapply Forall_forall in Hp.
Qed.

(** Changing pages the directory does not own keeps the invariant and every PTE. *)
Lemma inv_frame s pgdir tabs R l m' : pt_inv s pgdir tabs R l -> mem_ok m' ->
  same_page (k_mem s) m' pgdir -> (forall q, q ∈ tabs ++ l -> same_page (k_mem s) m' q) ->
  pt_inv (set_mem m' s) pgdir tabs R l /\
  (forall va, is_va va -> pte_of m' pgdir va = pte_of (k_mem s) pgdir va).
Proof.
  intros H Hm Hs1 Hs2. pose proof (inv_pgdir _ _ _ _ _ H) as Hd.
  assert (Hpde : forall i, 0 <= i < 1024 -> pde_of m' pgdir i = pde_of (k_mem s) pgdir i).
  { intros i Hi. by apply ld32_same. }
  assert (Htabs : Forall is_page tabs).
  { pose proof (inv_pages _ _ _ _ _ H) as Hf. inversion Hf; subst. by apply Forall_app in H3 as [? _]. }
  split.
  - destruct H as [H1 H2 H3 H4 H5 H6]. split; simpl; try done.
    + apply free_list_mem; try done. intros p Hp. apply Hs2, elem_of_app. by right.
    + intros i Hi. unfold tab_of. rewrite Hpde by done. by apply H5.
    + intros i j Hi Hj. unfold tab_of. rewrite !Hpde by done. by apply H6.
  - intros va Hva. apply pte_of_ext with tabs; try done.
    + intros Hp. by apply (inv_tab _ _ _ _ _ H); [apply PDX_range|].
    + intros q Hq. apply Hs2, elem_of_app. by left.
Qed.

(** Storing the PTE of [va] changes that entry and no other. *)
Lemma store_pte_spec s pgdir tabs R l va v : pt_inv s pgdir tabs R l -> is_va va ->
  present (pde_of (k_mem s) pgdir (PDX va)) = true -> 0 <= v < 4294967296 ->
  let m' := st32 (k_mem s) (pte_addr (k_mem s) pgdir va) v in
  pt_inv (set_mem m' s) pgdir tabs R l /\
  only_pages (k_mem s) m' tabs /\
  (forall i, 0 <= i < 1024 -> pde_of m' pgdir i = pde_of (k_mem s) pgdir i) /\
  (forall va', is_va va' -> pte_of m' pgdir va' =
     if (PDX va =? PDX va') && (PTX va =? PTX va') then v else pte_of (k_mem s) pgdir va').
Proof.
  intros H Hva Hp Hv m'. pose proof (PDX_range va Hva) as Hdx. pose proof (PTX_range va Hva) as Htx.
  destruct (inv_tab_page _ _ _ _ _ (PDX va) H Hdx Hp) as [Ht Hne].
  pose proof (inv_tab _ _ _ _ _ H _ Hdx Hp) as Hin. pose proof (inv_pgdir _ _ _ _ _ H) as Hd.
  set (t := tab_of (k_mem s) pgdir (PDX va)) in *.
  assert (Hother : forall q, is_page q -> q <> t -> same_page (k_mem s) m' q).
  { intros q Hq Hqt. by apply st32_other_page. }
  assert (Hpde : forall i, 0 <= i < 1024 -> pde_of m' pgdir i = pde_of (k_mem s) pgdir i).
  { intros i Hi. apply ld32_same; [done|done|]. by apply Hother. }
  split; [|split; [|split]].
  - pose proof (inv_nodup _ _ _ _ _ H) as Hnd. pose proof (inv_mem_ok _ _ _ _ _ H) as Hmok.
    assert (Hfree : forall p, p ∈ l -> is_page p) by (intros p; by eapply inv_free_page).
    destruct H as [H1 H2 H3 H4 H5 H6]. split; simpl; try done.
    + apply free_list_mem; [done|by apply st32_ok|]. intros p Hpl. apply Hother; [by apply Hfree|].
      intros ->. rewrite NoDup_cons, NoDup_app in Hnd. destruct Hnd as (_ & _ & Hnd & _).
      apply (Hnd t Hin), elem_of_app. by right.
    + intros i Hi. unfold tab_of. rewrite Hpde by done. by apply H5.
    + intros i j Hi Hj. unfold tab_of. rewrite !Hpde by done. by apply H6.
  - intros q Hq Hqn. apply Hother; [done|]. by intros ->.
  - done.
  - intros va' Hva'. pose proof (PDX_range va' Hva') as Hdx'. pose proof (PTX_range va' Hva') as Htx'.
    unfold pte_of, pte_addr, tab_of. rewrite Hpde by done.
    destruct (PDX va =? PDX va') eqn:E; bool_hyps; simpl.
    + rewrite <- E, Hp. unfold m', pte_addr. apply st32_entry; done.
    + destruct (present (pde_of (k_mem s) pgdir (PDX va'))) eqn:Ep; [|done].
      destruct (inv_tab_page _ _ _ _ _ (PDX va') H Hdx' Ep) as [Ht' _].
      apply ld32_same; [done|done|]. apply Hother; [done|].
      intros Heq. by apply (inv_inj _ _ _ _ _ H) in Heq.
Qed.

(** *** Installing a fresh page table *)

Section add_table.
Context (s : kstate) (pgdir p dx : Z) (tabs R l : list Z).
Hypothesis Hinv : pt_inv s pgdir tabs R (p :: l).
Hypothesis Hdx : 0 <= dx < 1024.
Hypothesis Hnp : present (pde_of (k_mem s) pgdir dx) = false.

#[local] Abbreviation e := (Z.lor (Z.lor (Z.lor (v2p p) PTE_P) PTE_W) PTE_U).
#[local] Abbreviation m2 := (st32 (memset (k_mem s) p 0 PGSIZE) (pgdir + 4 * dx) e).

Lemma fresh_page : is_page p /\ p <> pgdir /\ (p ∉ tabs) /\ (p ∉ l) /\ (pgdir ∉ l).
Proof.
  pose proof (inv_nodup _ _ _ _ _ Hinv) as Hall.
  split; [eapply inv_free_page; [exact Hinv|]; by left|].
  rewrite NoDup_cons, !NoDup_app in Hall.
  destruct Hall as (H1 & _ & H2 & _ & H3 & H4). rewrite !elem_of_app in H1.
  apply NoDup_cons in H4 as [H4 _]. split_and!.
  - intros ->. apply H1. right. right. by left.
  - intros Hp. apply (H2 p Hp), elem_of_app. right. by left.
  - done.
  - intros Hp. apply H1. right. right. by right.
Qed.

Lemma add_table_other q : is_page q -> q <> p -> q <> pgdir -> same_page (k_mem s) m2 q.
Proof.
  intros Hq H1 H2. destruct fresh_page as (Hp & _).
  eapply same_page_trans; [by apply memset_other_page|].
  apply st32_other_page; try done. by eapply inv_pgdir.
Qed.

Lemma add_table_pde i : 0 <= i < 1024 ->
  pde_of m2 pgdir i = if dx =? i then e else pde_of (k_mem s) pgdir i.
Proof.
  intros Hi. destruct fresh_page as (Hp & Hne & _). pose proof (inv_pgdir _ _ _ _ _ Hinv).
  unfold pde_of. rewrite st32_entry by (try done; by apply new_pde).
  case_match; [done|]. apply ld32_same; [done|done|]. by apply memset_other_page.
Qed.

Lemma add_table_new : tab_of m2 pgdir dx = p.
Proof.
  destruct fresh_page as (Hp & _). unfold tab_of. rewrite add_table_pde, Z.eqb_refl by done.
  by apply new_pde.
Qed.

Lemma add_table_old i : 0 <= i < 1024 -> dx <> i -> present (pde_of (k_mem s) pgdir i) = true ->
  tab_of m2 pgdir i = tab_of (k_mem s) pgdir i /\ tab_of (k_mem s) pgdir i <> p.
Proof.
  intros Hi Hne Hp. unfold tab_of. rewrite add_table_pde by done.
  rewrite (proj2 (Z.eqb_neq dx i)) by done. split; [done|]. intros Heq.
  pose proof (inv_tab _ _ _ _ _ Hinv i Hi Hp) as Hin. unfold tab_of in Hin. rewrite Heq in Hin.
  by destruct fresh_page as (_ & _ & ? & _).
Qed.

Lemma add_table_free : free_list kend (set_mem m2 (set_freelist (ld32 (k_mem s) p) s)) l.
Proof.
  destruct fresh_page as (Hp & _ & _ & Hpl & Hdl).
  destruct (inv_free _ _ _ _ _ Hinv) as (Hmok & (_ & _ & Hch) & Hnd).
  inversion Hnd; subst. split.
  - simpl. apply st32_ok, memset_ok; [done|by apply (is_page_fits kend)].
  - split; [|done]. eapply chain_frame; [|exact Hch]. intros q Hq. simpl.
    assert (is_page q) by (eapply inv_free_page; [exact Hinv|by right]).
    apply (ld32_page_ext kend); [done|]. apply add_table_other; [done| |]; by intros ->.
Qed.

Lemma add_table_inv :
  pt_inv (set_mem m2 (set_freelist (ld32 (k_mem s) p) s)) pgdir (p :: tabs) R l.
Proof.
  destruct fresh_page as (Hp & _). split; simpl.
  - apply add_table_free.
  - apply (inv_lock _ _ _ _ _ Hinv).
  - eapply NoDup_Permutation_proper; [|exact (inv_nodup _ _ _ _ _ Hinv)].
    apply Permutation_skip. rewrite !app_assoc. apply Permutation_middle.
  - pose proof (inv_pages _ _ _ _ _ Hinv) as Hf. inversion Hf; subst.
    constructor; [done|]. by constructor.
  - intros i Hi. rewrite add_table_pde by done. destruct (dx =? i) eqn:E; bool_hyps.
    + rewrite <- E, add_table_new. intros _. by left.
    + intros Hpi. destruct (add_table_old i Hi E Hpi) as [-> _]. right. by apply (inv_tab _ _ _ _ _ Hinv).
  - intros i j Hi Hj. rewrite !add_table_pde by done.
    destruct (dx =? i) eqn:Ei, (dx =? j) eqn:Ej; bool_hyps.
    + intros. congruence.
    + intros _ Hpj. rewrite <- Ei, add_table_new. destruct (add_table_old j Hj Ej Hpj) as [-> ?]. congruence.
    + intros Hpi _. rewrite <- Ej, add_table_new. destruct (add_table_old i Hi Ei Hpi) as [-> ?]. congruence.
    + intros Hpi Hpj. destruct (add_table_old i Hi Ei Hpi) as [-> _], (add_table_old j Hj Ej Hpj) as [-> _].
      by apply (inv_inj _ _ _ _ _ Hinv).
Qed.

Lemma add_table_pte va : is_va va -> pte_of m2 pgdir va = pte_of (k_mem s) pgdir va.
Proof.
  intros Hva. pose proof (PDX_range va Hva) as Hd. pose proof (PTX_range va Hva) as Ht.
  destruct fresh_page as (Hp & Hne & _). unfold pte_of, pte_addr.
  rewrite add_table_pde by done. destruct (dx =? PDX va) eqn:E; bool_hyps.
  - rewrite <- E, Hnp, add_table_new, (proj1 (proj2 (new_pde p Hp))).
    rewrite (ld32_same (memset (k_mem s) p 0 PGSIZE)); [by apply memset_zero_entry|done|done|].
    apply st32_other_page; try done. by eapply inv_pgdir.
  - destruct (present (pde_of (k_mem s) pgdir (PDX va))) eqn:Ep; [|done].
    destruct (add_table_old (PDX va)) as [-> Hnp']; try done.
    destruct (inv_tab_page _ _ _ _ _ (PDX va) Hinv Hd Ep) as [Ht' Hne'].
    apply ld32_same; [done|done|]. by apply add_table_other.
Qed.
End add_table.

(** [walkpgdir(pgdir, va, 1)] succeeds unless the free list is empty; it changes no
    PTE, and takes at most one page from the free list. *)
Lemma walkpgdir_alloc s pgdir tabs R l va : pt_inv s pgdir tabs R l -> is_va va ->
  runs (walkpgdir pgdir va true) s (fun r s' =>
    (r = 0 /\ s' = s /\ l = []) \/
    (exists tabs' l', pt_inv s' pgdir tabs' R l' /\
       r = pte_addr (k_mem s') pgdir va /\ 0 < r /\
       present (pde_of (k_mem s') pgdir (PDX va)) = true /\
       (forall va', is_va va' -> pte_of (k_mem s') pgdir va' = pte_of (k_mem s) pgdir va') /\
       only_pages (k_mem s) (k_mem s') (pgdir :: l) /\
       ((tabs' = tabs /\ l' = l) \/ (exists p, tabs' = p :: tabs /\ l = p :: l')))).
Proof.
  intros H Hva. pose proof (PDX_range va Hva) as Hdx. pose proof (PTX_range va Hva) as Htx.
  unfold walkpgdir. unfold load32 at 1. unfold runs. kstep.
  change (ld32 (k_mem s) (pgdir + 4 * PDX va)) with (pde_of (k_mem s) pgdir (PDX va)).
  destruct (present (pde_of (k_mem s) pgdir (PDX va))) eqn:Ep.
  { right. exists tabs, l. split; [done|]. split; [done|].
    split; [by eapply pte_addr_nonzero|]. split; [done|]. split; [done|].
    split; [by intros q _ _ x _|by left]. }
  simpl. rewrite (kalloc_eq s) by apply (inv_lock _ _ _ _ _ H).
  destruct (inv_free _ _ _ _ _ H) as (_ & Hch & _). destruct l as [|p l]; simpl in Hch.
  { rewrite Hch. simpl. by left. }
  destruct Hch as (Efl & Hp & _). pose proof (is_page_nonzero kend p Hp) as Hpz.
  rewrite Efl. destruct (p =? 0) eqn:E0; bool_hyps; [lia|]. simpl. right.
  exists (p :: tabs), l. split; [by apply add_table_inv|].
  split; [unfold pte_addr; simpl; by erewrite add_table_new|]. split; [lia|].
  split; [erewrite add_table_pde by done; rewrite Z.eqb_refl; by apply new_pde|].
  split; [intros; by eapply add_table_pte|]. split; [|right; by exists p].
  intros q Hq Hqn. apply not_elem_of_cons in Hqn as [? [? ?]%not_elem_of_cons].
  by eapply add_table_other.
Qed.

(** ** mappages *)

Lemma same_index a va : is_va a -> is_va va -> a mod 4096 = 0 ->
  (PDX a =? PDX va) && (PTX a =? PTX va) = (a =? PGROUNDDOWN va).
Proof.
  unfold is_va. intros Ha Hva Hal. rewrite !PDX_eq, !PTX_eq, PGROUNDDOWN_eq by done.
  apply eq_true_iff_eq. rewrite andb_true_iff, !Z.eqb_eq. mlia.
Qed.

(** The entry [mappages] writes for the page at [pa]. *)
Definition new_pte (pa perm : Z) : Z := pa + Z.lor perm PTE_P.

Lemma new_pte_eq pa perm : pa mod 4096 = 0 -> 0 <= pa < 4294967296 -> 0 <= perm < 4096 ->
  Z.lor (Z.lor pa perm) PTE_P = new_pte pa perm /\ 0 <= new_pte pa perm < 4294967296 /\
  present (new_pte pa perm) = true /\ PTE_ADDR (new_pte pa perm) = pa /\
  PTE_FLAGS (new_pte pa perm) = Z.lor perm PTE_P.
Proof.
  intros Ha Hr Hp. unfold new_pte. destruct (lor_1_odd perm Hp) as [H1 H2].
  unfold PTE_P in *. rewrite <- Z.lor_assoc, lor_aligned by done.
  assert (0 <= pa + Z.lor perm 1 < 4294967296) by mlia.
  rewrite present_odd, PTE_ADDR_eq, PTE_FLAGS_eq by done.
  split; [done|]. split; [done|]. split; [apply Z.eqb_eq; mlia|]. split; mlia.
Qed.

(** [va] lies in one of the [n + 1] pages from [a] on. *)
Definition in_pages (a : Z) (n : nat) (va : Z) : bool :=
  (a <=? PGROUNDDOWN va) && (PGROUNDDOWN va <=? a + PGSIZE * Z.of_nat n).

Lemma in_pages_cons a n va : is_va va -> a mod 4096 = 0 ->
  in_pages a (S n) va = (a =? PGROUNDDOWN va) || in_pages (a + 4096) n va.
Proof.
  unfold is_va, in_pages, PGSIZE. intros Hva Ha. rewrite PGROUNDDOWN_eq by done.
  apply eq_true_iff_eq. rewrite orb_true_iff, !andb_true_iff, !Z.leb_le, Z.eqb_eq. mlia.
Qed.

Lemma in_pages_0 a va : in_pages a 0 va = (a =? PGROUNDDOWN va).
Proof.
  unfold in_pages. apply eq_true_iff_eq. rewrite andb_true_iff, !Z.leb_le, Z.eqb_eq. lia.
Qed.

Lemma in_pages_head a n : is_va a -> a mod 4096 = 0 -> in_pages a n a = true.
Proof.
  unfold is_va, in_pages, PGSIZE. intros Hva Ha. rewrite PGROUNDDOWN_eq, Ha by done.
  rewrite andb_true_iff, !Z.leb_le. lia.
Qed.

Lemma only_pages_trans m1 m2 m3 ps : only_pages m1 m2 ps -> only_pages m2 m3 ps -> only_pages m1 m3 ps.
Proof. intros H1 H2 q Hq Hn. eapply same_page_trans; [by apply H1|by apply H2]. Qed.

Lemma only_pages_mono m m' ps ps' : (forall p, p ∈ ps -> p ∈ ps') ->
  only_pages m m' ps -> only_pages m m' ps'.
Proof. intros Hs H q Hq Hn. apply H; [done|]. intros ?. by apply Hn, Hs. Qed.

(** One turn of the loop of [mappages]. *)
Lemma map_one s pgdir tabs R l a pa perm : pt_inv s pgdir tabs R l -> is_va a -> a mod 4096 = 0 ->
  pa mod 4096 = 0 -> 0 <= pa < 4294967296 -> 0 <= perm < 4096 ->
  present (pte_of (k_mem s) pgdir a) = false ->
  runs (walkpgdir pgdir a true) s (fun pte s1 =>
    (pte = 0 /\ s1 = s /\ l = []) \/
    (0 < pte /\ present (ld32 (k_mem s1) pte) = false /\
     let s2 := set_mem (st32 (k_mem s1) pte (Z.lor (Z.lor pa perm) PTE_P)) s1 in
     exists tabs' l', pt_inv s2 pgdir tabs' R l' /\ (length l <= S (length l'))%nat /\
       (forall q, q ∈ tabs' ++ l' <-> q ∈ tabs ++ l) /\
       only_pages (k_mem s) (k_mem s2) (pgdir :: tabs ++ l) /\
       (forall va, is_va va -> pte_of (k_mem s2) pgdir va =
          if a =? PGROUNDDOWN va then new_pte pa perm else pte_of (k_mem s) pgdir va))).
Proof.
  intros H Ha Hal Hpa Hpar Hperm Hnp.
  destruct (new_pte_eq pa perm Hpa Hpar Hperm) as (-> & Hv & _).
  eapply runs_conseq; [by apply walkpgdir_alloc|].
  intros pte s1 [(-> & -> & ->)|(tabs' & l' & Hi & -> & Hpos & Hp & Hpte & Ho & Hl)]; [by left|right].
  split; [done|]. split.
  { specialize (Hpte a Ha). unfold pte_of at 1 in Hpte. rewrite Hp in Hpte. by rewrite Hpte. }
  destruct (store_pte_spec _ _ _ _ _ a (new_pte pa perm) Hi Ha Hp Hv) as (Hi' & Ho' & _ & Hpte').
  assert (Hperm' : tabs' ++ l' ≡ₚ tabs ++ l).
  { destruct Hl as [[-> ->]|(p & -> & ->)]; [done|]. simpl. apply Permutation_middle. }
  exists tabs', l'. split; [exact Hi'|]. split; [destruct Hl as [[-> ->]|(p & _ & ->)]; simpl; lia|].
  split; [intros q; by rewrite Hperm'|]. split.
  - eapply only_pages_trans; (eapply only_pages_mono; [|eassumption]).
    + intros q [->|Hq]%elem_of_cons; [by left|right]. apply elem_of_app. by right.
    + intros q Hq. right. rewrite <- Hperm'. apply elem_of_app. by left.
  - intros va Hva. simpl. rewrite Hpte' by done. rewrite same_index by done.
    case_match; [done|]. by apply Hpte.
Qed.

Lemma mappages_loop_spec n : forall s tabs l a pa perm fuel pgdir R,
  pt_inv s pgdir tabs R l -> 0 <= a -> a + PGSIZE * (Z.of_nat n + 1) <= 4294967296 ->
  a mod 4096 = 0 -> pa mod 4096 = 0 -> 0 <= pa -> pa + PGSIZE * (Z.of_nat n + 1) <= 4294967296 ->
  0 <= perm < 4096 -> (n < fuel)%nat ->
  (forall va, is_va va -> in_pages a n va = true -> present (pte_of (k_mem s) pgdir va) = false) ->
  runs (mappages_loop pgdir a (a + PGSIZE * Z.of_nat n) pa perm fuel) s (fun r s' =>
    exists tabs' l', pt_inv s' pgdir tabs' R l' /\ (forall q, q ∈ tabs' ++ l' <-> q ∈ tabs ++ l) /\
      (length l <= length l' + S n)%nat /\
      only_pages (k_mem s) (k_mem s') (pgdir :: tabs ++ l) /\
      ((r = 0 /\ forall va, is_va va -> pte_of (k_mem s') pgdir va =
          if in_pages a n va then new_pte (pa + (PGROUNDDOWN va - a)) perm
          else pte_of (k_mem s) pgdir va) \/
       (r = -1 /\ l' = [] /\ (length l <= n)%nat /\
        forall va, is_va va -> in_pages a n va = false ->
          pte_of (k_mem s') pgdir va = pte_of (k_mem s) pgdir va))).
Proof.
  induction n as [|n IH]; intros s tabs l a pa perm fuel pgdir R H Ha Hend Hal Hpal Hpa Hpend Hperm Hf Hnp;
    (destruct fuel as [|fuel]; [lia|]); unfold PGSIZE in *; simpl mappages_loop.
  all: assert (is_va a) as Hva by (unfold is_va; lia).
  all: assert (Hna : present (pte_of (k_mem s) pgdir a) = false)
    by (apply Hnp; [done|]; by apply in_pages_head).
  all: apply runs_bind; eapply runs_conseq; [apply (map_one s pgdir tabs R l a pa perm); (done || lia)|].
  all: intros pte s1 [(-> & -> & ->)|(Hpos & Hp0 & Hmap)].
  all: try solve [simpl; exists tabs, []; split; [done|]; split; [done|]; split; [simpl; lia|];
    split; [by intros q _ _ x _|]; right; repeat split; simpl; (done || lia)].
  all: rewrite (proj2 (Z.eqb_neq pte 0)) by lia; unfold load32, store32; apply runs_bind, runs_gets;
    rewrite Hp0; apply runs_bind, runs_mod.
  all: destruct Hmap as (tabs1 & l1 & Hi1 & Hl1 & Hq1 & Ho1 & Hpte1).
  - rewrite (proj2 (Z.eqb_eq a (a + 4096 * Z.of_nat 0))) by lia. apply runs_ret.
    exists tabs1, l1. split; [done|]. split; [done|]. split; [lia|]. split; [done|]. left.
    split; [done|]. intros va Hv. rewrite Hpte1, in_pages_0 by done.
    case_match; bool_hyps; [|done]. f_equal. lia.
  - rewrite (proj2 (Z.eqb_neq a (a + 4096 * Z.of_nat (S n)))) by lia.
    unfold PGSIZE. rewrite (u32_small (a + 4096)), (u32_small (pa + 4096)) by lia.
    replace (a + 4096 * Z.of_nat (S n)) with (a + 4096 + 4096 * Z.of_nat n) by lia.
    eapply runs_conseq.
    { apply (IH _ tabs1 l1 (a + 4096) (pa + 4096) perm fuel pgdir R Hi1); try lia; try mlia.
      intros va Hv Hin. rewrite Hpte1 by done.
      assert (in_pages a (S n) va = true)
        by (rewrite in_pages_cons by done; by rewrite Hin, orb_true_r).
      case_match eqn:E; bool_hyps; [|by apply Hnp].
      exfalso. unfold in_pages, PGSIZE in Hin. bool_hyps. lia. }
    intros r s' (tabs' & l' & Hi' & Hq' & Hl' & Ho' & Hres).
    exists tabs', l'. split; [done|]. split; [intros q; by rewrite Hq', Hq1|]. split; [lia|]. split.
    { eapply only_pages_trans; [exact Ho1|]. eapply only_pages_mono; [|exact Ho'].
      intros q [->|Hq]%elem_of_cons; [by left|right]. by apply Hq1. }
    destruct Hres as [[-> Hres]|(-> & -> & Hlen & Hres)]; [left|right].
    + split; [done|]. intros va Hv. rewrite Hres, Hpte1, in_pages_cons by done.
      destruct (a =? PGROUNDDOWN va) eqn:E; bool_hyps; simpl.
      * unfold in_pages, PGSIZE. bool_cases; try lia. f_equal. lia.
      * case_match; [|done]. f_equal. lia.
    + split; [done|]. split; [done|]. split; [lia|]. intros va Hv Hin.
      rewrite in_pages_cons in Hin by done. apply orb_false_iff in Hin as [Hin1 Hin2].
      rewrite Hres, Hpte1 by done. by rewrite Hin1.
Qed.

Lemma mappages_spec s pgdir tabs R l va size pa perm :
  pt_inv s pgdir tabs R l -> is_va va -> 0 < size -> va + size <= 4294967296 ->
  pa mod 4096 = 0 -> 0 <= pa -> pa + (va mod 4096 + size - 1) - (va mod 4096 + size - 1) mod 4096 + 4096 <= 4294967296 ->
  0 <= perm < 4096 ->
  let n := Z.to_nat ((va mod 4096 + size - 1) / 4096) in
  (forall va', is_va va' -> in_pages (PGROUNDDOWN va) n va' = true ->
     present (pte_of (k_mem s) pgdir va') = false) ->
  runs (mappages pgdir va size pa perm) s (fun r s' =>
    exists tabs' l', pt_inv s' pgdir tabs' R l' /\ (forall q, q ∈ tabs' ++ l' <-> q ∈ tabs ++ l) /\
      (length l <= length l' + S n)%nat /\
      only_pages (k_mem s) (k_mem s') (pgdir :: tabs ++ l) /\
      ((r = 0 /\ forall va', is_va va' -> pte_of (k_mem s') pgdir va' =
          if in_pages (PGROUNDDOWN va) n va' then new_pte (pa + (PGROUNDDOWN va' - PGROUNDDOWN va)) perm
          else pte_of (k_mem s) pgdir va') \/
       (r = -1 /\ l' = [] /\ (length l <= n)%nat /\
        forall va', is_va va' -> in_pages (PGROUNDDOWN va) n va' = false ->
          pte_of (k_mem s') pgdir va' = pte_of (k_mem s) pgdir va'))).
Proof.
  intros H Hva Hs Hend Hpal Hpa Hpend Hperm n Hnp. unfold is_va in Hva. unfold mappages.
  assert (Hlast : PGROUNDDOWN (u32 (u32 (va + size) - 1)) = PGROUNDDOWN va + PGSIZE * Z.of_nat n).
  { rewrite u32_sub_l, u32_small by lia. rewrite !PGROUNDDOWN_eq by lia. subst n. unfold PGSIZE.
    rewrite Z2Nat.id by mlia. mlia. }
  assert (Ha : PGROUNDDOWN va = va - va mod 4096) by (by apply PGROUNDDOWN_eq).
  rewrite Hlast. apply mappages_loop_spec; try done; unfold PGSIZE; rewrite ?Ha; subst n;
    rewrite ?Z2Nat.id by mlia; try mlia.
  replace (va - va mod 4096 + 4096 * ((va mod 4096 + size - 1) / 4096) - (va - va mod 4096))
    with (4096 * ((va mod 4096 + size - 1) / 4096)) by lia.
  rewrite u32_small by mlia. mlia.
Qed.

(** ** Giving pages to an address space *)

(** Taking a page off the free list and filling it: it joins the pages in use. *)
Lemma take_page s pgdir tabs R p l m' : pt_inv s pgdir tabs R (p :: l) -> mem_ok m' ->
  only_pages (k_mem s) m' [p] ->
  let s' := set_mem m' (set_freelist (ld32 (k_mem s) p) s) in
  pt_inv s' pgdir tabs (p :: R) l /\
  (forall va, is_va va -> pte_of m' pgdir va = pte_of (k_mem s) pgdir va).
Proof.
  intros H Hm Ho s'. destruct (fresh_page _ _ _ _ _ _ H) as (Hp & Hne & Htab & Hl & _).
  pose proof (inv_pgdir _ _ _ _ _ H) as Hd.
  assert (H0 : pt_inv (set_freelist (ld32 (k_mem s) p) s) pgdir tabs (p :: R) l).
  { destruct H as [H1 H2 H3 H4 H5 H6]. split; simpl; try done.
    - destruct H1 as (Hmok & (_ & _ & Hch) & Hnd). inversion Hnd; subst. split; [done|]. by split.
    - eapply NoDup_Permutation_proper; [|exact H3]. apply Permutation_skip.
      apply Permutation_app_head. apply Permutation_middle.
    - inversion H4 as [|? ? Hx Hy]; subst. apply Forall_app in Hy as [Hy1 Hy2].
      constructor; [done|]. apply Forall_app. split; [done|]. by constructor. }
  apply (inv_frame _ _ _ _ _ m' H0); simpl.
  - done.
  - apply Ho; [done|]. intros ?%list_elem_of_singleton. done.
  - intros q Hq. apply Ho.
    + apply elem_of_app in Hq as [Hq|Hq].
      * apply inv_pages in H0. inversion H0 as [|? ? _ Hf]; subst.
        apply Forall_app in Hf as [Hf _]. by eapply Forall_forall in Hf.
      * by eapply inv_free_page.
    + intros ->%list_elem_of_singleton. apply elem_of_app in Hq as [?|?]; done.
Qed.

(** Every byte of the page is zero. *)
Definition zero_page (m : mem) (p : Z) : Prop := forall x, p <= x < p + PGSIZE -> m x = 0.

Lemma memset_zero_page m p : is_page p -> zero_page (memset m p 0 PGSIZE) p.
Proof.
  intros Hp x Hx. rewrite memset_spec by by apply (is_page_fits kend).
  case_match; bool_hyps; (lia || done).
Qed.

Lemma memset_only m p c : is_page p -> only_pages m (memset m p c PGSIZE) [p].
Proof.
  intros Hp q Hq Hn. apply memset_other_page; try done.
  intros ->. apply Hn. apply list_elem_of_singleton. done.
Qed.

(** The user pages of [[a, a + n*PGSIZE)] are mapped, writable by the user, to the
    frames [fs]. *)
Definition user_mapped (m : mem) (pgdir a : Z) (fs : list Z) : Prop :=
  forall k f, fs !! k = Some f ->
    pte_of m pgdir (a + PGSIZE * Z.of_nat k) = new_pte (v2p f) (Z.lor PTE_W PTE_U).

Lemma page_v2p p : is_page p -> v2p p mod 4096 = 0 /\ 0 <= v2p p < PHYSTOP.
Proof.
  intros (H1 & H2 & H3). rewrite v2p_eq by done. unfold PGSIZE, KERNBASE, PHYSTOP in *. mlia.
Qed.

Lemma inv_perm s pgdir tabs R R' l : R ≡ₚ R' -> pt_inv s pgdir tabs R l -> pt_inv s pgdir tabs R' l.
Proof.
  intros HR [H1 H2 H3 H4 H5 H6]. split; try done.
  - by rewrite <- HR.
  - by rewrite <- HR.
Qed.

(** One turn of the loop of [allocuvm] with a page and a page table to spare. *)
Lemma alloc_one s pgdir tabs R p l a : pt_inv s pgdir tabs R (p :: l) ->
  0 <= a -> a + PGSIZE <= 4294967296 -> a mod 4096 = 0 -> (1 <= length l)%nat ->
  present (pte_of (k_mem s) pgdir a) = false ->
  let s1 := set_mem (memset (k_mem s) p 0 PGSIZE) (set_freelist (ld32 (k_mem s) p) s) in
  runs (mappages pgdir a PGSIZE (v2p p) (Z.lor PTE_W PTE_U)) s1 (fun _ s' =>
    exists tabs' l', pt_inv s' pgdir tabs' (p :: R) l' /\ (length l <= S (length l'))%nat /\
      zero_page (k_mem s') p /\
      (forall q, q ∈ tabs' ++ l' <-> q ∈ tabs ++ l) /\
      only_pages (k_mem s) (k_mem s') (pgdir :: tabs ++ p :: l) /\
      (forall va, is_va va -> pte_of (k_mem s') pgdir va =
         if a =? PGROUNDDOWN va then new_pte (v2p p) (Z.lor PTE_W PTE_U)
         else pte_of (k_mem s) pgdir va)).
Proof.
  intros H Ha Hend Hal Hlen Hnp s1. unfold PGSIZE in *.
  destruct (fresh_page _ _ _ _ _ _ H) as (Hp & Hne & Htab & Hl & _).
  pose proof (page_v2p p Hp) as [Hv1 Hv2]. unfold PHYSTOP in Hv2.
  destruct (take_page s pgdir tabs R p l (memset (k_mem s) p 0 4096) H) as [Hi Hpte].
  { apply memset_ok; [by eapply inv_mem_ok|by apply (is_page_fits kend)]. }
  { by apply memset_only. }
  assert (Hn0 : Z.to_nat ((a mod 4096 + 4096 - 1) / 4096) = 0%nat) by (rewrite Hal; done).
  assert (Hpa : PGROUNDDOWN a = a) by (rewrite PGROUNDDOWN_eq by lia; lia).
  eapply runs_conseq.
  { apply (mappages_spec _ pgdir tabs (p :: R) l a 4096 (v2p p) (Z.lor PTE_W PTE_U) Hi);
      unfold is_va; rewrite ?Hal; try lia; try done; [mlia|].
    rewrite Hpa. intros va Hva Hin. change (Z.to_nat ((0 + 4096 - 1) / 4096)) with 0%nat in Hin.
    rewrite in_pages_0 in Hin. bool_hyps. simpl.
    rewrite Hpte by done. unfold pte_of, pte_addr in *.
    assert (PDX va = PDX a /\ PTX va = PTX a) as [-> ->]; [|done].
    rewrite !PDX_eq, !PTX_eq by (unfold is_va in Hva; lia).
    rewrite PGROUNDDOWN_eq in Hin by done. unfold is_va in Hva. mlia. }
  rewrite Hn0, Hpa. intros r s' (tabs' & l' & Hi' & Hq & Hl' & Ho & Hres).
  exists tabs', l'. split; [done|]. split; [lia|]. split.
  { intros x Hx. rewrite (Ho p Hp); [by apply memset_zero_page| |done].
    intros [->|Hin]%elem_of_cons; [done|]. apply elem_of_app in Hin as [?|?]; done. }
  split; [done|]. split.
  { eapply only_pages_trans; [eapply only_pages_mono; [|by apply memset_only]|
      eapply only_pages_mono; [|exact Ho]].
    - intros q ->%list_elem_of_singleton. right. apply elem_of_app. right. by left.
    - intros q [->|Hin]%elem_of_cons; [by left|right]. rewrite elem_of_app in *.
      destruct Hin as [?|?]; [by left|right; by right]. }
  destruct Hres as [[_ Hres]|(_ & -> & Hlen' & _)]; [|simpl in *; lia].
  intros va Hva. rewrite Hres, in_pages_0 by done. simpl. rewrite Hpte by done.
  case_match; bool_hyps; [|done]. f_equal. lia.
Qed.

Lemma allocuvm_loop_spec n : forall s tabs R l a oldsz newsz fuel pgdir,
  pt_inv s pgdir tabs R l -> 0 <= a -> newsz < KERNBASE -> a mod 4096 = 0 ->
  a + PGSIZE * Z.of_nat n - PGSIZE < newsz <= a + PGSIZE * Z.of_nat n \/ (n = 0%nat /\ newsz <= a) ->
  a < KERNBASE + PGSIZE -> (2 * n <= length l)%nat -> (n < fuel)%nat ->
  (forall k, 0 <= k < Z.of_nat n -> present (pte_of (k_mem s) pgdir (a + PGSIZE * k)) = false) ->
  runs (allocuvm_loop kend pgdir a oldsz newsz fuel) s (fun r s' =>
    r = newsz /\ exists fs tabs' l', length fs = n /\ pt_inv s' pgdir tabs' (fs ++ R) l' /\
      user_mapped (k_mem s') pgdir a fs /\ Forall (zero_page (k_mem s')) fs /\
      (forall q, q ∈ tabs' ++ fs ++ l' -> q ∈ tabs ++ l) /\
      only_pages (k_mem s) (k_mem s') (pgdir :: tabs ++ l) /\
      (forall va, is_va va -> (PGROUNDDOWN va < a \/ a + PGSIZE * Z.of_nat n <= PGROUNDDOWN va) ->
         pte_of (k_mem s') pgdir va = pte_of (k_mem s) pgdir va)).
Proof.
  unfold KERNBASE, PGSIZE. induction n as [|n IH];
    intros s tabs R l a oldsz newsz fuel pgdir H Ha Hns Hal Hsz Hak Hlen Hf Hnp;
    (destruct fuel as [|fuel]; [lia|]); simpl allocuvm_loop.
  { rewrite (proj2 (Z.ltb_ge a newsz)) by lia. apply runs_ret. split; [done|].
    exists [], tabs, l. simpl. split; [done|]. split; [done|]. split; [done|].
    split; [constructor|]. split; [done|].
    split; [by intros q _ _ x _|done]. }
  rewrite (proj2 (Z.ltb_lt a newsz)) by lia.
  destruct l as [|p l]; [simpl in Hlen; lia|]. simpl in Hlen.
  destruct (fresh_page _ _ _ _ _ _ H) as (Hp & _). pose proof (is_page_nonzero kend p Hp).
  destruct (inv_free _ _ _ _ _ H) as (_ & (Efl & _ & _) & _).
  apply runs_bind. eapply runs_eq; [apply kalloc_eq, (inv_lock _ _ _ _ _ H)|].
  rewrite Efl, (proj2 (Z.eqb_neq p 0)) by lia. apply runs_bind, runs_mod, runs_bind.
  assert (Hnp0 : present (pte_of (k_mem s) pgdir a) = false).
  { specialize (Hnp 0). rewrite Z.mul_0_r, Z.add_0_r in Hnp. apply Hnp. lia. }
  eapply runs_conseq; [apply (alloc_one s pgdir tabs R p l a H); (done || unfold PGSIZE; lia)|].
  intros _ s1 (tabs1 & l1 & Hi1 & Hl1 & Hz1 & Hq1 & Ho1 & Hpte1).
  unfold PGSIZE. rewrite (u32_small (a + 4096)) by lia.
  eapply runs_conseq.
  { apply (IH s1 tabs1 (p :: R) l1 (a + 4096) oldsz newsz fuel pgdir Hi1); try lia; try mlia.
    intros k Hk. rewrite Hpte1 by (unfold is_va; lia).
    rewrite PGROUNDDOWN_eq by lia. case_match; bool_hyps; [mlia|].
    replace (a + 4096 + 4096 * k) with (a + 4096 * (k + 1)) by lia. apply Hnp. lia. }
  intros r s' (-> & fs & tabs' & l' & Hlf & Hi' & Hum & Hz & Hq' & Ho' & Hpte'). split; [done|].
  assert (Hpn : p ∉ tabs1 ++ l1).
  { pose proof (inv_nodup _ _ _ _ _ Hi1) as Hnd. intros Hin.
    rewrite NoDup_cons, !NoDup_app in Hnd. destruct Hnd as (_ & _ & Hd1 & _ & Hd2 & _).
    apply elem_of_app in Hin as [Hin|Hin].
    - apply (Hd1 p Hin). left.
    - apply (Hd2 p); [left|done]. }
  exists (p :: fs), tabs', l'. split; [simpl; lia|]. split.
  { eapply inv_perm; [|exact Hi']. symmetry. apply Permutation_middle. }
  split.
  { intros [|k] f Hk; simpl in Hk; unfold PGSIZE.
    - injection Hk as ->. rewrite Z.mul_0_r, Z.add_0_r.
      assert (PGROUNDDOWN a = a) by (rewrite PGROUNDDOWN_eq by lia; lia).
      rewrite Hpte' by (unfold is_va; lia). rewrite Hpte1 by (unfold is_va; lia).
      case_match; bool_hyps; (lia || done).
    - specialize (Hum k f Hk). unfold PGSIZE in Hum. rewrite <- Hum. f_equal. lia. }
  split.
  { constructor; [|done]. intros x Hx. rewrite (Ho' p Hp); [by apply Hz1| |done].
    intros [->|Hin]%elem_of_cons; [|done]. apply inv_nodup, NoDup_cons in Hi1 as [Hn _].
    apply Hn, elem_of_app. right. left. }
  split; [|split].
  - intros q Hq. rewrite !elem_of_app, elem_of_cons in *. 
    assert (q = p \/ q ∈ tabs1 ++ l1) as [->|Hq1'].
    { destruct Hq as [Hq|[[Hq|Hq]|Hq]]; [|by left| |]; right; apply Hq'; rewrite !elem_of_app; tauto. }
    + right. by left.
    + apply Hq1, elem_of_app in Hq1' as [?|?]; tauto.
  - eapply only_pages_trans; [exact Ho1|]. eapply only_pages_mono; [|exact Ho'].
    intros q [->|Hq]%elem_of_cons; [by left|right]. apply Hq1 in Hq. rewrite elem_of_app in *.
    destruct Hq; [by left|right; by right].
  - intros va Hva Hout. rewrite Hpte' by (done || lia). rewrite Hpte1 by done.
    case_match; bool_hyps; [lia|done].
Qed.
(** The number of pages [allocuvm] adds going from [oldsz] to [newsz]. *)
Definition pages_between (oldsz newsz : Z) : nat :=
  Z.to_nat (PGROUNDUP newsz / PGSIZE - PGROUNDUP oldsz / PGSIZE).

(** [mappages] on a page table without entries in the range installs exactly
    the entries [pa + i*PGSIZE | perm | PTE_P] for the pages of [[va, va+size)],
    leaves every other entry and every page that is neither a page table nor
    free unchanged, and otherwise returns -1 only after using up the free
    list; it never panics and keeps the page table well formed. *)
Theorem mappages_correct s pgdir tabs R l va size pa perm :
  pt_inv s pgdir tabs R l -> is_va va -> 0 < size -> va + size <= 4294967296 ->
  pa mod 4096 = 0 -> 0 <= pa -> pa + (va mod 4096 + size - 1) + 4096 <= 4294967296 ->
  0 <= perm < 4096 ->
  let n := Z.to_nat ((va mod 4096 + size - 1) / 4096) in
  (forall va', is_va va' -> in_pages (PGROUNDDOWN va) n va' = true ->
     present (pte_of (k_mem s) pgdir va') = false) ->
  runs (mappages pgdir va size pa perm) s (fun r s' =>
    exists tabs' l', pt_inv s' pgdir tabs' R l' /\
      only_pages (k_mem s) (k_mem s') (pgdir :: tabs ++ l) /\
      ((r = 0 /\ forall va', is_va va' -> pte_of (k_mem s') pgdir va' =
          if in_pages (PGROUNDDOWN va) n va' then new_pte (pa + (PGROUNDDOWN va' - PGROUNDDOWN va)) perm
          else pte_of (k_mem s) pgdir va') \/
       (r = -1 /\ l' = [] /\ (length l <= n)%nat /\
        forall va', is_va va' -> in_pages (PGROUNDDOWN va) n va' = false ->
          pte_of (k_mem s') pgdir va' = pte_of (k_mem s) pgdir va'))).
Proof.
  intros H Hva Hs Hend Hpal Hpa Hpend Hperm n Hnp. unfold is_va in Hva.
  eapply runs_conseq; [apply (mappages_spec s pgdir tabs R l); try done; mlia|].
  intros r s' (tabs' & l' & H1 & _ & _ & H2 & H3). exists tabs', l'. done.
Qed.

(** C17: growing an address space.  With two free pages for every page to be
    added (one for the page, one for a page table), [allocuvm] returns the new
    size; the added pages are mapped user-writable to distinct frames that
    were free, are not otherwise in use and are zero; every other entry of the
    page table and every other page is unchanged. *)
Theorem allocuvm_correct s pgdir tabs R l oldsz newsz :
  pt_inv s pgdir tabs R l -> 0 <= oldsz <= newsz -> newsz < KERNBASE ->
  (2 * pages_between oldsz newsz <= length l)%nat ->
  (forall va, PGROUNDUP oldsz <= va < PGROUNDUP newsz ->
     present (pte_of (k_mem s) pgdir va) = false) ->
  runs (allocuvm kend pgdir oldsz newsz) s (fun r s' =>
    r = newsz /\ exists fs tabs' l', length fs = pages_between oldsz newsz /\
      pt_inv s' pgdir tabs' (fs ++ R) l' /\
      user_mapped (k_mem s') pgdir (PGROUNDUP oldsz) fs /\ Forall (zero_page (k_mem s')) fs /\
      (forall q, q ∈ tabs' ++ fs ++ l' -> q ∈ tabs ++ l) /\
      only_pages (k_mem s) (k_mem s') (pgdir :: tabs ++ l) /\
      (forall va, is_va va -> ~ (PGROUNDUP oldsz <= va < PGROUNDUP newsz) ->
         pte_of (k_mem s') pgdir va = pte_of (k_mem s) pgdir va)).
Proof.
  intros H Ho Hn Hlen Hnp. unfold allocuvm, pages_between, KERNBASE, PGSIZE in *.
  pose proof (PGROUNDUP_bounds oldsz ltac:(lia)) as (Ho1 & Ho2 & Ho3).
  pose proof (PGROUNDUP_bounds newsz ltac:(lia)) as (Hn1 & Hn2 & Hn3).
  unfold PGSIZE in *.
  rewrite (proj2 (Z.leb_gt 2147483648 newsz)), (proj2 (Z.ltb_ge newsz oldsz)) by lia.
  set (n := Z.to_nat (PGROUNDUP newsz / 4096 - PGROUNDUP oldsz / 4096)) in *.
  assert (Hno : Z.of_nat n = PGROUNDUP newsz / 4096 - PGROUNDUP oldsz / 4096) by (subst n; mlia).
  eapply runs_conseq.
  { apply (allocuvm_loop_spec n s tabs R l _ oldsz newsz _ pgdir H);
      unfold KERNBASE, PGSIZE; try lia; try mlia.
    intros k Hk. apply Hnp. mlia. }
  intros r s' (-> & fs & tabs' & l' & H1 & H2 & H3 & H4 & H5 & H6 & H7).
  split; [done|]. exists fs, tabs', l'. split_and!; try done.
  intros va Hva Hout. apply H7; [done|]. rewrite PGROUNDDOWN_eq by done.
  unfold is_va, PGSIZE in *. mlia.
Qed.

(** A page fresh from the allocator and zeroed is an empty page directory. *)
Lemma empty_pgdir s p l : free_list kend s (p :: l) -> lock_free s ->
  pt_inv (set_mem (memset (k_mem s) p 0 PGSIZE) (set_freelist (ld32 (k_mem s) p) s)) p [] [] l.
Proof.
  intros (Hm & (E & Hp & Hch) & Hnd) Hlk. inversion Hnd as [|? ? Hpl Hnd']; subst.
  assert (Hz : forall i, 0 <= i < 1024 -> pde_of (memset (k_mem s) (k_freelist s) 0 PGSIZE) (k_freelist s) i = 0).
  { intros i Hi. by apply memset_zero_entry. }
  split; simpl.
  - split; [apply memset_ok; [done|by apply (is_page_fits kend)]|]. split; [|done].
    eapply chain_frame; [|exact Hch]. intros q Hq.
    assert (is_page q) by (apply chain_pages in Hch; by eapply Forall_forall in Hch).
    apply (ld32_page_ext kend); [done|]. apply memset_other_page; try done. by intros ->.
  - done.
  - by constructor.
  - by constructor.
  - intros i Hi. rewrite Hz by done. done.
  - intros i j Hi Hj. rewrite Hz by done. done.
Qed.
End vmspec.

(** ** Concrete address spaces *)

Definition sample_end : Z := 0x80400000.
Definition sample_page (i : Z) : Z := 0x80500000 + PGSIZE * i.

(** Memory in which the pages [ps] are chained into a free list. *)
Fixpoint chained (ps : list Z) : mem :=
  match ps with
  | [] => fun _ => 0
  | p :: ps' => st32 (chained ps') p (default 0 (head ps'))
  end.

Definition free_state (ps : list Z) : kstate :=
  {| k_mem := chained ps; k_freelist := default 0 (head ps); k_use_lock := true; k_held := [] |}.

(** The first page of the list made into an empty page directory. *)
Definition pgdir_state (ps : list Z) : kstate :=
  match ps with
  | [] => free_state []
  | p :: _ => set_mem (memset (chained ps) p 0 PGSIZE)
                (set_freelist (ld32 (chained ps) p) (free_state ps))
  end.

Definition sample_state : kstate := pgdir_state (map sample_page [0; 1; 2; 3]).

Lemma sample_free_list : free_list sample_end (free_state (map sample_page [0; 1; 2; 3])) (map sample_page [0; 1; 2; 3]).
Proof.
  split; [|split].
  - simpl. repeat (apply st32_ok). intros x. lia.
  - unfold Kalloc.is_page. simpl. repeat match goal with |- _ /\ _ => split end; by vm_compute.
  - apply (bool_decide_unpack _). by vm_compute.
Qed.

Lemma sample_inv : pt_inv sample_end sample_state (sample_page 0) [] [] (map sample_page [1; 2; 3]).
Proof.
  apply (empty_pgdir sample_end (free_state (map sample_page [0; 1; 2; 3]))); [apply sample_free_list|].
  by intros ?%elem_of_nil.
Qed.

Lemma sample_pte va : is_va va -> present (pte_of (k_mem sample_state) (sample_page 0) va) = false.
Proof.
  intros Hva. unfold pte_of.
  assert (E : pde_of (k_mem sample_state) (sample_page 0) (PDX va) = 0).
  { apply (memset_zero_entry sample_end); [by vm_compute|]. by apply PDX_range. }
  by rewrite E.
Qed.

Lemma mappages_correct_witness :
  runs (mappages (sample_page 0) 0 8192 0x200000 (Z.lor PTE_W PTE_U)) sample_state (fun r s' =>
    r = 0 /\ pte_of (k_mem s') (sample_page 0) 4096 = new_pte 0x201000 (Z.lor PTE_W PTE_U)).
Proof.
  eapply runs_conseq.
  - apply (mappages_correct sample_end sample_state (sample_page 0)
      [] [] (map sample_page [1; 2; 3]) 0 8192 0x200000 (Z.lor PTE_W PTE_U) sample_inv);
      [unfold is_va; lia|lia|lia|done|lia|rewrite Zmod_0_l; lia|by vm_compute|].
    intros va Hva _. by apply sample_pte.
  - intros r s' (tabs' & l' & _ & _ & [[-> H]|(_ & _ & Hl & _)]).
    + split; [done|]. rewrite H by (unfold is_va; lia). by vm_compute.
    + vm_compute in Hl. lia.
Defined.

Lemma allocuvm_correct_witness :
  runs (allocuvm sample_end (sample_page 0) 0 1000) sample_state (fun r s' =>
    r = 1000 /\ exists f, zero_page (k_mem s') f /\
      pte_of (k_mem s') (sample_page 0) 0 = new_pte (v2p f) (Z.lor PTE_W PTE_U)).
Proof.
  eapply runs_conseq.
  - apply (allocuvm_correct sample_end sample_state (sample_page 0)
      [] [] (map sample_page [1; 2; 3]) 0 1000 sample_inv); [lia|done| |].
    + vm_compute. lia.
    + intros va Hva. apply sample_pte. unfold is_va. change (PGROUNDUP 1000) with 4096 in Hva.
      change (PGROUNDUP 0) with 0 in Hva. lia.
  - intros r s' (-> & fs & _ & _ & Hl & _ & Hm & Hz & _). split; [done|].
    destruct fs as [|f fs]; [done|]. exists f. split; [by inversion Hz|]. by apply (Hm 0%nat f).
Defined.

(** [allocuvm] does not look at the result of [mappages].  With one free
    page and no page table it reports the new size although the page is not
    mapped, and the page is lost: it is neither mapped nor free. *)
Theorem allocuvm_reports_unmapped_growth :
  match allocuvm sample_end (sample_page 0) 0 4096 (pgdir_state (map sample_page [0; 1])) with
  | Ok r s' => (r, pte_of (k_mem s') (sample_page 0) 0, k_freelist s') = (4096, 0, 0)
  | _ => False
  end.
Proof. by vm_compute. Qed.
