(* ===== verification/Spinlock.v ===== *)
(** * Spin locks: spinlock.c

    Any number of CPUs run [acquire] and [release] of spinlock.c at the same
    time.  Every access to shared memory is one step of [cpu_step]: the two reads
    of [holding], the atomic [xchg], the stores to [lk->cpu] and [lk->pcs].
    [pc] says where in the code a CPU is, and [machine] holds the locks, the
    per-CPU interrupt state of [struct cpu] and the memory that
    [getcallerpcs] walks.  [c_held] is a history variable: the locks the CPU
    obtained by [xchg] and has not given back. *)

From S2P Require Import Prelude CString Mmu.

Definition NCPU : nat := 8.

(** [struct spinlock]; [lk_cpu] is the index of the CPU, 0 is [None]. *)
Record spinlock := { locked : Z; lk_cpu : option nat; lk_pcs : list Z }.

(** The part of [struct cpu] and of the flags register that [pushcli] uses. *)
Record cpu := { c_if : bool; ncli : Z; intena : bool; c_held : list lockid }.

Definition initlock : spinlock := {| locked := 0; lk_cpu := None; lk_pcs := replicate 10 0 |}.

(** [pushcli]: read the flag, [cli], count. *)
Definition pushcli (c : cpu) : cpu :=
  {| c_if := false; ncli := ncli c + 1;
     intena := if ncli c =? 0 then c_if c else intena c; c_held := c_held c |}.

(** [popcli]: [inl] is the panic. *)
Definition popcli (c : cpu) : string + cpu :=
  if c_if c then inl "popcli - interruptible"%string
  else if ncli c - 1 <? 0 then inl "popcli"%string
  else inr {| c_if := (ncli c - 1 =? 0) && intena c; ncli := ncli c - 1;
              intena := intena c; c_held := c_held c |}.

(** The loop of [getcallerpcs]: at most [n] more frames of the %ebp chain, then zeros. *)
Fixpoint callerpcs (m : mem) (ebp : Z) (n : nat) : list Z :=
  match n with
  | O => []
  | S n' =>
      if (ebp =? 0) || (ebp <? KERNBASE) || (ebp =? 0xFFFFFFFF) then replicate n 0
      else ld32 m (u32 (ebp + 4)) :: callerpcs m (ld32 m ebp) n'
  end.

Definition getcallerpcs (m : mem) (v : Z) : list Z := callerpcs m (u32 (v - 8)) 10.

(** Where a CPU is in the code. *)
Inductive pc :=
  | Idle                              (* outside spinlock.c *)
  | AcqPush (lk : lockid)             (* pushcli() of acquire *)
  | AcqHold1 (lk : lockid)            (* lock->locked of holding() *)
  | AcqHold2 (lk : lockid) (l : Z)    (* lock->cpu == cpu *)
  | AcqSpin (lk : lockid)             (* xchg(&lk->locked, 1) *)
  | AcqCpu (lk : lockid)              (* lk->cpu = cpu *)
  | AcqPcs (lk : lockid)              (* getcallerpcs(&lk, lk->pcs) *)
  | RelHold1 (lk : lockid)
  | RelHold2 (lk : lockid) (l : Z)
  | RelPcs (lk : lockid)              (* lk->pcs[0] = 0 *)
  | RelCpu (lk : lockid)              (* lk->cpu = 0 *)
  | RelXchg (lk : lockid)             (* xchg(&lk->locked, 0) *)
  | RelPop                            (* popcli() *)
  | Dead (msg : string).              (* panic *)

Record machine := {
  m_lock : lockid -> spinlock;
  m_cpu : nat -> cpu;
  m_pc : nat -> pc;
  m_mem : mem;
  m_fp : nat -> Z     (* the address of acquire's argument on the CPU's stack *)
}.

Definition at_pc (c : nat) (p : pc) (M : machine) : machine :=
  {| m_lock := m_lock M; m_cpu := m_cpu M; m_pc := upd (m_pc M) c p; m_mem := m_mem M; m_fp := m_fp M |}.
Definition set_cpu (c : nat) (v : cpu) (M : machine) : machine :=
  {| m_lock := m_lock M; m_cpu := upd (m_cpu M) c v; m_pc := m_pc M; m_mem := m_mem M; m_fp := m_fp M |}.
Definition set_lock (lk : lockid) (v : spinlock) (M : machine) : machine :=
  {| m_lock := upd (m_lock M) lk v; m_cpu := m_cpu M; m_pc := m_pc M; m_mem := m_mem M; m_fp := m_fp M |}.

Definition set_c_held (l : list lockid) (c : cpu) : cpu :=
  {| c_if := c_if c; ncli := ncli c; intena := intena c; c_held := l |}.

(** What the code outside spinlock.c may do on a CPU: call [acquire] or
    [release], enable or disable interrupts outside critical sections, and
    write memory and move its stack. *)
Inductive request :=
  | Acquire (lk : lockid)
  | Release (lk : lockid)
  | SetIf (b : bool)
  | Compute (m : mem) (fp : Z).

(** The next step of CPU [c]; [req] is used when the CPU is outside spinlock.c. *)
Definition cpu_step (c : nat) (req : request) (M : machine) : machine :=
  match m_pc M c with
  | Idle =>
      match req with
      | Acquire lk => at_pc c (AcqPush lk) M
      | Release lk => at_pc c (RelHold1 lk) M
      | SetIf b => if ncli (m_cpu M c) =? 0
                   then set_cpu c {| c_if := b; ncli := 0; intena := intena (m_cpu M c);
                                     c_held := c_held (m_cpu M c) |} M
                   else M
      | Compute m fp => {| m_lock := m_lock M; m_cpu := m_cpu M; m_pc := m_pc M; m_mem := m;
                           m_fp := upd (m_fp M) c fp |}
      end
  | AcqPush lk => at_pc c (AcqHold1 lk) (set_cpu c (pushcli (m_cpu M c)) M)
  | AcqHold1 lk => at_pc c (AcqHold2 lk (locked (m_lock M lk))) M
  | AcqHold2 lk l =>
      if negb (l =? 0) && bool_decide (lk_cpu (m_lock M lk) = Some c)
      then at_pc c (Dead "acquire") M
      else at_pc c (AcqSpin lk) M
  | AcqSpin lk =>
      let l := m_lock M lk in
      let M1 := set_lock lk {| locked := 1; lk_cpu := lk_cpu l; lk_pcs := lk_pcs l |} M in
      if locked l =? 0
      then at_pc c (AcqCpu lk) (set_cpu c (set_c_held (lk :: c_held (m_cpu M c)) (m_cpu M c)) M1)
      else M1
  | AcqCpu lk =>
      let l := m_lock M lk in
      at_pc c (AcqPcs lk) (set_lock lk {| locked := locked l; lk_cpu := Some c; lk_pcs := lk_pcs l |} M)
  | AcqPcs lk =>
      let l := m_lock M lk in
      at_pc c Idle (set_lock lk {| locked := locked l; lk_cpu := lk_cpu l;
                                   lk_pcs := getcallerpcs (m_mem M) (m_fp M c) |} M)
  | RelHold1 lk => at_pc c (RelHold2 lk (locked (m_lock M lk))) M
  | RelHold2 lk l =>
      if negb (l =? 0) && bool_decide (lk_cpu (m_lock M lk) = Some c)
      then at_pc c (RelPcs lk) M
      else at_pc c (Dead "release") M
  | RelPcs lk =>
      let l := m_lock M lk in
      at_pc c (RelCpu lk) (set_lock lk {| locked := locked l; lk_cpu := lk_cpu l;
                                          lk_pcs := <[0%nat := 0]> (lk_pcs l) |} M)
  | RelCpu lk =>
      let l := m_lock M lk in
      at_pc c (RelXchg lk) (set_lock lk {| locked := locked l; lk_cpu := None; lk_pcs := lk_pcs l |} M)
  | RelXchg lk =>
      let l := m_lock M lk in
      at_pc c RelPop
        (set_cpu c (set_c_held (remove_lock lk (c_held (m_cpu M c))) (m_cpu M c))
           (set_lock lk {| locked := 0; lk_cpu := lk_cpu l; lk_pcs := lk_pcs l |} M))
  | RelPop =>
      match popcli (m_cpu M c) with
      | inl msg => at_pc c (Dead msg) M
      | inr v => at_pc c Idle (set_cpu c v M)
      end
  | Dead _ => M
  end.

(** [holding] on a machine no other CPU changes. *)
Definition holding (M : machine) (c : nat) (lk : lockid) : bool :=
  negb (locked (m_lock M lk) =? 0) && bool_decide (lk_cpu (m_lock M lk) = Some c).

(** After boot: every lock free, every CPU outside spinlock.c. *)
Definition boot (M : machine) : Prop :=
  (forall lk, m_lock M lk = initlock) /\
  (forall c, m_pc M c = Idle /\ ncli (m_cpu M c) = 0 /\ c_held (m_cpu M c) = []).

Inductive reachable : machine -> Prop :=
  | reach_boot M : boot M -> reachable M
  | reach_step M c req : reachable M -> reachable (cpu_step c req M).

(** ** The invariant *)

(** [pushcli]s that are not matched by a lock in [c_held]. *)
Definition pending (p : pc) : Z :=
  match p with
  | AcqHold1 _ | AcqHold2 _ _ | AcqSpin _ | RelPop => 1
  | Dead _ => 1
  | _ => 0
  end.

Definition dead (p : pc) : bool := match p with Dead _ => true | _ => false end.

(** What a CPU knows about the lock it works on. *)
Definition pc_ok (p : pc) (held : list lockid) : Prop :=
  match p with
  | AcqCpu lk | AcqPcs lk | RelPcs lk | RelCpu lk | RelXchg lk => lk ∈ held
  | AcqSpin lk => lk ∉ held
  | AcqHold2 lk l | RelHold2 lk l => l = 0 -> lk ∉ held
  | _ => True
  end.

(** [lk->cpu] names the holder except right after and right before the [xchg]. *)
Definition names_holder (p : pc) (lk : lockid) : Prop := p <> AcqCpu lk /\ p <> RelXchg lk.

Record lock_inv (M : machine) : Prop := {
  inv_nodup : forall c, NoDup (c_held (m_cpu M c));
  inv_locked : forall lk, locked (m_lock M lk) <> 0 <-> exists c, lk ∈ c_held (m_cpu M c);
  inv_excl : forall lk c1 c2, lk ∈ c_held (m_cpu M c1) -> lk ∈ c_held (m_cpu M c2) -> c1 = c2;
  inv_cpu : forall lk c, lk_cpu (m_lock M lk) = Some c <->
    lk ∈ c_held (m_cpu M c) /\ names_holder (m_pc M c) lk;
  inv_pc : forall c, pc_ok (m_pc M c) (c_held (m_cpu M c));
  inv_ncli : forall c, dead (m_pc M c) = false ->
    ncli (m_cpu M c) = Z.of_nat (length (c_held (m_cpu M c))) + pending (m_pc M c);
  inv_if : forall c, dead (m_pc M c) = false -> c_if (m_cpu M c) = true -> ncli (m_cpu M c) = 0
}.

Lemma boot_inv M : boot M -> lock_inv M.
Proof.
  intros [Hl Hc].
  assert (Hh : forall c, c_held (m_cpu M c) = []) by (intros c; apply Hc).
  assert (Hp : forall c, m_pc M c = Idle) by (intros c; apply Hc).
  split.
  - intros c. rewrite Hh. constructor.
  - intros lk. rewrite Hl. split; [done|]. intros [c Hin]. rewrite Hh in Hin. by apply elem_of_nil in Hin.
  - intros lk c1 c2 Hin. rewrite Hh in Hin. by apply elem_of_nil in Hin.
  - intros lk c. rewrite Hl, Hh. split; [done|]. intros [Hin _]. by apply elem_of_nil in Hin.
  - intros c. by rewrite Hp.
  - intros c _. rewrite Hh, Hp. by destruct (Hc c) as (_ & -> & _).
  - intros c _ _. apply Hc.
Qed.

Lemma elem_of_remove_lock lk lk' l : lk' ∈ remove_lock lk l <-> lk' ∈ l /\ lk' <> lk.
Proof. unfold remove_lock. rewrite list_elem_of_filter. tauto. Qed.

Lemma length_remove_lock lk l : NoDup l -> lk ∈ l -> length l = S (length (remove_lock lk l)).
Proof.
  induction l as [|x l IH]; intros Hnd Hin; [by apply elem_of_nil in Hin|].
  apply NoDup_cons in Hnd as [Hx Hnd]. destruct (decide (x = lk)) as [->|Hne].
  - by rewrite remove_lock_cons.
  - unfold remove_lock. rewrite filter_cons_True by done. simpl.
    apply elem_of_cons in Hin as [->|Hin]; [done|]. by rewrite (IH Hnd Hin).
Qed.

(** A step that moves one CPU and leaves the locks and what is held alone. *)
Lemma inv_move M c p v : lock_inv M -> c_held v = c_held (m_cpu M c) ->
  pc_ok p (c_held v) ->
  (forall lk, lk ∈ c_held v -> names_holder p lk <-> names_holder (m_pc M c) lk) ->
  (dead p = false -> ncli v = Z.of_nat (length (c_held v)) + pending p) ->
  (dead p = false -> c_if v = true -> ncli v = 0) ->
  lock_inv (at_pc c p (set_cpu c v M)).
Proof.
  intros H Hh Hok Hnh Hn Hi.
  assert (Hheld : forall c', c_held (upd (m_cpu M) c v c') = c_held (m_cpu M c')).
  { intros c'. destruct (decide (c' = c)) as [->|]; [by rewrite upd_eq|by rewrite upd_ne]. }
  split; simpl.
  - intros c'. rewrite Hheld. apply H.
  - intros lk. rewrite (inv_locked _ H). by setoid_rewrite Hheld.
  - intros lk c1 c2. rewrite !Hheld. apply H.
  - intros lk c'. rewrite Hheld, (inv_cpu _ H).
    destruct (decide (c' = c)) as [->|]; [rewrite upd_eq|by rewrite upd_ne].
    rewrite Hh in Hnh. split; intros [Hin Hx]; split; try done; by apply Hnh.
  - intros c'. destruct (decide (c' = c)) as [->|]; [by rewrite !upd_eq|].
    rewrite !upd_ne by done. apply H.
  - intros c'. destruct (decide (c' = c)) as [->|]; [by rewrite !upd_eq|].
    rewrite !upd_ne by done. apply H.
  - intros c'. destruct (decide (c' = c)) as [->|]; [by rewrite !upd_eq|].
    rewrite !upd_ne by done. apply H.
Qed.

(** A step that rewrites the debug field of a lock, or sets a set [locked]. *)
Lemma inv_lock_fields M lk l pcs : lock_inv M -> (l <> 0 <-> locked (m_lock M lk) <> 0) ->
  lock_inv (set_lock lk {| locked := l; lk_cpu := lk_cpu (m_lock M lk); lk_pcs := pcs |} M).
Proof.
  intros [H1 H2 H3 H4 H5 H6 H7] Hl. split; simpl; try done.
  - intros lk'. rewrite <- H2. destruct (decide (lk' = lk)) as [->|]; [by rewrite upd_eq|by rewrite upd_ne].
  - intros lk' c. rewrite <- H4. destruct (decide (lk' = lk)) as [->|]; [by rewrite upd_eq|by rewrite upd_ne].
Qed.

Lemma inv_ext M M' : (forall lk, m_lock M' lk = m_lock M lk) -> (forall c, m_cpu M' c = m_cpu M c) ->
  (forall c, m_pc M' c = m_pc M c) -> lock_inv M -> lock_inv M'.
Proof.
  intros E1 E2 E3 [H1 H2 H3 H4 H5 H6 H7]. split.
  - intros c. by rewrite E2.
  - intros lk. rewrite E1, H2. by setoid_rewrite E2.
  - intros lk c1 c2. rewrite !E2. apply H3.
  - intros lk c. by rewrite E1, E2, E3.
  - intros c. by rewrite E2, E3.
  - intros c. rewrite E2, E3. apply H6.
  - intros c. rewrite E2, E3. apply H7.
Qed.

Lemma inv_at_pc M c p : lock_inv M -> pc_ok p (c_held (m_cpu M c)) ->
  (forall lk, lk ∈ c_held (m_cpu M c) -> names_holder p lk <-> names_holder (m_pc M c) lk) ->
  (dead p = false -> dead (m_pc M c) = false /\ pending p = pending (m_pc M c)) ->
  lock_inv (at_pc c p M).
Proof.
  intros H Hok Hnh Hd.
  eapply (inv_ext (at_pc c p (set_cpu c (m_cpu M c) M))).
  - done.
  - intros c'. simpl. destruct (decide (c' = c)) as [->|]; [by rewrite upd_eq|by rewrite upd_ne].
  - done.
  - apply inv_move; try done.
    + intros E. destruct (Hd E) as [E1 ->]. by apply H.
    + intros E. destruct (Hd E) as [E1 _]. by apply H.
Qed.

(** [xchg] found the lock free. *)
Lemma inv_xchg M c lk : lock_inv M -> m_pc M c = AcqSpin lk -> locked (m_lock M lk) = 0 ->
  lock_inv (cpu_step c (Acquire lk) M).
Proof.
  intros H Epc El. unfold cpu_step. rewrite Epc, El. simpl.
  assert (Hfree : forall c', lk ∉ c_held (m_cpu M c')).
  { intros c' Hin. by apply (proj2 (inv_locked _ H lk)); [exists c'|]. }
  assert (Hheld : forall c' lk', lk' ∈ c_held (upd (m_cpu M) c
      (set_c_held (lk :: c_held (m_cpu M c)) (m_cpu M c)) c') <->
      lk' ∈ c_held (m_cpu M c') \/ (c' = c /\ lk' = lk)).
  { intros c' lk'. destruct (decide (c' = c)) as [->|].
    - rewrite upd_eq. simpl. rewrite elem_of_cons. naive_solver.
    - rewrite upd_ne by done. naive_solver. }
  split; simpl.
  - intros c'. destruct (decide (c' = c)) as [->|]; [rewrite upd_eq|rewrite upd_ne by done; apply H].
    simpl. constructor; [apply Hfree|apply H].
  - intros lk'. setoid_rewrite Hheld. destruct (decide (lk' = lk)) as [->|].
    + rewrite upd_eq. simpl. split; [|done]. intros _. exists c. by right.
    + rewrite upd_ne, (inv_locked _ H) by done. naive_solver.
  - intros lk' c1 c2. rewrite !Hheld. intros [H1|[-> ->]] [H2|[-> ?]]; try done.
    + by eapply (inv_excl _ H).
    + subst. by apply Hfree in H1.
    + by apply Hfree in H2.
  - intros lk' c'. rewrite Hheld.
    assert (E : lk_cpu (upd (m_lock M) lk {| locked := 1; lk_cpu := lk_cpu (m_lock M lk);
      lk_pcs := lk_pcs (m_lock M lk) |} lk') = lk_cpu (m_lock M lk')).
    { destruct (decide (lk' = lk)) as [->|]; [by rewrite upd_eq|by rewrite upd_ne]. }
    rewrite E, (inv_cpu _ H). destruct (decide (c' = c)) as [->|].
    + rewrite upd_eq, Epc. unfold names_holder. split.
      * intros [Hin _]. split; [by left|]. split; [|done]. intros [= ->]. by apply Hfree in Hin.
      * intros [[Hin|[_ ->]] [Hne _]]; done.
    + rewrite upd_ne by done. naive_solver.
  - intros c'. destruct (decide (c' = c)) as [->|]; [rewrite !upd_eq; simpl; left|].
    rewrite !upd_ne by done. apply H.
  - intros c'. destruct (decide (c' = c)) as [->|].
    + rewrite !upd_eq. simpl. intros _. pose proof (inv_ncli _ H c) as Hn. rewrite Epc in Hn.
      simpl in Hn. rewrite Hn by done. lia.
    + rewrite !upd_ne by done. apply H.
  - intros c'. destruct (decide (c' = c)) as [->|].
    + rewrite !upd_eq. simpl. intros _. apply (inv_if _ H). by rewrite Epc.
    + rewrite !upd_ne by done. apply H.
Qed.

(** The lock is given back. *)
Lemma inv_unlock M c lk : lock_inv M -> m_pc M c = RelXchg lk -> lock_inv (cpu_step c (Release lk) M).
Proof.
  intros H Epc. unfold cpu_step. rewrite Epc. simpl.
  pose proof (inv_pc _ H c) as Hin. rewrite Epc in Hin. simpl in Hin.
  assert (Hheld : forall c' lk', lk' ∈ c_held (upd (m_cpu M) c
      (set_c_held (remove_lock lk (c_held (m_cpu M c))) (m_cpu M c)) c') <->
      lk' ∈ c_held (m_cpu M c') /\ lk' <> lk).
  { intros c' lk'. destruct (decide (c' = c)) as [->|].
    - rewrite upd_eq. simpl. apply elem_of_remove_lock.
    - rewrite upd_ne by done. split; [|naive_solver]. intros Hin'. split; [done|].
      intros ->. by eapply (inv_excl _ H lk c' c) in Hin. }
  split; simpl.
  - intros c'. destruct (decide (c' = c)) as [->|]; [rewrite upd_eq|rewrite upd_ne by done; apply H].
    simpl. apply NoDup_filter, H.
  - intros lk'. setoid_rewrite Hheld. destruct (decide (lk' = lk)) as [->|].
    + rewrite upd_eq. simpl. naive_solver.
    + rewrite upd_ne, (inv_locked _ H) by done. naive_solver.
  - intros lk' c1 c2. rewrite !Hheld. intros [H1 _] [H2 _]. by eapply (inv_excl _ H).
  - intros lk' c'. rewrite Hheld.
    assert (E : lk_cpu (upd (m_lock M) lk {| locked := 0; lk_cpu := lk_cpu (m_lock M lk);
      lk_pcs := lk_pcs (m_lock M lk) |} lk') = lk_cpu (m_lock M lk')).
    { destruct (decide (lk' = lk)) as [->|]; [by rewrite upd_eq|by rewrite upd_ne]. }
    rewrite E, (inv_cpu _ H). destruct (decide (c' = c)) as [->|].
    + rewrite upd_eq, Epc. unfold names_holder. naive_solver.
    + rewrite upd_ne by done. split; [|naive_solver]. intros [Hl Hn]. split; [|done].
      split; [done|]. intros ->. by eapply (inv_excl _ H lk c' c) in Hin.
  - intros c'. destruct (decide (c' = c)) as [->|]; [by rewrite !upd_eq|].
    rewrite !upd_ne by done. apply H.
  - intros c'. destruct (decide (c' = c)) as [->|].
    + rewrite !upd_eq. simpl. intros _. pose proof (inv_ncli _ H c) as Hn. rewrite Epc in Hn.
      rewrite Hn by done. simpl. rewrite (length_remove_lock lk (c_held (m_cpu M c)) (inv_nodup _ H c) Hin). lia.
    + rewrite !upd_ne by done. apply H.
  - intros c'. destruct (decide (c' = c)) as [->|].
    + rewrite !upd_eq. simpl. intros _. apply (inv_if _ H). by rewrite Epc.
    + rewrite !upd_ne by done. apply H.
Qed.

(** The holder writes or clears [lk->cpu]. *)
Lemma inv_set_cpu M c lk p v : lock_inv M -> lk ∈ c_held (m_cpu M c) -> pc_ok p (c_held (m_cpu M c)) ->
  dead (m_pc M c) = false -> dead p = false -> pending p = pending (m_pc M c) ->
  (forall lk', lk' <> lk -> names_holder p lk' <-> names_holder (m_pc M c) lk') ->
  (v = Some c /\ names_holder p lk) \/ (v = None /\ ~ names_holder p lk) ->
  lock_inv (at_pc c p (set_lock lk {| locked := locked (m_lock M lk); lk_cpu := v;
                                      lk_pcs := lk_pcs (m_lock M lk) |} M)).
Proof.
  intros H Hin Hok Hd Hdp Hp Hnh Hv. split; simpl.
  - apply H.
  - intros lk'. rewrite <- (inv_locked _ H).
    destruct (decide (lk' = lk)) as [->|]; [by rewrite upd_eq|by rewrite upd_ne].
  - apply H.
  - intros lk' c'. destruct (decide (lk' = lk)) as [->|Hlk].
    + rewrite upd_eq. simpl. destruct (decide (c' = c)) as [->|Hc].
      * rewrite upd_eq. destruct Hv as [[-> Hv]|[-> Hv]]; naive_solver.
      * rewrite upd_ne by done. split; [destruct Hv as [[-> _]|[-> _]]; congruence|].
        intros [Hin' _]. by apply (inv_excl _ H lk c' c) in Hin'.
    + rewrite upd_ne, (inv_cpu _ H) by done. destruct (decide (c' = c)) as [->|Hc].
      * rewrite upd_eq. by rewrite Hnh.
      * by rewrite upd_ne.
  - intros c'. destruct (decide (c' = c)) as [->|]; [by rewrite upd_eq|].
    rewrite upd_ne by done. apply H.
  - intros c'. destruct (decide (c' = c)) as [->|].
    + rewrite upd_eq, Hp. intros _. by apply H.
    + rewrite upd_ne by done. apply H.
  - intros c'. destruct (decide (c' = c)) as [->|].
    + intros _. by apply H.
    + rewrite upd_ne by done. apply H.
Qed.

(** [holding] answers whether the CPU has the lock. *)
Lemma holding_iff M c lk : lock_inv M -> names_holder (m_pc M c) lk ->
  lk_cpu (m_lock M lk) = Some c <-> lk ∈ c_held (m_cpu M c).
Proof. intros H Hn. rewrite (inv_cpu _ H). naive_solver. Qed.

Lemma popcli_ok v : c_if v = false -> 0 < ncli v ->
  popcli v = inr {| c_if := (ncli v - 1 =? 0) && intena v; ncli := ncli v - 1;
                    intena := intena v; c_held := c_held v |}.
Proof. intros E Hn. unfold popcli. rewrite E. by rewrite (proj2 (Z.ltb_ge _ 0)) by lia. Qed.

Lemma inv_pop M c : lock_inv M -> m_pc M c = RelPop -> exists v,
  popcli (m_cpu M c) = inr v /\ lock_inv (at_pc c Idle (set_cpu c v M)).
Proof.
  intros H Epc. pose proof (inv_ncli _ H c) as Hn. pose proof (inv_if _ H c) as Hi.
  rewrite Epc in Hn, Hi. specialize (Hn eq_refl). specialize (Hi eq_refl). simpl in Hn.
  assert (E : c_if (m_cpu M c) = false) by (destruct (c_if _); [specialize (Hi eq_refl); lia|done]).
  rewrite popcli_ok by (done || lia). eexists. split; [done|].
  apply inv_move; simpl; try done.
  - intros lk _. rewrite Epc. done.
  - lia.
  - intros _ Hc. apply andb_prop in Hc as [Hc _]. apply Z.eqb_eq in Hc. lia.
Qed.

Lemma step_inv M c req : lock_inv M -> lock_inv (cpu_step c req M).
Proof.
  intros H. pose proof (inv_pc _ H c) as Hok.
  destruct (m_pc M c) eqn:Epc; unfold cpu_step; rewrite Epc; simpl in Hok.
  - destruct req as [lk|lk|b|m fp].
    + apply inv_at_pc; rewrite ?Epc; try done.
    + apply inv_at_pc; rewrite ?Epc; try done.
    + case_match; [|done]. bool_hyps.
      eapply (inv_ext (at_pc c Idle (set_cpu c _ M))); [done|done| |apply inv_move; simpl; try done].
      * intros c'. simpl. destruct (decide (c' = c)) as [->|]; [by rewrite upd_eq|by rewrite upd_ne].
      * intros lk _. by rewrite Epc.
      * intros _. pose proof (inv_ncli _ H c) as Hn. rewrite Epc in Hn. specialize (Hn eq_refl).
        simpl in *. lia.
    + by eapply inv_ext; [..|exact H].
  - apply inv_move; simpl; try done.
    + intros lk' _. by rewrite Epc.
    + intros _. pose proof (inv_ncli _ H c) as Hn. rewrite Epc in Hn. specialize (Hn eq_refl).
      simpl in *. lia.
  - apply inv_at_pc; rewrite ?Epc; try done. simpl. intros El Hin.
    by apply (proj2 (inv_locked _ H lk)); [exists c|].
  - assert (Hh := holding_iff M c lk H). rewrite Epc in Hh. specialize (Hh ltac:(by split)).
    case_match eqn:E.
    + apply inv_at_pc; rewrite ?Epc; try done.
    + apply inv_at_pc; rewrite ?Epc; try done. simpl. intros Hin. bool_hyps.
      * subst. by apply Hok.
      * apply bool_decide_eq_false in H0. by apply H0, Hh.
  - destruct (locked (m_lock M lk) =? 0) eqn:El; bool_hyps.
    + pose proof (inv_xchg M c lk H Epc El) as Hx. unfold cpu_step in Hx. rewrite Epc, El in Hx.
      by simpl in Hx.
    + by apply inv_lock_fields.
  - apply inv_set_cpu; rewrite ?Epc; try done.
    + intros lk' Hne. split; intros _; split; congruence.
    + left. split; [done|]. split; congruence.
  - apply inv_at_pc; [by apply inv_lock_fields|..]; simpl; rewrite ?Epc; try done.
  - apply inv_at_pc; rewrite ?Epc; try done. simpl. intros El Hin.
    by apply (proj2 (inv_locked _ H lk)); [exists c|].
  - assert (Hh := holding_iff M c lk H). rewrite Epc in Hh. specialize (Hh ltac:(by split)).
    case_match eqn:E.
    + apply inv_at_pc; rewrite ?Epc; try done. simpl. bool_hyps. apply Hh. by apply bool_decide_eq_true in H1.
    + apply inv_at_pc; rewrite ?Epc; try done. 
  - apply inv_at_pc; [by apply inv_lock_fields|..]; simpl; rewrite ?Epc; try done.
  - apply inv_set_cpu; rewrite ?Epc; try done.
    + intros lk' Hne. split; intros _; split; congruence.
    + right. split; [done|]. intros [_ ?]. congruence.
  - pose proof (inv_unlock M c lk H Epc) as Hx. unfold cpu_step in Hx. rewrite Epc in Hx. by simpl in Hx.
  - destruct (inv_pop M c H Epc) as (v & -> & Hv). done.
  - done.
Qed.

Lemma reachable_inv M : reachable M -> lock_inv M.
Proof. induction 1; [by apply boot_inv|by apply step_inv]. Qed.

(** ** What spinlock.c promises *)

(** C12: mutual exclusion.  Whatever the CPUs do and however their steps
    interleave, no lock is held by two CPUs, and while a CPU holds a lock its
    interrupts are off. *)
Theorem mutual_exclusion M lk c1 c2 : reachable M ->
  lk ∈ c_held (m_cpu M c1) -> lk ∈ c_held (m_cpu M c2) ->
  c1 = c2 /\ (dead (m_pc M c1) = false -> c_if (m_cpu M c1) = false).
Proof.
  intros H%reachable_inv H1 H2. split; [by eapply (inv_excl _ H)|].
  intros Hd. destruct (c_if (m_cpu M c1)) eqn:E; [|done].
  pose proof (inv_if _ H c1 Hd E) as Hn. rewrite (inv_ncli _ H c1 Hd) in Hn.
  destruct (c_held (m_cpu M c1)) as [|l0 l]; [by apply elem_of_nil in H1|].
  simpl in Hn. assert (0 <= pending (m_pc M c1)) by (destruct (m_pc M c1); simpl; lia). lia.
Qed.

(** A CPU only panics in spinlock.c when its own code acquires a lock it
    already holds or releases one it does not hold: [holding] is exact although
    it reads [locked] and [cpu] in two steps while other CPUs run, and
    [popcli] never finds interrupts enabled or the count at zero. *)
Theorem panics_only_on_misuse M c req : reachable M -> dead (m_pc M c) = false ->
  dead (m_pc (cpu_step c req M) c) = true ->
  (exists lk l, m_pc M c = AcqHold2 lk l /\ lk ∈ c_held (m_cpu M c)) \/
  (exists lk l, m_pc M c = RelHold2 lk l /\ lk ∉ c_held (m_cpu M c)).
Proof.
  intros H%reachable_inv Hd. pose proof (inv_pc _ H c) as Hok.
  assert (Hh : forall lk, names_holder (m_pc M c) lk ->
    lk_cpu (m_lock M lk) = Some c <-> lk ∈ c_held (m_cpu M c)) by (intros; by apply holding_iff).
  destruct (m_pc M c) eqn:Epc; unfold cpu_step; rewrite Epc; simpl in Hok;
    try (simpl; rewrite upd_eq; done).
  - destruct req; simpl; rewrite ?upd_eq; try done; [|by rewrite Epc].
    case_match; simpl; by rewrite Epc.
  - specialize (Hh lk ltac:(by split)). case_match eqn:E; simpl; rewrite upd_eq; [|done].
    intros _. left. bool_hyps. exists lk, l. split; [done|]. apply Hh. by apply bool_decide_eq_true in H1.
  - case_match; simpl; [by rewrite upd_eq|by rewrite Epc].
  - specialize (Hh lk ltac:(by split)). case_match eqn:E; simpl; rewrite upd_eq; [done|].
    intros _. right. exists lk, l. split; [done|]. intros Hin. bool_hyps; [by subst; apply Hok|].
    apply bool_decide_eq_false in H0. by apply H0, Hh.
  - destruct (inv_pop M c H Epc) as (v & -> & _). simpl. by rewrite upd_eq.
  - done.
Qed.

Fixpoint popclis (n : nat) (c : cpu) : string + cpu :=
  match n with
  | O => inr c
  | S n' => match popcli c with inl e => inl e | inr c' => popclis n' c' end
  end.

Lemma pushclis_spec n c : 0 <= ncli c ->
  Nat.iter n pushcli c =
    if decide (n = 0)%nat then c
    else {| c_if := false; ncli := ncli c + Z.of_nat n;
            intena := if ncli c =? 0 then c_if c else intena c; c_held := c_held c |}.
Proof.
  intros Hn. induction n as [|n IH]; [done|]. simpl. rewrite IH.
  destruct n; [done|]. simpl. unfold pushcli. simpl.
  rewrite (proj2 (Z.eqb_neq _ 0)) by lia. f_equal. lia.
Qed.

Lemma popclis_spec n : forall c, c_if c = false -> Z.of_nat n <= ncli c -> (0 < n)%nat ->
  popclis n c = inr {| c_if := (ncli c =? Z.of_nat n) && intena c; ncli := ncli c - Z.of_nat n;
                       intena := intena c; c_held := c_held c |}.
Proof.
  induction n as [|n IH]; intros c Hi Hc Hn; [lia|]. simpl. rewrite popcli_ok by (done || lia).
  destruct n as [|n].
  - simpl. do 2 f_equal. f_equal. apply eq_true_iff_eq. rewrite !Z.eqb_eq. lia.
  - rewrite IH; simpl; [|rewrite (proj2 (Z.eqb_neq _ 0)) by lia; done|lia|lia].
    do 2 f_equal; [|lia]. f_equal. apply eq_true_iff_eq. rewrite !Z.eqb_eq. lia.
Qed.

(** [pushcli] and [popcli] are matched: after any number of [pushcli] and as
    many [popcli] the interrupt flag and the nesting count are what they were,
    with interrupts off in between; interrupts that were off stay off. *)
Theorem pushcli_popcli_nest c n : 0 <= ncli c -> (c_if c = true -> ncli c = 0) ->
  exists c', popclis n (Nat.iter n pushcli c) = inr c' /\
    c_if c' = c_if c /\ ncli c' = ncli c /\ c_held c' = c_held c /\
    forall k, (0 < k <= n)%nat -> c_if (Nat.iter k pushcli c) = false.
Proof.
  intros Hn Hi. assert (Hoff : forall k, (0 < k <= n)%nat -> c_if (Nat.iter k pushcli c) = false).
  { intros k Hk. rewrite pushclis_spec by done. by case_decide; [lia|]. }
  destruct n as [|n]; [exists c; by split_and!|].
  rewrite (pushclis_spec (S n)), decide_False by (done || lia).
  rewrite popclis_spec by (simpl; lia || done). eexists. split; [done|]. simpl.
  split_and!; [|lia|done|done].
  destruct (ncli c =? 0) eqn:E; bool_hyps.
  - rewrite E. by rewrite Z.eqb_refl.
  - rewrite (proj2 (Z.eqb_neq _ _)) by lia. destruct (c_if c); [|done]. by specialize (Hi eq_refl).
Qed.

(** ** A run of two CPUs *)

Definition boot_machine : machine :=
  {| m_lock := fun _ => initlock; m_cpu := fun _ => {| c_if := true; ncli := 0; intena := false; c_held := [] |};
     m_pc := fun _ => Idle; m_mem := fun _ => 0; m_fp := fun _ => 0 |}.

(** The machine after the CPUs of the list took a step each, in order. *)
Definition run_machine (l : list (nat * request)) (M : machine) : machine :=
  fold_left (fun M' '(c, r) => cpu_step c r M') l M.

Lemma run_reachable l : forall M, reachable M -> reachable (run_machine l M).
Proof. induction l as [|[c r] l IH]; intros M HM; [done|]. apply IH. by constructor. Qed.

Lemma boot_reachable : reachable boot_machine.
Proof. by constructor. Qed.

(** CPU 0 takes the lock between the reads of [holding] on CPU 1. *)
Definition contended : machine :=
  run_machine (let a c := (c, Acquire lk_ptable) in
    [a 0; a 1; a 0; a 1; a 0; a 1; a 0; a 1; a 0; a 1; a 1; a 0; a 0]%nat) boot_machine.

Lemma mutual_exclusion_witness :
  lk_ptable ∈ c_held (m_cpu contended 0) /\ m_pc contended 1 = AcqSpin lk_ptable /\
  c_if (m_cpu contended 0) = false.
Proof.
  split; [|split].
  - by vm_compute; left.
  - by vm_compute.
  - apply (mutual_exclusion contended lk_ptable 0 0).
    + apply run_reachable, boot_reachable.
    + by vm_compute; left.
    + by vm_compute; left.
    + by vm_compute.
Defined.

Lemma panics_only_on_misuse_witness :
  let M := run_machine (replicate 4 (0%nat, Acquire lk_ptable)) contended in
  m_pc M 0 = Dead "acquire" /\
  let M' := run_machine (replicate 3 (0%nat, Acquire lk_ptable)) contended in
  (exists lk l, m_pc M' 0 = AcqHold2 lk l /\ lk ∈ c_held (m_cpu M' 0)) \/
  (exists lk l, m_pc M' 0 = RelHold2 lk l /\ lk ∉ c_held (m_cpu M' 0)).
Proof.
  split; [by vm_compute|]. intros M'.
  apply (panics_only_on_misuse M' 0 (Acquire lk_ptable)).
  - apply run_reachable, run_reachable, boot_reachable.
  - by vm_compute.
  - by vm_compute.
Defined.

Lemma pushcli_popcli_nest_witness : exists c', popclis 3 (Nat.iter 3 pushcli (m_cpu boot_machine 0)) = inr c' /\
  c_if c' = true /\ ncli c' = 0.
Proof.
  destruct (pushcli_popcli_nest (m_cpu boot_machine 0) 3) as (c' & H1 & H2 & H3 & _).
  - by vm_compute.
  - by vm_compute.
  - by exists c'.
Defined.
