(* ===== verification/Proc.v ===== *)
(** * Processes: proc.c

    The process table, the current process of the CPU, the page-table register
    and the task state that [switchuvm] loads, and the memory
    of the page allocator.  [proc] and [parent] pointers are indices of the
    table.  The address-space operations are reached through the interface [AddrSpace],
    which Vm.v implements ([kernel_vm]); files and inodes through the interface [FileOps].

    A process leaves the CPU only in [sched].  What it does when it is switched
    to again is the value [p_kont], which stands for the return addresses on
    its kernel stack: [sched k] saves [k] and ends the run with [Block], and
    [resume] runs the code after the call of [sched].

    [cpu->ncli] is the number of spin locks held and interrupts are on when it
    is 0 (Spinlock.v).  [cur_index] and [nextpid] are C [int]s; their overflow
    is undefined in C and they are unbounded here. *)

From S2P Require Import Prelude CString Mmu Kalloc Vm.

Definition NPROC : nat := 64.
Definition NOFILE : nat := 16.
Definition KSTACKSIZE : Z := 4096.

Inductive procstate := UNUSED | EMBRYO | SLEEPING | RUNNABLE | RUNNING | ZOMBIE.

#[global] Instance procstate_eq_dec : EqDecision procstate.
Proof. solve_decision. Defined.

(** Where a process continues after [sched]. *)
Inductive kont :=
  | KForkret                                  (* a new process: forkret, then trapret *)
  | KYield                                    (* yield *)
  | KSetprio                                  (* setprio *)
  | KExit                                     (* exit: never *)
  | KWait (st : Z)                            (* sleep of wait *)
  | KWaitpid (pid st op : Z) (i : nat)        (* sleep of waitpid, with p == &ptable.proc[i] *)
  | KSleep (lk : lockid) (caller : nat).      (* sleep called from elsewhere *)

(** [struct proc]. *)
Record proc := Proc {
  p_sz : Z;
  p_pgdir : Z;
  p_kstack : Z;
  p_state : procstate;
  p_pid : Z;
  p_parent : option nat;
  p_tf : Z;
  p_context : Z;
  p_kont : kont;
  p_chan : chan;
  p_killed : Z;
  p_ofile : list (option nat);
  p_cwd : option nat;
  p_name : string;
  p_est : Z;
  p_cur_index : Z;
  p_prio : Z
}.

Definition set_p_sz (v : Z) (p : proc) : proc :=
  Proc v (p_pgdir p) (p_kstack p) (p_state p) (p_pid p) (p_parent p) (p_tf p) (p_context p)
    (p_kont p) (p_chan p) (p_killed p) (p_ofile p) (p_cwd p) (p_name p) (p_est p) (p_cur_index
    p) (p_prio p).
Definition set_p_pgdir (v : Z) (p : proc) : proc :=
  Proc (p_sz p) v (p_kstack p) (p_state p) (p_pid p) (p_parent p) (p_tf p) (p_context p) (p_kont
    p) (p_chan p) (p_killed p) (p_ofile p) (p_cwd p) (p_name p) (p_est p) (p_cur_index p)
    (p_prio p).
Definition set_p_kstack (v : Z) (p : proc) : proc :=
  Proc (p_sz p) (p_pgdir p) v (p_state p) (p_pid p) (p_parent p) (p_tf p) (p_context p) (p_kont
    p) (p_chan p) (p_killed p) (p_ofile p) (p_cwd p) (p_name p) (p_est p) (p_cur_index p)
    (p_prio p).
Definition set_p_state (v : procstate) (p : proc) : proc :=
  Proc (p_sz p) (p_pgdir p) (p_kstack p) v (p_pid p) (p_parent p) (p_tf p) (p_context p) (p_kont
    p) (p_chan p) (p_killed p) (p_ofile p) (p_cwd p) (p_name p) (p_est p) (p_cur_index p)
    (p_prio p).
Definition set_p_pid (v : Z) (p : proc) : proc :=
  Proc (p_sz p) (p_pgdir p) (p_kstack p) (p_state p) v (p_parent p) (p_tf p) (p_context p)
    (p_kont p) (p_chan p) (p_killed p) (p_ofile p) (p_cwd p) (p_name p) (p_est p) (p_cur_index
    p) (p_prio p).
Definition set_p_parent (v : option nat) (p : proc) : proc :=
  Proc (p_sz p) (p_pgdir p) (p_kstack p) (p_state p) (p_pid p) v (p_tf p) (p_context p) (p_kont
    p) (p_chan p) (p_killed p) (p_ofile p) (p_cwd p) (p_name p) (p_est p) (p_cur_index p)
    (p_prio p).
Definition set_p_tf (v : Z) (p : proc) : proc :=
  Proc (p_sz p) (p_pgdir p) (p_kstack p) (p_state p) (p_pid p) (p_parent p) v (p_context p)
    (p_kont p) (p_chan p) (p_killed p) (p_ofile p) (p_cwd p) (p_name p) (p_est p) (p_cur_index
    p) (p_prio p).
Definition set_p_context (v : Z) (p : proc) : proc :=
  Proc (p_sz p) (p_pgdir p) (p_kstack p) (p_state p) (p_pid p) (p_parent p) (p_tf p) v (p_kont
    p) (p_chan p) (p_killed p) (p_ofile p) (p_cwd p) (p_name p) (p_est p) (p_cur_index p)
    (p_prio p).
Definition set_p_kont (v : kont) (p : proc) : proc :=
  Proc (p_sz p) (p_pgdir p) (p_kstack p) (p_state p) (p_pid p) (p_parent p) (p_tf p) (p_context
    p) v (p_chan p) (p_killed p) (p_ofile p) (p_cwd p) (p_name p) (p_est p) (p_cur_index p)
    (p_prio p).
Definition set_p_chan (v : chan) (p : proc) : proc :=
  Proc (p_sz p) (p_pgdir p) (p_kstack p) (p_state p) (p_pid p) (p_parent p) (p_tf p) (p_context
    p) (p_kont p) v (p_killed p) (p_ofile p) (p_cwd p) (p_name p) (p_est p) (p_cur_index p)
    (p_prio p).
Definition set_p_killed (v : Z) (p : proc) : proc :=
  Proc (p_sz p) (p_pgdir p) (p_kstack p) (p_state p) (p_pid p) (p_parent p) (p_tf p) (p_context
    p) (p_kont p) (p_chan p) v (p_ofile p) (p_cwd p) (p_name p) (p_est p) (p_cur_index p)
    (p_prio p).
Definition set_p_ofile (v : list (option nat)) (p : proc) : proc :=
  Proc (p_sz p) (p_pgdir p) (p_kstack p) (p_state p) (p_pid p) (p_parent p) (p_tf p) (p_context
    p) (p_kont p) (p_chan p) (p_killed p) v (p_cwd p) (p_name p) (p_est p) (p_cur_index p)
    (p_prio p).
Definition set_p_cwd (v : option nat) (p : proc) : proc :=
  Proc (p_sz p) (p_pgdir p) (p_kstack p) (p_state p) (p_pid p) (p_parent p) (p_tf p) (p_context
    p) (p_kont p) (p_chan p) (p_killed p) (p_ofile p) v (p_name p) (p_est p) (p_cur_index p)
    (p_prio p).
Definition set_p_name (v : string) (p : proc) : proc :=
  Proc (p_sz p) (p_pgdir p) (p_kstack p) (p_state p) (p_pid p) (p_parent p) (p_tf p) (p_context
    p) (p_kont p) (p_chan p) (p_killed p) (p_ofile p) (p_cwd p) v (p_est p) (p_cur_index p)
    (p_prio p).
Definition set_p_est (v : Z) (p : proc) : proc :=
  Proc (p_sz p) (p_pgdir p) (p_kstack p) (p_state p) (p_pid p) (p_parent p) (p_tf p) (p_context
    p) (p_kont p) (p_chan p) (p_killed p) (p_ofile p) (p_cwd p) (p_name p) v (p_cur_index p)
    (p_prio p).
Definition set_p_cur_index (v : Z) (p : proc) : proc :=
  Proc (p_sz p) (p_pgdir p) (p_kstack p) (p_state p) (p_pid p) (p_parent p) (p_tf p) (p_context
    p) (p_kont p) (p_chan p) (p_killed p) (p_ofile p) (p_cwd p) (p_name p) (p_est p) v (p_prio
    p).
Definition set_p_prio (v : Z) (p : proc) : proc :=
  Proc (p_sz p) (p_pgdir p) (p_kstack p) (p_state p) (p_pid p) (p_parent p) (p_tf p) (p_context
    p) (p_kont p) (p_chan p) (p_killed p) (p_ofile p) (p_cwd p) (p_name p) (p_est p)
    (p_cur_index p) v.

(** What proc.c uses of vm.c and kalloc.c beyond [kalloc]: page tables and pages of the
    memory [kstate]. *)
Class AddrSpace := {
  vm_kfree : Z -> K kstate unit;
  vm_setupkvm : K kstate Z;
  vm_inituvm : Z -> list Z -> K kstate unit;
  vm_allocuvm : Z -> Z -> Z -> K kstate Z;
  vm_deallocuvm : Z -> Z -> Z -> K kstate Z;
  vm_freevm : Z -> K kstate unit;
  vm_copyuvm : Z -> Z -> K kstate Z
}.

(** The operations of Vm.v, for a kernel that ends at [kend] and whose data starts at [kdata]. *)
Definition kernel_vm (kend kdata : Z) : AddrSpace := {|
  vm_kfree := kfree kend;
  vm_setupkvm := setupkvm kdata;
  vm_inituvm := inituvm;
  vm_allocuvm := allocuvm kend;
  vm_deallocuvm := deallocuvm kend;
  vm_freevm := freevm kend;
  vm_copyuvm := copyuvm kend kdata
|}.

(** Freeing pages and address spaces ends; Vm.v keeps the promise. *)
Class AddrSpaceTotal (A : AddrSpace) : Prop := {
  vm_kfree_total : forall v, total (vm_kfree v);
  vm_freevm_total : forall pgdir, total (vm_freevm pgdir)
}.

#[global] Instance kernel_vm_total kend kdata : AddrSpaceTotal (kernel_vm kend kdata).
Proof. split; intros; [apply kfree_total|apply freevm_total]. Qed.

(** What proc.c uses of file.c, fs.c and log.c; closing a pipe frees its page, so the
    operations act on the memory too. *)
Class FileOps (F : Type) := {
  filedup : nat -> K (F * kstate) nat;
  fileclose : nat -> K (F * kstate) unit;
  idup : nat -> K (F * kstate) nat;
  iput : nat -> K (F * kstate) unit;
  namei_root : K (F * kstate) (option nat);
  initlog : K (F * kstate) unit
}.

(** The task state of the CPU: where [cpu->ts] is and its fields [esp0] and [ss0], the descriptor [cpu->gdt[SEG_TSS]] and the task register. *)
Record taskst := Taskst { t_at : Z; t_esp0 : Z; t_ss0 : Z; t_desc : segdesc; t_tr : Z }.
Definition no_task : taskst := Taskst 0 0 0 (SEG16 0 0 0 0) 0.

Definition set_t_esp0 (v : Z) (t : taskst) : taskst := Taskst (t_at t) v (t_ss0 t) (t_desc t) (t_tr t).
Definition set_t_ss0 (v : Z) (t : taskst) : taskst := Taskst (t_at t) (t_esp0 t) v (t_desc t) (t_tr t).
Definition set_t_desc (v : segdesc) (t : taskst) : taskst := Taskst (t_at t) (t_esp0 t) (t_ss0 t) v (t_tr t).
Definition set_t_tr (v : Z) (t : taskst) : taskst := Taskst (t_at t) (t_esp0 t) (t_ss0 t) (t_desc t) v.

Record pst (F : Type) := Pst {
  s_procs : list proc;
  s_nextpid : Z;
  s_initproc : option nat;
  s_first : bool;
  s_cur : option nat;
  s_held : list lockid;
  s_cr3 : Z;
  s_tss : taskst;
  s_k : kstate;
  s_fs : F
}.
Arguments Pst {F}.
Arguments s_procs {F}. Arguments s_nextpid {F}. Arguments s_initproc {F}. Arguments s_first {F}.
    Arguments s_cur {F}. Arguments s_held {F}. Arguments s_cr3 {F}. Arguments s_tss {F}.
    Arguments s_k {F}. Arguments s_fs {F}.

Definition set_s_procs {F} (v : list proc) (p : pst F) : pst F :=
  Pst v (s_nextpid p) (s_initproc p) (s_first p) (s_cur p) (s_held p) (s_cr3 p) (s_tss p) (s_k
    p) (s_fs p).
Definition set_s_nextpid {F} (v : Z) (p : pst F) : pst F :=
  Pst (s_procs p) v (s_initproc p) (s_first p) (s_cur p) (s_held p) (s_cr3 p) (s_tss p) (s_k p)
    (s_fs p).
Definition set_s_initproc {F} (v : option nat) (p : pst F) : pst F :=
  Pst (s_procs p) (s_nextpid p) v (s_first p) (s_cur p) (s_held p) (s_cr3 p) (s_tss p) (s_k p)
    (s_fs p).
Definition set_s_first {F} (v : bool) (p : pst F) : pst F :=
  Pst (s_procs p) (s_nextpid p) (s_initproc p) v (s_cur p) (s_held p) (s_cr3 p) (s_tss p) (s_k
    p) (s_fs p).
Definition set_s_cur {F} (v : option nat) (p : pst F) : pst F :=
  Pst (s_procs p) (s_nextpid p) (s_initproc p) (s_first p) v (s_held p) (s_cr3 p) (s_tss p)
    (s_k p) (s_fs p).
Definition set_s_held {F} (v : list lockid) (p : pst F) : pst F :=
  Pst (s_procs p) (s_nextpid p) (s_initproc p) (s_first p) (s_cur p) v (s_cr3 p) (s_tss p) (s_k
    p) (s_fs p).
Definition set_s_cr3 {F} (v : Z) (p : pst F) : pst F :=
  Pst (s_procs p) (s_nextpid p) (s_initproc p) (s_first p) (s_cur p) (s_held p) v (s_tss p)
    (s_k p) (s_fs p).
Definition set_s_tss {F} (v : taskst) (p : pst F) : pst F :=
  Pst (s_procs p) (s_nextpid p) (s_initproc p) (s_first p) (s_cur p) (s_held p) (s_cr3 p) v (s_k
    p) (s_fs p).
Definition set_s_k {F} (v : kstate) (p : pst F) : pst F :=
  Pst (s_procs p) (s_nextpid p) (s_initproc p) (s_first p) (s_cur p) (s_held p) (s_cr3 p)
    (s_tss p) v (s_fs p).
Definition set_s_fs {F} (v : F) (p : pst F) : pst F :=
  Pst (s_procs p) (s_nextpid p) (s_initproc p) (s_first p) (s_cur p) (s_held p) (s_cr3 p)
    (s_tss p) (s_k p) v.

#[global] Instance pst_locks F : HasLocks (pst F).
Proof. refine {| held := s_held; set_held := set_s_held |}; by intros; destruct s. Defined.

Section proc.
Context {F : Type} `{FO : FileOps F} `{AS : AddrSpace}.
Variable kpgdir : Z.                (* the kernel's page table *)
Variable forkret_a trapret_a : Z.   (* the addresses of forkret and trapret *)
Variable initcode : list Z.         (* _binary_initcode_start *)

(** ** Access to the state *)

Definition lift_k {A} (m : K kstate A) : K (pst F) A := fun s =>
  match m (s_k s) with
  | Ok a k => Ok a (set_s_k k s)
  | Panic msg k => Panic msg (set_s_k k s)
  | Block c k => Block c (set_s_k k s)
  | NoFuel => NoFuel
  end.

Definition lift_f {A} (m : K (F * kstate) A) : K (pst F) A := fun s =>
  match m (s_fs s, s_k s) with
  | Ok a (f, k) => Ok a (set_s_k k (set_s_fs f s))
  | Panic msg (f, k) => Panic msg (set_s_k k (set_s_fs f s))
  | Block c (f, k) => Block c (set_s_k k (set_s_fs f s))
  | NoFuel => NoFuel
  end.

(** [proc]; using it when it is null faults in the kernel ([panic] in trap). *)
Definition myproc : K (pst F) nat :=
  let* s := kget in
  match s_cur s with Some i => kret i | None => kpanic "trap" end.

Definition zero_proc : proc :=
  Proc 0 0 0 UNUSED 0 None 0 0 KExit ch_null 0 (replicate NOFILE None) None "" 0 0 0.

Definition proc_at (s : pst F) (i : nat) : proc := nth i (s_procs s) zero_proc.

Definition getp {A} (i : nat) (f : proc -> A) : K (pst F) A := kgets (fun s => f (proc_at s i)).

Definition upd_proc (i : nat) (f : proc -> proc) (s : pst F) : pst F :=
  set_s_procs (alter f i (s_procs s)) s.

Definition setp (i : nat) (f : proc -> proc) : K (pst F) unit := kmod (upd_proc i f).

Definition table : list nat := seq 0 NPROC.

Definition st_is (st : procstate) (p : proc) : bool := bool_decide (p_state p = st).

(** ** Allocation *)

Definition SIZEOF_TRAPFRAME : Z := 76.
Definition SIZEOF_CONTEXT : Z := 20.

(** The part of [allocproc] under [ptable.lock]. *)
Definition allocproc_slot : K (pst F) (option nat) :=
  acquire lk_ptable ;;;
  let* found := for_first table (fun i =>
    let* p := getp i (fun p => p) in
    kret (if st_is UNUSED p then Some i else None)) in
  match found with
  | None => release lk_ptable ;;; kret None
  | Some i =>
      setp i (set_p_prio 1) ;;;
      setp i (set_p_cur_index 0) ;;;
      setp i (set_p_state EMBRYO) ;;;
      let* n := kgets s_nextpid in
      setp i (set_p_pid n) ;;;
      kmod (set_s_nextpid (n + 1)) ;;;
      release lk_ptable ;;;
      kret (Some i)
  end.

(** The rest of it, on the slot that was found: the kernel stack with the first context. *)
Definition allocproc_stack (i : nat) : K (pst F) bool :=
  let* kst := lift_k kalloc in
  setp i (set_p_kstack kst) ;;;
  if kst =? 0 then
    setp i (set_p_state UNUSED) ;;; kret false
  else
    let sp := kst + KSTACKSIZE in
    let sp := sp - SIZEOF_TRAPFRAME in
    setp i (set_p_tf sp) ;;;
    let sp := sp - 4 in
    lift_k (store32 sp trapret_a) ;;;
    let sp := sp - SIZEOF_CONTEXT in
    setp i (set_p_context sp) ;;;
    lift_k (kmod (fun k => set_mem (memset (k_mem k) sp 0 SIZEOF_CONTEXT) k)) ;;;
    lift_k (store32 (sp + 16) forkret_a) ;;;
    setp i (set_p_kont KForkret) ;;;
    kret true.

Definition allocproc : K (pst F) (option nat) :=
  let* found := allocproc_slot in
  match found with
  | None => kret None
  | Some i =>
      let* ok := allocproc_stack i in
      kret (if ok then Some i else None)
  end.

(** The fields of [struct trapframe] the kernel sets, by offset. *)
Definition tf_eax : Z := 28.
Definition tf_es : Z := 40.
Definition tf_ds : Z := 44.
Definition tf_eip : Z := 56.
Definition tf_cs : Z := 60.
Definition tf_eflags : Z := 64.
Definition tf_esp : Z := 68.
Definition tf_ss : Z := 72.

Definition st16 (m : mem) (a v : Z) : mem := st (st m a v) (a + 1) (Z.shiftr v 8).
Definition store16 (a v : Z) : K kstate unit := kmod (fun s => set_mem (st16 (k_mem s) a v) s).

(** [safestrcpy] into the 16 bytes of [p->name]. *)
Definition copy_name (n : string) : string := String.substring 0 15 n.

Definition userinit : K (pst F) unit :=
  let* p := allocproc in
  kmod (set_s_initproc p) ;;;
  match p with
  | None => kpanic "trap"
  | Some i =>
      let* pgdir := lift_k (vm_setupkvm) in
      setp i (set_p_pgdir pgdir) ;;;
      if pgdir =? 0 then kpanic "userinit: out of memory?"
      else
        lift_k (vm_inituvm pgdir initcode) ;;;
        setp i (set_p_sz PGSIZE) ;;;
        let* tf := getp i p_tf in
        let ds := Z.lor (Z.shiftl SEG_UDATA 3) DPL_USER in
        lift_k (kmod (fun k => set_mem (memset (k_mem k) tf 0 SIZEOF_TRAPFRAME) k)) ;;;
        lift_k (store16 (tf + tf_cs) (Z.lor (Z.shiftl SEG_UCODE 3) DPL_USER)) ;;;
        lift_k (store16 (tf + tf_ds) ds) ;;;
        lift_k (store16 (tf + tf_es) ds) ;;;
        lift_k (store16 (tf + tf_ss) ds) ;;;
        lift_k (store32 (tf + tf_eflags) FL_IF) ;;;
        lift_k (store32 (tf + tf_esp) PGSIZE) ;;;
        lift_k (store32 (tf + tf_eip) 0) ;;;
        setp i (set_p_name (copy_name "initcode")) ;;;
        let* cwd := lift_f namei_root in
        setp i (set_p_cwd cwd) ;;;
        setp i (set_p_state RUNNABLE)
  end.

(** ** Address spaces: vm.c's [switchkvm] and [switchuvm] *)

Definition switchkvm : K (pst F) unit := kmod (set_s_cr3 (v2p kpgdir)).

Definition set_tss (f : taskst -> taskst) : K (pst F) unit := kmod (fun s => set_s_tss (f (s_tss s)) s).

(** The instruction [ltr] for the only task descriptor of the table: it loads an available one and marks it busy, and faults on any other. *)
Definition ltr (sel : Z) : K (pst F) unit :=
  let* t := kgets s_tss in
  let d := t_desc t in
  if (sel =? 8 * SEG_TSS) && (sd_s d =? 0) && (sd_type d =? STS_T32A) && (sd_p d =? 1) then set_tss (fun t => set_t_tr sel (set_t_desc (set_sd_type STS_T32B d) t))
  else kpanic "trap".

Definition sizeof_taskstate : Z := 104.

(** [switchuvm(p)] takes the stack from [proc], the page table from [p]; [pushcli] and [popcli] around it leave no trace. *)
Definition switchuvm (p : nat) : K (pst F) unit :=
  set_tss (fun t => set_t_desc (SEG16 STS_T32A (t_at t) (sizeof_taskstate - 1) 0) t) ;;;
  set_tss (fun t => set_t_desc (set_sd_s 0 (t_desc t)) t) ;;;
  set_tss (set_t_ss0 (u16 (Z.shiftl SEG_KDATA 3))) ;;;
  let* i := myproc in
  let* kst := getp i p_kstack in
  set_tss (set_t_esp0 (u32 (kst + KSTACKSIZE))) ;;;
  ltr (u16 (Z.shiftl SEG_TSS 3)) ;;;
  let* pgdir := getp p p_pgdir in
  if pgdir =? 0 then kpanic "switchuvm: no pgdir"
  else kmod (set_s_cr3 (v2p pgdir)).

Definition growproc (n : Z) : K (pst F) Z :=
  let* i := myproc in
  let* sz := getp i p_sz in
  let* pgdir := getp i p_pgdir in
  let* r :=
    if 0 <? n then
      let* sz' := lift_k (vm_allocuvm pgdir sz (u32 (sz + n))) in
      kret (if sz' =? 0 then None else Some sz')
    else if n <? 0 then
      let* sz' := lift_k (vm_deallocuvm pgdir sz (u32 (sz + n))) in
      kret (if sz' =? 0 then None else Some sz')
    else kret (Some sz) in
  match r with
  | None => kret (-1)
  | Some sz' => setp i (set_p_sz sz') ;;; switchuvm i ;;; kret 0
  end.

(** ** fork *)

(** The copy of the address space; without memory for it the slot is given back. *)
Definition fork_space (np : nat) : K (pst F) bool :=
  let* i := myproc in
  let* pgdir := getp i p_pgdir in
  let* sz := getp i p_sz in
  let* pgdir' := lift_k (vm_copyuvm pgdir sz) in
  setp np (set_p_pgdir pgdir') ;;;
  if pgdir' =? 0 then
    let* kst := getp np p_kstack in
    lift_k (vm_kfree kst) ;;;
    setp np (set_p_kstack 0) ;;;
    setp np (set_p_state UNUSED) ;;;
    kret false
  else
    setp np (set_p_sz sz) ;;;
    kret true.

(** The parent, the trap frame and the files, up to where the child may run; the result is its pid. *)
Definition fork_share (np : nat) : K (pst F) Z :=
  let* i := myproc in
  setp np (set_p_parent (Some i)) ;;;
  let* ntf := getp np p_tf in
  let* tf := getp i p_tf in
  lift_k (kmod (fun k => set_mem (memmove (k_mem k) ntf tf SIZEOF_TRAPFRAME) k)) ;;;
  lift_k (store32 (ntf + tf_eax) 0) ;;;
  for_each (seq 0 NOFILE) (fun fd =>
    let* f := getp i (fun p => nth fd (p_ofile p) None) in
    match f with
    | None => kret tt
    | Some f =>
        let* f' := lift_f (filedup f) in
        setp np (fun p => set_p_ofile (<[fd := Some f']> (p_ofile p)) p)
    end) ;;;
  let* cwd := getp i p_cwd in
  match cwd with
  | None => kpanic "trap"
  | Some ip =>
      let* ip' := lift_f (idup ip) in
      setp np (set_p_cwd (Some ip')) ;;;
      let* pid := getp np p_pid in
      setp np (set_p_state RUNNABLE) ;;;
      kret pid
  end.

(** The name, which the code copies when the child may be running. *)
Definition fork_name (np : nat) : K (pst F) unit :=
  let* i := myproc in
  let* name := getp i p_name in
  setp np (set_p_name (copy_name name)).

Definition fork : K (pst F) Z :=
  let* found := allocproc in
  match found with
  | None => kret (-1)
  | Some np =>
      let* ok := fork_space np in
      if ok then
        let* pid := fork_share np in
        fork_name np ;;;
        kret pid
      else kret (-1)
  end.

(** ** Giving up the CPU *)

Definition ncli (s : pst F) : nat := length (held s).
Definition interruptible (s : pst F) : bool := bool_decide (ncli s = 0%nat).

Definition sched {A} (k : kont) : K (pst F) A :=
  let* s := kget in
  if negb (bool_decide (lk_ptable ∈ held s)) then kpanic "sched ptable.lock"
  else if negb (bool_decide (ncli s = 1%nat)) then kpanic "sched locks"
  else
    let* i := myproc in
    let* p := getp i (fun p => p) in
    if st_is RUNNING p then kpanic "sched running"
    else if interruptible s then kpanic "sched interruptible"
    else
      setp i (set_p_kont k) ;;;
      kblock (p_chan p).

Definition yield : K (pst F) unit :=
  acquire lk_ptable ;;;
  let* i := myproc in
  setp i (set_p_state RUNNABLE) ;;;
  sched KYield.

(** [lk] is the lock of the condition; [k] says where the caller continues. *)
Definition sleep {A} (c : chan) (lk : lockid) (k : kont) : K (pst F) A :=
  let* s := kget in
  match s_cur s with
  | None => kpanic "sleep"
  | Some i =>
      (when negb (bool_decide (lk = lk_ptable)) do (acquire lk_ptable ;;; release lk)) ;;;
      setp i (set_p_chan c) ;;;
      setp i (set_p_state SLEEPING) ;;;
      sched k
  end.

(** [sleep] after [sched] returns. *)
Definition sleep_return (lk : lockid) : K (pst F) unit :=
  let* i := myproc in
  setp i (set_p_chan ch_null) ;;;
  when negb (bool_decide (lk = lk_ptable)) do (release lk_ptable ;;; acquire lk).

Definition wakeup1 (c : chan) : K (pst F) unit :=
  for_each table (fun i =>
    let* p := getp i (fun p => p) in
    when st_is SLEEPING p && bool_decide (p_chan p = c) do setp i (set_p_state RUNNABLE)).

(** [wakeuppid(&ptable.proc[pp])]. *)
Definition wakeuppid (pp : nat) : K (pst F) unit :=
  for_each table (fun i =>
    let* p := getp i (fun p => p) in
    when st_is SLEEPING p && bool_decide (p_chan p = ch_proc pp) do (
      setp i (set_p_state RUNNABLE) ;;;
      setp pp (fun q => set_p_cur_index (p_cur_index q - 1) q))).

Definition wakeup (c : chan) : K (pst F) unit :=
  acquire lk_ptable ;;; wakeup1 c ;;; release lk_ptable.

(** ** exit *)

(** [while(proc->cur_index > 0) wakeuppid(proc);] *)
Fixpoint exit_wake (i : nat) (fuel : nat) : K (pst F) unit :=
  match fuel with
  | O => knofuel
  | S fuel' =>
      let* n := getp i p_cur_index in
      if 0 <? n then wakeuppid i ;;; exit_wake i fuel' else kret tt
  end.

Definition parent_chan (p : option nat) : chan :=
  match p with Some i => ch_proc i | None => ch_null end.

(** The children of [i] go to init. *)
Definition reparent (i : nat) : K (pst F) unit :=
  for_each table (fun j =>
    let* p := getp j (fun p => p) in
    when bool_decide (p_parent p = Some i) do (
      let* init := kgets s_initproc in
      setp j (set_p_parent init) ;;;
      when st_is ZOMBIE p do wakeup1 (parent_chan init))).

(** The part of [exit] under [ptable.lock]. *)
Definition exit_locked (i : nat) (st : Z) (fuel : nat) : K (pst F) unit :=
  acquire lk_ptable ;;;
  let* par := getp i p_parent in
  wakeup1 (parent_chan par) ;;;
  setp i (set_p_est st) ;;;
  exit_wake i fuel ;;;
  reparent i ;;;
  setp i (set_p_state ZOMBIE) ;;;
  sched KExit.

Definition exit (st : Z) (fuel : nat) : K (pst F) unit :=
  let* i := myproc in
  let* init := kgets s_initproc in
  if bool_decide (Some i = init) then kpanic "init exiting"
  else
    for_each (seq 0 NOFILE) (fun fd =>
      let* f := getp i (fun p => nth fd (p_ofile p) None) in
      match f with
      | None => kret tt
      | Some f =>
          lift_f (fileclose f) ;;;
          setp i (fun p => set_p_ofile (<[fd := None]> (p_ofile p)) p)
      end) ;;;
    let* cwd := getp i p_cwd in
    match cwd with
    | None => kpanic "trap"
    | Some ip =>
        lift_f (iput ip) ;;;
        setp i (set_p_cwd None) ;;;
        exit_locked i st fuel
    end.

(** ** wait and waitpid *)

(** A store of the kernel through the page table of the running process; a
    page that is missing or read-only faults in the kernel. *)
Definition vstore8 (va v : Z) : K (pst F) unit :=
  let* s := kget in
  let* pte := lift_k (walkpgdir (p2v (s_cr3 s)) va false) in
  if pte =? 0 then kpanic "trap"
  else
    let* e := lift_k (load32 pte) in
    if negb (present e) || (Z.land e PTE_W =? 0) then kpanic "trap"
    else lift_k (kmod (fun k => set_mem (CString.st (k_mem k) (p2v (PTE_ADDR e) + va mod PGSIZE) v) k)).

Definition vstore32 (va v : Z) : K (pst F) unit :=
  vstore8 va v ;;;
  vstore8 (u32 (va + 1)) (Z.shiftr v 8) ;;;
  vstore8 (u32 (va + 2)) (Z.shiftr v 16) ;;;
  vstore8 (u32 (va + 3)) (Z.shiftr v 24).

(** [if(st) *st = v;] *)
Definition put_status (st v : Z) : K (pst F) unit :=
  when negb (st =? 0) do vstore32 st v.

(** The zombie in slot [i] is freed; its exit status goes to [*st]. *)
Definition reap (i : nat) (st : Z) : K (pst F) Z :=
  let* pid := getp i p_pid in
  let* kst := getp i p_kstack in
  lift_k (vm_kfree kst) ;;;
  setp i (set_p_kstack 0) ;;;
  let* pgdir := getp i p_pgdir in
  lift_k (vm_freevm pgdir) ;;;
  setp i (set_p_state UNUSED) ;;;
  setp i (set_p_pid 0) ;;;
  setp i (set_p_parent None) ;;;
  setp i (set_p_name "") ;;;
  setp i (set_p_killed 0) ;;;
  let* est := getp i p_est in
  put_status st est ;;;
  release lk_ptable ;;;
  kret pid.

(** The scan of [wait] over the table: the result of the call, or whether the
    process has children. *)
Fixpoint wait_scan (me : nat) (st : Z) (l : list nat) (havekids : bool) : K (pst F) (Z + bool) :=
  match l with
  | [] => kret (inr havekids)
  | i :: l' =>
      let* p := getp i (fun p => p) in
      if negb (bool_decide (p_parent p = Some me)) then wait_scan me st l' havekids
      else if st_is ZOMBIE p then
        let* pid := reap i st in kret (inl pid)
      else wait_scan me st l' true
  end.

(** [for(;;)] of [wait], from its head to the return or to the [sleep]. *)
Definition wait_loop (st : Z) : K (pst F) Z :=
  let* me := myproc in
  let* r := wait_scan me st table false in
  match r with
  | inl pid => kret pid
  | inr havekids =>
      let* killed := getp me p_killed in
      if negb havekids || negb (killed =? 0) then
        put_status st (-1) ;;; release lk_ptable ;;; kret (-1)
      else sleep (ch_proc me) lk_ptable (KWait st)
  end.

Definition wait (st : Z) : K (pst F) Z :=
  acquire lk_ptable ;;; wait_loop st.

(** The inner loop of [waitpid] over the slots [l]: the result of the call, or
    [found]. *)
Fixpoint waitpid_scan (pid st op : Z) (l : list nat) (found : bool) : K (pst F) (Z + bool) :=
  match l with
  | [] => kret (inr found)
  | i :: l' =>
      let* p := getp i (fun p => p) in
      if negb (p_pid p =? pid) then waitpid_scan pid st op l' found
      else if st_is ZOMBIE p then
        let* pid' := reap i st in kret (inl pid')
      else if st_is UNUSED p then
        put_status st (p_est p) ;;; release lk_ptable ;;; kret (inl pid)
      else
        setp i (fun p => set_p_cur_index (p_cur_index p + 1) p) ;;;
        sleep (ch_proc i) lk_ptable (KWaitpid pid st op i)
  end.

(** [for(;;)] of [waitpid], entered at slot [i] of the inner loop. *)
Fixpoint waitpid_loop (pid st op : Z) (i : nat) (found : bool) (fuel : nat) : K (pst F) Z :=
  match fuel with
  | O => knofuel
  | S fuel' =>
      let* r := waitpid_scan pid st op (seq i (NPROC - i)) found in
      match r with
      | inl pid' => kret pid'
      | inr found' =>
          let* me := myproc in
          let* killed := getp me p_killed in
          if negb found' || negb (killed =? 0) then
            put_status st (-1) ;;; release lk_ptable ;;; kret (-1)
          else waitpid_loop pid st op 0 false fuel'
      end
  end.

Definition waitpid (pid st op : Z) : K (pst F) Z :=
  acquire lk_ptable ;;; waitpid_loop pid st op 0 false 2.

(** ** Priorities, kill *)

Definition clamp_prio (prio : Z) : Z :=
  if (0 <=? prio) && (prio <=? 63) then prio else if prio <? 0 then 0 else 63.

Definition setprio (prio : Z) : K (pst F) unit :=
  acquire lk_ptable ;;;
  let* me := myproc in
  let* pid := getp me p_pid in
  for_first table (fun i =>
    let* p := getp i (fun p => p) in
    if negb (p_pid p =? pid) then kret None
    else
      setp i (set_p_prio (clamp_prio prio)) ;;;
      setp i (set_p_state RUNNABLE) ;;;
      kret (Some tt)) ;;;
  sched KSetprio.

Definition kill (pid : Z) : K (pst F) Z :=
  acquire lk_ptable ;;;
  let* r := for_first table (fun i =>
    let* p := getp i (fun p => p) in
    if p_pid p =? pid then
      setp i (set_p_killed 1) ;;;
      (when st_is SLEEPING p do setp i (set_p_state RUNNABLE)) ;;;
      release lk_ptable ;;;
      kret (Some 0)
    else kret None) in
  match r with
  | Some v => kret v
  | None => release lk_ptable ;;; kret (-1)
  end.

Definition forkret : K (pst F) unit :=
  release lk_ptable ;;;
  let* first := kgets s_first in
  when first do (kmod (set_s_first false) ;;; lift_f initlog).

(** ** The scheduler *)

(** The body of the inner loop: [pp] replaces [hp] when it is runnable and has a
    higher priority. *)
Definition pick (procs : list proc) (hp pp : nat) : nat :=
  let q := nth pp procs zero_proc in
  if negb (st_is RUNNABLE q) then hp
  else if p_prio (nth hp procs zero_proc) <? p_prio q then pp else hp.

Definition best (procs : list proc) (hp : nat) : nat := fold_left (pick procs) table hp.

(** The scheduler's loop from slot [p] on, with the lock held, up to the [swtch] to a
    process or to the end of the table, where the lock is released. *)
Definition scheduler_from (p : nat) : K (pst F) (option nat) :=
  let* s := kget in
  match find (fun i => st_is RUNNABLE (proc_at s i)) (seq p (NPROC - p)) with
  | None => release lk_ptable ;;; kret None
  | Some q =>
      let hp := best (s_procs s) q in
      kmod (set_s_cur (Some hp)) ;;;
      switchuvm hp ;;;
      setp hp (set_p_state RUNNING) ;;;
      kret (Some hp)
  end.

(** A round of [for(;;)]. *)
Definition scheduler : K (pst F) (option nat) :=
  acquire lk_ptable ;;; scheduler_from 0.

(** The scheduler after [swtch] came back from process [p]. *)
Definition scheduler_return (p : nat) : K (pst F) (option nat) :=
  switchkvm ;;;
  kmod (set_s_cur None) ;;;
  scheduler_from (S p).

(** The process that was switched to runs the code after its call of [sched]; the
    result of the system call it was in, if any. *)
Definition resume (k : kont) : K (pst F) (option Z) :=
  match k with
  | KForkret => forkret ;;; kret None
  | KYield | KSetprio => release lk_ptable ;;; kret None
  | KExit => kpanic "zombie exit"
  | KWait st =>
      sleep_return lk_ptable ;;;
      let* r := wait_loop st in kret (Some r)
  | KWaitpid pid st op i =>
      sleep_return lk_ptable ;;;
      let* r := waitpid_loop pid st op (S i) true 2 in kret (Some r)
  | KSleep lk _ => sleep_return lk ;;; kret None
  end.
End proc.
