(* ===== verification/ProcSpec.v ===== *)
(** * What the operations of proc.c do

    Equations for the loops over the process table, the scheduler's choice, the
    behaviour of [wakeup], [kill], [setprio], [allocproc], and when the loop of
    [exit] over [cur_index] ends. *)

From S2P Require Import Prelude CString Mmu Kalloc Vm Proc.

(** Unused slots of lookups and updates of records in goals. *)
Ltac proc_simpl := unfold lift_k, lift_f, getp, setp, myproc, kget, kgets, kmod, kret, kbind; simpl.

Lemma table_eq : table = seq 0 NPROC.
Proof. done. Qed.

#[local] Opaque table NPROC.

Section procspec.
Context {F : Type} `{FO : FileOps F} `{AS : AddrSpace}.
Implicit Types (s : pst F) (p : proc).

Definition table_ok s : Prop := length (s_procs s) = NPROC.

Lemma set_procs_id s : set_s_procs (s_procs s) s = s.
Proof. by destruct s. Qed.

Lemma set_procs_set l l' s : set_s_procs l (set_s_procs l' s) = set_s_procs l s.
Proof. by destruct s. Qed.

Lemma proc_at_lookup s i p : s_procs s !! i = Some p -> proc_at s i = p.
Proof. intros E. unfold proc_at. by apply nth_lookup_Some. Qed.

Lemma table_lookup s i : table_ok s -> (i < NPROC)%nat -> s_procs s !! i = Some (proc_at s i).
Proof.
  intros Ht Hi. destruct (s_procs s !! i) as [p|] eqn:E.
  - by rewrite (proc_at_lookup _ _ _ E).
  - apply lookup_ge_None in E. unfold table_ok in Ht. lia.
Qed.

Lemma proc_at_out s i : (length (s_procs s) <= i)%nat -> proc_at s i = zero_proc.
Proof. intros. unfold proc_at. by apply nth_overflow. Qed.

Lemma proc_at_upd s i f j : (i < length (s_procs s))%nat ->
  proc_at (upd_proc i f s) j = if decide (i = j) then f (proc_at s i) else proc_at s j.
Proof.
  intros Hi. unfold proc_at, upd_proc. simpl. rewrite !nth_lookup, list_lookup_alter.
  case_decide; [|done]. subst. apply lookup_lt_is_Some in Hi as [p ->]. done.
Qed.

Lemma table_ok_upd s i f : table_ok (upd_proc i f s) <-> table_ok s.
Proof. unfold table_ok, upd_proc. simpl. by rewrite length_alter. Qed.

(** A loop over slots that rewrites each slot on its own. *)
Lemma for_each_slots (body : nat -> K (pst F) unit) (f : proc -> proc) :
  (forall i s, body i s = Ok tt (upd_proc i f s)) ->
  forall n a s, for_each (seq a n) body s = Ok tt (set_s_procs (imap (fun i p =>
    if decide (a <= i < a + n)%nat then f p else p) (s_procs s)) s).
Proof.
  intros Hb n. induction n as [|n IH]; intros a s; simpl.
  - unfold kret. f_equal. rewrite <- (set_procs_id s) at 1. f_equal.
    apply list_eq. intros i. rewrite list_lookup_imap. destruct (s_procs s !! i); [|done]. simpl.
    by case_decide; [lia|].
  - unfold kbind. rewrite Hb, IH. f_equal. unfold upd_proc. rewrite set_procs_set. f_equal.
    apply list_eq. intros i. simpl. rewrite !list_lookup_imap, list_lookup_alter.
    destruct (decide (a = i)) as [->|].
    + destruct (s_procs s !! i); simpl; [|done]. by rewrite decide_False, decide_True by lia.
    + destruct (s_procs s !! i); simpl; [|done].
      repeat case_decide; (lia || done).
Qed.

Lemma for_each_table (body : nat -> K (pst F) unit) (f : proc -> proc) s :
  (forall i s, body i s = Ok tt (upd_proc i f s)) -> table_ok s ->
  for_each table body s = Ok tt (set_s_procs (f <$> s_procs s) s).
Proof.
  intros Hb Ht. rewrite table_eq. rewrite (for_each_slots body f Hb). do 2 f_equal.
  apply list_eq. intros i. rewrite list_lookup_imap, list_lookup_fmap.
  destruct (s_procs s !! i) eqn:E; simpl; [|done]. rewrite decide_True; [done|].
  apply lookup_lt_Some in E. unfold table_ok in Ht. lia.
Qed.

Lemma alter_cong (f g : proc -> proc) (i : nat) (l : list proc) :
  (forall p, l !! i = Some p -> f p = g p) -> alter f i l = alter g i l.
Proof.
  intros Hfg. apply list_eq. intros j. rewrite !list_lookup_alter. case_decide; [|done].
  subst. destruct (l !! j) eqn:E; simpl; [|done]. f_equal. by apply Hfg.
Qed.

Lemma alter_alter (f g : proc -> proc) (i : nat) (l : list proc) :
  alter f i (alter g i l) = alter (fun p => f (g p)) i l.
Proof.
  apply list_eq. intros j. destruct (decide (i = j)) as [->|]; rewrite ?list_lookup_alter_eq, ?list_lookup_alter_ne by done; [|done].
  by destruct (l !! j).
Qed.

Lemma upd_proc_id i f s : (forall p, s_procs s !! i = Some p -> f p = p) -> upd_proc i f s = s.
Proof.
  intros Hf. unfold upd_proc. rewrite (alter_cong f (fun p => p)) by done.
  rewrite list_alter_id by done. apply set_procs_id.
Qed.

(** A guarded update of slot [i]. *)
Lemma upd_proc_if i (c : proc -> bool) (f : proc -> proc) s :
  (if c (proc_at s i) then Ok tt (upd_proc i f s) else Ok tt s) =
  Ok (S := pst F) tt (upd_proc i (fun p => if c p then f p else p) s).
Proof.
  destruct (c (proc_at s i)) eqn:E; f_equal.
  - unfold upd_proc. f_equal. apply alter_cong. intros p Hp.
    rewrite (proc_at_lookup _ _ _ Hp) in E. by rewrite E.
  - symmetry. apply upd_proc_id. intros p Hp. rewrite (proc_at_lookup _ _ _ Hp) in E. by rewrite E.
Qed.

(** ** Wakeups *)

Definition sleeps_on (c : chan) p : bool := st_is SLEEPING p && bool_decide (p_chan p = c).
Definition woken (c : chan) p : proc := if sleeps_on c p then set_p_state RUNNABLE p else p.

Lemma wakeup1_eq c s : table_ok s ->
  wakeup1 c s = Ok tt (set_s_procs (woken c <$> s_procs s) s).
Proof.
  intros Ht. unfold wakeup1. apply for_each_table; [|done]. intros i s'.
  etransitivity; [|apply (upd_proc_if i (sleeps_on c) (set_p_state RUNNABLE) s')].
  proc_simpl. fold (sleeps_on c (proc_at s' i)). by destruct (sleeps_on _ _).
Qed.

(** The slots of [l] that sleep on [c]. *)
Definition sleepers (c : chan) s (l : list nat) : list nat :=
  filter (fun i => sleeps_on c (proc_at s i) = true) l.

Definition lower (n : nat) p : proc := set_p_cur_index (p_cur_index p - Z.of_nat n) p.

Lemma lower_0 p : lower 0 p = p.
Proof. destruct p. unfold lower, set_p_cur_index. simpl. f_equal. lia. Qed.

Lemma lower_lower n m p : lower n (lower m p) = lower (m + n) p.
Proof. destruct p. unfold lower, set_p_cur_index. simpl. f_equal. lia. Qed.

Lemma woken_lower c n p : woken c (lower n p) = lower n (woken c p).
Proof. destruct p. unfold woken, sleeps_on, st_is. simpl. by case_match. Qed.

Lemma sleeps_on_lower c n p : sleeps_on c (lower n p) = sleeps_on c p.
Proof. by destruct p. Qed.

Lemma sleepers_ext c s s' l : (forall i, i ∈ l -> sleeps_on c (proc_at s' i) = sleeps_on c (proc_at s i)) ->
  sleepers c s' l = sleepers c s l.
Proof.
  unfold sleepers. induction l as [|i l IH]; intros Hl; [done|]. rewrite !filter_cons, Hl by left.
  rewrite IH; [done|]. intros j Hj. apply Hl. by right.
Qed.

Lemma sleepers_cons c s i l : length (sleepers c s (i :: l)) =
  ((if sleeps_on c (proc_at s i) then 1 else 0) + length (sleepers c s l))%nat.
Proof. unfold sleepers. rewrite filter_cons. by destruct (sleeps_on c (proc_at s i)). Qed.

Lemma wakeuppid_step pp i s : (i < length (s_procs s))%nat ->
  let b := sleeps_on (ch_proc pp) (proc_at s i) in
  (let* p := getp i (fun p => p) in
   when st_is SLEEPING p && bool_decide (p_chan p = ch_proc pp) do (
     setp i (set_p_state RUNNABLE) ;;;
     setp pp (fun q => set_p_cur_index (p_cur_index q - 1) q))) s =
  Ok tt (upd_proc pp (lower (if b then 1 else 0)) (upd_proc i (woken (ch_proc pp)) s)).
Proof.
  intros Hi b. proc_simpl. fold (sleeps_on (ch_proc pp) (proc_at s i)). subst b.
  pose proof (upd_proc_if i (sleeps_on (ch_proc pp)) (set_p_state RUNNABLE) s) as E.
  fold (woken (ch_proc pp)) in E. destruct (sleeps_on (ch_proc pp) (proc_at s i)) eqn:Es.
  - assert (E' : upd_proc i (set_p_state RUNNABLE) s = upd_proc i (woken (ch_proc pp)) s) by congruence.
    by rewrite E'.
  - assert (E' : s = upd_proc i (woken (ch_proc pp)) s) by congruence.
    rewrite <- E', upd_proc_id; [done|]. intros p _. apply lower_0.
Qed.

Lemma wakeuppid_loop pp l : forall s, NoDup l -> Forall (fun i => i < length (s_procs s))%nat l ->
  exists procs', for_each l (fun i =>
    let* p := getp i (fun p => p) in
    when st_is SLEEPING p && bool_decide (p_chan p = ch_proc pp) do (
      setp i (set_p_state RUNNABLE) ;;;
      setp pp (fun q => set_p_cur_index (p_cur_index q - 1) q))) s = Ok tt (set_s_procs procs' s) /\
  length procs' = length (s_procs s) /\
  forall j, nth j procs' zero_proc =
    lower (if decide (pp = j /\ (pp < length (s_procs s)))%nat then length (sleepers (ch_proc pp) s l) else 0)
      (if decide (j ∈ l) then woken (ch_proc pp) (proc_at s j) else proc_at s j).
Proof.
  induction l as [|i l IH]; intros s Hnd Hl.
  { exists (s_procs s). rewrite set_procs_id. split; [done|]. split; [done|]. intros j.
    rewrite (decide_False (P := j ∈ [])) by (by intros ?%elem_of_nil).
    case_decide; by rewrite lower_0. }
  apply NoDup_cons in Hnd as [Hni Hnd]. inversion Hl as [|? ? Hi Hl']; subst.
  set (b := sleeps_on (ch_proc pp) (proc_at s i)).
  set (s1 := upd_proc pp (lower (if b then 1 else 0)) (upd_proc i (woken (ch_proc pp)) s)).
  assert (Hlen : length (s_procs s1) = length (s_procs s)) by (simpl; by rewrite !length_alter).
  assert (Hat : forall j, proc_at s1 j =
    lower (if decide (pp = j /\ (pp < length (s_procs s)))%nat then (if b then 1 else 0) else 0)
      (if decide (j = i) then woken (ch_proc pp) (proc_at s j) else proc_at s j)).
  { intros j. subst s1. destruct (decide (pp < length (s_procs s))%nat) as [Hpp|Hpp].
    - rewrite proc_at_upd by (simpl; by rewrite length_alter). rewrite !proc_at_upd by done.
      repeat case_decide; subst; rewrite ?lower_0; (done || (exfalso; tauto)).
    - rewrite (upd_proc_id pp) by (intros p Hp; apply lookup_lt_Some in Hp; simpl in Hp;
        rewrite length_alter in Hp; lia).
      rewrite proc_at_upd by done. repeat case_decide; subst; rewrite ?lower_0; (done || (exfalso; tauto)). }
  destruct (IH s1 Hnd) as (procs' & E & Hlen' & Hp').
  { by rewrite Hlen. }
  exists procs'. split; [|split; [by rewrite Hlen'|]].
  - simpl. unfold kbind at 1. rewrite wakeuppid_step by done. fold b s1. rewrite E.
    done.
  - intros j. rewrite Hp', Hlen, Hat.
    assert (Hs : sleepers (ch_proc pp) s1 l = sleepers (ch_proc pp) s l).
    { apply sleepers_ext. intros k Hk. rewrite Hat, sleeps_on_lower.
      rewrite decide_False; [done|]. by intros ->. }
    rewrite Hs, sleepers_cons. fold b.
    destruct (decide (j = i)) as [->|Hj].
    + rewrite (decide_False (P := i ∈ l)), (decide_True (P := i ∈ i :: l)) by (done || by left).
      repeat case_decide; try tauto; by rewrite lower_lower.
    + destruct (decide (j ∈ l)) as [Hjl|Hjl].
      * rewrite (decide_True (P := j ∈ i :: l)) by by right. rewrite woken_lower. repeat case_decide; try tauto; by rewrite lower_lower.
      * rewrite (decide_False (P := j ∈ i :: l)) by (rewrite elem_of_cons; tauto). repeat case_decide; try tauto; by rewrite lower_lower.
Qed.

Lemma table_bound s : table_ok s -> Forall (fun i => i < length (s_procs s))%nat table.
Proof.
  intros ->. rewrite table_eq. apply Forall_forall. intros i Hi. apply elem_of_seq in Hi. lia.
Qed.

Lemma elem_of_table i : i ∈ table <-> (i < NPROC)%nat.
Proof. rewrite table_eq. rewrite elem_of_seq. lia. Qed.

(** [wakeuppid]: everyone who sleeps on the process is woken and counted off. *)
Lemma wakeuppid_spec pp s : table_ok s -> (pp < NPROC)%nat ->
  runs (wakeuppid pp) s (fun _ s' => exists procs', s' = set_s_procs procs' s /\ table_ok s' /\
    forall j, proc_at s' j = lower (if decide (pp = j) then length (sleepers (ch_proc pp) s table) else 0)
      (woken (ch_proc pp) (proc_at s j))).
Proof.
  intros Ht Hpp. destruct (wakeuppid_loop pp table s) as (procs' & E & Hl & Hp).
  - rewrite table_eq. apply NoDup_seq.
  - by apply table_bound.
  - eapply runs_eq; [exact E|]. exists procs'. split; [done|]. split; [by unfold table_ok; simpl; rewrite Hl|].
    intros j. etransitivity; [apply Hp|]. rewrite Ht. f_equal.
    + repeat case_decide; naive_solver.
    + destruct (decide (j ∈ table)) as [Hj|Hj]; [reflexivity|]. rewrite elem_of_table in Hj.
      rewrite proc_at_out; [reflexivity|]. rewrite Ht. lia.
Qed.

Lemma woken_not_asleep c p : sleeps_on c (woken c p) = false.
Proof. unfold woken. destruct (sleeps_on c p) eqn:E; [|done]. by destruct p. Qed.

Lemma woken_fields c p : p_cur_index (woken c p) = p_cur_index p /\ p_parent (woken c p) = p_parent p /\
  p_pid (woken c p) = p_pid p /\ p_est (woken c p) = p_est p /\ p_killed (woken c p) = p_killed p /\
  p_prio (woken c p) = p_prio p /\ p_chan (woken c p) = p_chan p /\ p_kont (woken c p) = p_kont p.
Proof. unfold woken. by destruct (sleeps_on c p), p. Qed.

Lemma sleepers_nil c s l : (forall j, j ∈ l -> sleeps_on c (proc_at s j) = false) -> sleepers c s l = [].
Proof.
  unfold sleepers. induction l as [|i l IH]; intros Hl; [done|].
  rewrite filter_cons, Hl by left. simpl. apply IH. intros j Hj. apply Hl. by right.
Qed.

(** With nobody asleep on the process the loop of [exit] cannot make progress. *)
Lemma exit_wake_stuck fuel : forall i s, table_ok s -> (i < NPROC)%nat ->
  sleepers (ch_proc i) s table = [] -> 0 < p_cur_index (proc_at s i) -> exit_wake i fuel s = NoFuel.
Proof.
  induction fuel as [|fuel IH]; intros i s Ht Hi Hs Hc; [done|]. simpl.
  unfold kbind at 1, getp, kgets. rewrite (proj2 (Z.ltb_lt 0 _)) by done. unfold kbind.
  pose proof (wakeuppid_spec i s Ht Hi) as Hw. apply runs_Ok in Hw as (u & s' & E & procs' & -> & Ht' & Hp).
  rewrite E. apply IH; [done|done| |].
  - apply sleepers_nil. intros j _. rewrite Hp, sleeps_on_lower. apply woken_not_asleep.
  - rewrite Hp, decide_True, Hs, lower_0 by done. by destruct (woken_fields (ch_proc i) (proc_at s i)) as [-> _].
Qed.

(** The state after the loop of [exit]: everyone who slept on [i] is awake. *)
Lemma exit_wake_done i s : table_ok s -> (i < NPROC)%nat ->
  p_cur_index (proc_at s i) <= Z.of_nat (length (sleepers (ch_proc i) s table)) ->
  runs (exit_wake i 2) s (fun _ s' => exists procs', s' = set_s_procs procs' s /\ table_ok s' /\
    forall j, proc_at s' j =
      if 0 <? p_cur_index (proc_at s i)
      then lower (if decide (i = j) then length (sleepers (ch_proc i) s table) else 0)
             (woken (ch_proc i) (proc_at s j))
      else proc_at s j).
Proof.
  intros Ht Hi Hc. unfold exit_wake. apply runs_bind, runs_gets.
  destruct (0 <? p_cur_index (proc_at s i)) eqn:E.
  - apply runs_bind. eapply runs_conseq; [by apply wakeuppid_spec|].
    intros _ s' (procs' & -> & Ht' & Hp). apply runs_bind, runs_gets.
    rewrite Hp, decide_True by done. unfold lower at 1. simpl.
    destruct (woken_fields (ch_proc i) (proc_at s i)) as [-> _].
    rewrite (proj2 (Z.ltb_ge 0 _)) by lia. apply runs_ret. eauto.
  - apply runs_ret. exists (s_procs s). rewrite set_procs_id. done.
Qed.

(** ** The scheduler *)

Definition runnable s (i : nat) : bool := st_is RUNNABLE (proc_at s i).

Definition prio_of (procs : list proc) (i : nat) : Z := p_prio (nth i procs zero_proc).

Lemma pick_cases procs hp i :
  (pick procs hp i = hp /\ (st_is RUNNABLE (nth i procs zero_proc) = true -> prio_of procs i <= prio_of procs hp)) \/
  (pick procs hp i = i /\ st_is RUNNABLE (nth i procs zero_proc) = true /\ prio_of procs hp < prio_of procs i).
Proof.
  unfold pick, prio_of. destruct (st_is RUNNABLE (nth i procs zero_proc)); simpl; [|by left].
  case_match eqn:E; bool_hyps; [by right|by left].
Qed.

Lemma best_fold procs l : forall hp, let r := fold_left (pick procs) l hp in
  (r = hp \/ (st_is RUNNABLE (nth r procs zero_proc) = true /\ prio_of procs hp < prio_of procs r)) /\
  forall j, j ∈ l -> st_is RUNNABLE (nth j procs zero_proc) = true -> prio_of procs j <= prio_of procs r.
Proof.
  induction l as [|i l IH]; intros hp.
  - split; [by left|]. by intros j Hj%elem_of_nil.
  - simpl. destruct (IH (pick procs hp i)) as [H1 H2].
    set (r := fold_left (pick procs) l (pick procs hp i)) in *.
    assert (Hr : prio_of procs (pick procs hp i) <= prio_of procs r).
    { destruct H1 as [E|(_ & ?)]; [rewrite E|]; lia. }
    destruct (pick_cases procs hp i) as [[E Hi]|(E & Hi & Hlt)]; rewrite E in *.
    + split; [done|]. intros j [->|Hj]%elem_of_cons Hrun; [specialize (Hi Hrun); lia|by apply H2].
    + split.
      * right. destruct H1 as [E1|[? ?]]; [by rewrite E1|]. split; [done|lia].
      * intros j [->|Hj]%elem_of_cons Hrun; [lia|by apply H2].
Qed.

(** The scheduler's choice: a runnable process of the highest priority, and [hp]
    itself when nobody beats it. *)
Lemma best_spec s hp : table_ok s -> runnable s hp = true ->
  let r := best (s_procs s) hp in
  runnable s r = true /\
  (forall j, runnable s j = true -> p_prio (proc_at s j) <= p_prio (proc_at s r)) /\
  ((forall j, runnable s j = true -> p_prio (proc_at s j) <= p_prio (proc_at s hp)) -> r = hp).
Proof.
  intros Ht Hhp r. destruct (best_fold (s_procs s) table hp) as [H1 H2].
  fold (best (s_procs s) hp) in H1, H2. fold r in H1, H2.
  assert (Hin : forall j, runnable s j = true -> j ∈ table).
  { intros j Hj. apply elem_of_table. destruct (decide (j < NPROC)%nat); [done|].
    unfold runnable in Hj. rewrite proc_at_out in Hj; [done|]. rewrite Ht. lia. }
  split; [|split].
  - destruct H1 as [E|[? _]]; [by rewrite E|done].
  - intros j Hj. apply H2; [by apply Hin|done].
  - intros Hmax. destruct H1 as [|(Hr & Hlt)]; [done|].
    specialize (Hmax r Hr). unfold proc_at in Hmax. unfold prio_of in Hlt. lia.
Qed.

(** ** Termination of wait and waitpid *)

Lemma lift_k_total {A} (m : K kstate A) : total m -> total (lift_k (F := F) m).
Proof. intros Hm s. unfold lift_k. specialize (Hm (s_k s)). by destruct (m (s_k s)). Qed.

Lemma myproc_total : total (S := pst F) myproc.
Proof. unfold myproc. total_tac. Qed.

#[local] Hint Resolve lift_k_total myproc_total : xv6.
#[local] Hint Extern 1 (total (getp _ _)) => apply total_gets : xv6.
#[local] Hint Extern 1 (total (setp _ _)) => apply total_mod : xv6.

Lemma sched_total {A} k : total (S := pst F) (A := A) (sched k).
Proof. unfold sched. total_tac. Qed.

#[local] Hint Resolve sched_total : xv6.

Lemma sleep_total {A} c lk k : total (S := pst F) (A := A) (sleep c lk k).
Proof. unfold sleep. total_tac. Qed.

Lemma vstore8_total va v : total (S := pst F) (vstore8 va v).
Proof. unfold vstore8. total_tac. Qed.

#[local] Hint Resolve sleep_total vstore8_total : xv6.

Lemma put_status_total st v : total (S := pst F) (put_status st v).
Proof. unfold put_status, vstore32. total_tac. Qed.

#[local] Hint Resolve put_status_total : xv6.

Section terminate.
Context `{!AddrSpaceTotal AS}.
#[local] Hint Resolve vm_kfree_total vm_freevm_total : xv6.

Lemma reap_total i st : total (S := pst F) (reap i st).
Proof. unfold reap. total_tac. Qed.

#[local] Hint Resolve reap_total : xv6.

Lemma wait_scan_total me st l : forall b, total (S := pst F) (wait_scan me st l b).
Proof. induction l as [|i l IH]; intros b; simpl; total_tac; apply IH. Qed.

Lemma waitpid_scan_total pid st op l : forall b, total (S := pst F) (waitpid_scan pid st op l b).
Proof. induction l as [|i l IH]; intros b; simpl; total_tac; apply IH. Qed.

#[local] Hint Resolve wait_scan_total waitpid_scan_total : xv6.

Lemma wait_loop_total st : total (S := pst F) (wait_loop st).
Proof. unfold wait_loop. total_tac. Qed.

(** [sleep] does not return within the run. *)
Lemma sched_never_ok {A} k s a s' : sched (F := F) (A := A) k s <> Ok a s'.
Proof.
  unfold sched, kbind, kget, kpanic, myproc, getp, setp, kmod, kgets, kblock, kret, kbind, kget.
  repeat case_match; congruence.
Qed.

Lemma sleep_never_ok {A} c lk k s a s' : sleep (F := F) (A := A) c lk k s <> Ok a s'.
Proof.
  unfold sleep, kbind, kget. destruct (s_cur s); [|done].
  case_match; [case_match|..]; try done; unfold setp, kmod; simpl; try apply sched_never_ok.
Qed.

Lemma waitpid_scan_end pid st op l : forall b s b' s',
  waitpid_scan (F := F) pid st op l b s = Ok (inr b') s' -> b' = b /\ s' = s.
Proof.
  induction l as [|i l IH]; intros b s b' s' E; simpl in E; [by injection E|].
  unfold kbind at 1, getp, kgets in E. case_match; [by apply IH|]. case_match.
  { unfold kbind in E. case_match; [|done..]. done. }
  case_match.
  { unfold kbind in E. repeat (case_match; try done). }
  unfold kbind, setp, kmod in E. by apply sleep_never_ok in E.
Qed.

(** A round that starts with [found == 0] is the last one. *)
Lemma waitpid_last_round pid st op i fuel :
  total (S := pst F) (waitpid_loop pid st op i false (S fuel)).
Proof.
  intros s. simpl. unfold kbind at 1.
  pose proof (waitpid_scan_total pid st op (seq i (NPROC - i)) false s) as Hs.
  destruct (waitpid_scan pid st op (seq i (NPROC - i)) false s) as [[r|b] s'| | |] eqn:E; try done.
  apply waitpid_scan_end in E as [-> ->]. revert s Hs. intros s _. revert s.
  change (total (let* me := myproc in
    let* killed := getp me p_killed in
    if negb false || negb (killed =? 0) then
      put_status (F := F) st (-1) ;;; release lk_ptable ;;; kret (-1)
    else waitpid_loop pid st op 0 false fuel)).
  simpl. total_tac.
Qed.

Lemma waitpid_loop_total pid st op i b fuel : (2 <= fuel)%nat ->
  total (S := pst F) (waitpid_loop pid st op i b fuel).
Proof.
  intros Hf. destruct fuel as [|[|fuel]]; [lia..|].
  change (waitpid_loop pid st op i b (S (S fuel))) with
    (let* r := waitpid_scan (F := F) pid st op (seq i (NPROC - i)) b in
     match r with
     | inl pid' => kret pid'
     | inr found' =>
         let* me := myproc in
         let* killed := getp me p_killed in
         if negb found' || negb (killed =? 0) then
           put_status st (-1) ;;; release lk_ptable ;;; kret (-1)
         else waitpid_loop pid st op 0 false (S fuel)
     end).
  total_tac. apply waitpid_last_round.
Qed.

#[local] Hint Resolve wait_loop_total waitpid_loop_total : xv6.

(** [wait], [waitpid] and every resumption of a process end: each reaches a return,
    a [sleep] or a panic, for any table and any page tables.  In particular two rounds
    of the outer loop of [waitpid] are always enough. *)
Theorem wait_waitpid_terminate k pid st op s : total (initlog (F := F)) ->
  wait st s <> NoFuel /\ waitpid pid st op s <> NoFuel /\ resume k s <> NoFuel.
Proof.
  intros Hlog. split; [|split]; revert s.
  - change (total (wait (F := F) st)). unfold wait. total_tac.
  - change (total (waitpid (F := F) pid st op)). unfold waitpid. total_tac.
  - change (total (resume (F := F) k)). unfold resume, forkret, sleep_return. total_tac.
    intros s. unfold lift_f. specialize (Hlog (s_fs s, s_k s)). by destruct (initlog (s_fs s, s_k s)) as [? []|? []|? []|].
Qed.

End terminate.

Lemma find_seq (f : nat -> bool) n : forall a,
  match find f (seq a n) with
  | Some q => f q = true /\ (a <= q < a + n)%nat /\ forall j, (a <= j < q)%nat -> f j = false
  | None => forall j, (a <= j < a + n)%nat -> f j = false
  end.
Proof.
  induction n as [|n IH]; intros a; simpl; [intros j; lia|].
  destruct (f a) eqn:E; [split; [done|]; split; [lia|]; intros j; lia|].
  specialize (IH (S a)). destruct (find f (seq (S a) n)) as [q|].
  - destruct IH as (H1 & H2 & H3). split; [done|]. split; [lia|]. intros j Hj.
    destruct (decide (j = a)) as [->|]; [done|]. apply H3. lia.
  - intros j Hj. destruct (decide (j = a)) as [->|]; [done|]. apply IH. lia.
Qed.

(** The task state that [switchuvm] leaves, for a CPU with its [struct taskstate] at [ts]. *)
Definition task_on (ts kst : Z) : taskst :=
  Taskst ts (u32 (kst + KSTACKSIZE)) (8 * SEG_KDATA) (set_sd_type STS_T32B (set_sd_s 0 (SEG16 STS_T32A ts (sizeof_taskstate - 1) 0))) (8 * SEG_TSS).

Lemma switchuvm_eq (p i : nat) s : s_cur s = Some i ->
  let s1 := set_s_tss (task_on (t_at (s_tss s)) (p_kstack (proc_at s i))) s in
  switchuvm p s = if p_pgdir (proc_at s p) =? 0 then Panic "switchuvm: no pgdir" s1 else Ok tt (set_s_cr3 (v2p (p_pgdir (proc_at s p))) s1).
Proof.
  intros Hc s1. unfold switchuvm, set_tss, kmod, kbind at 1 2 3. unfold myproc, kget, kbind at 1 2. cbn [s_cur set_s_tss]. rewrite Hc. unfold getp, kgets, kret, kbind at 1 2.
  unfold ltr, kgets, kbind at 1 2. cbn [s_tss set_s_tss t_desc set_t_desc set_t_ss0 set_t_esp0]. change (_ && _) with true. cbn match. unfold set_tss, kmod, kbind.
  unfold s1, task_on. destruct s. cbn. by destruct (_ =? 0).
Qed.

(** C33: the scheduler runs a process of the highest priority.  From slot [p] it switches to a
    RUNNABLE process that no RUNNABLE process of the whole table beats; the first RUNNABLE
    process from [p] on is taken when it has the highest priority itself.  The chosen process,
    and only it, becomes RUNNING, with its page table and, in the task state, its kernel stack loaded.  Nothing is
    chosen only when no process from [p] on is RUNNABLE, and then the lock is released. *)
Theorem scheduler_runs_highest_priority (p : nat) s : table_ok s -> held s = [lk_ptable] ->
  (forall i, runnable s i = true -> p_pgdir (proc_at s i) <> 0) ->
  runs (scheduler_from p) s (fun r s' =>
    match r with
    | Some hp =>
        runnable s hp = true /\
        (forall j, runnable s j = true -> p_prio (proc_at s j) <= p_prio (proc_at s hp)) /\
        (forall q, runnable s q = true -> (p <= q)%nat ->
           (forall j, (p <= j < q)%nat -> runnable s j = false) ->
           (forall j, runnable s j = true -> p_prio (proc_at s j) <= p_prio (proc_at s q)) -> hp = q) /\
        (forall j, proc_at s' j = if decide (hp = j) then set_p_state RUNNING (proc_at s j) else proc_at s j) /\
        s_cur s' = Some hp /\ s_cr3 s' = v2p (p_pgdir (proc_at s hp)) /\
        s_tss s' = task_on (t_at (s_tss s)) (p_kstack (proc_at s hp)) /\ held s' = [lk_ptable]
    | None => (forall j, (p <= j)%nat -> runnable s j = false) /\ s' = set_held [] s
    end).
Proof.
  intros Ht Hh Hpg. unfold scheduler_from. apply runs_bind. unfold runs at 1, kget.
  pose proof (find_seq (runnable s) (NPROC - p) p) as Hfind. unfold runnable in Hfind.
  assert (Hout : forall j, (NPROC <= j)%nat -> runnable s j = false).
  { intros j Hj. unfold runnable. rewrite proc_at_out; [done|]. by rewrite Ht. }
  destruct (find _ (seq p (NPROC - p))) as [q|] eqn:Ef.
  - destruct Hfind as (Hq & Hqp & Hfirst). destruct (best_spec s q Ht Hq) as (Hr & Hmax & Htie).
    set (hp := best (s_procs s) q) in *.
    assert (Hhp : (hp < length (s_procs s))%nat).
    { destruct (decide (hp < length (s_procs s))%nat); [done|]. unfold runnable in Hr.
      by rewrite proc_at_out in Hr by lia. }
    assert (E : (p_pgdir (proc_at s hp) =? 0) = false) by (apply Z.eqb_neq; by apply Hpg).
    apply runs_bind, runs_mod, runs_bind. eapply runs_eq; [rewrite (switchuvm_eq hp hp) by done; change (proc_at (set_s_cur (Some hp) s) hp) with (proc_at s hp); rewrite E; reflexivity|].
    apply runs_bind, runs_mod, runs_ret.
    split; [done|]. split; [done|]. split.
    { intros q' Hq' Hpq' Hf' Hm'. assert (q' = q) as ->; [|by apply Htie].
      destruct (Nat.lt_trichotomy q q') as [Hl|[|Hl]]; [|done|].
      - specialize (Hf' q ltac:(lia)). unfold runnable in Hf'. congruence.
      - specialize (Hfirst q' ltac:(lia)). unfold runnable in Hq'. congruence. }
    split; [|split_and!; try done].
    intros j. rewrite proc_at_upd by done. case_decide; subst; done.
  - unfold runs. unfold kbind. rewrite release_ok by (rewrite Hh; left).
    rewrite Hh, remove_lock_cons by (by intros ?%elem_of_nil). split; [|done]. intros j Hj.
    destruct (decide (j < NPROC)%nat); [apply Hfind; lia|apply Hout; lia].
Qed.

(** A search of the table that acts on the first slot satisfying [c]. *)
Lemma for_first_find {R} (body : nat -> K (pst F) (option R)) (c : proc -> bool)
    (act : nat -> proc -> K (pst F) (option R)) l :
  (forall i s, body i s = if c (proc_at s i) then act i (proc_at s i) s else Ok None s) ->
  (forall i p s s', act i p s <> Ok None s') ->
  forall s, for_first l body s =
    match find (fun i => c (proc_at s i)) l with
    | Some i => act i (proc_at s i) s
    | None => Ok None s
    end.
Proof.
  intros Hb Ha s. induction l as [|i l IH]; simpl; [done|]. unfold kbind. rewrite Hb.
  destruct (c (proc_at s i)); [|done].
  pose proof (Ha i (proc_at s i) s). destruct (act i (proc_at s i) s) as [[r|] s'| | |]; naive_solver.
Qed.

(** The first slot with a property. *)
Definition first_slot (c : proc -> bool) s : option nat := find (fun i => c (proc_at s i)) table.

Lemma first_slot_spec c s :
  match first_slot c s with
  | Some i => c (proc_at s i) = true /\ (i < NPROC)%nat /\ forall j, (j < i)%nat -> c (proc_at s j) = false
  | None => forall j, (j < NPROC)%nat -> c (proc_at s j) = false
  end.
Proof.
  pose proof (find_seq (fun i => c (proc_at s i)) NPROC 0) as Hf. unfold first_slot. rewrite table_eq.
  destruct (find _ _) as [i|].
  - destruct Hf as (? & ? & Hf). split; [done|]. split; [lia|]. intros j Hj. apply Hf. lia.
  - intros j Hj. apply Hf. lia.
Qed.

Lemma kill_eq pid s : table_ok s -> held s = [] ->
  kill pid s =
    match first_slot (fun p => p_pid p =? pid) s with
    | Some i => Ok 0 (upd_proc i (fun p =>
        if st_is SLEEPING p then set_p_state RUNNABLE (set_p_killed 1 p) else set_p_killed 1 p) s)
    | None => Ok (-1) s
    end.
Proof.
  intros Ht Hh. unfold kill. unfold kbind at 1. rewrite acquire_ok by (rewrite Hh; by intros ?%elem_of_nil).
  unfold kbind at 1.
  rewrite (for_first_find _ (fun p => p_pid p =? pid) (fun i p =>
    setp i (set_p_killed 1) ;;; (when st_is SLEEPING p do setp i (set_p_state RUNNABLE)) ;;;
    release lk_ptable ;;; kret (Some 0))).
  2: { intros i s'. proc_simpl. by destruct (p_pid (proc_at s' i) =? pid). }
  2: { intros i p s1 s2. unfold kbind, setp, kmod, kret. repeat case_match; congruence. }
  change (find (fun i => p_pid (proc_at (set_held (lk_ptable :: held s) s) i) =? pid) table) with
    (first_slot (fun p => p_pid p =? pid) s).
  pose proof (first_slot_spec (fun p => p_pid p =? pid) s) as Hs.
  destruct (first_slot (fun p => p_pid p =? pid) s) as [i|].
  - destruct Hs as (_ & Hi & _).
    change (proc_at (set_held (lk_ptable :: held s) s) i) with (proc_at s i).
    pose proof (table_lookup s i Ht Hi) as El. rewrite Hh.
    destruct (st_is SLEEPING (proc_at s i)) eqn:Es; unfold kbind, setp, kmod, kret;
      rewrite release_ok by left; f_equal; destruct s; unfold upd_proc, set_s_procs; simpl in *;
      rewrite remove_lock_cons by (by intros ?%elem_of_nil); subst; unfold set_s_held; simpl; f_equal.
    + rewrite alter_alter. apply alter_cong. intros p Hp. rewrite El in Hp. injection Hp as <-.
      simpl. by rewrite Es.
    + apply alter_cong. intros p Hp. rewrite El in Hp. injection Hp as <-. by rewrite Es.
  - unfold kbind. rewrite release_ok by left. unfold kret. f_equal. destruct s. simpl in *. subst.
    by rewrite remove_lock_cons by (by intros ?%elem_of_nil).
Qed.

(** [kill] returns 0 exactly when some slot has the pid.  Then the first such slot has
    [killed] set and is RUNNABLE if it was asleep, its other fields and all other slots
    are unchanged; otherwise [kill] changes nothing and returns -1.  It returns with the
    lock released. *)
Theorem kill_correct pid s : table_ok s -> held s = [] ->
  runs (kill pid) s (fun r s' =>
    (r = 0 <-> exists j, (j < NPROC)%nat /\ p_pid (proc_at s j) = pid) /\
    (r = 0 \/ (r = -1 /\ s' = s)) /\ held s' = [] /\
    (r = 0 -> exists i, (i < NPROC)%nat /\ p_pid (proc_at s i) = pid /\
       (forall j, (j < i)%nat -> p_pid (proc_at s j) <> pid) /\
       forall j, proc_at s' j =
         if decide (i = j) then
           set_p_killed 1 (if st_is SLEEPING (proc_at s j) then set_p_state RUNNABLE (proc_at s j) else proc_at s j)
         else proc_at s j)).
Proof.
  intros Ht Hh. unfold runs. rewrite kill_eq by done.
  pose proof (first_slot_spec (fun p => p_pid p =? pid) s) as Hs.
  destruct (first_slot _ s) as [i|].
  - destruct Hs as (Hp & Hi & Hf). apply Z.eqb_eq in Hp.
    split; [split; [by exists i|done]|]. split; [by left|]. split; [done|]. intros _. exists i.
    split; [done|]. split; [done|]. split; [intros j Hj; by apply Z.eqb_neq, Hf|].
    intros j. rewrite proc_at_upd by (unfold table_ok in Ht; lia). case_decide; [subst|done].
    by destruct (st_is SLEEPING (proc_at s j)).
  - split; [split; [done|]|]. { intros (j & Hj & E). specialize (Hs j Hj). by apply Z.eqb_neq in Hs. }
    split; [by right|]. split; done.
Qed.

(** [cur_index] counts more waiters than are asleep: the loop never ends. *)
Lemma exit_wake_hangs i fuel s : table_ok s -> (i < NPROC)%nat ->
  Z.of_nat (length (sleepers (ch_proc i) s table)) < p_cur_index (proc_at s i) -> exit_wake i fuel s = NoFuel.
Proof.
  intros Ht Hi Hgt. destruct fuel as [|fuel]; [done|]. simpl. unfold kbind at 1, getp, kgets.
  rewrite (proj2 (Z.ltb_lt 0 _)) by lia. unfold kbind.
  pose proof (wakeuppid_spec i s Ht Hi) as Hw. apply runs_Ok in Hw as (u & s1 & -> & procs' & -> & Ht' & Hp).
  apply exit_wake_stuck; [done|done| |].
  - apply sleepers_nil. intros j _. rewrite Hp, sleeps_on_lower. apply woken_not_asleep.
  - rewrite Hp, decide_True by done. unfold lower. simpl.
    destruct (woken_fields (ch_proc i) (proc_at s i)) as [-> _]. lia.
Qed.

(** The loop of [exit] that wakes the callers of [waitpid] ends exactly when
    [cur_index] is at most the number of processes asleep on the exiting
    process.  If [cur_index] counts a waiter that is no longer asleep, [exit] spins
    forever with [ptable.lock] held. *)
Theorem exit_wake_terminates_iff i s : table_ok s -> (i < NPROC)%nat ->
  (exists fuel s', exit_wake i fuel s = Ok tt s') <->
  p_cur_index (proc_at s i) <= Z.of_nat (length (sleepers (ch_proc i) s table)).
Proof.
  intros Ht Hi. split.
  - intros (fuel & s' & E). destruct (Z.le_gt_cases (p_cur_index (proc_at s i))
      (Z.of_nat (length (sleepers (ch_proc i) s table)))) as [|Hgt]; [done|exfalso].
    rewrite exit_wake_hangs in E; (done || lia).
  - intros Hc. pose proof (exit_wake_done i s Ht Hi Hc) as Hw.
    apply runs_Ok in Hw as ([] & s' & E & _). by exists 2%nat, s'.
Qed.

Lemma sleepers_mono c s s' l : (forall j, sleeps_on c (proc_at s' j) = true -> sleeps_on c (proc_at s j) = true) ->
  (length (sleepers c s' l) <= length (sleepers c s l))%nat.
Proof.
  intros Hm. unfold sleepers. induction l as [|j l IH]; [done|]. rewrite !filter_cons.
  destruct (decide (sleeps_on c (proc_at s' j) = true)) as [E|E].
  - rewrite decide_True by by apply Hm. simpl. lia.
  - case_decide; simpl; lia.
Qed.

(** An [exit] that has no files to close hangs when [cur_index] overcounts. *)
Lemma exit_hangs i st fuel ip f k s : table_ok s -> (i < NPROC)%nat -> s_cur s = Some i -> s_initproc s <> Some i ->
  held s = [] -> (forall fd, nth fd (p_ofile (proc_at s i)) None = None) -> p_cwd (proc_at s i) = Some ip ->
  iput ip (s_fs s, s_k s) = Ok tt (f, k) ->
  Z.of_nat (length (sleepers (ch_proc i) s table)) < p_cur_index (proc_at s i) ->
  exit st fuel s = NoFuel.
Proof.
  intros Ht Hi Ec Hni Hh Hfd Hcwd Hput Hgt. unfold exit.
  rewrite (kbind_ok _ _ s i s) by (unfold myproc, kbind, kget; by rewrite Ec).
  rewrite (kbind_ok _ _ s (s_initproc s) s) by done. rewrite bool_decide_eq_false_2 by congruence.
  rewrite (kbind_ok _ _ s tt s).
  2: { induction (seq 0 NOFILE) as [|fd l IH]; [done|]. simpl. rewrite (kbind_ok _ _ s tt s); [exact IH|].
       unfold kbind, getp, kgets. by rewrite Hfd. }
  rewrite (kbind_ok _ _ s (Some ip) s) by (unfold getp, kgets; by rewrite Hcwd).
  rewrite (kbind_ok _ _ s tt (set_s_k k (set_s_fs f s))) by (unfold lift_f; by rewrite Hput).
  set (s1 := upd_proc i (set_p_cwd None) (set_s_k k (set_s_fs f s))). rewrite (kbind_ok _ _ _ tt s1) by done.
  assert (Ht1 : table_ok s1) by (unfold table_ok; simpl; by rewrite length_alter).
  unfold exit_locked. rewrite (kbind_ok _ _ s1 tt (set_held [lk_ptable] s1)).
  2: { assert (Hh1 : held s1 = []) by exact Hh. rewrite acquire_ok; rewrite Hh1; [done|]. by intros ?%elem_of_nil. }
  rewrite (kbind_ok _ _ _ (p_parent (proc_at s1 i)) (set_held [lk_ptable] s1)) by done.
  set (ch := parent_chan _). erewrite (kbind_ok (wakeup1 ch)) by by apply wakeup1_eq.
  match goal with |- kbind _ _ ?x = _ => set (s2 := x) end. rewrite (kbind_ok _ _ s2 tt (upd_proc i (set_p_est st) s2)) by done.
  assert (Ht2 : table_ok s2) by (unfold table_ok; simpl; by rewrite length_fmap).
  assert (H2 : forall j, proc_at s2 j = woken ch (proc_at s1 j)).
  { intros j. unfold proc_at. simpl. rewrite !nth_lookup, list_lookup_fmap. by destruct (_ !! j). }
  assert (H1 : forall j, proc_at s1 j = if decide (i = j) then set_p_cwd None (proc_at s i) else proc_at s j).
  { intros j. subst s1. rewrite proc_at_upd by (rewrite <- Ht in Hi; exact Hi). done. }
  assert (H3 : forall j, proc_at (upd_proc i (set_p_est st) s2) j =
    if decide (i = j) then set_p_est st (proc_at s2 i) else proc_at s2 j).
  { intros j. apply proc_at_upd. rewrite <- Ht2 in Hi. exact Hi. }
  unfold kbind at 1. rewrite exit_wake_hangs; [done|by apply table_ok_upd|done|].
  rewrite H3, decide_True by done. change (p_cur_index (set_p_est st (proc_at s2 i))) with (p_cur_index (proc_at s2 i)).
  rewrite H2. destruct (woken_fields ch (proc_at s1 i)) as [-> _]. rewrite H1, decide_True by done.
  change (p_cur_index (set_p_cwd None (proc_at s i))) with (p_cur_index (proc_at s i)).
  eapply Z.le_lt_trans; [|exact Hgt]. apply Nat2Z.inj_le, sleepers_mono. intros j. rewrite H3.
  assert (Hw : forall p, sleeps_on (ch_proc i) (woken ch p) = true -> sleeps_on (ch_proc i) p = true).
  { intros p. unfold woken. case_match; [|done]. intros [E _]%andb_prop. done. }
  destruct (decide (i = j)) as [->|Hij].
  - change (sleeps_on (ch_proc j) (set_p_est st (proc_at s2 j))) with (sleeps_on (ch_proc j) (proc_at s2 j)).
    rewrite H2. intros E%Hw. rewrite H1, decide_True in E by done. done.
  - rewrite H2. intros E%Hw. rewrite H1, decide_False in E by done. done.
Qed.
End procspec.
