(* ===== verification/ProcSys.v ===== *)
(** * The process table under concurrency

    Any number of CPUs run processes that call [fork], [exit], [wait], [waitpid], [kill],
    [sleep], [wakeup], [yield] and [setprio] of proc.c.  All of these but [fork] do what
    they do to the process table with [ptable.lock] held, so a step of the system is one
    critical section: a call up to its return, or up to its [sched] followed by the
    scheduler's choice of the next process, or the resumption of a process that was switched
    to.  The file operations of [exit], which come before, are part of the step; a step
    whose file operation would itself have to wait (and so leaves the process RUNNING
    here) is not enabled.

    [fork] holds the lock only to take a slot.  Its other steps are the stages of [fork_stage]:
    the kernel stack, the copy of the address space, the rest up to where the child may run,
    and the name.  Between them the other CPUs go on, and the process itself can be
    interrupted and preempted; it calls nothing else before its fork has returned.  (Within a stage, what
    is stored in the slot before the store to [np->state] is read by nobody else: [np->parent] is only
    ever compared with the running process, which is not the parent.)

    [proc_inv] is the invariant of the reachable states.  It contains that no wakeup is
    lost in [wait]: a process asleep in it has a child and none of its children is a zombie; and
    that a process asleep in [waitpid] waits for a process that has not exited, or for one whose
    fork failed, which wakes nobody. *)

From S2P Require Import Prelude CString Mmu Kalloc Vm Spinlock Proc ProcSpec.

#[local] Opaque table NPROC.

(** ** The system *)

Inductive op :=
  | OpExit (st : Z) | OpWait (st : Z) | OpWaitpid (pid st o : Z) | OpKill (pid : Z)
  | OpWakeup (c : chan) | OpSleep (c : chan) (lk : lockid) | OpYield | OpSetprio (prio : Z).

Definition not_proc_chan (c : chan) : Prop := forall i, c <> ch_proc i.

(** Code outside proc.c sleeps on channels of its own, with a lock of its own. *)
Definition op_ok (o : op) : Prop :=
  match o with OpSleep c lk => not_proc_chan c /\ lk <> lk_ptable | _ => True end.

(** What an interrupt does to the process it interrupts. *)
Definition irq_op (o : op) : bool := match o with OpYield | OpWakeup _ => true | _ => false end.

(** What is left to do of a fork that has taken slot [np]. *)
Inductive fstage := FStack (np : nat) | FSpace (np : nat) | FShare (np : nat) | FName (np : nat).

(** The slot, as long as the fork can still fail. *)
Definition embryo_of (g : option fstage) : option nat :=
  match g with Some (FStack np | FSpace np | FShare np) => Some np | _ => None end.

Section system.
Context {F : Type} `{FO : FileOps F} `{AS : AddrSpace}.
Variable kpgdir forkret_a trapret_a : Z.
Implicit Types (s : pst F) (p : proc).

Definition ignore {A} (m : K (pst F) A) : K (pst F) unit := m ;;; kret tt.

Definition run_op (fuel : nat) (o : op) : K (pst F) unit :=
  match o with
  | OpExit st => exit st fuel
  | OpWait st => ignore (wait st)
  | OpWaitpid pid st o => ignore (waitpid pid st o)
  | OpKill pid => ignore (kill pid)
  | OpWakeup c => wakeup c
  | OpSleep c lk => acquire lk ;;; sleep c lk (KSleep lk 0)
  | OpYield => yield
  | OpSetprio prio => setprio prio
  end.

(** A stage of [fork], and what is left after it. *)
Definition fork_stage (g : fstage) : K (pst F) (option fstage) :=
  match g with
  | FStack np => let* ok := allocproc_stack forkret_a trapret_a np in kret (if ok then Some (FSpace np) else None)
  | FSpace np => let* ok := fork_space np in kret (if ok then Some (FShare np) else None)
  | FShare np => fork_share np ;;; kret (Some (FName np))
  | FName np => fork_name np ;;; kret None
  end.

(** The pid of a fork that fails in stage [g]. *)
Definition failed (g : fstage) (g' : option fstage) s : list Z :=
  match g, g' with
  | (FStack np | FSpace np), None => [p_pid (proc_at s np)]
  | _, _ => []
  end.

(** The table, the process each CPU runs, the CPU that was just switched to a process
    and still holds [ptable.lock], the fork each process is in, and, as history, the pids whose
    fork failed. *)
Record sys := Sys { y_s : pst F; y_cur : nat -> option nat; y_switched : option nat; y_fork : nat -> option fstage; y_failed : list Z }.

(** The state as the CPU running [i] sees it. *)
Definition on_cpu (i : option nat) s : pst F := set_s_cur i (set_s_held [] s).

Definition after_op (y : sys) s : sys := Sys s (y_cur y) None (y_fork y) (y_failed y).

Definition after_sched (y : sys) (c : nat) (r : option nat) s : sys :=
  Sys s (upd (y_cur y) c r) (match r with Some _ => Some c | None => None end) (y_fork y) (y_failed y).

Definition after_stage (y : sys) (i : nat) (g : option fstage) (l : list Z) s : sys :=
  Sys s (y_cur y) None (upd (y_fork y) i g) (l ++ y_failed y).

(** Process [i] can do [o]: it is not in a fork, or it is interrupted. *)
Definition may (y : sys) (i : nat) (o : op) : Prop := op_ok o /\ (y_fork y i = None \/ irq_op o = true).

Inductive sys_step : sys -> sys -> Prop :=
  | step_op y c i o fuel u s' :
      y_switched y = None -> y_cur y c = Some i -> may y i o ->
      run_op fuel o (on_cpu (Some i) (y_s y)) = Ok u s' ->
      sys_step y (after_op y s')
  | step_op_sched y c i o fuel ch s' r s'' :
      y_switched y = None -> y_cur y c = Some i -> may y i o ->
      run_op fuel o (on_cpu (Some i) (y_s y)) = Block ch s' ->
      p_state (proc_at s' i) <> RUNNING ->
      scheduler_return kpgdir i s' = Ok r s'' ->
      sys_step y (after_sched y c r s'')
  | step_fork y c i r s' :
      y_switched y = None -> y_cur y c = Some i -> y_fork y i = None ->
      allocproc_slot (on_cpu (Some i) (y_s y)) = Ok r s' ->
      sys_step y (after_stage y i (FStack <$> r) [] s')
  | step_stage y c i g g' s' :
      y_switched y = None -> y_cur y c = Some i -> y_fork y i = Some g ->
      fork_stage g (on_cpu (Some i) (y_s y)) = Ok g' s' ->
      sys_step y (after_stage y i g' (failed g g' (y_s y)) s')
  | step_idle y c r s' :
      y_switched y = None -> y_cur y c = None ->
      scheduler (on_cpu None (y_s y)) = Ok r s' ->
      sys_step y (after_sched y c r s')
  | step_idle_irq y c ch u s' :
      y_switched y = None -> y_cur y c = None ->
      wakeup ch (on_cpu None (y_s y)) = Ok u s' ->
      sys_step y (after_op y s')
  | step_resume y c i v s' :
      y_switched y = Some c -> y_cur y c = Some i ->
      resume (p_kont (proc_at (y_s y) i)) (y_s y) = Ok v s' ->
      sys_step y (after_op y s')
  | step_resume_sched y c i ch s' r s'' :
      y_switched y = Some c -> y_cur y c = Some i ->
      resume (p_kont (proc_at (y_s y) i)) (y_s y) = Block ch s' ->
      p_state (proc_at s' i) <> RUNNING ->
      scheduler_return kpgdir i s' = Ok r s'' ->
      sys_step y (after_sched y c r s'').

(** After [userinit]: one process, in slot 0. *)
Definition sys_boot (y : sys) : Prop :=
  y_switched y = None /\ (forall c, y_cur y c = None) /\ (forall i, y_fork y i = None) /\ y_failed y = [] /\ table_ok (y_s y) /\
  s_initproc (y_s y) = Some 0%nat /\ s_nextpid (y_s y) = 2 /\
  (let p := proc_at (y_s y) 0 in
   p_state p = RUNNABLE /\ p_pid p = 1 /\ p_parent p = None /\ p_kont p = KForkret /\ p_cur_index p = 0) /\
  (forall i, i <> 0%nat -> proc_at (y_s y) i = zero_proc).

Inductive sys_reachable : sys -> Prop :=
  | sys_reach_boot y : sys_boot y -> sys_reachable y
  | sys_reach_step y y' : sys_reachable y -> sys_step y y' -> sys_reachable y'.

(** ** The invariant *)

Definition alive p : Prop := p_state p <> UNUSED /\ p_state p <> ZOMBIE.

(** Asleep in [waitpid] on slot [t], for the process [pid]. *)
Definition waits_for (t : nat) (pid : Z) p : bool :=
  st_is SLEEPING p && match p_kont p with KWaitpid pid' _ _ t' => bool_decide (t' = t) && (pid' =? pid) | _ => false end.

Definition waiters (P : nat -> proc) (t : nat) : nat := length (filter (fun i => waits_for t (p_pid (P t)) (P i) = true) table).

Section invariant.
(** The slot each process is filling, and the pids whose fork failed. *)
Context {emb : nat -> option nat} {dead : list Z}.

Record proc_inv (P : nat -> proc) (np : Z) (i0 : nat) (cur : nat -> option nat) : Prop := {
  pi_range : forall i, (NPROC <= i)%nat -> P i = zero_proc;
  pi_running : forall i, p_state (P i) = RUNNING <-> exists c, cur c = Some i;
  pi_cur : forall c1 c2 i, cur c1 = Some i -> cur c2 = Some i -> c1 = c2;
  pi_embryo : forall n, p_state (P n) = EMBRYO <-> exists i, emb i = Some n;
  pi_owner : forall i j n, emb i = Some n -> emb j = Some n -> i = j;
  pi_forker : forall i n, emb i = Some n -> p_state (P i) = RUNNING \/ (p_state (P i) = RUNNABLE /\ p_kont (P i) = KYield);
  pi_pid : forall i, p_state (P i) <> UNUSED -> 0 < p_pid (P i);
  pi_pid_lt : forall i, 0 <= p_pid (P i) < np;
  pi_pid_inj : forall i j, p_pid (P i) = p_pid (P j) -> p_pid (P i) <> 0 -> i = j;
  pi_init : alive (P i0);
  pi_init_born : forall i, emb i <> Some i0;
  pi_init_parent : p_parent (P i0) = None;
  pi_no_self : forall i, p_parent (P i) <> Some i;
  pi_unused : forall i, p_state (P i) = UNUSED \/ p_state (P i) = EMBRYO -> p_parent (P i) = None;
  pi_parent : forall i j, p_parent (P i) = Some j -> alive (P j);
  pi_parent_born : forall i j k, p_parent (P i) = Some j -> emb k <> Some j;
  pi_wait : forall i st, p_state (P i) = SLEEPING -> p_kont (P i) = KWait st ->
    p_chan (P i) = ch_proc i /\ p_killed (P i) = 0 /\
    (exists j, p_parent (P j) = Some i) /\
    forall j, p_parent (P j) = Some i -> p_state (P j) <> ZOMBIE;
  pi_waitpid : forall i pid st o t, p_state (P i) = SLEEPING -> p_kont (P i) = KWaitpid pid st o t ->
    p_chan (P i) = ch_proc t /\ ((p_pid (P t) = pid /\ alive (P t)) \/ pid ∈ dead);
  pi_sleep : forall i t, p_state (P i) = SLEEPING -> p_chan (P i) = ch_proc t ->
    (i = t /\ exists st, p_kont (P i) = KWait st) \/ exists pid st o, p_kont (P i) = KWaitpid pid st o t;
  pi_dead : forall pid, pid ∈ dead -> 0 < pid < np /\ forall i, p_pid (P i) = pid -> p_state (P i) = UNUSED;
  pi_count : forall t, alive (P t) -> Z.of_nat (waiters P t) <= p_cur_index (P t)
}.

Definition sys_inv s (cur : nat -> option nat) : Prop :=
  table_ok s /\ exists i0, s_initproc s = Some i0 /\ proc_inv (proc_at s) (s_nextpid s) i0 cur.

(** *** Consequences of the counting *)

Lemma waiters_mono (P P' : nat -> proc) t : p_pid (P' t) = p_pid (P t) ->
  (forall i, waits_for t (p_pid (P t)) (P' i) = true -> waits_for t (p_pid (P t)) (P i) = true) -> (waiters P' t <= waiters P t)%nat.
Proof.
  intros Hp Hw. unfold waiters. rewrite Hp. induction table as [|i l IH]; [done|]. rewrite !filter_cons.
  destruct (decide (waits_for t (p_pid (P t)) (P' i) = true)) as [E|E].
  - rewrite decide_True by by apply Hw. simpl. lia.
  - case_decide; simpl; lia.
Qed.

Lemma waiters_add (P P' : nat -> proc) t k : p_pid (P' t) = p_pid (P t) ->
  (forall i, i <> k -> waits_for t (p_pid (P t)) (P' i) = true -> waits_for t (p_pid (P t)) (P i) = true) ->
  (waiters P' t <= S (waiters P t))%nat.
Proof.
  intros Hp Hw. assert (Hn : NoDup table) by (rewrite table_eq; apply NoDup_seq).
  unfold waiters. rewrite Hp. induction table as [|i l IH]; [simpl; lia|]. apply NoDup_cons in Hn as [Hni Hn].
  rewrite !filter_cons. destruct (decide (i = k)) as [->|Hik].
  - assert (Hm : (length (filter (fun i => waits_for t (p_pid (P t)) (P' i) = true) l) <=
      length (filter (fun i => waits_for t (p_pid (P t)) (P i) = true) l))%nat).
    { clear IH Hn. induction l as [|j l IHl]; [done|]. apply not_elem_of_cons in Hni as [Hj Hni].
      rewrite !filter_cons. specialize (IHl Hni).
      destruct (decide (waits_for t (p_pid (P t)) (P' j) = true)) as [E|E].
      - rewrite decide_True by (apply Hw; congruence || done). simpl. lia.
      - case_decide; simpl; lia. }
    repeat case_decide; simpl; lia.
  - specialize (IH Hn). destruct (decide (waits_for t (p_pid (P t)) (P' i) = true)) as [E|E].
    + rewrite decide_True by by apply Hw. simpl. lia.
    + case_decide; simpl; lia.
Qed.

Lemma waiters_pos (P : nat -> proc) t i : (i < NPROC)%nat -> waits_for t (p_pid (P t)) (P i) = true -> (0 < waiters P t)%nat.
Proof.
  intros Hi Hw. unfold waiters. assert (Hin : i ∈ filter (fun i => waits_for t (p_pid (P t)) (P i) = true) table).
  { apply list_elem_of_filter. split; [done|]. by apply elem_of_table. }
  destruct (filter _ table); [by apply elem_of_nil in Hin|simpl; lia].
Qed.

Lemma waiters_none (P : nat -> proc) t : (forall i, waits_for t (p_pid (P t)) (P i) = false) -> waiters P t = 0%nat.
Proof.
  intros Hw. unfold waiters. induction table as [|i l IH]; [done|]. rewrite filter_cons, Hw. done.
Qed.

Lemma waits_for_iff t pid p : waits_for t pid p = true <->
  p_state p = SLEEPING /\ exists st o, p_kont p = KWaitpid pid st o t.
Proof.
  unfold waits_for, st_is. rewrite andb_true_iff, bool_decide_eq_true. split.
  - intros [? Hk]. split; [done|]. destruct (p_kont p) as [| | | | |? ? ? t'|]; try done.
    apply andb_prop in Hk as [->%bool_decide_eq_true ->%Z.eqb_eq]. eauto.
  - intros [? (st & o & ->)]. split; [done|]. by rewrite bool_decide_eq_true_2, Z.eqb_refl.
Qed.

(** *** Changes that keep the invariant *)

(** The part of a process the invariant speaks about. *)
Definition same_core p q : Prop :=
  p_state p = p_state q /\ p_pid p = p_pid q /\ p_parent p = p_parent q /\ p_chan p = p_chan q /\
  p_kont p = p_kont q /\ p_killed p = p_killed q /\ p_cur_index p = p_cur_index q.

(** [p] may have been woken. *)
Definition maybe_woken p q : Prop :=
  (p_state q = p_state p \/ (p_state p = SLEEPING /\ p_state q = RUNNABLE)) /\
  p_pid q = p_pid p /\ p_parent q = p_parent p /\ p_chan q = p_chan p /\
  p_kont q = p_kont p /\ p_killed q = p_killed p /\ p_cur_index q = p_cur_index p.

Lemma maybe_woken_alive p q : maybe_woken p q -> alive p <-> alive q.
Proof.
  intros ([E|[E1 E2]] & _); unfold alive; [by rewrite E|]. rewrite E1, E2. naive_solver.
Qed.

Lemma waits_for_woken t pid p q : maybe_woken p q -> waits_for t pid q = true -> waits_for t pid p = true.
Proof.
  intros (Hs & _ & _ & _ & Hk & _) [E Hw]%waits_for_iff. apply waits_for_iff. rewrite <- Hk.
  split; [|done]. destruct Hs as [Hs|[Hs _]]; congruence.
Qed.

Lemma inv_wake P P' np i0 cur : (forall i, maybe_woken (P i) (P' i)) ->
  (forall i, (NPROC <= i)%nat -> P' i = zero_proc) -> proc_inv P np i0 cur -> proc_inv P' np i0 cur.
Proof.
  intros Hw Hr Hi.
  assert (Hnot : forall i st, p_state (P' i) = st -> st <> RUNNABLE -> p_state (P i) = st).
  { intros i st E Hne. destruct (Hw i) as ([?|[_ ?]] & _); congruence. }
  assert (Hto : forall i st, p_state (P i) = st -> st <> SLEEPING -> p_state (P' i) = st).
  { intros i st E Hne. destruct (Hw i) as ([?|[? _]] & _); congruence. }
  assert (Hpar : forall i, p_parent (P' i) = p_parent (P i)) by (intros i; by destruct (Hw i) as (_ & _ & ? & _)).
  assert (Hpid : forall i, p_pid (P' i) = p_pid (P i)) by (intros i; by destruct (Hw i) as (_ & ? & _)).
  assert (Hch : forall i, p_chan (P' i) = p_chan (P i)) by (intros i; by destruct (Hw i) as (_ & _ & _ & ? & _)).
  assert (Hk : forall i, p_kont (P' i) = p_kont (P i)) by (intros i; by destruct (Hw i) as (_ & _ & _ & _ & ? & _)).
  assert (Hkl : forall i, p_killed (P' i) = p_killed (P i)) by (intros i; by destruct (Hw i) as (_ & _ & _ & _ & _ & ? & _)).
  assert (Hal : forall i, alive (P i) <-> alive (P' i)) by (intros i; by apply maybe_woken_alive).
  split; try done.
  - intros i. rewrite <- (pi_running _ _ _ _ Hi). split; intros E; [by apply Hnot|by apply Hto].
  - apply Hi.
  - intros n. rewrite <- (pi_embryo _ _ _ _ Hi). split; intros E; [by apply Hnot|by apply Hto].
  - apply Hi.
  - intros i n En. rewrite Hk. destruct (pi_forker _ _ _ _ Hi i n En) as [E|[E ?]]; [left|right; split; [|done]]; by apply Hto.
  - intros i Hne. rewrite Hpid. apply (pi_pid _ _ _ _ Hi). intros E. by apply Hne, Hto.
  - intros i. rewrite Hpid. apply Hi.
  - intros i j. rewrite !Hpid. apply Hi.
  - apply Hal, Hi.
  - apply Hi.
  - rewrite Hpar. apply Hi.
  - intros i. rewrite Hpar. apply Hi.
  - intros i E. rewrite Hpar. apply (pi_unused _ _ _ _ Hi). destruct E as [E|E]; [left|right]; by apply Hnot.
  - intros i j. rewrite Hpar. intros E. by apply Hal, (pi_parent _ _ _ _ Hi i).
  - intros i j k. rewrite Hpar. apply Hi.
  - intros i st E1 E2. rewrite Hk in E2. rewrite Hch, Hkl.
    destruct (pi_wait _ _ _ _ Hi i st) as (W1 & W2 & (j & W3) & W4); [by apply Hnot|done|].
    split; [done|]. split; [done|]. split; [exists j; by rewrite Hpar|].
    intros j'. rewrite Hpar. intros Hj' E. by apply (W4 j' Hj'), Hnot.
  - intros i pid st o t' E1 E2. rewrite Hk in E2. rewrite Hch, Hpid.
    destruct (pi_waitpid _ _ _ _ Hi i pid st o t') as (W1 & W2); [by apply Hnot|done|].
    split; [done|]. by rewrite <- Hal.
  - intros i t' E1 E2. rewrite Hch in E2. rewrite Hk. apply Hi; [by apply Hnot|done].
  - intros pid Hd. destruct (pi_dead _ _ _ _ Hi pid Hd) as [? Hu]. split; [done|]. intros i. rewrite Hpid. intros E. apply Hto; [by apply Hu|done].
  - intros t' Ha. destruct (Hw t') as (_ & _ & _ & _ & _ & _ & ->). apply Hal in Ha.
    pose proof (pi_count _ _ _ _ Hi t' Ha).
    assert (waiters P' t' <= waiters P t')%nat by (apply waiters_mono; [done|]; intros i; by apply waits_for_woken). lia.
Qed.

Lemma inv_core P P' np i0 cur : (forall i, same_core (P' i) (P i)) ->
  (forall i, (NPROC <= i)%nat -> P' i = zero_proc) -> proc_inv P np i0 cur -> proc_inv P' np i0 cur.
Proof.
  intros Hc. apply inv_wake. intros i. destruct (Hc i) as (? & ? & ? & ? & ? & ? & ?).
  unfold maybe_woken. naive_solver.
Qed.

(** The fields of another process that stay the same. *)
Definition same_but_count p q : Prop :=
  p_state q = p_state p /\ p_pid q = p_pid p /\ p_parent q = p_parent p /\ p_chan q = p_chan p /\
  p_kont q = p_kont p /\ p_killed q = p_killed p.

Lemma upd_none (cur : nat -> option nat) c c' i : upd cur c None c' = Some i <-> c' <> c /\ cur c' = Some i.
Proof. unfold upd. case_decide; naive_solver. Qed.

(** The process of CPU [c] gives up the CPU, ready to run or asleep. *)
Lemma inv_leave P P' np i0 cur c i : proc_inv P np i0 cur -> cur c = Some i ->
  (forall j, (NPROC <= j)%nat -> P' j = zero_proc) ->
  (forall j, j <> i -> same_but_count (P j) (P' j)) ->
  p_state (P' i) = RUNNABLE \/ p_state (P' i) = SLEEPING ->
  p_pid (P' i) = p_pid (P i) -> p_parent (P' i) = p_parent (P i) ->
  (forall st, p_state (P' i) = SLEEPING -> p_kont (P' i) = KWait st ->
     p_chan (P' i) = ch_proc i /\ p_killed (P' i) = 0 /\ (exists j, p_parent (P j) = Some i) /\
     forall j, p_parent (P j) = Some i -> p_state (P j) <> ZOMBIE) ->
  (forall pid st o t, p_state (P' i) = SLEEPING -> p_kont (P' i) = KWaitpid pid st o t ->
     p_chan (P' i) = ch_proc t /\ p_pid (P t) = pid /\ alive (P t)) ->
  emb i = None \/ (p_state (P' i) = RUNNABLE /\ p_kont (P' i) = KYield) ->
  (forall t, p_state (P' i) = SLEEPING -> p_chan (P' i) = ch_proc t ->
     (i = t /\ exists st, p_kont (P' i) = KWait st) \/ exists pid st o, p_kont (P' i) = KWaitpid pid st o t) ->
  (forall t, alive (P t) -> Z.of_nat (waiters P' t) <= p_cur_index (P' t)) ->
  proc_inv P' np i0 (upd cur c None).
Proof.
  intros Hi Hc Hr Hsame Hst Hpid Hpar Hwait Hwp Hfk Hsl Hcnt.
  assert (Hrun : p_state (P i) = RUNNING) by (apply (pi_running _ _ _ _ Hi); by exists c).
  assert (Hpar' : forall j, p_parent (P' j) = p_parent (P j)).
  { intros j. destruct (decide (j = i)) as [->|Hj]; [done|]. by destruct (Hsame j Hj) as (_ & _ & ? & _). }
  assert (Hpid' : forall j, p_pid (P' j) = p_pid (P j)).
  { intros j. destruct (decide (j = i)) as [->|Hj]; [done|]. by destruct (Hsame j Hj) as (_ & ? & _). }
  assert (Hst' : forall j, j <> i -> p_state (P' j) = p_state (P j)).
  { intros j Hj. by destruct (Hsame j Hj) as (? & _). }
  assert (Hal : forall j, alive (P' j) <-> alive (P j)).
  { intros j. unfold alive. destruct (decide (j = i)) as [->|Hj]; [|by rewrite Hst'].
    rewrite Hrun. destruct Hst as [-> | ->]; naive_solver. }
  assert (Hz : forall j, p_state (P' j) = ZOMBIE -> p_state (P j) = ZOMBIE).
  { intros j E. destruct (decide (j = i)) as [->|Hj]; [destruct Hst; congruence|]. by rewrite <- Hst'. }
  split; try done.
  - intros j. setoid_rewrite upd_none. destruct (decide (j = i)) as [->|Hj].
    + split; [destruct Hst; congruence|]. intros (c' & Hne & E). by destruct (pi_cur _ _ _ _ Hi c' c i E Hc).
    + rewrite Hst', (pi_running _ _ _ _ Hi) by done. split; [|naive_solver].
      intros [c' E]. exists c'. split; [|done]. intros ->. congruence.
  - intros c1 c2 j. rewrite !upd_none. intros [_ E1] [_ E2]. by eapply Hi.
  - intros j. rewrite <- (pi_embryo _ _ _ _ Hi). destruct (decide (j = i)) as [->|Hj]; [|by rewrite Hst']. split; [destruct Hst; congruence|congruence].
  - apply Hi.
  - intros j n En. destruct (decide (j = i)) as [->|Hj]; [destruct Hfk as [|Hfk]; [congruence|by right]|].
    destruct (Hsame j Hj) as (-> & _ & _ & _ & -> & _). by apply (pi_forker _ _ _ _ Hi j n).
  - intros j Hne. rewrite Hpid'. destruct (decide (j = i)) as [->|Hj].
    + apply Hi. congruence.
    + apply Hi. by rewrite <- Hst'.
  - intros j. rewrite Hpid'. apply Hi.
  - intros j k. rewrite !Hpid'. apply Hi.
  - apply Hal, Hi.
  - apply Hi.
  - rewrite Hpar'. apply Hi.
  - intros j. rewrite Hpar'. apply Hi.
  - intros j. rewrite Hpar'. destruct (decide (j = i)) as [->|Hj]; [intros []; destruct Hst; congruence|].
    rewrite Hst' by done. apply Hi.
  - intros j k. rewrite Hpar'. intros E. by apply Hal, (pi_parent _ _ _ _ Hi j).
  - intros j k l. rewrite Hpar'. apply Hi.
  - intros j st E1 E2. setoid_rewrite Hpar'. destruct (decide (j = i)) as [->|Hj].
    + destruct (Hwait st E1 E2) as (W1 & W2 & W3 & W4). split_and!; try done. intros k Hk E. by apply (W4 k Hk), Hz.
    + destruct (Hsame j Hj) as (S1 & S2 & S3 & S4 & S5 & S6). rewrite S4, S6.
      destruct (pi_wait _ _ _ _ Hi j st) as (W1 & W2 & W3 & W4); [congruence..|].
      split_and!; try done. intros k Hk E. by apply (W4 k Hk), Hz.
  - intros j pid st o t' E1 E2. rewrite Hpid', Hal. destruct (decide (j = i)) as [->|Hj]; [destruct (Hwp pid st o t' E1 E2) as [? ?]; split; [done|by left]|].
    destruct (Hsame j Hj) as (S1 & S2 & S3 & S4 & S5 & S6). rewrite S4. apply (pi_waitpid _ _ _ _ Hi j pid st o t'); congruence.
  - intros j t' E1 E2. destruct (decide (j = i)) as [->|Hj]; [by apply Hsl|].
    destruct (Hsame j Hj) as (S1 & S2 & S3 & S4 & S5 & S6). rewrite S5. apply Hi; congruence.
  - intros pid Hd. destruct (pi_dead _ _ _ _ Hi pid Hd) as [? Hu]. split; [done|]. intros j. rewrite Hpid'. intros E. specialize (Hu j E).
    rewrite Hst'; [done|]. congruence.
  - intros t' Ha. apply Hcnt. by apply Hal.
Qed.

(** A process that is not asleep changes its channel, its continuation or its
    [killed] flag. *)
Lemma inv_stay P P' np i0 cur i : proc_inv P np i0 cur -> p_state (P i) <> SLEEPING -> p_state (P i) <> RUNNABLE \/ p_kont (P' i) = p_kont (P i) ->
  (forall j, (NPROC <= j)%nat -> P' j = zero_proc) ->
  (forall j, j <> i -> same_core (P' j) (P j)) ->
  p_state (P' i) = p_state (P i) -> p_pid (P' i) = p_pid (P i) -> p_parent (P' i) = p_parent (P i) ->
  p_cur_index (P' i) = p_cur_index (P i) -> proc_inv P' np i0 cur.
Proof.
  intros Hi Hns Hnr Hr Hsame E1 E2 E3 E4.
  assert (Hst : forall j, p_state (P' j) = p_state (P j)).
  { intros j. destruct (decide (j = i)) as [->|Hj]; [done|]. by destruct (Hsame j Hj). }
  assert (Hpid : forall j, p_pid (P' j) = p_pid (P j)).
  { intros j. destruct (decide (j = i)) as [->|Hj]; [done|]. by destruct (Hsame j Hj) as (_ & ? & _). }
  assert (Hpar : forall j, p_parent (P' j) = p_parent (P j)).
  { intros j. destruct (decide (j = i)) as [->|Hj]; [done|]. by destruct (Hsame j Hj) as (_ & _ & ? & _). }
  assert (Hci : forall j, p_cur_index (P' j) = p_cur_index (P j)).
  { intros j. destruct (decide (j = i)) as [->|Hj]; [done|]. by destruct (Hsame j Hj) as (_ & _ & _ & _ & _ & _ & ?). }
  assert (Hsl : forall j, p_state (P j) = SLEEPING ->
    p_chan (P' j) = p_chan (P j) /\ p_kont (P' j) = p_kont (P j) /\ p_killed (P' j) = p_killed (P j)).
  { intros j Hj. destruct (decide (j = i)) as [->|Hne]; [done|]. by destruct (Hsame j Hne) as (_ & _ & _ & ? & ? & ? & _). }
  assert (Hal : forall j, alive (P' j) <-> alive (P j)) by (intros j; unfold alive; by rewrite Hst).
  split; try done.
  - intros j. rewrite Hst. apply Hi.
  - apply Hi.
  - intros j. rewrite Hst. apply Hi.
  - apply Hi.
  - intros j n En. rewrite Hst. destruct (pi_forker _ _ _ _ Hi j n En) as [|[E Ek]]; [by left|right; split; [done|]].
    destruct (decide (j = i)) as [->|Hj]; [destruct Hnr; congruence|]. destruct (Hsame j Hj) as (_ & _ & _ & _ & -> & _). done.
  - intros j. rewrite Hst, Hpid. apply Hi.
  - intros j. rewrite Hpid. apply Hi.
  - intros j k. rewrite !Hpid. apply Hi.
  - apply Hal, Hi.
  - apply Hi.
  - rewrite Hpar. apply Hi.
  - intros j. rewrite Hpar. apply Hi.
  - intros j. rewrite Hst, Hpar. apply Hi.
  - intros j k. rewrite Hpar, Hal. apply Hi.
  - intros j k l. rewrite Hpar. apply Hi.
  - intros j st. rewrite Hst. intros Es. destruct (Hsl j Es) as (-> & -> & ->). intros Ek.
    setoid_rewrite Hpar. setoid_rewrite Hst. by apply (pi_wait _ _ _ _ Hi j st).
  - intros j pid st o t'. rewrite Hst, Hpid, Hal. intros Es. destruct (Hsl j Es) as (-> & -> & _). by apply Hi.
  - intros j t'. rewrite Hst. intros Es. destruct (Hsl j Es) as (-> & -> & _). by apply Hi.
  - intros pid Hd. destruct (pi_dead _ _ _ _ Hi pid Hd) as [? Hu]. split; [done|]. intros j. rewrite Hpid, Hst. apply Hu.
  - intros t' Ha. rewrite Hci. apply Hal in Ha. pose proof (pi_count _ _ _ _ Hi t' Ha).
    assert (waiters P' t' <= waiters P t')%nat; [|lia]. apply waiters_mono; [done|]. intros j [Es Hk]%waits_for_iff.
    rewrite Hst in Es. apply waits_for_iff. destruct (Hsl j Es) as (_ & <- & _). done.
Qed.

(** CPU [c] starts to run process [i]. *)
Lemma inv_run P P' np i0 cur c i : proc_inv P np i0 cur -> cur c = None -> p_state (P i) = RUNNABLE ->
  (forall j, (NPROC <= j)%nat -> P' j = zero_proc) ->
  (forall j, j <> i -> same_core (P' j) (P j)) ->
  p_state (P' i) = RUNNING -> p_pid (P' i) = p_pid (P i) -> p_parent (P' i) = p_parent (P i) ->
  p_cur_index (P' i) = p_cur_index (P i) -> proc_inv P' np i0 (upd cur c (Some i)).
Proof.
  intros Hi Hc Hrun Hr Hsame E1 E2 E3 E4.
  assert (Hst : forall j, j <> i -> p_state (P' j) = p_state (P j)).
  { intros j Hj. by destruct (Hsame j Hj). }
  assert (Hnr : forall c', cur c' <> Some i).
  { intros c' E. assert (p_state (P i) = RUNNING) by (apply (pi_running _ _ _ _ Hi); by exists c'). congruence. }
  assert (Hpid : forall j, p_pid (P' j) = p_pid (P j)).
  { intros j. destruct (decide (j = i)) as [->|Hj]; [done|]. by destruct (Hsame j Hj) as (_ & ? & _). }
  assert (Hpar : forall j, p_parent (P' j) = p_parent (P j)).
  { intros j. destruct (decide (j = i)) as [->|Hj]; [done|]. by destruct (Hsame j Hj) as (_ & _ & ? & _). }
  assert (Hci : forall j, p_cur_index (P' j) = p_cur_index (P j)).
  { intros j. destruct (decide (j = i)) as [->|Hj]; [done|]. by destruct (Hsame j Hj) as (_ & _ & _ & _ & _ & _ & ?). }
  assert (Hs : forall j st, p_state (P' j) = st -> st <> RUNNING -> j <> i /\ p_state (P j) = st).
  { intros j st E Hne. assert (j <> i) by (intros ->; congruence). split; [done|]. by rewrite <- Hst. }
  assert (Hal : forall j, alive (P' j) <-> alive (P j)).
  { intros j. unfold alive. destruct (decide (j = i)) as [->|Hj]; [|by rewrite Hst].
    rewrite E1, Hrun. naive_solver. }
  split; try done.
  - intros j. unfold upd. destruct (decide (j = i)) as [->|Hj].
    + split; [|done]. intros _. exists c. by rewrite decide_True.
    + rewrite Hst, (pi_running _ _ _ _ Hi) by done. split.
      * intros [c' E]. exists c'. rewrite decide_False; [done|]. intros ->. congruence.
      * intros [c' E]. case_decide; [congruence|]. by exists c'.
  - intros c1 c2 j. unfold upd. destruct (decide (c1 = c)) as [->|], (decide (c2 = c)) as [->|]; [done| | |].
    + intros [= <-] E. by apply Hnr in E.
    + intros E [= <-]. by apply Hnr in E.
    + apply Hi.
  - intros j. rewrite <- (pi_embryo _ _ _ _ Hi). destruct (decide (j = i)) as [->|Hj]; [|by rewrite Hst]. split; congruence.
  - apply Hi.
  - intros j n En. destruct (decide (j = i)) as [->|Hj]; [by left|]. destruct (Hsame j Hj) as (-> & _ & _ & _ & -> & _). by apply (pi_forker _ _ _ _ Hi j n).
  - intros j Hne. rewrite Hpid. apply Hi. intros E. destruct (decide (j = i)) as [->|Hj]; [congruence|].
    by rewrite Hst in Hne.
  - intros j. rewrite Hpid. apply Hi.
  - intros j k. rewrite !Hpid. apply Hi.
  - apply Hal, Hi.
  - apply Hi.
  - rewrite Hpar. apply Hi.
  - intros j. rewrite Hpar. apply Hi.
  - intros j E. rewrite Hpar. apply Hi. destruct E as [E|E]; apply Hs in E as [_ E]; [by left|done|by right|done].
  - intros j k. rewrite Hpar, Hal. apply Hi.
  - intros j k l. rewrite Hpar. apply Hi.
  - intros j st E Ek. apply Hs in E as [Hj E]; [|done].
    destruct (Hsame j Hj) as (S1 & S2 & S3 & S4 & S5 & S6 & S7). rewrite S5 in Ek. rewrite S4, S6.
    setoid_rewrite Hpar. destruct (pi_wait _ _ _ _ Hi j st E Ek) as (W1 & W2 & W3 & W4).
    split_and!; try done. intros k Hk Ez. apply Hs in Ez as [_ Ez]; [|done]. by apply (W4 k).
  - intros j pid st o t' E Ek. apply Hs in E as [Hj E]; [|done].
    destruct (Hsame j Hj) as (S1 & S2 & S3 & S4 & S5 & S6 & S7). rewrite S5 in Ek. rewrite S4, Hpid, Hal.
    by eapply (pi_waitpid _ _ _ _ Hi).
  - intros j t' E Ek. apply Hs in E as [Hj E]; [|done].
    destruct (Hsame j Hj) as (S1 & S2 & S3 & S4 & S5 & S6 & S7). rewrite S4 in Ek. rewrite S5. by apply Hi.
  - intros pid Hd. destruct (pi_dead _ _ _ _ Hi pid Hd) as [? Hu]. split; [done|]. intros j. rewrite Hpid. intros E. specialize (Hu j E). rewrite Hst; [done|congruence].
  - intros t' Ha. rewrite Hci. apply Hal in Ha. pose proof (pi_count _ _ _ _ Hi t' Ha).
    assert (waiters P' t' <= waiters P t')%nat; [|lia]. apply waiters_mono; [done|]. intros j [Es Hk]%waits_for_iff.
    apply Hs in Es as [Hj Es]; [|done]. apply waits_for_iff.
    destruct (Hsame j Hj) as (S1 & S2 & S3 & S4 & S5 & S6 & S7). by rewrite <- S5.
Qed.

(** A zombie is freed. *)
Lemma inv_reap P P' np i0 cur z : proc_inv P np i0 cur -> p_state (P z) = ZOMBIE ->
  (forall j, (NPROC <= j)%nat -> P' j = zero_proc) ->
  (forall j, j <> z -> same_core (P' j) (P j)) ->
  p_state (P' z) = UNUSED -> p_pid (P' z) = 0 -> p_parent (P' z) = None ->
  p_cur_index (P' z) = p_cur_index (P z) -> proc_inv P' np i0 cur.
Proof.
  intros Hi Hz Hr Hsame E1 E2 E3 E4.
  assert (Hs : forall j, j <> z -> p_state (P' j) = p_state (P j)) by (intros j Hj; by destruct (Hsame j Hj)).
  assert (Hal : forall j, alive (P j) -> alive (P' j)).
  { intros j [H1 H2]. assert (j <> z) by congruence. unfold alive. by rewrite Hs. }
  assert (Hpid : forall j, j <> z -> p_pid (P' j) = p_pid (P j)).
  { intros j Hj. by destruct (Hsame j Hj) as (_ & ? & _). }
  assert (Hpar : forall j k, p_parent (P' j) = Some k -> j <> z /\ p_parent (P j) = Some k).
  { intros j k E. assert (Hj : j <> z) by congruence. split; [done|]. by destruct (Hsame j Hj) as (_ & _ & <- & _). }
  assert (Hst : forall j st, p_state (P' j) = st -> st <> UNUSED -> j <> z /\ p_state (P j) = st).
  { intros j st E Hne. assert (j <> z) by congruence. split; [done|]. by rewrite <- Hs. }
  split; try done.
  - intros j. rewrite <- (pi_running _ _ _ _ Hi). destruct (decide (j = z)) as [->|Hj]; [|by rewrite Hs].
    rewrite E1, Hz. done.
  - apply Hi.
  - intros j. rewrite <- (pi_embryo _ _ _ _ Hi). destruct (decide (j = z)) as [->|Hj]; [|by rewrite Hs]. split; congruence.
  - apply Hi.
  - intros j n En. pose proof (pi_forker _ _ _ _ Hi j n En) as Hf. assert (Hj : j <> z) by (intros ->; destruct Hf as [|[? _]]; congruence).
    destruct (Hsame j Hj) as (-> & _ & _ & _ & -> & _). done.
  - intros j Hne. destruct (decide (j = z)) as [->|Hj]; [done|]. rewrite Hpid by done. apply Hi. by rewrite <- Hs.
  - intros j. destruct (decide (j = z)) as [->|Hj]; [|rewrite Hpid by done; apply Hi].
    pose proof (pi_pid_lt _ _ _ _ Hi z). lia.
  - intros j k E Hne. assert (j <> z) by congruence. assert (k <> z) by congruence.
    rewrite !Hpid in E by done. rewrite Hpid in Hne by done. by apply (pi_pid_inj _ _ _ _ Hi).
  - apply Hal, Hi.
  - apply Hi.
  - destruct (decide (i0 = z)) as [->|Hj]; [done|]. destruct (Hsame i0 Hj) as (_ & _ & -> & _). apply Hi.
  - intros j E. apply Hpar in E as [_ E]. by apply Hi in E.
  - intros j E. destruct (decide (j = z)) as [->|Hj]; [done|]. destruct (Hsame j Hj) as (S1 & _ & -> & _). rewrite S1 in E. by apply Hi.
  - intros j k E. apply Hpar in E as [_ E]. by apply Hal, (pi_parent _ _ _ _ Hi j).
  - intros j k l E. apply Hpar in E as [_ E]. by apply (pi_parent_born _ _ _ _ Hi j).
  - intros j st E Ek. apply Hst in E as [Hj E]; [|done].
    destruct (Hsame j Hj) as (S1 & S2 & S3 & S4 & S5 & S6 & S7). rewrite S5 in Ek. rewrite S4, S6.
    destruct (pi_wait _ _ _ _ Hi j st E Ek) as (W1 & W2 & (k & W3) & W4).
    split; [done|]. split; [done|]. split.
    + exists k. assert (Hk : k <> z) by (intros ->; by apply (W4 z)). by destruct (Hsame k Hk) as (_ & _ & -> & _).
    + intros k' Hk' Ez. apply Hst in Ez as [_ Ez]; [|done]. apply Hpar in Hk' as [_ Hk']. by apply (W4 k').
  - intros j pid st o t' E Ek. apply Hst in E as [Hj E]; [|done].
    destruct (Hsame j Hj) as (S1 & S2 & S3 & S4 & S5 & S6 & S7). rewrite S5 in Ek. rewrite S4.
    destruct (pi_waitpid _ _ _ _ Hi j pid st o t' E Ek) as (W1 & W2). split; [done|]. destruct W2 as [[W2 W3]|W2]; [left|by right].
    assert (t' <> z) by (intros ->; by destruct W3). rewrite Hpid by done. split; [done|]. by apply Hal.
  - intros j t' E Ek. apply Hst in E as [Hj E]; [|done].
    destruct (Hsame j Hj) as (S1 & S2 & S3 & S4 & S5 & S6 & S7). rewrite S4 in Ek. rewrite S5. by apply Hi.
  - intros pid Hd. destruct (pi_dead _ _ _ _ Hi pid Hd) as [? Hu]. split; [done|]. intros j E. destruct (decide (j = z)) as [->|Hj]; [done|]. rewrite Hs by done. apply Hu. by rewrite <- Hpid.
  - intros t' [Ha1 Ha2]. assert (Ht : t' <> z) by congruence. rewrite Hs in Ha1, Ha2 by done. destruct (Hsame t' Ht) as (_ & _ & _ & _ & _ & _ & ->). pose proof (pi_count _ _ _ _ Hi t' (conj Ha1 Ha2)).
    assert (waiters P' t' <= waiters P t')%nat; [|lia]. apply waiters_mono; [by apply Hpid|]. intros j [Es Hk]%waits_for_iff.
    apply Hst in Es as [Hj Es]; [|done]. apply waits_for_iff.
    destruct (Hsame j Hj) as (S1 & S2 & S3 & S4 & S5 & S6 & S7). by rewrite <- S5.
Qed.

(** [kill] of slot [k]. *)
Lemma inv_kill P P' np i0 cur k : proc_inv P np i0 cur ->
  (forall j, (NPROC <= j)%nat -> P' j = zero_proc) ->
  (forall j, j <> k -> same_core (P' j) (P j)) ->
  maybe_woken (P k) (set_p_killed (p_killed (P k)) (P' k)) -> p_state (P' k) <> SLEEPING -> proc_inv P' np i0 cur.
Proof.
  intros Hi Hr Hsame Hw Hns.
  set (P1 := fun j => if decide (j = k) then set_p_killed (p_killed (P k)) (P' k) else P' j).
  assert (H1 : proc_inv P1 np i0 cur).
  { eapply inv_wake; [| |exact Hi]; unfold P1.
    - intros j. case_decide; [by subst|]. destruct (Hsame j) as (? & ? & ? & ? & ? & ? & ?); [done|].
      unfold maybe_woken. split_and!; try done. by left.
    - intros j Hj. case_decide; [subst|by apply Hr]. by rewrite Hr, (pi_range _ _ _ _ Hi k Hj). }
  eapply (inv_stay P1 P' np i0 cur k H1); unfold P1; rewrite ?decide_True by done; try done; [by right|].
  intros j Hj. by rewrite decide_False.
Qed.

(** What [exit] of process [i] does to another process: it may be woken, and a child of [i]
    becomes a child of init. *)
Definition exit_other (i i0 : nat) p q : Prop :=
  (p_state q = p_state p \/ (p_state p = SLEEPING /\ p_state q = RUNNABLE)) /\
  p_pid q = p_pid p /\ p_parent q = (if decide (p_parent p = Some i) then Some i0 else p_parent p) /\
  p_chan q = p_chan p /\ p_kont q = p_kont p /\ p_killed q = p_killed p /\ p_cur_index q = p_cur_index p.

(** Process [i] of CPU [c] exits: its parent, those who wait for it, and init if it
    inherits a zombie, are awake afterwards. *)
Lemma inv_exit P P' np i0 cur c i : proc_inv P np i0 cur -> cur c = Some i -> i <> i0 ->
  (forall j, (NPROC <= j)%nat -> P' j = zero_proc) ->
  (forall j, j <> i -> exit_other i i0 (P j) (P' j)) ->
  p_state (P' i) = ZOMBIE -> p_pid (P' i) = p_pid (P i) ->
  p_parent (P' i) = (if decide (p_parent (P i) = Some i) then Some i0 else p_parent (P i)) ->
  emb i = None ->
  (forall j, p_chan (P j) = parent_chan (p_parent (P i)) -> p_state (P' j) <> SLEEPING) ->
  (forall j, waits_for i (p_pid (P i)) (P j) = true -> p_state (P' j) <> SLEEPING) ->
  (forall j z, p_parent (P z) = Some i -> p_state (P z) = ZOMBIE -> p_chan (P j) = ch_proc i0 ->
     p_state (P' j) <> SLEEPING) ->
  proc_inv P' np i0 (upd cur c None).
Proof.
  intros Hi Hc Hne Hr Hoth E1 E2 E3 E4 Wp Wi Wz.
  assert (Hrun : p_state (P i) = RUNNING) by (apply (pi_running _ _ _ _ Hi); by exists c).
  assert (Hnot : forall j st, p_state (P' j) = st -> st <> RUNNABLE -> st <> ZOMBIE -> j <> i /\ p_state (P j) = st).
  { intros j st E Hn1 Hn2. assert (Hj : j <> i) by congruence. split; [done|].
    destruct (Hoth j Hj) as ([?|[_ ?]] & _); congruence. }
  assert (Hzo : forall j, p_state (P' j) = ZOMBIE -> j = i \/ p_state (P j) = ZOMBIE).
  { intros j E. destruct (decide (j = i)) as [->|Hj]; [by left|right].
    destruct (Hoth j Hj) as ([?|[_ ?]] & _); congruence. }
  assert (Hal : forall j, j <> i -> alive (P j) -> alive (P' j)).
  { intros j Hj [A1 A2]. unfold alive. destruct (Hoth j Hj) as ([-> |[_ ->]] & _); done. }
  assert (Hpid : forall j, p_pid (P' j) = p_pid (P j)).
  { intros j. destruct (decide (j = i)) as [->|Hj]; [done|]. by destruct (Hoth j Hj) as (_ & ? & _). }
  assert (Hpar : forall j, p_parent (P' j) = if decide (p_parent (P j) = Some i) then Some i0 else p_parent (P j)).
  { intros j. destruct (decide (j = i)) as [->|Hj]; [done|]. by destruct (Hoth j Hj) as (_ & _ & ? & _). }
  assert (Hi0 : alive (P' i0)) by (apply Hal; [done|apply Hi]).
  split; try done.
  - intros j. setoid_rewrite upd_none. destruct (decide (j = i)) as [->|Hj].
    + rewrite E1. split; [done|]. intros (c' & Hne' & E). by destruct (pi_cur _ _ _ _ Hi c' c i E Hc).
    + transitivity (p_state (P j) = RUNNING).
      * destruct (Hoth j Hj) as ([-> |[-> ->]] & _); done.
      * rewrite (pi_running _ _ _ _ Hi). split; [|naive_solver]. intros [c' E]. exists c'. split; [|done].
        intros ->. congruence.
  - intros c1 c2 j. rewrite !upd_none. intros [_ ?] [_ ?]. by eapply Hi.
  - intros j. rewrite <- (pi_embryo _ _ _ _ Hi). destruct (decide (j = i)) as [->|Hj]; [split; congruence|].
    destruct (Hoth j Hj) as ([-> |[-> ->]] & _); done.
  - apply Hi.
  - intros j n En. assert (Hj : j <> i) by congruence. destruct (pi_forker _ _ _ _ Hi j n En) as [E|[E ?]];
      destruct (Hoth j Hj) as ([S|[S _]] & _ & _ & _ & Sk & _); (congruence || (left; congruence) || (right; split; congruence)).
  - intros j Hnu. rewrite Hpid. destruct (decide (j = i)) as [->|Hj]; [apply Hi; congruence|].
    apply Hi. destruct (Hoth j Hj) as ([<- |[-> _]] & _); done.
  - intros j. rewrite Hpid. apply Hi.
  - intros j k. rewrite !Hpid. apply Hi.
  - apply Hi.
  - rewrite Hpar, (pi_init_parent _ _ _ _ Hi). done.
  - intros j. rewrite Hpar. destruct (decide (p_parent (P j) = Some i)) as [Hd|Hd]; [|apply Hi]. intros [= <-].
    by rewrite (pi_init_parent _ _ _ _ Hi) in Hd.
  - intros j E. rewrite Hpar, (pi_unused _ _ _ _ Hi j); [done|]. destruct E as [E|E]; apply Hnot in E as [_ E]; auto.
  - intros j k. rewrite Hpar. destruct (decide (p_parent (P j) = Some i)) as [Hd|Hd]; [by intros [= <-]|]. intros E.
    apply Hal; [congruence|]. by apply (pi_parent _ _ _ _ Hi j).
  - intros j k l. rewrite Hpar. destruct (decide (p_parent (P j) = Some i)) as [Hd|Hd]; [intros [= <-]|]; by apply Hi.
  - intros j st E' Ek. destruct (Hnot j SLEEPING E') as [Hj E]; [done..|].
    destruct (Hoth j Hj) as (S1 & _ & _ & S4 & S5 & S6 & _). rewrite S5 in Ek.
    destruct (pi_wait _ _ _ _ Hi j st E Ek) as (W1 & W2 & (k & W3) & W4). rewrite S4, S6.
    split; [done|]. split; [done|]. split.
    + exists k. rewrite Hpar, W3, decide_False by congruence. done.
    + intros k' Hk' Ez. rewrite Hpar in Hk'. apply Hzo in Ez as [->|Ez].
      * rewrite decide_False in Hk' by apply Hi. apply (Wp j); [|done]. by rewrite Hk', W1.
      * destruct (decide (p_parent (P k') = Some i)) as [Hd|Hd]; [|by apply (W4 k')]. injection Hk' as <-. by apply (Wz i0 k').
  - intros j pid st o t' E' Ek. destruct (Hnot j SLEEPING E') as [Hj E]; [done..|].
    destruct (Hoth j Hj) as (S1 & _ & _ & S4 & S5 & S6 & _). rewrite S5 in Ek. rewrite S4, Hpid.
    destruct (pi_waitpid _ _ _ _ Hi j pid st o t' E Ek) as (W1 & W2).
    split; [done|]. destruct W2 as [[W2 W3]|W2]; [left|by right]. split; [done|]. apply Hal; [|done]. intros ->. apply (Wi j); [|done].
    rewrite W2. apply waits_for_iff. eauto.
  - intros j t' E' Ek. destruct (Hnot j SLEEPING E') as [Hj E]; [done..|].
    destruct (Hoth j Hj) as (S1 & _ & _ & S4 & S5 & S6 & _). rewrite S4 in Ek. rewrite S5. by apply Hi.
  - intros pid Hd. destruct (pi_dead _ _ _ _ Hi pid Hd) as [? Hu]. split; [done|]. intros j. rewrite Hpid. intros E. specialize (Hu j E).
    assert (Hj : j <> i) by congruence. destruct (Hoth j Hj) as ([->|[? _]] & _); congruence.
  - intros t' Ha. assert (Ht : t' <> i) by (intros ->; by destruct Ha). assert (Ha' : alive (P t')).
    { unfold alive in *. destruct (Hoth t' Ht) as ([<- |[-> _]] & _); done. }
    destruct (Hoth t' Ht) as (_ & _ & _ & _ & _ & _ & ->). pose proof (pi_count _ _ _ _ Hi t' Ha').
    assert (waiters P' t' <= waiters P t')%nat; [|lia]. apply waiters_mono; [done|]. intros j [Es Hk]%waits_for_iff.
    destruct (Hnot j SLEEPING Es) as [Hj E]; [done..|]. apply waits_for_iff. by destruct (Hoth j Hj) as (S1 & _ & _ & S4 & <- & S6 & _).
Qed.
End invariant.

(** *** The steps of [fork] *)

(** What can become of the slot [n] in a fork: it is taken, or, when it has been filled in, it is given back or the child of [me] can run. *)
Definition slot_step (np np' : Z) (me : nat) p p' : Prop :=
  (p_state p = UNUSED /\ p_state p' = EMBRYO /\ p_pid p' = np /\ p_cur_index p' = 0 /\ p_parent p' = None /\ np' = np + 1) \/
  (p_state p = EMBRYO /\ p_pid p' = p_pid p /\ p_cur_index p' = p_cur_index p /\ np' = np /\
    ((p_state p' = UNUSED /\ p_parent p' = None) \/ (p_state p' = RUNNABLE /\ p_parent p' = Some me))).

Section slots.
Context (emb emb' : nat -> option nat) (dead dead' : list Z) (P P' : nat -> proc) (np np' : Z) (i0 : nat) (cur : nat -> option nat) (n me : nat).
Hypothesis Hi : proc_inv (emb := emb) (dead := dead) P np i0 cur.
Hypothesis Hme : p_state (P me) = RUNNING.
Hypothesis Hr : forall j, (NPROC <= j)%nat -> P' j = zero_proc.
Hypothesis Hsame : forall j, j <> n -> same_core (P' j) (P j).
Hypothesis Hslot : slot_step np np' me (P n) (P' n).
Hypothesis Hembryo : forall j, p_state (P' j) = EMBRYO <-> exists i, emb' i = Some j.
Hypothesis Howner : forall i j m, emb' i = Some m -> emb' j = Some m -> i = j.
Hypothesis Hforker : forall i m, emb' i = Some m -> i = me \/ exists m', emb i = Some m'.
Hypothesis Hdead : forall pid, pid ∈ dead' <-> pid ∈ dead \/ (pid = p_pid (P n) /\ p_state (P n) = EMBRYO /\ p_state (P' n) = UNUSED).

Lemma slot_unborn : p_state (P n) = UNUSED \/ p_state (P n) = EMBRYO.
Proof. destruct Hslot as [(? & _)|(? & _)]; auto. Qed.

Lemma slot_me : me <> n.
Proof. intros E. rewrite E in Hme. destruct slot_unborn; congruence. Qed.

Lemma slot_state j : j <> n -> p_state (P' j) = p_state (P j).
Proof. intros Hj. by destruct (Hsame j Hj). Qed.

Lemma slot_pid j : j <> n -> p_pid (P' j) = p_pid (P j).
Proof. intros Hj. by destruct (Hsame j Hj) as (_ & ? & _). Qed.

Lemma slot_parent j k : p_parent (P' j) = Some k -> (j = n /\ k = me) \/ (j <> n /\ p_parent (P j) = Some k).
Proof.
  intros E. destruct (decide (j = n)) as [->|Hj]; [left; split; [done|]|right; split; [done|by destruct (Hsame j Hj) as (_ & _ & <- & _)]].
  destruct Hslot as [(_ & _ & _ & _ & ? & _)|(_ & _ & _ & _ & [[_ ?]|[_ ?]])]; congruence.
Qed.

Lemma slot_asleep j st : p_state (P' j) = st -> st = SLEEPING \/ st = ZOMBIE \/ st = RUNNING -> j <> n /\ p_state (P j) = st.
Proof.
  intros E Hst. assert (Hj : j <> n).
  { intros ->. destruct Hslot as [(_ & ? & _)|(_ & _ & _ & _ & [[? _]|[? _]])]; destruct Hst as [->|[->| ->]]; congruence. }
  split; [done|]. by rewrite <- slot_state.
Qed.

Lemma slot_alive j : alive (P j) -> alive (P' j) \/ (j = n /\ p_state (P n) = EMBRYO /\ p_state (P' n) = UNUSED).
Proof.
  unfold alive. intros [H1 H2]. destruct (decide (j = n)) as [->|Hj]; [|left; by rewrite slot_state].
  destruct Hslot as [(? & _)|(? & _ & _ & _ & [[? _]|[-> _]])]; [done|right; done|by left].
Qed.

(** Any process that has a parent or was not a new one is as alive as before. *)
Lemma slot_alive_ne j : j <> n -> alive (P j) -> alive (P' j).
Proof. intros Hj Ha. destruct (slot_alive j Ha) as [|[? _]]; done. Qed.

Lemma slot_pid_fresh : p_pid (P' n) = p_pid (P n) \/ (p_pid (P' n) = np /\ p_state (P' n) = EMBRYO /\ p_state (P n) = UNUSED).
Proof. destruct Hslot as [(? & ? & ? & _)|(_ & ? & _)]; auto. Qed.

Lemma slot_pids : 0 < np /\ np <= np' /\ (forall j, 0 <= p_pid (P' j) < np') /\ (forall j, p_state (P' j) <> UNUSED -> 0 < p_pid (P' j)) /\
  (forall i j, p_pid (P' i) = p_pid (P' j) -> p_pid (P' i) <> 0 -> i = j).
Proof.
  assert (Hnp : 0 < np) by (pose proof (pi_pid_lt _ _ _ _ Hi me); lia). assert (Hle : np <= np') by (destruct Hslot as [(_ & _ & _ & _ & _ & ->)|(_ & _ & _ & -> & _)]; lia).
  assert (Hlt : forall j, j <> n -> p_pid (P' j) <> np) by (intros j Hj; rewrite slot_pid by done; pose proof (pi_pid_lt _ _ _ _ Hi j); lia).
  assert (Hn : 0 <= p_pid (P' n) < np' /\ (p_state (P' n) <> UNUSED -> 0 < p_pid (P' n))).
  { destruct Hslot as [(_ & _ & -> & _ & _ & ->)|(E & -> & _ & -> & _)]; [lia|]. split; [apply Hi|]. intros _. apply Hi. congruence. }
  split_and!; try done.
  - intros j. destruct (decide (j = n)) as [->|Hj]; [apply Hn|]. rewrite slot_pid by done. pose proof (pi_pid_lt _ _ _ _ Hi j). lia.
  - intros j Hu. destruct (decide (j = n)) as [->|Hj]; [by apply Hn|]. rewrite slot_pid by done. apply Hi. by rewrite <- slot_state.
  - intros i j E Hz. destruct (decide (i = n)) as [->|Hin], (decide (j = n)) as [->|Hjn]; [done|..].
    + destruct slot_pid_fresh as [Ep|(Ep & _)]; [|by destruct (Hlt j Hjn); congruence]. apply Hi; [rewrite <- (slot_pid j) by done|]; congruence.
    + destruct slot_pid_fresh as [Ep|(Ep & _)]; [|by destruct (Hlt i Hin); congruence]. apply Hi; [rewrite <- (slot_pid i) by done; congruence|]. rewrite slot_pid in Hz by done. done.
    + rewrite !slot_pid in E by done. rewrite slot_pid in Hz by done. by apply Hi.
Qed.

Lemma slot_waitpid i pid st o t : p_state (P' i) = SLEEPING -> p_kont (P' i) = KWaitpid pid st o t ->
  p_chan (P' i) = ch_proc t /\ ((p_pid (P' t) = pid /\ alive (P' t)) \/ pid ∈ dead').
Proof.
  intros E Ek. apply slot_asleep in E as [Hj E]; [|auto]. destruct (Hsame i Hj) as (_ & _ & _ & S4 & S5 & _). rewrite S5 in Ek. rewrite S4, Hdead.
  destruct (pi_waitpid _ _ _ _ Hi i pid st o t E Ek) as (W1 & W2). split; [done|]. destruct W2 as [[W2 W3]|W2]; [|by right; left].
  destruct (slot_alive t W3) as [Ha|(-> & E1 & E2)]; [left|right; right; split; [done|auto]]. split; [|done].
  destruct (decide (t = n)) as [->|Ht]; [|by rewrite slot_pid]. destruct slot_pid_fresh as [->|(_ & _ & ?)]; [done|]. by destruct W3.
Qed.

Lemma slot_count t : alive (P' t) -> Z.of_nat (waiters P' t) <= p_cur_index (P' t).
Proof.
  intros Ha. assert (Hw : forall pid j, waits_for t pid (P' j) = true -> waits_for t pid (P j) = true).
  { intros pid j [Es Hk]%waits_for_iff. apply slot_asleep in Es as [Hj Es]; [|auto]. apply waits_for_iff. destruct (Hsame j Hj) as (_ & _ & _ & _ & <- & _). done. }
  assert (Hold : p_pid (P' t) = p_pid (P t) -> p_cur_index (P' t) = p_cur_index (P t) -> alive (P t) -> Z.of_nat (waiters P' t) <= p_cur_index (P' t)).
  { intros Ep -> Hal. pose proof (pi_count _ _ _ _ Hi t Hal). assert (waiters P' t <= waiters P t)%nat by (apply waiters_mono; [done|apply Hw]). lia. }
  destruct (decide (t = n)) as [->|Ht].
  - destruct Hslot as [(_ & _ & Ep & Ec & _)|(E & Ep & Ec & _)]; [|apply Hold; [done..|split; congruence]].
    rewrite Ec, waiters_none; [done|]. intros j. rewrite Ep. destruct (waits_for n np (P' j)) eqn:Ew; [exfalso|done].
    apply Hw, waits_for_iff in Ew as (Es & st & o & Ek). destruct (pi_waitpid _ _ _ _ Hi j np st o n Es Ek) as (_ & [[E _]|E]).
    + pose proof (pi_pid_lt _ _ _ _ Hi n). lia.
    + pose proof (pi_dead _ _ _ _ Hi np E). lia.
  - apply Hold; [by apply slot_pid|by destruct (Hsame t Ht) as (_ & _ & _ & _ & _ & _ & ?)|]. unfold alive in *. by rewrite slot_state in Ha.
Qed.

Lemma slot_wait i st : p_state (P' i) = SLEEPING -> p_kont (P' i) = KWait st -> p_chan (P' i) = ch_proc i /\ p_killed (P' i) = 0 /\
  (exists j, p_parent (P' j) = Some i) /\ forall j, p_parent (P' j) = Some i -> p_state (P' j) <> ZOMBIE.
Proof.
  intros E Ek. apply slot_asleep in E as [Hj E]; [|auto]. destruct (Hsame i Hj) as (_ & _ & _ & S4 & S5 & S6 & _). rewrite S5 in Ek. rewrite S4, S6.
  destruct (pi_wait _ _ _ _ Hi i st E Ek) as (W1 & W2 & (k & W3) & W4). split; [done|]. split; [done|]. split.
  - exists k. assert (Hk : k <> n) by (intros ->; rewrite (pi_unused _ _ _ _ Hi n slot_unborn) in W3; done). by destruct (Hsame k Hk) as (_ & _ & -> & _).
  - intros k' Hk' Ez. apply slot_asleep in Ez as [Hkn Ez]; [|auto]. apply slot_parent in Hk' as [[? _]|[_ Hk']]; [done|]. by apply (W4 k').
Qed.

Lemma inv_slot : proc_inv (emb := emb') (dead := dead') P' np' i0 cur.
Proof.
  destruct slot_pids as (Hnp & Hle & HpA & HpB & HpC). pose proof slot_me as Hmn.
  assert (Hborn : forall k, alive (P k) -> (forall l, emb l <> Some k) -> k <> n).
  { intros k [Hu _] Hno ->. destruct slot_unborn as [|E]; [done|]. apply (pi_embryo _ _ _ _ Hi) in E as [l E]. by apply Hno in E. }
  assert (Hi0 : i0 <> n) by (apply Hborn; apply Hi).
  assert (Hpb : forall j k, p_parent (P' j) = Some k -> k <> n /\ alive (P k)).
  { intros j k [[-> ->]|[_ E]]%slot_parent; [split; [done|split; congruence]|]. pose proof (pi_parent _ _ _ _ Hi j k E) as Ha. split; [|done]. apply Hborn; [done|]. intros l. by apply (pi_parent_born _ _ _ _ Hi j). }
  assert (Hnb : forall k l, k <> n -> p_state (P k) <> EMBRYO -> emb' l <> Some k).
  { intros k l Hk He E. apply He. rewrite <- slot_state by done. apply Hembryo. by exists l. }
  assert (Hne : forall k, (forall l, emb l <> Some k) -> p_state (P k) <> EMBRYO) by (intros k Hno [l E]%(pi_embryo _ _ _ _ Hi); by apply Hno in E).
  split; try done.
  - intros j. rewrite <- (pi_running _ _ _ _ Hi). destruct (decide (j = n)) as [->|Hj]; [|by rewrite slot_state]. split; intros E; [apply slot_asleep in E as [? _]; by auto|destruct slot_unborn; congruence].
  - apply Hi.
  - intros i m E. destruct (Hforker i m E) as [->|(m' & E')]; [left; by rewrite slot_state|]. pose proof (pi_forker _ _ _ _ Hi i m' E') as Hf.
    assert (Hj : i <> n) by (intros ->; destruct slot_unborn, Hf as [|[? _]]; congruence). destruct (Hsame i Hj) as (-> & _ & _ & _ & -> & _). done.
  - apply slot_alive_ne; [done|apply Hi].
  - intros l. apply Hnb; [done|]. apply Hne, Hi.
  - destruct (Hsame i0 Hi0) as (_ & _ & -> & _). apply Hi.
  - intros j [[-> E]|[_ E]]%slot_parent; [done|by apply Hi in E].
  - intros j E. destruct (decide (j = n)) as [->|Hj]; [destruct Hslot as [(_ & _ & _ & _ & ? & _)|(_ & _ & _ & _ & [[_ ?]|[? _]])]; [done|done|destruct E; congruence]|].
    destruct (Hsame j Hj) as (S1 & _ & -> & _). rewrite S1 in E. by apply Hi.
  - intros j k E. destruct (Hpb j k E). by apply slot_alive_ne.
  - intros j k l E. destruct (Hpb j k E) as [Hk _]. apply Hnb; [done|]. apply slot_parent in E as [[_ ->]|[_ E]]; [congruence|]. apply Hne. intros l'. by apply (pi_parent_born _ _ _ _ Hi j).
  - apply slot_wait.
  - apply slot_waitpid.
  - intros j t E Ek. apply slot_asleep in E as [Hj E]; [|auto]. destruct (Hsame j Hj) as (_ & _ & _ & S4 & S5 & _). rewrite S4 in Ek. rewrite S5. by apply Hi.
  - intros pid. rewrite Hdead. intros [Hd|(-> & E1 & E2)].
    + destruct (pi_dead _ _ _ _ Hi pid Hd) as [? Hu]. split; [lia|]. intros j E. destruct (decide (j = n)) as [->|Hj]; [|rewrite slot_state by done; apply Hu; by rewrite <- slot_pid].
      destruct slot_pid_fresh as [Ep|(Ep & _)]; [|lia]. rewrite Ep in E. pose proof (Hu n E). destruct Hslot as [(_ & ? & Ep' & _)|(? & _)]; [|congruence]. lia.
    + split; [split; [apply Hi; congruence|pose proof (pi_pid_lt _ _ _ _ Hi n); lia]|]. intros j E. destruct (decide (j = n)) as [->|Hj]; [done|]. rewrite slot_pid in E by done.
      destruct Hj. apply Hi; [done|]. pose proof (pi_pid _ _ _ _ Hi n ltac:(congruence)). lia.
  - apply slot_count.
Qed.
End slots.

(** Process [me] takes the free slot [n]. *)
Lemma inv_take emb dead P P' np i0 cur n me : proc_inv (emb := emb) (dead := dead) P np i0 cur -> p_state (P n) = UNUSED -> p_state (P me) = RUNNING -> emb me = None ->
  (forall j, (NPROC <= j)%nat -> P' j = zero_proc) -> (forall j, j <> n -> same_core (P' j) (P j)) ->
  p_state (P' n) = EMBRYO -> p_pid (P' n) = np -> p_cur_index (P' n) = 0 -> p_parent (P' n) = None ->
  proc_inv (emb := upd emb me (Some n)) (dead := dead) P' (np + 1) i0 cur.
Proof.
  intros Hi Hn Hme Hem Hr Hsame E1 E2 E3 E4.
  assert (Hno : forall j, emb j <> Some n) by (intros j E; assert (p_state (P n) = EMBRYO) by (apply (pi_embryo _ _ _ _ Hi); by exists j); congruence).
  apply (inv_slot emb _ dead dead P P' np (np + 1) i0 cur n me Hi Hme Hr Hsame); [by left| | | |].
  - intros j. destruct (decide (j = n)) as [->|Hj]; [split; [|done]; intros _; exists me; apply upd_eq|].
    destruct (Hsame j Hj) as (-> & _). rewrite (pi_embryo _ _ _ _ Hi). split; intros [k E]; exists k; unfold upd in *; case_decide; congruence.
  - intros i j m. unfold upd. case_decide as Ei; case_decide as Ej; [congruence|..]; intros F1 F2; [injection F1 as <-; by apply Hno in F2|injection F2 as <-; by apply Hno in F1|].
    by apply (pi_owner _ _ _ _ Hi i j m).
  - intros i m. unfold upd. case_decide; [by left|]. intros E. right. by exists m.
  - intros pid. split; [by left|]. intros [?|(_ & ? & _)]; [done|congruence].
Qed.

(** The fork of [me] ends: the slot is given back or the child can run. *)
Lemma inv_deliver emb dead dead' P P' np i0 cur n me : proc_inv (emb := emb) (dead := dead) P np i0 cur -> p_state (P me) = RUNNING -> emb me = Some n ->
  (forall j, (NPROC <= j)%nat -> P' j = zero_proc) -> (forall j, j <> n -> same_core (P' j) (P j)) ->
  p_pid (P' n) = p_pid (P n) -> p_cur_index (P' n) = p_cur_index (P n) ->
  (p_state (P' n) = UNUSED /\ p_parent (P' n) = None /\ dead' = p_pid (P n) :: dead) \/ (p_state (P' n) = RUNNABLE /\ p_parent (P' n) = Some me /\ dead' = dead) ->
  proc_inv (emb := upd emb me None) (dead := dead') P' np i0 cur.
Proof.
  intros Hi Hme Hem Hr Hsame E1 E2 E3. assert (Hn : p_state (P n) = EMBRYO) by (apply (pi_embryo _ _ _ _ Hi); by exists me).
  apply (inv_slot emb _ dead dead' P P' np np i0 cur n me Hi Hme Hr Hsame).
  - right. split_and!; try done. destruct E3 as [(? & ? & _)|(? & ? & _)]; auto.
  - intros j. destruct (decide (j = n)) as [->|Hj].
    + split; [destruct E3 as [(? & _)|(? & _)]; congruence|]. intros [k E]. unfold upd in E. case_decide as Hk; [done|]. by destruct (pi_owner _ _ _ _ Hi k me n E Hem).
    + destruct (Hsame j Hj) as (-> & _). rewrite (pi_embryo _ _ _ _ Hi). split; intros [k E]; exists k; unfold upd in *; case_decide; congruence.
  - intros i j m. unfold upd. case_decide; case_decide; try done. by apply (pi_owner _ _ _ _ Hi i j m).
  - intros i m. unfold upd. case_decide; [done|]. intros E. right. by exists m.
  - intros pid. destruct E3 as [(E3 & _ & ->)|(E3 & _ & ->)].
    + rewrite elem_of_cons. split; [intros [->|?]; [by right|by left]|intros [?|(-> & _)]; auto].
    + split; [by left|]. intros [?|(_ & _ & ?)]; [done|congruence].
Qed.
End system.

Arguments sys_inv {F} emb dead s cur.
