(* ===== verification/ProcSafe.v ===== *)
(** * Safety of the process table

    Every operation of proc.c and every stage of [fork] keeps the invariant of ProcSys.v,
    hence every reachable state of the system satisfies it: no lost wakeups in [wait], none in
    [waitpid] but for a fork that fails, distinct pids, one CPU per running process.  The last
    part runs the system. *)

From S2P Require Import Prelude CString Mmu Kalloc Vm VmSpec Spinlock Proc ProcSpec ProcSys.

#[local] Opaque table NPROC.

Section steps.
Context {F : Type} `{FO : FileOps F} `{AS : AddrSpace}.
Implicit Types (s : pst F) (p : proc).

(** ** Reasoning about runs of proc.c *)

Lemma at_set_k k s j : proc_at (set_s_k k s) j = proc_at s j. Proof. done. Qed.
Lemma at_set_fs f s j : proc_at (set_s_fs f s) j = proc_at s j. Proof. done. Qed.
Lemma at_set_held l s j : proc_at (set_s_held l s) j = proc_at s j. Proof. done. Qed.
Lemma at_set_cur v s j : proc_at (set_s_cur v s) j = proc_at s j. Proof. done. Qed.
Lemma at_set_cr3 v s j : proc_at (set_s_cr3 v s) j = proc_at s j. Proof. done. Qed.
Lemma at_set_tss v s j : proc_at (set_s_tss v s) j = proc_at s j. Proof. done. Qed.
Lemma at_set_nextpid v s j : proc_at (set_s_nextpid v s) j = proc_at s j. Proof. done. Qed.
Lemma at_set_first v s j : proc_at (set_s_first v s) j = proc_at s j. Proof. done. Qed.

Lemma at_upd s i f j : table_ok s -> (i < NPROC)%nat ->
  proc_at (upd_proc i f s) j = if decide (i = j) then f (proc_at s i) else proc_at s j.
Proof. intros Ht Hi. apply proc_at_upd. unfold table_ok in Ht. lia. Qed.

Lemma at_upd_eq s i f : table_ok s -> (i < NPROC)%nat -> proc_at (upd_proc i f s) i = f (proc_at s i).
Proof. intros Ht Hi. by rewrite at_upd, decide_True. Qed.

Lemma at_upd_ne s i f j : j <> i -> proc_at (upd_proc i f s) j = proc_at s j.
Proof.
  intros Hj. unfold proc_at, upd_proc. simpl. rewrite !nth_lookup. by rewrite list_lookup_alter_ne.
Qed.

Lemma ok_upd s i f : table_ok s -> table_ok (upd_proc i f s).
Proof. by rewrite table_ok_upd. Qed.

Lemma table_out s j : table_ok s -> (NPROC <= j)%nat -> proc_at s j = zero_proc.
Proof. intros Ht Hj. apply proc_at_out. by rewrite Ht. Qed.

Lemma not_unused_in s i : table_ok s -> p_state (proc_at s i) <> UNUSED -> (i < NPROC)%nat.
Proof.
  intros Ht Hne. destruct (decide (i < NPROC)%nat); [done|]. rewrite table_out in Hne by (done || lia). done.
Qed.

Lemma post_lift_k {A} (m : K kstate A) s Q B :
  (forall a k, Q a (set_s_k k s)) -> (forall k, B (set_s_k k s)) -> post (lift_k m) s Q B.
Proof. intros HQ HB. unfold post, lift_k. by destruct (m (s_k s)). Qed.

Lemma post_lift_f {A} (m : K (F * kstate) A) s Q B :
  (forall a f k, Q a (set_s_k k (set_s_fs f s))) -> (forall f k, B (set_s_k k (set_s_fs f s))) -> post (lift_f m) s Q B.
Proof. intros HQ HB. unfold post, lift_f. by destruct (m (s_fs s, s_k s)) as [? []|? []|? []|]. Qed.

Lemma post_setp i f s (Q : unit -> pst F -> Prop) B : Q tt (upd_proc i f s) -> post (setp i f) s Q B.
Proof. done. Qed.

Lemma post_getp {A} i (f : proc -> A) s Q B : Q (f (proc_at s i)) s -> post (getp i f) s Q B.
Proof. done. Qed.

Lemma post_acquire lk s (Q : unit -> pst F -> Prop) B :
  Q tt (set_s_held (lk :: held s) s) -> post (acquire lk) s Q B.
Proof. intros HQ. unfold post, acquire, kbind, kget. by case_decide. Qed.

Lemma post_release lk s (Q : unit -> pst F -> Prop) B :
  Q tt (set_s_held (remove_lock lk (held s)) s) -> post (release lk) s Q B.
Proof. intros HQ. unfold post, release, kbind, kget. by case_decide. Qed.

Lemma post_myproc i s Q B : s_cur s = Some i -> Q i s -> post myproc s Q B.
Proof. intros E HQ. unfold post, myproc, kbind, kget. by rewrite E. Qed.

(** [sched] only ever gives up the CPU, with the continuation saved. *)
Lemma post_sched {A} k i s (Q : A -> pst F -> Prop) B : s_cur s = Some i ->
  B (upd_proc i (set_p_kont k) s) -> post (sched k) s Q B.
Proof.
  intros E HB. unfold sched. apply post_bind, post_get. case_match; [apply post_panic|].
  case_match; [apply post_panic|]. apply post_bind. eapply post_myproc; [done|].
  apply post_bind, post_getp. case_match; [apply post_panic|]. case_match; [apply post_panic|].
  by apply post_bind, post_setp.
Qed.

Lemma post_sleep {A} ch lk k i s (Q : A -> pst F -> Prop) B : s_cur s = Some i ->
  (forall s', s_procs s' = s_procs s -> s_nextpid s' = s_nextpid s -> s_initproc s' = s_initproc s ->
    B (upd_proc i (set_p_kont k) (upd_proc i (set_p_state SLEEPING) (upd_proc i (set_p_chan ch) s')))) ->
  post (sleep ch lk k) s Q B.
Proof.
  intros E HB. unfold sleep. apply post_bind, post_get. rewrite E. apply post_bind.
  assert (Hk : forall s', s_procs s' = s_procs s -> s_nextpid s' = s_nextpid s -> s_initproc s' = s_initproc s ->
    s_cur s' = s_cur s ->
    post (setp i (set_p_chan ch) ;;; setp i (set_p_state SLEEPING) ;;; sched k) s' Q B).
  { intros s' E1 E2 E3 E4. apply post_bind, post_setp, post_bind, post_setp.
    apply (post_sched k i); [simpl; congruence|]. by apply HB. }
  case_match.
  - apply post_bind, post_acquire, post_release. by apply Hk.
  - apply post_ret. by apply Hk.
Qed.

Lemma post_vstore8 va v s (Q : unit -> pst F -> Prop) B :
  (forall k, Q tt (set_s_k k s)) -> (forall k, B (set_s_k k s)) -> post (vstore8 va v) s Q B.
Proof.
  intros HQ HB. unfold vstore8. apply post_bind, post_get, post_bind.
  apply post_lift_k; [|done]. intros pte k. case_match; [apply post_panic|]. apply post_bind.
  apply post_lift_k; [|by intros; apply HB]. intros e k'. case_match; [apply post_panic|].
  apply post_lift_k; [|by intros; apply HB]. intros [] k''. apply (HQ k'').
Qed.

Lemma post_put st v s (Q : unit -> pst F -> Prop) B :
  Q tt s -> (forall k, Q tt (set_s_k k s)) -> (forall k, B (set_s_k k s)) -> post (put_status st v) s Q B.
Proof.
  intros H0 HQ HB. unfold put_status. case_match; [|by apply post_ret]. unfold vstore32.
  repeat (apply post_bind, post_vstore8; [intros|intros; apply HB]).
  match goal with |- Q _ (set_s_k ?k _) => exact (HQ k) end.
Qed.
End steps.

#[export] Hint Rewrite @at_set_k @at_set_fs @at_set_held @at_set_cur @at_set_cr3 @at_set_tss
  @at_set_nextpid @at_set_first : xv6.
#[export] Hint Resolve ok_upd : xv6.

(** Reads a slot of a state built by updates: slot [i] with its bound in the
    context, or a slot different from the updated one. *)
Ltac at_simpl :=
  repeat (autorewrite with xv6 ||
          (rewrite at_upd_eq by (done || (repeat apply ok_upd; done))) ||
          (rewrite at_upd_ne by (done || congruence))); simpl.

Section ops.
Context {F : Type} `{FO : FileOps F} `{AS : AddrSpace}.
Variable kpgdir forkret_a trapret_a : Z.
Implicit Types (s : pst F) (p : proc).

Lemma sys_inv_emb emb emb' dead s cur : (forall i, emb' i = emb i) -> sys_inv emb dead s cur -> sys_inv emb' dead s cur.
Proof.
  intros E (Ht & i0 & Hi0 & Hi). split; [done|]. exists i0. split; [done|]. destruct Hi. split; try done.
  - intros n. rewrite pi_embryo. by setoid_rewrite E.
  - intros i j n. rewrite !E. apply pi_owner.
  - intros i n. rewrite E. apply pi_forker.
  - intros i. rewrite E. apply pi_init_born.
  - intros i j k. rewrite E. apply pi_parent_born.
Qed.

(** The slots that are being filled, by the process that does it, and the pids whose fork failed. *)
Section embryos.
Context (emb : nat -> option nat) (dead : list Z).
#[local] Abbreviation sys_inv := (ProcSys.sys_inv emb dead).
#[local] Abbreviation proc_inv := (ProcSys.proc_inv (emb := emb) (dead := dead)).

Lemma inv_cur_ext P np i0 cur cur' : (forall c, cur' c = cur c) -> proc_inv P np i0 cur -> proc_inv P np i0 cur'.
Proof.
  intros E Hi. destruct Hi. split; try done.
  - intros i. rewrite pi_running. by setoid_rewrite E.
  - intros c1 c2 i. rewrite !E. apply pi_cur.
Qed.

Lemma best_runnable s hp : runnable s hp = true -> runnable s (best (s_procs s) hp) = true.
Proof.
  intros Hr. destruct (best_fold (s_procs s) table hp) as [[E|[E _]] _].
  - unfold best. by rewrite E.
  - done.
Qed.

Lemma runnable_state s i : runnable s i = true -> p_state (proc_at s i) = RUNNABLE.
Proof. unfold runnable, st_is. by intros ?%bool_decide_eq_true. Qed.

(** The CPU has been given to [r], which was preempted if it is in a fork. *)
Definition switched_to (r : option nat) s : Prop :=
  (r <> None -> s_cur s = r) /\ forall hp n, r = Some hp -> emb hp = Some n -> p_kont (proc_at s hp) = KYield.

(** The scheduler hands CPU [c] to a RUNNABLE process or leaves it idle. *)
Lemma scheduler_from_inv q s cur c B : sys_inv s cur -> cur c = None ->
  post (scheduler_from q) s (fun r s' => sys_inv s' (upd cur c r) /\ switched_to r s') B.
Proof.
  intros (Ht & i0 & Hi0 & Hi) Hc. unfold scheduler_from. apply post_bind, post_get.
  destruct (find _ _) as [q'|] eqn:Ef.
  - apply List.find_some in Ef as [_ Hq]. pose proof (runnable_state _ _ (best_runnable s q' Hq)) as Hrun.
    set (hp := best (s_procs s) q') in *.
    assert (Hhp : (hp < NPROC)%nat) by (eapply not_unused_in; [done|congruence]).
    apply post_bind, post_mod, post_bind. unfold post. rewrite (switchuvm_eq hp hp) by done. destruct (_ =? 0); [done|].
    apply (post_bind (setp hp _)), post_setp, post_ret.
    split; [|split; [done|]].
    2: { intros hp' n' [= <-] En. rewrite at_upd, decide_True by done. simpl. destruct (pi_forker _ _ _ _ Hi hp n' En) as [|[_ ?]]; [congruence|done]. }
    split; [by apply ok_upd|]. exists i0. split; [done|].
    eapply (inv_run _ _ _ _ _ _ hp Hi Hc Hrun).
    + intros j Hj. by apply table_out; [apply ok_upd|].
    + intros j Hj. rewrite at_upd, decide_False by done. done.
    + by rewrite at_upd, decide_True.
    + by rewrite at_upd, decide_True.
    + by rewrite at_upd, decide_True.
    + by rewrite at_upd, decide_True.
  - apply post_bind, post_release, post_ret. split; [|done]. split; [done|]. exists i0. split; [done|].
    eapply inv_cur_ext; [|exact Hi]. intros c'. unfold upd. case_decide; [by subst|done].
Qed.

Lemma scheduler_return_inv i s cur c B : sys_inv s cur -> cur c = None ->
  post (scheduler_return kpgdir i) s (fun r s' => sys_inv s' (upd cur c r) /\ switched_to r s') B.
Proof.
  intros Hs Hc. unfold scheduler_return, switchkvm. apply post_bind, post_mod, post_bind, post_mod.
  by apply scheduler_from_inv.
Qed.

Section running.
Context (cur : nat -> option nat) (c i : nat).
Hypothesis Hcur : cur c = Some i.

(** The results of a segment of process [i]: it goes on running, or it left the CPU. *)
Definition stays s : Prop := sys_inv s cur.
Definition departs s : Prop := p_state (proc_at s i) <> RUNNING -> sys_inv s (upd cur c None).

Lemma inv_running s : sys_inv s cur -> p_state (proc_at s i) = RUNNING /\ (i < NPROC)%nat.
Proof.
  intros (Ht & i0 & _ & Hi). assert (E : p_state (proc_at s i) = RUNNING) by (apply (pi_running _ _ _ _ Hi); by exists c).
  split; [done|]. eapply not_unused_in; [done|congruence].
Qed.

(** A state with the same table. *)
Lemma sys_inv_tab s s' cur' : s_procs s' = s_procs s -> s_nextpid s' = s_nextpid s -> s_initproc s' = s_initproc s ->
  sys_inv s cur' -> sys_inv s' cur'.
Proof.
  intros E1 E2 E3 (Ht & i0 & Hi0 & Hi). split; [unfold table_ok; congruence|]. exists i0. split; [congruence|].
  rewrite E2. assert (E : proc_at s' = proc_at s) by (unfold proc_at; by rewrite E1). by rewrite E.
Qed.

(** Process [i] leaves the CPU ready to run, or asleep on a channel that is not a process. *)
Lemma depart s s' : sys_inv s cur -> table_ok s' -> s_nextpid s' = s_nextpid s -> s_initproc s' = s_initproc s ->
  (forall j, j <> i -> same_core (proc_at s' j) (proc_at s j)) ->
  p_pid (proc_at s' i) = p_pid (proc_at s i) -> p_parent (proc_at s' i) = p_parent (proc_at s i) ->
  p_cur_index (proc_at s' i) = p_cur_index (proc_at s i) ->
  p_state (proc_at s' i) = RUNNABLE \/
  (p_state (proc_at s' i) = SLEEPING /\ not_proc_chan (p_chan (proc_at s' i)) /\
   exists lk k, p_kont (proc_at s' i) = KSleep lk k) ->
  emb i = None \/ (p_state (proc_at s' i) = RUNNABLE /\ p_kont (proc_at s' i) = KYield) ->
  sys_inv s' (upd cur c None).
Proof.
  intros (Ht & i0 & Hi0 & Hi) Ht' En Ei Hsame E1 E2 E3 E4 Hfk. split; [done|]. exists i0. split; [congruence|].
  rewrite En. apply (inv_leave (proc_at s) _ _ _ cur c i Hi Hcur).
  - intros j Hj. by apply table_out.
  - intros j Hj. destruct (Hsame j Hj) as (? & ? & ? & ? & ? & ? & ?). done.
  - destruct E4 as [?|[? _]]; [by left|by right].
  - done.
  - done.
  - intros st Es Ek. destruct E4 as [?|(_ & _ & lk & k & ?)]; congruence.
  - intros pid st o t' Es Ek. destruct E4 as [?|(_ & _ & lk & k & ?)]; congruence.
  - done.
  - intros t' Es Ec. destruct E4 as [?|(_ & Hn & _)]; [congruence|]. by apply Hn in Ec.
  - intros t' Ha. assert (Hci : p_cur_index (proc_at s' t') = p_cur_index (proc_at s t') /\ p_pid (proc_at s' t') = p_pid (proc_at s t')).
    { destruct (decide (t' = i)) as [->|Hj]; [done|]. by destruct (Hsame t' Hj) as (_ & ? & _ & _ & _ & _ & ?). }
    destruct Hci as [-> Hci]. pose proof (pi_count _ _ _ _ Hi t' Ha).
    assert (waiters (proc_at s') t' <= waiters (proc_at s) t')%nat; [|lia].
    apply waiters_mono; [done|]. intros j [Es (st & o & Ek)]%waits_for_iff.
    destruct (decide (j = i)) as [->|Hj].
    + destruct E4 as [?|(_ & _ & lk & k & ?)]; congruence.
    + destruct (Hsame j Hj) as (S1 & _ & _ & _ & S5 & _). apply waits_for_iff. split; [congruence|].
      exists st, o. congruence.
Qed.

(** *** yield, setprio, sleep, wakeup, kill *)

Lemma yield_inv s : sys_inv s cur -> s_cur s = Some i -> post yield s (fun _ => stays) departs.
Proof.
  intros Hs Ec. destruct (inv_running s Hs) as [Hrun Hn]. pose proof Hs as (Ht & _).
  unfold yield. apply post_bind, post_acquire, post_bind. apply (post_myproc i); [done|].
  apply post_bind, post_setp. apply (post_sched _ i); [done|]. intros _.
  apply (depart s); try done; [by repeat apply ok_upd|intros j Hj|..]; at_simpl; try done; [by left|by right].
Qed.

Lemma setprio_inv prio s : emb i = None -> sys_inv s cur -> s_cur s = Some i -> post (setprio prio) s (fun _ => stays) departs.
Proof.
  intros He Hs Ec. destruct (inv_running s Hs) as [Hrun Hn]. pose proof Hs as (Ht & i0 & Hi0 & Hi).
  unfold setprio. apply post_bind, post_acquire, post_bind. apply (post_myproc i); [done|].
  apply post_bind, post_getp, post_bind. set (s1 := set_s_held _ s). unfold post.
  rewrite (for_first_find _ (fun p => p_pid p =? p_pid (proc_at s1 i)) (fun j p =>
    setp j (set_p_prio (clamp_prio prio)) ;;; setp j (set_p_state RUNNABLE) ;;; kret (Some tt))).
  2: { intros j s'. proc_simpl. by destruct (p_pid (proc_at s' j) =? _). }
  2: { done. }
  change (find _ table) with (first_slot (fun p => p_pid p =? p_pid (proc_at s1 i)) s1).
  pose proof (first_slot_spec (fun p => p_pid p =? p_pid (proc_at s1 i)) s1) as Hf.
  destruct (first_slot _ s1) as [j|].
  - destruct Hf as (Hj & Hj' & _). apply Z.eqb_eq in Hj.
    assert (j = i) as ->.
    { apply (pi_pid_inj _ _ _ _ Hi); [exact Hj|]. change (proc_at s1) with (proc_at s) in Hj. rewrite Hj.
      pose proof (pi_pid _ _ _ _ Hi i ltac:(congruence)). lia. }
    unfold kbind, setp, kmod, kret. apply (post_sched _ i); [done|]. intros _.
    apply (depart s); try done; [by repeat apply ok_upd|intros j Hj0|..]; at_simpl; try done; by left.
  - specialize (Hf i Hn). by rewrite Z.eqb_refl in Hf.
Qed.

Lemma opsleep_inv ch lk s : emb i = None -> sys_inv s cur -> s_cur s = Some i -> not_proc_chan ch ->
  post (acquire lk ;;; sleep (A := unit) ch lk (KSleep lk 0)) s (fun _ => stays) departs.
Proof.
  intros He Hs Ec Hch. destruct (inv_running s Hs) as [Hrun Hn]. pose proof Hs as (Ht & _).
  apply post_bind, post_acquire. apply (post_sleep _ _ _ i); [done|]. intros s' E1 E2 E3 _.
  assert (Ht' : table_ok s') by (unfold table_ok; rewrite E1; exact Ht).
  assert (Eat : forall j, proc_at s' j = proc_at s j) by (intros j; unfold proc_at; by rewrite E1).
  apply (depart s); try done; [by repeat apply ok_upd|intros j Hj|..]; at_simpl; rewrite ?Eat; try done.
  - right. split_and!; try done. by exists lk, 0%nat.
  - by left.
Qed.

Lemma wakeup1_maybe ch s j : maybe_woken (proc_at s j) (woken ch (proc_at s j)).
Proof.
  unfold maybe_woken. destruct (woken_fields ch (proc_at s j)) as (E1 & E2 & E3 & _ & E5 & _ & E7 & E8).
  split; [|done]. unfold woken, sleeps_on, st_is. case_match eqn:E; [|by left]. right.
  apply andb_prop in E as [E _]. by apply bool_decide_eq_true in E.
Qed.

Lemma at_fmap s (f : proc -> proc) j : f zero_proc = zero_proc ->
  proc_at (set_s_procs (f <$> s_procs s) s) j = f (proc_at s j).
Proof.
  intros Hz. unfold proc_at. simpl. rewrite !nth_lookup, list_lookup_fmap. by destruct (s_procs s !! j).
Qed.

Lemma wakeup_inv ch s B : sys_inv s cur -> post (wakeup ch) s (fun _ => stays) B.
Proof.
  intros (Ht & i0 & Hi0 & Hi). unfold wakeup. apply post_bind, post_acquire, post_bind.
  eapply post_eq; [by apply wakeup1_eq|]. apply post_release.
  apply (sys_inv_tab (set_s_procs (woken ch <$> s_procs s) s)); try done.
  assert (Ht' : table_ok (set_s_procs (woken ch <$> s_procs s) s)) by (unfold table_ok; simpl; by rewrite length_fmap).
  split; [done|]. exists i0. split; [done|].
  eapply inv_wake; [| |exact Hi].
  - intros j. rewrite at_fmap by done. apply wakeup1_maybe.
  - intros j Hj. by apply table_out.
Qed.

Lemma kill_inv pid s : sys_inv s cur -> held s = [] -> post (kill pid) s (fun _ => stays) departs.
Proof.
  intros Hs Hh. pose proof Hs as (Ht & i0 & Hi0 & Hi). unfold post. rewrite kill_eq by done.
  pose proof (first_slot_spec (fun p => p_pid p =? pid) s) as Hf.
  destruct (first_slot _ s) as [k|]; [|done]. destruct Hf as (_ & Hk & _).
  split; [by apply ok_upd|]. exists i0. split; [done|].
  eapply (inv_kill (proc_at s) _ _ _ _ k Hi).
  - intros j Hj. by apply table_out; [apply ok_upd|].
  - intros j Hj. by at_simpl.
  - at_simpl. unfold maybe_woken, st_is. case_match eqn:E; simpl; [|split_and!; try done; by left].
    apply bool_decide_eq_true in E. split_and!; try done. by right.
  - at_simpl. unfold st_is. case_match eqn:E; [done|]. by apply bool_decide_eq_false in E.
Qed.

(** *** wait and waitpid *)

(** While [i] is RUNNING a wait outside [sched] does not count. *)
Lemma departs_running s : p_state (proc_at s i) = RUNNING -> departs s.
Proof. intros E Hne. done. Qed.

Lemma reap_inv z st s : sys_inv s cur -> p_state (proc_at s z) = ZOMBIE ->
  post (reap z st) s (fun _ => stays) departs.
Proof.
  intros Hs Hz. destruct (inv_running s Hs) as [Hrun Hn]. pose proof Hs as (Ht & i0 & Hi0 & Hi).
  assert (Hzi : i <> z) by congruence.
  assert (Hzn : (z < NPROC)%nat) by (eapply not_unused_in; [done|congruence]).
  unfold reap. apply post_bind, post_getp, post_bind, post_getp, post_bind.
  apply post_lift_k; [intros _ k1|intros; by apply departs_running]. apply post_bind, post_setp, post_bind, post_getp, post_bind.
  apply post_lift_k; [intros _ k2|intros; apply departs_running; by at_simpl].
  do 5 (apply post_bind, post_setp). apply post_bind, post_getp, post_bind.
  assert (Hinv : forall k l, sys_inv (set_s_held l (set_s_k k (upd_proc z (set_p_killed 0) (upd_proc z (set_p_name "")
    (upd_proc z (set_p_parent None) (upd_proc z (set_p_pid 0) (upd_proc z (set_p_state UNUSED)
      (set_s_k k2 (upd_proc z (set_p_kstack 0) (set_s_k k1 s)))))))))) cur).
  { intros k l. match goal with |- sys_inv (set_s_held _ (set_s_k _ ?x)) _ => set (s1 := x) end.
    apply (sys_inv_tab s1); try done. split; [by repeat apply ok_upd|]. exists i0. split; [done|].
    apply (inv_reap (proc_at s) (proc_at s1) (s_nextpid s1) i0 cur z Hi Hz).
    - intros j Hj. apply table_out; [by repeat apply ok_upd|done].
    - intros j Hj. subst s1. at_simpl. done.
    - subst s1. by at_simpl.
    - subst s1. by at_simpl.
    - subst s1. by at_simpl.
    - subst s1. by at_simpl. }
  apply post_put.
  - apply post_bind, post_release, post_ret. apply Hinv.
  - intros k. apply post_bind, post_release, post_ret. apply Hinv.
  - intros k. apply departs_running. by at_simpl.
Qed.

(** The scan of [wait]: a result, or no zombie among the children. *)
Lemma wait_scan_inv st l : forall b s, sys_inv s cur ->
  post (wait_scan i st l b) s (fun r s' =>
    match r with
    | inl _ => stays s'
    | inr b' => s' = s /\
        (b' = true -> b = true \/ exists j, p_parent (proc_at s j) = Some i) /\
        forall j, j ∈ l -> p_parent (proc_at s j) = Some i -> p_state (proc_at s j) <> ZOMBIE
    end) departs.
Proof.
  induction l as [|j l IH]; intros b s Hs; simpl.
  - apply post_ret. split; [done|]. split; [by left|]. by intros j Hj%elem_of_nil.
  - apply post_bind, post_getp. case_match eqn:Ep.
    + apply negb_true_iff, bool_decide_eq_false in Ep. eapply post_conseq; [by apply IH| |done].
      intros [r|b'] s' Hr; [done|]. destruct Hr as (-> & Hb & Hz). split; [done|]. split; [done|].
      intros k [->|Hk]%elem_of_cons; [done|by apply Hz].
    + apply negb_false_iff, bool_decide_eq_true in Ep. case_match eqn:Ez.
      * unfold st_is in Ez. apply bool_decide_eq_true in Ez. apply post_bind.
        eapply post_conseq; [by apply reap_inv| |done]. intros a s' Hs'. by apply post_ret.
      * unfold st_is in Ez. apply bool_decide_eq_false in Ez. eapply post_conseq; [by apply IH| |done].
        intros [r|b'] s' Hr; [done|]. destruct Hr as (-> & Hb & Hz). split; [done|].
        split; [intros Hb'; right; by exists j|].
        intros k [->|Hk]%elem_of_cons; [done|by apply Hz].
Qed.

Lemma wait_loop_inv st s : emb i = None -> sys_inv s cur -> s_cur s = Some i -> post (wait_loop st) s (fun _ => stays) departs.
Proof.
  intros He Hs Ec. destruct (inv_running s Hs) as [Hrun Hn]. pose proof Hs as (Ht & i0 & Hi0 & Hi).
  unfold wait_loop. apply post_bind. apply (post_myproc i); [done|]. apply post_bind.
  eapply post_conseq; [by apply wait_scan_inv| |done]. intros [r|b] s' Hr; [by apply post_ret|].
  destruct Hr as (-> & Hb & Hz). apply post_bind, post_getp. case_match eqn:Ek.
  - apply post_bind, post_put.
    + apply post_bind, post_release, post_ret. by apply (sys_inv_tab s).
    + intros k. apply post_bind, post_release, post_ret. by apply (sys_inv_tab s).
    + intros k. by apply departs_running.
  - apply orb_false_elim in Ek as [Eb Ek]. apply negb_false_iff in Eb, Ek. subst b. apply Z.eqb_eq in Ek.
    destruct (Hb eq_refl) as [|(j & Hj)]; [done|].
    apply (post_sleep _ _ _ i); [done|]. intros s' E1 E2 E3 _.
    assert (Ht' : table_ok s') by (unfold table_ok; rewrite E1; exact Ht).
    assert (Eat : forall j, proc_at s' j = proc_at s j) by (intros k; unfold proc_at; by rewrite E1).
    split; [by repeat apply ok_upd|]. exists i0. split; [simpl; congruence|].
    simpl. rewrite E2. apply (inv_leave (proc_at s) _ _ _ cur c i Hi Hcur).
    + intros k Hk. by apply table_out; [repeat apply ok_upd|].
    + intros k Hk. at_simpl. by rewrite Eat.
    + at_simpl. by right.
    + at_simpl. by rewrite Eat.
    + at_simpl. by rewrite Eat.
    + intros st' _ _. at_simpl. rewrite Eat. split_and!; try done; [by exists j|]. intros k Hk. apply Hz; [|done].
      apply elem_of_table, (not_unused_in s); [done|]. intros Eu. by rewrite (pi_unused _ _ _ _ Hi k (or_introl Eu)) in Hk.
    + intros pid st' o t' _. at_simpl. done.
    + by left.
    + intros t' _. at_simpl. intros [= <-]. left. split; [done|]. by exists st.
    + intros t' Ha. assert (Hci : forall s1, s1 = upd_proc i (set_p_kont (KWait st)) (upd_proc i (set_p_state SLEEPING)
        (upd_proc i (set_p_chan (ch_proc i)) s')) -> p_cur_index (proc_at s1 t') = p_cur_index (proc_at s t') /\
        (waiters (proc_at s1) t' <= waiters (proc_at s) t')%nat).
      { intros s1 ->. split.
        - destruct (decide (t' = i)) as [->|Hti]; at_simpl; by rewrite Eat.
        - apply waiters_mono; [destruct (decide (t' = i)) as [->|Hti]; at_simpl; by rewrite Eat|].
          intros k. destruct (decide (k = i)) as [->|Hk]; at_simpl; rewrite Eat; [|done].
          intros [_ (? & ? & ?)]%waits_for_iff. done. }
      destruct (Hci _ eq_refl) as [-> Hle]. pose proof (pi_count _ _ _ _ Hi t' Ha). lia.
Qed.

(** Process [i] goes to sleep in [waitpid] on slot [t]. *)
Definition waitpid_asleep pid st o (t : nat) s : pst F :=
  upd_proc i (set_p_kont (KWaitpid pid st o t)) (upd_proc i (set_p_state SLEEPING) (upd_proc i (set_p_chan (ch_proc t))
    (upd_proc t (fun p => set_p_cur_index (p_cur_index p + 1) p) s))).

Lemma waitpid_sleep_inv pid st o t s : emb i = None -> sys_inv s cur -> p_pid (proc_at s t) = pid -> alive (proc_at s t) ->
  sys_inv (waitpid_asleep pid st o t s) (upd cur c None).
Proof.
  intros He Hs Hpid Hal. destruct (inv_running s Hs) as [Hrun Hn]. pose proof Hs as (Ht & i0 & Hi0 & Hi).
  assert (Htn : (t < NPROC)%nat) by (eapply not_unused_in; [done|apply Hal]).
  assert (Hok : table_ok (waitpid_asleep pid st o t s)) by by repeat apply ok_upd.
  set (P' := proc_at (waitpid_asleep pid st o t s)).
  assert (Hoth : forall k, k <> i -> same_but_count (proc_at s k) (P' k)).
  { intros k Hk. subst P'. unfold waitpid_asleep. at_simpl. destruct (decide (k = t)) as [->|Hkt]; by at_simpl. }
  assert (Hi' : p_state (P' i) = SLEEPING /\ p_pid (P' i) = p_pid (proc_at s i) /\ p_parent (P' i) = p_parent (proc_at s i) /\
    p_chan (P' i) = ch_proc t /\ p_kont (P' i) = KWaitpid pid st o t).
  { subst P'. unfold waitpid_asleep. destruct (decide (i = t)) as [->|Hit]; by at_simpl. }
  destruct Hi' as (I1 & I2 & I3 & I4 & I5).
  assert (Hci : forall k, p_cur_index (P' k) = p_cur_index (proc_at s k) + (if decide (k = t) then 1 else 0)).
  { intros k. subst P'. unfold waitpid_asleep.
    destruct (decide (k = i)) as [->|Hk], (decide (i = t)) as [->|Hit]; repeat case_decide; subst; try done;
      at_simpl; try lia. }
  split; [done|]. exists i0. split; [done|]. apply (inv_leave (proc_at s) P' _ _ cur c i Hi Hcur); try done.
  - intros k Hk. by apply table_out.
  - by right.
  - intros st' _ Ek. congruence.
  - intros pid' st' o' t' _ Ek. rewrite I5 in Ek. injection Ek as <- <- <- <-. done.
  - by left.
  - intros t' _ Ec. rewrite I4 in Ec. injection Ec as <-. right. eauto.
  - intros t' Ha. rewrite Hci. pose proof (pi_count _ _ _ _ Hi t' Ha).
    assert (Hpp : p_pid (P' t') = p_pid (proc_at s t')) by (destruct (decide (t' = i)) as [->|Hk]; [done|by destruct (Hoth t' Hk) as (_ & ? & _)]).
    assert (Hsame : forall q k, k <> i -> waits_for t' q (P' k) = true -> waits_for t' q (proc_at s k) = true).
    { intros q k Hk. destruct (Hoth k Hk) as (S1 & _ & _ & _ & S5 & _).
      rewrite !waits_for_iff. by rewrite S1, S5. }
    destruct (decide (t' = t)) as [->|Hne].
    + pose proof (waiters_add (proc_at s) P' t i Hpp (Hsame _)). lia.
    + assert (waiters P' t' <= waiters (proc_at s) t')%nat; [|lia]. apply waiters_mono; [done|]. intros k.
      destruct (decide (k = i)) as [->|Hk]; [|by apply Hsame].
      intros [_ (? & ? & Ek)]%waits_for_iff. congruence.
Qed.

Lemma st_is_iff st p : st_is st p = true <-> p_state p = st.
Proof. unfold st_is. by rewrite bool_decide_eq_true. Qed.

Lemma st_is_false st p : st_is st p = false <-> p_state p <> st.
Proof. unfold st_is. by rewrite bool_decide_eq_false. Qed.

Lemma waitpid_scan_inv pid st o l : emb i = None -> forall b s, sys_inv s cur -> s_cur s = Some i ->
  post (waitpid_scan pid st o l b) s (fun r s' =>
    match r with inl _ => stays s' | inr _ => s' = s end) departs.
Proof.
  intros He. induction l as [|j l IH]; intros b s Hs Ec; simpl; [by apply post_ret|].
  destruct (inv_running s Hs) as [Hrun Hn].
  apply post_bind, post_getp. case_match eqn:Ep; [by apply IH|].
  apply negb_false_iff, Z.eqb_eq in Ep. case_match eqn:Ez; [|case_match eqn:Eu].
  - apply st_is_iff in Ez. apply post_bind. eapply post_conseq; [by apply reap_inv| |done].
    intros a s' Hs'. by apply post_ret.
  - apply post_bind, post_put.
    + apply post_bind, post_release, post_ret. by apply (sys_inv_tab s).
    + intros k. apply post_bind, post_release, post_ret. by apply (sys_inv_tab s).
    + intros k. by apply departs_running.
  - apply st_is_false in Ez, Eu. apply post_bind, post_setp.
    apply (post_sleep _ _ _ i); [done|]. intros s' E1 E2 E3 _.
    apply (sys_inv_tab (waitpid_asleep pid st o j s)).
    + unfold waitpid_asleep, upd_proc in *. simpl in *. by rewrite E1.
    + simpl. by rewrite E2.
    + simpl. by rewrite E3.
    + by apply waitpid_sleep_inv.
Qed.

Lemma waitpid_loop_inv pid st o fuel : emb i = None -> forall k b s, sys_inv s cur -> s_cur s = Some i ->
  post (waitpid_loop pid st o k b fuel) s (fun _ => stays) departs.
Proof.
  intros He. induction fuel as [|fuel IH]; intros k b s Hs Ec; simpl; [done|].
  destruct (inv_running s Hs) as [Hrun Hn]. apply post_bind.
  eapply post_conseq; [by apply waitpid_scan_inv| |done]. intros [r|b'] s' Hr; [by apply post_ret|]. subst s'.
  apply post_bind. apply (post_myproc i); [done|]. apply post_bind, post_getp.
  case_match; [|by apply IH]. apply post_bind, post_put.
  - apply post_bind, post_release, post_ret. by apply (sys_inv_tab s).
  - intros k'. apply post_bind, post_release, post_ret. by apply (sys_inv_tab s).
  - intros k'. by apply departs_running.
Qed.

Lemma sleep_return_inv lk s : sys_inv s cur -> s_cur s = Some i ->
  post (sleep_return lk) s (fun _ s' => stays s' /\ s_cur s' = Some i) departs.
Proof.
  intros Hs Ec. destruct (inv_running s Hs) as [Hrun Hn]. pose proof Hs as (Ht & i0 & Hi0 & Hi).
  assert (Hs1 : sys_inv (upd_proc i (set_p_chan ch_null) s) cur).
  { split; [by apply ok_upd|]. exists i0. split; [done|].
    apply (inv_stay (proc_at s) _ _ _ _ i Hi); [congruence|left; congruence|..]; try (by at_simpl).
    - intros j Hj. by apply table_out; [apply ok_upd|].
    - intros j Hj. by at_simpl. }
  unfold sleep_return. apply post_bind. apply (post_myproc i); [done|]. apply post_bind, post_setp.
  case_match.
  - apply post_bind, post_release, post_acquire. split; [|done]. by eapply sys_inv_tab; [..|exact Hs1].
  - apply post_ret. done.
Qed.

(** Process [i] is switched to and runs the code after [sched]. *)
Lemma resume_inv k s : emb i = None \/ k = KYield -> sys_inv s cur -> s_cur s = Some i -> post (resume k) s (fun _ => stays) departs.
Proof.
  intros He Hs Ec. destruct (inv_running s Hs) as [Hrun Hn]. assert (He' : k <> KYield -> emb i = None) by tauto. destruct k; unfold resume.
  - apply post_bind. unfold forkret. apply post_bind, post_release, post_bind, post_gets.
    case_match; [|by apply post_ret, post_ret, (sys_inv_tab s)].
    apply post_bind, post_mod, post_lift_f; [intros ? f k|intros f k; by apply departs_running].
    by apply post_ret, (sys_inv_tab s).
  - by apply post_bind, post_release, post_ret, (sys_inv_tab s).
  - by apply post_bind, post_release, post_ret, (sys_inv_tab s).
  - apply post_panic.
  - apply post_bind. eapply post_conseq; [by apply sleep_return_inv| |done]. intros _ s' [Hs' Ec'].
    apply post_bind. eapply post_conseq; [by apply wait_loop_inv; [apply He'|..]| |done]. intros r s'' Hr. by apply post_ret.
  - apply post_bind. eapply post_conseq; [by apply sleep_return_inv| |done]. intros _ s' [Hs' Ec'].
    apply post_bind. eapply post_conseq; [by apply waitpid_loop_inv; [apply He'|..]| |done]. intros r s'' Hr. by apply post_ret.
  - apply post_bind. eapply post_conseq; [by apply sleep_return_inv| |done]. intros _ s' [Hs' Ec'].
    by apply post_ret.
Qed.

(** *** fork *)

(** [s1] is [s] with the slot [n] filled in further, now in state [st] and with parent [par]. *)
Record filling (n : nat) (st : procstate) (par : option nat) s s1 : Prop := {
  fl_ok : table_ok s1;
  fl_init : s_initproc s1 = s_initproc s;
  fl_cur : s_cur s1 = s_cur s;
  fl_next : s_nextpid s1 = s_nextpid s;
  fl_others : forall j, j <> n -> proc_at s1 j = proc_at s j;
  fl_pid : p_pid (proc_at s1 n) = p_pid (proc_at s n);
  fl_index : p_cur_index (proc_at s1 n) = p_cur_index (proc_at s n);
  fl_state : p_state (proc_at s1 n) = st;
  fl_parent : p_parent (proc_at s1 n) = par
}.

Lemma filling_upd n st par st' par' f s s1 : (n < NPROC)%nat -> filling n st par s s1 ->
  (forall p, p_pid (f p) = p_pid p /\ p_cur_index (f p) = p_cur_index p) ->
  (forall p, p_state p = st -> p_state (f p) = st') -> (forall p, p_parent p = par -> p_parent (f p) = par') ->
  filling n st' par' s (upd_proc n f s1).
Proof.
  intros Hn [H1 H2 H3 H4 H5 H6 H7 H8 H9] Hf Hst Hpar. split; try done.
  - by apply ok_upd.
  - intros j Hj. rewrite at_upd_ne by done. by apply H5.
  - rewrite at_upd_eq by done. by rewrite (proj1 (Hf _)).
  - rewrite at_upd_eq by done. by rewrite (proj2 (Hf _)).
  - rewrite at_upd_eq by done. by apply Hst.
  - rewrite at_upd_eq by done. by apply Hpar.
Qed.

(** A field that the invariant does not speak about. *)
Lemma filling_upd0 n st par f s s1 : (n < NPROC)%nat -> filling n st par s s1 ->
  (forall p, p_pid (f p) = p_pid p /\ p_cur_index (f p) = p_cur_index p /\ p_state (f p) = p_state p /\
     p_parent (f p) = p_parent p) -> filling n st par s (upd_proc n f s1).
Proof.
  intros Hn Hf Hc. eapply filling_upd; [done|exact Hf|..]; intros p; [|intros <-..];
    destruct (Hc p) as (? & ? & ? & ?); done.
Qed.

Lemma filling_tab n st par s s1 s2 : s_procs s2 = s_procs s1 -> s_nextpid s2 = s_nextpid s1 ->
  s_initproc s2 = s_initproc s1 -> s_cur s2 = s_cur s1 -> filling n st par s s1 -> filling n st par s s2.
Proof.
  intros E1 E2 E3 E4 [H1 H2 H3 H4 H5 H6 H7 H8 H9].
  assert (E : forall j, proc_at s2 j = proc_at s1 j) by (intros j; unfold proc_at; by rewrite E1).
  unfold table_ok in *. split; rewrite ?E; try (unfold table_ok; congruence). intros j Hj. rewrite E. by apply H5.
Qed.

(** Steps of the code that fills in slot [n]. *)
Section steps_of_fork.
Context (s : pst F) (n : nat) (B : pst F -> Prop).
Hypothesis HB : forall s', B s'.
Hypothesis Hn : (n < NPROC)%nat.

Lemma fill_k {A A'} (m : K kstate A) (f : A -> K (pst F) A') st par s1 Q : filling n st par s s1 ->
  (forall a s2, filling n st par s s2 -> post (f a) s2 Q B) -> post (let* a := lift_k m in f a) s1 Q B.
Proof. intros Hf HQ. apply post_bind, post_lift_k; [|done]. intros a k. apply HQ. by eapply filling_tab; [..|exact Hf]. Qed.

Lemma fill_f {A A'} (m : K (F * kstate) A) (f : A -> K (pst F) A') st par s1 Q : filling n st par s s1 ->
  (forall a s2, filling n st par s s2 -> post (f a) s2 Q B) -> post (let* a := lift_f m in f a) s1 Q B.
Proof. intros Hf HQ. apply post_bind, post_lift_f; [|done]. intros a fs k. apply HQ. by eapply filling_tab; [..|exact Hf]. Qed.

Lemma fill_p {A} g (m : K (pst F) A) st par s1 Q : filling n st par s s1 ->
  (forall p, p_pid (g p) = p_pid p /\ p_cur_index (g p) = p_cur_index p /\ p_state (g p) = p_state p /\
     p_parent (g p) = p_parent p) ->
  (forall s2, filling n st par s s2 -> post m s2 Q B) -> post (setp n g ;;; m) s1 Q B.
Proof. intros Hf Hg HQ. apply post_bind, post_setp, HQ. by apply filling_upd0. Qed.

Lemma fill_get {A A'} j (g : proc -> A) (f : A -> K (pst F) A') s1 Q :
  (forall a, post (f a) s1 Q B) -> post (let* a := getp j g in f a) s1 Q B.
Proof. intros HQ. by apply post_bind, post_getp. Qed.
End steps_of_fork.

Ltac fill_step Hf :=
  lazymatch goal with
  | |- post (kbind (lift_k _) _) _ _ _ => eapply fill_k; [done|exact Hf|clear Hf; intros ? ? Hf]
  | |- post (kbind (lift_f _) _) _ _ _ => eapply fill_f; [done|exact Hf|clear Hf; intros ? ? Hf]
  | |- post (kbind (setp _ _) _) _ _ _ => eapply fill_p; [done|exact Hf|done|clear Hf; intros ? Hf]
  | |- post (kbind (getp _ _) _) _ _ _ => apply fill_get; intros ?
  end.

(** The slot is taken. *)
Lemma allocproc_slot_inv s : emb i = None -> sys_inv s cur -> post allocproc_slot s (fun r s' => ProcSys.sys_inv (upd emb i r) dead s' cur) (fun _ => True).
Proof.
  intros He Hs. destruct (inv_running s Hs) as [Hrun Hn]. pose proof Hs as (Ht & i0 & Hi0 & Hi).
  unfold allocproc_slot. apply post_bind, post_acquire, post_bind.
  unfold post at 1. rewrite (for_first_find _ (st_is UNUSED) (fun j _ => kret (Some j))).
  2: { intros j s'. proc_simpl. by destruct (st_is UNUSED (proc_at s' j)). }
  2: { done. }
  change (find _ table) with (first_slot (st_is UNUSED) s). pose proof (first_slot_spec (st_is UNUSED) s) as Hfs.
  destruct (first_slot (st_is UNUSED) s) as [n|]; unfold kret at 1.
  - destruct Hfs as (Hu & Hnn & _). apply st_is_iff in Hu.
    do 3 (apply post_bind, post_setp). apply post_bind, post_gets, post_bind, post_setp, post_bind, post_mod.
    apply post_bind, post_release, post_ret. pose proof (pi_unused _ _ _ _ Hi n (or_introl Hu)) as Hpar.
    match goal with |- ProcSys.sys_inv _ _ ?x _ => set (s1 := x) end. assert (Hok : table_ok s1) by by repeat apply ok_upd.
    split; [done|]. exists i0. split; [done|].
    apply (inv_take emb dead (proc_at s) (proc_at s1) (s_nextpid s) i0 cur n i Hi Hu Hrun He); [intros j Hj; by apply table_out|intros j Hj|..]; subst s1; by at_simpl.
  - apply post_bind, post_release, post_ret. apply (sys_inv_emb emb); [|by apply (sys_inv_tab s)]. intros j. unfold upd. case_decide; congruence.
Qed.

Section one_fork.
Context (s : pst F) (n : nat).
Hypothesis Hs : sys_inv s cur.
Hypothesis Hem : emb i = Some n.

Lemma fork_embryo : p_state (proc_at s n) = EMBRYO /\ (n < NPROC)%nat /\ filling n EMBRYO None s s.
Proof.
  destruct Hs as (Ht & i0 & Hi0 & Hi). assert (E : p_state (proc_at s n) = EMBRYO) by (apply (pi_embryo _ _ _ _ Hi); by exists i).
  split; [done|]. split; [apply (not_unused_in s); [done|congruence]|]. split; try done. apply (pi_unused _ _ _ _ Hi). by right.
Qed.

(** The fork goes on. *)
Lemma fill_more s1 : filling n EMBRYO None s s1 -> ProcSys.sys_inv (upd emb i (Some n)) dead s1 cur.
Proof.
  intros [H1 H2 H3 H4 H5 H6 H7 H8 H9]. destruct Hs as (Ht & i0 & Hi0 & Hi). destruct fork_embryo as (E & Hn & Hf). apply (sys_inv_emb emb); [intros j; unfold upd; case_decide; congruence|].
  split; [done|]. exists i0. split; [congruence|]. rewrite H4. apply (inv_stay (proc_at s) _ _ _ _ n Hi); rewrite ?E; try done; [by left|intros j Hj; by apply table_out|intros j Hj; by rewrite H5|].
  rewrite H9. symmetry. apply Hf.
Qed.

(** It fails, or the child can run. *)
Lemma fill_end st par s1 : filling n st par s s1 -> (st = UNUSED /\ par = None) \/ (st = RUNNABLE /\ par = Some i) ->
  ProcSys.sys_inv (upd emb i None) ((if st_is UNUSED (proc_at s1 n) then [p_pid (proc_at s n)] else []) ++ dead) s1 cur.
Proof.
  intros [H1 H2 H3 H4 H5 H6 H7 H8 H9] Hst. destruct (inv_running s Hs) as [Hrun _]. destruct Hs as (Ht & i0 & Hi0 & Hi).
  split; [done|]. exists i0. split; [congruence|]. rewrite H4. apply (inv_deliver emb dead _ (proc_at s) _ _ _ _ n i Hi Hrun Hem); try done.
  - intros j Hj. by apply table_out.
  - intros j Hj. by rewrite H5.
  - unfold st_is. rewrite H8, H9. destruct Hst as [[-> ->]|[-> ->]]; [left|right]; done.
Qed.

Lemma allocproc_stack_inv : post (allocproc_stack forkret_a trapret_a n) s (fun ok s' =>
  ProcSys.sys_inv (upd emb i (if ok then Some n else None)) ((if ok then [] else [p_pid (proc_at s n)]) ++ dead) s' cur) (fun _ => True).
Proof.
  destruct fork_embryo as (E & Hn & Hf). unfold allocproc_stack. do 2 fill_step Hf. case_match.
  - apply post_bind, post_setp, post_ret. match goal with |- ProcSys.sys_inv _ _ ?x _ => assert (Hf' : filling n UNUSED None s x) by (by eapply filling_upd; [done|exact Hf|..]) end.
    pose proof (fill_end _ _ _ Hf' (or_introl (conj eq_refl eq_refl))) as R. unfold st_is in R. rewrite (fl_state _ _ _ _ _ Hf') in R. exact R.
  - repeat fill_step Hf. apply post_ret. by apply fill_more.
Qed.

Lemma fork_space_inv : s_cur s = Some i -> post (fork_space n) s (fun ok s' =>
  ProcSys.sys_inv (upd emb i (if ok then Some n else None)) ((if ok then [] else [p_pid (proc_at s n)]) ++ dead) s' cur) (fun _ => True).
Proof.
  intros Ec. destruct fork_embryo as (E & Hn & Hf). unfold fork_space. apply post_bind. apply (post_myproc i); [done|]. do 4 fill_step Hf. case_match.
  - do 3 fill_step Hf. apply post_bind, post_setp, post_ret. match goal with |- ProcSys.sys_inv _ _ ?x _ => assert (Hf' : filling n UNUSED None s x) by (by eapply filling_upd; [done|exact Hf|..]) end.
    pose proof (fill_end _ _ _ Hf' (or_introl (conj eq_refl eq_refl))) as R. unfold st_is in R. rewrite (fl_state _ _ _ _ _ Hf') in R. exact R.
  - fill_step Hf. apply post_ret. by apply fill_more.
Qed.

Lemma fork_share_inv : s_cur s = Some i -> post (fork_share n) s (fun _ s' => ProcSys.sys_inv (upd emb i None) dead s' cur) (fun _ => True).
Proof.
  intros Ec. destruct fork_embryo as (E & Hn & Hf). unfold fork_share. apply post_bind. apply (post_myproc i); [done|]. apply post_bind, post_setp.
  match goal with |- post _ ?x _ _ => assert (Hf' : filling n EMBRYO (Some i) s x) by (by eapply filling_upd; [done|exact Hf|..]); generalize dependent x end. clear Hf. intros sa Hf.
  do 4 fill_step Hf. apply post_bind. eapply post_conseq; [apply (post_for_each (fun _ s' => filling n EMBRYO (Some i) s s')); [exact Hf|]| |exact (fun _ H => H)].
  - clear Hf. intros fd d s' Hf _. apply post_bind, post_getp. case_match; [|by apply post_ret]. fill_step Hf. apply post_setp. by apply filling_upd0.
  - clear Hf. intros u sc Hf. simpl in Hf. fill_step Hf. case_match; [|apply post_panic]. do 3 fill_step Hf. apply post_bind, post_setp, post_ret.
    match goal with |- ProcSys.sys_inv _ _ ?x _ => assert (Hf' : filling n RUNNABLE (Some i) s x) by (by eapply filling_upd; [done|exact Hf|..]) end.
    pose proof (fill_end _ _ _ Hf' (or_intror (conj eq_refl eq_refl))) as R. unfold st_is in R. rewrite (fl_state _ _ _ _ _ Hf') in R. exact R.
Qed.
End one_fork.

(** A stage of a fork of process [i]. *)
Lemma fork_stage_inv g s : sys_inv s cur -> s_cur s = Some i -> emb i = embryo_of (Some g) ->
  post (fork_stage forkret_a trapret_a g) s (fun g' s' => ProcSys.sys_inv (upd emb i (embryo_of g')) (failed g g' s ++ dead) s' cur) (fun _ => True).
Proof.
  intros Hs Ec He. destruct g as [n|n|n|n]; simpl in He |- *; apply post_bind.
  - eapply post_conseq; [by apply (allocproc_stack_inv s n Hs He)| |done]. intros [] s' R; by apply post_ret.
  - eapply post_conseq; [by apply (fork_space_inv s n Hs He)| |done]. intros [] s' R; by apply post_ret.
  - eapply post_conseq; [by apply (fork_share_inv s n Hs He)| |done]. intros ? s' R. by apply post_ret.
  - unfold fork_name. apply post_bind. apply (post_myproc i); [done|]. apply post_bind, post_getp, post_setp, post_ret.
    apply (sys_inv_emb emb); [intros j; unfold upd; simpl; case_decide; congruence|]. destruct Hs as (Ht & i0 & Hi0 & Hi). split; [by apply ok_upd|]. exists i0. split; [done|].
    eapply inv_core; [|by intros j Hj; apply table_out; [apply ok_upd|]|exact Hi]. intros j. destruct (decide (j = n)) as [->|Hj]; [|by at_simpl].
    destruct (decide (n < NPROC)%nat) as [Hn|Hn]; [by at_simpl|]. rewrite !table_out by (try apply ok_upd; done || lia). done.
Qed.

(** *** exit *)

(** A table where processes may have been woken and nothing else changed. *)
Definition woke s s' : Prop :=
  table_ok s' /\ s_nextpid s' = s_nextpid s /\ s_initproc s' = s_initproc s /\ s_cur s' = s_cur s.

Lemma exit_wake_ok t fuel s s' u : table_ok s -> (t < NPROC)%nat -> exit_wake t fuel s = Ok u s' ->
  woke s s' /\ forall j, proc_at s' j =
    if 0 <? p_cur_index (proc_at s t)
    then lower (if decide (t = j) then length (sleepers (ch_proc t) s table) else 0) (woken (ch_proc t) (proc_at s j))
    else proc_at s j.
Proof.
  intros Ht Htn E. destruct fuel as [|fuel]; [done|]. simpl in E. unfold kbind at 1, getp, kgets in E.
  destruct (0 <? p_cur_index (proc_at s t)) eqn:Ec; [|by injection E as _ <-].
  unfold kbind in E. pose proof (wakeuppid_spec t s Ht Htn) as Hw.
  apply runs_Ok in Hw as (u1 & s1 & E1 & procs' & -> & Ht1 & Hp). rewrite E1 in E.
  assert (Hs0 : sleepers (ch_proc t) (set_s_procs procs' s) table = []).
  { apply sleepers_nil. intros j _. rewrite Hp, sleeps_on_lower. apply woken_not_asleep. }
  destruct (Z.le_gt_cases (p_cur_index (proc_at (set_s_procs procs' s) t)) 0) as [Hle|Hgt].
  - destruct fuel as [|fuel]; [done|]. simpl in E. unfold kbind at 1, getp, kgets in E.
    rewrite (proj2 (Z.ltb_ge 0 _)) in E by done. injection E as _ <-. done.
  - by rewrite exit_wake_stuck in E.
Qed.

(** Everyone asleep on channel [ch] is woken; the rest stays. *)
Lemma wakeup1_post ch s (Q : unit -> pst F -> Prop) B : table_ok s ->
  (forall s', woke s s' -> (forall j, proc_at s' j = woken ch (proc_at s j)) -> Q tt s') ->
  post (wakeup1 ch) s Q B.
Proof.
  intros Ht HQ. eapply post_eq; [by apply wakeup1_eq|]. apply HQ.
  - unfold woke, table_ok. simpl. by rewrite length_fmap.
  - intros j. by apply at_fmap.
Qed.

Definition adopt (t : nat) (i0 : nat) p : proc := if decide (p_parent p = Some t) then set_p_parent (Some i0) p else p.

(** The slots [l] have been given to init, and if one of them is a zombie init is awake. *)
Definition adopted (t i0 : nat) s (l : list nat) s' : Prop :=
  woke s s' /\ exists b : bool,
    (forall j, proc_at s' j = (if b then woken (ch_proc i0) else id)
       (if decide (j ∈ l) then adopt t i0 (proc_at s j) else proc_at s j)) /\
    (b = false -> forall z, z ∈ l -> p_parent (proc_at s z) = Some t -> p_state (proc_at s z) <> ZOMBIE).

Lemma woken_adopt ch t i0 p : woken ch (adopt t i0 p) = adopt t i0 (woken ch p).
Proof.
  unfold adopt. destruct (woken_fields ch p) as (_ & -> & _). case_decide; [|done].
  unfold woken. change (sleeps_on ch (set_p_parent (Some i0) p)) with (sleeps_on ch p).
  by destruct (sleeps_on ch p).
Qed.

Lemma woken_twice ch p : woken ch (woken ch p) = woken ch p.
Proof. unfold woken at 1. by rewrite woken_not_asleep. Qed.

Lemma woken_zombie ch p : p_state (woken ch p) = ZOMBIE <-> p_state p = ZOMBIE.
Proof.
  unfold woken, sleeps_on, st_is. case_match eqn:E; [|done]. apply andb_prop in E as [E _].
  apply bool_decide_eq_true in E. simpl. by rewrite E.
Qed.

Lemma adopted_skip t i0 s d s' j : adopted t i0 s d s' -> j ∈ d \/ p_parent (proc_at s j) <> Some t ->
  adopted t i0 s (d ++ [j]) s'.
Proof.
  intros [Hw (b & Hat & Hz)] Hj. split; [done|]. exists b. split.
  - intros k. rewrite Hat. f_equal. destruct (decide (k ∈ d)) as [Hk|Hk].
    + rewrite decide_True; [done|]. apply elem_of_app. by left.
    + destruct (decide (k ∈ d ++ [j])) as [Hk'|]; [|done]. apply elem_of_app in Hk' as [?|Hk']; [done|].
      apply list_elem_of_singleton in Hk' as ->. destruct Hj as [?|Hj]; [done|]. unfold adopt. by rewrite decide_False.
  - intros Eb z Hzd. apply elem_of_app in Hzd as [Hzd|Hzd]; [by apply Hz|].
    apply list_elem_of_singleton in Hzd as ->. destruct Hj as [Hj|Hj]; [by apply Hz|]. done.
Qed.

Lemma adopted_take t i0 s d s' s'' j (b' : bool) : adopted t i0 s d s' -> (j ∉ d) -> woke s s'' ->
  p_parent (proc_at s j) = Some t -> (b' = false -> p_state (proc_at s j) <> ZOMBIE) ->
  (forall k, proc_at s'' k = (if b' then woken (ch_proc i0) else id)
     (if decide (k = j) then set_p_parent (Some i0) (proc_at s' k) else proc_at s' k)) ->
  adopted t i0 s (d ++ [j]) s''.
Proof.
  intros [Hw (b & Hat & Hz)] Hj Hw' Hp Hzj Hk. split; [done|]. exists (b || b')%bool. split.
  - intros k. rewrite Hk, Hat. destruct (decide (k = j)) as [->|Hkj].
    + rewrite (decide_False (P := j ∈ d)), (decide_True (P := j ∈ d ++ [j])) by
        (done || (apply elem_of_app; right; by apply list_elem_of_singleton)).
      assert (E : forall p, p_parent p = Some t -> set_p_parent (Some i0) p = adopt t i0 p).
      { intros p Ep. unfold adopt. by rewrite decide_True. }
      destruct b; simpl.
      * rewrite E by (destruct (woken_fields (ch_proc i0) (proc_at s j)) as (_ & -> & _); done).
        rewrite <- woken_adopt. destruct b'; simpl; [by rewrite woken_twice|done].
      * rewrite E by done. done.
    + assert (Ed : (k ∈ d) <-> (k ∈ d ++ [j])).
      { rewrite elem_of_app, list_elem_of_singleton. tauto. }
      destruct (decide (k ∈ d)) as [Hd|Hd].
      * rewrite (decide_True (P := k ∈ d ++ [j])) by by apply Ed. destruct b, b'; simpl; try done. by rewrite woken_twice.
      * rewrite (decide_False (P := k ∈ d ++ [j])) by by rewrite <- Ed. destruct b, b'; simpl; try done. by rewrite woken_twice.
  - intros Eb z Hzd. apply orb_false_elim in Eb as [-> ->]. apply elem_of_app in Hzd as [Hzd|Hzd]; [by apply Hz|].
    apply list_elem_of_singleton in Hzd as ->. intros _. by apply Hzj.
Qed.

Lemma adopted_fields t i0 s d s' j : t <> i0 -> adopted t i0 s d s' ->
  (p_parent (proc_at s' j) = Some t <-> (j ∉ d) /\ p_parent (proc_at s j) = Some t) /\
  (p_state (proc_at s' j) = ZOMBIE <-> p_state (proc_at s j) = ZOMBIE).
Proof.
  intros Hne [_ (b & Hat & _)]. rewrite Hat.
  assert (Hf : forall p, p_parent ((if b then woken (ch_proc i0) else id) p) = p_parent p /\
    (p_state ((if b then woken (ch_proc i0) else id) p) = ZOMBIE <-> p_state p = ZOMBIE)).
  { intros p. destruct b; simpl; [|done]. split; [apply woken_fields|apply woken_zombie]. }
  destruct (Hf (if decide (j ∈ d) then adopt t i0 (proc_at s j) else proc_at s j)) as [-> ->].
  destruct (decide (j ∈ d)) as [Hd|Hd]; [|naive_solver]. unfold adopt. case_decide as Hp; simpl; [|naive_solver].
  split; [|done]. split; [congruence|]. by intros [? _].
Qed.

Lemma reparent_post t i0 s B : table_ok s -> t <> i0 -> s_initproc s = Some i0 ->
  post (reparent t) s (fun _ s' => adopted t i0 s table s') B.
Proof.
  intros Ht Hne Hi0. unfold reparent. apply (post_for_each (adopted t i0 s)).
  { split; [done|]. exists false. split; [|by intros _ z Hz%elem_of_nil].
    intros j. rewrite decide_False; [done|]. by intros ?%elem_of_nil. }
  intros j d s' Had Hj. pose proof Had as [(Ht' & En & Ei & Ec) _]. apply elem_of_table in Hj.
  destruct (adopted_fields t i0 s d s' j Hne Had) as [Hp Hzo].
  apply post_bind, post_getp. case_match eqn:Eb.
  - apply bool_decide_eq_true, Hp in Eb as [Hjd Hpj]. apply post_bind, post_gets, post_bind, post_setp.
    rewrite Ei, Hi0. case_match eqn:Ez.
    + apply wakeup1_post; [by apply ok_upd|]. intros s'' (Ht2 & En2 & Ei2 & Ec2) Hat2.
      eapply (adopted_take _ _ _ _ s' s'' j true); try done.
      * split_and!; [done|simpl in *; congruence..].
      * intros k. rewrite Hat2. f_equal. case_decide; [subst; by rewrite at_upd_eq|by rewrite at_upd_ne].
    + apply post_ret. eapply (adopted_take _ _ _ _ s' _ j false); try done.
      * split_and!; [by apply ok_upd|done..].
      * intros _ E. apply st_is_false in Ez. by apply Ez, Hzo.
      * intros k. simpl. case_decide; [subst; by rewrite at_upd_eq|by rewrite at_upd_ne].
  - apply post_ret. apply adopted_skip; [done|]. apply bool_decide_eq_false in Eb.
    destruct (decide (j ∈ d)); [by left|right]. intros E. by apply Eb, Hp.
Qed.

Lemma maybe_woken_refl p : maybe_woken p p.
Proof. split_and!; try done. by left. Qed.

Lemma maybe_woken_trans p q r : maybe_woken p q -> maybe_woken q r -> maybe_woken p r.
Proof.
  intros (H1 & H2 & H3 & H4 & H5 & H6 & H7) (G1 & G2 & G3 & G4 & G5 & G6 & G7).
  split_and!; try congruence. destruct H1 as [H1|[? H1]], G1 as [G1|[? G1]]; try (left; congruence); right; split; congruence.
Qed.

Lemma maybe_woken_woken ch p : maybe_woken p (woken ch p).
Proof.
  unfold maybe_woken. destruct (woken_fields ch p) as (E1 & E2 & E3 & _ & E5 & _ & E7 & E8).
  split; [|done]. unfold woken, sleeps_on. case_match eqn:E; [|by left]. right.
  apply andb_prop in E as [E _]. by apply st_is_iff in E.
Qed.

Lemma woken_awake ch p : p_chan p = ch -> p_state (woken ch p) <> SLEEPING.
Proof.
  intros E. unfold woken, sleeps_on. destruct (st_is SLEEPING p) eqn:Es; simpl.
  - by rewrite bool_decide_eq_true_2.
  - by apply st_is_false in Es.
Qed.

Lemma maybe_woken_awake p q : maybe_woken p q -> p_state p <> SLEEPING -> p_state q <> SLEEPING.
Proof. intros ([->|[? _]] & _); done. Qed.

Lemma adopt_other (b : bool) i0 p q : maybe_woken p q ->
  exit_other i i0 p ((if b then woken (ch_proc i0) else id) (adopt i i0 q)).
Proof.
  intros Hw. assert (Hw2 : maybe_woken (adopt i i0 q) ((if b then woken (ch_proc i0) else id) (adopt i i0 q))).
  { destruct b; simpl; [apply maybe_woken_woken|apply maybe_woken_refl]. }
  destruct Hw as (H1 & H2 & H3 & H4 & H5 & H6 & H7), Hw2 as (G1 & G2 & G3 & G4 & G5 & G6 & G7).
  assert (Ha : p_state (adopt i i0 q) = p_state q /\ p_pid (adopt i i0 q) = p_pid q /\ p_chan (adopt i i0 q) = p_chan q /\
    p_kont (adopt i i0 q) = p_kont q /\ p_killed (adopt i i0 q) = p_killed q /\ p_cur_index (adopt i i0 q) = p_cur_index q /\
    p_parent (adopt i i0 q) = if decide (p_parent q = Some i) then Some i0 else p_parent q).
  { unfold adopt. by case_decide. }
  destruct Ha as (A1 & A2 & A3 & A4 & A5 & A6 & A7). rewrite H3 in A7.
  unfold exit_other. split_and!; try congruence.
  destruct H1 as [H1|[? H1]], G1 as [G1|[? G1]]; try (left; congruence); right; split; congruence.
Qed.

Lemma exit_wake_no_block t fuel : forall s ch s', table_ok s -> (t < NPROC)%nat ->
  exit_wake (F := F) t fuel s <> Block ch s'.
Proof.
  induction fuel as [|fuel IH]; intros s ch s' Ht Htn; [done|]. simpl. unfold kbind at 1, getp, kgets.
  case_match; [|done]. unfold kbind. pose proof (wakeuppid_spec t s Ht Htn) as Hw.
  apply runs_Ok in Hw as (u1 & s1 & -> & procs' & -> & Ht1 & Hp). by apply IH.
Qed.

(** The table when [exit] of [i] calls [sched]: [s2] after the parent was woken, [s3] after the
    callers of [waitpid] were woken, [s4] after the children were given to init. *)
Lemma exit_final s s2 s3 s4 i0 fuel u : emb i = None -> sys_inv s cur -> s_initproc s = Some i0 -> i <> i0 ->
  woke s s2 -> (forall j, maybe_woken (proc_at s j) (proc_at s2 j)) ->
  (forall j, j <> i -> proc_at s2 j = woken (parent_chan (p_parent (proc_at s i))) (proc_at s j)) ->
  exit_wake i fuel s2 = Ok u s3 -> adopted i i0 s3 table s4 ->
  sys_inv (upd_proc i (set_p_kont KExit) (upd_proc i (set_p_state ZOMBIE) s4)) (upd cur c None).
Proof.
  intros He Hs Hi0 Hne (Ht2 & En2 & Ei2 & Ec2) Hw2 Hp2 E3 Had.
  destruct (inv_running s Hs) as [Hrun Hn]. pose proof Hs as (Ht & i0' & Hi0' & Hi).
  assert (i0' = i0) as -> by congruence.
  destruct (exit_wake_ok i fuel s2 s3 u Ht2 Hn E3) as [(Ht3 & En3 & Ei3 & Ec3) Hp3].
  pose proof Had as [(Ht4 & En4 & Ei4 & Ec4) (b & Hp4 & Hz4)].
  assert (Hw3 : forall j, j <> i -> maybe_woken (proc_at s2 j) (proc_at s3 j)).
  { intros j Hj. rewrite Hp3. destruct (0 <? p_cur_index (proc_at s2 i)); [|apply maybe_woken_refl].
    rewrite decide_False by done.
    rewrite lower_0. apply maybe_woken_woken. }
  assert (H3 : forall j, j <> i -> maybe_woken (proc_at s j) (proc_at s3 j)).
  { intros j Hj. eapply maybe_woken_trans; [apply Hw2|by apply Hw3]. }
  assert (H4 : forall j, (j < NPROC)%nat -> proc_at s4 j =
    (if b then woken (ch_proc i0) else id) (adopt i i0 (proc_at s3 j))).
  { intros j Hj. rewrite Hp4, decide_True; [done|]. by apply elem_of_table. }
  assert (Hold : forall j, (j < NPROC)%nat -> j <> i -> p_state (proc_at s3 j) <> SLEEPING -> p_state (proc_at s4 j) <> SLEEPING).
  { intros j Hj Hji. rewrite H4 by done. destruct (adopt_other b i0 (proc_at s3 j) (proc_at s3 j)
      (maybe_woken_refl _)) as [Hst _]. destruct Hst as [-> |[_ ->]]; done. }
  assert (Hin : forall j, (j < NPROC)%nat \/ p_state (proc_at s4 j) <> SLEEPING).
  { intros j. destruct (decide (j < NPROC)%nat); [by left|right]. rewrite table_out by (done || lia). done. }
  set (s5 := upd_proc i _ _).
  assert (H5 : forall j, j <> i -> proc_at s5 j = proc_at s4 j) by (intros j Hj; subst s5; by at_simpl).
  assert (H5i : proc_at s5 i = set_p_kont KExit (set_p_state ZOMBIE (proc_at s4 i))) by (subst s5; by at_simpl).
  assert (Hi3 : p_pid (proc_at s3 i) = p_pid (proc_at s i) /\ p_parent (proc_at s3 i) = p_parent (proc_at s i)).
  { destruct (Hw2 i) as (_ & W2 & W3 & _). rewrite Hp3. destruct (0 <? p_cur_index (proc_at s2 i)); [|split; congruence].
    rewrite decide_True by done. destruct (woken_fields (ch_proc i) (proc_at s2 i)) as (_ & F1 & F2 & _).
    simpl. rewrite F1, F2. split; congruence. }
  destruct Hi3 as (I1 & I2).
  destruct (adopt_other b i0 (proc_at s3 i) (proc_at s3 i) (maybe_woken_refl _)) as (_ & A2 & A3 & _ & _ & _ & A7).
  rewrite <- H4 in A2, A3, A7 by done. rewrite I1 in A2. rewrite I2 in A3.
  split; [by repeat apply ok_upd|]. exists i0. split; [subst s5; simpl; congruence|].
  replace (s_nextpid s5) with (s_nextpid s) by (subst s5; simpl; congruence).
  apply (inv_exit (proc_at s) (proc_at s5) _ i0 cur c i Hi Hcur Hne).
  - intros j Hj. apply table_out; [by repeat apply ok_upd|done].
  - intros j Hj. rewrite H5 by done. destruct (decide (j < NPROC)%nat) as [Hjn|Hjn].
    + rewrite H4 by done. by apply adopt_other, H3.
    + rewrite !table_out by (done || lia). unfold exit_other. split_and!; try done. by left.
  - by rewrite H5i.
  - by rewrite H5i.
  - by rewrite H5i.
  - done.
  - intros j Hch. destruct (decide (j = i)) as [->|Hj]; [by rewrite H5i|]. rewrite H5 by done.
    destruct (Hin j) as [Hjn|]; [|done]. apply Hold; [done..|]. eapply maybe_woken_awake; [by apply Hw3|].
    rewrite Hp2 by done. by apply woken_awake.
  - intros j Hw. destruct (decide (j = i)) as [->|Hj]; [by rewrite H5i|]. rewrite H5 by done.
    destruct (Hin j) as [Hjn|]; [|done]. apply Hold; [done..|].
    pose proof (waiters_pos (proc_at s) i j Hjn Hw). pose proof (pi_count _ _ _ _ Hi i ltac:(split; congruence)) as Hcnt.
    destruct (Hw2 i) as (_ & _ & _ & _ & _ & _ & Eci). rewrite Hp3, (proj2 (Z.ltb_lt 0 _)) by lia.
    rewrite decide_False, lower_0 by done. apply woken_awake.
    apply waits_for_iff in Hw as (Es & st & o & Ek).
    destruct (Hw2 j) as (_ & _ & _ & -> & _). by destruct (pi_waitpid _ _ _ _ Hi j _ st o i Es Ek).
  - intros j z Hzp Hzz Hch. destruct (decide (j = i)) as [->|Hj]; [by rewrite H5i|]. rewrite H5 by done.
    destruct (Hin j) as [Hjn|]; [|done]. rewrite H4 by done.
    assert (Hzi : z <> i) by congruence.
    assert (Hzn : (z < NPROC)%nat) by (eapply not_unused_in; [exact Ht|congruence]).
    destruct b; simpl.
    + apply woken_awake. destruct (H3 j Hj) as (_ & _ & _ & E & _). unfold adopt.
      destruct (decide (p_parent (proc_at s3 j) = Some i)); simpl; congruence.
    + destruct (H3 z Hzi) as ([Ez|[Ez _]] & _ & Ep & _); [|congruence].
      exfalso. apply (Hz4 eq_refl z); [by apply elem_of_table|congruence|congruence].
Qed.

Lemma exit_locked_inv st fuel s : emb i = None -> sys_inv s cur -> s_cur s = Some i -> s_initproc s <> Some i ->
  post (exit_locked i st fuel) s (fun _ => stays) departs.
Proof.
  intros He Hs Ec Hni. destruct (inv_running s Hs) as [Hrun Hn]. pose proof Hs as (Ht & i0 & Hi0 & Hi).
  assert (Hne : i <> i0) by congruence. unfold exit_locked. apply post_bind, post_acquire, post_bind, post_getp, post_bind.
  apply wakeup1_post; [done|]. intros s1 (Ht1 & En1 & Ei1 & Ec1) Hp1. apply post_bind, post_setp, post_bind.
  set (s2 := upd_proc i (set_p_est st) s1).
  assert (Ht2 : table_ok s2) by by apply ok_upd.
  assert (Hw2 : forall j, maybe_woken (proc_at s j) (proc_at s2 j)).
  { intros j. subst s2. destruct (decide (j = i)) as [->|Hj]; at_simpl; rewrite Hp1; apply maybe_woken_woken. }
  unfold post at 1. destruct (exit_wake i fuel s2) as [u s3| | |] eqn:E3; [|done| |done].
  2: { by apply exit_wake_no_block in E3. }
  destruct (exit_wake_ok i fuel s2 s3 u Ht2 Hn E3) as [(Ht3 & En3 & Ei3 & Ec3) _].
  apply post_bind. eapply post_conseq; [apply (reparent_post i i0); [done|done|]| |done].
  { rewrite Ei3. by transitivity (s_initproc s). }
  intros v s4 Had. pose proof Had as [(_ & _ & _ & Ec4) _]. apply post_bind, post_setp.
  apply (post_sched _ i).
  { simpl. rewrite Ec4, Ec3. by transitivity (s_cur s). }
  intros _. eapply (exit_final s s2 s3 s4 i0 fuel u); try done. 
  intros j Hj. subst s2. at_simpl. rewrite Hp1. done.
Qed.

(** A state in which only fields outside the invariant changed. *)
Definition tweaked s s' : Prop := woke s s' /\ forall j, same_core (proc_at s' j) (proc_at s j).

Lemma same_core_trans p q r : same_core p q -> same_core q r -> same_core p r.
Proof. unfold same_core. intros (? & ? & ? & ? & ? & ? & ?) (? & ? & ? & ? & ? & ? & ?). split_and!; congruence. Qed.

Lemma tweaked_inv s s' cur' : tweaked s s' -> sys_inv s cur' -> sys_inv s' cur'.
Proof.
  intros [(Ht & En & Ei & _) Hc] (_ & i0 & Hi0 & Hi). split; [done|]. exists i0. split; [congruence|].
  rewrite En. eapply inv_core; [exact Hc| |exact Hi]. intros j Hj. by apply table_out.
Qed.

Lemma tweaked_upd s s' f : tweaked s s' -> (i < NPROC)%nat -> (forall p, same_core (f p) p) -> tweaked s (upd_proc i f s').
Proof.
  intros [(Ht & En & Ei & Ec) Hc] Hn Hf. split; [split_and!; [by apply ok_upd|done..]|].
  intros j. destruct (decide (j = i)) as [->|Hj]; at_simpl; [|apply Hc].
  eapply same_core_trans; [apply Hf|apply Hc].
Qed.

Lemma exit_inv st fuel s : emb i = None -> sys_inv s cur -> s_cur s = Some i -> post (exit st fuel) s (fun _ => stays) departs.
Proof.
  intros He Hs Ec. destruct (inv_running s Hs) as [Hrun Hn]. pose proof Hs as (Ht & _).
  unfold exit. apply post_bind. apply (post_myproc i); [done|]. apply post_bind, post_gets.
  case_match eqn:Ei; [apply post_panic|]. apply bool_decide_eq_false in Ei.
  assert (Hdep : forall s', tweaked s s' -> departs s').
  { intros s' [_ Hc]. apply departs_running. destruct (Hc i) as (-> & _). done. }
  apply post_bind. eapply post_conseq; [apply (post_for_each (fun _ => tweaked s))| |done].
  - split; [done|]. intros j. done.
  - intros fd d s' Htw _. apply post_bind, post_getp. case_match; [|by apply post_ret].
    apply post_bind, post_lift_f; [|intros fs k; exact Htw]. intros _ fs k. apply post_setp.
    apply tweaked_upd; [exact Htw|done|done].
  - intros _u s' Htw. simpl in Htw. apply post_bind, post_getp. case_match; [|apply post_panic].
    apply post_bind, post_lift_f; [|intros fs k; exact (Hdep (set_s_k k (set_s_fs fs s')) Htw)]. intros _ fs k.
    apply post_bind, post_setp.
    assert (Htw' : tweaked s (upd_proc i (set_p_cwd None) (set_s_k k (set_s_fs fs s')))) by by apply tweaked_upd.
    apply exit_locked_inv; [done|..].
    + by eapply tweaked_inv.
    + destruct Htw' as [(_ & _ & _ & E) _]. congruence.
    + destruct Htw' as [(_ & _ & E & _) _]. congruence.
Qed.

Lemma run_op_inv fuel o s : sys_inv s cur -> s_cur s = Some i -> held s = [] -> op_ok o -> emb i = None \/ irq_op o = true ->
  post (run_op fuel o) s (fun _ => stays) departs.
Proof.
  intros Hs Ec Hh Ho He.
  assert (Hig : forall A (m : K (pst F) A), post m s (fun _ => stays) departs -> post (ignore m) s (fun _ => stays) departs).
  { intros A m Hm. apply post_bind. eapply post_conseq; [exact Hm| |done]. intros a s' Hs'. by apply post_ret. }
  destruct o; simpl; simpl in Ho, He; (destruct He as [He|He]; [|try done]).
  - by apply exit_inv.
  - apply Hig. unfold wait. apply post_bind, post_acquire. apply wait_loop_inv; [done|by apply (sys_inv_tab s)|done].
  - apply Hig. unfold waitpid. apply post_bind, post_acquire. apply waitpid_loop_inv; [done|by apply (sys_inv_tab s)|done].
  - by apply Hig, kill_inv.
  - by apply wakeup_inv.
  - by apply wakeup_inv.
  - destruct Ho. by apply opsleep_inv.
  - by apply yield_inv.
  - by apply yield_inv.
  - by apply setprio_inv.
Qed.
End running.
End embryos.

(** *** The system *)

Definition embryos (y : sys (F := F)) : nat -> option nat := fun i => embryo_of (y_fork y i).

Definition y_inv (y : sys (F := F)) : Prop :=
  sys_inv (embryos y) (y_failed y) (y_s y) (y_cur y) /\ (forall c, y_switched y = Some c -> switched_to (embryos y) (y_cur y c) (y_s y)).

Lemma boot_y_inv (y : sys (F := F)) : sys_boot y -> y_inv y.
Proof.
  intros (E1 & E2 & Ef & Ed & Ht & E4 & E5 & (Ps & Pp & Pq & Pk & Pc) & Hz). split; [|by rewrite E1]. rewrite Ed.
  assert (Hem : forall i, embryos y i = None) by (intros i; unfold embryos; by rewrite Ef).
  split; [done|]. exists 0%nat. split; [done|]. rewrite E5.
  assert (Hs : forall i st, p_state (proc_at (y_s y) i) = st -> st <> UNUSED -> i = 0%nat /\ st = RUNNABLE).
  { intros i st E Hne. destruct (decide (i = 0%nat)) as [->|Hi]; [split; congruence|]. rewrite Hz in E by done. simpl in E. congruence. }
  assert (Hp : forall i, p_parent (proc_at (y_s y) i) = None).
  { intros i. destruct (decide (i = 0%nat)) as [->|Hi]; [done|]. by rewrite Hz. }
  assert (Hpid : forall i, p_pid (proc_at (y_s y) i) = if decide (i = 0%nat) then 1 else 0).
  { intros i. destruct (decide (i = 0%nat)) as [->|Hi]; [done|]. by rewrite Hz. }
  split.
  - intros i Hi. by apply table_out.
  - intros i. split; [intros E; by destruct (Hs i RUNNING E)|]. intros [c Hc]. by rewrite E2 in Hc.
  - intros c1 c2 i Hc. by rewrite E2 in Hc.
  - intros n. split; [intros E; by destruct (Hs n EMBRYO E)|intros [i E]; congruence].
  - intros i j n E. congruence.
  - intros i n E. congruence.
  - intros i Hne. destruct (Hs i _ eq_refl Hne) as [-> _]. lia.
  - intros i. rewrite Hpid. case_decide; lia.
  - intros i j. rewrite !Hpid. repeat case_decide; congruence.
  - split; congruence.
  - intros i. by rewrite Hem.
  - apply Hp.
  - intros i. by rewrite Hp.
  - intros i _. apply Hp.
  - intros i j. by rewrite Hp.
  - intros i j k. by rewrite Hp.
  - intros i st E. by destruct (Hs i SLEEPING E).
  - intros i pid st o t E. by destruct (Hs i SLEEPING E).
  - intros i t E. by destruct (Hs i SLEEPING E).
  - by intros pid Hd%elem_of_nil.
  - intros t _. rewrite waiters_none.
    + destruct (decide (t = 0%nat)) as [->|Hi]; [by rewrite Pc|]. by rewrite Hz.
    + intros i. destruct (waits_for t _ (proc_at (y_s y) i)) eqn:E; [|done].
      apply waits_for_iff in E as [E _]. by destruct (Hs i SLEEPING E).
Qed.

Lemma after_sched_inv i s y c r s' : sys_inv (embryos y) (y_failed y) s (upd (y_cur y) c None) ->
  scheduler_return kpgdir i s = Ok r s' -> y_inv (after_sched y c r s').
Proof.
  intros Hs E. pose proof (scheduler_return_inv (embryos y) (y_failed y) i s (upd (y_cur y) c None) c (fun _ => True) Hs) as Hp.
  unfold post in Hp. rewrite E in Hp. destruct Hp as [Hi Hc]; [by apply upd_eq|].
  assert (Hi' : sys_inv (embryos y) (y_failed y) s' (upd (y_cur y) c r)).
  { destruct Hi as (Ht & i0 & Hi0 & Hi). split; [done|]. exists i0. split; [done|].
    eapply inv_cur_ext; [|exact Hi]. intros c'. unfold upd. by case_decide. }
  split; [done|]. intros c' E'. destruct r as [hp|]; [|done]. injection E' as <-. simpl. rewrite upd_eq. apply Hc.
Qed.

Lemma after_stage_inv y i g l s : sys_inv (upd (embryos y) i (embryo_of g)) (l ++ y_failed y) s (y_cur y) -> y_inv (after_stage y i g l s).
Proof. intros Hs. split; [|done]. eapply sys_inv_emb; [|exact Hs]. intros j. unfold embryos, after_stage, upd. simpl. by case_decide. Qed.

Lemma step_y_inv (y y' : sys (F := F)) : y_inv y -> sys_step kpgdir forkret_a trapret_a y y' -> y_inv y'.
Proof.
  intros [Hs Hc] Hst. assert (Hcpu : forall v, sys_inv (embryos y) (y_failed y) (on_cpu v (y_s y)) (y_cur y)).
  { intros v. by apply (sys_inv_tab _ _ (y_s y)). }
  assert (Hmay : forall i o, may y i o -> op_ok o /\ (embryos y i = None \/ irq_op o = true)).
  { intros i o [? Hf]. split; [done|]. destruct Hf as [E|]; [left|by right]. unfold embryos. by rewrite E. }
  assert (Hk : forall c i, y_switched y = Some c -> y_cur y c = Some i -> s_cur (y_s y) = Some i /\ (embryos y i = None \/ p_kont (proc_at (y_s y) i) = KYield)).
  { intros c i Hsw Hcur. destruct (Hc c Hsw) as [E1 E2]. rewrite Hcur in E1, E2. split; [by apply E1|].
    destruct (embryos y i) as [n|] eqn:E; [right; by eapply E2|by left]. }
  destruct Hst as [y c i o fuel u s' Hsw Hcur Hop E|y c i o fuel ch s' r s'' Hsw Hcur Hop E Hst E'|y c i r s' Hsw Hcur Hf E|y c i g g' s' Hsw Hcur Hf E|
    y c r s' Hsw Hcur E|y c ch u s' Hsw Hcur E|y c i v s' Hsw Hcur E|y c i ch s' r s'' Hsw Hcur E Hst E'].
  - destruct (Hmay i o Hop) as [Hop1 Hop2]. pose proof (run_op_inv _ _ (y_cur y) c i Hcur fuel o _ (Hcpu (Some i)) eq_refl eq_refl Hop1 Hop2) as Hp.
    unfold post in Hp. rewrite E in Hp. split; [exact Hp|done].
  - destruct (Hmay i o Hop) as [Hop1 Hop2]. pose proof (run_op_inv _ _ (y_cur y) c i Hcur fuel o _ (Hcpu (Some i)) eq_refl eq_refl Hop1 Hop2) as Hp.
    unfold post in Hp. rewrite E in Hp. eapply after_sched_inv; [by apply Hp|exact E'].
  - assert (He : embryos y i = None) by (unfold embryos; by rewrite Hf). pose proof (allocproc_slot_inv _ _ (y_cur y) c i Hcur _ He (Hcpu (Some i))) as Hp.
    unfold post in Hp. rewrite E in Hp. apply after_stage_inv. by destruct r.
  - assert (He : embryos y i = embryo_of (Some g)) by (unfold embryos; by rewrite Hf). pose proof (fork_stage_inv _ _ (y_cur y) c i Hcur g _ (Hcpu (Some i)) eq_refl He) as Hp.
    unfold post in Hp. rewrite E in Hp. by apply after_stage_inv.
  - unfold scheduler in E. unfold kbind in E. rewrite acquire_ok in E by (by intros ?%elem_of_nil).
    pose proof (scheduler_from_inv (embryos y) (y_failed y) 0 (set_held (lk_ptable :: held (on_cpu None (y_s y))) (on_cpu None (y_s y)))
      (y_cur y) c (fun _ => True)) as Hp.
    unfold post in Hp. rewrite E in Hp. destruct Hp as [Hi Hcr]; [by apply (sys_inv_tab _ _ (y_s y))|done|].
    split; [done|]. intros c' E'. destruct r as [hp|]; [|done]. injection E' as <-. simpl. rewrite upd_eq. apply Hcr.
  - pose proof (wakeup_inv _ _ (y_cur y) ch _ (fun _ => True) (Hcpu None)) as Hp. unfold post in Hp. rewrite E in Hp. split; [exact Hp|done].
  - destruct (Hk c i Hsw Hcur) as [Ec He]. pose proof (resume_inv _ _ (y_cur y) c i Hcur (p_kont (proc_at (y_s y) i)) _ He Hs Ec) as Hp.
    unfold post in Hp. rewrite E in Hp. split; [exact Hp|done].
  - destruct (Hk c i Hsw Hcur) as [Ec He]. pose proof (resume_inv _ _ (y_cur y) c i Hcur (p_kont (proc_at (y_s y) i)) _ He Hs Ec) as Hp.
    unfold post in Hp. rewrite E in Hp. eapply after_sched_inv; [by apply Hp|exact E'].
Qed.

Lemma reachable_y_inv (y : sys (F := F)) : sys_reachable kpgdir forkret_a trapret_a y -> y_inv y.
Proof. induction 1; [by apply boot_y_inv|by eapply step_y_inv]. Qed.

(** C10: no lost wakeup in [wait].  In every reachable state, a process asleep in [wait] has not been
    killed, has a child, and none of its children is a zombie: there is nothing it has missed,
    and each child that exits later wakes it. *)
Theorem wait_no_lost_wakeup (y : sys (F := F)) i st : sys_reachable kpgdir forkret_a trapret_a y ->
  p_state (proc_at (y_s y) i) = SLEEPING -> p_kont (proc_at (y_s y) i) = KWait st ->
  p_killed (proc_at (y_s y) i) = 0 /\ (exists j, p_parent (proc_at (y_s y) j) = Some i) /\
  forall j, p_parent (proc_at (y_s y) j) = Some i -> p_state (proc_at (y_s y) j) <> ZOMBIE.
Proof.
  intros [(Ht & i0 & _ & Hi) _]%reachable_y_inv Es Ek.
  by destruct (pi_wait _ _ _ _ Hi i st Es Ek) as (_ & ? & ? & ?).
Qed.

(** C16: no lost wakeup in [waitpid], but for forks that fail.  In every reachable state, a process asleep in [waitpid(pid)] sleeps on the
    channel of a slot, and either the process in this slot has that pid, has neither exited nor been freed, and its [cur_index] is positive and counts
    every process that waits for it, so that its exit wakes them; or the pid had been given to a fork that failed, and no process has it. *)
Theorem waitpid_no_lost_wakeup (y : sys (F := F)) i pid st o t : sys_reachable kpgdir forkret_a trapret_a y ->
  p_state (proc_at (y_s y) i) = SLEEPING -> p_kont (proc_at (y_s y) i) = KWaitpid pid st o t ->
  p_chan (proc_at (y_s y) i) = ch_proc t /\
  ((p_pid (proc_at (y_s y) t) = pid /\ alive (proc_at (y_s y) t) /\ 0 < Z.of_nat (waiters (proc_at (y_s y)) t) <= p_cur_index (proc_at (y_s y) t)) \/
   (pid ∈ y_failed y /\ forall j, p_pid (proc_at (y_s y) j) = pid -> p_state (proc_at (y_s y) j) = UNUSED)).
Proof.
  intros [(Ht & i0 & _ & Hi) _]%reachable_y_inv Es Ek.
  destruct (pi_waitpid _ _ _ _ Hi i pid st o t Es Ek) as (W1 & W2). split; [done|]. destruct W2 as [[W2 W3]|W2]; [left|right; split; [done|by apply Hi]].
  split; [done|]. split; [done|]. split; [|by apply Hi].
  assert (Hw : (0 < waiters (proc_at (y_s y)) t)%nat); [|lia]. apply (waiters_pos _ _ i).
  - eapply not_unused_in; [done|congruence].
  - apply waits_for_iff. rewrite W2. eauto.
Qed.

(** C19: the process table stays consistent.  In every reachable state processes in use have distinct
    positive pids below [nextpid], a process is RUNNING exactly when one CPU runs it, every parent
    pointer leads to a process that has not exited, and init has not exited. *)
Theorem process_table_consistent (y : sys (F := F)) : sys_reachable kpgdir forkret_a trapret_a y ->
  let P := proc_at (y_s y) in
  (forall i, p_state (P i) <> UNUSED -> 0 < p_pid (P i) < s_nextpid (y_s y)) /\
  (forall i j, p_pid (P i) = p_pid (P j) -> p_pid (P i) <> 0 -> i = j) /\
  (forall i, p_state (P i) = RUNNING <-> exists c, y_cur y c = Some i) /\
  (forall c1 c2 i, y_cur y c1 = Some i -> y_cur y c2 = Some i -> c1 = c2) /\
  (forall i j, p_parent (P i) = Some j -> alive (P j)) /\
  (exists i0, s_initproc (y_s y) = Some i0 /\ alive (P i0)).
Proof.
  intros [(Ht & i0 & Hi0 & Hi) _]%reachable_y_inv P. split_and!; try apply Hi; [|exists i0; split; [done|apply Hi]].
  intros i Hne. pose proof (pi_pid _ _ _ _ Hi i Hne). pose proof (pi_pid_lt _ _ _ _ Hi i). subst P. lia.
Qed.
End ops.

(** ** Runs of the system *)

Inductive cmd := DoOp (c : nat) (o : op) | DoFork (c : nat) | DoStage (c : nat) | DoIdle (c : nat) | DoResume (c : nat).

Section runs.
Context {F : Type} `{FO : FileOps F} `{AS : AddrSpace}.
Variable kpgdir forkret_a trapret_a : Z.

(** What happens to CPU [c] after its process called [sched]. *)
Definition exec_sched (y : sys (F := F)) (c i : nat) (s : pst F) : option (sys (F := F)) :=
  if bool_decide (p_state (proc_at s i) = RUNNING) then None
  else match scheduler_return kpgdir i s with
       | Ok r s' => Some (after_sched y c r s')
       | _ => None
       end.

(** The process of CPU [c] makes a step of its own. *)
Definition exec_proc (k : cmd) (y : sys (F := F)) (c i : nat) : option (sys (F := F)) :=
  match k, y_fork y i with
  | DoOp _ o, None =>
      match run_op 2 o (on_cpu (Some i) (y_s y)) with
      | Ok _ s' => Some (after_op y s')
      | Block _ s' => exec_sched y c i s'
      | _ => None
      end
  | DoFork _, None =>
      match allocproc_slot (on_cpu (Some i) (y_s y)) with
      | Ok r s' => Some (after_stage y i (FStack <$> r) [] s')
      | _ => None
      end
  | DoStage _, Some g =>
      match fork_stage forkret_a trapret_a g (on_cpu (Some i) (y_s y)) with
      | Ok g' s' => Some (after_stage y i g' (failed g g' (y_s y)) s')
      | _ => None
      end
  | _, _ => None
  end.

Definition exec (k : cmd) (y : sys (F := F)) : option (sys (F := F)) :=
  match k, y_switched y with
  | (DoOp c _ | DoFork c | DoStage c), None =>
      match y_cur y c with
      | None => None
      | Some i => exec_proc k y c i
      end
  | DoIdle c, None =>
      match y_cur y c with
      | Some _ => None
      | None =>
          match scheduler (on_cpu None (y_s y)) with
          | Ok r s' => Some (after_sched y c r s')
          | _ => None
          end
      end
  | DoResume c, Some c' =>
      if negb (c =? c')%nat then None
      else match y_cur y c with
      | None => None
      | Some i =>
          match resume (p_kont (proc_at (y_s y) i)) (y_s y) with
          | Ok _ s' => Some (after_op y s')
          | Block _ s' => exec_sched y c i s'
          | _ => None
          end
      end
  | _, _ => None
  end.

Definition cmd_ok (k : cmd) : Prop := match k with DoOp _ o => op_ok o | _ => True end.

Lemma exec_proc_step k y y' c i : cmd_ok k -> y_switched y = None -> y_cur y c = Some i -> exec_proc k y c i = Some y' -> sys_step kpgdir forkret_a trapret_a y y'.
Proof.
  intros Hk Hsw Hc. unfold exec_proc, exec_sched. destruct k as [c' o|c'|c'|c'|c'], (y_fork y i) as [g|] eqn:Ef; try done.
  - destruct (run_op 2 o _) as [u s'| |ch s'|] eqn:Er; try done.
    + intros [= <-]. eapply step_op; [done|done|split; [done|by left]|exact Er].
    + case_bool_decide; [done|]. destruct (scheduler_return kpgdir i s') as [r s''| | |] eqn:Es; try done.
      intros [= <-]. eapply step_op_sched; [done|done|split; [done|by left]|exact Er|done|done].
  - destruct (allocproc_slot _) as [r s'| | |] eqn:Er; try done. intros [= <-]. by eapply step_fork.
  - destruct (fork_stage _ _ g _) as [g' s'| | |] eqn:Er; try done. intros [= <-]. by eapply step_stage.
Qed.

Lemma exec_step k y y' : cmd_ok k -> exec k y = Some y' -> sys_step kpgdir forkret_a trapret_a y y'.
Proof.
  intros Hk. unfold exec, exec_sched. destruct k as [c o|c|c|c|c], (y_switched y) as [c'|] eqn:Esw; try done;
    try (destruct (y_cur y c) as [i|] eqn:Ec; [|done]; by apply exec_proc_step).
  - destruct (y_cur y c) as [i|] eqn:Ec; [done|].
    destruct (scheduler _) as [r s'| | |] eqn:Es; try done. intros [= <-]. by eapply step_idle.
  - destruct (c =? c')%nat eqn:Ecc; [|done]. apply Nat.eqb_eq in Ecc as <-. simpl.
    destruct (y_cur y c) as [i|] eqn:Ec; [|done].
    destruct (resume _ _) as [u s'| |ch s'|] eqn:Er; try done.
    + intros [= <-]. by eapply step_resume.
    + case_bool_decide; [done|]. destruct (scheduler_return kpgdir i s') as [r s''| | |] eqn:Es; try done.
      intros [= <-]. by eapply step_resume_sched.
Qed.

Fixpoint exec_all (ks : list cmd) (y : sys (F := F)) : option (sys (F := F)) :=
  match ks with
  | [] => Some y
  | k :: ks' => match exec k y with Some y' => exec_all ks' y' | None => None end
  end.

Lemma exec_all_reachable ks : forall y y', Forall cmd_ok ks -> sys_reachable kpgdir forkret_a trapret_a y ->
  exec_all ks y = Some y' -> sys_reachable kpgdir forkret_a trapret_a y'.
Proof.
  induction ks as [|k ks IH]; intros y y' Hok Hy E; simpl in E; [by injection E as <-|].
  inversion Hok; subst. destruct (exec k y) as [y1|] eqn:E1; [|done].
  eapply IH; [done| |exact E]. eapply sys_reach_step; [done|]. by eapply exec_step.
Qed.
End runs.
