(* ===== verification/ProcRuns.v ===== *)
(** * Runs of the process table

    Concrete runs of the system of ProcSys.v, with the simplest address spaces and files that meet
    the interfaces: a process asleep in [wait], one asleep in [waitpid], one that waits for a
    fork that failed, and a run after which [exit] hangs. *)

From S2P Require Import Prelude CString Mmu Kalloc Vm VmSpec Spinlock Proc ProcSpec ProcSys ProcSafe.

(** Files and inodes without effects. *)
#[local] Instance null_files : FileOps unit := {|
  filedup := kret; fileclose := fun _ => kret tt; idup := kret; iput := fun _ => kret tt;
  namei_root := kret (Some 0%nat); initlog := kret tt
|}.

(** Address spaces that are only a page directory. *)
#[local] Instance null_vm : AddrSpace := {|
  vm_kfree := fun _ => kret tt; vm_setupkvm := kret 0x80600000; vm_inituvm := fun _ _ => kret tt;
  vm_allocuvm := fun _ _ sz => kret sz; vm_deallocuvm := fun _ _ sz => kret sz;
  vm_freevm := fun _ => kret tt; vm_copyuvm := fun _ _ => kret 0x80600000
|}.

Definition demo_init : proc :=
  Proc 4096 0x80600000 0x80601000 RUNNABLE 1 None 0x80601F00 0 KForkret ch_null 0
    (replicate NOFILE None) (Some 0%nat) "initcode" 0 0 1.

Definition demo_boot : sys (F := unit) :=
  Sys (Pst (demo_init :: replicate 63 zero_proc) 2 (Some 0%nat) true None [] 0 no_task
        (free_state (map sample_page [0; 1; 2; 3])) tt)
      (fun _ => None) None (fun _ => None) [].

Definition demo_exec (ks : list cmd) : option (sys (F := unit)) := exec_all 0x80602000 0 0 ks demo_boot.

Lemma demo_boot_ok : sys_boot demo_boot.
Proof.
  split; [done|]. split; [done|]. split; [done|]. split; [done|]. split; [by vm_compute|]. split; [done|]. split; [done|]. split; [done|].
  intros i Hi. destruct i as [|i]; [done|]. change (nth i (replicate 63 zero_proc) zero_proc = zero_proc).
  rewrite nth_lookup. destruct (replicate 63 zero_proc !! i) as [p|] eqn:E; [|done].
  by apply lookup_replicate in E as [-> _].
Qed.

Lemma demo_reachable ks y : Forall cmd_ok ks -> demo_exec ks = Some y -> sys_reachable 0x80602000 0 0 y.
Proof. intros Hk. apply exec_all_reachable; [done|]. apply sys_reach_boot, demo_boot_ok. Qed.

(** All of a fork on CPU [c]. *)
Definition forks (c : nat) : list cmd := [DoFork c; DoStage c; DoStage c; DoStage c; DoStage c].

(** init forks a child and waits for it. *)
Definition run_wait : list cmd := [DoIdle 0; DoResume 0] ++ forks 0 ++ [DoOp 0 (OpWait 0)].

Definition test (f : sys (F := unit) -> bool) (ks : list cmd) : bool :=
  match demo_exec ks with Some y => f y | None => false end.

Lemma test_reachable f ks : Forall cmd_ok ks -> test f ks = true ->
  exists y, sys_reachable 0x80602000 0 0 y /\ f y = true.
Proof.
  unfold test. intros Hk. destruct (demo_exec ks) as [y|] eqn:E; [|done]. intros Hf.
  exists y. split; [by eapply demo_reachable|done].
Qed.

Lemma wait_no_lost_wakeup_witness : exists y : sys (F := unit),
  p_state (proc_at (y_s y) 0) = SLEEPING /\ p_killed (proc_at (y_s y) 0) = 0.
Proof.
  destruct (test_reachable (fun y => st_is SLEEPING (proc_at (y_s y) 0) &&
    match p_kont (proc_at (y_s y) 0) with KWait 0 => true | _ => false end) run_wait) as (y & Hy & Hf).
  - by repeat constructor.
  - by vm_compute.
  - exists y. apply andb_prop in Hf as [Hf1 Hf2]. apply st_is_iff in Hf1.
    destruct (p_kont (proc_at (y_s y) 0)) as [| | | |[]| |] eqn:Ek; try done.
    split; [done|]. by apply (wait_no_lost_wakeup 0x80602000 0 0 y 0 0 Hy).
Defined.

(** init (pid 1) forks A (pid 2) and waits; A forks B (pid 3) and calls [waitpid(3)]. *)
Definition run_waitpid : list cmd :=
  run_wait ++ [DoResume 0] ++ forks 0 ++ [DoOp 0 (OpWaitpid 3 0 0)].

Lemma waitpid_no_lost_wakeup_witness : exists y : sys (F := unit),
  p_state (proc_at (y_s y) 1) = SLEEPING /\ y_failed y = [] /\ p_pid (proc_at (y_s y) 2) = 3 /\ alive (proc_at (y_s y) 2).
Proof.
  destruct (test_reachable (fun y => st_is SLEEPING (proc_at (y_s y) 1) &&
    match p_kont (proc_at (y_s y) 1) with KWaitpid 3 0 0 2 => true | _ => false end && bool_decide (y_failed y = [])) run_waitpid) as (y & Hy & Hf).
  - by repeat constructor.
  - by vm_compute.
  - exists y. apply andb_prop in Hf as [Hf Hf3]. apply bool_decide_eq_true in Hf3. apply andb_prop in Hf as [Hf1 Hf2]. apply st_is_iff in Hf1.
    destruct (p_kont (proc_at (y_s y) 1)) as [| | | | |pid st o t|] eqn:Ek; try done.
    assert (pid = 3 /\ st = 0 /\ o = 0 /\ t = 2%nat) as (-> & -> & -> & ->) by (repeat case_match; subst; done).
    destruct (waitpid_no_lost_wakeup 0x80602000 0 0 y 1 3 0 0 2 Hy Hf1 Ek) as (_ & [(? & ? & _)|(Hd & _)]); [done|]. rewrite Hf3 in Hd. by apply elem_of_nil in Hd.
Defined.

Lemma process_table_consistent_witness : exists y : sys (F := unit), 
  test (fun _ => true) run_waitpid = true /\ exists i0, s_initproc (y_s y) = Some i0 /\ alive (proc_at (y_s y) i0).
Proof.
  destruct (test_reachable (fun _ => true) run_waitpid) as (y & Hy & Hf).
  - by repeat constructor.
  - by vm_compute.
  - exists y. split; [by vm_compute|]. by destruct (process_table_consistent 0x80602000 0 0 y Hy) as (_ & _ & _ & _ & _ & ?).
Defined.

(** init (pid 1) forks A to D, which takes the last free page, and starts another fork, which is given pid 6; before it finds that there is no memory, A calls [waitpid(6)] on another CPU. *)
Definition run_failed : list cmd :=
  [DoIdle 0; DoResume 0] ++ forks 0 ++ forks 0 ++ forks 0 ++ forks 0 ++ [DoFork 0; DoIdle 1; DoResume 1; DoOp 1 (OpWaitpid 6 0 0); DoResume 1; DoStage 0].

(** C35: a failing fork loses a wakeup.  There is a reachable state in which a process that was not killed sleeps in [waitpid] for a pid whose fork has failed: the
    slot is free again, no process has the pid, and nobody was woken when the fork gave the slot back, which it does without [ptable.lock]. *)
Theorem failed_fork_strands_waitpid : exists (y : sys (F := unit)) i pid st o t,
  sys_reachable 0x80602000 0 0 y /\ p_state (proc_at (y_s y) i) = SLEEPING /\ p_killed (proc_at (y_s y) i) = 0 /\
  p_kont (proc_at (y_s y) i) = KWaitpid pid st o t /\ p_chan (proc_at (y_s y) i) = ch_proc t /\ pid ∈ y_failed y /\ p_state (proc_at (y_s y) t) = UNUSED /\
  forall j, (j < NPROC)%nat -> p_state (proc_at (y_s y) j) <> UNUSED -> p_pid (proc_at (y_s y) j) <> pid.
Proof.
  destruct (demo_exec run_failed) as [y|] eqn:E; [|by vm_compute in E]. exists y, 1%nat, 6, 0, 0, 5%nat.
  split; [eapply demo_reachable; [|exact E]; by repeat constructor|].
  assert (Hy : demo_exec run_failed = Some y) by exact E. vm_compute in Hy. injection Hy as <-. clear E. split_and!; try (by vm_compute); [by apply list_elem_of_here|].
  intros j Hj. unfold NPROC in Hj. do 64 (destruct j as [|j]; [by vm_compute|]). lia.
Qed.

(** After [run_waitpid] B kills A, which wakes A without counting it off B's [cur_index]. *)
Definition run_hang : list cmd := run_waitpid ++ [DoResume 0; DoOp 0 (OpKill 2)].

Definition hang_ok (y : sys (F := unit)) : bool :=
  bool_decide (length (s_procs (y_s y)) = NPROC) && bool_decide (y_cur y 0 = Some 2%nat) && bool_decide (y_switched y = None) &&
  bool_decide (s_initproc (y_s y) = Some 0%nat) &&
  forallb (fun f => match f with None => true | _ => false end) (p_ofile (proc_at (y_s y) 2)) &&
  bool_decide (p_cwd (proc_at (y_s y) 2) = Some 0%nat) &&
  (Z.of_nat (length (sleepers (ch_proc 2) (y_s y) table)) <? p_cur_index (proc_at (y_s y) 2)).

Lemma forallb_nth (l : list (option nat)) fd :
  forallb (fun f => match f with None => true | _ => false end) l = true -> nth fd l None = None.
Proof.
  intros Hl. rewrite nth_lookup. destruct (l !! fd) as [f|] eqn:E; [|done]. simpl.
  apply list_elem_of_lookup_2 in E. rewrite forallb_forall in Hl. specialize (Hl f).
  rewrite <- list_elem_of_In in Hl. specialize (Hl E). by destruct f.
Qed.

(** C34: [exit] can hang the machine.  There is a reachable state (a process called [waitpid] for a child,
    and the child killed it) in which the child, running on a CPU with no lock held, calls [exit] and
    never gets past the loop over [cur_index], whatever the exit status and however long it runs. *)
Theorem exit_may_hang : exists (y : sys (F := unit)) c i,
  sys_reachable 0x80602000 0 0 y /\ y_switched y = None /\ y_cur y c = Some i /\
  forall st fuel, run_op fuel (OpExit st) (on_cpu (Some i) (y_s y)) = NoFuel.
Proof.
  destruct (test_reachable hang_ok run_hang) as (y & Hy & Hf); [by repeat constructor|by vm_compute|].
  unfold hang_ok in Hf. repeat (apply andb_prop in Hf as [Hf ?]).
  repeat match goal with H : bool_decide _ = true |- _ => apply bool_decide_eq_true in H end.
  exists y, 0%nat, 2%nat. split; [done|]. split; [done|]. split; [done|]. intros st fuel. simpl.
  apply (exit_hangs 2 st fuel 0 tt (s_k (y_s y))); try done.
  - unfold NPROC. lia.
  - simpl. congruence.
  - intros fd. by apply forallb_nth.
  - simpl. unfold kret. by destruct (s_fs (y_s y)).
  - by apply Z.ltb_lt.
Qed.

(** [kill(0)] succeeds although no process has pid 0.  It finds the first free slot and marks it, and
    [fork] does not clear the mark: the next process forked is born killed. *)
Theorem kill_zero_marks_next_process :
  match demo_exec [DoIdle 0; DoResume 0] with
  | Some y =>
      match kill 0 (on_cpu (Some 0%nat) (y_s y)) with
      | Ok r s =>
          r = 0 /\
          match fork 0 0 s with
          | Ok pid s' => pid = 2 /\ p_state (proc_at s' 1) = RUNNABLE /\ p_pid (proc_at s' 1) = 2 /\
                         p_killed (proc_at s' 1) = 1
          | _ => False
          end
      | _ => False
      end
  | None => False
  end.
Proof. by vm_compute. Qed.

(** ** The theorems at these states *)

Definition demo_state : pst unit := y_s demo_boot.

Lemma scheduler_runs_highest_priority_witness :
  runs (scheduler_from 0) (set_held [lk_ptable] demo_state) (fun r s' =>
    match r with Some hp => p_state (proc_at demo_state hp) = RUNNABLE | None => False end).
Proof.
  eapply runs_conseq.
  - apply (scheduler_runs_highest_priority 0 (set_held [lk_ptable] demo_state)).
    + by vm_compute.
    + done.
    + intros [|i] Hi; [by vm_compute|]. destruct demo_boot_ok as (_ & _ & _ & _ & _ & _ & _ & _ & Hz).
      unfold runnable in Hi. change (proc_at (set_held [lk_ptable] demo_state) (S i)) with (proc_at demo_state (S i)) in Hi.
      unfold demo_state in Hi. by rewrite Hz in Hi.
  - intros [hp|] s' Hr; simpl in Hr.
    + destruct Hr as [Hr _]. by apply st_is_iff in Hr.
    + destruct Hr as [Hr _]. specialize (Hr 0%nat ltac:(lia)). by vm_compute in Hr.
Defined.

Lemma kill_correct_witness : runs (kill 1) demo_state (fun r s' => r = 0 /\ held s' = []).
Proof.
  eapply runs_conseq; [apply (kill_correct 1 demo_state); by vm_compute|].
  intros r s' (Hr & _ & Hh & _). split; [|done]. apply Hr. exists 0%nat. split; [unfold NPROC; lia|done].
Defined.

Lemma exit_wake_terminates_iff_witness :
  exists fuel s', exit_wake 0 fuel demo_state = Ok tt s'.
Proof.
  apply (exit_wake_terminates_iff 0 demo_state); [by vm_compute|unfold NPROC; lia|]. by vm_compute.
Defined.

Lemma wait_waitpid_terminate_witness :
  let _ := kernel_vm 0x80400000 0x80300000 in
  wait (F := unit) 0 demo_state <> NoFuel /\ waitpid (F := unit) 1 0 0 demo_state <> NoFuel.
Proof.
  intros A. destruct (wait_waitpid_terminate (F := unit) (AS := A) KYield 1 0 0 demo_state) as (H1 & H2 & _).
  - by intros s.
  - done.
Defined.
