(* ===== verification/Bio.v ===== *)
(** * The buffer cache: bio.c, and the memory disk of memide.c

    The buffers are the ten [struct buf] of [bcache], linked into a ring through [head] (index
    [NBUF]) by [prev] and [next]; sector contents are lists of 512 bytes.  [iderw] is that of
    memide.c: it moves a sector between the buffer and the disk at once (IdeSpec.v compares it with the
    interrupt-driven driver of ide.c).  [b_trace] is a history variable: the sectors written to
    the disk, in order. *)

From S2P Require Import Prelude.

Definition NBUF : nat := 10.
Definition BSIZE : Z := 512.
Definition B_BUSY : Z := 1.
Definition B_VALID : Z := 2.
Definition B_DIRTY : Z := 4.

(** [struct buf]; [prev] and [next] are indices, [NBUF] stands for [bcache.head]. *)
Record buf := Buf { flags : Z; dev : Z; sector : Z; prev : nat; next : nat; data : list Z }.

Definition set_flags (v : Z) (b : buf) : buf := Buf v (dev b) (sector b) (prev b) (next b) (data b).
Definition set_id (d s : Z) (b : buf) : buf := Buf (flags b) d s (prev b) (next b) (data b).
Definition set_prev (v : nat) (b : buf) : buf := Buf (flags b) (dev b) (sector b) v (next b) (data b).
Definition set_next (v : nat) (b : buf) : buf := Buf (flags b) (dev b) (sector b) (prev b) v (data b).
Definition set_data (v : list Z) (b : buf) : buf := Buf (flags b) (dev b) (sector b) (prev b) (next b) v.

(** The cache (the buffers, then the head), the disk and its size in sectors. *)
Record bst := Bst {
  b_buf : list buf;
  b_disk : Z -> list Z;
  b_size : Z;
  b_held : list lockid;
  b_trace : list (Z * list Z)
}.

Definition set_b_buf (v : list buf) (s : bst) : bst := Bst v (b_disk s) (b_size s) (b_held s) (b_trace s).
Definition set_b_held (v : list lockid) (s : bst) : bst := Bst (b_buf s) (b_disk s) (b_size s) v (b_trace s).

(** A sector is written. *)
Definition disk_write (n : Z) (v : list Z) (s : bst) : bst :=
  Bst (b_buf s) (fun m => if m =? n then v else b_disk s m) (b_size s) (b_held s) (b_trace s ++ [(n, v)]).

#[global] Instance bst_locks : HasLocks bst.
Proof. refine {| held := b_held; set_held := set_b_held |}; by intros; destruct s. Defined.

Definition head : nat := NBUF.
Definition null_buf : buf := Buf 0 0 0 0 0 [].

Definition buf_at (s : bst) (i : nat) : buf := nth i (b_buf s) null_buf.
Definition upd_buf (i : nat) (f : buf -> buf) (s : bst) : bst := set_b_buf (alter f i (b_buf s)) s.
Definition getb {A} (i : nat) (f : buf -> A) : K bst A := kgets (fun s => f (buf_at s i)).
Definition setb (i : nat) (f : buf -> buf) : K bst unit := kmod (upd_buf i f).

Definition has (f m : Z) : bool := negb (Z.land f m =? 0).

(** The body of the loop of [binit] for buffer [b]. *)
Definition binit_one (b : nat) : K bst unit :=
  let* hn := getb head next in
  setb b (set_next hn) ;;;
  setb b (set_prev head) ;;;
  setb b (fun x => set_id (u32 (-1)) (sector x) x) ;;;
  let* hn := getb head next in
  setb hn (set_prev b) ;;;
  setb head (set_next b).

Definition binit : K bst unit :=
  setb head (set_prev head) ;;;
  setb head (set_next head) ;;;
  for_each (seq 0 NBUF) binit_one.

(** memide.c *)
Definition iderw (b : nat) : K bst unit :=
  let* x := getb b (fun x => x) in
  let* size := kgets b_size in
  if negb (has (flags x) B_BUSY) then kpanic "iderw: buf not busy"
  else if Z.land (flags x) (Z.lor B_VALID B_DIRTY) =? B_VALID then kpanic "iderw: nothing to do"
  else if negb (dev x =? 1) then kpanic "iderw: request not for disk 1"
  else if size <=? sector x then kpanic "iderw: sector out of range"
  else
    (if has (flags x) B_DIRTY then
       setb b (fun y => set_flags (Z.land (flags y) (Z.lnot B_DIRTY)) y) ;;;
       kmod (disk_write (sector x) (data x))
     else
       let* v := kgets (fun s => b_disk s (sector x)) in
       setb b (set_data v)) ;;;
    setb b (fun y => set_flags (Z.lor (flags y) B_VALID) y).

(** The first loop of [bget]: the buffer of the sector, from [b] on along [next]. *)
Fixpoint bget_find (d n : Z) (b : nat) (fuel : nat) : K bst (option nat) :=
  match fuel with
  | O => knofuel
  | S fuel' =>
      if bool_decide (b = head) then kret None
      else
        let* x := getb b (fun x => x) in
        if (dev x =? d) && (sector x =? n) then kret (Some b)
        else bget_find d n (next x) fuel'
  end.

(** The second loop: a buffer to recycle, from [b] on along [prev]. *)
Fixpoint bget_free (b : nat) (fuel : nat) : K bst (option nat) :=
  match fuel with
  | O => knofuel
  | S fuel' =>
      if bool_decide (b = head) then kret None
      else
        let* x := getb b (fun x => x) in
        if negb (has (flags x) B_BUSY) && negb (has (flags x) B_DIRTY) then kret (Some b)
        else bget_free (prev x) fuel'
  end.

(** [bget] up to its return or to the [sleep] on a busy buffer, which gives up the lock; when
    the process is woken it takes the lock and starts again from the label [loop], which is
    to call [bget] again. *)
Definition bget (d n : Z) : K bst nat :=
  acquire lk_bcache ;;;
  let* first := getb head next in
  let* hit := bget_find d n first (S NBUF) in
  match hit with
  | Some b =>
      let* x := getb b (fun x => x) in
      if negb (has (flags x) B_BUSY) then
        setb b (set_flags (Z.lor (flags x) B_BUSY)) ;;;
        release lk_bcache ;;;
        kret b
      else
        release lk_bcache ;;;
        kblock (ch_buf b)
  | None =>
      let* last := getb head prev in
      let* free := bget_free last (S NBUF) in
      match free with
      | Some b =>
          setb b (set_id d n) ;;;
          setb b (set_flags B_BUSY) ;;;
          release lk_bcache ;;;
          kret b
      | None => kpanic "bget: no buffers"
      end
  end.

Definition bread (d n : Z) : K bst nat :=
  let* b := bget d n in
  let* f := getb b flags in
  (when negb (has f B_VALID) do iderw b) ;;;
  kret b.

Definition bwrite (b : nat) : K bst unit :=
  let* f := getb b flags in
  if negb (has f B_BUSY) then kpanic "bwrite"
  else
    setb b (set_flags (Z.lor f B_DIRTY)) ;;;
    iderw b.

(** [wakeup(b)] acts on the process table only. *)
Definition brelse (b : nat) : K bst unit :=
  let* f := getb b flags in
  if negb (has f B_BUSY) then kpanic "brelse"
  else
    acquire lk_bcache ;;;
    let* x := getb b (fun x => x) in
    setb (next x) (set_prev (prev x)) ;;;
    let* x := getb b (fun x => x) in
    setb (prev x) (set_next (next x)) ;;;
    let* hn := getb head next in
    setb b (set_next hn) ;;;
    setb b (set_prev head) ;;;
    let* hn := getb head next in
    setb hn (set_prev b) ;;;
    setb head (set_next b) ;;;
    setb b (fun y => set_flags (Z.land (flags y) (Z.lnot B_BUSY)) y) ;;;
    release lk_bcache.
