(* ===== verification/BufferCache.v ===== *)
(** * The interface of the buffer cache

    What bio.c promises to log.c and fs.c: the operations ([BufferOps]), the abstract state
    they act on ([cache]) and their laws ([BufferCache]).  A sector has one current content, its
    [c_view]; [c_disk] is what the disk holds, [c_trace] the writes it has received,
    [c_busy] the sectors whose buffers are in use and [c_dirty] those pinned by [B_DIRTY]. *)

From S2P Require Import Prelude Bio.

Record cache := Cache {
  c_view : Z -> list Z;
  c_disk : Z -> list Z;
  c_size : Z;
  c_trace : list (Z * list Z);
  c_busy : gset Z;
  c_dirty : gset Z
}.

(** Caches are compared sector by sector. *)
#[global] Instance cache_equiv : Equiv cache := fun c c' =>
  (forall n, c_view c n = c_view c' n) /\ (forall n, c_disk c n = c_disk c' n) /\ c_size c = c_size c' /\
  c_trace c = c_trace c' /\ c_busy c = c_busy c' /\ c_dirty c = c_dirty c'.

#[global] Instance cache_equivalence : Equivalence (≡@{cache}).
Proof.
  split.
  - by intros c.
  - intros c c' (H1 & H2 & H3 & H4 & H5 & H6). by split_and!.
  - intros c1 c2 c3 (H1 & H2 & H3 & H4 & H5 & H6) (G1 & G2 & G3 & G4 & G5 & G6).
    split_and!; intros; etrans; eauto.
Qed.

Definition set_view (n : Z) (v : list Z) (c : cache) : cache :=
  Cache (upd (c_view c) n v) (c_disk c) (c_size c) (c_trace c) (c_busy c) (c_dirty c).
Definition set_busy (b : gset Z) (c : cache) : cache :=
  Cache (c_view c) (c_disk c) (c_size c) (c_trace c) b (c_dirty c).
Definition set_dirty (d : gset Z) (c : cache) : cache :=
  Cache (c_view c) (c_disk c) (c_size c) (c_trace c) (c_busy c) d.
(** The content of a sector goes to the disk. *)
Definition flush (n : Z) (c : cache) : cache :=
  Cache (c_view c) (upd (c_disk c) n (c_view c n)) (c_size c) (c_trace c ++ [(n, c_view c n)]) (c_busy c)
    (c_dirty c ∖ {[ n ]}).

#[global] Instance set_view_proper n v : Proper ((≡) ==> (≡)) (set_view n v).
Proof.
  intros c c' (H1 & H2 & H3 & H4 & H5 & H6). split_and!; simpl; try done. intros m. unfold upd. by case_decide.
Qed.
#[global] Instance set_busy_proper b : Proper ((≡) ==> (≡)) (set_busy b).
Proof. intros c c' (H1 & H2 & H3 & H4 & H5 & H6). by split_and!. Qed.
#[global] Instance set_dirty_proper b : Proper ((≡) ==> (≡)) (set_dirty b).
Proof. intros c c' (H1 & H2 & H3 & H4 & H5 & H6). by split_and!. Qed.
#[global] Instance flush_proper n : Proper ((≡) ==> (≡)) (flush n).
Proof.
  intros c c' (H1 & H2 & H3 & H4 & H5 & H6). split_and!; simpl; try done.
  - intros m. unfold upd. rewrite H1. by case_decide.
  - by rewrite H1, H4.
  - by rewrite H6.
Qed.

(** The operations on a cache of type [B]; a buffer pointer is an index. *)
Class BufferOps (B : Type) := {
  bc_locks :: HasLocks B;
  bc_bread : Z -> Z -> K B nat;
  bc_bwrite : nat -> K B unit;
  bc_brelse : nat -> K B unit;
  bc_put : nat -> list Z -> K B unit;          (* a store into b->data *)
  bc_mark : nat -> K B unit;                   (* b->flags |= B_DIRTY *)
  bc_buf : B -> nat -> buf
}.

Section interface.
Context {B : Type} {OPS : BufferOps B}.

(** The sectors that cannot be evicted. *)
Definition pinned (c : cache) : gset Z := c_busy c ∪ c_dirty c.

(** [bread] finds the sector or a buffer for it. *)
Definition can_read (c : cache) (n : Z) : Prop :=
  0 <= n < c_size c /\ (n ∉ c_busy c) /\ ((n ∉ c_dirty c) -> (size (pinned c) < NBUF)%nat).
End interface.

#[global] Instance can_read_proper : Proper ((≡) ==> (=) ==> iff) can_read.
Proof.
  intros c c' (H1 & H2 & H3 & H4 & H5 & H6) n ? <-. unfold can_read, pinned. by rewrite H3, H5, H6.
Qed.

Class BufferCache (B : Type) `{OPS : BufferOps B} := {
  bc_inv : B -> Prop;
  bc_abs : B -> cache;
  bc_holds : B -> nat -> Z -> Prop;
  bc_held_buf : forall s b n, bc_inv s -> bc_holds s b n ->
    sector (bc_buf s b) = n /\ dev (bc_buf s b) = 1 /\ data (bc_buf s b) = c_view (bc_abs s) n /\
    n ∈ c_busy (bc_abs s) /\ 0 <= n < c_size (bc_abs s);
  bc_clean : forall s n, bc_inv s -> (n ∉ pinned (bc_abs s)) -> c_view (bc_abs s) n = c_disk (bc_abs s) n;
  bc_lock : forall s lk l, bc_inv s -> lk <> lk_bcache -> l = lk :: held s \/ l = remove_lock lk (held s) ->
    bc_inv (set_held l s) /\ bc_abs (set_held l s) ≡ bc_abs s /\
    (forall b n, bc_holds s b n -> bc_holds (set_held l s) b n);
  bc_bread_law : forall s n, bc_inv s -> can_read (bc_abs s) n ->
    runs (bc_bread 1 n) s (fun b s' => bc_inv s' /\ bc_holds s' b n /\ held s' = held s /\
      bc_abs s' ≡ set_busy ({[ n ]} ∪ c_busy (bc_abs s)) (bc_abs s) /\
      (forall b' m, bc_holds s b' m -> bc_holds s' b' m));
  bc_put_law : forall s b n v, bc_inv s -> bc_holds s b n ->
    runs (bc_put b v) s (fun _ s' => bc_inv s' /\ held s' = held s /\ bc_abs s' ≡ set_view n v (bc_abs s) /\
      (forall b' m, bc_holds s b' m -> bc_holds s' b' m));
  bc_mark_law : forall s b n, bc_inv s -> bc_holds s b n ->
    runs (bc_mark b) s (fun _ s' => bc_inv s' /\ held s' = held s /\
      bc_abs s' ≡ set_dirty ({[ n ]} ∪ c_dirty (bc_abs s)) (bc_abs s) /\
      (forall b' m, bc_holds s b' m -> bc_holds s' b' m));
  bc_bwrite_law : forall s b n, bc_inv s -> bc_holds s b n ->
    runs (bc_bwrite b) s (fun _ s' => bc_inv s' /\ held s' = held s /\ bc_abs s' ≡ flush n (bc_abs s) /\
      (forall b' m, bc_holds s b' m -> bc_holds s' b' m));
  bc_brelse_law : forall s b n, bc_inv s -> bc_holds s b n ->
    n ∈ c_dirty (bc_abs s) \/ c_view (bc_abs s) n = c_disk (bc_abs s) n ->
    runs (bc_brelse b) s (fun _ s' => bc_inv s' /\ held s' = held s /\
      bc_abs s' ≡ set_busy (c_busy (bc_abs s) ∖ {[ n ]}) (bc_abs s) /\
      (forall b' m, m <> n -> bc_holds s b' m -> bc_holds s' b' m))
}.
