(* ===== verification/BioSpec.v ===== *)
(** * What the buffer cache promises

    [binv]: the ring links exactly the ten buffers, no sector is cached twice, and a clean
    buffer that nobody uses agrees with the disk.  Against this invariant [bread], [bwrite] and
    [brelse] satisfy the laws of the interface [BufferCache], through which log.c and fs.c use
    them: a sector has one current content ([view]), which [bread] returns and nothing but
    the holder of the sector's buffer changes. *)

From S2P Require Import Prelude Bio BufferCache.

(** ** Flags *)

Lemma flag_cases f : 0 <= f < 8 -> f = 0 \/ f = 1 \/ f = 2 \/ f = 3 \/ f = 4 \/ f = 5 \/ f = 6 \/ f = 7.
Proof. lia. Qed.

Ltac flag_tac Hf :=
  apply flag_cases in Hf as [->|[->|[->|[->|[->|[->|[->| ->]]]]]]]; vm_compute; try done; try lia.

Lemma flags_set f m : 0 <= f < 8 -> m = B_BUSY \/ m = B_VALID \/ m = B_DIRTY ->
  0 <= Z.lor f m < 8 /\ has (Z.lor f m) m = true /\
  forall m', m' = B_BUSY \/ m' = B_VALID \/ m' = B_DIRTY -> m' <> m -> has (Z.lor f m) m' = has f m'.
Proof.
  intros Hf [->|[->| ->]]; (split; [by flag_tac Hf|]); (split; [by flag_tac Hf|]);
    intros m' [->|[->| ->]] Hm; try done; flag_tac Hf.
Qed.

Lemma flags_clear f m : 0 <= f < 8 -> m = B_BUSY \/ m = B_VALID \/ m = B_DIRTY ->
  0 <= Z.land f (Z.lnot m) < 8 /\ has (Z.land f (Z.lnot m)) m = false /\
  forall m', m' = B_BUSY \/ m' = B_VALID \/ m' = B_DIRTY -> m' <> m -> has (Z.land f (Z.lnot m)) m' = has f m'.
Proof.
  intros Hf [->|[->| ->]]; (split; [by flag_tac Hf|]); (split; [by flag_tac Hf|]);
    intros m' [->|[->| ->]] Hm; try done; flag_tac Hf.
Qed.

Lemma flags_settled f : 0 <= f < 8 ->
  (Z.land f (Z.lor B_VALID B_DIRTY) =? B_VALID) = has f B_VALID && negb (has f B_DIRTY).
Proof. intros Hf. flag_tac Hf. Qed.

(** ** Reads and updates of buffers *)

Lemma buf_at_upd s i f j : (i < length (b_buf s))%nat ->
  buf_at (upd_buf i f s) j = if decide (i = j) then f (buf_at s i) else buf_at s j.
Proof.
  intros Hi. unfold buf_at, upd_buf. simpl. rewrite !nth_lookup. destruct (decide (i = j)) as [->|Hij].
  - rewrite list_lookup_alter_eq. by apply lookup_lt_is_Some in Hi as [p ->].
  - by rewrite list_lookup_alter_ne.
Qed.

Lemma length_upd s i f : length (b_buf (upd_buf i f s)) = length (b_buf s).
Proof. simpl. by rewrite length_alter. Qed.

(** ** The ring *)

(** In a ring with links [nx] and [pv], following [nx] from [a] visits [l] and then [z], and
    [pv] leads back. *)
Fixpoint linked (nx pv : nat -> nat) (a : nat) (l : list nat) (z : nat) : Prop :=
  match l with
  | [] => nx a = z /\ pv z = a
  | x :: l' => nx a = x /\ pv x = a /\ linked nx pv x l' z
  end.

Lemma linked_app nx pv l1 x l2 : forall a z,
  linked nx pv a (l1 ++ x :: l2) z <-> linked nx pv a l1 x /\ linked nx pv x l2 z.
Proof. induction l1 as [|y l1 IH]; intros a z; simpl; [tauto|]. rewrite IH. tauto. Qed.

Lemma linked_ext nx pv nx' pv' l : forall a z,
  (forall i, i = a \/ i ∈ l -> nx' i = nx i) -> (forall i, i = z \/ i ∈ l -> pv' i = pv i) ->
  linked nx pv a l z -> linked nx' pv' a l z.
Proof.
  induction l as [|x l IH]; intros a z Hn Hp; simpl.
  - rewrite Hn, Hp by by left. done.
  - intros (H1 & H2 & H3). rewrite Hn by by left. rewrite Hp by (right; left).
    split; [done|]. split; [done|]. apply IH; [| |done]; intros i [->|Hi].
    + apply Hn. right. left.
    + apply Hn. right. by right.
    + apply Hp. by left.
    + apply Hp. right. by right.
Qed.

Lemma linked_first nx pv a l z : linked nx pv a l z -> nx a = z \/ nx a ∈ l.
Proof. destruct l; simpl; [by intros [-> _]; left|]. intros (-> & _). right. left. Qed.

Lemma linked_last nx pv l z : forall a, linked nx pv a l z -> (l = [] /\ pv z = a) \/ pv z ∈ l.
Proof.
  induction l as [|x l IH]; intros a; simpl; [by intros [_ ->]; left|].
  intros (_ & _ & Hl). right. destruct (IH x Hl) as [[_ ->]|Hin]; [left|by right].
Qed.

(** Taking [b] out of the ring. *)
Lemma linked_remove nx pv b l2 z : forall l1 a, linked nx pv a l1 b -> linked nx pv b l2 z ->
  NoDup (a :: l1 ++ b :: l2) -> (z ∉ l1 ++ b :: l2) ->
  linked (upd nx (pv b) (nx b)) (upd pv (nx b) (pv b)) a (l1 ++ l2) z.
Proof.
  induction l1 as [|x l1 IH]; intros a H1 H2 Hnd Hz; simpl in *.
  - destruct H1 as [Ha Hb]. rewrite Hb. apply NoDup_cons in Hnd as [Hab Hnd].
    apply NoDup_cons in Hnd as [Hbl Hnd]. apply not_elem_of_cons in Hab as [Hab Hal].
    apply not_elem_of_cons in Hz as [Hzb Hzl].
    destruct l2 as [|y l2]; simpl in *.
    + destruct H2 as [-> _]. by rewrite !upd_eq.
    + destruct H2 as (-> & _ & H2). rewrite !upd_eq. split; [done|]. split; [done|].
      apply not_elem_of_cons in Hal as [Hay Hal], Hzl as [Hzy Hzl]. apply NoDup_cons in Hnd as [Hy Hnd].
      eapply linked_ext; [| |exact H2]; intros i [->|Hi]; apply upd_ne; try done; by intros ->.
  - destruct H1 as (Ha & Hx & H1). apply NoDup_cons in Hnd as [Hal Hnd]. apply not_elem_of_cons in Hz as [Hzx Hz].
    pose proof Hnd as Hnd'. apply NoDup_cons in Hnd' as [Hxl _].
    rewrite upd_ne, upd_ne; [split; [done|split; [done|by apply IH]]| |].
    + intros Ex. destruct (linked_first _ _ _ _ _ H2) as [E|E]; [congruence|]. apply Hxl, elem_of_app. right. right.
      by rewrite Ex.
    + intros Ex. apply Hal. destruct (linked_last _ _ _ _ _ H1) as [[_ E]|E].
      * rewrite Ex, E. left.
      * right. apply elem_of_app. left. by rewrite Ex.
Qed.

(** Putting [b] first in the ring. *)
Lemma linked_insert nx pv a b l z : linked nx pv a l z -> b <> a -> b <> z -> (b ∉ l) -> (z ∉ l) -> NoDup (a :: l) ->
  linked (upd (upd nx b (nx a)) a b) (upd (upd pv b a) (nx a) b) a (b :: l) z.
Proof.
  intros Hl Hba Hbz Hbl Hzl Hnd. apply NoDup_cons in Hnd as [Hal Hnd]. simpl.
  assert (Hna : nx a <> b).
  { intros E. destruct (linked_first _ _ _ _ _ Hl) as [E'|E']; [congruence|]. by rewrite E in E'. }
  split; [by rewrite upd_eq|]. split; [rewrite upd_ne by done; by rewrite upd_eq|].
  destruct l as [|x l]; simpl in *.
  - destruct Hl as [-> _]. rewrite upd_eq. by rewrite upd_ne, upd_eq by done.
  - destruct Hl as (-> & _ & Hl). apply not_elem_of_cons in Hbl as [Hbx Hbl], Hzl as [Hzx Hzl], Hal as [Hax Hal].
    apply NoDup_cons in Hnd as [Hx Hnd].
    rewrite upd_ne, !upd_eq by done. split; [done|]. split; [done|].
    eapply linked_ext; [| |exact Hl]; intros i [->|Hi]; rewrite !upd_ne; try done; by intros ->.
Qed.

Definition nx (s : bst) (i : nat) : nat := next (buf_at s i).
Definition pv (s : bst) (i : nat) : nat := prev (buf_at s i).
Definition ring (s : bst) (l : list nat) : Prop := linked (nx s) (pv s) head l head.

(** The searches of [bget] walk the ring. *)
Lemma bget_find_ring s d n : forall l a fuel, linked (nx s) (pv s) a l head -> (head ∉ l) -> (length l < fuel)%nat ->
  bget_find d n (nx s a) fuel s =
    Ok (find (fun i => (dev (buf_at s i) =? d) && (sector (buf_at s i) =? n)) l) s.
Proof.
  induction l as [|x l IH]; intros a fuel Hs Hh Hf; (destruct fuel as [|fuel]; [simpl in Hf; lia|]); simpl.
  - destruct Hs as [-> _]. by rewrite bool_decide_eq_true_2.
  - destruct Hs as (-> & _ & Hs). apply not_elem_of_cons in Hh as [Hx Hh].
    rewrite bool_decide_eq_false_2 by done. unfold kbind, getb, kgets.
    case_match; [done|]. apply IH; [done|done|]. simpl in Hf. lia.
Qed.

Definition recyclable (b : buf) : bool := negb (has (flags b) B_BUSY) && negb (has (flags b) B_DIRTY).

Lemma bget_free_ring s : forall l z fuel, linked (nx s) (pv s) head l z -> (head ∉ l) -> (length l < fuel)%nat ->
  bget_free (pv s z) fuel s = Ok (find (fun i => recyclable (buf_at s i)) (rev l)) s.
Proof.
  induction l as [|x l IH] using rev_ind; intros z fuel Hs Hh Hf; (destruct fuel as [|fuel]; [simpl in Hf; lia|]).
  - destruct Hs as [_ ->]. done.
  - apply linked_app in Hs as [Hs [_ ->]]. rewrite rev_app_distr. simpl.
    apply not_elem_of_app in Hh as [Hh Hx]. rewrite list_elem_of_singleton in Hx.
    rewrite bool_decide_eq_false_2 by done. unfold kbind, getb, kgets. fold (recyclable (buf_at s x)).
    destruct (recyclable (buf_at s x)); [done|]. apply IH; [done|done|]. rewrite length_app in Hf. simpl in Hf. lia.
Qed.

(** ** The invariant and the abstract content of the cache *)

Definition is_cached (s : bst) (n : Z) (i : nat) : Prop :=
  (i < NBUF)%nat /\ dev (buf_at s i) = 1 /\ sector (buf_at s i) = n.

Definition busy_buf (b : buf) : bool := has (flags b) B_BUSY.
Definition valid_buf (b : buf) : bool := has (flags b) B_VALID.
Definition dirty_buf (b : buf) : bool := has (flags b) B_DIRTY.

(** The buffers form a ring, whatever they hold. *)
Record rinv (s : bst) (l : list nat) : Prop := {
  ri_len : length (b_buf s) = S NBUF;
  ri_ring : ring s l;
  ri_perm : l ≡ₚ seq 0 NBUF
}.

Record binv (s : bst) (l : list nat) : Prop := {
  bi_len : length (b_buf s) = S NBUF;
  bi_ring : ring s l;
  bi_perm : l ≡ₚ seq 0 NBUF;
  bi_flags : forall i, (i < NBUF)%nat -> 0 <= flags (buf_at s i) < 8;
  bi_dirty : forall i, (i < NBUF)%nat -> dirty_buf (buf_at s i) = true -> valid_buf (buf_at s i) = true;
  bi_dev : forall i, (i < NBUF)%nat -> busy_buf (buf_at s i) = true \/ dirty_buf (buf_at s i) = true -> dev (buf_at s i) = 1;
  bi_uniq : forall n i j, is_cached s n i -> is_cached s n j -> i = j;
  bi_clean : forall i, (i < NBUF)%nat -> dev (buf_at s i) = 1 -> valid_buf (buf_at s i) = true ->
    recyclable (buf_at s i) = true -> data (buf_at s i) = b_disk s (sector (buf_at s i));
  bi_range : forall i n, is_cached s n i -> 0 <= n < b_size s;
  bi_free : lk_bcache ∉ b_held s
}.

(** The current content of a sector. *)
Definition buffer_of (s : bst) (n : Z) : option nat :=
  find (fun i => (dev (buf_at s i) =? 1) && (sector (buf_at s i) =? n)) (seq 0 NBUF).

Definition view (s : bst) (n : Z) : list Z :=
  match buffer_of s n with
  | Some i => if valid_buf (buf_at s i) then data (buf_at s i) else b_disk s n
  | None => b_disk s n
  end.

Definition sectors (p : buf -> bool) (s : bst) : gset Z :=
  list_to_set ((fun i => sector (buf_at s i)) <$> filter (fun i => p (buf_at s i) = true) (seq 0 NBUF)).

Lemma elem_of_sectors p s n : n ∈ sectors p s <-> exists i, (i < NBUF)%nat /\ p (buf_at s i) = true /\ sector (buf_at s i) = n.
Proof.
  unfold sectors. rewrite elem_of_list_to_set, list_elem_of_fmap. split.
  - intros (i & -> & Hi). apply list_elem_of_filter in Hi as [Hp Hi]. apply elem_of_seq in Hi.
    exists i. split; [lia|done].
  - intros (i & Hi & Hp & <-). exists i. split; [done|]. apply list_elem_of_filter. split; [done|].
    apply elem_of_seq. lia.
Qed.

Lemma buffer_of_spec s n :
  match buffer_of s n with
  | Some i => is_cached s n i
  | None => forall i, ~ is_cached s n i
  end.
Proof.
  unfold buffer_of. destruct (find _ _) as [i|] eqn:E.
  - apply List.find_some in E as [Hi E]. apply list_elem_of_In, elem_of_seq in Hi. bool_hyps. split; [lia|done].
  - intros i (Hi & H1 & H2). assert (Hin : List.In i (seq 0 NBUF)) by (apply list_elem_of_In, elem_of_seq; lia).
    pose proof (List.find_none _ _ E i Hin) as Hn. cbv beta in Hn. by rewrite H1, H2, !Z.eqb_refl in Hn.
Qed.

Lemma buffer_of_cached s l n i : binv s l -> is_cached s n i -> buffer_of s n = Some i.
Proof.
  intros H Hc. pose proof (buffer_of_spec s n) as Hb. destruct (buffer_of s n) as [j|].
  - f_equal. by eapply (bi_uniq _ _ H).
  - by destruct (Hb i).
Qed.

Lemma view_cached s l n i : binv s l -> is_cached s n i -> valid_buf (buf_at s i) = true ->
  view s n = data (buf_at s i).
Proof. intros H Hc Hv. unfold view. by rewrite (buffer_of_cached s l n i H Hc), Hv. Qed.

Lemma view_uncached s n : (forall i, is_cached s n i -> valid_buf (buf_at s i) = false) -> view s n = b_disk s n.
Proof.
  intros Hn. unfold view. pose proof (buffer_of_spec s n) as Hb. destruct (buffer_of s n) as [i|]; [|done].
  by rewrite (Hn i Hb).
Qed.

Lemma view_disk s l n : binv s l -> (n ∉ sectors busy_buf s) -> (n ∉ sectors dirty_buf s) -> view s n = b_disk s n.
Proof.
  intros H Hb Hd. unfold view. pose proof (buffer_of_spec s n) as Hc. destruct (buffer_of s n) as [i|]; [|done].
  destruct (valid_buf (buf_at s i)) eqn:Hv; [|done]. destruct Hc as (Hi & Hdev & Hs).
  rewrite <- Hs. apply (bi_clean _ _ H); try done. unfold recyclable. apply andb_true_intro.
  split; apply negb_true_iff, not_true_iff_false; intros E.
  - apply Hb, elem_of_sectors. by exists i.
  - apply Hd, elem_of_sectors. by exists i.
Qed.

Lemma binv_rinv s l : binv s l -> rinv s l.
Proof. intros H. split; apply H. Qed.

Coercion binv_rinv : binv >-> rinv.

Lemma ring_elem s l i : rinv s l -> i ∈ l <-> (i < NBUF)%nat.
Proof. intros H. rewrite (ri_perm _ _ H), elem_of_seq. lia. Qed.

Lemma ring_nodup s l : rinv s l -> NoDup (head :: l).
Proof.
  intros H. constructor.
  - rewrite (ring_elem s l head H). unfold head. lia.
  - rewrite (ri_perm _ _ H). apply NoDup_seq.
Qed.

Lemma ring_length s l : binv s l -> length l = NBUF.
Proof. intros H. rewrite (bi_perm _ _ H). apply length_seq. Qed.

(** Some buffer can be recycled when fewer than [NBUF] sectors are pinned. *)
Lemma recyclable_exists s l : binv s l -> (size (sectors busy_buf s ∪ sectors dirty_buf s) < NBUF)%nat ->
  exists i, i ∈ l /\ recyclable (buf_at s i) = true.
Proof.
  intros H Hsz.
  destruct (decide (Exists (fun i => recyclable (buf_at s i) = true) l)) as [He|He].
  { apply Exists_exists in He as (i & Hi & Hr). eauto. }
  exfalso. apply not_Exists_Forall in He; [|apply _].
  assert (Hp : forall i, (i < NBUF)%nat -> busy_buf (buf_at s i) = true \/ dirty_buf (buf_at s i) = true).
  { intros i Hi. apply (ring_elem s l i H) in Hi. eapply Forall_forall in He; [|exact Hi].
    change (recyclable (buf_at s i) <> true) in He. unfold recyclable in He. unfold busy_buf, dirty_buf.
    destruct (has (flags (buf_at s i)) B_BUSY), (has (flags (buf_at s i)) B_DIRTY);
      [by left|by left|by right|by destruct He]. }
  assert (Hsub : list_to_set ((fun i => sector (buf_at s i)) <$> seq 0 NBUF) ⊆
    (sectors busy_buf s ∪ sectors dirty_buf s : gset Z)).
  { intros n. rewrite elem_of_list_to_set, list_elem_of_fmap. intros (i & -> & Hi). apply elem_of_seq in Hi.
    apply elem_of_union. destruct (Hp i ltac:(lia)); [left|right]; apply elem_of_sectors; exists i; (split; [lia|done]). }
  apply subseteq_size in Hsub. rewrite size_list_to_set in Hsub; [rewrite length_fmap, length_seq in Hsub; lia|].
  apply NoDup_fmap_2_strong; [|apply NoDup_seq]. intros i j Hi Hj E. apply elem_of_seq in Hi, Hj.
  apply (bi_uniq _ _ H (sector (buf_at s i))); split; try lia; split; try done; apply (bi_dev _ _ H); try lia; apply Hp; lia.
Qed.

(** ** Changing one buffer *)

Record same_but (s s' : bst) (b : nat) : Prop := {
  sb_len : length (b_buf s') = length (b_buf s);
  sb_oth : forall j, j <> b -> buf_at s' j = buf_at s j;
  sb_next : next (buf_at s' b) = next (buf_at s b);
  sb_prev : prev (buf_at s' b) = prev (buf_at s b);
  sb_size : b_size s' = b_size s;
  sb_held : b_held s' = b_held s
}.

(** What the new content of the buffer has to satisfy. *)
Record buf_ok (s s' : bst) (b : nat) : Prop := {
  bo_flags : 0 <= flags (buf_at s' b) < 8;
  bo_dirty : dirty_buf (buf_at s' b) = true -> valid_buf (buf_at s' b) = true;
  bo_dev : dev (buf_at s' b) = 1;
  bo_range : 0 <= sector (buf_at s' b) < b_size s;
  bo_uniq : forall i, i <> b -> ~ is_cached s (sector (buf_at s' b)) i;
  bo_clean : valid_buf (buf_at s' b) = true -> recyclable (buf_at s' b) = true ->
    data (buf_at s' b) = b_disk s' (sector (buf_at s' b));
  bo_disk : forall n, n <> sector (buf_at s' b) -> b_disk s' n = b_disk s n
}.

Lemma cached_other s s' b n i : same_but s s' b -> i <> b -> is_cached s' n i <-> is_cached s n i.
Proof. intros H Hi. unfold is_cached. by rewrite (sb_oth _ _ _ H). Qed.

Lemma binv_change s s' l b : binv s l -> (b < NBUF)%nat -> same_but s s' b -> buf_ok s s' b -> binv s' l.
Proof.
  intros H Hb Hs Ho. split.
  - rewrite (sb_len _ _ _ Hs). apply H.
  - eapply linked_ext; [| |apply (bi_ring _ _ H)]; intros i _; unfold nx, pv; destruct (decide (i = b)) as [->|Hi].
    + apply Hs.
    + by rewrite (sb_oth _ _ _ Hs).
    + apply Hs.
    + by rewrite (sb_oth _ _ _ Hs).
  - apply H.
  - intros i Hi. destruct (decide (i = b)) as [->|Hib]; [apply Ho|]. rewrite (sb_oth _ _ _ Hs) by done. by apply H.
  - intros i Hi. destruct (decide (i = b)) as [->|Hib]; [apply Ho|]. rewrite (sb_oth _ _ _ Hs) by done. by apply H.
  - intros i Hi. destruct (decide (i = b)) as [->|Hib]; [intros _; apply Ho|]. rewrite (sb_oth _ _ _ Hs) by done. by apply H.
  - intros n i j Hi Hj. destruct (decide (i = b)) as [->|Hib], (decide (j = b)) as [->|Hjb]; [done| | |].
    + destruct Hi as (_ & _ & <-). apply (cached_other _ _ _ _ _ Hs) in Hj; [|done]. by apply (bo_uniq _ _ _ Ho) in Hj.
    + destruct Hj as (_ & _ & <-). apply (cached_other _ _ _ _ _ Hs) in Hi; [|done]. by apply (bo_uniq _ _ _ Ho) in Hi.
    + apply (cached_other _ _ _ _ _ Hs) in Hi, Hj; [|done..]. by eapply (bi_uniq _ _ H).
  - intros i Hi Hd Hv Hr. destruct (decide (i = b)) as [->|Hib]; [by apply Ho|].
    rewrite (sb_oth _ _ _ Hs) in * by done. rewrite (bo_disk _ _ _ Ho); [by apply H|].
    intros E. by apply (bo_uniq _ _ _ Ho i Hib).
  - intros i n Hi. rewrite (sb_size _ _ _ Hs). destruct (decide (i = b)) as [->|Hib].
    + destruct Hi as (_ & _ & <-). apply Ho.
    + apply (cached_other _ _ _ _ _ Hs) in Hi; [|done]. by eapply (bi_range _ _ H).
  - rewrite (sb_held _ _ _ Hs). apply H.
Qed.

Lemma view_change s s' l b : binv s l -> (b < NBUF)%nat -> same_but s s' b -> buf_ok s s' b ->
  valid_buf (buf_at s' b) = true ->
  (dev (buf_at s b) = 1 -> sector (buf_at s b) = sector (buf_at s' b) \/ recyclable (buf_at s b) = true) ->
  forall n, view s' n = if n =? sector (buf_at s' b) then data (buf_at s' b) else view s n.
Proof.
  intros H Hb Hs Ho Hv Hold n. pose proof (binv_change s s' l b H Hb Hs Ho) as H'.
  destruct (n =? sector (buf_at s' b)) eqn:E; bool_hyps.
  { apply (view_cached s' l n b H'); [|done]. split; [done|]. split; [apply Ho|done]. }
  assert (Hnb : forall i, is_cached s' n i -> i <> b) by (intros i (_ & _ & Hi) ->; congruence).
  pose proof (buffer_of_spec s n) as Hc. destruct (buffer_of s n) as [i|] eqn:Ei.
  - destruct (decide (i = b)) as [->|Hib].
    + assert (Hd : view s n = b_disk s n).
      { unfold view. rewrite Ei. destruct (valid_buf (buf_at s b)) eqn:Hvb; [|done].
        destruct Hc as (_ & Hdev & Hsec). destruct (Hold Hdev) as [?|Hr]; [congruence|].
        rewrite <- Hsec. by apply (bi_clean _ _ H). }
      rewrite Hd, view_uncached; [by apply Ho|]. intros j Hj. pose proof (Hnb j Hj) as Hjb.
      apply (cached_other _ _ _ _ _ Hs) in Hj; [|done]. by destruct (Hjb (bi_uniq _ _ H n j b Hj Hc)).
    + unfold view. rewrite Ei. apply (cached_other _ _ _ _ _ Hs) in Hc as Hc'; [|done].
      rewrite (buffer_of_cached s' l n i H' Hc'), (sb_oth _ _ _ Hs) by done.
      case_match; [done|]. by apply Ho.
  - unfold view at 2. rewrite Ei. rewrite view_uncached; [by apply Ho|]. intros j Hj.
    apply (cached_other _ _ _ _ _ Hs) in Hj as Hj'; [|by apply Hnb]. by destruct (Hc j).
Qed.

(** The set of the sectors in a state changes with the buffer. *)
Lemma sectors_same p s s' b : (b < NBUF)%nat -> same_but s s' b -> p (buf_at s' b) = p (buf_at s b) ->
  (p (buf_at s b) = true -> sector (buf_at s' b) = sector (buf_at s b)) -> sectors p s' = sectors p s.
Proof.
  intros Hb Hs Hp Hsec. apply set_eq. intros n. rewrite !elem_of_sectors.
  split; intros (i & Hi & Hpi & <-); exists i; (split; [done|]);
    destruct (decide (i = b)) as [->|Hib]; rewrite ?(sb_oth _ _ _ Hs) in * by done; try done.
  - rewrite Hp in Hpi. by rewrite Hsec.
  - rewrite Hp. by rewrite Hsec.
Qed.

Lemma sectors_add p s s' b : (b < NBUF)%nat -> same_but s s' b -> p (buf_at s b) = false -> p (buf_at s' b) = true ->
  sectors p s' = {[ sector (buf_at s' b) ]} ∪ sectors p s.
Proof.
  intros Hb Hs Hp Hp'. apply set_eq. intros n. rewrite elem_of_union, elem_of_singleton, !elem_of_sectors. split.
  - intros (i & Hi & Hpi & <-). destruct (decide (i = b)) as [->|Hib]; [by left|right].
    rewrite (sb_oth _ _ _ Hs) in * by done. by exists i.
  - intros [->|(i & Hi & Hpi & <-)]; [by exists b|]. exists i. assert (i <> b) by congruence.
    by rewrite (sb_oth _ _ _ Hs).
Qed.

Lemma sectors_del p s s' l b : binv s l -> (b < NBUF)%nat -> same_but s s' b -> dev (buf_at s b) = 1 ->
  (forall x, p x = true -> busy_buf x = true \/ dirty_buf x = true) -> p (buf_at s' b) = false ->
  sectors p s' = sectors p s ∖ {[ sector (buf_at s b) ]}.
Proof.
  intros H Hb Hs Hd Hpd Hp'. apply set_eq. intros n. rewrite elem_of_difference, elem_of_singleton, !elem_of_sectors. split.
  - intros (i & Hi & Hpi & <-). assert (Hib : i <> b) by congruence. rewrite (sb_oth _ _ _ Hs) in * by done.
    split; [by exists i|]. intros E. apply Hib, (bi_uniq _ _ H (sector (buf_at s b))); split; try done. split; [|done].
    apply (bi_dev _ _ H); auto.
  - intros [(i & Hi & Hpi & <-) Hne]. exists i. assert (i <> b) by congruence. by rewrite (sb_oth _ _ _ Hs).
Qed.

(** ** The operations *)

(** [b] is the busy buffer of sector [n]. *)
Definition holds (s : bst) (b : nat) (n : Z) : Prop :=
  is_cached s n b /\ busy_buf (buf_at s b) = true /\ valid_buf (buf_at s b) = true.

Lemma holds_view s l b n : binv s l -> holds s b n -> view s n = data (buf_at s b).
Proof. intros H (Hc & _ & Hv). by eapply view_cached. Qed.

Lemma holds_busy s b n : holds s b n -> n ∈ sectors busy_buf s.
Proof. intros ((Hb & _ & Hn) & Hbusy & _). apply elem_of_sectors. by exists b. Qed.

Lemma same_but_upd s b f : (b < length (b_buf s))%nat -> (forall x, next (f x) = next x /\ prev (f x) = prev x) ->
  same_but s (upd_buf b f s) b.
Proof.
  intros Hb Hf. split; try done.
  - by rewrite length_upd.
  - intros j Hj. rewrite buf_at_upd by done. by rewrite decide_False.
  - rewrite buf_at_upd, decide_True by done. apply Hf.
  - rewrite buf_at_upd, decide_True by done. apply Hf.
Qed.

Lemma at_upd_buf s b f : (b < length (b_buf s))%nat -> buf_at (upd_buf b f s) b = f (buf_at s b).
Proof. intros Hb. by rewrite buf_at_upd, decide_True. Qed.

Lemma upd_upd_buf b f g s : upd_buf b f (upd_buf b g s) = upd_buf b (fun x => f (g x)) s.
Proof.
  unfold upd_buf. simpl. unfold set_b_buf. simpl. f_equal. apply list_eq. intros j.
  destruct (decide (b = j)) as [->|Hj]; rewrite ?list_lookup_alter_eq, ?list_lookup_alter_ne by done; [|done].
  by destruct (b_buf s !! j).
Qed.

Lemma iderw_read s b : (b < length (b_buf s))%nat -> 0 <= flags (buf_at s b) < 8 -> busy_buf (buf_at s b) = true ->
  valid_buf (buf_at s b) = false -> dirty_buf (buf_at s b) = false -> dev (buf_at s b) = 1 ->
  sector (buf_at s b) < b_size s ->
  iderw b s = Ok tt (upd_buf b (fun y => set_flags (Z.lor (flags y) B_VALID) (set_data (b_disk s (sector (buf_at s b))) y)) s).
Proof.
  intros Hb Hf Hbusy Hv Hd Hdev Hsec. unfold iderw. kstep. unfold getb, setb, kmod, kgets.
  rewrite flags_settled by done. unfold busy_buf, valid_buf, dirty_buf in *. rewrite Hbusy, Hv, Hd, Hdev. simpl.
  rewrite (proj2 (Z.leb_gt _ _)) by done. by rewrite upd_upd_buf.
Qed.

Lemma iderw_write s b : (b < length (b_buf s))%nat -> 0 <= flags (buf_at s b) < 8 -> busy_buf (buf_at s b) = true ->
  dirty_buf (buf_at s b) = true -> dev (buf_at s b) = 1 -> sector (buf_at s b) < b_size s ->
  iderw b s = Ok tt (upd_buf b (fun y => set_flags (Z.lor (flags y) B_VALID) y)
    (disk_write (sector (buf_at s b)) (data (buf_at s b))
      (upd_buf b (fun y => set_flags (Z.land (flags y) (Z.lnot B_DIRTY)) y) s))).
Proof.
  intros Hb Hf Hbusy Hd Hdev Hsec. unfold iderw. kstep. unfold getb, setb, kmod, kgets.
  rewrite flags_settled by done. unfold busy_buf, dirty_buf in *. rewrite Hbusy, Hd, Hdev, andb_false_r. simpl.
  by rewrite (proj2 (Z.leb_gt _ _)) by done.
Qed.

(** What [bread] leaves behind in the buffer it returns. *)
Record bread_buf (s : bst) (n : Z) (b : nat) (x : buf) : Prop := {
  br_flags : 0 <= flags x < 8;
  br_busy : busy_buf x = true;
  br_valid : valid_buf x = true;
  br_dirty : dirty_buf x = dirty_buf (buf_at s b);
  br_dev : dev x = 1;
  br_sector : sector x = n;
  br_data : data x = view s n;
  br_old : busy_buf (buf_at s b) = false;
  br_was : is_cached s n b \/ (dirty_buf (buf_at s b) = false /\ forall i, ~ is_cached s n i)
}.

Definition same_disk (s s' : bst) : Prop :=
  b_disk s' = b_disk s /\ b_size s' = b_size s /\ b_held s' = b_held s /\ b_trace s' = b_trace s.

(** The abstract effect of [bread]. *)
Definition bread_post (s : bst) (l : list nat) (n : Z) (b : nat) (s' : bst) : Prop :=
  binv s' l /\ holds s' b n /\ (forall m, view s' m = view s m) /\ same_disk s s' /\
  sectors busy_buf s' = {[ n ]} ∪ sectors busy_buf s /\ sectors dirty_buf s' = sectors dirty_buf s /\
  (forall b' m, holds s b' m -> holds s' b' m).

Lemma bread_effect s s' l n b : binv s l -> (b < NBUF)%nat -> same_but s s' b -> same_disk s s' ->
  0 <= n < b_size s -> bread_buf s n b (buf_at s' b) -> bread_post s l n b s'.
Proof.
  intros H Hb Hs Hd Hn [F1 F2 F3 F4 F5 F6 F7 F8 F9].
  assert (Ho : buf_ok s s' b).
  { split; rewrite ?F6; try done.
    - intros i Hi Hc. destruct F9 as [Hcb|[_ Hno]]; [|by apply (Hno i)]. by apply Hi, (bi_uniq _ _ H n).
    - intros _ Hr. unfold recyclable in Hr. unfold busy_buf in F2. by rewrite F2 in Hr.
    - intros m _. by destruct Hd as (-> & _). }
  assert (Hrec : dev (buf_at s b) = 1 -> sector (buf_at s b) = sector (buf_at s' b) \/ recyclable (buf_at s b) = true).
  { intros _. rewrite F6. destruct F9 as [(_ & _ & ?)|[Hdb _]]; [by left|right]. unfold recyclable.
    unfold busy_buf, dirty_buf in *. by rewrite F8, Hdb. }
  split; [by eapply binv_change|]. split; [by split_and!|]. split.
  { intros m. rewrite (view_change s s' l b H Hb Hs Ho F3 Hrec), F6, F7. case_match; bool_hyps; congruence. }
  split; [done|]. split; [|split].
  - rewrite (sectors_add busy_buf s s' b) by done. by rewrite F6.
  - apply (sectors_same dirty_buf s s' b); try done. intros Hdb. rewrite F6.
    destruct F9 as [(_ & _ & ?)|[? _]]; congruence.
  - intros b' m Hh. assert (b' <> b) by (intros ->; destruct Hh as (_ & ? & _); congruence).
    destruct Hh as (Hc & ? & ?). split; [by apply (cached_other s s' b)|]. by rewrite (sb_oth _ _ _ Hs).
Qed.

Lemma bread_read s l n b x : binv s l -> (b < NBUF)%nat -> 0 <= n < b_size s ->
  let s1 := upd_buf b (fun _ => x) s in
  next x = next (buf_at s b) -> prev x = prev (buf_at s b) -> 0 <= flags x < 8 -> busy_buf x = true ->
  dirty_buf x = dirty_buf (buf_at s b) -> dev x = 1 -> sector x = n -> busy_buf (buf_at s b) = false ->
  (valid_buf x = true -> data x = view s n) ->
  (valid_buf x = false -> dirty_buf x = false /\ view s n = b_disk s n) ->
  is_cached s n b \/ (dirty_buf (buf_at s b) = false /\ forall i, ~ is_cached s n i) ->
  runs ((when negb (has (flags x) B_VALID) do iderw b) ;;; kret b) s1 (fun b' s' => b' = b /\ bread_post s l n b s').
Proof.
  intros H Hb Hn s1 Hnx Hpv Hf Hbusy Hdirty Hdev Hsec Hfree Hhit Hmiss Hwas.
  assert (Hlen : (b < length (b_buf s))%nat) by (rewrite (bi_len _ _ H); lia).
  assert (Hs1 : buf_at s1 b = x) by (by apply (at_upd_buf s b (fun _ => x))).
  fold (valid_buf x). destruct (valid_buf x) eqn:Hv; simpl.
  - unfold runs, kbind, kret. split; [done|]. apply (bread_effect s s1 l n b H Hb); [|done|done|].
    + split; try done; [unfold s1; by rewrite length_upd| |by rewrite Hs1|by rewrite Hs1]. intros j Hj. unfold s1.
      rewrite buf_at_upd by done. by rewrite decide_False.
    + rewrite Hs1. split; auto.
  - destruct (Hmiss eq_refl) as [Hd Hvw].
    unfold runs, kbind. rewrite (iderw_read s1 b); rewrite ?Hs1; try done; [|unfold s1; by rewrite length_upd|rewrite Hsec; apply Hn].
    unfold kret. split; [done|]. unfold s1. rewrite upd_upd_buf.
    destruct (flags_set (flags x) B_VALID Hf) as (F1 & F2 & F3); [by right; left|].
    apply (bread_effect s _ l n b H Hb); [|done|done|].
    + split; try done; [by rewrite length_upd| |by rewrite at_upd_buf by done|by rewrite at_upd_buf by done].
      intros j Hj. rewrite buf_at_upd by done. by rewrite decide_False.
    + rewrite at_upd_buf by done. split; simpl; try done.
      * unfold busy_buf. simpl. rewrite F3; [done|by left|done].
      * rewrite <- Hdirty. unfold dirty_buf. simpl. rewrite F3; [done|by right; right|done].
      * by rewrite Hsec, Hvw.
Qed.

Lemma upd_buf_self b f s : (b < length (b_buf s))%nat -> upd_buf b f s = upd_buf b (fun _ => f (buf_at s b)) s.
Proof.
  intros Hb. unfold upd_buf, set_b_buf. f_equal. apply list_eq. intros j.
  destruct (decide (b = j)) as [->|Hj]; rewrite ?list_lookup_alter_eq, ?list_lookup_alter_ne by done; [|done].
  unfold buf_at. rewrite nth_lookup. by destruct (b_buf s !! j).
Qed.

Lemma find_cached s l n : binv s l ->
  match find (fun i => (dev (buf_at s i) =? 1) && (sector (buf_at s i) =? n)) l with
  | Some b => is_cached s n b
  | None => forall i, ~ is_cached s n i
  end.
Proof.
  intros H. destruct (find _ l) as [b|] eqn:E.
  - apply List.find_some in E as [Hi E]. apply list_elem_of_In, (ring_elem s l b H) in Hi. bool_hyps. by split.
  - intros i (Hi & H1 & H2). apply (ring_elem s l i H), list_elem_of_In in Hi.
    pose proof (List.find_none _ _ E i Hi) as Hn. cbv beta in Hn. by rewrite H1, H2, !Z.eqb_refl in Hn.
Qed.

(** The least recently released buffer that may be recycled. *)
Lemma find_recyclable s l : binv s l -> (size (sectors busy_buf s ∪ sectors dirty_buf s) < NBUF)%nat ->
  exists b, find (fun i => recyclable (buf_at s i)) (rev l) = Some b /\ (b < NBUF)%nat /\ recyclable (buf_at s b) = true.
Proof.
  intros H Hsz. destruct (find _ (rev l)) as [b|] eqn:E.
  - apply List.find_some in E as [Hi E]. apply List.in_rev, list_elem_of_In, (ring_elem s l b H) in Hi. eauto.
  - destruct (recyclable_exists s l H Hsz) as (i & Hi & Hr). apply list_elem_of_In, List.in_rev in Hi.
    pose proof (List.find_none _ _ E i Hi) as Hn. cbv beta in Hn. congruence.
Qed.

Lemma set_held_self (s : bst) : set_b_held (b_held s) s = s.
Proof. by destruct s. Qed.

Lemma release_after_upd s b f : (lk_bcache ∉ b_held s) ->
  release lk_bcache (upd_buf b f (set_b_held (lk_bcache :: b_held s) s)) = Ok tt (upd_buf b f s).
Proof.
  intros Hn. rewrite release_ok by left. simpl. rewrite remove_lock_cons by done. by destruct s.
Qed.

(** [bget] in one step: the buffer it returns, and the state. *)
Lemma bget_eq s l n : binv s l -> (n ∉ sectors busy_buf s) ->
  (n ∉ sectors dirty_buf s -> (size (sectors busy_buf s ∪ sectors dirty_buf s) < NBUF)%nat) ->
  exists b f, bget 1 n s = Ok b (upd_buf b f s) /\ (b < NBUF)%nat /\
    ((is_cached s n b /\ f = (set_flags (Z.lor (flags (buf_at s b)) B_BUSY))) \/
     ((forall i, ~ is_cached s n i) /\ recyclable (buf_at s b) = true /\ f = (fun x => set_flags B_BUSY (set_id 1 n x)) /\
      find (fun i => recyclable (buf_at s i)) (rev l) = Some b)).
Proof.
  intros H Hnb Hsz. pose proof (ring_nodup s l H) as Hnd. apply NoDup_cons in Hnd as [Hh _].
  pose proof (bi_free _ _ H) as Hfree. unfold bget. unfold kbind at 1. rewrite acquire_ok by done. cbn [set_held bst_locks held].
  set (s0 := set_b_held (lk_bcache :: b_held s) s).
  assert (Hr0 : linked (nx s0) (pv s0) head l head) by apply H.
  unfold kbind, getb, kgets. change (next (buf_at s0 head)) with (nx s0 head). change (prev (buf_at s0 head)) with (pv s0 head).
  rewrite (bget_find_ring s0 1 n l head (S NBUF) Hr0 Hh) by (rewrite (ring_length s l H); lia).
  change (buf_at s0) with (buf_at s). pose proof (find_cached s l n H) as Hf. destruct (find _ l) as [b|].
  - assert (Hbb : busy_buf (buf_at s b) = false).
    { apply not_true_iff_false. intros E. apply Hnb, elem_of_sectors. destruct Hf as (? & _ & ?). by exists b. }
    unfold busy_buf in Hbb. change (buf_at s0 b) with (buf_at s b). cbv beta. rewrite Hbb. cbn [negb]. exists b, (set_flags (Z.lor (flags (buf_at s b)) B_BUSY)).
    unfold setb, kmod. unfold s0. rewrite release_after_upd by done. split; [done|]. split; [apply Hf|]. by left.
  - assert (Hsz' : (size (sectors busy_buf s ∪ sectors dirty_buf s) < NBUF)%nat).
    { apply Hsz. intros (i & Hi & Hd & Hs)%elem_of_sectors. apply (Hf i). split; [done|]. split; [|done].
      apply (bi_dev _ _ H); auto. }
    cbv beta. change (prev (buf_at s0 head)) with (pv s0 head).
    rewrite (bget_free_ring s0 l head (S NBUF) Hr0 Hh) by (rewrite (ring_length s l H); lia).
    change (buf_at s0) with (buf_at s). destruct (find_recyclable s l H Hsz') as (b & Hfind & Hb & Hr). rewrite Hfind.
    exists b, (fun x => set_flags B_BUSY (set_id 1 n x)). unfold setb, kmod. rewrite upd_upd_buf. unfold s0.
    rewrite release_after_upd by done. split; [done|]. split; [done|]. right. by split_and!.
Qed.

Lemma recyclable_false x : recyclable x = true <-> busy_buf x = false /\ dirty_buf x = false.
Proof. unfold recyclable, busy_buf, dirty_buf. destruct (has (flags x) B_BUSY), (has (flags x) B_DIRTY); simpl; intuition. Qed.

Lemma size_list_le (l : list Z) : (size (list_to_set l : gset Z) <= length l)%nat.
Proof.
  induction l as [|x l IH]; [done|]. rewrite list_to_set_cons, size_union_alt, size_singleton. cbn [length].
  pose proof (subseteq_size ((list_to_set l : gset Z) ∖ {[ x ]}) (list_to_set l) ltac:(set_solver)). lia.
Qed.

(** With as many sectors pinned as there are buffers, none can be recycled. *)
Lemma all_pinned s l i : binv s l -> (NBUF <= size (sectors busy_buf s ∪ sectors dirty_buf s))%nat -> (i < NBUF)%nat -> recyclable (buf_at s i) = false.
Proof.
  intros H Hsz Hi. apply not_true_iff_false. intros [Hb Hd]%recyclable_false.
  set (others := filter (fun j => j <> i) (seq 0 NBUF)). assert (Hlen : (S (length others) <= NBUF)%nat).
  { assert (Hp : seq 0 NBUF ≡ₚ i :: others).
    { apply NoDup_Permutation; [apply NoDup_seq|apply NoDup_cons; split; [|apply NoDup_filter, NoDup_seq]|].
      - unfold others. rewrite list_elem_of_filter. tauto.
      - intros j. unfold others. rewrite elem_of_cons, list_elem_of_filter, !elem_of_seq. destruct (decide (j = i)); subst; intuition lia. }
    apply Permutation_length in Hp. rewrite length_seq in Hp. cbn [length] in Hp. lia. }
  assert (Hsub : sectors busy_buf s ∪ sectors dirty_buf s ⊆ (list_to_set ((fun j => sector (buf_at s j)) <$> others) : gset Z)).
  { intros n [(j & Hj & Hp & <-)%elem_of_sectors|(j & Hj & Hp & <-)%elem_of_sectors]%elem_of_union; apply elem_of_list_to_set, list_elem_of_fmap; exists j; (split; [done|]);
      apply list_elem_of_filter; rewrite elem_of_seq; (split; [|lia]); intros ->; congruence. }
  apply subseteq_size in Hsub. pose proof (size_list_le ((fun j => sector (buf_at s j)) <$> others)) as Hle. rewrite length_fmap in Hle. lia.
Qed.

Lemma bread_no_buffers s l n : binv s l -> (NBUF <= size (sectors busy_buf s ∪ sectors dirty_buf s))%nat -> (n ∉ sectors busy_buf s ∪ sectors dirty_buf s) ->
  exists s', bread 1 n s = Panic "bget: no buffers" s'.
Proof.
  intros H Hsz Hn. pose proof (ring_nodup s l H) as Hnd. apply NoDup_cons in Hnd as [Hh _]. set (s0 := set_b_held (lk_bcache :: b_held s) s). exists s0.
  unfold bread, bget. unfold kbind at 1 2. rewrite acquire_ok by apply H. cbn [set_held bst_locks held]. fold s0.
  assert (Hr0 : linked (nx s0) (pv s0) head l head) by apply H.
  unfold kbind, getb, kgets. change (next (buf_at s0 head)) with (nx s0 head). change (prev (buf_at s0 head)) with (pv s0 head).
  rewrite (bget_find_ring s0 1 n l head (S NBUF) Hr0 Hh) by (rewrite (ring_length s l H); lia).
  change (buf_at s0) with (buf_at s). pose proof (find_cached s l n H) as Hf. destruct (find _ l) as [b|].
  - exfalso. destruct Hf as (Hb & _ & <-). pose proof (all_pinned s l b H Hsz Hb) as Hr. apply Hn. apply not_true_iff_false in Hr. rewrite recyclable_false in Hr.
    apply elem_of_union. destruct (busy_buf (buf_at s b)) eqn:E1; [left; apply elem_of_sectors; by exists b|]. destruct (dirty_buf (buf_at s b)) eqn:E2; [right; apply elem_of_sectors; by exists b|tauto].
  - cbv beta. change (prev (buf_at s0 head)) with (pv s0 head). rewrite (bget_free_ring s0 l head (S NBUF) Hr0 Hh) by (rewrite (ring_length s l H); lia).
    change (buf_at s0) with (buf_at s). destruct (find _ (rev l)) as [b|] eqn:E; [|done].
    apply List.find_some in E as [Hi E]. apply List.in_rev, list_elem_of_In, (ring_elem s l b H) in Hi. by rewrite (all_pinned s l b H Hsz Hi) in E.
Qed.

Lemma bread_runs s l n : binv s l -> 0 <= n < b_size s -> (n ∉ sectors busy_buf s) ->
  (n ∉ sectors dirty_buf s -> (size (sectors busy_buf s ∪ sectors dirty_buf s) < NBUF)%nat) ->
  runs (bread 1 n) s (bread_post s l n).
Proof.
  intros H Hn Hnb Hsz. destruct (bget_eq s l n H Hnb Hsz) as (b & f & E & Hb & Hcase).
  assert (Hlen : (b < length (b_buf s))%nat) by (rewrite (bi_len _ _ H); lia).
  rewrite (upd_buf_self b f s Hlen) in E. set (x := f (buf_at s b)) in E.
  assert (Hr : runs ((when negb (has (flags x) B_VALID) do iderw b) ;;; kret b) (upd_buf b (fun _ => x) s)
    (fun b' s' => b' = b /\ bread_post s l n b s')).
  { destruct Hcase as [[Hc ->]|(Hno & Hrec & -> & _)]; apply bread_read; try done.
    - apply flags_set; [by apply H|by left].
    - apply flags_set; [by apply H|by left].
    - apply flags_set; [by apply H|by left|by right; right|done].
    - apply Hc.
    - apply Hc.
    - apply not_true_iff_false. intros Hbb. apply Hnb, elem_of_sectors. destruct Hc as (? & _ & ?). by exists b.
    - intros Hv. symmetry. apply (view_cached s l n b H Hc). rewrite <- Hv. symmetry.
      apply flags_set; [by apply H|by left|by right; left|done].
    - intros Hv. assert (Hv0 : valid_buf (buf_at s b) = false).
      { rewrite <- Hv. symmetry. apply flags_set; [by apply H|by left|by right; left|done]. }
      split.
      + unfold dirty_buf. simpl. rewrite (proj2 (proj2 (flags_set _ B_BUSY (bi_flags _ _ H b Hb) ltac:(by left)))); [|by right; right|done].
        apply not_true_iff_false. intros Hd. apply (bi_dirty _ _ H) in Hd; [congruence|done].
      + apply view_uncached. intros i Hi. by rewrite (bi_uniq _ _ H n i b Hi Hc).
    - by left.
    - apply recyclable_false in Hrec as [_ Hd]. by rewrite Hd.
    - by apply recyclable_false in Hrec as [? _].
    - intros _. split; [done|]. apply view_uncached. intros i Hi. by destruct (Hno i).
    - right. split; [by apply recyclable_false in Hrec as [_ ?]|done]. }
  unfold runs, bread, kbind, getb, kgets in *. rewrite E. rewrite at_upd_buf by done.
  destruct ((when negb (has (flags x) B_VALID) do iderw b) (upd_buf b (fun _ => x) s)) eqn:Ew; try done.
  simpl in *. by destruct Hr as [_ Hr].
Qed.

(** The holder of a buffer changes it: its data, or its flags towards valid. *)
Lemma holder_change s s' l b n : binv s l -> holds s b n -> same_but s s' b -> busy_buf (buf_at s' b) = true ->
  valid_buf (buf_at s' b) = true -> 0 <= flags (buf_at s' b) < 8 -> dev (buf_at s' b) = 1 -> sector (buf_at s' b) = n ->
  (forall m, m <> n -> b_disk s' m = b_disk s m) ->
  binv s' l /\ (forall m, view s' m = if m =? n then data (buf_at s' b) else view s m) /\
  sectors busy_buf s' = sectors busy_buf s /\ (forall b' m, holds s b' m -> holds s' b' m).
Proof.
  intros H Hh Hs Hb Hv Hf Hd Hn Hdisk. pose proof Hh as (Hc & Hbusy & Hvalid). pose proof Hc as (Hlt & Hdev & Hsec).
  assert (Ho : buf_ok s s' b).
  { split; rewrite ?Hn; try done.
    - by eapply (bi_range _ _ H).
    - intros i Hi Hci. by apply Hi, (bi_uniq _ _ H n).
    - intros _ Hr. apply recyclable_false in Hr as [Hr _]. congruence. }
  split; [by eapply binv_change|]. split; [|split].
  - intros m. rewrite (view_change s s' l b H Hlt Hs Ho Hv); rewrite Hn; [done|]. intros _. by left.
  - apply (sectors_same busy_buf s s' b Hlt Hs); [congruence|]. intros _. congruence.
  - intros b' m Hh'. destruct (decide (b' = b)) as [->|Hbb].
    + destruct Hh' as ((_ & _ & Hm) & _ & _). split; [|done]. split; [done|]. split; [done|congruence].
    + destruct Hh' as (Hc' & ? & ?). split; [by apply (cached_other s s' b)|]. by rewrite (sb_oth _ _ _ Hs).
Qed.

Lemma holds_len s l b n : binv s l -> holds s b n -> (b < length (b_buf s))%nat.
Proof. intros H ((Hb & _) & _). rewrite (bi_len _ _ H). lia. Qed.

(** The client stores into [b->data]. *)
Definition bput (b : nat) (v : list Z) : K bst unit := setb b (set_data v).

Lemma bput_runs s l b n v : binv s l -> holds s b n ->
  runs (bput b v) s (fun _ s' => binv s' l /\ (forall m, view s' m = if m =? n then v else view s m) /\
    same_disk s s' /\ sectors busy_buf s' = sectors busy_buf s /\ sectors dirty_buf s' = sectors dirty_buf s /\
    (forall b' m, holds s b' m -> holds s' b' m)).
Proof.
  intros H Hh. pose proof (holds_len s l b n H Hh) as Hlen. pose proof Hh as (Hc & Hbusy & Hvalid).
  pose proof Hc as (Hlt & Hdev & Hsec). unfold runs, bput, setb, kmod.
  assert (Hs : same_but s (upd_buf b (set_data v) s) b) by (by apply same_but_upd).
  destruct (holder_change s (upd_buf b (set_data v) s) l b n H Hh Hs) as (A & B & C & D);
    rewrite ?at_upd_buf by done; try done; [by apply H|].
  rewrite at_upd_buf in B by done. split_and!; try done.
  apply (sectors_same dirty_buf s _ b Hlt Hs); rewrite at_upd_buf by done; done.
Qed.

(** The client sets [B_DIRTY], which keeps the buffer in the cache (log.c). *)
Definition bdirty (b : nat) : K bst unit := setb b (fun x => set_flags (Z.lor (flags x) B_DIRTY) x).

Lemma bdirty_runs s l b n : binv s l -> holds s b n ->
  runs (bdirty b) s (fun _ s' => binv s' l /\ (forall m, view s' m = view s m) /\ same_disk s s' /\
    sectors busy_buf s' = sectors busy_buf s /\ sectors dirty_buf s' = {[ n ]} ∪ sectors dirty_buf s /\
    (forall b' m, holds s b' m -> holds s' b' m)).
Proof.
  intros H Hh. pose proof (holds_len s l b n H Hh) as Hlen. pose proof Hh as (Hc & Hbusy & Hvalid).
  pose proof Hc as (Hlt & Hdev & Hsec). unfold runs, bdirty, setb, kmod. set (f := fun x => _).
  assert (Hs : same_but s (upd_buf b f s) b) by (by apply same_but_upd).
  destruct (flags_set (flags (buf_at s b)) B_DIRTY) as (F1 & F2 & F3); [by apply H|by right; right|].
  destruct (holder_change s (upd_buf b f s) l b n H Hh Hs) as (A & B & C & D); rewrite ?at_upd_buf by done; try done.
  - unfold busy_buf. simpl. rewrite F3; [done|by left|done].
  - unfold valid_buf. simpl. rewrite F3; [done|by right; left|done].
  - rewrite at_upd_buf in B by done. split_and!; try done.
    + intros m. rewrite B. case_match; bool_hyps; [|done]. simpl. symmetry. subst m. by apply (holds_view s l).
    + destruct (dirty_buf (buf_at s b)) eqn:Hd.
      * rewrite (sectors_same dirty_buf s (upd_buf b f s) b Hlt Hs); rewrite ?at_upd_buf by done; try done.
        -- apply set_eq. intros m. rewrite elem_of_union, elem_of_singleton. split; [by right|]. intros [->|?]; [|done].
           apply elem_of_sectors. by exists b.
        -- by rewrite Hd.
      * rewrite (sectors_add dirty_buf s (upd_buf b f s) b Hlt Hs Hd); rewrite at_upd_buf by done; [|done]. by subst n.
Qed.

Lemma upd_disk_write b f n v s : upd_buf b f (disk_write n v s) = disk_write n v (upd_buf b f s).
Proof. done. Qed.

Lemma bwrite_runs s l b n : binv s l -> holds s b n ->
  runs (bwrite b) s (fun _ s' => binv s' l /\ (forall m, view s' m = view s m) /\
    (b_disk s' = fun m => if m =? n then view s n else b_disk s m) /\ b_trace s' = b_trace s ++ [(n, view s n)] /\
    b_size s' = b_size s /\ b_held s' = b_held s /\
    sectors busy_buf s' = sectors busy_buf s /\ sectors dirty_buf s' = sectors dirty_buf s ∖ {[ n ]} /\
    (forall b' m, holds s b' m -> holds s' b' m)).
Proof.
  intros H Hh. pose proof (holds_len s l b n H Hh) as Hlen. pose proof Hh as (Hc & Hbusy & Hvalid).
  pose proof Hc as (Hlt & Hdev & Hsec). rewrite (holds_view s l b n H Hh).
  pose proof (bi_range _ _ H b n Hc) as Hr. unfold runs, bwrite, kbind, getb, kgets, setb, kmod.
  unfold busy_buf in Hbusy. rewrite Hbusy. simpl.
  destruct (flags_set (flags (buf_at s b)) B_DIRTY) as (F1 & F2 & F3); [by apply H|by right; right|].
  rewrite (iderw_write (upd_buf b (set_flags (Z.lor (flags (buf_at s b)) B_DIRTY)) s) b);
    rewrite ?length_upd, ?at_upd_buf by done; try done.
  2: { unfold busy_buf. simpl. rewrite F3; [done|by left|done]. }
  2: { cbn. rewrite Hsec. apply Hr. }
  destruct (flags_clear (Z.lor (flags (buf_at s b)) B_DIRTY) B_DIRTY F1) as (G1 & G2 & G3); [by right; right|].
  destruct (flags_set _ B_VALID G1) as (J1 & J2 & J3); [by right; left|].
  rewrite upd_upd_buf, upd_disk_write, upd_upd_buf. cbn [sector data set_flags]. rewrite Hsec.
  set (f := fun x => _). set (s' := disk_write _ _ _).
  assert (Es : buf_at s' b = f (buf_at s b)) by (by apply at_upd_buf).
  assert (Hs : same_but s s' b).
  { destruct (same_but_upd s b f Hlen) as [S1 S2 S3 S4 S5 S6]; [done|]. by split. }
  destruct (holder_change s s' l b n H Hh Hs) as (A & B & C & D); rewrite ?Es; try done.
  - unfold busy_buf. simpl. rewrite J3, G3, F3; [done|..]; try done; by left.
  - intros m Hm. simpl. by rewrite (proj2 (Z.eqb_neq _ _)).
  - rewrite Es in B. split_and!; try done.
    + intros m. rewrite B. case_match; bool_hyps; [|done]. simpl. symmetry. subst m. by apply (holds_view s l).
    + rewrite (sectors_del dirty_buf s s' l b H Hlt Hs Hdev); [by rewrite Hsec|by right|].
      rewrite Es. unfold dirty_buf. simpl. rewrite J3; [done|by right; right|done].
Qed.

(** *** brelse *)

(** The states that differ in the links only. *)
Definition relinked (s s' : bst) : Prop :=
  length (b_buf s') = length (b_buf s) /\ same_disk s s' /\
  forall j, flags (buf_at s' j) = flags (buf_at s j) /\ dev (buf_at s' j) = dev (buf_at s j) /\
    sector (buf_at s' j) = sector (buf_at s j) /\ data (buf_at s' j) = data (buf_at s j).

Lemma relinked_next s s0 i v : (i < length (b_buf s))%nat -> relinked s s0 -> relinked s (upd_buf i (set_next v) s0).
Proof.
  intros Hi (Hl & Hd & Hb). split; [by rewrite length_upd|]. split; [done|]. intros j.
  rewrite buf_at_upd by (by rewrite Hl). destruct (decide (i = j)) as [->|]; apply Hb.
Qed.

Lemma relinked_prev s s0 i v : (i < length (b_buf s))%nat -> relinked s s0 -> relinked s (upd_buf i (set_prev v) s0).
Proof.
  intros Hi (Hl & Hd & Hb). split; [by rewrite length_upd|]. split; [done|]. intros j.
  rewrite buf_at_upd by (by rewrite Hl). destruct (decide (i = j)) as [->|]; apply Hb.
Qed.

Lemma nx_set_next s i v j : (i < length (b_buf s))%nat -> nx (upd_buf i (set_next v) s) j = upd (nx s) i v j.
Proof. intros Hi. unfold nx. rewrite buf_at_upd by done. unfold upd. destruct (decide (i = j)), (decide (j = i)); done. Qed.

Lemma nx_set_prev s i v j : (i < length (b_buf s))%nat -> nx (upd_buf i (set_prev v) s) j = nx s j.
Proof. intros Hi. unfold nx. rewrite buf_at_upd by done. by destruct (decide (i = j)) as [->|]. Qed.

Lemma pv_set_prev s i v j : (i < length (b_buf s))%nat -> pv (upd_buf i (set_prev v) s) j = upd (pv s) i v j.
Proof. intros Hi. unfold pv. rewrite buf_at_upd by done. unfold upd. destruct (decide (i = j)), (decide (j = i)); done. Qed.

Lemma pv_set_next s i v j : (i < length (b_buf s))%nat -> pv (upd_buf i (set_next v) s) j = pv s j.
Proof. intros Hi. unfold pv. rewrite buf_at_upd by done. by destruct (decide (i = j)) as [->|]. Qed.

Lemma relinked_effect s s' l l' : binv s l -> relinked s s' -> ring s' l' -> l' ≡ₚ seq 0 NBUF ->
  binv s' l' /\ (forall n, view s' n = view s n) /\ (forall b n, holds s' b n <-> holds s b n) /\
  (forall p, (forall x y, flags x = flags y -> p x = p y) -> sectors p s' = sectors p s).
Proof.
  intros H (Hl & (D1 & D2 & D3 & D4) & Hb) Hr Hp.
  assert (Hf : forall j, flags (buf_at s' j) = flags (buf_at s j)) by (intros; apply Hb).
  assert (Hdev : forall j, dev (buf_at s' j) = dev (buf_at s j)) by (intros; apply Hb).
  assert (Hsec : forall j, sector (buf_at s' j) = sector (buf_at s j)) by (intros; apply Hb).
  assert (Hdat : forall j, data (buf_at s' j) = data (buf_at s j)) by (intros; apply Hb).
  assert (Hc : forall n j, is_cached s' n j <-> is_cached s n j) by (intros; unfold is_cached; by rewrite Hdev, Hsec).
  assert (H' : binv s' l').
  { destruct H as [I1 I2 I3 I4 I5 I6 I7 I8 I9 I10]. split; try done.
    - congruence.
    - intros i Hi. rewrite Hf. by apply I4.
    - intros i Hi. unfold dirty_buf, valid_buf. rewrite Hf. by apply I5.
    - intros i Hi. unfold dirty_buf, busy_buf. rewrite Hf, Hdev. by apply I6.
    - intros n i j Hi Hj. rewrite Hc in Hi, Hj. by eapply I7.
    - intros i Hi. unfold valid_buf, recyclable. rewrite Hf, Hdev, Hdat, Hsec, D1. by apply I8.
    - intros i n Hi. rewrite Hc in Hi. rewrite D2. by eapply I9.
    - by rewrite D3. }
  split; [done|]. split; [|split].
  - intros n. unfold view. replace (buffer_of s' n) with (buffer_of s n).
    + destruct (buffer_of s n); [|by rewrite D1]. unfold valid_buf. by rewrite Hf, Hdat, D1.
    + pose proof (buffer_of_spec s n) as B. destruct (buffer_of s n) as [i|] eqn:E.
      * symmetry. apply (buffer_of_cached s' l'); [done|]. by apply Hc.
      * pose proof (buffer_of_spec s' n) as B'. destruct (buffer_of s' n) as [i|]; [|done]. apply Hc in B'. by destruct (B i).
  - intros b n. unfold holds, busy_buf, valid_buf. by rewrite Hc, Hf.
  - intros p Hpp. apply set_eq. intros n. rewrite !elem_of_sectors. f_equiv. intros i.
    by rewrite Hsec, (Hpp (buf_at s' i) (buf_at s i) (Hf i)).
Qed.

(** [b] moved to the front of the ring. *)
Definition relink (b : nat) (s : bst) : bst :=
  let s := upd_buf (nx s b) (set_prev (pv s b)) s in
  let s := upd_buf (pv s b) (set_next (nx s b)) s in
  let s := upd_buf b (set_next (nx s head)) s in
  let s := upd_buf b (set_prev head) s in
  let s := upd_buf (nx s head) (set_prev b) s in
  upd_buf head (set_next b) s.

Lemma brelse_eq s b : (lk_bcache ∉ b_held s) -> busy_buf (buf_at s b) = true ->
  brelse b s = Ok tt (upd_buf b (fun y => set_flags (Z.land (flags y) (Z.lnot B_BUSY)) y) (relink b s)).
Proof.
  intros Hn Hb. unfold brelse, kbind, getb, kgets. unfold busy_buf in Hb. rewrite Hb. cbn [negb].
  rewrite acquire_ok by done. unfold setb, kmod. rewrite release_ok by left. simpl. rewrite remove_lock_cons by done.
  by destruct s.
Qed.

Lemma linked_bound nx pv n l : forall a z, linked nx pv a l z -> (z < n)%nat -> (a < n)%nat -> Forall (fun i => i < n)%nat l ->
  forall i, i = a \/ i ∈ l -> (nx i < n)%nat.
Proof.
  induction l as [|x l IH]; intros a z Hl Hz Ha Hf i Hi; simpl in Hl.
  - destruct Hl as [E _]. destruct Hi as [->|Hi]; [lia|by apply elem_of_nil in Hi].
  - destruct Hl as (E & _ & Hl). apply Forall_cons in Hf as [Hx Hf].
    destruct Hi as [->|Hi]; [lia|]. apply (IH x z Hl Hz Hx Hf). apply elem_of_cons in Hi. tauto.
Qed.

Lemma linked_bound_prev nx pv n l : forall a z, linked nx pv a l z -> (z < n)%nat -> (a < n)%nat -> Forall (fun i => i < n)%nat l ->
  forall i, i = z \/ i ∈ l -> (pv i < n)%nat.
Proof.
  induction l as [|x l IH]; intros a z Hl Hz Ha Hf i Hi; simpl in Hl.
  - destruct Hl as [_ E]. destruct Hi as [->|Hi]; [lia|by apply elem_of_nil in Hi].
  - destruct Hl as (_ & E & Hl). apply Forall_cons in Hf as [Hx Hf].
    destruct Hi as [->|Hi]; [by apply (IH x z); auto|]. apply elem_of_cons in Hi as [->|Hi]; [lia|]. by apply (IH x z); auto.
Qed.

Lemma ring_bound s l i : rinv s l -> (i <= NBUF)%nat -> (nx s i < S NBUF)%nat /\ (pv s i < S NBUF)%nat.
Proof.
  intros H Hi. assert (Hf : Forall (fun i => i < S NBUF)%nat l).
  { apply Forall_forall. intros j Hj. apply (ring_elem s l j H) in Hj. lia. }
  assert (Hc : i = head \/ i ∈ l).
  { destruct (decide (i = NBUF)); [by left|right]. apply (ring_elem s l i H). lia. }
  split.
  - eapply linked_bound; [apply (ri_ring _ _ H)| | |done|done]; unfold head; lia.
  - eapply linked_bound_prev; [apply (ri_ring _ _ H)| | |done|done]; unfold head; lia.
Qed.

(** The links after the six stores of [brelse]. *)
Lemma relink_links s l b : rinv s l -> (b < NBUF)%nat -> nx s b <> b ->
  let nx1 := upd (nx s) (pv s b) (nx s b) in
  let pv1 := upd (pv s) (nx s b) (pv s b) in
  relinked s (relink b s) /\
  (forall j, nx (relink b s) j = upd (upd nx1 b (nx1 head)) head b j) /\
  (forall j, pv (relink b s) j = upd (upd pv1 b head) (nx1 head) b j).
Proof.
  intros H Hb Hne nx1 pv1. pose proof (ri_len _ _ H) as Hl.
  assert (Hbd : forall i, (i <= NBUF)%nat -> (nx s i < S NBUF)%nat /\ (pv s i < S NBUF)%nat)
    by (intros; by eapply ring_bound).
  destruct (Hbd b ltac:(lia)) as [Hnb Hpb]. destruct (Hbd head ltac:(done)) as [Hnh _].
  assert (Hhd : head <> b) by (unfold head; lia).
  set (s1 := upd_buf (nx s b) (set_prev (pv s b)) s).
  assert (L1 : length (b_buf s1) = S NBUF) by (unfold s1; by rewrite length_upd).
  assert (N1 : forall j, nx s1 j = nx s j) by (intros; unfold s1; apply nx_set_prev; lia).
  assert (P1 : forall j, pv s1 j = pv1 j) by (intros; unfold s1; apply pv_set_prev; lia).
  assert (P1b : pv s1 b = pv s b) by (rewrite P1; unfold pv1; by rewrite upd_ne).
  set (s2 := upd_buf (pv s1 b) (set_next (nx s1 b)) s1).
  assert (L2 : length (b_buf s2) = S NBUF) by (unfold s2; by rewrite length_upd).
  assert (N2 : forall j, nx s2 j = nx1 j).
  { intros j. unfold s2. rewrite nx_set_next by lia. rewrite P1b, N1. unfold upd, nx1, upd. by rewrite N1. }
  assert (P2 : forall j, pv s2 j = pv1 j) by (intros; unfold s2; rewrite pv_set_next by lia; apply P1).
  assert (Hn1 : (nx1 head < S NBUF)%nat) by (unfold nx1, upd; case_match; lia).
  set (s3 := upd_buf b (set_next (nx s2 head)) s2).
  assert (L3 : length (b_buf s3) = S NBUF) by (unfold s3; by rewrite length_upd).
  assert (N3 : forall j, nx s3 j = upd nx1 b (nx1 head) j).
  { intros j. unfold s3. rewrite nx_set_next by lia. unfold upd. rewrite !N2. done. }
  assert (P3 : forall j, pv s3 j = pv1 j) by (intros; unfold s3; rewrite pv_set_next by lia; apply P2).
  set (s4 := upd_buf b (set_prev head) s3).
  assert (L4 : length (b_buf s4) = S NBUF) by (unfold s4; by rewrite length_upd).
  assert (N4 : forall j, nx s4 j = upd nx1 b (nx1 head) j) by (intros; unfold s4; rewrite nx_set_prev by lia; apply N3).
  assert (P4 : forall j, pv s4 j = upd pv1 b head j).
  { intros j. unfold s4. rewrite pv_set_prev by lia. unfold upd. by rewrite !P3. }
  assert (N4h : nx s4 head = nx1 head) by (rewrite N4; by rewrite upd_ne).
  assert (L5 : length (b_buf (upd_buf (nx s4 head) (set_prev b) s4)) = S NBUF) by (by rewrite length_upd).
  change (relink b s) with (upd_buf head (set_next b) (upd_buf (nx s4 head) (set_prev b) s4)). split; [|split].
  - apply relinked_next; [unfold head; lia|]. apply relinked_prev; [lia|]. unfold s4. apply relinked_prev; [lia|].
    unfold s3. apply relinked_next; [lia|]. unfold s2. apply relinked_next; [lia|]. unfold s1. apply relinked_prev; [lia|].
    by split.
  - intros j. rewrite nx_set_next by (rewrite L5; unfold head; lia). unfold upd at 1 2. case_match; [done|].
    rewrite nx_set_prev by lia. apply N4.
  - intros j. rewrite pv_set_next by (rewrite L5; unfold head; lia). rewrite pv_set_prev by lia. unfold upd at 1 2. rewrite N4h.
    case_match; [done|]. apply P4.
Qed.

Lemma relink_ring s l b : rinv s l -> (b < NBUF)%nat ->
  exists l1 l2, l = l1 ++ b :: l2 /\ relinked s (relink b s) /\ ring (relink b s) (b :: l1 ++ l2) /\ b :: l1 ++ l2 ≡ₚ seq 0 NBUF.
Proof.
  intros H Hb. pose proof (ring_nodup s l H) as Hnd. pose proof (ri_ring _ _ H) as Hr. unfold ring in Hr.
  assert (Hin : b ∈ l) by (by apply (ring_elem s l b H)).
  apply list_elem_of_split in Hin as (l1 & l2 & ->). apply linked_app in Hr as [H1 H2].
  assert (Hperm : b :: l1 ++ l2 ≡ₚ seq 0 NBUF) by (rewrite <- (ri_perm _ _ H); apply Permutation_middle).
  assert (Hnd' : NoDup (head :: l1 ++ l2) /\ (b ∉ l1 ++ l2)).
  { apply NoDup_cons in Hnd as [Hh Hn]. rewrite <- Permutation_middle in Hn. apply NoDup_cons in Hn as [? ?].
    split; [|done]. apply NoDup_cons. split; [|done]. intros E. apply Hh. apply elem_of_app in E as [E|E]; apply elem_of_app;
      [by left|right; by right]. }
  destruct Hnd' as [Hnd' Hbl]. pose proof (NoDup_cons_1_1 _ _ Hnd) as Hh.
  assert (Hne : nx s b <> b).
  { intros E. destruct (linked_first _ _ _ _ _ H2) as [E'|E']; [unfold head in E'; lia|]. rewrite E in E'.
    apply Hbl, elem_of_app. by right. }
  destruct (relink_links s _ b H Hb Hne) as (R & Hnx & Hpv).
  exists l1, l2. split; [done|]. split; [done|]. split; [|done]. pose proof (linked_remove _ _ _ _ _ _ _ H1 H2 Hnd Hh) as Hrem.
  unfold ring. eapply linked_ext; [intros i _; apply Hnx|intros i _; apply Hpv|].
  apply linked_insert; try done; try (unfold head; lia). by apply NoDup_cons in Hnd' as [? _].
Qed.

Lemma brelse_runs s l b n : binv s l -> holds s b n -> n ∈ sectors dirty_buf s \/ view s n = b_disk s n ->
  runs (brelse b) s (fun _ s' => (exists l1 l2, l = l1 ++ b :: l2 /\ binv s' (b :: l1 ++ l2)) /\ (forall m, view s' m = view s m) /\ same_disk s s' /\
    sectors busy_buf s' = sectors busy_buf s ∖ {[ n ]} /\ sectors dirty_buf s' = sectors dirty_buf s /\
    (forall b' m, holds s b' m -> b' <> b -> holds s' b' m)).
Proof.
  intros H Hh Hclean. pose proof Hh as (Hc & Hbusy & Hvalid). pose proof Hc as (Hlt & Hdev & Hsec).
  unfold runs. rewrite brelse_eq; [|apply H|done].
  destruct (relink_ring s l b H Hlt) as (l1 & l2 & El & R & Hring & Hperm). set (l' := l1 ++ l2) in *. set (s1 := relink b s) in *.
  destruct (relinked_effect s s1 l (b :: l') H R Hring Hperm) as (H1 & V1 & Hh1 & S1).
  destruct R as (RL & (RD & RS & RH & RT) & RB). destruct (RB b) as (EF & EDev & ESec & EDat).
  assert (Hlen : (b < length (b_buf s1))%nat) by (rewrite (bi_len _ _ H1); lia).
  set (f := fun y => set_flags (Z.land (flags y) (Z.lnot B_BUSY)) y). set (s' := upd_buf b f s1).
  assert (Es : buf_at s' b = f (buf_at s1 b)) by (by apply at_upd_buf).
  assert (Hs : same_but s1 s' b) by (by apply same_but_upd).
  destruct (flags_clear (flags (buf_at s1 b)) B_BUSY (bi_flags _ _ H1 b Hlt)) as (F1 & F2 & F3); [by left|].
  assert (Hd1 : dirty_buf (buf_at s' b) = dirty_buf (buf_at s1 b)) by (rewrite Es; apply F3; [by right; right|done]).
  assert (Hv1 : valid_buf (buf_at s' b) = true).
  { rewrite Es. unfold valid_buf. simpl. rewrite F3; [|by right; left|done]. rewrite EF. apply Hvalid. }
  assert (Hdat : data (buf_at s b) = view s n) by (symmetry; by apply (holds_view s l)).
  assert (Ho : buf_ok s1 s' b).
  { split; rewrite ?Es; simpl; rewrite ?EDev, ?ESec, ?EDat, ?Hsec; try done.
    - intros _. by rewrite <- Es.
    - by eapply (bi_range _ _ H).
    - intros i Hi Hci. apply Hi, (bi_uniq _ _ H1 n); [done|]. split; [done|]. split; congruence.
    - intros _ Hr. apply recyclable_false in Hr as [_ Hr]. rewrite <- Es, Hd1 in Hr. rewrite Hdat.
      destruct Hclean as [Hd|Hd]; [|done]. apply elem_of_sectors in Hd as (i & Hi & Hdi & Hsi).
      assert (i = b) as ->; [|unfold dirty_buf in *; congruence]. apply (bi_uniq _ _ H n); [|done]. split; [done|].
      split; [|done]. apply (bi_dev _ _ H); auto. }
  split; [exists l1, l2; split; [done|by eapply binv_change]|]. split; [|split; [done|split; [|split]]].
  - intros m. rewrite (view_change s1 s' (b :: l') b H1 Hlt Hs Ho Hv1); [|intros _; left; by rewrite Es].
    rewrite Es. simpl. rewrite ESec, EDat, V1, Hsec, Hdat. case_match; bool_hyps; congruence.
  - rewrite (sectors_del busy_buf s1 s' (b :: l') b H1 Hlt Hs); [|congruence|by left|by rewrite Es].
    rewrite ESec, Hsec, (S1 busy_buf); [done|]. intros x y E. unfold busy_buf. by rewrite E.
  - rewrite (sectors_same dirty_buf s1 s' b Hlt Hs Hd1); [|intros _; by rewrite Es].
    apply S1. intros x y E. unfold dirty_buf. by rewrite E.
  - intros b' m Hh' Hne. apply Hh1 in Hh' as (Hc' & ? & ?). split; [by apply (cached_other s1 s' b)|].
    by rewrite (sb_oth _ _ _ Hs).
Qed.

(** ** bio.c implements the interface *)

#[global] Instance bio_ops : BufferOps bst := {|
  bc_bread := bread;
  bc_bwrite := bwrite;
  bc_brelse := brelse;
  bc_put := bput;
  bc_mark := bdirty;
  bc_buf := buf_at
|}.

Definition bio_inv (s : bst) : Prop := exists l, binv s l.

Definition bio_abs (s : bst) : cache :=
  Cache (view s) (b_disk s) (b_size s) (b_trace s) (sectors busy_buf s) (sectors dirty_buf s).

Lemma bio_lock s lk l : bio_inv s -> lk <> lk_bcache -> l = lk :: b_held s \/ l = remove_lock lk (b_held s) ->
  bio_inv (set_b_held l s) /\ bio_abs (set_b_held l s) ≡ bio_abs s /\
  (forall b n, holds s b n -> holds (set_b_held l s) b n).
Proof.
  intros [r H] Hlk Hl. split; [|by split_and!]. exists r. destruct H as [I1 I2 I3 I4 I5 I6 I7 I8 I9 I10].
  split; try done. simpl. destruct Hl as [->| ->].
  - apply not_elem_of_cons. by split.
  - unfold remove_lock. intros Hin. by apply list_elem_of_filter in Hin as [_ ?].
Qed.

#[global] Instance bio_cache : BufferCache bst.
Proof.
  refine {| bc_inv := bio_inv; bc_abs := bio_abs; bc_holds := holds; bc_lock := bio_lock |}.
  - intros s b n [l H] Hh. pose proof Hh as ((_ & Hd & Hs) & _ & _). split_and!; try done.
    + symmetry. by apply (holds_view s l).
    + by eapply holds_busy.
    + destruct Hh as (Hc & _ & _). by destruct (bi_range _ _ H b n Hc).
    + destruct Hh as (Hc & _ & _). by destruct (bi_range _ _ H b n Hc).
  - intros s n [l H] Hn. apply not_elem_of_union in Hn as [Hb Hd]. by apply (view_disk s l).
  - intros s n [l H] (Hr & Hb & Hsz). eapply runs_conseq; [by apply (bread_runs s l n)|].
    intros b s' (H' & Hh & Hv & (D1 & D2 & D3 & D4) & Sb & Sd & Hk). split; [by exists l|]. split; [done|].
    split; [done|]. split; [|done]. split_and!; simpl; try done. by rewrite D1.
  - intros s b n v [l H] Hh. eapply runs_conseq; [by apply (bput_runs s l b n v)|].
    intros [] s' (H' & Hv & (D1 & D2 & D3 & D4) & Sb & Sd & Hk). split; [by exists l|]. split; [done|].
    split; [|done]. split_and!; simpl; try done; [|by rewrite D1]. intros m. rewrite Hv. unfold upd.
    destruct (decide (m = n)) as [->|]; [by rewrite Z.eqb_refl|by rewrite (proj2 (Z.eqb_neq _ _))].
  - intros s b n [l H] Hh. eapply runs_conseq; [by apply (bdirty_runs s l b n)|].
    intros [] s' (H' & Hv & (D1 & D2 & D3 & D4) & Sb & Sd & Hk). split; [by exists l|]. split; [done|].
    split; [|done]. split_and!; simpl; try done. by rewrite D1.
  - intros s b n [l H] Hh. eapply runs_conseq; [by apply (bwrite_runs s l b n)|].
    intros [] s' (H' & Hv & D1 & D4 & D2 & D3 & Sb & Sd & Hk). split; [by exists l|]. split; [done|].
    split; [|done]. split_and!; simpl; try done. intros m. rewrite D1. unfold upd.
    destruct (decide (m = n)) as [->|]; [by rewrite Z.eqb_refl|by rewrite (proj2 (Z.eqb_neq _ _))].
  - intros s b n [l H] Hh Hcl. eapply runs_conseq; [by apply (brelse_runs s l b n)|].
    intros [] s' ((l1 & l2 & _ & H') & Hv & (D1 & D2 & D3 & D4) & Sb & Sd & Hk). split; [by exists (b :: l1 ++ l2)|]. split; [done|].
    split; [split_and!; simpl; try done; by rewrite D1|]. intros b' m Hm Hh'. apply Hk; [done|]. intros ->.
    destruct Hh as ((_ & _ & E) & _), Hh' as ((_ & _ & E') & _). congruence.
Defined.

(** ** Boot *)

(** The cache in the zeroed data segment, before [binit]. *)
Definition bss_cache (d : list Z) (disk : Z -> list Z) (n : Z) : bst :=
  Bst (replicate (S NBUF) (Buf 0 0 0 0 0 d)) disk n [] [].

(** The cache after [binit]: the ring of the ten empty buffers. *)
Definition empty_cache (d : list Z) (disk : Z -> list Z) (n : Z) : bst :=
  Bst (((fun i => Buf 0 4294967295 0 (if decide (S i = NBUF) then head else S i) (if decide (i = 0%nat) then head else pred i) d)
        <$> seq 0 NBUF) ++ [Buf 0 0 0 0%nat 9%nat d]) disk n [] [].

Lemma binit_eq d disk n : binit (bss_cache d disk n) = Ok tt (empty_cache d disk n).
Proof. reflexivity. Qed.

Lemma empty_cache_inv d disk n : binv (empty_cache d disk n) (rev (seq 0 NBUF)).
Proof.
  assert (Hb : forall i, (i < NBUF)%nat -> flags (buf_at (empty_cache d disk n) i) = 0 /\
    dev (buf_at (empty_cache d disk n) i) = 4294967295).
  { intros i Hi. unfold NBUF in Hi. do 10 (destruct i as [|i]; [done|]). lia. }
  split.
  - done.
  - unfold ring. vm_compute. by split_and!.
  - symmetry. apply Permutation_rev.
  - intros i Hi. destruct (Hb i Hi) as [-> _]. lia.
  - intros i Hi. unfold dirty_buf. by destruct (Hb i Hi) as [-> _].
  - intros i Hi. unfold dirty_buf, busy_buf. destruct (Hb i Hi) as [-> _]. by intros [|].
  - intros m i j (Hi & Hd & _) _. destruct (Hb i Hi) as [_ E]. by rewrite E in Hd.
  - intros i Hi Hd. destruct (Hb i Hi) as [_ E]. by rewrite E in Hd.
  - intros i m (Hi & Hd & _). destruct (Hb i Hi) as [_ E]. by rewrite E in Hd.
  - apply not_elem_of_nil.
Qed.

Lemma empty_cache_abs d disk n : bio_abs (empty_cache d disk n) ≡ Cache disk disk n [] ∅ ∅.
Proof. by split_and!. Qed.

(** ** Claims *)

(** C38: if sector [n] is not in use and a buffer can be found for it, [bread] returns a buffer of
    that sector which is busy and holds the current content of the sector; it is the only buffer
    of the sector, no sector's content changes, nothing is written to the disk, and the
    buffers of other threads stay as they are. *)
Theorem bread_correct s n : bio_inv s -> can_read (bio_abs s) n ->
  runs (bread 1 n) s (fun b s' => bio_inv s' /\
    (is_cached s' n b /\ busy_buf (buf_at s' b) = true /\ data (buf_at s' b) = view s n) /\
    (forall i, is_cached s' n i -> i = b) /\ (forall m, view s' m = view s m) /\ same_disk s s' /\
    sectors busy_buf s' = {[ n ]} ∪ sectors busy_buf s /\
    (forall i m, m <> n -> is_cached s m i -> busy_buf (buf_at s i) = true -> valid_buf (buf_at s i) = true ->
       data (buf_at s' i) = data (buf_at s i))).
Proof.
  intros [l H] (Hn & Hb & Hsz). eapply runs_conseq; [by apply (bread_runs s l n)|].
  intros b s' (H' & Hh & Hv & Hd & Hbs & _ & Hk). pose proof Hh as (Hc & Hbusy & _). split; [by exists l|].
  split; [|split; [|split; [done|split; [done|split; [done|]]]]].
  - split_and!; [done|done|]. rewrite <- Hv. symmetry. by apply (holds_view s' l).
  - intros i Hi. by apply (bi_uniq _ _ H' n).
  - intros i m Hm Hci Hbi Hvi. assert (Hho : holds s i m) by (by split_and!). rewrite <- (holds_view s l i m H Hho).
    rewrite <- (Hv m). symmetry. apply (holds_view s' l); [done|by apply Hk].
Qed.

Lemma bread_correct_witness : exists s b s', bread 1 3 s = Ok b s' /\ data (buf_at s' b) = [7] /\ view s' 3 = [7].
Proof.
  assert (Hinv : bio_inv (empty_cache [] (fun _ => [7]) 20)) by (exists (rev (seq 0 NBUF)); apply empty_cache_inv).
  assert (Hr : can_read (bio_abs (empty_cache [] (fun _ => [7]) 20)) 3).
  { split; [simpl; lia|]. split; [apply not_elem_of_empty|]. intros _. apply Nat.ltb_lt. reflexivity. }
  pose proof (bread_correct (empty_cache [] (fun _ => [7]) 20) 3 Hinv Hr) as H. apply runs_Ok in H as (b & s' & E & H).
  destruct H as (_ & (_ & _ & Hd) & _ & Hv & _). exists (empty_cache [] (fun _ => [7]) 20), b, s'.
  split; [exact E|]. rewrite Hd, Hv. split; reflexivity.
Defined.

Lemma find_rev_split (p : nat -> bool) l b : find p (rev l) = Some b ->
  exists r1 r2, l = r1 ++ b :: r2 /\ p b = true /\ forall i, i ∈ r2 -> p i = false.
Proof.
  induction l as [|x l IH] using rev_ind; [done|]. rewrite rev_app_distr. simpl. destruct (p x) eqn:Hx.
  - intros [= ->]. exists l, []. split; [done|]. split; [done|]. by intros i Hi%elem_of_nil.
  - intros Hf. destruct (IH Hf) as (r1 & r2 & -> & Hb & Hr). exists r1, (r2 ++ [x]). split; [by rewrite <- app_assoc|].
    split; [done|]. intros i Hi. apply elem_of_app in Hi as [Hi|Hi]; [by apply Hr|]. by apply list_elem_of_singleton in Hi as ->.
Qed.

(** Replacement is least recently used: [brelse] moves the buffer to the front of the ring and keeps
    the order of the others; a miss of [bread] recycles the last free buffer of the ring, so
    that every buffer behind it is busy or dirty. *)
Theorem lru_replacement s l b n m : binv s l -> holds s b n -> n ∈ sectors dirty_buf s \/ view s n = b_disk s n ->
  runs (brelse b) s (fun _ s' => exists l1 l2, l = l1 ++ b :: l2 /\ binv s' (b :: l1 ++ l2) /\
    ((forall i, ~ is_cached s' m i) -> (size (sectors busy_buf s' ∪ sectors dirty_buf s') < NBUF)%nat ->
     runs (bget 1 m) s' (fun b' _ => exists r1 r2, b :: l1 ++ l2 = r1 ++ b' :: r2 /\ recyclable (buf_at s' b') = true /\
       forall i, i ∈ r2 -> recyclable (buf_at s' i) = false))).
Proof.
  intros H Hh Hcl. eapply runs_conseq; [by apply (brelse_runs s l b n)|].
  intros [] s' ((l1 & l2 & El & H') & _). exists l1, l2. split; [done|]. split; [done|]. intros Hno Hsz.
  destruct (bget_eq s' _ m H') as (b' & f & E & Hb' & Hcase).
  - intros (i & Hi & Hbi & Hs)%elem_of_sectors. apply (Hno i). split; [done|]. split; [|done]. apply (bi_dev _ _ H'); auto.
  - done.
  - destruct Hcase as [[Hc _]|(_ & Hrec & _ & Hfind)]; [by apply Hno in Hc|]. eapply runs_eq; [exact E|].
    by apply (find_rev_split (fun i => recyclable (buf_at s' i))).
Qed.

Lemma lru_replacement_witness : exists s b s', bread 1 3 s = Ok b s' /\
  runs (brelse b) s' (fun _ s'' => exists l1 l2, binv s'' (b :: l1 ++ l2)).
Proof.
  assert (Hinv : bio_inv (empty_cache [] (fun _ => [7]) 20)) by (exists (rev (seq 0 NBUF)); apply empty_cache_inv).
  assert (Hi : binv (empty_cache [] (fun _ => [7]) 20) (rev (seq 0 NBUF))) by apply empty_cache_inv.
  pose proof (bread_runs _ _ 3 Hi ltac:(simpl; lia) ltac:(apply not_elem_of_empty) ltac:(intros _; apply Nat.ltb_lt; reflexivity)) as H.
  apply runs_Ok in H as (b & s' & E & H' & Hh & Hv & (Hd & _) & _). exists (empty_cache [] (fun _ => [7]) 20), b, s'. split; [exact E|].
  eapply runs_conseq; [apply (lru_replacement s' _ b 3 4 H' Hh); right; rewrite Hv, Hd; reflexivity|].
  intros u s'' (l1 & l2 & _ & H'' & _). by exists l1, l2.
Defined.
