(* ===== verification/Bytes.v ===== *)
(** * Structures inside a disk block

    C overlays a [struct] or an array of integers on the bytes of a block.  [get_le] and [put_le]
    read and write a [k]-byte little-endian field at a byte offset; the lemmas say that a
    field reads back what was stored into it and that disjoint fields do not interfere. *)

From S2P Require Import Prelude.

Fixpoint le_bytes (k : nat) (v : Z) : list Z :=
  match k with
  | O => []
  | S k' => v mod 256 :: le_bytes k' (v / 256)
  end.

Fixpoint le_val (l : list Z) : Z :=
  match l with
  | [] => 0
  | b :: l' => b + 256 * le_val l'
  end.

Definition get_le (k off : nat) (blk : list Z) : Z := le_val (take k (drop off blk)).
Definition put_le (k off : nat) (v : Z) (blk : list Z) : list Z := splice off (le_bytes k v) blk.

Lemma length_le_bytes k : forall v, length (le_bytes k v) = k.
Proof. induction k; intros; simpl; [done|]. by rewrite IHk. Qed.

Lemma le_val_bytes k : forall v, le_val (le_bytes k v) = v mod 256 ^ Z.of_nat k.
Proof.
  induction k as [|k IH]; intros v; simpl le_bytes; cbn [le_val].
  - by rewrite Z.mod_1_r.
  - rewrite IH, Nat2Z.inj_succ, Z.pow_succ_r by lia.
    rewrite Z.rem_mul_r by (try lia; apply Z.pow_pos_nonneg; lia). done.
Qed.

Definition bytes_ok (l : list Z) : Prop := Forall (fun b => 0 <= b < 256) l.

Lemma le_bytes_ok k : forall v, bytes_ok (le_bytes k v).
Proof. induction k; intros v; simpl; constructor; [apply Z.mod_pos_bound; lia|apply IHk]. Qed.

Lemma le_val_range l : bytes_ok l -> 0 <= le_val l < 256 ^ Z.of_nat (length l).
Proof.
  induction l as [|b l IH]; intros H; cbn [le_val length]; [lia|]. inversion H; subst.
  rewrite Nat2Z.inj_succ, Z.pow_succ_r by lia. specialize (IH ltac:(done)). lia.
Qed.

Lemma length_put_le k off v blk : (off + k <= length blk)%nat -> length (put_le k off v blk) = length blk.
Proof. intros. apply length_splice. by rewrite length_le_bytes. Qed.

(** The segment of an updated array. *)
Lemma splice_take_drop_same {A} off (new l : list A) : (off + length new <= length l)%nat ->
  take (length new) (drop off (splice off new l)) = new.
Proof.
  intros H. unfold splice. rewrite drop_app_length' by (rewrite length_take; lia). by rewrite take_app_length.
Qed.

Lemma splice_take_drop_other {A} off (new l : list A) k off' : (off + length new <= length l)%nat ->
  (off' + k <= off \/ off + length new <= off')%nat ->
  take k (drop off' (splice off new l)) = take k (drop off' l).
Proof.
  intros H Hd. apply list_eq. intros i. destruct (decide (i < k)%nat) as [Hi|Hi].
  - rewrite !lookup_take_lt, !lookup_drop by done. apply lookup_splice_out; lia.
  - rewrite !lookup_take_ge by lia. done.
Qed.

Lemma get_put_same k off v blk : (off + k <= length blk)%nat -> get_le k off (put_le k off v blk) = v mod 256 ^ Z.of_nat k.
Proof.
  intros H. unfold get_le, put_le. rewrite <- (length_le_bytes k v) at 1.
  rewrite splice_take_drop_same by (by rewrite length_le_bytes). apply le_val_bytes.
Qed.

Lemma get_put_other k off v k' off' blk : (off + k <= length blk)%nat -> (off' + k' <= off \/ off + k <= off')%nat ->
  get_le k' off' (put_le k off v blk) = get_le k' off' blk.
Proof.
  intros H Hd. unfold get_le, put_le. by rewrite splice_take_drop_other by (by rewrite length_le_bytes).
Qed.

Lemma get_le_range k off blk : bytes_ok blk -> (off + k <= length blk)%nat -> 0 <= get_le k off blk < 256 ^ Z.of_nat k.
Proof.
  intros Hb Hl. unfold get_le. pose proof (le_val_range (take k (drop off blk))) as Hr.
  rewrite length_take, length_drop, Nat.min_l in Hr by lia. apply Hr. by apply Forall_take, Forall_drop.
Qed.

Lemma bytes_ok_splice off new l : bytes_ok new -> bytes_ok l -> bytes_ok (splice off new l).
Proof. intros Hn Hl. unfold splice. apply Forall_app. split; [by apply Forall_take|]. apply Forall_app. split; [done|by apply Forall_drop]. Qed.

Lemma bytes_ok_put k off v blk : bytes_ok blk -> bytes_ok (put_le k off v blk).
Proof. intros. apply bytes_ok_splice; [apply le_bytes_ok|done]. Qed.

(** Bits of a byte array: bit [i] is bit [i mod 8] of byte [i / 8]. *)
Definition get_bit (i : nat) (l : list Z) : bool := Z.testbit (nth (i / 8) l 0) (Z.of_nat (i mod 8)).

#[export] Hint Resolve bytes_ok_put le_bytes_ok bytes_ok_splice : xv6.
#[export] Hint Rewrite length_put_le length_le_bytes using lia : xv6.
