(* ===== verification/Log.v ===== *)
(** * The log: log.c (and [readsb] of fs.c)

    The code runs over any buffer cache that provides the operations of [BufferOps]; [lst] adds
    [struct log] to the state of the cache.  [begin_trans] and the waits inside the cache give up
    the CPU with [Block]; the process starts the call again when it is woken. *)

From S2P Require Import Prelude Bio BufferCache Bytes.

Definition LOGSIZE : Z := 10.
Definition ROOTDEV : Z := 1.

(** [struct superblock] *)
Record superblock := Superblock { sb_size : Z; sb_nblocks : Z; sb_ninodes : Z; sb_nlog : Z }.

(** [struct log], with the cache below it.  [l_sector] is [lh.sector], an array of [LOGSIZE]
    integers. *)
Record lst (B : Type) := Lst {
  l_bc : B;
  l_start : Z;
  l_size : Z;
  l_busy : Z;
  l_dev : Z;
  l_n : Z;
  l_sector : list Z
}.
Arguments Lst {B}.
Arguments l_bc {B}.
Arguments l_start {B}.
Arguments l_size {B}.
Arguments l_busy {B}.
Arguments l_dev {B}.
Arguments l_n {B}.
Arguments l_sector {B}.

Section Log.
Context {B : Type} {OPS : BufferOps B}.

Definition set_l_bc (v : B) (s : lst B) : lst B := Lst v (l_start s) (l_size s) (l_busy s) (l_dev s) (l_n s) (l_sector s).
Definition set_l_busy (v : Z) (s : lst B) : lst B := Lst (l_bc s) (l_start s) (l_size s) v (l_dev s) (l_n s) (l_sector s).
Definition set_l_n (v : Z) (s : lst B) : lst B := Lst (l_bc s) (l_start s) (l_size s) (l_busy s) (l_dev s) v (l_sector s).
Definition set_l_sector (i : nat) (v : Z) (s : lst B) : lst B :=
  Lst (l_bc s) (l_start s) (l_size s) (l_busy s) (l_dev s) (l_n s) (<[ i := v ]> (l_sector s)).
Definition set_l_place (start size dev : Z) (s : lst B) : lst B :=
  Lst (l_bc s) start size (l_busy s) dev (l_n s) (l_sector s).

#[global] Instance lst_locks : HasLocks (lst B).
Proof.
  refine {| held := fun s => held (l_bc s); set_held := fun l s => set_l_bc (set_held l (l_bc s)) s |}; intros.
  - apply held_set_held.
  - destruct s. unfold set_l_bc. simpl. by rewrite set_held_held.
  - unfold set_l_bc. simpl. by rewrite set_held_set_held.
Defined.

(** A call into the cache. *)
Definition lift_b {A} (m : K B A) : K (lst B) A := fun s =>
  match m (l_bc s) with
  | Ok a b => Ok a (set_l_bc b s)
  | Panic msg b => Panic msg (set_l_bc b s)
  | Block c b => Block c (set_l_bc b s)
  | NoFuel => NoFuel
  end.

Definition buf_data (b : nat) : K (lst B) (list Z) := kgets (fun s => data (bc_buf (l_bc s) b)).
Definition sector_at (s : lst B) (i : Z) : Z := nth (Z.to_nat i) (l_sector s) 0.

(** fs.c *)
Definition readsb (d : Z) : K (lst B) superblock :=
  let* bp := lift_b (bc_bread d 1) in
  let* blk := buf_data bp in
  lift_b (bc_brelse bp) ;;;
  kret (Superblock (get_le 4 0 blk) (get_le 4 4 blk) (get_le 4 8 blk) (get_le 4 12 blk)).

Definition install_one (tail : Z) : K (lst B) unit :=
  let* s := kget in
  let* lbuf := lift_b (bc_bread (l_dev s) (u32 (l_start s + tail + 1))) in
  let* dbuf := lift_b (bc_bread (l_dev s) (u32 (sector_at s tail))) in
  let* blk := buf_data lbuf in
  lift_b (bc_put dbuf blk) ;;;
  lift_b (bc_bwrite dbuf) ;;;
  lift_b (bc_brelse lbuf) ;;;
  lift_b (bc_brelse dbuf).

Definition install_trans : K (lst B) unit :=
  let* n := kgets l_n in
  for_each (seqZ 0 n) install_one.

(** A store past the end of [log.lh.sector], undefined in C, is a panic here. *)
Definition read_head : K (lst B) unit :=
  let* s := kget in
  let* bp := lift_b (bc_bread (l_dev s) (u32 (l_start s))) in
  let* blk := buf_data bp in
  kmod (set_l_n (s32 (get_le 4 0 blk))) ;;;
  let* n := kgets l_n in
  for_each (seqZ 0 n) (fun i =>
    if LOGSIZE <=? i then kpanic "undefined: log.lh.sector index"
    else kmod (set_l_sector (Z.to_nat i) (s32 (get_le 4 (Z.to_nat (4 + 4 * i)) blk)))) ;;;
  lift_b (bc_brelse bp).

(** The header block with the fields of [log.lh] stored into it. *)
Fixpoint put_sectors (l : list Z) (off : nat) (blk : list Z) : list Z :=
  match l with
  | [] => blk
  | x :: l' => put_sectors l' (off + 4) (put_le 4 off x blk)
  end.

Definition put_head (n : Z) (l : list Z) (blk : list Z) : list Z :=
  put_sectors (take (Z.to_nat n) l) 4 (put_le 4 0 n blk).

Definition write_head : K (lst B) unit :=
  let* s := kget in
  let* bp := lift_b (bc_bread (l_dev s) (u32 (l_start s))) in
  let* blk := buf_data bp in
  lift_b (bc_put bp (put_head (l_n s) (l_sector s) blk)) ;;;
  lift_b (bc_bwrite bp) ;;;
  lift_b (bc_brelse bp).

Definition recover_from_log : K (lst B) unit :=
  read_head ;;;
  install_trans ;;;
  kmod (set_l_n 0) ;;;
  write_head.

(** [sizeof(struct logheader)] is 44. *)
Definition initlog : K (lst B) unit :=
  if BSIZE <=? 4 + 4 * LOGSIZE then kpanic "initlog: too big logheader"
  else
    let* sb := readsb ROOTDEV in
    kmod (set_l_place (s32 (sb_size sb - sb_nlog sb)) (s32 (sb_nlog sb)) ROOTDEV) ;;;
    recover_from_log.

Definition begin_trans : K (lst B) unit :=
  acquire lk_log ;;;
  let* b := kgets l_busy in
  if negb (b =? 0) then
    release lk_log ;;;
    kblock ch_log
  else
    kmod (set_l_busy 1) ;;;
    release lk_log.

(** [wakeup(&log)] acts on the process table only. *)
Definition commit_trans : K (lst B) unit :=
  let* n := kgets l_n in
  (when 0 <? n do
     (write_head ;;;
      install_trans ;;;
      kmod (set_l_n 0) ;;;
      write_head)) ;;;
  acquire lk_log ;;;
  kmod (set_l_busy 0) ;;;
  release lk_log.

(** The index of the sector among the first [n] entries, or [n]. *)
Fixpoint log_index (sec : Z) (l : list Z) (i : Z) (n : nat) : Z :=
  match n with
  | O => i
  | S n' =>
      match l with
      | [] => i
      | x :: l' => if u32 x =? sec then i else log_index sec l' (i + 1) n'
      end
  end.

Definition log_write (b : nat) : K (lst B) unit :=
  let* s := kget in
  if (LOGSIZE <=? l_n s) || (l_size s - 1 <=? l_n s) then kpanic "too big a transaction"
  else if l_busy s =? 0 then kpanic "write outside of trans"
  else
    let sec := sector (bc_buf (l_bc s) b) in
    let i := log_index sec (l_sector s) 0 (Z.to_nat (l_n s)) in
    kmod (set_l_sector (Z.to_nat i) (s32 sec)) ;;;
    let* lbuf := lift_b (bc_bread (dev (bc_buf (l_bc s) b)) (u32 (l_start s + i + 1))) in
    let* blk := buf_data b in
    lift_b (bc_put lbuf blk) ;;;
    lift_b (bc_bwrite lbuf) ;;;
    lift_b (bc_brelse lbuf) ;;;
    (when i =? l_n s do kmod (set_l_n (l_n s + 1))) ;;;
    lift_b (bc_mark b).
End Log.
