(* ===== verification/LogSpec.v ===== *)
(** * What the log promises

    The on-disk log as a function of the disk: [logged] reads the header and the copies, [recovered]
    is the disk after [recover_from_log].  The operations of log.c are specified against the
    interface [BufferCache]; [linv] is the invariant between them.  The main result is atomicity: wherever
    a crash cuts the sequence of disk writes of a transaction, recovery gives the blocks
    as they were before it or as they are after it. *)

From S2P Require Import Prelude Bio BufferCache Bytes Log.

(** ** The disk as a function, and writes to it *)

Definition disk := Z -> list Z.

Definition apply_writes (ws : list (Z * list Z)) (d : disk) : disk :=
  fold_left (fun d w => upd d w.1 w.2) ws d.

Lemma apply_writes_app ws1 ws2 d : apply_writes (ws1 ++ ws2) d = apply_writes ws2 (apply_writes ws1 d).
Proof. apply fold_left_app. Qed.

Lemma apply_writes_other ws : forall d n, (n ∉ ws.*1) -> apply_writes ws d n = d n.
Proof.
  induction ws as [|[m v] ws IH]; intros d n Hn; [done|]. simpl in *. apply not_elem_of_cons in Hn as [Hn1 Hn2].
  unfold apply_writes in *. simpl. rewrite IH by done. by rewrite upd_ne.
Qed.

(** Writes that give each sector one content. *)
Lemma apply_writes_const l v : forall d n, apply_writes ((fun x => (x, v x)) <$> l) d n = if decide (n ∈ l) then v n else d n.
Proof.
  induction l as [|x l IH]; intros d n; [done|]. unfold apply_writes in *. simpl. rewrite IH.
  destruct (decide (n ∈ l)) as [Hn|Hn].
  - rewrite decide_True; [done|]. by right.
  - unfold upd. destruct (decide (n = x)) as [->|Hx].
    + rewrite decide_True; [done|left].
    + rewrite decide_False; [done|]. by apply not_elem_of_cons.
Qed.

Lemma apply_writes_ext ws : forall d d' n, d n = d' n -> apply_writes ws d n = apply_writes ws d' n.
Proof.
  induction ws as [|[m v] ws IH]; intros d d' n H; [done|]. unfold apply_writes in *. simpl. apply IH.
  unfold upd. by case_decide.
Qed.

(** ** The header block *)

Definition hdr_n (blk : list Z) : Z := s32 (get_le 4 0 blk).
Definition hdr_sector (blk : list Z) (i : nat) : Z := get_le 4 (4 + 4 * i) blk.

Lemma put_sectors_length l : forall off blk, (off + 4 * length l <= length blk)%nat ->
  length (put_sectors l off blk) = length blk.
Proof.
  induction l as [|x l IH]; intros off blk H; simpl in *; [done|].
  rewrite IH; rewrite length_put_le by lia; lia.
Qed.

Lemma put_sectors_before l : forall off blk k o, (off + 4 * length l <= length blk)%nat -> (o + k <= off)%nat ->
  get_le k o (put_sectors l off blk) = get_le k o blk.
Proof.
  induction l as [|x l IH]; intros off blk k o H Ho; simpl in *; [done|].
  rewrite IH by (rewrite ?length_put_le by lia; lia). apply get_put_other; lia.
Qed.

Lemma put_sectors_get l : forall off blk i x, (off + 4 * length l <= length blk)%nat -> l !! i = Some x ->
  get_le 4 (off + 4 * i) (put_sectors l off blk) = u32 x.
Proof.
  induction l as [|y l IH]; intros off blk i x H Hi; [done|]. cbn [put_sectors length] in *.
  destruct i as [|i]; simpl in Hi.
  - simplify_eq. rewrite put_sectors_before by (rewrite ?length_put_le by lia; lia).
    rewrite Nat.mul_0_r, Nat.add_0_r, get_put_same by lia. done.
  - replace (off + 4 * S i)%nat with (off + 4 + 4 * i)%nat by lia. apply IH; [rewrite length_put_le by lia; lia|done].
Qed.

Lemma s32_u32_small n : 0 <= n < 2147483648 -> s32 (u32 n) = n.
Proof. intros. unfold s32, u32. mlia. Qed.

Section header.
Variables (n : Z) (l blk : list Z).
Hypothesis Hn : 0 <= n <= LOGSIZE.
Hypothesis Hl : length l = Z.to_nat LOGSIZE.
Hypothesis Hblk : length blk = Z.to_nat BSIZE.

Lemma put_head_fits : (4 + 4 * length (take (Z.to_nat n) l) <= length (put_le 4 0 n blk))%nat.
Proof.
  rewrite length_put_le, length_take, Hl, Hblk by (rewrite Hblk; unfold BSIZE; lia). unfold BSIZE, LOGSIZE in *. lia.
Qed.

Lemma put_head_length : length (put_head n l blk) = Z.to_nat BSIZE.
Proof.
  unfold put_head. rewrite put_sectors_length by apply put_head_fits.
  rewrite length_put_le; [done|]. rewrite Hblk. unfold BSIZE. lia.
Qed.

Lemma put_head_n : hdr_n (put_head n l blk) = n.
Proof.
  unfold hdr_n, put_head. rewrite put_sectors_before; [|apply put_head_fits|lia].
  rewrite get_put_same by (rewrite Hblk; unfold BSIZE; lia). change (256 ^ Z.of_nat 4) with 4294967296.
  apply (s32_u32_small n). unfold LOGSIZE in Hn. lia.
Qed.

Lemma put_head_sector i x : take (Z.to_nat n) l !! i = Some x -> hdr_sector (put_head n l blk) i = u32 x.
Proof. intros Hi. unfold hdr_sector, put_head. apply put_sectors_get; [apply put_head_fits|done]. Qed.
End header.

(** ** The log on the disk *)

Definition logged (start : Z) (d : disk) : list (Z * list Z) :=
  (fun i => (hdr_sector (d start) i, d (start + 1 + Z.of_nat i))) <$> seq 0 (Z.to_nat (hdr_n (d start))).

(** The home blocks after recovery. *)
Definition recovered (start : Z) (d : disk) : disk := apply_writes (logged start d) d.

(** Agreement on the blocks below the log. *)
Definition home_eq (start : Z) (d d' : disk) : Prop := forall m, 0 <= m < start -> d m = d' m.

(** The log holds the list [l] of sectors with contents [v]. *)
Definition log_holds (start : Z) (d : disk) (l : list Z) (v : disk) : Prop :=
  hdr_n (d start) = Z.of_nat (length l) /\
  forall i x, l !! i = Some x -> hdr_sector (d start) i = x /\ d (start + 1 + Z.of_nat i) = v x.

Lemma logged_holds start d l v : log_holds start d l v -> logged start d = (fun x => (x, v x)) <$> l.
Proof.
  intros [Hn Hi]. unfold logged. rewrite Hn, Nat2Z.id. apply list_eq. intros i. rewrite !list_lookup_fmap.
  destruct (l !! i) as [x|] eqn:E.
  - rewrite lookup_seq_lt by (by eapply lookup_lt_Some). simpl. by destruct (Hi i x E) as [-> ->].
  - rewrite lookup_seq_ge; [done|]. by apply lookup_ge_None.
Qed.

Lemma recovered_holds start d l v m : log_holds start d l v -> recovered start d m = if decide (m ∈ l) then v m else d m.
Proof. intros H. unfold recovered. rewrite (logged_holds _ _ _ _ H). apply apply_writes_const. Qed.

Lemma recovered_empty start d : hdr_n (d start) = 0 -> recovered start d = d.
Proof. intros H. unfold recovered, logged. by rewrite H. Qed.

(** ** The cache operations as the log calls them *)

Section steps.
Context {B : Type} {OPS : BufferOps B} {BC : BufferCache B}.
Implicit Types (s : lst B) (c : cache).

(** The cache below the log is in the abstract state [c]. *)
Definition at_cache s c : Prop := bc_inv (l_bc s) /\ bc_abs (l_bc s) ≡ c.

(** The fields of [struct log] and the locks are those of [s]. *)
Definition log_frame s s' : Prop :=
  l_start s' = l_start s /\ l_size s' = l_size s /\ l_busy s' = l_busy s /\ l_dev s' = l_dev s /\ l_n s' = l_n s /\
  l_sector s' = l_sector s /\ held s' = held s.

Definition keeps s s' (P : Z -> Prop) : Prop :=
  forall b m, P m -> bc_holds (l_bc s) b m -> bc_holds (l_bc s') b m.

Lemma log_frame_trans s1 s2 s3 : log_frame s1 s2 -> log_frame s2 s3 -> log_frame s1 s3.
Proof. unfold log_frame. intuition congruence. Qed.

Lemma at_cache_equiv s c c' : at_cache s c -> c ≡ c' -> at_cache s c'.
Proof. intros [H1 H2] E. split; [done|]. by rewrite H2. Qed.

Lemma runs_lift {A} (m : K B A) s Q : runs m (l_bc s) (fun a b => Q a (set_l_bc b s)) -> runs (lift_b m) s Q.
Proof. unfold runs, lift_b. by destruct (m (l_bc s)). Qed.

Lemma step_bread s c n (Q : nat -> lst B -> Prop) : at_cache s c -> can_read c n ->
  (forall b s', at_cache s' (set_busy ({[ n ]} ∪ c_busy c) c) -> bc_holds (l_bc s') b n -> log_frame s s' ->
     keeps s s' (fun _ => True) -> Q b s') ->
  runs (lift_b (bc_bread 1 n)) s Q.
Proof.
  intros [Hi Ha] Hr HQ. apply runs_lift. eapply runs_conseq; [apply bc_bread_law; [done|by rewrite Ha]|].
  intros b b' (Hi' & Hh & Hl & Ha' & Hk). apply HQ; [|done|by split_and!|by intros ? ? _; apply Hk].
  split; [done|]. simpl. rewrite Ha'. destruct Ha as (A1 & A2 & A3 & A4 & A5 & A6). split_and!; simpl; try done. by rewrite A5.
Qed.

Lemma step_put s c b n v (Q : unit -> lst B -> Prop) : at_cache s c -> bc_holds (l_bc s) b n ->
  (forall s', at_cache s' (set_view n v c) -> log_frame s s' -> keeps s s' (fun _ => True) -> Q tt s') ->
  runs (lift_b (bc_put b v)) s Q.
Proof.
  intros [Hi Ha] Hh HQ. apply runs_lift. eapply runs_conseq; [by apply (bc_put_law _ _ n)|].
  intros [] b' (Hi' & Hl & Ha' & Hk). apply HQ; [|by split_and!|by intros ? ? _; apply Hk].
  split; [done|]. simpl. by rewrite Ha', Ha.
Qed.

Lemma step_mark s c b n (Q : unit -> lst B -> Prop) : at_cache s c -> bc_holds (l_bc s) b n ->
  (forall s', at_cache s' (set_dirty ({[ n ]} ∪ c_dirty c) c) -> log_frame s s' -> keeps s s' (fun _ => True) -> Q tt s') ->
  runs (lift_b (bc_mark b)) s Q.
Proof.
  intros [Hi Ha] Hh HQ. apply runs_lift. eapply runs_conseq; [by apply (bc_mark_law _ _ n)|].
  intros [] b' (Hi' & Hl & Ha' & Hk). apply HQ; [|by split_and!|by intros ? ? _; apply Hk].
  split; [done|]. simpl. rewrite Ha'. destruct Ha as (A1 & A2 & A3 & A4 & A5 & A6). split_and!; simpl; try done. by rewrite A6.
Qed.

Lemma step_bwrite s c b n (Q : unit -> lst B -> Prop) : at_cache s c -> bc_holds (l_bc s) b n ->
  (forall s', at_cache s' (flush n c) -> log_frame s s' -> keeps s s' (fun _ => True) -> Q tt s') ->
  runs (lift_b (bc_bwrite b)) s Q.
Proof.
  intros [Hi Ha] Hh HQ. apply runs_lift. eapply runs_conseq; [by apply (bc_bwrite_law _ _ n)|].
  intros [] b' (Hi' & Hl & Ha' & Hk). apply HQ; [|by split_and!|by intros ? ? _; apply Hk].
  split; [done|]. simpl. by rewrite Ha', Ha.
Qed.

Lemma step_brelse s c b n (Q : unit -> lst B -> Prop) : at_cache s c -> bc_holds (l_bc s) b n ->
  n ∈ c_dirty c \/ c_view c n = c_disk c n ->
  (forall s', at_cache s' (set_busy (c_busy c ∖ {[ n ]}) c) -> log_frame s s' -> keeps s s' (fun m => m <> n) -> Q tt s') ->
  runs (lift_b (bc_brelse b)) s Q.
Proof.
  intros [Hi Ha] Hh Hc HQ. pose proof Ha as (A1 & A2 & A3 & A4 & A5 & A6).
  apply runs_lift. eapply runs_conseq; [apply (bc_brelse_law _ _ n); [done|done|by rewrite A1, A2, A6]|].
  intros [] b' (Hi' & Hl & Ha' & Hk). apply HQ; [|by split_and!|by intros ? ? ?; apply Hk].
  split; [done|]. simpl. rewrite Ha'. split_and!; simpl; try done. by rewrite A5.
Qed.

Lemma step_data s c b n (Q : list Z -> lst B -> Prop) : at_cache s c -> bc_holds (l_bc s) b n ->
  Q (c_view c n) s -> runs (buf_data b) s Q.
Proof.
  intros [Hi Ha] Hh HQ. unfold runs, buf_data, kgets.
  destruct (bc_held_buf _ _ _ Hi Hh) as (_ & _ & -> & _). destruct Ha as (-> & _). done.
Qed.

Lemma holds_at s c b n : at_cache s c -> bc_holds (l_bc s) b n ->
  sector (bc_buf (l_bc s) b) = n /\ dev (bc_buf (l_bc s) b) = 1 /\ 0 <= n < c_size c /\ n ∈ c_busy c.
Proof.
  intros [Hi Ha] Hh. destruct (bc_held_buf _ _ _ Hi Hh) as (H1 & H2 & H3 & H4 & H5).
  destruct Ha as (A1 & A2 & A3 & A4 & A5 & A6). rewrite A5 in H4. rewrite A3 in H5. done.
Qed.

Lemma clean_at s c n : at_cache s c -> (n ∉ c_busy c) -> (n ∉ c_dirty c) -> c_view c n = c_disk c n.
Proof.
  intros [Hi (A1 & A2 & A3 & A4 & A5 & A6)] Hb Hd. rewrite <- A1, <- A2. apply bc_clean; [done|].
  unfold pinned. rewrite A5, A6. by apply not_elem_of_union.
Qed.
End steps.

(** [n] gets the content [v], in the cache and on the disk. *)
Definition wrote (n : Z) (v : list Z) (c : cache) : cache :=
  Cache (upd (c_view c) n v) (upd (c_disk c) n v) (c_size c) (c_trace c ++ [(n, v)]) (c_busy c) (c_dirty c ∖ {[ n ]}).

#[global] Instance wrote_proper n v : Proper ((≡) ==> (≡)) (wrote n v).
Proof.
  intros c c' (H1 & H2 & H3 & H4 & H5 & H6). split_and!; simpl; try done.
  - intros m. unfold upd. by case_decide.
  - intros m. unfold upd. by case_decide.
  - by rewrite H4.
  - by rewrite H6.
Qed.

(** A list of sectors written, in order. *)
Definition wrote_all (v : disk) (l : list Z) (c : cache) : cache := fold_left (fun c x => wrote x (v x) c) l c.

Lemma wrote_all_fields v l : forall c,
  (forall m, c_view (wrote_all v l c) m = if decide (m ∈ l) then v m else c_view c m) /\
  (forall m, c_disk (wrote_all v l c) m = if decide (m ∈ l) then v m else c_disk c m) /\
  c_size (wrote_all v l c) = c_size c /\ c_trace (wrote_all v l c) = c_trace c ++ ((fun x => (x, v x)) <$> l) /\
  c_busy (wrote_all v l c) = c_busy c /\ c_dirty (wrote_all v l c) = c_dirty c ∖ list_to_set l.
Proof.
  induction l as [|x l IH] using rev_ind; intros c.
  - split_and!; try done; simpl; [by rewrite app_nil_r|set_solver].
  - unfold wrote_all. rewrite fold_left_app. change (fold_left _ l c) with (wrote_all v l c). simpl.
    destruct (IH c) as (H1 & H2 & H3 & H4 & H5 & H6). split_and!; try done.
    + intros m. unfold upd. rewrite H1. destruct (decide (m = x)) as [->|]; repeat case_decide; try done; set_solver.
    + intros m. unfold upd. rewrite H2. destruct (decide (m = x)) as [->|]; repeat case_decide; try done; set_solver.
    + rewrite H4, fmap_app. by rewrite <- app_assoc.
    + rewrite H6, list_to_set_app_L. set_solver.
Qed.

Section install.
Context {B : Type} {OPS : BufferOps B} {BC : BufferCache B}.
Implicit Types (s : lst B) (c : cache).

Lemma size_add (x : Z) (X : gset Z) : (size ({[ x ]} ∪ X) <= S (size X))%nat.
Proof. rewrite size_union_alt, size_singleton. pose proof (subseteq_size (X ∖ {[x]}) X ltac:(set_solver)). lia. Qed.

Lemma rel_wrote n v c : (n ∉ c_busy c) ->
  set_busy (({[ n ]} ∪ c_busy c) ∖ {[ n ]}) (flush n (set_view n v (set_busy ({[ n ]} ∪ c_busy c) c))) ≡ wrote n v c.
Proof.
  intros Hn. split_and!; simpl; try done.
  - intros m. unfold upd. repeat case_decide; congruence.
  - by rewrite upd_eq.
  - set_solver.
Qed.

(** The log on the disk and its place: [l] are the first [n] entries of [lh.sector]. *)
Record log_geom s c (l : list Z) : Prop := {
  lg_dev : l_dev s = 1;
  lg_start : 1 <= l_start s;
  lg_room : l_start s + 1 + Z.of_nat (length l) <= c_size c;
  lg_size : c_size c <= 2147483648;
  lg_n : l_n s = Z.of_nat (length l);
  lg_list : take (length l) (l_sector s) = l;
  lg_home : forall x, x ∈ l -> 0 <= x < l_start s;
  lg_nodup : NoDup l;
  lg_quiet : forall m, l_start s <= m -> (m ∉ c_busy c) /\ (m ∉ c_dirty c)
}.

Lemma sector_at_list s c l i x : log_geom s c l -> l !! i = Some x -> sector_at s (Z.of_nat i) = x.
Proof.
  intros G Hi. unfold sector_at. rewrite Nat2Z.id. rewrite <- (lg_list _ _ _ G) in Hi.
  pose proof (lookup_lt_Some _ _ _ Hi) as Hlt. rewrite length_take in Hlt. rewrite lookup_take_lt in Hi by lia.
  rewrite nth_lookup. by rewrite Hi.
Qed.

Lemma log_geom_frame s s' c c' l : log_geom s c l -> log_frame s s' -> c_size c' = c_size c ->
  (forall m, l_start s <= m -> (m ∉ c_busy c') /\ (m ∉ c_dirty c')) -> log_geom s' c' l.
Proof.
  intros [G1 G2 G3 G4 G5 G6 G7 G8 G9] (F1 & F2 & F3 & F4 & F5 & F6 & F7) Hs Hq.
  split; rewrite ?F1, ?F4, ?F5, ?F6, ?Hs; try done.
Qed.

(** The destination can be read while the copy is held. *)
Definition can_install c x : Prop :=
  (x ∉ c_busy c) /\ (size (pinned c) < NBUF)%nat /\ (x ∈ c_dirty c \/ (S (size (pinned c)) < NBUF)%nat).

Lemma install_one_runs s c l v i x : at_cache s c -> log_geom s c l -> l !! i = Some x ->
  c_disk c (l_start s + 1 + Z.of_nat i) = v x -> can_install c x ->
  runs (install_one (Z.of_nat i)) s (fun _ s' => at_cache s' (wrote x (v x) c) /\ log_frame s s').
Proof.
  intros Ha G Hi Hv (Hxb & Hsz & Hx). pose proof (lookup_lt_Some _ _ _ Hi) as Hlt.
  pose proof (lg_home _ _ _ G x (list_elem_of_lookup_2 _ _ _ Hi)) as Hhome.
  pose proof (lg_room _ _ _ G) as Hroom. pose proof (lg_size _ _ _ G) as Hsize. pose proof (lg_start _ _ _ G) as Hst.
  unfold install_one. apply runs_bind. unfold runs at 1, kget. rewrite (lg_dev _ _ _ G), (sector_at_list s c l i x G Hi).
  set (k := l_start s + 1 + Z.of_nat i) in *.
  replace (u32 (l_start s + Z.of_nat i + 1)) with k by (unfold u32, k; rewrite Z.mod_small; lia).
  replace (u32 x) with x by (unfold u32; rewrite Z.mod_small; lia).
  destruct (lg_quiet _ _ _ G k ltac:(lia)) as [Hkb Hkd].
  assert (Hkc : c_view c k = c_disk c k) by (by eapply clean_at).
  apply runs_bind. eapply step_bread; [exact Ha|by split_and!; [lia|lia|..]|]. intros lb s1 A1 Hlb F1 _.
  apply runs_bind. eapply step_bread; [exact A1| |].
  { split; [simpl; lia|]. split; simpl; [set_solver by lia|]. intros Hnd. destruct Hx as [|Hx]; [done|].
    eapply Nat.le_lt_trans; [|exact Hx]. unfold pinned. simpl. rewrite <- assoc_L by apply _. apply size_add. }
  intros db s2 A2 Hdb F2 K2.
  apply runs_bind. eapply step_data; [exact A2|by apply K2|]. simpl. rewrite Hkc, Hv.
  apply runs_bind. eapply step_put; [exact A2|exact Hdb|]. intros s3 A3 F3 K3.
  apply runs_bind. eapply step_bwrite; [exact A3|by apply K3|]. intros s4 A4 F4 K4.
  apply runs_bind. eapply step_brelse; [exact A4|by apply K4, K3, K2| |].
  { right. simpl. by rewrite !upd_ne by lia. }
  intros s5 A5 F5 K5.
  eapply (step_brelse _ _ _ x); [exact A5|apply K5; [cbv beta; lia|]; by apply K4, K3| |].
  { right. simpl. by rewrite !upd_eq. }
  intros s6 A6 F6 _. split; [|by repeat (eapply log_frame_trans; [eassumption|])].
  eapply at_cache_equiv; [exact A6|]. split_and!; simpl; try done.
  - intros m. unfold upd. repeat case_decide; congruence.
  - by rewrite upd_eq.
  - set_solver by lia.
Qed.

Lemma can_install_next c x y v : can_install c y -> y <> x -> x ∈ c_dirty c \/ (y ∉ c_dirty c) -> can_install (wrote x v c) y.
Proof.
  intros (Hb & Hs & Hd) Hne Hor. assert (Hsub : (size (pinned (wrote x v c)) <= size (pinned c))%nat).
  { apply subseteq_size. unfold pinned. simpl. set_solver. }
  split; [done|]. split; [lia|]. simpl. destruct Hd as [Hd|Hd]; [left; set_solver|right; lia].
Qed.

(** All the copies go to their home locations. *)
Lemma install_loop v l : forall k s c, at_cache s c -> log_geom s c l ->
  (forall i x, l !! i = Some x -> c_disk c (l_start s + 1 + Z.of_nat i) = v x) ->
  (forall x, x ∈ drop k l -> can_install c x) -> (forall x, x ∈ drop k l -> x ∈ c_dirty c) \/ c_dirty c = ∅ ->
  runs (for_each (Z.of_nat <$> seq k (length l - k)) install_one) s
    (fun _ s' => at_cache s' (wrote_all v (drop k l) c) /\ log_frame s s').
Proof.
  intros k. remember (length l - k)%nat as r eqn:Er. revert k Er.
  induction r as [|r IH]; intros k Er s c Ha G Hv Hc Hd.
  - rewrite drop_ge by lia. split; [done|by split_and!].
  - destruct (lookup_lt_is_Some_2 l k) as [x Hx]; [lia|]. rewrite (drop_S _ _ _ Hx) in *. cbn [seq fmap list_fmap for_each].
    assert (Hnd : (x ∉ drop (S k) l)).
    { pose proof (lg_nodup _ _ _ G) as Hn. rewrite <- (take_drop_middle _ _ _ Hx) in Hn.
      apply NoDup_app in Hn as (_ & _ & Hn). by apply NoDup_cons in Hn as [? _]. }
    apply runs_bind. eapply runs_conseq; [apply (install_one_runs s c l v k x Ha G Hx)|].
    + by apply Hv.
    + apply Hc. left.
    + intros [] s1 [A1 F1]. pose proof (lg_home _ _ _ G x (list_elem_of_lookup_2 _ _ _ Hx)) as Hh.
      eapply runs_conseq; [apply (IH (S k) ltac:(lia) s1 (wrote x (v x) c) A1)|].
      * eapply log_geom_frame; [exact G|exact F1|done|]. intros m Hm. simpl. pose proof (lg_quiet _ _ _ G m Hm). set_solver.
      * intros i y Hi. simpl. destruct F1 as (-> & _). rewrite upd_ne by lia. by apply Hv.
      * intros y Hy. apply can_install_next; [apply Hc; by right| |].
        -- intros ->. done.
        -- destruct Hd as [Hd|Hd]; [left; apply Hd; left|right; rewrite Hd; apply not_elem_of_empty].
      * destruct Hd as [Hd|Hd]; [left|right; simpl; rewrite Hd; set_solver]. intros y Hy. simpl.
        pose proof (Hd y ltac:(by right)). assert (y <> x) by (intros ->; done). set_solver.
      * intros [] s2 [A2 F2]. split; [done|]. by eapply log_frame_trans.
Qed.

Lemma seqZ_seq n : 0 <= n -> seqZ 0 n = Z.of_nat <$> seq 0 (Z.to_nat n).
Proof. intros. unfold seqZ. apply list_fmap_ext. intros. lia. Qed.

Lemma install_trans_runs v l s c : at_cache s c -> log_geom s c l ->
  (forall i x, l !! i = Some x -> c_disk c (l_start s + 1 + Z.of_nat i) = v x) ->
  (forall x, x ∈ l -> can_install c x) -> (forall x, x ∈ l -> x ∈ c_dirty c) \/ c_dirty c = ∅ ->
  runs install_trans s (fun _ s' => at_cache s' (wrote_all v l c) /\ log_frame s s').
Proof.
  intros Ha G Hv Hc Hd. unfold install_trans. apply runs_bind. unfold runs at 1, kgets.
  rewrite (lg_n _ _ _ G), seqZ_seq, Nat2Z.id by lia.
  pose proof (install_loop v l 0 s c Ha G Hv Hc Hd) as H. by rewrite Nat.sub_0_r in H.
Qed.

(** The header block is written with the current [log.lh]. *)
Lemma write_head_runs s c l : at_cache s c -> log_geom s c l -> (size (pinned c) < NBUF)%nat ->
  length (c_disk c (l_start s)) = Z.to_nat BSIZE ->
  runs write_head s (fun _ s' => log_frame s s' /\
    at_cache s' (wrote (l_start s) (put_head (l_n s) (l_sector s) (c_disk c (l_start s))) c)).
Proof.
  intros Ha G Hsz Hlen. pose proof (lg_room _ _ _ G) as Hroom. pose proof (lg_size _ _ _ G) as Hsize.
  pose proof (lg_start _ _ _ G) as Hst. destruct (lg_quiet _ _ _ G (l_start s) ltac:(lia)) as [Hkb Hkd].
  assert (Hkc : c_view c (l_start s) = c_disk c (l_start s)) by (by eapply clean_at).
  unfold write_head. apply runs_bind. unfold runs at 1, kget. rewrite (lg_dev _ _ _ G).
  replace (u32 (l_start s)) with (l_start s) by (unfold u32; rewrite Z.mod_small; lia).
  apply runs_bind. eapply step_bread; [exact Ha|by split_and!; [lia|lia|..]|]. intros b s1 A1 Hb F1 _.
  apply runs_bind. eapply step_data; [exact A1|done|]. simpl. rewrite Hkc.
  apply runs_bind. eapply step_put; [exact A1|exact Hb|]. intros s2 A2 F2 K2.
  apply runs_bind. eapply step_bwrite; [exact A2|by apply K2|]. intros s3 A3 F3 K3.
  eapply step_brelse; [exact A3|by apply K3, K2| |].
  { right. simpl. by rewrite !upd_eq. }
  intros s4 A4 F4 _. split; [by repeat (eapply log_frame_trans; [eassumption|])|].
  eapply at_cache_equiv; [exact A4|]. by apply rel_wrote.
Qed.
End install.

(** ** Transactions *)

(** The index [log_write] picks. *)
Fixpoint index_of (x : Z) (l : list Z) : nat :=
  match l with
  | [] => 0
  | y :: l' => if decide (y = x) then 0 else S (index_of x l')
  end.

Lemma index_of_in x l : x ∈ l -> l !! index_of x l = Some x.
Proof.
  induction l as [|y l IH]; intros H; [by apply elem_of_nil in H|]. simpl.
  destruct (decide (y = x)) as [->|Hy]; [done|]. apply IH. apply elem_of_cons in H as [->|]; done.
Qed.

Lemma index_of_out x l : (x ∉ l) -> index_of x l = length l.
Proof.
  induction l as [|y l IH]; intros H; [done|]. apply not_elem_of_cons in H as [H1 H2]. simpl.
  rewrite decide_False by done. by rewrite IH.
Qed.

Lemma log_index_spec x l : forall r i, (forall y, y ∈ l -> 0 <= y < 4294967296) ->
  log_index x (l ++ r) i (length l) = i + Z.of_nat (index_of x l).
Proof.
  induction l as [|y l IH]; intros r i H; simpl; [destruct r; simpl; lia|].
  assert (Hy : u32 y = y) by (unfold u32; apply Z.mod_small, H; left). rewrite Hy.
  destruct (decide (y = x)) as [->|Hne]; [rewrite Z.eqb_refl; lia|]. rewrite (proj2 (Z.eqb_neq _ _)) by done.
  rewrite IH; [lia|]. intros z Hz. apply H. by right.
Qed.

(** The list of logged sectors after logging [n]. *)
Definition log_add (n : Z) (l : list Z) : list Z := if decide (n ∈ l) then l else l ++ [n].

Lemma elem_of_log_add n l x : x ∈ log_add n l <-> x = n \/ x ∈ l.
Proof. unfold log_add. destruct (decide (n ∈ l)); set_solver. Qed.

Lemma log_add_index n l : log_add n l !! index_of n l = Some n.
Proof.
  unfold log_add. destruct (decide (n ∈ l)) as [H|H]; [by apply index_of_in|].
  by rewrite (index_of_out _ _ H), list_lookup_middle.
Qed.

Lemma log_add_inv n l i x : log_add n l !! i = Some x -> x = n /\ (n ∈ l -> l !! i = Some n) /\ (n ∉ l -> i = length l) \/ l !! i = Some x.
Proof.
  unfold log_add. destruct (decide (n ∈ l)) as [H|H]; [by right|]. intros Hi.
  apply lookup_app_Some in Hi as [Hi|[Hl Hi]]; [by right|]. left.
  apply list_lookup_singleton_Some in Hi as [Hi ->]. split; [done|]. split; [done|]. intros _. lia.
Qed.

Lemma log_add_other n l i x : NoDup l -> log_add n l !! i = Some x -> x <> n -> l !! i = Some x /\ i <> index_of n l.
Proof.
  intros Hnd Hi Hx. destruct (log_add_inv _ _ _ _ Hi) as [[? _]|H]; [done|]. split; [done|]. intros ->.
  pose proof (log_add_index n l). congruence.
Qed.

Lemma log_add_nodup n l : NoDup l -> NoDup (log_add n l).
Proof.
  intros H. unfold log_add. destruct (decide (n ∈ l)); [done|]. apply NoDup_app. split; [done|]. split; [set_solver|].
  apply NoDup_singleton.
Qed.

Section tx.
Context {B : Type} {OPS : BufferOps B} {BC : BufferCache B}.
Implicit Types (s : lst B) (c : cache) (E : gset Z) (l : list Z) (d : disk) (t : list (Z * list Z)).

(** A transaction that began with the disk [d0] and the history [t0]: [l] are the sectors
    logged so far and [E] those whose buffers were changed since they were logged. *)
Record tx s c (d0 : disk) (t0 : list (Z * list Z)) E l : Prop := {
  tx_at : at_cache s c;
  tx_geom : log_geom s c l;
  tx_size : l_start s + l_size s <= c_size c;
  tx_arr : length (l_sector s) = Z.to_nat LOGSIZE;
  tx_cap : Z.of_nat (length l) <= LOGSIZE;
  tx_dirty : c_dirty c = list_to_set l;
  tx_trace : exists ws, c_trace c = t0 ++ ws /\ Forall (fun w => l_start s < w.1) ws /\
    forall m, c_disk c m = apply_writes ws d0 m;
  tx_hdr : hdr_n (d0 (l_start s)) = 0 /\ length (d0 (l_start s)) = Z.to_nat BSIZE;
  tx_log : forall i x, l !! i = Some x -> (x ∉ E) -> c_disk c (l_start s + 1 + Z.of_nat i) = c_view c x;
  tx_clean : forall m, 0 <= m < l_start s -> (m ∉ l) -> (m ∉ E) -> c_view c m = d0 m;
  tx_open : E ⊆ c_busy c;
  tx_lock : lk_log ∉ held s
}.

Lemma tx_home_disk s c d0 t0 E l m : tx s c d0 t0 E l -> m <= l_start s -> c_disk c m = d0 m.
Proof.
  intros T Hm. destruct (tx_trace _ _ _ _ _ _ T) as (ws & _ & Hw & ->). apply apply_writes_other.
  rewrite list_elem_of_fmap. intros (w & -> & Hin). rewrite Forall_forall in Hw. apply Hw in Hin. lia.
Qed.

(** A change of the cache that keeps the disk, the history and the dirty set. *)
Lemma tx_change s s' c c' d0 t0 E E' l : tx s c d0 t0 E l -> at_cache s' c' -> log_frame s s' -> c_size c' = c_size c ->
  c_dirty c' = c_dirty c -> c_trace c' = c_trace c -> (forall m, c_disk c' m = c_disk c m) ->
  (forall m, m ∈ c_busy c' -> m < l_start s) -> E' ⊆ c_busy c' -> E ⊆ E' ->
  (forall m, (m ∉ E') -> c_view c' m = c_view c m) -> tx s' c' d0 t0 E' l.
Proof.
  intros T A F Hs Hd Ht Hdk Hb HE HEE Hv. pose proof F as (F1 & F2 & F3 & F4 & F5 & F6 & F7). split.
  - done.
  - eapply log_geom_frame; [apply T|done|done|]. intros m Hm. rewrite Hd. split.
    + intros Hin. apply Hb in Hin. lia.
    + by apply (lg_quiet _ _ _ (tx_geom _ _ _ _ _ _ T)).
  - rewrite F1, F2, Hs. apply T.
  - rewrite F6. apply T.
  - apply T.
  - rewrite Hd. apply T.
  - rewrite F1, Ht. destruct (tx_trace _ _ _ _ _ _ T) as (ws & H1 & H2 & H3). exists ws. split_and!; try done.
    intros m. by rewrite Hdk.
  - rewrite F1. apply T.
  - intros i x Hi Hx. rewrite F1, Hdk, Hv by done. apply (tx_log _ _ _ _ _ _ T i x Hi). set_solver.
  - intros m Hm Hl Hx. rewrite F1 in Hm. rewrite Hv by done. apply (tx_clean _ _ _ _ _ _ T m Hm Hl). set_solver.
  - done.
  - rewrite F7. apply T.
Qed.

Lemma tx_busy s c d0 t0 E l m : tx s c d0 t0 E l -> m ∈ c_busy c -> m < l_start s.
Proof.
  intros T Hm. destruct (decide (m < l_start s)); [done|].
  destruct (lg_quiet _ _ _ (tx_geom _ _ _ _ _ _ T) m) as [Hq _]; [lia|done].
Qed.

Lemma tx_bread s c d0 t0 E l n : tx s c d0 t0 E l -> can_read c n -> n < l_start s ->
  runs (lift_b (bc_bread 1 n)) s (fun b s' => tx s' (set_busy ({[ n ]} ∪ c_busy c) c) d0 t0 E l /\
    bc_holds (l_bc s') b n /\ log_frame s s' /\ keeps s s' (fun _ => True)).
Proof.
  intros T Hr Hn. eapply step_bread; [apply T|done|]. intros b s' A Hh F Kp. split; [|done].
  eapply tx_change; try done; simpl.
  - intros m Hm. apply elem_of_union in Hm as [->%elem_of_singleton|Hm]; [done|].
    by eapply tx_busy.
  - pose proof (tx_open _ _ _ _ _ _ T). set_solver.
Qed.

Lemma tx_put s c d0 t0 E l b n v : tx s c d0 t0 E l -> bc_holds (l_bc s) b n ->
  runs (lift_b (bc_put b v)) s (fun _ s' => tx s' (set_view n v c) d0 t0 ({[ n ]} ∪ E) l /\
    log_frame s s' /\ keeps s s' (fun _ => True)).
Proof.
  intros T Hh. destruct (holds_at s c b n (tx_at _ _ _ _ _ _ T) Hh) as (_ & _ & _ & Hb).
  eapply step_put; [apply T|done|]. intros s' A F Kp. split; [|done].
  eapply tx_change; try done; simpl.
  - intros m Hm. by eapply tx_busy.
  - pose proof (tx_open _ _ _ _ _ _ T). set_solver.
  - set_solver.
  - intros m Hm. rewrite upd_ne; [done|set_solver].
Qed.

Lemma tx_brelse s c d0 t0 E l b n : tx s c d0 t0 E l -> bc_holds (l_bc s) b n -> (n ∉ E) ->
  runs (lift_b (bc_brelse b)) s (fun _ s' => tx s' (set_busy (c_busy c ∖ {[ n ]}) c) d0 t0 E l /\
    log_frame s s' /\ keeps s s' (fun m => m <> n)).
Proof.
  intros T Hh HE. destruct (holds_at s c b n (tx_at _ _ _ _ _ _ T) Hh) as (_ & _ & Hr & Hb).
  pose proof (tx_busy _ _ _ _ _ _ _ T Hb) as Hn.
  eapply step_brelse; [apply T|done| |].
  - rewrite (tx_dirty _ _ _ _ _ _ T). destruct (decide (n ∈ l)) as [Hl|Hl]; [left; set_solver|right].
    rewrite (tx_home_disk _ _ _ _ _ _ n T) by lia. apply (tx_clean _ _ _ _ _ _ T); [lia|done|done].
  - intros s' A F Kp. split; [|done]. eapply tx_change; try done; simpl.
    + intros m Hm. eapply tx_busy; [exact T|set_solver].
    + pose proof (tx_open _ _ _ _ _ _ T). set_solver.
Qed.

Lemma take_log_add n l arr : take (length l) arr = l -> (length l < length arr)%nat ->
  take (length (log_add n l)) (<[index_of n l := n]> arr) = log_add n l.
Proof.
  intros Ht Hl. unfold log_add. destruct (decide (n ∈ l)) as [Hn|Hn].
  - rewrite list_insert_id; [done|]. pose proof (index_of_in _ _ Hn) as Hi.
    assert (Hi' : take (length l) arr !! index_of n l = Some n) by (by rewrite Ht).
    by apply lookup_take_Some in Hi' as [? _].
  - rewrite (index_of_out _ _ Hn), insert_take_drop, Ht, length_app by done.
    rewrite take_app_add. done.
Qed.

Lemma log_add_length n l : (length (log_add n l) <= S (length l))%nat /\ (n ∈ l -> log_add n l = l) /\
  (n ∉ l -> length (log_add n l) = S (length l)).
Proof.
  unfold log_add. destruct (decide (n ∈ l)); [split_and!; [lia|done|done]|]. rewrite length_app. simpl.
  split_and!; [lia|done|lia].
Qed.

Lemma log_add_set n l : (list_to_set (log_add n l) : gset Z) = {[ n ]} ∪ list_to_set l.
Proof. apply set_eq. intros x. rewrite elem_of_union, elem_of_singleton, !elem_of_list_to_set. apply elem_of_log_add. Qed.

(** The state of the transaction after [log_write]. *)
Lemma tx_logged s s' c d0 t0 E l n : tx s c d0 t0 E l -> 0 <= n < l_start s -> n ∈ c_busy c ->
  Z.of_nat (length l) < LOGSIZE -> Z.of_nat (length l) < l_size s - 1 ->
  let k := l_start s + 1 + Z.of_nat (index_of n l) in
  let c' := set_dirty ({[ n ]} ∪ c_dirty (wrote k (c_view c n) c)) (wrote k (c_view c n) c) in
  at_cache s' c' -> l_start s' = l_start s -> l_size s' = l_size s -> l_dev s' = l_dev s -> held s' = held s ->
  l_n s' = Z.of_nat (length (log_add n l)) -> l_sector s' = <[index_of n l := n]> (l_sector s) ->
  tx s' c' d0 t0 (E ∖ {[ n ]}) (log_add n l).
Proof.
  intros T Hn Hb Hc1 Hc2 k c' A F1 F2 F4 F7 Fn Fs. pose proof (tx_geom _ _ _ _ _ _ T) as G.
  pose proof (log_add_length n l) as [Hlen _]. pose proof (tx_size _ _ _ _ _ _ T) as Hsize.
  pose proof (tx_dirty _ _ _ _ _ _ T) as Hd.
  assert (Hkd : c_dirty c ∖ {[ k ]} = c_dirty c).
  { destruct (lg_quiet _ _ _ G k) as [_ Hq]; [lia|]. set_solver. }
  split; try done; rewrite ?F1, ?F2.
  - split; rewrite ?F1, ?F4; try apply G; try done.
    + change (c_size c') with (c_size c). lia.
    + rewrite Fs. apply take_log_add; [apply G|]. rewrite (tx_arr _ _ _ _ _ _ T). unfold LOGSIZE in *. lia.
    + intros x Hx. apply elem_of_log_add in Hx as [->|Hx]; [done|]. by apply G.
    + apply log_add_nodup, G.
    + intros m Hm. destruct (lg_quiet _ _ _ G m Hm). split; [done|]. simpl. rewrite Hkd.
      intros [->%elem_of_singleton|]%elem_of_union; [lia|done].
  - done.
  - rewrite Fs, length_insert. apply T.
  - lia.
  - simpl. by rewrite Hkd, log_add_set, Hd.
  - destruct (tx_trace _ _ _ _ _ _ T) as (ws & H1 & H2 & H3). exists (ws ++ [(k, c_view c n)]).
    split_and!; simpl.
    + by rewrite H1, <- app_assoc.
    + apply Forall_app. split; [done|]. constructor; [simpl; lia|done].
    + intros m. rewrite apply_writes_app. unfold apply_writes at 1. simpl. unfold upd. by rewrite H3.
  - apply T.
  - intros i x Hi Hx. simpl. destruct (decide (x = n)) as [->|Hxn].
    + assert (i = index_of n l) as ->.
      { eapply NoDup_lookup; [apply (log_add_nodup n l), G|exact Hi|apply log_add_index]. }
      fold k. by rewrite upd_eq, upd_ne by lia.
    + destruct (log_add_other n l i x) as [Hi' Hne]; [apply G|done|done|].
      pose proof (lg_home _ _ _ G x (list_elem_of_lookup_2 _ _ _ Hi')). rewrite !upd_ne by lia.
      apply (tx_log _ _ _ _ _ _ T i x Hi'). set_solver.
  - intros m Hm Hl Hx. simpl. rewrite upd_ne by lia. apply (tx_clean _ _ _ _ _ _ T m Hm).
    + intros Hin. apply Hl, elem_of_log_add. by right.
    + intros Hin. apply Hx, elem_of_difference. split; [done|]. intros ->%elem_of_singleton. apply Hl, elem_of_log_add. by left.
  - simpl. pose proof (tx_open _ _ _ _ _ _ T). set_solver.
  - rewrite F7. apply T.
Qed.

(** Copying the data of a held buffer to the block [k]. *)
Lemma copy_to_runs s c b n k (rest : K (lst B) unit) Q : at_cache s c -> bc_holds (l_bc s) b n -> can_read c k ->
  (k ∉ c_dirty c) ->
  (forall s', at_cache s' (wrote k (c_view c n) c) -> log_frame s s' -> keeps s s' (fun _ => True) -> runs rest s' Q) ->
  runs (let* lbuf := lift_b (bc_bread 1 k) in
        let* blk := buf_data b in
        lift_b (bc_put lbuf blk) ;;; lift_b (bc_bwrite lbuf) ;;; lift_b (bc_brelse lbuf) ;;; rest) s Q.
Proof.
  intros A Hh Hr Hd HQ. pose proof Hr as (_ & Hkb & _). destruct (holds_at s c b n A Hh) as (_ & _ & _ & Hnb).
  apply runs_bind. eapply step_bread; [exact A|done|]. intros lb s1 A1 Hlb F1 K1.
  apply runs_bind. eapply step_data; [exact A1|by apply K1|]. simpl.
  apply runs_bind. eapply step_put; [exact A1|exact Hlb|]. intros s2 A2 F2 K2.
  apply runs_bind. eapply step_bwrite; [exact A2|by apply K2|]. intros s3 A3 F3 K3.
  apply runs_bind. eapply step_brelse; [exact A3|by apply K3, K2| |].
  { right. simpl. by rewrite !upd_eq. }
  intros s4 A4 F4 K4. apply HQ.
  - eapply at_cache_equiv; [exact A4|]. by apply rel_wrote.
  - by repeat (eapply log_frame_trans; [eassumption|]).
  - intros b' m _ Hb'. destruct (holds_at s c b' m A Hb') as (_ & _ & _ & Hmb).
    apply K4; [intros ->; done|]. by apply K3, K2, K1.
Qed.

Lemma tx_log_write s c d0 t0 E l b n : tx s c d0 t0 E l -> bc_holds (l_bc s) b n -> l_busy s <> 0 ->
  Z.of_nat (length l) < LOGSIZE -> Z.of_nat (length l) < l_size s - 1 -> (size (pinned c) < NBUF)%nat ->
  runs (log_write b) s (fun _ s' => exists c', tx s' c' d0 t0 (E ∖ {[ n ]}) (log_add n l) /\
    l_start s' = l_start s /\ l_size s' = l_size s /\ l_busy s' = l_busy s /\ c_busy c' = c_busy c /\ c_size c' = c_size c /\
    (forall m, m < l_start s -> c_view c' m = c_view c m) /\ keeps s s' (fun _ => True) /\ held s' = held s).
Proof.
  intros T Hh Hbusy Hc1 Hc2 Hsz. destruct (holds_at s c b n (tx_at _ _ _ _ _ _ T) Hh) as (Hsec & Hdev & Hr & Hb).
  pose proof (tx_busy _ _ _ _ _ _ _ T Hb) as Hn. pose proof (tx_geom _ _ _ _ _ _ T) as G.
  pose proof (tx_size _ _ _ _ _ _ T) as Hsize. pose proof (lg_size _ _ _ G) as Hsize'. pose proof (lg_start _ _ _ G) as Hst.
  pose proof (lg_n _ _ _ G) as Hln. pose proof (log_add_length n l) as (_ & Ladd1 & Ladd2).
  unfold log_write. apply runs_bind. unfold runs at 1, kget.
  replace ((LOGSIZE <=? l_n s) || (l_size s - 1 <=? l_n s)) with false by (symmetry; apply orb_false_iff; split; apply Z.leb_gt; lia).
  rewrite (proj2 (Z.eqb_neq _ _)) by done. rewrite Hsec, Hdev.
  assert (Ei : log_index n (l_sector s) 0 (Z.to_nat (l_n s)) = Z.of_nat (index_of n l)).
  { rewrite Hln, Nat2Z.id. rewrite <- (take_drop (length l) (l_sector s)), (lg_list _ _ _ G).
    rewrite log_index_spec; [lia|]. intros y Hy. pose proof (lg_home _ _ _ G y Hy). lia. }
  rewrite Ei, Nat2Z.id. replace (s32 n) with n by (unfold s32; symmetry; mlia).
  assert (Hil : (index_of n l <= length l)%nat).
  { destruct (decide (n ∈ l)) as [Hin|Hin]; [|by rewrite index_of_out]. pose proof (index_of_in _ _ Hin) as Hi.
    apply lookup_lt_Some in Hi. lia. }
  set (k := l_start s + 1 + Z.of_nat (index_of n l)).
  replace (u32 (l_start s + Z.of_nat (index_of n l) + 1)) with k by (unfold u32, k; rewrite Z.mod_small; lia).
  destruct (lg_quiet _ _ _ G k) as [Hkb Hkd]; [lia|].
  apply runs_bind. unfold runs at 1, kmod. set (s0 := set_l_sector _ _ s).
  assert (A0 : at_cache s0 c) by apply (tx_at _ _ _ _ _ _ T).
  apply (copy_to_runs s0 c b n k); [done|done|split_and!; [lia|lia|done|done]|done|].
  intros s1 A1 (F1 & F2 & F3 & F4 & F5 & F6 & F7) K1. apply runs_bind.
  assert (Hn' : exists s2, (when Z.of_nat (index_of n l) =? l_n s do kmod (set_l_n (l_n s + 1))) s1 = Ok tt s2 /\
    l_bc s2 = l_bc s1 /\ l_start s2 = l_start s /\ l_size s2 = l_size s /\ l_busy s2 = l_busy s /\ l_dev s2 = l_dev s /\
    l_n s2 = Z.of_nat (length (log_add n l)) /\ l_sector s2 = <[index_of n l := n]> (l_sector s)).
  { destruct (decide (n ∈ l)) as [Hin|Hin].
    - pose proof (lookup_lt_Some _ _ _ (index_of_in _ _ Hin)). rewrite (proj2 (Z.eqb_neq _ _)) by lia.
      exists s1. split; [done|]. rewrite (Ladd1 Hin), <- Hln. by split_and!.
    - rewrite (index_of_out _ _ Hin), Hln, Z.eqb_refl. eexists. split; [done|]. simpl. rewrite (Ladd2 Hin).
      split_and!; try done; [lia|]. by rewrite F6; simpl; rewrite (index_of_out _ _ Hin). }
  destruct Hn' as (s2 & E2 & B2 & G1 & G2 & G3 & G4 & G5 & G6). apply (runs_eq _ _ _ _ _ E2).
  assert (A2 : at_cache s2 (wrote k (c_view c n) c)) by (unfold at_cache; by rewrite B2).
  eapply step_mark; [exact A2|rewrite B2; by apply K1|]. intros s3 A3 (J1 & J2 & J3 & J4 & J5 & J6 & J7) K3.
  assert (Hheld : held s3 = held s) by (rewrite J7; change (held s2) with (held (l_bc s2)); rewrite B2; exact F7).
  eexists. split; [apply (tx_logged s s3 c d0 t0 E l n T ltac:(lia) Hb Hc1 Hc2 A3); congruence|].
  - split_and!; try congruence; try done.
    + intros m Hm. simpl. by rewrite upd_ne by lia.
    + intros b' m _ Hb'. apply K3; [done|]. rewrite B2. by apply K1.
Qed.
End tx.

(** ** Crashes *)

(** A disk whose log can be replayed: the header names the sectors [l], whose contents are [v]. *)
Record log_wf (start size : Z) (d : disk) (l : list Z) (v : disk) : Prop := {
  lw_holds : log_holds start d l v;
  lw_head : length (d start) = Z.to_nat BSIZE;
  lw_cap : Z.of_nat (length l) <= LOGSIZE;
  lw_start : 1 <= start;
  lw_room : start + 1 + Z.of_nat (length l) <= size <= 2147483648;
  lw_home : forall x, x ∈ l -> 0 <= x < start;
  lw_nodup : NoDup l
}.

Lemma log_wf_empty start size d v : hdr_n (d start) = 0 -> length (d start) = Z.to_nat BSIZE -> 1 <= start ->
  start + 1 <= size <= 2147483648 -> log_wf start size d [] v.
Proof.
  intros H1 H2 H3 H4. split; try done; simpl; try lia.
  - by intros x Hx%elem_of_nil.
  - constructor.
Qed.

(** Cut anywhere, the writes [ws] to [d0] leave a disk with a log that can be replayed, and
    recovery takes it to [d0] or to [d1]; before recovery each home block is that of [d0] or of [d1]. *)
Definition crash_safe (start size : Z) (d0 : disk) (ws : list (Z * list Z)) (d1 : disk) : Prop :=
  forall p, p `prefix_of` ws -> (exists l v, log_wf start size (apply_writes p d0) l v) /\
    (home_eq start (recovered start (apply_writes p d0)) d0 \/ home_eq start (recovered start (apply_writes p d0)) d1) /\
    (forall m, 0 <= m < start -> apply_writes p d0 m = d0 m \/ apply_writes p d0 m = d1 m).

Lemma prefix_app_cases {A} (p l1 l2 : list A) : p `prefix_of` l1 ++ l2 ->
  p `prefix_of` l1 \/ exists q, p = l1 ++ q /\ q `prefix_of` l2.
Proof.
  revert p. induction l1 as [|x l1 IH]; intros p Hp; simpl in Hp.
  - right. by exists p.
  - destruct p as [|y p]; [left; apply prefix_nil|]. apply prefix_cons_inv_1 in Hp as Hxy. subst y.
    apply prefix_cons_inv_2 in Hp. destruct (IH p Hp) as [H|(q & -> & Hq)].
    + left. by apply prefix_cons.
    + right. by exists q.
Qed.

Lemma prefix_fmap_inv {A C} (f : A -> C) (p : list C) l : p `prefix_of` f <$> l -> exists q, p = f <$> q /\ q `prefix_of` l.
Proof.
  revert p. induction l as [|x l IH]; intros p Hp; simpl in Hp.
  - apply prefix_nil_inv in Hp as ->. by exists [].
  - destruct p as [|y p]; [exists []; split; [done|apply prefix_nil]|]. apply prefix_cons_inv_1 in Hp as Hxy. subst y.
    apply prefix_cons_inv_2 in Hp. destruct (IH p Hp) as (q & -> & Hq). exists (x :: q). split; [done|]. by apply prefix_cons.
Qed.

(** Writes above the header leave it and the home blocks alone. *)
Lemma log_phase start (d : disk) ws p m : Forall (fun w => start < w.1) ws -> p `prefix_of` ws -> m <= start ->
  apply_writes p d m = d m.
Proof.
  intros Hws [q ->] Hm. apply apply_writes_other. rewrite list_elem_of_fmap. intros (w & -> & Hin).
  apply Forall_app in Hws as [Hw _]. rewrite Forall_forall in Hw. apply Hw in Hin. lia.
Qed.

Lemma log_phase_safe start size (d0 v : disk) ws p : Forall (fun w => start < w.1) ws -> hdr_n (d0 start) = 0 ->
  length (d0 start) = Z.to_nat BSIZE -> 1 <= start -> start + 1 <= size <= 2147483648 -> p `prefix_of` ws ->
  log_wf start size (apply_writes p d0) [] v /\ home_eq start (recovered start (apply_writes p d0)) d0 /\
  home_eq start (apply_writes p d0) d0.
Proof.
  intros Hws Hd0 Hlen Hst Hsz Hp. assert (Hs : apply_writes p d0 start = d0 start) by (by apply (log_phase start d0 ws)).
  split; [|split; [|intros m Hm; apply (log_phase start d0 ws); [done|done|lia]]].
  - apply log_wf_empty; by rewrite ?Hs.
  - intros m Hm. rewrite recovered_empty; [apply (log_phase start d0 ws); [done|done|lia]|]. by rewrite Hs.
Qed.

Section crash.
Variables (start size : Z) (d0 v : disk) (ws : list (Z * list Z)) (l : list Z) (H H0 : list Z).
Hypothesis Hws : Forall (fun w => start < w.1) ws.
Hypothesis Hd0 : hdr_n (d0 start) = 0.
Hypothesis Hhome : forall x, x ∈ l -> 0 <= x < start.
Hypothesis Hlog : forall i x, l !! i = Some x -> apply_writes ws d0 (start + 1 + Z.of_nat i) = v x.
Hypothesis Hv : forall m, 0 <= m < start -> (m ∉ l) -> v m = d0 m.
Hypothesis HH : hdr_n H = Z.of_nat (length l) /\ forall i x, l !! i = Some x -> hdr_sector H i = x.
Hypothesis HH0 : hdr_n H0 = 0.
Hypothesis Hlens : length (d0 start) = Z.to_nat BSIZE /\ length H = Z.to_nat BSIZE /\ length H0 = Z.to_nat BSIZE.
Hypothesis Hplace : 1 <= start /\ start + 1 + Z.of_nat (length l) <= size <= 2147483648 /\ Z.of_nat (length l) <= LOGSIZE /\ NoDup l.

(** The disk when the header is on it and the sectors [q] have been installed. *)
Definition mid (q : list Z) : disk := apply_writes ((fun x => (x, v x)) <$> q) (upd (apply_writes ws d0) start H).

Lemma mid_at q m : mid q m = if decide (m ∈ q) then v m else upd (apply_writes ws d0) start H m.
Proof. apply apply_writes_const. Qed.

Lemma mid_holds q : q `prefix_of` l -> log_holds start (mid q) l v.
Proof.
  intros [r Hr]. assert (Hq : forall m, start <= m -> mid q m = upd (apply_writes ws d0) start H m).
  { intros m Hm. rewrite mid_at, decide_False; [done|]. intros Hin.
    assert (Hin' : m ∈ l) by (rewrite Hr; apply elem_of_app; by left). apply Hhome in Hin'. lia. }
  destruct HH as [H1 H2]. split; rewrite Hq by lia; rewrite upd_eq; [done|].
  intros i x Hi. split; [by apply H2|]. rewrite Hq, upd_ne by lia. by apply Hlog.
Qed.

Lemma mid_home q m : q `prefix_of` l -> 0 <= m < start -> (if decide (m ∈ l) then v m else mid q m) = v m.
Proof.
  intros [r Hr] Hm. destruct (decide (m ∈ l)) as [|Hl]; [done|]. rewrite mid_at, decide_False.
  - rewrite upd_ne by lia. rewrite (log_phase start d0 ws ws m Hws) by (done || lia). by rewrite Hv.
  - intros Hin. apply Hl. rewrite Hr. apply elem_of_app. by left.
Qed.

Lemma mid_either q m : 0 <= m < start -> mid q m = d0 m \/ mid q m = v m.
Proof.
  intros Hm. rewrite mid_at. destruct (decide (m ∈ q)); [by right|left]. rewrite upd_ne by lia.
  apply (log_phase start d0 ws); [done|done|lia].
Qed.

Lemma mid_safe q : q `prefix_of` l -> log_wf start size (mid q) l v /\ home_eq start (recovered start (mid q)) v.
Proof.
  intros Hq. split; [|intros m Hm; rewrite (recovered_holds _ _ _ _ _ (mid_holds q Hq)); by apply mid_home].
  destruct Hplace as (P1 & P2 & P3 & P4). split; try done; [by apply mid_holds|].
  destruct Hq as [r Hr]. rewrite mid_at, decide_False; [by rewrite upd_eq; apply Hlens|]. intros Hin.
  assert (Hin' : start ∈ l) by (rewrite Hr; apply elem_of_app; by left). apply Hhome in Hin'. lia.
Qed.

Lemma final_safe : let d := upd (mid l) start H0 in log_wf start size d [] v /\ home_eq start (recovered start d) v.
Proof.
  split.
  - apply log_wf_empty; rewrite ?upd_eq; try done; try lia; apply Hlens.
  - intros m Hm. rewrite recovered_empty by (by rewrite upd_eq). rewrite upd_ne by lia.
    rewrite <- (mid_home l m ltac:(done) Hm). rewrite mid_at. by destruct (decide (m ∈ l)).
Qed.

Lemma commit_crash_safe : crash_safe start size d0 (ws ++ [(start, H)] ++ ((fun x => (x, v x)) <$> l) ++ [(start, H0)]) v.
Proof.
  intros p Hp. apply prefix_app_cases in Hp as [Hp|(q1 & -> & Hp)].
  { destruct (log_phase_safe start size d0 v ws p) as (L1 & L2 & L3); try done; try lia; try apply Hlens.
    split; [eauto|]. split; [by left|]. intros m Hm. left. by apply L3. }
  rewrite apply_writes_app. destruct q1 as [|w q1].
  { destruct (log_phase_safe start size d0 v ws ws) as (L1 & L2 & L3); try done; try lia; try apply Hlens.
    split; [eauto|]. split; [by left|]. intros m Hm. left. by apply L3. }
  simpl in Hp. apply prefix_cons_inv_1 in Hp as Hw. subst w. apply prefix_cons_inv_2 in Hp.
  change (apply_writes ((start, H) :: q1) ?d) with (apply_writes q1 (upd d start H)).
  apply prefix_app_cases in Hp as [Hp|(q2 & -> & Hp)].
  - apply prefix_fmap_inv in Hp as (q & -> & Hq). fold (mid q). destruct (mid_safe q Hq). split; [eauto|]. split; [by right|]. intros. by apply mid_either.
  - rewrite apply_writes_app. fold (mid l). destruct q2 as [|w q2].
    + destruct (mid_safe l ltac:(done)). split; [eauto|]. split; [by right|]. intros. by apply mid_either.
    + apply prefix_cons_inv_1 in Hp as Hw. subst w. apply prefix_cons_inv_2, prefix_nil_inv in Hp as ->.
      destruct final_safe. split; [eauto|]. split; [by right|]. intros m Hm.
      change (apply_writes [(start, H0)] (mid l)) with (upd (mid l) start H0). rewrite upd_ne by lia. by apply mid_either.
Qed.
End crash.

(** ** Commit *)

Section commit.
Context {B : Type} {OPS : BufferOps B} {BC : BufferCache B}.
Implicit Types (s : lst B) (c : cache) (l : list Z).

(** Between transactions: nothing is logged, and the home blocks on the disk are current. *)
Definition quiescent s c : Prop := tx s c (c_disk c) (c_trace c) ∅ [].

(** What a committed transaction leaves behind. *)
Definition committed s c (d0 : disk) (t0 : list (Z * list Z)) s' : Prop :=
  exists c' ws, quiescent s' c' /\ l_start s' = l_start s /\ l_size s' = l_size s /\ c_size c' = c_size c /\
    c_busy c' = c_busy c /\ (forall m, m < l_start s -> c_view c' m = c_view c m) /\
    c_trace c' = t0 ++ ws /\ (forall m, c_disk c' m = apply_writes ws d0 m) /\
    crash_safe (l_start s) (c_size c) d0 ws (c_view c).

Lemma geom_empty s s' c c' l : log_geom s c l -> l_dev s' = l_dev s -> l_start s' = l_start s -> l_n s' = 0 ->
  c_size c' = c_size c -> (forall m, l_start s <= m -> (m ∉ c_busy c') /\ (m ∉ c_dirty c')) -> log_geom s' c' [].
Proof.
  intros [G1 G2 G3 G4 G5 G6 G7 G8 G9] D1 D2 D3 D4 D5. split; rewrite ?D1, ?D2, ?D3, ?D4; simpl; try done; try lia.
  - intros x Hx. by apply elem_of_nil in Hx.
  - constructor.
Qed.

Lemma quiescent_intro s c : at_cache s c -> log_geom s c [] -> l_start s + l_size s <= c_size c ->
  length (l_sector s) = Z.to_nat LOGSIZE -> c_dirty c = ∅ -> hdr_n (c_disk c (l_start s)) = 0 ->
  length (c_disk c (l_start s)) = Z.to_nat BSIZE -> (forall m, 0 <= m < l_start s -> c_view c m = c_disk c m) ->
  (lk_log ∉ held s) -> quiescent s c.
Proof.
  intros H1 H2 H3 H4 H5 H6 H7 H8 H9. split; try done.
  - exists []. by rewrite app_nil_r.
  - intros m Hm _ _. by apply H8.
Qed.

(** The head the commit writes describes [l]. *)
Lemma commit_head s c d0 t0 l : tx s c d0 t0 ∅ l -> let H := put_head (l_n s) (l_sector s) (c_disk c (l_start s)) in
  hdr_n H = Z.of_nat (length l) /\ (forall i x, l !! i = Some x -> hdr_sector H i = x) /\ length H = Z.to_nat BSIZE.
Proof.
  intros T H. pose proof (tx_geom _ _ _ _ _ _ T) as G. pose proof (lg_n _ _ _ G) as Hn. pose proof (tx_cap _ _ _ _ _ _ T) as Hcap.
  assert (Hl : length (c_disk c (l_start s)) = Z.to_nat BSIZE).
  { rewrite (tx_home_disk _ _ _ _ _ _ _ T) by lia. apply T. }
  split_and!.
  - unfold H. rewrite put_head_n; [done|lia|apply T|done].
  - intros i x Hi. unfold H. pose proof (lg_home _ _ _ G x (list_elem_of_lookup_2 _ _ _ Hi)) as Hx.
    pose proof (lg_size _ _ _ G). pose proof (lg_room _ _ _ G).
    rewrite (put_head_sector (l_n s) (l_sector s) (c_disk c (l_start s))) with (x := x); [|apply T|done|].
    + unfold u32. apply Z.mod_small. lia.
    + rewrite Hn, Nat2Z.id. by rewrite (lg_list _ _ _ G).
  - apply put_head_length; [apply T|done].
Qed.

Definition commit_body : K (lst B) unit := write_head ;;; install_trans ;;; kmod (set_l_n 0) ;;; write_head.

(** The head, the installs and the cleared head. *)
Lemma commit_body_runs s c d0 t0 l : tx s c d0 t0 ∅ l -> (size (pinned c) < NBUF)%nat -> (forall x, x ∈ l -> x ∉ c_busy c) ->
  let H := put_head (l_n s) (l_sector s) (c_disk c (l_start s)) in
  let c2 := wrote_all (c_view c) l (wrote (l_start s) H c) in
  runs commit_body s (fun _ s' => exists H0, hdr_n H0 = 0 /\ length H0 = Z.to_nat BSIZE /\
    at_cache s' (wrote (l_start s) H0 c2) /\ l_start s' = l_start s /\ l_size s' = l_size s /\ l_dev s' = l_dev s /\
    l_busy s' = l_busy s /\ l_n s' = 0 /\ l_sector s' = l_sector s /\ held s' = held s).
Proof.
  intros T Hsz Hb H c2. pose proof (tx_geom _ _ _ _ _ _ T) as G. destruct (commit_head _ _ _ _ _ T) as (HH1 & HH2 & HH3).
  fold H in HH1, HH2, HH3. pose proof (wrote_all_fields (c_view c) l (wrote (l_start s) H c)) as (W1 & W2 & W3 & W4 & W5 & W6).
  fold c2 in W1, W2, W3, W4, W5, W6.
  assert (Hlen : length (c_disk c (l_start s)) = Z.to_nat BSIZE).
  { rewrite (tx_home_disk _ _ _ _ _ _ _ T) by lia. apply T. }
  assert (Hnl : (l_start s ∉ l)) by (intros Hin; apply (lg_home _ _ _ G) in Hin; lia).
  assert (Hd : c_dirty (wrote (l_start s) H c) = c_dirty c).
  { simpl. destruct (lg_quiet _ _ _ G (l_start s)) as [_ Hq]; [lia|]. set_solver. }
  unfold commit_body. apply runs_bind. eapply runs_conseq; [by apply (write_head_runs s c l); [apply T|..]|].
  intros [] s1 [F1 A1]. fold H in A1. pose proof F1 as (E1 & E2 & E3 & E4 & E5 & E6 & E7).
  apply runs_bind. eapply runs_conseq; [apply (install_trans_runs (c_view c) l s1 _ A1)|].
  - eapply log_geom_frame; [exact G|exact F1|done|]. intros m Hm. rewrite Hd. by apply G.
  - intros i x Hi. rewrite E1. simpl. rewrite upd_ne by lia. apply (tx_log _ _ _ _ _ _ T i x Hi). set_solver.
  - intros x Hx. split; [by apply Hb|]. unfold pinned in *. rewrite Hd. split; [done|]. left.
    rewrite (tx_dirty _ _ _ _ _ _ T). set_solver.
  - left. intros x Hx. rewrite Hd, (tx_dirty _ _ _ _ _ _ T). set_solver.
  - intros [] s2 [A2 F2]. fold c2 in A2. pose proof F2 as (J1 & J2 & J3 & J4 & J5 & J6 & J7).
    apply runs_bind. unfold runs at 1, kmod. set (s3 := set_l_n 0 s2).
    assert (Hc2 : c_disk c2 (l_start s) = H) by (rewrite W2, decide_False by done; simpl; by rewrite upd_eq).
    assert (A3 : at_cache s3 c2) by exact A2.
    assert (E3s : l_start s3 = l_start s) by (unfold s3; simpl; congruence).
    eapply runs_conseq; [apply (write_head_runs s3 c2 [])|].
    + exact A3.
    + eapply geom_empty; [exact G|unfold s3; simpl; congruence|done|done|by rewrite W3|].
      intros m Hm. rewrite W5, W6, Hd. simpl. pose proof (lg_quiet _ _ _ G m Hm). set_solver.
    + eapply Nat.le_lt_trans; [|exact Hsz]. apply subseteq_size. unfold pinned. rewrite W5, W6, Hd. simpl. set_solver.
    + by rewrite E3s, Hc2.
    + intros [] s4 [F4 A4]. destruct F4 as (L1 & L2 & L3 & L4 & L5 & L6 & L7).
      exists (put_head (l_n s3) (l_sector s3) (c_disk c2 (l_start s3))). rewrite E3s, Hc2 in *.
      assert (Harr : length (l_sector s3) = Z.to_nat LOGSIZE) by (unfold s3; simpl; rewrite J6, E6; apply T).
      split; [by apply (put_head_n (l_n s3))|]. split; [by apply put_head_length|]. split; [done|].
      change (held s3) with (held s2) in L7. unfold s3 in *. simpl in *. split_and!; congruence.
Qed.

(** A change of [log.busy] under the lock. *)
Lemma set_busy_locked s c v : at_cache s c -> (lk_log ∉ held s) ->
  runs (acquire lk_log ;;; kmod (set_l_busy v) ;;; release lk_log) s (fun _ s' => at_cache s' c /\ l_busy s' = v /\
    l_start s' = l_start s /\ l_size s' = l_size s /\ l_dev s' = l_dev s /\ l_n s' = l_n s /\
    l_sector s' = l_sector s /\ held s' = held s /\ keeps s s' (fun _ => True)).
Proof.
  intros [Hi Ha] Hn. unfold runs, kbind, kmod. rewrite acquire_ok by done. rewrite release_ok.
  2: { simpl. rewrite held_set_held. left. }
  simpl. rewrite held_set_held, remove_lock_cons, set_held_set_held by done. unfold set_l_bc. simpl.
  destruct (bc_lock (l_bc s) lk_log (held (l_bc s)) Hi) as (H1 & H2 & H3); [done|right; by rewrite remove_lock_notin|].
  split; [split; [done|]; by rewrite H2|]. split_and!; try done; [apply held_set_held|]. intros b m _. apply H3.
Qed.

(** The state after the writes of the commit, as the start of the next transaction. *)
Lemma committed_tx s s' c d0 t0 l H H0 : tx s c d0 t0 ∅ l -> (forall x, x ∈ l -> x ∉ c_busy c) ->
  hdr_n H0 = 0 -> length H0 = Z.to_nat BSIZE ->
  let c' := wrote (l_start s) H0 (wrote_all (c_view c) l (wrote (l_start s) H c)) in
  at_cache s' c' -> l_start s' = l_start s -> l_size s' = l_size s -> l_dev s' = l_dev s -> l_n s' = 0 ->
  l_sector s' = l_sector s -> held s' = held s -> quiescent s' c'.
Proof.
  intros T Hb HH0 Hl0 c' A E1 E2 E4 E5 E6 E7. pose proof (tx_geom _ _ _ _ _ _ T) as G.
  pose proof (wrote_all_fields (c_view c) l (wrote (l_start s) H c)) as (W1 & W2 & W3 & W4 & W5 & W6).
  set (c2 := wrote_all (c_view c) l (wrote (l_start s) H c)) in *.
  assert (Hd : c_dirty c' = ∅) by (simpl; rewrite W6; simpl; rewrite (tx_dirty _ _ _ _ _ _ T); set_solver).
  apply quiescent_intro; rewrite ?E1, ?E2, ?E6, ?E7; try done; try apply T.
  - eapply geom_empty; [exact G|done|done|done|by simpl; rewrite W3|]. intros m Hm. rewrite Hd.
    simpl. rewrite W5. split; [by apply G|set_solver].
  - simpl. rewrite W3. apply T.
  - simpl. by rewrite upd_eq.
  - simpl. by rewrite upd_eq.
  - intros m Hm. simpl. rewrite !upd_ne by lia. rewrite W1, W2. simpl. rewrite !upd_ne by lia.
    destruct (decide (m ∈ l)) as [|Hml]; [done|]. rewrite (tx_home_disk _ _ _ _ _ _ _ T) by lia.
    apply (tx_clean _ _ _ _ _ _ T); [lia|done|set_solver].
Qed.

Lemma commit_trans_runs s c d0 t0 l : tx s c d0 t0 ∅ l -> (size (pinned c) < NBUF)%nat -> (forall x, x ∈ l -> x ∉ c_busy c) ->
  runs commit_trans s (fun _ s' => committed s c d0 t0 s' /\ l_busy s' = 0 /\ held s' = held s).
Proof.
  intros T Hsz Hb. pose proof (tx_geom _ _ _ _ _ _ T) as G. unfold commit_trans. apply runs_bind. unfold runs at 1, kgets.
  rewrite (lg_n _ _ _ G). destruct (tx_trace _ _ _ _ _ _ T) as (ws & Ht & Hws & Hdk). destruct (decide (l = [])) as [->|Hl].
  - simpl. unfold runs at 1, kbind at 1, kret. eapply runs_conseq; [apply (set_busy_locked s c 0); apply T|].
    intros [] s' (A & Eb & E1 & E2 & E4 & E5 & E6 & E7 & _). split; [|by split]. exists c, ws. split_and!; try done.
    + destruct T as [T1 T2 T3 T4 T5 T6 T7 T8 T9 T10 T11 T12]. split; rewrite ?E1, ?E2, ?E6, ?E7; try done.
      * eapply geom_empty; [exact T2|done|done|by rewrite E5, (lg_n _ _ _ T2)|done|apply T2].
      * exists []. by rewrite app_nil_r.
      * rewrite Hdk, (log_phase (l_start s) d0 ws _ _ Hws) by (done || lia). done.
      * intros m Hm Hml HmE. rewrite T10 by done. symmetry. rewrite Hdk. apply (log_phase (l_start s) d0 ws _ _ Hws); [done|lia].
    + intros p Hp. pose proof (lg_room _ _ _ G). pose proof (lg_size _ _ _ G). simpl in *.
      pose proof (lg_start _ _ _ G).
      destruct (tx_hdr _ _ _ _ _ _ T) as [HT1 HT2].
      destruct (log_phase_safe (l_start s) (c_size c) d0 d0 ws p Hws) as (L1 & L2 & L3); try done; try lia.
      split; [eauto|]. split; [by left|]. intros m Hm. left. by apply L3.
  - rewrite (proj2 (Z.ltb_lt _ _)) by (destruct l; [done|simpl; lia]).
    change (write_head ;;; install_trans ;;; kmod (set_l_n 0) ;;; write_head) with commit_body.
    apply runs_bind. eapply runs_conseq; [by apply (commit_body_runs s c d0 t0 l)|].
    intros [] s1 (H0 & HH0 & Hl0 & A1 & E1 & E2 & E4 & Eb & E5 & E6 & E7).
    eapply runs_conseq; [apply (set_busy_locked s1 _ 0 A1); rewrite E7; apply T|].
    intros [] s' (A & Fb & F1 & F2 & F4 & F5 & F6 & F7 & _). split; [|split; [done|congruence]].
    destruct (commit_head _ _ _ _ _ T) as (HH1 & HH2 & HH3). set (H := put_head _ _ _) in *.
    pose proof (wrote_all_fields (c_view c) l (wrote (l_start s) H c)) as (W1 & W2 & W3 & W4 & W5 & W6).
    exists (wrote (l_start s) H0 (wrote_all (c_view c) l (wrote (l_start s) H c))),
      (ws ++ [(l_start s, H)] ++ ((fun x => (x, c_view c x)) <$> l) ++ [(l_start s, H0)]).
    split_and!; try (simpl; congruence); [|by simpl; rewrite W3|by simpl; rewrite W5|..].
    + apply (committed_tx s s' c d0 t0 l H H0); try done; congruence.
    + intros m Hm. simpl. rewrite upd_ne by lia. rewrite W1. simpl. rewrite upd_ne by lia. by destruct (decide (m ∈ l)).
    + simpl. rewrite W4. simpl. rewrite Ht. by rewrite <- !app_assoc.
    + intros m. rewrite !apply_writes_app. cbn [apply_writes fold_left fst snd]. simpl c_disk. unfold upd at 1 2.
      destruct (decide (m = l_start s)); [done|]. rewrite W2, apply_writes_const. destruct (decide (m ∈ l)); [done|].
      simpl. rewrite !upd_ne by done. apply Hdk.
    + apply commit_crash_safe; try done.
      * apply T.
      * apply G.
      * intros i x Hi. rewrite <- Hdk. apply (tx_log _ _ _ _ _ _ T i x Hi). set_solver.
      * intros m Hm Hml. apply (tx_clean _ _ _ _ _ _ T m Hm Hml). set_solver.
      * split; [apply T|done].
      * destruct G as [G1 G2 G3 G4 G5 G6 G7 G8 G9]. pose proof (tx_cap _ _ _ _ _ _ T). split_and!; try done.
Qed.
End commit.

(** ** Recovery *)

Section recovery.
Context {B : Type} {OPS : BufferOps B} {BC : BufferCache B}.
Implicit Types (s : lst B) (c : cache) (l : list Z).

(** The stores of [read_head] fill the array with the entries of the header. *)
Lemma read_sectors_runs blk l : forall k s, (k <= length l)%nat -> Z.of_nat (length l) <= LOGSIZE ->
  length (l_sector s) = Z.to_nat LOGSIZE -> take k (l_sector s) = take k l ->
  (forall i x, l !! i = Some x -> hdr_sector blk i = x /\ 0 <= x < 2147483648) ->
  runs (for_each (Z.of_nat <$> seq k (length l - k)) (fun i =>
      if LOGSIZE <=? i then kpanic "undefined: log.lh.sector index"
      else kmod (set_l_sector (Z.to_nat i) (s32 (get_le 4 (Z.to_nat (4 + 4 * i)) blk))))) s
    (fun _ s' => exists arr, s' = Lst (l_bc s) (l_start s) (l_size s) (l_busy s) (l_dev s) (l_n s) arr /\
      length arr = Z.to_nat LOGSIZE /\ take (length l) arr = l).
Proof.
  intros k. remember (length l - k)%nat as r eqn:Er. revert k Er.
  induction r as [|r IH]; intros k Er s Hk Hl Ha Ht Hh; cbn [seq fmap list_fmap for_each].
  - exists (l_sector s). split; [by destruct s|]. split; [done|]. assert (k = length l) as -> by lia. by rewrite Ht, firstn_all.
  - destruct (lookup_lt_is_Some_2 l k) as [x Hx]; [lia|]. destruct (Hh k x Hx) as [Hs Hr].
    apply runs_bind. rewrite (proj2 (Z.leb_gt _ _)) by lia. unfold runs at 1, kmod. rewrite Nat2Z.id.
    replace (Z.to_nat (4 + 4 * Z.of_nat k)) with (4 + 4 * k)%nat by lia. fold (hdr_sector blk k). rewrite Hs.
    replace (s32 x) with x by (unfold s32; symmetry; mlia).
    eapply runs_conseq; [apply (IH (S k) ltac:(lia)); try done; simpl|].
    + lia.
    + by rewrite length_insert.
    + rewrite (take_S_r _ _ x) by (rewrite list_lookup_insert_eq; [done|]; rewrite Ha; unfold LOGSIZE in *; lia).
      rewrite (take_S_r l _ x) by done. f_equal. rewrite take_insert_ge by lia. done.
    + intros [] s' (arr & -> & H1 & H2). by exists arr.
Qed.

Lemma read_head_runs s c l v : at_cache s c -> l_dev s = 1 -> length (l_sector s) = Z.to_nat LOGSIZE ->
  c_busy c = ∅ -> c_dirty c = ∅ -> log_wf (l_start s) (c_size c) (c_disk c) l v ->
  runs read_head s (fun _ s' => at_cache s' c /\ l_start s' = l_start s /\ l_size s' = l_size s /\ l_dev s' = 1 /\
    l_n s' = Z.of_nat (length l) /\ take (length l) (l_sector s') = l /\ length (l_sector s') = Z.to_nat LOGSIZE /\
    held s' = held s /\ l_busy s' = l_busy s).
Proof.
  intros A Hdev Harr Hb Hd W. destruct W as [[W1 W2] W3 W4 W5 W6 W7 W8].
  assert (Hc : c_view c (l_start s) = c_disk c (l_start s)) by (eapply clean_at; [exact A|rewrite Hb|rewrite Hd]; set_solver).
  unfold read_head. apply runs_bind. unfold runs at 1, kget. rewrite Hdev.
  replace (u32 (l_start s)) with (l_start s) by (unfold u32; rewrite Z.mod_small; lia).
  apply runs_bind. eapply step_bread; [exact A|split_and!; [lia|lia|rewrite Hb; set_solver|]|].
  { intros _. unfold pinned. rewrite Hb, Hd, union_empty_l_L, size_empty. unfold NBUF. lia. }
  intros b s1 A1 Hh (F1 & F2 & F3 & F4 & F5 & F6 & F7) _. apply runs_bind. eapply step_data; [exact A1|done|].
  simpl. rewrite Hc. apply runs_bind. unfold runs at 1, kmod. apply runs_bind. unfold runs at 1, kgets.
  fold (hdr_n (c_disk c (l_start s))). rewrite W1. simpl l_n. rewrite seqZ_seq, Nat2Z.id by lia. apply runs_bind.
  set (s2 := set_l_n _ s1). pose proof (read_sectors_runs (c_disk c (l_start s)) l 0 s2) as Hrs. rewrite Nat.sub_0_r in Hrs.
  eapply runs_conseq; [apply Hrs; try done; [lia|unfold s2; simpl; by rewrite F6|]|].
  { intros i x Hi. destruct (W2 i x Hi) as [-> _]. split; [done|]. pose proof (W7 x (list_elem_of_lookup_2 _ _ _ Hi)). lia. }
  intros [] s3 (arr & -> & H1 & H2). eapply (step_brelse _ _ _ (l_start s)); [exact A1|exact Hh|by right|].
  intros s4 A4 (J1 & J2 & J3 & J4 & J5 & J6 & J7) _. simpl in *.
  split; [eapply at_cache_equiv; [exact A4|]; rewrite Hb; split_and!; simpl; try done; set_solver|].
  split_and!; try congruence.
Qed.

Lemma recover_runs s c l v : at_cache s c -> l_dev s = 1 -> length (l_sector s) = Z.to_nat LOGSIZE ->
  c_busy c = ∅ -> c_dirty c = ∅ -> log_wf (l_start s) (c_size c) (c_disk c) l v -> (lk_log ∉ held s) ->
  l_start s + l_size s <= c_size c ->
  runs recover_from_log s (fun _ s' => exists c' H0, quiescent s' c' /\ hdr_n H0 = 0 /\ length H0 = Z.to_nat BSIZE /\ l_start s' = l_start s /\
    l_size s' = l_size s /\ l_busy s' = l_busy s /\ held s' = held s /\ c_size c' = c_size c /\ c_busy c' = ∅ /\
    c_trace c' = c_trace c ++ ((fun x => (x, v x)) <$> l) ++ [(l_start s, H0)] /\
    (forall m, 0 <= m < l_start s -> c_disk c' m = recovered (l_start s) (c_disk c) m)).
Proof.
  intros A Hdev Harr Hb Hd W Hlk Hsize. pose proof W as [[W1 W2] W3 W4 W5 W6 W7 W8].
  unfold recover_from_log. apply runs_bind. eapply runs_conseq; [by apply (read_head_runs s c l v)|].
  intros [] s1 (A1 & E1 & E2 & E4 & E5 & E6 & E6' & E7 & Eb).
  assert (Hsz : forall x : Z, can_install c x).
  { intros x. unfold can_install, pinned. rewrite Hb, Hd, union_empty_l_L, size_empty. unfold NBUF. split; [set_solver|lia]. }
  assert (G : log_geom s1 c l).
  { split; rewrite ?E1, ?E4, ?E5; try done; try lia. intros m _. rewrite Hb, Hd. set_solver. }
  apply runs_bind. eapply runs_conseq; [apply (install_trans_runs v l s1 c A1 G)|].
  - intros i x Hi. rewrite E1. by apply W2.
  - intros x _. apply Hsz.
  - by right.
  - intros [] s2 [A2 (F1 & F2 & F3 & F4 & F5 & F6 & F7)]. apply runs_bind. unfold runs at 1, kmod.
    set (s3 := set_l_n 0 s2). assert (A3 : at_cache s3 (wrote_all v l c)) by exact A2.
    pose proof (wrote_all_fields v l c) as (V1 & V2 & V3 & V4 & V5 & V6).
    assert (E3s : l_start s3 = l_start s) by (unfold s3; simpl; congruence).
    assert (Hnl : (l_start s ∉ l)) by (intros Hin; apply W7 in Hin; lia).
    assert (Hq : forall m : Z, (m ∉ c_busy (wrote_all v l c)) /\ (m ∉ c_dirty (wrote_all v l c))).
    { intros m. rewrite V5, V6, Hb, Hd. set_solver. }
    assert (G3 : log_geom s3 (wrote_all v l c) []) by (eapply geom_empty; [exact G|unfold s3; simpl; congruence|by rewrite E3s, E1|done|done|intros; apply Hq]).
    assert (Hhd : c_disk (wrote_all v l c) (l_start s) = c_disk c (l_start s)) by (rewrite V2; by rewrite decide_False).
    eapply runs_conseq; [apply (write_head_runs s3 _ [] A3 G3)|].
    + unfold pinned. rewrite V5, V6, Hb, Hd. rewrite union_empty_l_L. replace (∅ ∖ list_to_set l : gset Z) with (∅ : gset Z) by set_solver.
      rewrite size_empty. unfold NBUF. lia.
    + by rewrite E3s, Hhd.
    + rewrite E3s, Hhd. intros [] s4 [(J1 & J2 & J3 & J4 & J5 & J6 & J7) A4].
      assert (Harr3 : length (l_sector s3) = Z.to_nat LOGSIZE) by (unfold s3; simpl; congruence).
      set (H0 := put_head _ _ _) in A4. assert (HH0 : hdr_n H0 = 0) by (by apply (put_head_n (l_n s3))).
      assert (HL0 : length H0 = Z.to_nat BSIZE) by (apply put_head_length; [done|]; by rewrite W3).
      exists (wrote (l_start s) H0 (wrote_all v l c)), H0. change (held s3) with (held s2) in J7. unfold s3 in *. simpl in *.
      assert (Hv : forall m, c_view c m = c_disk c m) by (intros m; eapply clean_at; [exact A|rewrite Hb|rewrite Hd]; set_solver).
      split_and!; try congruence; simpl.
      * apply quiescent_intro; try done; simpl; rewrite ?J1, ?J2, ?J6, ?J7, ?F1, ?E1, ?F2, ?E2, ?F6, ?F7, ?E7, ?V3; try done.
        -- eapply geom_empty; [exact G3|simpl; congruence|simpl; congruence|simpl; congruence|done|]. intros m Hm. simpl.
           destruct (Hq m). set_solver.
        -- rewrite V6, Hd. set_solver.
        -- by rewrite upd_eq.
        -- by rewrite upd_eq.
        -- intros m Hm. rewrite !upd_ne by lia. rewrite V1, V2. destruct (decide (m ∈ l)); [done|apply Hv].
      * rewrite V4. by rewrite <- app_assoc.
      * intros m Hm. rewrite upd_ne by lia. rewrite V2. symmetry. apply recovered_holds. by split.
Qed.
End recovery.
