(* ===== verification/LogCrash.v ===== *)
(** * Transactions and crashes

    [run_tx] is the use of the log that log.c documents: [begin_trans], then for each block
    [bread], modify, [log_write], [brelse], and [commit_trans].  The theorems say that it
    runs, what it leaves behind, that a crash at any disk write is repaired by the next boot, and where
    the capacity of the log ends. *)

From S2P Require Import Prelude Bio BufferCache BioSpec Bytes Log LogSpec.

Section transactions.
Context {B : Type} {OPS : BufferOps B} {BC : BufferCache B}.
Implicit Types (s : lst B) (c : cache) (l : list Z).

(** The typical use documented at [log_write]. *)
Definition tx_write (w : Z * list Z) : K (lst B) unit :=
  let* bp := lift_b (bc_bread 1 w.1) in
  lift_b (bc_put bp w.2) ;;;
  log_write bp ;;;
  lift_b (bc_brelse bp).

Definition run_tx (ws : list (Z * list Z)) : K (lst B) unit :=
  begin_trans ;;;
  for_each ws tx_write ;;;
  commit_trans.

(** A state of the transaction differs from another in [log.busy] only. *)
Lemma tx_same s s' c d0 t0 E l : tx s c d0 t0 E l -> at_cache s' c -> l_start s' = l_start s -> l_size s' = l_size s ->
  l_dev s' = l_dev s -> l_n s' = l_n s -> l_sector s' = l_sector s -> held s' = held s -> tx s' c d0 t0 E l.
Proof.
  intros [T1 [G1 G2 G3 G4 G5 G6 G7 G8 G9] T3 T4 T5 T6 T7 T8 T9 T10 T11 T12] A E1 E2 E3 E4 E5 E6.
  split; rewrite ?E1, ?E2, ?E5, ?E6; try done. split; rewrite ?E1, ?E3, ?E4, ?E5; done.
Qed.

Lemma begin_trans_runs s c : quiescent s c -> l_busy s = 0 ->
  runs begin_trans s (fun _ s' => quiescent s' c /\ l_busy s' = 1 /\ l_start s' = l_start s /\ l_size s' = l_size s /\ held s' = held s).
Proof.
  intros Q Hb. assert (E : begin_trans s = (acquire lk_log ;;; kmod (set_l_busy 1) ;;; release lk_log) s).
  { unfold begin_trans, kbind, kgets. rewrite acquire_ok by apply Q. cbn [l_busy set_held lst_locks set_l_bc]. by rewrite Hb. }
  unfold runs. rewrite E. eapply runs_conseq; [apply (set_busy_locked s c 1); apply Q|].
  intros [] s' (A & E0 & E1 & E2 & E3 & E4 & E5 & E6 & _). split; [|done]. by apply (tx_same s s').
Qed.

(** One block: the transaction goes on with the block changed and logged. *)
Lemma tx_write_runs s c d0 t0 l n v : tx s c d0 t0 ∅ l -> c_busy c = ∅ -> l_busy s = 1 -> 0 <= n < l_start s ->
  Z.of_nat (length (log_add n l)) < Z.of_nat NBUF -> Z.of_nat (length l) < l_size s - 1 ->
  runs (tx_write (n, v)) s (fun _ s' => exists c', tx s' c' d0 t0 ∅ (log_add n l) /\ c_busy c' = ∅ /\ l_busy s' = 1 /\
    l_start s' = l_start s /\ l_size s' = l_size s /\ c_size c' = c_size c /\
    forall m, 0 <= m < l_start s -> c_view c' m = upd (c_view c) n v m).
Proof.
  intros T Hb Hlb Hn Hcap1 Hcap2. pose proof (tx_geom _ _ _ _ _ _ T) as G. pose proof (lg_room _ _ _ G) as Hroom.
  assert (Hsz : (size (list_to_set (log_add n l) : gset Z) < NBUF)%nat).
  { rewrite size_list_to_set by (apply log_add_nodup, G). lia. }
  rewrite log_add_set in Hsz. unfold tx_write. cbn [fst snd]. apply runs_bind. eapply runs_conseq; [apply (tx_bread s c d0 t0 ∅ l n T)|].
  - split; [lia|]. rewrite Hb. split; [set_solver|]. intros _. unfold pinned. rewrite Hb, union_empty_l_L, (tx_dirty _ _ _ _ _ _ T).
    eapply Nat.le_lt_trans; [|exact Hsz]. apply subseteq_size. set_solver.
  - lia.
  - intros b s1 (T1 & Hh & (F1 & F2 & F3 & _) & _). apply runs_bind. eapply runs_conseq; [by apply (tx_put s1 _ _ _ _ _ b n v T1)|].
    intros [] s2 (T2 & (J1 & J2 & J3 & _) & K2). apply runs_bind.
    eapply runs_conseq; [apply (tx_log_write s2 _ _ _ _ _ b n T2)|].
    + by apply K2.
    + lia.
    + destruct (log_add_length n l) as (_ & L1 & L2). unfold LOGSIZE, NBUF in *.
      destruct (decide (n ∈ l)) as [Hin|Hin]; [rewrite (L1 Hin) in *|rewrite (L2 Hin) in *]; lia.
    + lia.
    + unfold pinned. simpl. by rewrite Hb, union_empty_r_L, (tx_dirty _ _ _ _ _ _ T).
    + intros [] s3 (c3 & T3 & M1 & M2 & M3 & M4 & M5 & M6 & K3 & _). simpl in M4, M5, M6.
      replace (({[ n ]} ∪ ∅) ∖ {[ n ]} : gset Z) with (∅ : gset Z) in T3 by set_solver.
      eapply runs_conseq; [apply (tx_brelse s3 c3 _ _ _ _ b n T3); [by apply K3, K2|set_solver]|].
      intros [] s4 (T4 & (N1 & N2 & N3 & _) & _). exists (set_busy (c_busy c3 ∖ {[ n ]}) c3). split; [done|].
      split_and!; try (simpl; congruence).
      * simpl. rewrite M4, Hb. set_solver.
      * intros m Hm. simpl. apply M6. rewrite J1, F1. lia.
Qed.

(** The sectors logged by a list of writes, in the order of their first write. *)
Definition log_of (ws : list (Z * list Z)) (l : list Z) : list Z := fold_left (fun l w => log_add w.1 l) ws l.

Lemma log_of_set ws : forall l, (list_to_set (log_of ws l) : gset Z) = list_to_set ws.*1 ∪ list_to_set l.
Proof.
  induction ws as [|w ws IH]; intros l; simpl; [by rewrite union_empty_l_L|]. unfold log_of in *. simpl.
  rewrite IH, log_add_set. set_solver.
Qed.

Lemma log_of_nodup ws : forall l, NoDup l -> NoDup (log_of ws l).
Proof. induction ws as [|w ws IH]; intros l Hl; [done|]. apply IH. by apply log_add_nodup. Qed.

Lemma log_of_grows ws : forall l, NoDup l -> (length l <= length (log_of ws l))%nat.
Proof.
  intros l Hl. rewrite <- (size_list_to_set (C := gset Z) l) by done.
  rewrite <- (size_list_to_set (C := gset Z) (log_of ws l)) by (by apply log_of_nodup). apply subseteq_size. rewrite log_of_set. set_solver.
Qed.

Lemma tx_writes_runs ws : forall s c d0 t0 l, tx s c d0 t0 ∅ l -> c_busy c = ∅ -> l_busy s = 1 ->
  Forall (fun w => 0 <= w.1 < l_start s) ws -> (length (log_of ws l) < NBUF)%nat -> Z.of_nat (length (log_of ws l)) < l_size s - 1 ->
  runs (for_each ws tx_write) s (fun _ s' => exists c', tx s' c' d0 t0 ∅ (log_of ws l) /\ c_busy c' = ∅ /\ l_busy s' = 1 /\
    l_start s' = l_start s /\ l_size s' = l_size s /\ c_size c' = c_size c /\
    forall m, 0 <= m < l_start s -> c_view c' m = apply_writes ws (c_view c) m).
Proof.
  induction ws as [|[n v] ws IH]; intros s c d0 t0 l T Hb Hlb Hws H1 H2; cbn [for_each].
  - exists c. by split_and!.
  - pose proof (lg_nodup _ _ _ (tx_geom _ _ _ _ _ _ T)) as Hnd. inversion Hws as [|? ? Hn Hws']; subst. simpl in Hn.
    pose proof (log_of_grows ws (log_add n l) (log_add_nodup n l Hnd)) as Hg. pose proof (log_of_grows ((n, v) :: ws) l Hnd) as Hg'.
    change (log_of ws (log_add n l)) with (log_of ((n, v) :: ws) l) in Hg.
    apply runs_bind. eapply runs_conseq; [apply (tx_write_runs s c d0 t0 l n v T Hb Hlb Hn); lia|].
    intros [] s1 (c1 & T1 & B1 & L1 & E1 & E2 & E3 & V1).
    eapply runs_conseq; [apply (IH s1 c1 d0 t0 (log_add n l) T1 B1 L1)|].
    + by rewrite E1.
    + done.
    + by rewrite E2.
    + intros [] s2 (c2 & T2 & B2 & L2 & J1 & J2 & J3 & V2). exists c2. split_and!; try done; try congruence. intros m Hm.
      rewrite V2 by (rewrite E1; lia). unfold apply_writes. simpl. apply apply_writes_ext. by apply V1.
Qed.
(** Writes of blocks that are not in the log yet, as many as there is room for. *)
Lemma tx_fresh_writes_runs ws : forall s c d0 t0 l, tx s c d0 t0 ∅ l -> c_busy c = ∅ -> l_busy s = 1 ->
  Forall (fun w => 0 <= w.1 < l_start s) ws -> NoDup (l ++ ws.*1) -> (length l + length ws < NBUF)%nat -> Z.of_nat (length l + length ws) <= l_size s - 1 ->
  runs (for_each ws tx_write) s (fun _ s' => exists c', tx s' c' d0 t0 ∅ (l ++ ws.*1) /\ c_busy c' = ∅ /\ l_busy s' = 1 /\
    l_start s' = l_start s /\ l_size s' = l_size s /\ forall m, 0 <= m < l_start s -> c_view c' m = apply_writes ws (c_view c) m).
Proof.
  induction ws as [|[n v] ws IH]; intros s c d0 t0 l T Hb Hlb Hws Hnd H1 H2; cbn [for_each].
  - exists c. cbn. rewrite app_nil_r. by split_and!.
  - apply Forall_cons in Hws as [Hn Hws]. cbn [length fmap list_fmap fst] in *. assert (Ha : log_add n l = l ++ [n]).
    { unfold log_add. rewrite decide_False; [done|]. apply NoDup_app in Hnd as (_ & Hx & _). intros Hin. apply (Hx n Hin). left. }
    apply runs_bind. eapply runs_conseq; [apply (tx_write_runs s c d0 t0 l n v T Hb Hlb Hn); rewrite ?Ha, ?length_app; cbn [length]; lia|].
    intros [] s1 (c1 & T1 & B1 & L1 & E1 & E2 & E3 & V1). rewrite Ha in T1.
    eapply runs_conseq; [apply (IH s1 c1 d0 t0 (l ++ [n]) T1 B1 L1); rewrite ?E1, ?E2, ?length_app, <- ?app_assoc; try done; cbn [length]; lia|].
    intros [] s2 (c2 & T2 & B2 & L2 & J1 & J2 & V2). rewrite <- app_assoc in T2. exists c2. split_and!; try done; try congruence. intros m Hm.
    rewrite V2 by (rewrite E1; lia). unfold apply_writes. simpl. apply apply_writes_ext. by apply V1.
Qed.
End transactions.

Lemma crash_safe_home start size d0 ws d1 d1' : crash_safe start size d0 ws d1 -> home_eq start d1 d1' ->
  crash_safe start size d0 ws d1'.
Proof.
  intros H E p Hp. destruct (H p Hp) as (H1 & H2 & H3). split; [done|]. split.
  - destruct H2 as [H2|H2]; [by left|right]. intros m Hm. rewrite H2 by done. by apply E.
  - intros m Hm. rewrite <- (E m Hm). by apply H3.
Qed.

Section claims.
Context {B : Type} {OPS : BufferOps B} {BC : BufferCache B}.
Implicit Types (s : lst B) (c : cache) (l : list Z).

Lemma run_tx_runs s c ws : quiescent s c -> l_busy s = 0 -> c_busy c = ∅ ->
  Forall (fun w => 0 <= w.1 < l_start s) ws ->
  (size (list_to_set ws.*1 : gset Z) < NBUF)%nat -> Z.of_nat (size (list_to_set ws.*1 : gset Z)) < l_size s - 1 ->
  runs (run_tx ws) s (fun _ s' => exists c' tr, quiescent s' c' /\ l_busy s' = 0 /\ l_start s' = l_start s /\
    l_size s' = l_size s /\ c_size c' = c_size c /\ c_busy c' = ∅ /\
    c_trace c' = c_trace c ++ tr /\ (forall m, c_disk c' m = apply_writes tr (c_disk c) m) /\
    home_eq (l_start s) (c_view c') (apply_writes ws (c_disk c)) /\
    crash_safe (l_start s) (c_size c) (c_disk c) tr (apply_writes ws (c_disk c))).
Proof.
  intros Q Hlb Hb Hws Hk1 Hk2.
  assert (Hlen : length (log_of ws []) = size (list_to_set ws.*1 : gset Z)).
  { rewrite <- (size_list_to_set (C := gset Z) (log_of ws [])) by (apply log_of_nodup; constructor).
    rewrite log_of_set. simpl. by rewrite union_empty_r_L. }
  unfold run_tx. apply runs_bind. eapply runs_conseq; [by apply (begin_trans_runs s c)|].
  intros [] s1 (Q1 & L1 & E1 & E2 & _). apply runs_bind.
  eapply runs_conseq; [apply (tx_writes_runs ws s1 c _ _ [] Q1 Hb L1); rewrite ?E1, ?E2, ?Hlen; done|].
  intros [] s2 (c2 & T2 & B2 & L2 & J1 & J2 & J3 & V2). pose proof (tx_geom _ _ _ _ _ _ T2) as G2.
  assert (Hhome : home_eq (l_start s) (c_view c2) (apply_writes ws (c_disk c))).
  { intros m Hm. rewrite V2 by (rewrite E1; lia). apply apply_writes_ext. apply (tx_clean _ _ _ _ _ _ Q m Hm); set_solver. }
  eapply runs_conseq; [apply (commit_trans_runs s2 c2 _ _ _ T2)|].
  - unfold pinned. rewrite B2, union_empty_l_L, (tx_dirty _ _ _ _ _ _ T2), log_of_set. simpl. by rewrite union_empty_r_L.
  - intros x _. rewrite B2. set_solver.
  - intros [] s3 [(c3 & tr & Q3 & M1 & M2 & M3 & M4 & M5 & M6 & M7 & M8) [L3 _]]. exists c3, tr.
    rewrite J1, E1 in *. split_and!; try done; try congruence.
    + intros m Hm. rewrite M5 by lia. by apply Hhome.
    + rewrite <- J3. by eapply crash_safe_home.
Qed.

(** The writes of a recovery, cut anywhere, leave a disk that recovers to the same blocks. *)
Lemma recovery_cut start size d l v H0 p : log_wf start size d l v -> hdr_n H0 = 0 -> length H0 = Z.to_nat BSIZE ->
  p `prefix_of` ((fun x => (x, v x)) <$> l) ++ [(start, H0)] ->
  (exists l' v', log_wf start size (apply_writes p d) l' v') /\
  home_eq start (recovered start (apply_writes p d)) (recovered start d).
Proof.
  intros W HH0 HL0 Hp. pose proof W as [Wh W3 W4 W5 W6 W7 W8].
  assert (Hq : forall q, q `prefix_of` l -> log_wf start size (apply_writes ((fun x => (x, v x)) <$> q) d) l v).
  { intros q [r Hr]. assert (Hout : forall m, start <= m -> apply_writes ((fun x => (x, v x)) <$> q) d m = d m).
    { intros m Hm. rewrite apply_writes_const, decide_False; [done|]. intros Hin.
      assert (Hin' : m ∈ l) by (rewrite Hr; apply elem_of_app; by left). apply W7 in Hin'. lia. }
    destruct Wh as [Wn Wi]. split; try done; [|by rewrite Hout by lia]. split; rewrite Hout by lia; [done|].
    intros i x Hi. rewrite Hout by lia. by apply Wi. }
  assert (Hrec : forall q m, q `prefix_of` l -> (if decide (m ∈ l) then v m else apply_writes ((fun x => (x, v x)) <$> q) d m) = recovered start d m).
  { intros q m [r Hr]. rewrite (recovered_holds _ _ _ _ _ Wh). destruct (decide (m ∈ l)) as [|Hl]; [done|].
    rewrite apply_writes_const, decide_False; [done|]. intros Hin. apply Hl. rewrite Hr. apply elem_of_app. by left. }
  apply prefix_app_cases in Hp as [Hp|(q2 & -> & Hp)].
  - apply prefix_fmap_inv in Hp as (q & -> & Hpq). split; [eauto|]. intros m Hm.
    rewrite (recovered_holds _ _ _ _ _ (lw_holds _ _ _ _ _ (Hq q Hpq))). by apply Hrec.
  - rewrite apply_writes_app. destruct q2 as [|w q2].
    + split; [exists l, v; by apply Hq|]. intros m Hm. cbn [apply_writes fold_left].
      rewrite (recovered_holds _ _ _ _ _ (lw_holds _ _ _ _ _ (Hq l ltac:(done)))). by apply Hrec.
    + apply prefix_cons_inv_1 in Hp as Hw. subst w. apply prefix_cons_inv_2, prefix_nil_inv in Hp as ->.
      change (apply_writes [(start, H0)] ?d) with (upd d start H0). split.
      * exists [], v. apply log_wf_empty; rewrite ?upd_eq; try done; lia.
      * intros m Hm. rewrite recovered_empty by (by rewrite upd_eq). rewrite upd_ne by lia.
        rewrite <- (Hrec l m ltac:(done)), apply_writes_const. by destruct (decide (m ∈ l)).
Qed.

(** [readsb] on a cache that nobody uses. *)
Lemma readsb_runs s c : at_cache s c -> c_busy c = ∅ -> c_dirty c = ∅ -> 1 < c_size c ->
  runs (readsb 1) s (fun sb s' => at_cache s' c /\ log_frame s s' /\
    sb = Superblock (get_le 4 0 (c_disk c 1)) (get_le 4 4 (c_disk c 1)) (get_le 4 8 (c_disk c 1)) (get_le 4 12 (c_disk c 1))).
Proof.
  intros A Hb Hd Hs. assert (Hc : c_view c 1 = c_disk c 1) by (eapply clean_at; [exact A|rewrite Hb|rewrite Hd]; set_solver).
  unfold readsb. apply runs_bind. eapply step_bread; [exact A|split; [lia|]|].
  { rewrite Hb. split; [set_solver|]. intros _. unfold pinned. rewrite Hb, Hd, union_empty_l_L, size_empty. unfold NBUF. lia. }
  intros b s1 A1 Hh F1 _. apply runs_bind. eapply step_data; [exact A1|done|]. simpl. rewrite Hc.
  apply runs_bind. eapply step_brelse; [exact A1|exact Hh|by right|]. intros s2 A2 F2 _. unfold runs, kret.
  split; [|split; [by eapply log_frame_trans|done]]. eapply at_cache_equiv; [exact A2|].
  rewrite Hb. split_and!; simpl; try done.
Qed.

(** The superblock in block 1 places the log at [start] with [nlog] blocks. *)
Definition sb_places (d : disk) (start nlog : Z) : Prop :=
  get_le 4 0 (d 1) = start + nlog /\ get_le 4 12 (d 1) = nlog.

Lemma initlog_runs s c l v start nlog : at_cache s c -> length (l_sector s) = Z.to_nat LOGSIZE ->
  c_busy c = ∅ -> c_dirty c = ∅ -> (lk_log ∉ held s) -> sb_places (c_disk c) start nlog -> 1 < start -> 0 <= nlog ->
  start + nlog <= c_size c -> log_wf start (c_size c) (c_disk c) l v ->
  runs initlog s (fun _ s' => exists c', quiescent s' c' /\ l_start s' = start /\ l_size s' = nlog /\ l_busy s' = l_busy s /\ held s' = held s /\
    c_busy c' = ∅ /\ c_size c' = c_size c /\ home_eq start (c_view c') (recovered start (c_disk c))).
Proof.
  intros A Harr Hb Hd Hlk [Hsb1 Hsb2] Hst Hnl Hsz W. pose proof (lw_room _ _ _ _ _ W) as Hroom.
  unfold initlog. cbn [Z.leb]. change (BSIZE <=? 4 + 4 * LOGSIZE) with false. cbv iota.
  apply runs_bind. eapply runs_conseq; [apply (readsb_runs s c A Hb Hd); lia|].
  intros sb s1 (A1 & (F1 & F2 & F3 & F4 & F5 & F6 & F7) & ->). cbn [sb_size sb_nlog]. rewrite Hsb1, Hsb2.
  apply runs_bind. unfold runs at 1, kmod.
  replace (s32 (start + nlog - nlog)) with start by (unfold s32; symmetry; mlia).
  replace (s32 nlog) with nlog by (unfold s32; symmetry; mlia).
  set (s2 := set_l_place start nlog ROOTDEV s1).
  eapply runs_conseq; [apply (recover_runs s2 c l v)|].
  - exact A1.
  - done.
  - unfold s2. simpl. by rewrite F6.
  - done.
  - done.
  - exact W.
  - change (held s2) with (held s1). by rewrite F7.
  - exact Hsz.
  - intros [] s3 (c3 & H0 & Q3 & HH0 & HL0 & E1 & E2 & E3 & Eh & E4 & E5 & E6 & E7). exists c3. change (held s2) with (held s1) in Eh. unfold s2 in *. simpl in *.
    split_and!; try done; try congruence. intros m Hm. rewrite <- E7 by done.
    apply (tx_clean _ _ _ _ _ _ Q3); [lia|set_solver|set_solver].
Qed.
End claims.

(** ** The log over the buffer cache of bio.c *)

(** The kernel at boot: the log and the cache are zeroed, the disk is [d]. *)
Definition boot_state (junk : list Z) (d : disk) (size : Z) : lst bst :=
  Lst (bss_cache junk d size) 0 0 0 0 0 (replicate (Z.to_nat LOGSIZE) 0).

Definition boot : K (lst bst) unit := lift_b binit ;;; initlog.

(** After the boot the log is empty, and the blocks below it are as recovery leaves them. *)
Lemma boot_quiet junk d size l v start nlog : sb_places d start nlog -> 1 < start -> 0 <= nlog -> start + nlog <= size ->
  log_wf start size d l v ->
  runs boot (boot_state junk d size) (fun _ s' => exists c', quiescent s' c' /\ l_start s' = start /\ l_size s' = nlog /\ l_busy s' = 0 /\ held s' = [] /\
    c_busy c' = ∅ /\ c_size c' = size /\ home_eq start (c_view c') (recovered start d)).
Proof.
  intros Hsb H1 H2 H3 W. unfold boot. apply runs_bind. unfold runs at 1, lift_b, boot_state. cbn [l_bc]. rewrite binit_eq.
  eapply runs_conseq; [apply (initlog_runs _ (Cache d d size [] ∅ ∅) l v start nlog); try done|by intros [] s' H].
  - split; [by exists (rev (seq 0 NBUF)); apply empty_cache_inv|]. apply empty_cache_abs.
  - apply not_elem_of_nil.
Qed.

Lemma boot_runs junk d size l v start nlog : sb_places d start nlog -> 1 < start -> 0 <= nlog -> start + nlog <= size ->
  log_wf start size d l v ->
  runs boot (boot_state junk d size) (fun _ s' => home_eq start (view (l_bc s')) (recovered start d)).
Proof.
  intros Hsb H1 H2 H3 W. eapply runs_conseq; [by apply (boot_quiet junk d size l v start nlog)|].
  intros [] s' (c' & Q & _ & _ & _ & _ & _ & _ & E) m Hm. rewrite <- (E m Hm). destruct (tx_at _ _ _ _ _ _ Q) as [_ (Hv & _)]. apply Hv.
Qed.

(** C2: a transaction of [begin_trans], [log_write]s of any home blocks and [commit_trans] runs to its
    end and makes all its blocks durable; and wherever a crash cuts the sequence of its disk
    writes, booting again ([binit], [initlog]) shows either all the blocks as before the
    transaction or all of them as after it, the latter once it has returned. *)
Theorem crash_recovery_atomic (s : lst bst) ws junk :
  let old := b_disk (l_bc s) in
  let new := apply_writes ws old in
  quiescent s (bio_abs (l_bc s)) -> l_busy s = 0 -> sectors busy_buf (l_bc s) = ∅ -> 1 < l_start s -> 0 <= l_size s ->
  sb_places old (l_start s) (l_size s) -> Forall (fun w => 0 <= w.1 < l_start s /\ w.1 <> 1) ws ->
  (size (list_to_set ws.*1 : gset Z) < NBUF)%nat -> Z.of_nat (size (list_to_set ws.*1 : gset Z)) < l_size s - 1 ->
  runs (run_tx ws) s (fun _ s' => exists tr,
    b_trace (l_bc s') = b_trace (l_bc s) ++ tr /\ home_eq (l_start s) (view (l_bc s')) new /\
    forall p, p `prefix_of` tr ->
      runs boot (boot_state junk (apply_writes p old) (b_size (l_bc s))) (fun _ s2 =>
        (home_eq (l_start s) (view (l_bc s2)) old /\ p <> tr) \/ home_eq (l_start s) (view (l_bc s2)) new)).
Proof.
  intros old new Q Hlb Hb Hst Hsz [Hsb1 Hsb2] Hws Hk1 Hk2.
  eapply runs_conseq; [apply (run_tx_runs s (bio_abs (l_bc s)) ws Q Hlb Hb); [|done|done]|].
  { eapply Forall_impl; [exact Hws|]. intros w [? _]. done. }
  intros [] s' (c' & tr & Q' & L1 & E1 & E2 & E3 & E4 & E5 & E6 & E7 & E8). exists tr.
  change (c_disk (bio_abs (l_bc s))) with old in E6, E7, E8. fold new in E7, E8.
  destruct (tx_at _ _ _ _ _ _ Q') as [_ (A1 & _ & _ & A4 & _)].
  split; [etrans; [exact A4|exact E5]|]. split; [intros m Hm; etrans; [apply A1|by apply E7]|].
  intros p Hp. destruct (E8 p Hp) as ((l & v & W) & Hrec & Heither).
  assert (Hone : apply_writes p old 1 = old 1).
  { destruct (Heither 1 ltac:(lia)) as [E|E]; [done|]. rewrite E. apply apply_writes_other.
    rewrite list_elem_of_fmap. intros (w & Ew & Hin). rewrite Forall_forall in Hws. by destruct (Hws w Hin) as [_ ?]. }
  eapply runs_conseq; [apply (boot_runs junk _ _ l v (l_start s) (l_size s)); try done|].
  - split; by rewrite Hone.
  - apply Q.
  - intros [] s2 Hs2. destruct (decide (p = tr)) as [->|Hne].
    + right. intros m Hm. rewrite (Hs2 m Hm), recovered_empty.
      * rewrite <- (E7 m Hm). rewrite <- E6. symmetry.
        apply (tx_clean _ _ _ _ _ _ Q'); [lia|set_solver|set_solver].
      * rewrite <- E6, <- E1. apply Q'.
    + destruct Hrec as [Hrec|Hrec]; [left; split; [|done]|right]; intros m Hm; rewrite (Hs2 m Hm); by apply Hrec.
Qed.

(** A disk of 20 blocks: the superblock places a log of ten blocks at block 10. *)
Definition zero_block : list Z := replicate (Z.to_nat BSIZE) 0.
Definition sample_disk : disk := fun n => if n =? 1 then put_le 4 0 20 (put_le 4 12 10 zero_block) else zero_block.
Definition sample_log : lst bst := Lst (empty_cache zero_block sample_disk 20) 10 10 0 1 0 (replicate (Z.to_nat LOGSIZE) 0).

Lemma sample_quiescent : quiescent sample_log (bio_abs (l_bc sample_log)).
Proof.
  apply quiescent_intro; try done.
  - split; [|done]. by exists (rev (seq 0 NBUF)); apply empty_cache_inv.
  - split; try done.
    + by intros x Hx%elem_of_nil.
    + constructor.
  - apply not_elem_of_nil.
Qed.

Definition block_of (x : Z) : list Z := replicate (Z.to_nat BSIZE) x.

Definition sample_writes : list (Z * list Z) := [(3, block_of 7); (4, block_of 8); (3, block_of 9)].

Lemma crash_recovery_atomic_witness :
  runs (run_tx sample_writes) sample_log (fun _ s' => exists tr,
    b_trace (l_bc s') = [] ++ tr /\ home_eq 10 (view (l_bc s')) (apply_writes sample_writes sample_disk) /\
    forall p, p `prefix_of` tr ->
      runs boot (boot_state [] (apply_writes p sample_disk) 20) (fun _ s2 =>
        (home_eq 10 (view (l_bc s2)) sample_disk /\ p <> tr) \/
        home_eq 10 (view (l_bc s2)) (apply_writes sample_writes sample_disk))).
Proof.
  apply (crash_recovery_atomic sample_log sample_writes []).
  - exact sample_quiescent.
  - reflexivity.
  - reflexivity.
  - reflexivity.
  - discriminate.
  - by split.
  - repeat constructor; simpl; lia.
  - apply Nat.ltb_lt. reflexivity.
  - reflexivity.
Defined.


(** A disk with a committed transaction: block 3 is in the log. *)
Definition committed_disk : disk := fun n =>
  if n =? 10 then put_head 1 (3 :: replicate 9 0) zero_block else if n =? 11 then block_of 7 else sample_disk n.

Lemma committed_disk_wf : log_wf 10 20 committed_disk [3] (fun _ => block_of 7).
Proof.
  split; try done; try (simpl; lia).
  - split; [reflexivity|]. intros i x Hi. apply list_lookup_singleton_Some in Hi as [-> <-]. split; reflexivity.
  - intros x Hx. apply list_elem_of_singleton in Hx as ->. lia.
  - apply NoDup_singleton.
Qed.


(** ** Where the capacity ends *)

Definition panics {S A} (o : outcome S A) (msg : string) : bool :=
  match o with Panic m _ => bool_decide (m = msg) | _ => false end.

Lemma panics_bind {S A C} (m : K S A) (f : A -> K S C) s msg : panics (m s) msg = true -> panics (kbind m f s) msg = true.
Proof. unfold kbind. by destruct (m s). Qed.

Lemma for_each_app {S X} (l1 l2 : list X) (f : X -> K S unit) s : for_each (l1 ++ l2) f s = (for_each l1 f ;;; for_each l2 f) s.
Proof.
  revert s. induction l1 as [|x l1 IH]; intros s; [done|]. cbn [app for_each]. unfold kbind at 1 2 3. destruct (f x s) as [[] s'| | |]; try done.
Qed.

(** One block more than nine. *)
Lemma tenth_write_panics (s : lst bst) c d0 t0 l n v : tx s c d0 t0 ∅ l -> c_busy c = ∅ -> l_busy s = 1 -> 0 <= n < l_start s -> n ∉ l -> length l = 9%nat ->
  panics (tx_write (n, v) s) (if l_size s <=? LOGSIZE then "too big a transaction" else "bget: no buffers") = true.
Proof.
  intros T Hb Hlb Hn Hnl Hlen. pose proof (tx_geom _ _ _ _ _ _ T) as G. pose proof (lg_room _ _ _ G) as Hroom.
  assert (Hsz : size (list_to_set l : gset Z) = 9%nat) by (rewrite size_list_to_set by apply G; done).
  unfold tx_write. cbn [fst snd]. apply (outcome_bind _ _ _ (fun o => panics o _ = true)). eapply runs_conseq; [apply (tx_bread s c d0 t0 ∅ l n T)|].
  - split; [lia|]. rewrite Hb. split; [set_solver|]. intros _. unfold pinned. rewrite Hb, union_empty_l_L, (tx_dirty _ _ _ _ _ _ T), Hsz. unfold NBUF. lia.
  - lia.
  - intros b s1 (T1 & Hh & (F1 & F2 & F3 & _) & _). apply (outcome_bind _ _ _ (fun o => panics o _ = true)). eapply runs_conseq; [by apply (tx_put s1 _ _ _ _ _ b n v T1)|].
    intros [] s2 (T2 & (J1 & J2 & J3 & _) & K2). specialize (K2 b n I Hh). rewrite <- F2, <- J2.
    destruct (holds_at s2 _ b n (tx_at _ _ _ _ _ _ T2) K2) as (Hsec & Hdev & _ & _).
    pose proof (tx_geom _ _ _ _ _ _ T2) as G2. pose proof (lg_n _ _ _ G2) as Hln. rewrite Hlen in Hln. unfold log_write, kbind at 1 2, kget.
    rewrite Hln. change (LOGSIZE <=? Z.of_nat 9) with false. cbn [orb]. destruct (l_size s2 <=? LOGSIZE) eqn:El.
    { apply Z.leb_le in El. change LOGSIZE with 10 in El. rewrite (proj2 (Z.leb_le _ _)) by (cbn; lia). cbn [panics kpanic]. by apply bool_decide_eq_true. }
    apply Z.leb_gt in El. change LOGSIZE with 10 in El. rewrite (proj2 (Z.leb_gt _ _)), (proj2 (Z.eqb_neq (l_busy s2) 0)) by (cbn; lia). rewrite Hsec, Hdev.
    assert (Ei : log_index n (l_sector s2) 0 (Z.to_nat (Z.of_nat 9)) = 9).
    { rewrite Nat2Z.id, <- Hlen. rewrite <- (take_drop (length l) (l_sector s2)), (lg_list _ _ _ G2).
      rewrite log_index_spec by (intros y Hy; pose proof (lg_home _ _ _ G2 y Hy); pose proof (lg_size _ _ _ G2); pose proof (tx_size _ _ _ _ _ _ T2); lia). rewrite index_of_out by done. by rewrite Hlen. }
    rewrite Ei. unfold kbind at 1, kmod at 1. set (s3 := set_l_sector _ _ s2). change (l_bc s2) with (l_bc s3).
    pose proof (tx_at _ _ _ _ _ _ T2) as ((r & Hinv) & Ha). change (l_bc s2) with (l_bc s3) in Hinv, Ha. destruct Ha as (_ & _ & _ & _ & A5 & A6). change (sectors busy_buf (l_bc s3) = {[ n ]} ∪ c_busy c) in A5. change (sectors dirty_buf (l_bc s3) = c_dirty c) in A6. rewrite Hb, union_empty_r_L in A5. rewrite (tx_dirty _ _ _ _ _ _ T) in A6.
    pose proof (lg_size _ _ _ G2) as Hs32. pose proof (tx_size _ _ _ _ _ _ T2) as Hfit. pose proof (lg_start _ _ _ G2) as Hst. cbn [c_size set_view set_busy] in Hfit, Hs32. rewrite u32_small by lia.
    destruct (bread_no_buffers (l_bc s3) r (l_start s2 + 9 + 1) Hinv) as (s4 & E4).
    + rewrite A5, A6, size_union by set_solver. by rewrite size_singleton, Hsz.
    + rewrite A5, A6. rewrite elem_of_union, elem_of_singleton, elem_of_list_to_set. intros [Hx|Hx]; [lia|]. pose proof (lg_home _ _ _ G2 _ Hx). lia.
    + unfold kbind, lift_b. change (bc_bread 1) with (bread 1). rewrite E4. by apply bool_decide_eq_true.
Qed.

(** C40: the log never holds its [LOGSIZE] = 10 blocks.  Start from a log at rest in a system with no buffer in use, with at least ten blocks including its header, as mkfs makes it.  A transaction that writes any nine different blocks commits them;
    one that goes on to write a tenth panics, whatever follows: in a log of exactly ten blocks because it is too big a transaction, and in a longer one
    because the nine dirty buffers, the tenth block and its copy do not fit in the [NBUF] = 10 buffers. *)
Theorem log_capacity (s : lst bst) ws w rest (c := bio_abs (l_bc s)) : quiescent s c -> l_busy s = 0 -> c_busy c = ∅ -> LOGSIZE <= l_size s ->
  Forall (fun x => 0 <= x.1 < l_start s) (ws ++ [w]) -> NoDup (ws ++ [w]).*1 -> length ws = 9%nat ->
  runs (run_tx ws) s (fun _ s' => exists c', quiescent s' c' /\ l_busy s' = 0 /\ home_eq (l_start s) (c_disk c') (apply_writes ws (c_disk c))) /\
  panics (run_tx (ws ++ w :: rest) s) (if l_size s <=? LOGSIZE then "too big a transaction" else "bget: no buffers") = true.
Proof.
  intros Q Hlb Hb Hls Hr Hnd Hlen. change LOGSIZE with 10 in Hls. apply Forall_app in Hr as [Hr [Hrw _]%Forall_cons]. rewrite fmap_app in Hnd.
  assert (W : forall s1, quiescent s1 c -> l_busy s1 = 1 -> l_start s1 = l_start s -> l_size s1 = l_size s -> runs (for_each ws tx_write) s1 (fun _ s' => exists c', tx s' c' (c_disk c) (c_trace c) ∅ ws.*1 /\ c_busy c' = ∅ /\ l_busy s' = 1 /\
    l_start s' = l_start s1 /\ l_size s' = l_size s1 /\ forall m, 0 <= m < l_start s1 -> c_view c' m = apply_writes ws (c_view c) m)).
  { intros s1 Q1 L1 E1 E2. apply (tx_fresh_writes_runs ws s1 c (c_disk c) (c_trace c) [] Q1 Hb L1); rewrite ?E1, ?E2; cbn [app length]; try done; [|unfold NBUF; lia|lia]. by apply NoDup_app in Hnd as (? & _). }
  split.
  - unfold run_tx. apply runs_bind. eapply runs_conseq; [by apply (begin_trans_runs s c)|]. intros [] s1 (Q1 & L1 & E1 & E2 & _). apply runs_bind.
    eapply runs_conseq; [by apply W|]. intros [] s2 (c2 & T2 & B2 & L2 & J1 & J2 & V2).
    eapply runs_conseq; [apply (commit_trans_runs s2 c2 _ _ _ T2)|].
    + unfold pinned. rewrite B2, union_empty_l_L, (tx_dirty _ _ _ _ _ _ T2). pose proof (size_list_le ws.*1) as Hle. rewrite length_fmap in Hle. unfold NBUF. lia.
    + intros x _. rewrite B2. set_solver.
    + intros [] s3 [(c3 & tr & Q3 & M1 & M2 & M3 & M4 & M5 & M6 & M7 & M8) [L3 _]]. exists c3. split_and!; try done.
      intros m Hm. rewrite <- (tx_clean _ _ _ _ _ _ Q3 m) by (rewrite ?M1, ?J1, ?E1; (lia || set_solver)). rewrite M5 by (rewrite J1, E1; lia). rewrite V2 by (rewrite E1; lia).
      apply apply_writes_ext. apply (tx_clean _ _ _ _ _ _ Q m Hm); set_solver.
  - unfold run_tx. apply (outcome_bind _ _ _ (fun o => panics o _ = true)). eapply runs_conseq; [by apply (begin_trans_runs s c)|]. intros [] s1 (Q1 & L1 & E1 & E2 & _).
    assert (Hp : panics (for_each (ws ++ w :: rest) tx_write s1) (if l_size s <=? LOGSIZE then "too big a transaction" else "bget: no buffers") = true).
    { rewrite for_each_app. apply (outcome_bind _ _ _ (fun o => panics o _ = true)). eapply runs_conseq; [by apply W|]. intros [] s2 (c2 & T2 & B2 & L2 & J1 & J2 & V2). cbn [for_each].
      destruct w as [n v]. cbn [fst] in *. rewrite <- E2, <- J2. apply panics_bind. apply (tenth_write_panics s2 c2 _ _ _ n v T2 B2 L2); [rewrite J1, E1; done| |by rewrite length_fmap].
      apply NoDup_app in Hnd as (_ & Hx & _). intros Hin. apply (Hx n Hin). left. }
    by apply panics_bind.
Qed.

Lemma log_capacity_witness : panics (run_tx (((fun n => (n, block_of n)) <$> seqZ 0 9) ++ [(9, block_of 9)]) sample_log) "too big a transaction" = true.
Proof.
  refine (proj2 (log_capacity sample_log ((fun n => (n, block_of n)) <$> seqZ 0 9) (9, block_of 9) [] sample_quiescent eq_refl _ _ _ _ _)).
  - by vm_compute.
  - by vm_compute.
  - apply (bool_decide_unpack _). by vm_compute.
  - apply (bool_decide_unpack _). by vm_compute.
  - reflexivity.
Defined.
