(* ===== verification/Fs.v ===== *)
(** * The file system: fs.c

    Over the log and the cache ([lst B]) the state has the inode cache, fifty [struct inode].
    An [struct inode*] is an index into it, so the tests for a null pointer in [ilock] and
    [iunlock] are settled by the type; a function that may return 0 returns an option.  A
    [char*] to data is the list of the bytes: [readi] returns what it stores at [dst], and [writei] takes
    the bytes at [src].  The table [devsw] is an argument of the code that uses it.

    A wait ([sleep] in [ilock]) gives up the CPU with [Block]. *)

From S2P Require Import Prelude Bio BufferCache Bytes Log.

Definition NINODE : nat := 50.
Definition NDEV : Z := 10.
Definition ROOTINO : Z := 1.
Definition NDIRECT : Z := 12.
Definition NINDIRECT : Z := 128.
Definition MAXFILE : Z := NDIRECT + NINDIRECT.
Definition IPB : Z := 8.
Definition BPB : Z := BSIZE * 8.
Definition DIRSIZ : Z := 14.
Definition SIZEOF_DIRENT : Z := 16.
Definition SIZEOF_DINODE : Z := 64.
Definition T_DIR : Z := 1.
Definition T_FILE : Z := 2.
Definition T_DEV : Z := 3.
Definition I_BUSY : Z := 1.
Definition I_VALID : Z := 2.

Definition IBLOCK (i : Z) : Z := i / IPB + 2.
Definition BBLOCK (b ninodes : Z) : Z := b / BPB + ninodes / IPB + 3.

(** The fields an inode has on disk and in memory: [struct dinode]. *)
Record dinode := Dinode { d_type : Z; d_major : Z; d_minor : Z; d_nlink : Z; d_size : Z; d_addrs : list Z }.

(** [struct inode] *)
Record inode := Inode { i_dev : Z; i_inum : Z; i_ref : Z; i_flags : Z; i_d : dinode }.

Definition zero_dinode : dinode := Dinode 0 0 0 0 0 (replicate 13 0).
Definition null_inode : inode := Inode 0 0 0 0 zero_dinode.

Definition set_type (v : Z) (d : dinode) : dinode := Dinode v (d_major d) (d_minor d) (d_nlink d) (d_size d) (d_addrs d).
Definition set_dev (v w : Z) (d : dinode) : dinode := Dinode (d_type d) v w (d_nlink d) (d_size d) (d_addrs d).
Definition set_nlink (v : Z) (d : dinode) : dinode := Dinode (d_type d) (d_major d) (d_minor d) v (d_size d) (d_addrs d).
Definition set_size (v : Z) (d : dinode) : dinode := Dinode (d_type d) (d_major d) (d_minor d) (d_nlink d) v (d_addrs d).
Definition set_addr (i : nat) (v : Z) (d : dinode) : dinode :=
  Dinode (d_type d) (d_major d) (d_minor d) (d_nlink d) (d_size d) (<[ i := v ]> (d_addrs d)).

Definition set_i_ref (v : Z) (i : inode) : inode := Inode (i_dev i) (i_inum i) v (i_flags i) (i_d i).
Definition set_i_flags (v : Z) (i : inode) : inode := Inode (i_dev i) (i_inum i) (i_ref i) v (i_d i).
Definition set_i_d (v : dinode) (i : inode) : inode := Inode (i_dev i) (i_inum i) (i_ref i) (i_flags i) v.

(** [struct stat] *)
Record stat := Stat { st_type : Z; st_dev : Z; st_ino : Z; st_nlink : Z; st_size : Z }.

(** The [struct dinode] at byte [off] of a block. *)
Fixpoint get_words (n off : nat) (blk : list Z) : list Z :=
  match n with
  | O => []
  | S n' => get_le 4 off blk :: get_words n' (off + 4) blk
  end.

Definition get_dinode (off : nat) (blk : list Z) : dinode :=
  Dinode (s16 (get_le 2 off blk)) (s16 (get_le 2 (off + 2) blk)) (s16 (get_le 2 (off + 4) blk))
    (s16 (get_le 2 (off + 6) blk)) (get_le 4 (off + 8) blk) (get_words 13 (off + 12) blk).

Definition put_dinode (off : nat) (d : dinode) (blk : list Z) : list Z :=
  put_sectors (d_addrs d) (off + 12) (put_le 4 (off + 8) (d_size d) (put_le 2 (off + 6) (d_nlink d)
    (put_le 2 (off + 4) (d_minor d) (put_le 2 (off + 2) (d_major d) (put_le 2 off (d_type d) blk))))).

Definition dinode_off (inum : Z) : nat := Z.to_nat (inum mod IPB * SIZEOF_DINODE).

(** The state: the log with the cache below it, and [icache.inode]. *)
Record fsys (B : Type) := Fsys { f_log : lst B; f_inode : list inode }.
Arguments Fsys {B}.
Arguments f_log {B}.
Arguments f_inode {B}.

Section Fs.
Context {B : Type} {OPS : BufferOps B}.

Definition set_f_log (v : lst B) (s : fsys B) : fsys B := Fsys v (f_inode s).
Definition set_f_inode (v : list inode) (s : fsys B) : fsys B := Fsys (f_log s) v.

#[global] Instance fsys_locks : HasLocks (fsys B).
Proof.
  refine {| held := fun s => held (f_log s); set_held := fun l s => set_f_log (set_held l (f_log s)) s |}; intros.
  - apply held_set_held.
  - destruct s. unfold set_f_log. by rewrite set_held_held.
  - unfold set_f_log. cbn [f_log f_inode]. by rewrite set_held_set_held.
Defined.

Definition lift_l {A} (m : K (lst B) A) : K (fsys B) A := fun s =>
  match m (f_log s) with
  | Ok a l => Ok a (set_f_log l s)
  | Panic msg l => Panic msg (set_f_log l s)
  | Block c l => Block c (set_f_log l s)
  | NoFuel => NoFuel
  end.

Definition f_bread (d n : Z) : K (fsys B) nat := lift_l (lift_b (bc_bread d n)).
Definition f_brelse (b : nat) : K (fsys B) unit := lift_l (lift_b (bc_brelse b)).
Definition f_data (b : nat) : K (fsys B) (list Z) := lift_l (buf_data b).
Definition f_put (b : nat) (v : list Z) : K (fsys B) unit := lift_l (lift_b (bc_put b v)).
Definition f_log_write (b : nat) : K (fsys B) unit := lift_l (log_write b).

Definition inode_at (s : fsys B) (ip : nat) : inode := nth ip (f_inode s) null_inode.
Definition geti {A} (ip : nat) (f : inode -> A) : K (fsys B) A := kgets (fun s => f (inode_at s ip)).
Definition seti (ip : nat) (f : inode -> inode) : K (fsys B) unit := kmod (fun s => set_f_inode (alter f ip (f_inode s)) s).
Definition setd (ip : nat) (f : dinode -> dinode) : K (fsys B) unit := seti ip (fun i => set_i_d (f (i_d i)) i).

(** ** Blocks *)

Definition bzero (d bno : Z) : K (fsys B) unit :=
  let* bp := f_bread d bno in
  f_put bp (replicate (Z.to_nat BSIZE) 0) ;;;
  f_log_write bp ;;;
  f_brelse bp.

(** The bit of block [bi] in a bitmap block, and the block with the bit changed. *)
Definition bit_free (blk : list Z) (bi : Z) : bool :=
  Z.land (nth (Z.to_nat (bi / 8)) blk 0) (Z.shiftl 1 (bi mod 8)) =? 0.
Definition set_bit (blk : list Z) (bi : Z) : list Z :=
  alter (fun x => u8 (Z.lor x (Z.shiftl 1 (bi mod 8)))) (Z.to_nat (bi / 8)) blk.
Definition clear_bit (blk : list Z) (bi : Z) : list Z :=
  alter (fun x => u8 (Z.land x (Z.lnot (Z.shiftl 1 (bi mod 8))))) (Z.to_nat (bi / 8)) blk.

(** The first values of the loop variables of [balloc]: [b] steps by [BPB]. *)
Definition bitmap_starts (size : Z) : list Z := (fun k => k * BPB) <$> seqZ 0 ((size + BPB - 1) / BPB).

Definition balloc (d : Z) : K (fsys B) Z :=
  let* sb := lift_l (readsb d) in
  let* r := for_first (bitmap_starts (sb_size sb)) (fun b =>
    let* bp := f_bread d (BBLOCK b (sb_ninodes sb)) in
    let* blk := f_data bp in
    match find (bit_free blk) (seqZ 0 (Z.min BPB (sb_size sb - b))) with
    | Some bi =>
        f_put bp (set_bit blk bi) ;;;
        f_log_write bp ;;;
        f_brelse bp ;;;
        bzero d (b + bi) ;;;
        kret (Some (b + bi))
    | None => f_brelse bp ;;; kret None
    end) in
  match r with
  | Some n => kret n
  | None => kpanic "balloc: out of blocks"
  end.

Definition bfree (d b : Z) : K (fsys B) unit :=
  let* sb := lift_l (readsb d) in
  let* bp := f_bread d (BBLOCK b (sb_ninodes sb)) in
  let* blk := f_data bp in
  let bi := b mod BPB in
  if bit_free blk bi then kpanic "freeing free block"
  else
    f_put bp (clear_bit blk bi) ;;;
    f_log_write bp ;;;
    f_brelse bp.

(** ** Inodes *)

(** One step of the search of [iget]: the entry found, or the first empty one. *)
Fixpoint iget_scan (d inum : Z) (l : list inode) (i : nat) (empty : option nat) : nat + option nat :=
  match l with
  | [] => inr empty
  | x :: l' =>
      if (0 <? i_ref x) && (i_dev x =? d) && (i_inum x =? inum) then inl i
      else iget_scan d inum l' (S i)
        (if bool_decide (empty = None) && (i_ref x =? 0) then Some i else empty)
  end.

Definition iget (d inum : Z) : K (fsys B) nat :=
  acquire lk_icache ;;;
  let* l := kgets f_inode in
  match iget_scan d inum l 0 None with
  | inl ip =>
      seti ip (fun i => set_i_ref (i_ref i + 1) i) ;;;
      release lk_icache ;;;
      kret ip
  | inr None => kpanic "iget: no inodes"
  | inr (Some ip) =>
      seti ip (fun i => Inode d inum 1 0 (i_d i)) ;;;
      release lk_icache ;;;
      kret ip
  end.

Definition idup (ip : nat) : K (fsys B) nat :=
  acquire lk_icache ;;;
  seti ip (fun i => set_i_ref (i_ref i + 1) i) ;;;
  release lk_icache ;;;
  kret ip.

Definition ialloc (d type : Z) : K (fsys B) nat :=
  let* sb := lift_l (readsb d) in
  let* r := for_first (seqZ 1 (sb_ninodes sb - 1)) (fun inum =>
    let* bp := f_bread d (IBLOCK inum) in
    let* blk := f_data bp in
    if s16 (get_le 2 (dinode_off inum) blk) =? 0 then
      f_put bp (put_le 2 (dinode_off inum) type
        (splice (dinode_off inum) (replicate (Z.to_nat SIZEOF_DINODE) 0) blk)) ;;;
      f_log_write bp ;;;
      f_brelse bp ;;;
      let* ip := iget d inum in
      kret (Some ip)
    else f_brelse bp ;;; kret None) in
  match r with
  | Some ip => kret ip
  | None => kpanic "ialloc: no inodes"
  end.

Definition iupdate (ip : nat) : K (fsys B) unit :=
  let* i := geti ip (fun i => i) in
  let* bp := f_bread (i_dev i) (IBLOCK (i_inum i)) in
  let* blk := f_data bp in
  f_put bp (put_dinode (dinode_off (i_inum i)) (i_d i) blk) ;;;
  f_log_write bp ;;;
  f_brelse bp.

Definition ilock (ip : nat) : K (fsys B) unit :=
  let* i := geti ip (fun i => i) in
  if i_ref i <? 1 then kpanic "ilock"
  else
    acquire lk_icache ;;;
    let* fl := geti ip i_flags in
    if has fl I_BUSY then
      release lk_icache ;;;
      kblock (ch_inode ip)
    else
      seti ip (fun i => set_i_flags (Z.lor (i_flags i) I_BUSY) i) ;;;
      release lk_icache ;;;
      let* i := geti ip (fun i => i) in
      when negb (has (i_flags i) I_VALID) do
        (let* bp := f_bread (i_dev i) (IBLOCK (i_inum i)) in
         let* blk := f_data bp in
         setd ip (fun _ => get_dinode (dinode_off (i_inum i)) blk) ;;;
         f_brelse bp ;;;
         seti ip (fun i => set_i_flags (Z.lor (i_flags i) I_VALID) i) ;;;
         let* t := geti ip (fun i => d_type (i_d i)) in
         if t =? 0 then kpanic "ilock: no type" else kret tt).

(** The [wakeup(ip)] here and in [iput] acts on the process table only. *)
Definition iunlock (ip : nat) : K (fsys B) unit :=
  let* i := geti ip (fun i => i) in
  if negb (has (i_flags i) I_BUSY) || (i_ref i <? 1) then kpanic "iunlock"
  else
    acquire lk_icache ;;;
    seti ip (fun i => set_i_flags (Z.land (i_flags i) (Z.lnot I_BUSY)) i) ;;;
    release lk_icache.

(** ** Inode content *)

(** Entry [i] of [ip->addrs]. *)
Definition addr_at (d : dinode) (i : Z) : Z := nth (Z.to_nat i) (d_addrs d) 0.

Definition bmap (ip : nat) (bn : Z) : K (fsys B) Z :=
  let* i := geti ip (fun i => i) in
  if bn <? NDIRECT then
    let addr := addr_at (i_d i) bn in
    if addr =? 0 then
      let* addr := balloc (i_dev i) in
      setd ip (set_addr (Z.to_nat bn) addr) ;;;
      kret addr
    else kret addr
  else
    let bn := bn - NDIRECT in
    if bn <? NINDIRECT then
      let* addr :=
        (if addr_at (i_d i) NDIRECT =? 0 then
           let* addr := balloc (i_dev i) in
           setd ip (set_addr (Z.to_nat NDIRECT) addr) ;;;
           kret addr
         else kret (addr_at (i_d i) NDIRECT)) in
      let* bp := f_bread (i_dev i) addr in
      let* blk := f_data bp in
      let addr := get_le 4 (Z.to_nat (4 * bn)) blk in
      let* addr :=
        (if addr =? 0 then
           let* addr := balloc (i_dev i) in
           let* blk := f_data bp in
           f_put bp (put_le 4 (Z.to_nat (4 * bn)) addr blk) ;;;
           f_log_write bp ;;;
           kret addr
         else kret addr) in
      f_brelse bp ;;;
      kret addr
    else kpanic "bmap: out of range".

Definition itrunc (ip : nat) : K (fsys B) unit :=
  for_each (seqZ 0 NDIRECT) (fun k =>
    let* i := geti ip (fun i => i) in
    when negb (addr_at (i_d i) k =? 0) do
      (bfree (i_dev i) (addr_at (i_d i) k) ;;;
       setd ip (set_addr (Z.to_nat k) 0))) ;;;
  let* i := geti ip (fun i => i) in
  (when negb (addr_at (i_d i) NDIRECT =? 0) do
     (let* bp := f_bread (i_dev i) (addr_at (i_d i) NDIRECT) in
      for_each (seqZ 0 NINDIRECT) (fun j =>
        let* a := f_data bp in
        when negb (get_le 4 (Z.to_nat (4 * j)) a =? 0) do
          bfree (i_dev i) (get_le 4 (Z.to_nat (4 * j)) a)) ;;;
      f_brelse bp ;;;
      bfree (i_dev i) (addr_at (i_d i) NDIRECT) ;;;
      setd ip (set_addr (Z.to_nat NDIRECT) 0))) ;;;
  setd ip (set_size 0) ;;;
  iupdate ip.

Definition iput (ip : nat) : K (fsys B) unit :=
  acquire lk_icache ;;;
  let* i := geti ip (fun i => i) in
  (when (i_ref i =? 1) && has (i_flags i) I_VALID && (d_nlink (i_d i) =? 0) do
     (if has (i_flags i) I_BUSY then kpanic "iput busy"
      else
        seti ip (fun i => set_i_flags (Z.lor (i_flags i) I_BUSY) i) ;;;
        release lk_icache ;;;
        itrunc ip ;;;
        setd ip (set_type 0) ;;;
        iupdate ip ;;;
        acquire lk_icache ;;;
        seti ip (set_i_flags 0))) ;;;
  seti ip (fun i => set_i_ref (i_ref i - 1) i) ;;;
  release lk_icache.

Definition iunlockput (ip : nat) : K (fsys B) unit :=
  iunlock ip ;;;
  iput ip.

Definition stati (ip : nat) : K (fsys B) stat :=
  geti ip (fun i => Stat (d_type (i_d i)) (i_dev i) (i_inum i) (d_nlink (i_d i)) (d_size (i_d i))).

(** [devsw]: the driver of a major device number, if it has one.  A read gives its result and the
    bytes it stored, a write takes the bytes. *)
Variable devsw_read : Z -> option (nat -> Z -> K (fsys B) (Z * list Z)).
Variable devsw_write : Z -> option (nat -> list Z -> Z -> K (fsys B) Z).

(** The loop of [readi]; [acc] is what has been copied to [dst] so far. *)
Fixpoint readi_loop (ip : nat) (off n tot : Z) (acc : list Z) (fuel : nat) : K (fsys B) (list Z) :=
  if tot <? n then
    match fuel with
    | O => knofuel
    | S fuel' =>
        let* d := geti ip i_dev in
        let* addr := bmap ip (off / BSIZE) in
        let* bp := f_bread d addr in
        let* blk := f_data bp in
        let m := Z.min (n - tot) (BSIZE - off mod BSIZE) in
        f_brelse bp ;;;
        readi_loop ip (u32 (off + m)) n (tot + m) (acc ++ take (Z.to_nat m) (drop (Z.to_nat (off mod BSIZE)) blk)) fuel'
    end
  else kret acc.

(** Each round after the first copies a whole block or the rest. *)
Definition rw_fuel (n : Z) : nat := Z.to_nat (n / BSIZE) + 2.

Definition readi (ip : nat) (off n : Z) : K (fsys B) (Z * list Z) :=
  let* i := geti ip (fun i => i) in
  if d_type (i_d i) =? T_DEV then
    if (d_major (i_d i) <? 0) || (NDEV <=? d_major (i_d i)) then kret (-1, [])
    else
      match devsw_read (d_major (i_d i)) with
      | None => kret (-1, [])
      | Some read => read ip (s32 n)
      end
  else if (d_size (i_d i) <? off) || (u32 (off + n) <? off) then kret (-1, [])
  else
    let n := if d_size (i_d i) <? off + n then d_size (i_d i) - off else n in
    let* bytes := readi_loop ip off n 0 [] (rw_fuel n) in
    kret (s32 n, bytes).

Fixpoint writei_loop (ip : nat) (src : list Z) (off n tot : Z) (fuel : nat) : K (fsys B) Z :=
  if tot <? n then
    match fuel with
    | O => knofuel
    | S fuel' =>
        let* d := geti ip i_dev in
        let* addr := bmap ip (off / BSIZE) in
        let* bp := f_bread d addr in
        let* blk := f_data bp in
        let m := Z.min (n - tot) (BSIZE - off mod BSIZE) in
        f_put bp (splice (Z.to_nat (off mod BSIZE)) (take (Z.to_nat m) (drop (Z.to_nat tot) src)) blk) ;;;
        f_log_write bp ;;;
        f_brelse bp ;;;
        writei_loop ip src (u32 (off + m)) n (tot + m) fuel'
    end
  else kret off.

Definition writei (ip : nat) (src : list Z) (off n : Z) : K (fsys B) Z :=
  let* i := geti ip (fun i => i) in
  if d_type (i_d i) =? T_DEV then
    if (d_major (i_d i) <? 0) || (NDEV <=? d_major (i_d i)) then kret (-1)
    else
      match devsw_write (d_major (i_d i)) with
      | None => kret (-1)
      | Some write => write ip src (s32 n)
      end
  else if (d_size (i_d i) <? off) || (u32 (off + n) <? off) then kret (-1)
  else if MAXFILE * BSIZE <? off + n then kret (-1)
  else
    let* off' := writei_loop ip src off n 0 (rw_fuel n) in
    let* sz := geti ip (fun i => d_size (i_d i)) in
    (when (0 <? n) && (sz <? off') do
       (setd ip (set_size off') ;;;
        iupdate ip)) ;;;
    kret (s32 n).

(** ** Directories *)

(** [strncmp] and [strncpy] on the bytes of names; the bytes after the end of a list read as 0. *)
Fixpoint strncmp_l (n : nat) (p q : list Z) : Z :=
  match n with
  | O => 0
  | S n' =>
      let a := hd 0 p in
      let b := hd 0 q in
      if negb (a =? 0) && (a =? b) then strncmp_l n' (tl p) (tl q)
      else u8 a - u8 b
  end.

Fixpoint strncpy_l (n : nat) (t : list Z) : list Z :=
  match n with
  | O => []
  | S n' =>
      let a := hd 0 t in
      if a =? 0 then replicate n 0 else a :: strncpy_l n' (tl t)
  end.

Definition namecmp (s t : list Z) : Z := strncmp_l (Z.to_nat DIRSIZ) s t.

(** [struct dirent] in its sixteen bytes. *)
Definition de_inum (de : list Z) : Z := get_le 2 0 de.
Definition de_name (de : list Z) : list Z := take (Z.to_nat DIRSIZ) (drop 2 de).
Definition dirent (inum : Z) (name : list Z) : list Z := le_bytes 2 inum ++ strncpy_l (Z.to_nat DIRSIZ) name.

(** The offsets of the entries of a directory of this size. *)
Definition dir_offsets (from size : Z) : list Z :=
  (fun k => from + k * SIZEOF_DIRENT) <$> seqZ 0 ((size - from + SIZEOF_DIRENT - 1) / SIZEOF_DIRENT).

(** The inode of the entry and its offset. *)
Definition dirlookup (dp : nat) (name : list Z) : K (fsys B) (option (nat * Z)) :=
  let* i := geti dp (fun i => i) in
  if negb (d_type (i_d i) =? T_DIR) then kpanic "dirlookup not DIR"
  else
    for_first (dir_offsets 0 (d_size (i_d i))) (fun off =>
      let* (r, de) := readi dp off SIZEOF_DIRENT in
      if negb (r =? SIZEOF_DIRENT) then kpanic "dirlink read"
      else if de_inum de =? 0 then kret None
      else if namecmp name (de_name de) =? 0 then
        let* ip := iget (i_dev i) (de_inum de) in
        kret (Some (ip, off))
      else kret None).

Definition dirlink (dp : nat) (name : list Z) (inum : Z) : K (fsys B) Z :=
  let* r := dirlookup dp name in
  match r with
  | Some (ip, _) =>
      iput ip ;;;
      kret (-1)
  | None =>
      let* size := geti dp (fun i => d_size (i_d i)) in
      let* e := for_first (dir_offsets 0 size) (fun off =>
        let* (r, de) := readi dp off SIZEOF_DIRENT in
        if negb (r =? SIZEOF_DIRENT) then kpanic "dirlink read"
        else if de_inum de =? 0 then kret (Some off)
        else kret None) in
      let off := match e with
                 | Some off => off
                 | None => (size + SIZEOF_DIRENT - 1) / SIZEOF_DIRENT * SIZEOF_DIRENT
                 end in
      let* r := writei dp (dirent inum name) off SIZEOF_DIRENT in
      if negb (r =? SIZEOF_DIRENT) then kpanic "dirlink"
      else kret 0
  end.

(** ** Paths *)

Definition slash : Z := 47.

Fixpoint skip_slashes (path : list Z) : list Z :=
  match path with
  | c :: path' => if c =? slash then skip_slashes path' else path
  | [] => []
  end.

(** The element at the front of the path, and the rest. *)
Fixpoint take_elem (path : list Z) : list Z * list Z :=
  match path with
  | c :: path' => if c =? slash then ([], path) else let '(e, r) := take_elem path' in (c :: e, r)
  | [] => ([], [])
  end.

(** A path is the list of its bytes without the final 0; [name] is the array of [DIRSIZ]
    bytes before the call, and the result has the array after it. *)
Definition skipelem (path name : list Z) : option (list Z * list Z) :=
  match skip_slashes path with
  | [] => None
  | path1 =>
      let '(s, path2) := take_elem path1 in
      let len := Z.of_nat (length s) in
      let name' := if DIRSIZ <=? len then take (Z.to_nat DIRSIZ) s
                   else splice 0 (s ++ [0]) name in
      Some (skip_slashes path2, name')
  end.

Fixpoint namex_loop (path name : list Z) (nameiparent : bool) (ip : nat) (fuel : nat) : K (fsys B) (option nat * list Z) :=
  match fuel with
  | O => knofuel
  | S fuel' =>
      match skipelem path name with
      | None =>
          if nameiparent then
            iput ip ;;;
            kret (None, name)
          else kret (Some ip, name)
      | Some (path', name') =>
          ilock ip ;;;
          let* t := geti ip (fun i => d_type (i_d i)) in
          if negb (t =? T_DIR) then
            iunlockput ip ;;;
            kret (None, name')
          else if nameiparent && bool_decide (path' = []) then
            iunlock ip ;;;
            kret (Some ip, name')
          else
            let* r := dirlookup ip name' in
            match r with
            | None =>
                iunlockput ip ;;;
                kret (None, name')
            | Some (next, _) =>
                iunlockput ip ;;;
                namex_loop path' name' nameiparent next fuel'
            end
      end
  end.

(** [cwd] is [proc->cwd]. *)
Definition namex (cwd : nat) (path : list Z) (nameiparent : bool) (name : list Z) : K (fsys B) (option nat * list Z) :=
  let* ip := (if hd 0 path =? slash then iget ROOTDEV ROOTINO else idup cwd) in
  namex_loop path name nameiparent ip (S (length path)).

Definition namei (cwd : nat) (path : list Z) : K (fsys B) (option nat) :=
  let* (ip, _) := namex cwd path false (replicate (Z.to_nat DIRSIZ) 0) in
  kret ip.

Definition nameiparent (cwd : nat) (path name : list Z) : K (fsys B) (option nat * list Z) :=
  namex cwd path true name.
End Fs.
