(* ===== verification/FsLayout.v ===== *)
(** * The layout of a file system: blocks, the bitmap, and the blocks of a file

    The pure part of the specification of fs.c.  A disk is a function from block numbers to
    blocks.  [fs_wf] is a well-formed file system whose bitmap is one block (as mkfs.c makes
    it: 1024 blocks), [file_wf] a well-formed inode in it, and [content] the bytes of the
    file.  [evolve] is what an operation on one file may do to the rest of the file system. *)

From S2P Require Import Prelude Bio BufferCache Bytes Log LogSpec Fs.

(** ** Inodes on disk *)

Lemma put_sectors_outside l : forall off blk k off', (off + 4 * length l <= length blk)%nat ->
  (off' + k <= off \/ off + 4 * length l <= off')%nat -> get_le k off' (put_sectors l off blk) = get_le k off' blk.
Proof.
  induction l as [|x l IH]; intros off blk k off' Hl Hd; simpl in *; [done|].
  rewrite IH by (rewrite ?length_put_le; lia). apply get_put_other; lia.
Qed.

Lemma length_put_sectors l : forall off blk, (off + 4 * length l <= length blk)%nat -> length (put_sectors l off blk) = length blk.
Proof.
  induction l as [|x l IH]; intros off blk Hl; simpl in *; [done|].
  rewrite IH; rewrite length_put_le; lia.
Qed.

Lemma put_sectors_words l : forall off blk, (off + 4 * length l <= length blk)%nat ->
  get_words (length l) off (put_sectors l off blk) = u32 <$> l.
Proof.
  induction l as [|x l IH]; intros off blk Hl; simpl in *; [done|]. f_equal.
  - rewrite put_sectors_outside by (rewrite ?length_put_le; lia). by rewrite get_put_same by lia.
  - apply IH. rewrite length_put_le; lia.
Qed.

Lemma get_words_ext n : forall off blk blk', (forall k, (off <= k)%nat -> (k + 4 <= off + 4 * n)%nat -> get_le 4 k blk = get_le 4 k blk') ->
  get_words n off blk = get_words n off blk'.
Proof.
  induction n as [|n IH]; intros off blk blk' Hk; [done|]. simpl. f_equal; [apply Hk; lia|].
  apply IH. intros k H1 H2. apply Hk; lia.
Qed.

(** The ranges of the fields of a [struct dinode]. *)
Definition is_short (z : Z) : Prop := -32768 <= z < 32768.
Definition is_uint (z : Z) : Prop := 0 <= z < 4294967296.
Definition dinode_typed (d : dinode) : Prop :=
  is_short (d_type d) /\ is_short (d_major d) /\ is_short (d_minor d) /\ is_short (d_nlink d) /\ is_uint (d_size d) /\
  length (d_addrs d) = 13%nat /\ Forall is_uint (d_addrs d).

Lemma s16_mod z : is_short z -> s16 (z mod 256 ^ Z.of_nat 2) = z.
Proof. unfold is_short, s16. change (256 ^ Z.of_nat 2) with 65536. mlia. Qed.

Ltac len_puts := first [ lia | rewrite length_put_le; len_puts | rewrite length_put_sectors; len_puts ].

Lemma length_put_dinode off d blk : (off + 12 + 4 * length (d_addrs d) <= length blk)%nat -> length (put_dinode off d blk) = length blk.
Proof. intros Hl. unfold put_dinode. len_puts. Qed.

(** Storing an inode and reading it back. *)
Lemma get_put_dinode off d blk : dinode_typed d -> (off + 64 <= length blk)%nat -> get_dinode off (put_dinode off d blk) = d.
Proof.
  intros (H1 & H2 & H3 & H4 & H5 & H6 & H7) Hl. destruct d as [ty ma mi nl sz ad]. simpl in *.
  unfold get_dinode, put_dinode. cbn [d_type d_major d_minor d_nlink d_size d_addrs].
  rewrite !put_sectors_outside by len_puts.
  f_equal.
  1-5: repeat (rewrite get_put_other by len_puts); rewrite get_put_same by len_puts; try by apply s16_mod.
  - unfold is_uint in H5. change (256 ^ Z.of_nat 4) with 4294967296. by rewrite Z.mod_small.
  - rewrite <- H6, put_sectors_words by len_puts. clear -H7.
    induction H7 as [|x l Hx _ IH]; [done|]. rewrite fmap_cons, IH. f_equal. by apply u32_small.
Qed.

Lemma put_dinode_other off d blk k off' : (off + 12 + 4 * length (d_addrs d) <= length blk)%nat ->
  (off' + k <= off \/ off + 12 + 4 * length (d_addrs d) <= off')%nat -> get_le k off' (put_dinode off d blk) = get_le k off' blk.
Proof.
  intros Hl Hd. unfold put_dinode. rewrite put_sectors_outside by len_puts.
  repeat (rewrite get_put_other by len_puts). done.
Qed.

(** An inode of the block other than the one stored. *)
Lemma get_dinode_other off d blk off' : length (d_addrs d) = 13%nat -> (off + 64 <= length blk)%nat ->
  (off' + 64 <= off \/ off + 64 <= off')%nat -> get_dinode off' (put_dinode off d blk) = get_dinode off' blk.
Proof.
  intros Hd Hl Ho. unfold get_dinode. f_equal; try (by rewrite put_dinode_other by lia).
  apply get_words_ext. intros k H1 H2. apply put_dinode_other; lia.
Qed.

Lemma bytes_ok_put_sectors l : forall off blk, bytes_ok blk -> bytes_ok (put_sectors l off blk).
Proof. induction l as [|x l IH]; intros off blk Hb; [done|]. apply IH. by apply bytes_ok_put. Qed.

Lemma bytes_ok_put_dinode off d blk : bytes_ok blk -> bytes_ok (put_dinode off d blk).
Proof. intros Hb. unfold put_dinode. apply bytes_ok_put_sectors. auto 10 with xv6. Qed.

(** ** The bitmap *)

Lemma bit_free_testbit blk i : 0 <= i -> bit_free blk i = negb (Z.testbit (nth (Z.to_nat (i / 8)) blk 0) (i mod 8)).
Proof.
  intros Hi. unfold bit_free. set (x := nth _ _ _). set (k := i mod 8). assert (Hk : 0 <= k) by (subst k; mlia).
  assert (E : Z.land x (Z.shiftl 1 k) = if Z.testbit x k then Z.shiftl 1 k else 0).
  { apply Z.bits_inj'. intros n Hn. rewrite Z.land_spec, Z.shiftl_spec by done.
    destruct (decide (n = k)) as [->|Hne].
    - rewrite Z.sub_diag, andb_true_r. destruct (Z.testbit x k); [|by rewrite Z.bits_0].
      by rewrite Z.shiftl_spec, Z.sub_diag by done.
    - assert (F : Z.testbit 1 (n - k) = false).
      { destruct (Z.lt_ge_cases n k); [by rewrite Z.testbit_neg_r by lia|].
        replace (n - k) with (Z.succ (n - k - 1)) by lia. change 1 with (2 * 0 + 1). rewrite Z.testbit_odd_succ by lia. apply Z.bits_0. }
      rewrite F, andb_false_r. destruct (Z.testbit x k); [|by rewrite Z.bits_0]. by rewrite Z.shiftl_spec, F by done. }
  rewrite E. destruct (Z.testbit x k); simpl; [|done]. rewrite Z.shiftl_1_l. pose proof (Z.pow_pos_nonneg 2 k).
  apply Z.eqb_neq. lia.
Qed.

(** Two bits of the bitmap are the same bit only if their numbers are equal. *)
Lemma bit_address i j : 0 <= i -> 0 <= j -> i / 8 = j / 8 -> i mod 8 = j mod 8 -> i = j.
Proof. intros. mlia. Qed.

Lemma u8_testbit x k : 0 <= k < 8 -> Z.testbit (u8 x) k = Z.testbit x k.
Proof. intros Hk. unfold u8. change 256 with (2 ^ 8). apply Z.mod_pow2_bits_low. lia. Qed.

Lemma bit_free_set blk a i : 0 <= i -> 0 <= a -> a / 8 < Z.of_nat (length blk) ->
  bit_free (set_bit blk a) i = if decide (i = a) then false else bit_free blk i.
Proof.
  intros Hi Ha Hl. rewrite !bit_free_testbit by done. unfold set_bit.
  destruct (decide (i / 8 = a / 8)) as [E|E].
  - rewrite E. destruct (lookup_lt_is_Some_2 blk (Z.to_nat (a / 8))) as [x Hx]; [mlia|].
    rewrite (nth_lookup_Some _ _ _ _ Hx).
    erewrite nth_lookup_Some; [|rewrite list_lookup_alter_eq, Hx; done].
    rewrite u8_testbit, Z.lor_spec, Z.shiftl_1_l, Z.pow2_bits_eqb by mlia.
    destruct (decide (i = a)) as [->|Hne]; [by rewrite Z.eqb_refl, orb_true_r|].
    rewrite (proj2 (Z.eqb_neq _ _)), orb_false_r; [done|]. intros Em. apply Hne. by apply bit_address.
  - rewrite decide_False by congruence. rewrite !nth_lookup, list_lookup_alter_ne; [done|mlia].
Qed.

Lemma bytes_ok_set_bit blk a : bytes_ok blk -> bytes_ok (set_bit blk a).
Proof.
  intros Hb. unfold set_bit, bytes_ok in *. rewrite Forall_lookup in *. intros i x Hx.
  destruct (decide (i = Z.to_nat (a / 8))) as [->|Hne].
  - rewrite list_lookup_alter_eq in Hx. apply fmap_Some in Hx as (y & _ & ->). apply u8_range.
  - rewrite list_lookup_alter_ne in Hx by congruence. eauto.
Qed.

Lemma filter_ext_in {A} (P Q : A -> Prop) `{!forall x, Decision (P x)} `{!forall x, Decision (Q x)} (l : list A) :
  (forall x, x ∈ l -> P x <-> Q x) -> filter P l = filter Q l.
Proof.
  induction l as [|x l IH]; intros HQ; [done|]. rewrite !filter_cons.
  rewrite IH by (intros y Hy; apply HQ; by right). destruct (HQ x (list_elem_of_here _ _)) as [H1 H2].
  repeat case_decide; tauto.
Qed.

(** One element less satisfies [Q] than [P]. *)
Lemma filter_remove_one {A} (P Q : A -> Prop) `{!forall x, Decision (P x)} `{!forall x, Decision (Q x)} (l : list A) a :
  NoDup l -> a ∈ l -> P a -> (forall x, Q x <-> P x /\ x <> a) -> S (length (filter Q l)) = length (filter P l).
Proof.
  intros Hnd Ha HP HQ. induction Hnd as [|x l Hx Hnd IH]; [by apply elem_of_nil in Ha|].
  apply elem_of_cons in Ha as [<-|Ha].
  - rewrite (filter_cons_True P) by done. rewrite (filter_cons_False Q) by (rewrite HQ; tauto). simpl. do 2 f_equal.
    apply filter_ext_in. intros y Hy. rewrite HQ. split; [tauto|]. intros Hp. split; [done|]. by intros ->.
  - destruct (decide (P x)) as [Hp|Hp].
    + rewrite !filter_cons_True; [simpl; by rewrite <- IH|done|]. apply HQ. split; [done|]. by intros ->.
    + rewrite !filter_cons_False; [by apply IH|done|]. rewrite HQ. tauto.
Qed.

(** ** File systems *)

(** The sizes of the superblock and the first block of the log. *)
Record geom := Geom { g_size : Z; g_ninodes : Z; g_start : Z }.

Section layout.
Context (g : geom).
Implicit Types (v : disk) (d : dinode).

(** The bitmap block. *)
Definition bmb : Z := BBLOCK 0 (g_ninodes g).

Record geom_ok : Prop := {
  go_size : g_start g <= g_size g <= BPB;
  go_inodes : 0 <= g_ninodes g;
  go_data : bmb < g_start g
}.

(** The log lies behind the data: a block of it is neither free nor used, whatever the bitmap says of it. *)
Definition is_free v (m : Z) : Prop := 0 <= m < g_start g /\ bit_free (v bmb) m = true.
Definition is_used v (m : Z) : Prop := 0 <= m < g_start g /\ bit_free (v bmb) m = false.

Record fs_wf v : Prop := {
  fw_geom : geom_ok;
  fw_size : get_le 4 0 (v 1) = g_size g;
  fw_ninodes : get_le 4 8 (v 1) = g_ninodes g;
  fw_len : forall m, 0 <= m < g_start g -> length (v m) = Z.to_nat BSIZE;
  fw_bytes : forall m, 0 <= m < g_start g -> bytes_ok (v m);
  fw_data : forall m, is_free v m -> bmb < m
}.

(** The number of free blocks. *)
Definition nfree v : nat := length (filter (fun m => bit_free (v bmb) m = true) (seqZ 0 (g_start g))).

(** The disk after [balloc] has taken block [a]. *)
Definition alloc v (a : Z) : disk := upd (upd v bmb (set_bit (v bmb) a)) a (replicate (Z.to_nat BSIZE) 0).

Lemma bmb_ge : geom_ok -> 3 <= bmb.
Proof. intros [H1 H2 H3]. unfold bmb, BBLOCK, BPB, BSIZE, IPB in *. mlia. Qed.

Lemma free_data v a : fs_wf v -> is_free v a -> 3 <= bmb < a /\ a < g_start g.
Proof. intros W F. pose proof (fw_data _ W a F). pose proof (bmb_ge (fw_geom _ W)). destruct F. lia. Qed.

Lemma alloc_bitmap v a : fs_wf v -> is_free v a -> alloc v a bmb = set_bit (v bmb) a.
Proof. intros W F. unfold alloc. pose proof (free_data _ _ W F). by rewrite upd_ne, upd_eq by lia. Qed.

Lemma alloc_new v a : alloc v a a = replicate (Z.to_nat BSIZE) 0.
Proof. apply upd_eq. Qed.

Lemma alloc_other v a m : m <> a -> m <> bmb -> alloc v a m = v m.
Proof. intros. unfold alloc. by rewrite !upd_ne. Qed.

Lemma alloc_bit v a m : fs_wf v -> is_free v a -> 0 <= m ->
  bit_free (alloc v a bmb) m = if decide (m = a) then false else bit_free (v bmb) m.
Proof.
  intros W F Hm. rewrite alloc_bitmap by done. pose proof (free_data _ _ W F). destruct (fw_geom _ W) as [G1 G2 G3].
  apply bit_free_set; [done|lia|]. rewrite (fw_len _ W) by lia. unfold BPB, BSIZE in *. mlia.
Qed.

Lemma alloc_wf v a : fs_wf v -> is_free v a -> fs_wf (alloc v a).
Proof.
  intros W F. pose proof (free_data _ _ W F) as Hd. destruct (fw_geom _ W) as [G1 G2 G3].
  assert (E1 : alloc v a 1 = v 1) by (apply alloc_other; lia).
  assert (HX : forall m, m = a \/ m = bmb \/ alloc v a m = v m).
  { intros m. destruct (decide (m = a)) as [->|]; [by left|]. destruct (decide (m = bmb)) as [->|]; [by right; left|].
    right; right. by apply alloc_other. }
  split; rewrite ?E1; try apply W.
  - intros m Hm. destruct (HX m) as [->|[->| ->]]; [by rewrite alloc_new, length_replicate| |by apply W].
    rewrite alloc_bitmap by done. unfold set_bit. rewrite length_alter. by apply W.
  - intros m Hm. destruct (HX m) as [->|[->| ->]]; [rewrite alloc_new| |by apply W].
    + apply Forall_replicate. lia.
    + rewrite alloc_bitmap by done. apply bytes_ok_set_bit. by apply W.
  - intros m [Hm Hf]. rewrite alloc_bit in Hf by (done || lia). case_decide; [done|]. by apply (fw_data _ W).
Qed.

Lemma nfree_alloc v a : fs_wf v -> is_free v a -> S (nfree (alloc v a)) = nfree v.
Proof.
  intros W F. unfold nfree. pose proof F as [Ha Hf].
  rewrite <- (filter_remove_one (fun m => bit_free (v bmb) m = true) (fun m => bit_free (v bmb) m = true /\ m <> a) _ a); try done.
  - do 2 f_equal. apply filter_ext_in. intros m Hm%elem_of_seqZ. rewrite alloc_bit by (done || lia). case_decide; naive_solver.
  - apply NoDup_seqZ.
  - apply elem_of_seqZ. lia.
Qed.

(** The first free bit of the bitmap is that of a data block, as long as there is a free one. *)
Lemma find_free v : geom_ok -> (1 <= nfree v)%nat -> exists a, find (bit_free (v bmb)) (seqZ 0 (g_size g)) = Some a /\ is_free v a.
Proof.
  intros G Hn. assert (Hx : exists x, is_free v x).
  { unfold nfree in Hn. destruct (filter _ _) as [|x l] eqn:Ef in Hn; [simpl in Hn; lia|]. exists x.
    assert (Hx : x ∈ filter (fun m => bit_free (v bmb) m = true) (seqZ 0 (g_start g))) by (rewrite Ef; left).
    apply list_elem_of_filter in Hx as [H1 H2%elem_of_seqZ]. split; [lia|done]. }
  destruct Hx as (x & Hx & Hfx). destruct G as [[G1 _] _ _].
  replace (g_size g) with (g_start g + (g_size g - g_start g)) by lia. rewrite seqZ_app, find_app by lia.
  destruct (find (bit_free (v bmb)) (seqZ 0 (g_start g))) as [a|] eqn:E.
  - exists a. split; [done|]. apply find_some in E as [Hin%list_elem_of_In Hf]. apply elem_of_seqZ in Hin. split; [lia|done].
  - exfalso. rewrite (find_none _ _ E x) in Hfx; [done|]. apply list_elem_of_In, elem_of_seqZ. lia.
Qed.

(** ** Files *)

Definition ind d : Z := addr_at d NDIRECT.

(** Entry [j] of the indirect block. *)
Definition entry v (i j : Z) : Z := get_le 4 (Z.to_nat (4 * j)) (v i).

(** The disk block of block [bn] of the file, 0 if it has none. *)
Definition baddr v d (bn : Z) : Z :=
  if bn <? NDIRECT then addr_at d bn else if ind d =? 0 then 0 else entry v (ind d) (bn - NDIRECT).

Definition in_file (bn : Z) : Prop := 0 <= bn < MAXFILE.

(** The blocks of the file, the indirect block included. *)
Definition file_block v d (m : Z) : Prop := m <> 0 /\ (m = ind d \/ exists bn, in_file bn /\ baddr v d bn = m).

Record file_wf v d : Prop := {
  iw_typed : dinode_typed d;
  iw_ind : ind d <> 0 -> bmb < ind d /\ is_used v (ind d);
  iw_blk : forall bn, in_file bn -> baddr v d bn <> 0 -> bmb < baddr v d bn /\ is_used v (baddr v d bn) /\ baddr v d bn <> ind d;
  iw_inj : forall bn bn', in_file bn -> in_file bn' -> baddr v d bn <> 0 -> baddr v d bn = baddr v d bn' -> bn = bn';
  iw_map : forall bn, 0 <= bn -> bn * BSIZE < d_size d -> baddr v d bn <> 0;
  iw_size : d_size d <= MAXFILE * BSIZE
}.

Definition fbyte v d (k : Z) : Z := nth (Z.to_nat (k mod BSIZE)) (v (baddr v d (k / BSIZE))) 0.
Definition content v d : list Z := fbyte v d <$> seqZ 0 (d_size d).

Lemma file_block_used v d m : file_wf v d -> file_block v d m -> bmb < m /\ is_used v m.
Proof.
  intros W [Hm [->|(bn & Hbn & <-)]]; [by apply W|]. destruct (iw_blk _ _ W bn Hbn Hm) as (? & ? & _). done.
Qed.

(** [baddr] depends on the inode's addresses and on the indirect block. *)
Lemma baddr_ext v v' d bn : (ind d <> 0 -> v' (ind d) = v (ind d)) -> baddr v' d bn = baddr v d bn.
Proof.
  intros E. unfold baddr, entry. destruct (bn <? NDIRECT); [done|]. destruct (ind d =? 0) eqn:Ei; [done|].
  bool_hyps. by rewrite E.
Qed.

Lemma file_block_ext v v' d m : (ind d <> 0 -> v' (ind d) = v (ind d)) -> file_block v' d m <-> file_block v d m.
Proof.
  intros E. unfold file_block. split; intros [Hm [->|(bn & Hbn & Hx)]]; (split; [done|]); [by left|right|by left|right]; exists bn; (split; [done|]).
  - by rewrite <- Hx, (baddr_ext v v').
  - by rewrite <- Hx, (baddr_ext v v').
Qed.

(** A change that keeps the bitmap's used blocks and the indirect block keeps the file well formed. *)
Lemma file_wf_ext v v' d : file_wf v d -> (ind d <> 0 -> v' (ind d) = v (ind d)) ->
  (forall m, is_used v m -> is_used v' m) -> file_wf v' d.
Proof.
  intros W E U. assert (Eb : forall bn, baddr v' d bn = baddr v d bn) by (intros; by apply baddr_ext). split; try apply W.
  - intros Hi. destruct (iw_ind _ _ W Hi). auto.
  - intros bn Hbn. rewrite Eb. intros H. destruct (iw_blk _ _ W bn Hbn H) as (? & ? & ?). auto.
  - intros bn bn' H1 H2. rewrite !Eb. by apply W.
  - intros bn H1 H2. rewrite Eb. by apply W.
Qed.

(** What an operation on the file [d] does to the file system: the file keeps its size and its
    blocks and may get free blocks; no block in use outside the file changes but the bitmap.
    Free blocks stay enough for the blocks [bns] of the file. *)
Definition same_meta d d' : Prop :=
  d_type d' = d_type d /\ d_major d' = d_major d /\ d_minor d' = d_minor d /\ d_nlink d' = d_nlink d /\ d_size d' = d_size d.

(** The blocks of [bns] that the file does not have, and its indirect block if it has none. *)
Definition need v d (bns : list Z) : nat :=
  length (filter (fun bn => baddr v d bn = 0) bns) + (if ind d =? 0 then 1 else 0).

Record evolve (bns : list Z) v d v' d' : Prop := {
  ev_wf : fs_wf v';
  ev_file : file_wf v' d';
  ev_meta : same_meta d d';
  ev_old : forall bn, in_file bn -> baddr v d bn <> 0 -> baddr v' d' bn = baddr v d bn;
  ev_ind : ind d <> 0 -> ind d' = ind d;
  ev_frame : forall m, is_used v m -> m <> bmb -> ~ file_block v d m -> v' m = v m;
  ev_used : forall m, is_used v m -> is_used v' m;
  ev_own : forall m, file_block v' d' m -> file_block v d m \/ is_free v m;
  ev_need : (need v d bns <= nfree v)%nat -> (need v' d' bns <= nfree v')%nat
}.

Lemma same_meta_trans d1 d2 d3 : same_meta d1 d2 -> same_meta d2 d3 -> same_meta d1 d3.
Proof. unfold same_meta. intuition congruence. Qed.

Lemma evolve_refl bns v d : fs_wf v -> file_wf v d -> evolve bns v d v d.
Proof. intros W F. split; try done; by left. Qed.

Lemma used_not_free v m : is_used v m -> is_free v m -> False.
Proof. intros [_ H1] [_ H2]. congruence. Qed.

Lemma used_or_free v m : geom_ok -> 0 <= m < g_start g -> is_used v m \/ is_free v m.
Proof.
  intros [[G1 _] _ _] Hm. destruct (bit_free (v bmb) m) eqn:E; [right|by left]. split; [lia|done].
Qed.

Lemma free_back v v' m : fs_wf v' -> (forall m, is_used v m -> is_used v' m) -> is_free v' m -> is_free v m.
Proof.
  intros W U F. pose proof (free_data _ _ W F). assert (Hm : 0 <= m < g_start g) by lia.
  destruct (used_or_free v m (fw_geom _ W) Hm) as [Hu|]; [|done]. destruct (used_not_free v' m); auto.
Qed.

Lemma evolve_trans bns v1 d1 v2 d2 v3 d3 : evolve bns v1 d1 v2 d2 -> evolve bns v2 d2 v3 d3 -> evolve bns v1 d1 v3 d3.
Proof.
  intros [A1 A2 A3 A4 A5 A6 A7 A8 A9] [C1 C2 C3 C4 C5 C6 C7 C8 C9]. split; auto.
  - by eapply same_meta_trans.
  - intros bn Hb Hn. rewrite C4; [by apply A4|done|]. by rewrite A4.
  - intros Hi. rewrite C5; [by apply A5|]. by rewrite A5.
  - intros m Hu Hm Hf. rewrite C6; [by apply A6|by apply A7|done|]. intros [Hx|Hx]%A8; [done|by eapply used_not_free].
  - intros m [Hm|Hm]%C8; [by apply A8|]. right. by apply (free_back v1 v2).
Qed.

(** The bitmap with one more block in use. *)
Definition takes v v' (a : Z) : Prop :=
  is_free v a /\ (forall m, 0 <= m -> bit_free (v' bmb) m = if decide (m = a) then false else bit_free (v bmb) m) /\ nfree v = S (nfree v').

Lemma takes_used v v' a m : takes v v' a -> is_used v m -> is_used v' m.
Proof. intros (F & Hb & _) [Hm Hu]. split; [done|]. rewrite Hb by lia. by case_decide. Qed.

Lemma takes_new v v' a : fs_wf v -> takes v v' a -> bmb < a /\ is_used v' a.
Proof.
  intros W (F & Hb & _). pose proof (free_data _ _ W F). split; [lia|]. split; [lia|]. rewrite Hb by lia. by rewrite decide_True.
Qed.

Lemma alloc_takes v a : fs_wf v -> is_free v a -> takes v (alloc v a) a.
Proof. intros W F. split; [done|]. split; [|by rewrite nfree_alloc]. intros m Hm. by apply alloc_bit. Qed.

(** The file gets the block [a] as its block [bn0]. *)
Lemma evolve_block bns v d v' d' a bn0 : fs_wf v -> file_wf v d -> fs_wf v' -> takes v v' a -> same_meta d d' -> dinode_typed d' ->
  ind d' = ind d -> in_file bn0 -> NoDup bns -> bn0 ∈ bns -> Forall in_file bns -> baddr v d bn0 = 0 ->
  (forall bn, in_file bn -> baddr v' d' bn = if decide (bn = bn0) then a else baddr v d bn) ->
  (forall m, is_used v m -> m <> bmb -> (ind d <> 0 -> m <> ind d) -> v' m = v m) -> evolve bns v d v' d'.
Proof.
  intros W F W' T M Ty Ei H0 Hnd Hin Hbn Hz Hb Hfr. pose proof (fun m => takes_used _ _ _ m T) as HU. pose proof (takes_new _ _ _ W T) as [Ha HaU].
  pose proof T as (Fa & _ & Hnf).
  assert (Hina : forall bn, in_file bn -> baddr v d bn <> a).
  { intros bn Hbn1 Ea. destruct (iw_blk _ _ F bn Hbn1) as (_ & Hu & _); [pose proof (free_data _ _ W Fa); lia|].
    eapply used_not_free; [exact Hu|by rewrite Ea]. }
  split; try done.
  - split; try done.
    + rewrite Ei. intros Hi. destruct (iw_ind _ _ F Hi). auto.
    + intros bn Hbn1. rewrite Hb, Ei by done. case_decide as Hc.
      * intros _. split_and!; [done|done|]. intros ->. destruct (iw_ind _ _ F) as [_ Hu]; [pose proof (free_data _ _ W Fa); lia|].
        by eapply used_not_free.
      * intros Hn. destruct (iw_blk _ _ F bn Hbn1 Hn) as (? & ? & ?). auto.
    + intros bn bn' H1 H2. rewrite !Hb by done. pose proof (Hina bn H1). pose proof (Hina bn' H2).
      repeat case_decide; try congruence. by apply F.
    + intros bn H1 H2. destruct M as (_ & _ & _ & _ & M5). rewrite M5 in H2. pose proof (iw_size _ _ F).
      rewrite Hb by (unfold in_file, BSIZE in *; lia). case_decide; [pose proof (free_data _ _ W Fa); lia|]. by apply (iw_map _ _ F).
    + destruct M as (_ & _ & _ & _ & ->). apply F.
  - intros bn Hbn1 Hn. rewrite Hb by done. by rewrite decide_False by congruence.
  - intros m Hu Hm Hf. apply Hfr; [done|done|]. intros Hi ->. apply Hf. split; [done|by left].
  - intros m [Hm [->|(bn & Hbn1 & Hx)]].
    + left. split; [done|]. left. done.
    + rewrite Hb in Hx by done. case_decide; [right; by subst|]. left. split; [done|]. right. eauto.
  - unfold need. rewrite Ei, Hnf.
    rewrite <- (filter_remove_one (fun bn => baddr v d bn = 0) (fun bn => baddr v d bn = 0 /\ bn <> bn0) bns bn0) by done.
    rewrite (filter_ext_in (fun bn => baddr v' d' bn = 0) (fun bn => baddr v d bn = 0 /\ bn <> bn0)); [lia|].
    intros bn Hi. rewrite Forall_forall in Hbn. rewrite Hb by auto. case_decide; [|naive_solver].
    pose proof (free_data _ _ W Fa). naive_solver lia.
Qed.

Lemma set_addr_typed d i a : dinode_typed d -> is_uint a -> dinode_typed (set_addr i a d).
Proof.
  intros (H1 & H2 & H3 & H4 & H5 & H6 & H7) Ha. unfold dinode_typed, set_addr. cbn. rewrite length_insert.
  split_and!; try done. by apply Forall_insert.
Qed.

Lemma free_uint v a : fs_wf v -> is_free v a -> is_uint a.
Proof.
  intros W F. pose proof (free_data _ _ W F). destruct (fw_geom _ W) as [G1 _ _]. unfold is_uint, BPB, BSIZE in *. lia.
Qed.

Lemma addr_at_set d i j a : length (d_addrs d) = 13%nat -> 0 <= i < 13 -> 0 <= j ->
  addr_at (set_addr (Z.to_nat i) a d) j = if decide (j = i) then a else addr_at d j.
Proof.
  intros Hl Hi Hj. unfold addr_at, set_addr. cbn [d_addrs]. rewrite !nth_lookup.
  case_decide as E; [subst; by rewrite list_lookup_insert_eq by lia|]. by rewrite list_lookup_insert_ne by lia.
Qed.

(** Neither the indirect block nor the bitmap is free. *)
Lemma alloc_ind_same v d a : fs_wf v -> file_wf v d -> is_free v a -> ind d <> 0 -> alloc v a (ind d) = v (ind d).
Proof.
  intros W F Fa Hi. destruct (iw_ind _ _ F Hi) as [H1 H2]. apply alloc_other; [|lia].
  intros E. eapply used_not_free; [exact H2|by rewrite E].
Qed.

Lemma alloc_frame v a m : is_free v a -> is_used v m -> m <> bmb -> alloc v a m = v m.
Proof. intros Fa Hu Hm. apply alloc_other; [|done]. intros ->. by eapply used_not_free. Qed.

Lemma evolve_direct bns v d a bn : fs_wf v -> file_wf v d -> is_free v a -> NoDup bns -> Forall in_file bns -> bn ∈ bns ->
  0 <= bn < NDIRECT -> addr_at d bn = 0 ->
  evolve bns v d (alloc v a) (set_addr (Z.to_nat bn) a d) /\
  forall bn', in_file bn' -> baddr (alloc v a) (set_addr (Z.to_nat bn) a d) bn' = if decide (bn' = bn) then a else baddr v d bn'.
Proof.
  intros W F Fa Hnd Hbns Hin Hbn Hz. unfold NDIRECT in Hbn. pose proof (iw_typed _ _ F) as Ty.
  assert (Hlen : length (d_addrs d) = 13%nat) by apply Ty.
  assert (Hi : ind (set_addr (Z.to_nat bn) a d) = ind d).
  { unfold ind. rewrite addr_at_set by (unfold NDIRECT; lia). rewrite decide_False; [done|unfold NDIRECT; lia]. }
  assert (Hb : forall bn', in_file bn' -> baddr (alloc v a) (set_addr (Z.to_nat bn) a d) bn' = if decide (bn' = bn) then a else baddr v d bn').
  { intros bn' [Hb1 Hb2]. rewrite <- (baddr_ext v (alloc v a) d bn') by (intros; by apply alloc_ind_same).
    unfold baddr. rewrite Hi. destruct (bn' <? NDIRECT) eqn:E.
    - apply addr_at_set; lia.
    - unfold NDIRECT in E. bool_hyps. by rewrite decide_False by lia. }
  split; [|done].
  apply (evolve_block bns v d _ _ a bn); try done.
  - by apply alloc_wf.
  - by apply alloc_takes.
  - apply set_addr_typed; [done|by apply (free_uint v)].
  - unfold in_file, MAXFILE, NDIRECT, NINDIRECT. lia.
  - unfold baddr. rewrite (proj2 (Z.ltb_lt _ _)) by (unfold NDIRECT; lia). done.
  - intros m Hu Hm _. by apply alloc_frame.
Qed.

(** A zeroed block is an indirect block without entries. *)
Lemma get_le_zeros k off n : get_le k off (replicate n 0) = 0.
Proof.
  unfold get_le. rewrite drop_replicate, take_replicate. generalize (k `min` (n - off))%nat as j.
  induction j as [|j IH]; [done|]. simpl. by rewrite IH.
Qed.

Lemma evolve_indirect bns v d a : fs_wf v -> file_wf v d -> is_free v a -> Forall in_file bns -> ind d = 0 ->
  evolve bns v d (alloc v a) (set_addr (Z.to_nat NDIRECT) a d) /\ ind (set_addr (Z.to_nat NDIRECT) a d) = a /\
  (forall bn, 0 <= bn -> baddr (alloc v a) (set_addr (Z.to_nat NDIRECT) a d) bn = baddr v d bn).
Proof.
  intros W F Fa Hbns Hz. pose proof (iw_typed _ _ F) as Ty. assert (Hlen : length (d_addrs d) = 13%nat) by apply Ty.
  pose proof (free_data _ _ W Fa) as Ha. set (d' := set_addr _ a d).
  assert (Hi : ind d' = a) by (unfold ind, d'; rewrite addr_at_set by (unfold NDIRECT; lia); by rewrite decide_True).
  assert (Hb : forall bn, 0 <= bn -> baddr (alloc v a) d' bn = baddr v d bn).
  { intros bn Hbn. unfold baddr. rewrite Hi, Hz. destruct (bn <? NDIRECT) eqn:E.
    - unfold d'. rewrite addr_at_set by (unfold NDIRECT; lia). bool_hyps. by rewrite decide_False by lia.
    - rewrite (proj2 (Z.eqb_neq _ _)) by lia. unfold entry. by rewrite alloc_new, get_le_zeros. }
  split; [|done]. pose proof (alloc_takes v a W Fa) as T. pose proof (fun m => takes_used _ _ _ m T) as HU.
  pose proof (takes_new _ _ _ W T) as [_ HaU]. assert (M : same_meta d d') by done.
  assert (Hb' : forall bn, in_file bn -> baddr (alloc v a) d' bn = baddr v d bn) by (intros bn [??]; by apply Hb).
  split; try done.
  - by apply alloc_wf.
  - split.
    + apply set_addr_typed; [done|by apply (free_uint v)].
    + rewrite Hi. intros _. split; [lia|done].
    + intros bn Hbn. rewrite Hb' by done. intros Hn. destruct (iw_blk _ _ F bn Hbn Hn) as (H1 & H2 & _). split_and!; [done|by apply HU|].
      rewrite Hi. intros E. eapply used_not_free; [exact H2|by rewrite E].
    + intros bn bn' H1 H2. rewrite !Hb' by done. by apply F.
    + intros bn H1 H2. rewrite Hb by done. by apply (iw_map _ _ F).
    + apply (iw_size _ _ F).
  - intros bn Hbn _. by apply Hb'.
  - intros m Hu Hm _. by apply alloc_frame.
  - intros m [Hm [->|(bn & Hbn & Hx)]]; [right; by rewrite Hi|]. left. split; [done|]. right. exists bn. by rewrite <- Hb'.
  - unfold need. rewrite Hz, Hi. destruct T as (_ & _ & ->). rewrite (proj2 (Z.eqb_neq a 0)) by lia. simpl.
    rewrite (filter_ext_in (fun bn => baddr (alloc v a) d' bn = 0) (fun bn => baddr v d bn = 0)); [lia|].
    intros bn Hbn. rewrite Forall_forall in Hbns. by rewrite Hb' by auto.
Qed.

(** The entry [bn] of the indirect block is set to the allocated block [a]. *)
Definition alloc_entry v (i bn a : Z) : disk :=
  upd (alloc v a) i (put_le 4 (Z.to_nat (4 * (bn - NDIRECT))) a (v i)).

Lemma fs_wf_upd v m w : fs_wf v -> bmb < m < g_start g -> length w = Z.to_nat BSIZE -> bytes_ok w -> fs_wf (upd v m w).
Proof.
  intros W Hm Hl Hb. pose proof (bmb_ge (fw_geom _ W)).
  split; rewrite ?(upd_ne v m w 1) by lia; try apply W.
  - intros n Hn. unfold upd. case_decide; [done|by apply W].
  - intros n Hn. unfold upd. case_decide; [done|by apply W].
  - intros n [Hn Hf]. rewrite upd_ne in Hf by lia. by apply (fw_data _ W).
Qed.

Lemma evolve_entry bns v d a bn : fs_wf v -> file_wf v d -> is_free v a -> NoDup bns -> Forall in_file bns -> bn ∈ bns ->
  NDIRECT <= bn < MAXFILE -> ind d <> 0 -> baddr v d bn = 0 ->
  evolve bns v d (alloc_entry v (ind d) bn a) d /\
  forall bn', in_file bn' -> baddr (alloc_entry v (ind d) bn a) d bn' = if decide (bn' = bn) then a else baddr v d bn'.
Proof.
  intros W F Fa Hnd Hbns Hin Hbn Hi Hz. pose proof (iw_ind _ _ F Hi) as [Hi1 [Hi2 Hi3]]. unfold NDIRECT, MAXFILE, NDIRECT, NINDIRECT in Hbn.
  pose proof (free_data _ _ W Fa) as Ha. assert (Hlen : length (v (ind d)) = 512%nat) by (by rewrite (fw_len _ W)).
  set (v' := alloc_entry v (ind d) bn a). unfold alloc_entry in v'.
  assert (Hb : forall bn', in_file bn' -> baddr v' d bn' = if decide (bn' = bn) then a else baddr v d bn').
  { intros bn' [Hb1 Hb2]. unfold MAXFILE, NINDIRECT, NDIRECT in Hb2. unfold baddr. destruct (bn' <? NDIRECT) eqn:E; unfold NDIRECT in E; bool_hyps.
    - by rewrite decide_False by lia.
    - rewrite (proj2 (Z.eqb_neq _ _)) by done. unfold entry, v'. rewrite upd_eq. unfold NDIRECT. case_decide as Ec.
      + subst. rewrite get_put_same by lia. apply u32_small. apply (free_uint v a W Fa).
      + apply get_put_other; lia. }
  split; [|done].
  assert (Eb : v' bmb = alloc v a bmb) by (apply upd_ne; lia).
  apply (evolve_block bns v d _ _ a bn); try done.
  - apply fs_wf_upd; [by apply alloc_wf|lia|rewrite length_put_le; [by apply (fw_len _ W)|unfold NDIRECT; lia]|].
    apply bytes_ok_put. by apply (fw_bytes _ W).
  - pose proof (alloc_takes v a W Fa) as (T1 & T2 & T3). split; [done|]. unfold nfree. rewrite Eb. split; [done|exact T3].
  - apply (iw_typed _ _ F).
  - unfold in_file, MAXFILE, NDIRECT, NINDIRECT. lia.
  - intros m Hu Hm Hmi. unfold v'. rewrite upd_ne by auto. by apply alloc_frame.
Qed.

(** The data blocks of the file keep their bytes. *)
Definition data_kept v d v' : Prop := forall bn, in_file bn -> baddr v d bn <> 0 -> v' (baddr v d bn) = v (baddr v d bn).

(** What [bmap] does: the block is there, no data and no other block has changed, and a new block is zero. *)
Definition bmapped bns v d bn v' d' (a : Z) : Prop :=
  evolve bns v d v' d' /\ data_kept v d v' /\ (baddr v d bn <> 0 -> d' = d) /\ baddr v' d' bn = a /\ a <> 0 /\
  (forall bn', in_file bn' -> bn' <> bn -> baddr v' d' bn' = baddr v d bn') /\ (baddr v d bn = 0 -> v' a = replicate (Z.to_nat BSIZE) 0).

Lemma data_kept_alloc v d a : file_wf v d -> is_free v a -> data_kept v d (alloc v a).
Proof. intros F Fa bn Hbn Hn. destruct (iw_blk _ _ F bn Hbn Hn) as (H1 & H2 & _). apply alloc_frame; [done|done|lia]. Qed.

Lemma bmapped_old bns v d bn : fs_wf v -> file_wf v d -> baddr v d bn <> 0 -> bmapped bns v d bn v d (baddr v d bn).
Proof. intros W F Hn. split_and!; try done. by apply evolve_refl. Qed.

Lemma bmapped_direct bns v d a bn : fs_wf v -> file_wf v d -> is_free v a -> NoDup bns -> Forall in_file bns -> bn ∈ bns ->
  0 <= bn < NDIRECT -> addr_at d bn = 0 -> bmapped bns v d bn (alloc v a) (set_addr (Z.to_nat bn) a d) a.
Proof.
  intros W F Fa ? Hin ? ? ?. destruct (evolve_direct bns v d a bn) as [E1 E2]; try done.
  assert (Hbn : in_file bn) by (rewrite Forall_forall in Hin; auto). split_and!; try done.
  - by apply data_kept_alloc.
  - intros []. unfold baddr. rewrite (proj2 (Z.ltb_lt _ _)); [done|lia].
  - by rewrite E2, decide_True.
  - pose proof (free_data _ _ W Fa). lia.
  - intros bn' J1 J2. by rewrite E2, decide_False.
  - intros _. apply alloc_new.
Qed.

Lemma bmapped_entry bns v d a bn : fs_wf v -> file_wf v d -> is_free v a -> NoDup bns -> Forall in_file bns -> bn ∈ bns ->
  NDIRECT <= bn < MAXFILE -> ind d <> 0 -> baddr v d bn = 0 -> bmapped bns v d bn (alloc_entry v (ind d) bn a) d a.
Proof.
  intros W F Fa ? Hin ? ? Hi ?. destruct (evolve_entry bns v d a bn) as [E1 E2]; try done.
  assert (Hbn : in_file bn) by (rewrite Forall_forall in Hin; auto). split_and!; try done.
  - intros bn' Hbn' Hn. destruct (iw_blk _ _ F bn' Hbn' Hn) as (J1 & J2 & J3). unfold alloc_entry. rewrite upd_ne by done.
    by apply data_kept_alloc.
  - by rewrite E2, decide_True.
  - pose proof (free_data _ _ W Fa). lia.
  - intros bn' J1 J2. by rewrite E2, decide_False.
  - intros _. unfold alloc_entry. rewrite upd_ne; [apply alloc_new|]. intros ->. destruct (iw_ind _ _ F Hi). by eapply used_not_free.
Qed.

(** After the indirect block has been allocated. *)
Lemma bmapped_indirect bns v d i bn v' d' a : fs_wf v -> file_wf v d -> is_free v i -> Forall in_file bns -> ind d = 0 ->
  NDIRECT <= bn -> bmapped bns (alloc v i) (set_addr (Z.to_nat NDIRECT) i d) bn v' d' a -> bmapped bns v d bn v' d' a.
Proof.
  intros W F Fi Hbns Hi Hbn (E & Hk & Hs & Hb & Ha & Ho & Hz). destruct (evolve_indirect bns v d i W F Fi Hbns Hi) as (E1 & _ & Eb).
  split_and!; try done; [by eapply evolve_trans| | | |].
  2: { intros []. unfold baddr. by rewrite (proj2 (Z.ltb_ge _ _)), Hi. }
  2: { intros bn' H1 H2. rewrite Ho by done. apply Eb, H1. }
  2: { intros Hn. apply Hz. rewrite Eb; [done|]. unfold NDIRECT in Hbn. lia. }
  intros bn' Hbn' Hn. assert (Hb' : 0 <= bn') by apply Hbn'.
  rewrite <- (Eb bn') by done. rewrite Hk; [|done|by rewrite Eb]. rewrite Eb by done. by apply data_kept_alloc.
Qed.

Lemma fbyte_bmapped bns v d bn v' d' a k : bmapped bns v d bn v' d' a -> in_file (k / BSIZE) -> baddr v d (k / BSIZE) <> 0 ->
  fbyte v' d' k = fbyte v d k.
Proof. intros (E & Hk & _) Hb Hn. unfold fbyte. by rewrite (ev_old _ _ _ _ _ E), Hk by done. Qed.

(** Data is stored into a block of the file. *)
Lemma evolve_data bns v d bn w : fs_wf v -> file_wf v d -> in_file bn -> baddr v d bn <> 0 -> length w = Z.to_nat BSIZE -> bytes_ok w ->
  evolve bns v d (upd v (baddr v d bn) w) d /\
  forall bn', in_file bn' -> baddr (upd v (baddr v d bn) w) d bn' = baddr v d bn' /\
    (baddr v d bn' <> 0 -> upd v (baddr v d bn) w (baddr v d bn') = if decide (bn' = bn) then w else v (baddr v d bn')).
Proof.
  intros W F Hbn Hn Hl Hw. destruct (iw_blk _ _ F bn Hbn Hn) as (H1 & [H2 H3] & H4). set (a := baddr v d bn) in *.
  assert (Ei : ind d <> 0 -> upd v a w (ind d) = v (ind d)) by (intros; by apply upd_ne).
  assert (Eb : upd v a w bmb = v bmb) by (apply upd_ne; lia).
  assert (HU : forall m, is_used v m -> is_used (upd v a w) m) by (intros m [??]; split; [done|by rewrite Eb]).
  split.
  - split; try done.
    + apply fs_wf_upd; [done|lia|done|done].
    + by apply (file_wf_ext v).
    + intros bn' _ _. by apply baddr_ext.
    + intros m Hu Hm Hf. apply upd_ne. intros ->. apply Hf. split; [done|]. right. by exists bn.
    + intros m Hm. left. by apply (file_block_ext v (upd v a w)).
    + unfold need, nfree. rewrite Eb. rewrite (filter_ext_in (fun bn' => baddr (upd v a w) d bn' = 0) (fun bn' => baddr v d bn' = 0)); [done|].
      intros x _. by rewrite (baddr_ext v).
  - intros bn' Hbn'. split; [by apply baddr_ext|]. intros Hn'. case_decide as E; [subst; apply upd_eq|]. apply upd_ne.
    intros E'. apply E. symmetry. apply (iw_inj _ _ F bn bn'); done.
Qed.

(** ** Writing into a file *)

Lemma nth_replicate_0 j n : nth j (replicate n 0) 0 = 0.
Proof. rewrite nth_lookup. destruct (replicate n 0 !! j) as [x|] eqn:E; [|done]. by apply lookup_replicate in E as [-> _]. Qed.

(** [tot] bytes of [src] have been written at [off]; [v] and [d] are the state before. *)
Record written bns v d off (src : list Z) (tot : Z) v' d' : Prop := {
  wr_evolve : evolve bns v d v' d';
  wr_new : forall k, off <= k < off + tot -> in_file (k / BSIZE) -> baddr v' d' (k / BSIZE) <> 0 /\ fbyte v' d' k = nth (Z.to_nat (k - off)) src 0;
  wr_same : off + tot <= d_size d -> d' = d;
  wr_rest : forall k, ~ (off <= k < off + tot) -> in_file (k / BSIZE) -> baddr v d (k / BSIZE) <> 0 -> fbyte v' d' k = fbyte v d k;
  wr_zero : forall k, ~ (off <= k < off + tot) -> in_file (k / BSIZE) -> baddr v d (k / BSIZE) = 0 -> baddr v' d' (k / BSIZE) <> 0 -> fbyte v' d' k = 0
}.

Lemma written_start bns v d off src : fs_wf v -> file_wf v d -> written bns v d off src 0 v d.
Proof. intros W F. split; [by apply evolve_refl|lia|done|done|done]. Qed.

(** A byte of a block into which a piece of the source has been copied. *)
Lemma nth_splice_piece o m t (src blk : list Z) j : (o + m <= length blk)%nat -> (t + m <= length src)%nat ->
  nth j (splice o (take m (drop t src)) blk) 0 = if decide (o <= j < o + m)%nat then nth (t + (j - o)) src 0 else nth j blk 0.
Proof.
  intros H1 H2. assert (Hl : length (take m (drop t src)) = m) by (rewrite length_take, length_drop; lia).
  rewrite !nth_lookup. case_decide as Hj.
  - rewrite lookup_splice_in by (rewrite Hl; lia). rewrite lookup_take_lt by lia. by rewrite lookup_drop.
  - rewrite lookup_splice_out by (rewrite Hl; lia). done.
Qed.

Lemma written_step bns v d off src n tot v1 d1 v2 d2 a m : written bns v d off src tot v1 d1 -> bytes_ok src ->
  0 <= off -> 0 <= tot < n -> n <= Z.of_nat (length src) -> off + n <= MAXFILE * BSIZE ->
  bmapped bns v1 d1 ((off + tot) / BSIZE) v2 d2 a -> m = Z.min (n - tot) (BSIZE - (off + tot) mod BSIZE) ->
  written bns v d off src (tot + m)
    (upd v2 a (splice (Z.to_nat ((off + tot) mod BSIZE)) (take (Z.to_nat m) (drop (Z.to_nat tot) src)) (v2 a))) d2.
Proof.
  intros [E1 N1 S1 R1 Z1] Hsrc Hoff Htot Hn Hmax Hmap Em. pose proof Hmap as (E2 & Hk2 & Hs2 & Hb2 & Ha2 & Ho2 & Hz2).
  set (o := (off + tot) mod BSIZE) in *. set (bn := (off + tot) / BSIZE) in *.
  assert (Hsplit : off + tot = BSIZE * bn + o /\ 0 <= o < BSIZE) by (subst o bn; unfold BSIZE; mlia).
  assert (Hbn : in_file bn) by (unfold in_file, MAXFILE, NDIRECT, NINDIRECT, BSIZE in *; subst bn; mlia).
  assert (Hm : 0 < m /\ m <= n - tot /\ o + m <= BSIZE) by lia. clear Em.
  assert (Hlen : length (v2 a) = 512%nat).
  { destruct (iw_blk _ _ (ev_file _ _ _ _ _ E2) bn Hbn) as (_ & [Hu _] & _); [by rewrite Hb2|]. rewrite Hb2 in Hu.
    by apply (fw_len _ (ev_wf _ _ _ _ _ E2)). }
  set (w := splice _ _ _).
  assert (Hw : length w = Z.to_nat BSIZE).
  { unfold w. rewrite length_splice; [done|]. rewrite length_take, length_drop. unfold BSIZE in *. lia. }
  assert (Hwb : bytes_ok w).
  { apply bytes_ok_splice; [by apply Forall_take, Forall_drop|].
    destruct (iw_blk _ _ (ev_file _ _ _ _ _ E2) bn Hbn) as (_ & [Hu _] & _); [by rewrite Hb2|]. rewrite Hb2 in Hu.
    by apply (fw_bytes _ (ev_wf _ _ _ _ _ E2)). }
  destruct (evolve_data bns v2 d2 bn w (ev_wf _ _ _ _ _ E2) (ev_file _ _ _ _ _ E2) Hbn) as [E3 Hd3]; [by rewrite Hb2|done|done|].
  rewrite Hb2 in E3, Hd3. assert (Hbyte : forall k, 0 <= k -> in_file (k / BSIZE) -> baddr v2 d2 (k / BSIZE) <> 0 ->
    fbyte (upd v2 a w) d2 k = if decide (off + tot <= k < off + tot + m) then nth (Z.to_nat (k - off)) src 0 else fbyte v2 d2 k).
  { intros k Hk Hin Hnz. destruct (Hd3 _ Hin) as [Hx1 Hx2]. unfold fbyte. rewrite Hx1, Hx2 by done. unfold BSIZE in *.
    destruct (decide (k / 512 = bn)) as [Eb|Eb].
    - rewrite Eb, Hb2. unfold w. rewrite nth_splice_piece by lia. repeat case_decide; try done; try mlia. f_equal. mlia.
    - rewrite decide_False by mlia. done. }
  assert (Hstay : forall k, 0 <= k -> ~ (off + tot <= k < off + tot + m) -> in_file (k / BSIZE) -> baddr v1 d1 (k / BSIZE) <> 0 ->
    fbyte (upd v2 a w) d2 k = fbyte v1 d1 k).
  { intros k Hk0 Hout Hin Hnz. rewrite Hbyte; [|done|done|by rewrite (ev_old _ _ _ _ _ E2)]. rewrite decide_False by done.
    by apply (fbyte_bmapped bns v1 d1 bn v2 d2 a). }
  split.
  - by eapply evolve_trans; [|eapply evolve_trans].
  - intros k Hk Hin. destruct (decide (k < off + tot)) as [Hlt|Hge].
    + destruct (N1 k) as [Hz Hv]; [lia|done|]. destruct (Hd3 _ Hin) as [-> _]. rewrite (ev_old _ _ _ _ _ E2) by done.
      split; [done|]. rewrite Hstay; [done|lia|lia|done|done].
    + assert (Eb : k / BSIZE = bn) by (unfold BSIZE in *; mlia). destruct (Hd3 _ Hin) as [-> _]. rewrite Eb, Hb2. split; [done|].
      rewrite Hbyte; [|lia|done|by rewrite Eb, Hb2]. by rewrite decide_True by lia.
  - intros Hsz. rewrite Hs2; [apply S1; lia|]. apply (iw_map _ _ (ev_file _ _ _ _ _ E1)); [apply Hbn|].
    destruct (ev_meta _ _ _ _ _ E1) as (_ & _ & _ & _ & ->). lia.
  - intros k Hk Hin Hnz. rewrite Hstay.
    + apply R1; [lia|done|done].
    + unfold in_file, BSIZE in *. mlia.
    + lia.
    + done.
    + by rewrite (ev_old _ _ _ _ _ E1).
  - intros k Hk Hin Hz Hnz. assert (Hk0 : 0 <= k) by (unfold in_file, BSIZE in *; mlia). destruct (Hd3 _ Hin) as [Hx1 _]. rewrite Hx1 in Hnz.
    rewrite Hbyte, decide_False by (done || lia). destruct (decide (baddr v1 d1 (k / BSIZE) = 0)) as [Hz1|Hz1].
    + destruct (decide (k / BSIZE = bn)) as [Eb|Eb]; [|by rewrite Ho2 in Hnz by done]. unfold fbyte. rewrite Eb, Hb2, Hz2 by (by rewrite <- Eb).
      apply nth_replicate_0.
    + rewrite (fbyte_bmapped bns v1 d1 bn v2 d2 a) by done. apply Z1; [lia|done|done|done].
Qed.

(** ** The files of a file system *)

Definition disk_inode v (i : Z) : dinode := get_dinode (dinode_off i) (v (IBLOCK i)).
Definition is_inum (i : Z) : Prop := 0 <= i < g_ninodes g.

(** Every allocated inode is well formed, and no two files share a block. *)
Record files_wf v : Prop := {
  fl_wf : fs_wf v;
  fl_file : forall i, is_inum i -> d_type (disk_inode v i) <> 0 -> file_wf v (disk_inode v i);
  fl_disj : forall i j m, is_inum i -> is_inum j -> i <> j -> d_type (disk_inode v i) <> 0 -> d_type (disk_inode v j) <> 0 ->
    file_block v (disk_inode v i) m -> ~ file_block v (disk_inode v j) m
}.

(** The abstract file system: the bytes of every allocated inode. *)
Definition files v (i : Z) : option (list Z) :=
  if d_type (disk_inode v i) =? 0 then None else Some (content v (disk_inode v i)).

(** The inode of the file is stored. *)
Definition put_inode v (i : Z) d : disk := upd v (IBLOCK i) (put_dinode (dinode_off i) d (v (IBLOCK i))).

Lemma iblock_range i : geom_ok -> is_inum i -> 2 <= IBLOCK i < bmb.
Proof. intros G Hi. unfold is_inum, bmb, BBLOCK, IBLOCK, IPB, BPB, BSIZE in *. mlia. Qed.

Lemma dinode_off_range i : 0 <= i -> (dinode_off i + 64 <= 512)%nat.
Proof. intros Hi. unfold dinode_off, IPB, SIZEOF_DINODE. mlia. Qed.

Lemma dinode_off_disjoint i j : 0 <= i -> 0 <= j -> i <> j -> IBLOCK i = IBLOCK j ->
  (dinode_off j + 64 <= dinode_off i \/ dinode_off i + 64 <= dinode_off j)%nat.
Proof. intros H1 H2 H3 H4. unfold dinode_off, IBLOCK, IPB, SIZEOF_DINODE in *. mlia. Qed.

Lemma disk_inode_put v i d : fs_wf v -> is_inum i -> dinode_typed d -> disk_inode (put_inode v i d) i = d.
Proof.
  intros W Hi Ty. unfold disk_inode, put_inode. rewrite upd_eq. apply get_put_dinode; [done|].
  pose proof (iblock_range i (fw_geom _ W) Hi). destruct (fw_geom _ W) as [G1 G2 G3]. rewrite (fw_len _ W) by lia.
  apply dinode_off_range. apply Hi.
Qed.

Lemma disk_inode_put_other v i j d : fs_wf v -> is_inum i -> is_inum j -> dinode_typed d -> i <> j ->
  disk_inode (put_inode v i d) j = disk_inode v j.
Proof.
  intros W Hi Hj Ty Hij. pose proof (iblock_range i (fw_geom _ W) Hi). destruct (fw_geom _ W) as [G1 G2 G3]. unfold disk_inode, put_inode.
  destruct (decide (IBLOCK i = IBLOCK j)) as [E|E]; [|by rewrite upd_ne by congruence].
  rewrite E, upd_eq. apply get_dinode_other; [apply Ty| |apply dinode_off_disjoint; try done; [apply Hi|apply Hj]].
  rewrite (fw_len _ W) by lia. apply dinode_off_range. apply Hi.
Qed.

Lemma put_inode_other v i d m : is_inum i -> geom_ok -> bmb <= m \/ m <= 1 -> put_inode v i d m = v m.
Proof. intros Hi G Hm. unfold put_inode. apply upd_ne. pose proof (iblock_range i G Hi). lia. Qed.

Lemma fs_wf_put v i d : fs_wf v -> is_inum i -> dinode_typed d -> fs_wf (put_inode v i d).
Proof.
  intros W Hi Ty. pose proof (iblock_range i (fw_geom _ W) Hi) as Hb. destruct (fw_geom _ W) as [G1 G2 G3].
  assert (E1 : put_inode v i d 1 = v 1) by (apply put_inode_other; [done|by split|by right]).
  assert (E2 : put_inode v i d bmb = v bmb) by (apply put_inode_other; [done|by split|by left]).
  split; rewrite ?E1; try apply W.
  - intros m Hm. unfold put_inode, upd. case_decide; [|by apply W]. rewrite length_put_dinode; [apply W; lia|].
    destruct Ty as (_ & _ & _ & _ & _ & -> & _). rewrite (fw_len _ W) by lia. pose proof (dinode_off_range i (proj1 Hi)). unfold BSIZE. lia.
  - intros m Hm. unfold put_inode, upd. case_decide; [|by apply W]. apply bytes_ok_put_dinode. apply W. lia.
  - intros m [Hm Hf]. rewrite E2 in Hf. by apply (fw_data _ W).
Qed.

Lemma meta_used v m : fs_wf v -> 0 <= m <= bmb -> is_used v m.
Proof.
  intros W Hm. destruct (fw_geom _ W) as [G1 G2 G3]. split; [lia|]. destruct (bit_free (v bmb) m) eqn:E; [|done].
  assert (Hf : is_free v m) by (split; [lia|done]). pose proof (fw_data _ W m Hf). lia.
Qed.

(** An operation on the file [d] leaves the inode blocks alone ... *)
Lemma evolve_inode bns v d v' d' i : fs_wf v -> file_wf v d -> evolve bns v d v' d' -> is_inum i -> disk_inode v' i = disk_inode v i.
Proof.
  intros W F E Hi. unfold disk_inode. pose proof (iblock_range i (fw_geom _ W) Hi). f_equal. apply (ev_frame _ _ _ _ _ E).
  - apply meta_used; [done|lia].
  - lia.
  - intros Hb. pose proof (file_block_used _ _ _ F Hb). lia.
Qed.

Lemma content_ext v v' e : (forall m, file_block v e m -> v' m = v m) -> file_wf v e -> content v' e = content v e.
Proof.
  intros Hm F. assert (Hi : ind e <> 0 -> v' (ind e) = v (ind e)) by (intros; apply Hm; split; [done|by left]).
  unfold content. apply list_fmap_ext. intros _ k Hk%list_elem_of_lookup_2. apply elem_of_seqZ in Hk.
  unfold fbyte. rewrite (baddr_ext v v') by done. f_equal. apply Hm.
  pose proof (iw_size _ _ F). assert (Hin : in_file (k / BSIZE)) by (unfold in_file, BSIZE in *; mlia).
  split; [apply (iw_map _ _ F); [apply Hin|unfold BSIZE; mlia]|]. right. by exists (k / BSIZE).
Qed.

(** ... and the other files. *)
Lemma evolve_other bns v d v' d' e : fs_wf v -> file_wf v d -> evolve bns v d v' d' -> file_wf v e ->
  (forall m, file_block v d m -> ~ file_block v e m) ->
  file_wf v' e /\ content v' e = content v e /\ (forall m, file_block v' e m <-> file_block v e m) /\
  (forall m, file_block v' d' m -> ~ file_block v' e m).
Proof.
  intros W F E Fe Hd. assert (Hm : forall m, file_block v e m -> v' m = v m).
  { intros m Hm. destruct (file_block_used _ _ _ Fe Hm) as [H1 H2]. apply (ev_frame _ _ _ _ _ E); [done|lia|]. intros Hf. by apply (Hd m). }
  assert (Hi : ind e <> 0 -> v' (ind e) = v (ind e)) by (intros; apply Hm; split; [done|by left]).
  assert (Hb : forall m, file_block v' e m <-> file_block v e m) by (intros; by apply file_block_ext).
  split_and!; [by apply (file_wf_ext v); [| |apply E]|by apply content_ext|done|].
  intros m H1%(ev_own _ _ _ _ _ E). rewrite Hb. destruct H1 as [H1|H1]; [by apply Hd|]. intros H2.
  destruct (file_block_used _ _ _ Fe H2) as [_ H3]. by eapply used_not_free.
Qed.

(** The content after a write that may have moved the end of the file. *)
Lemma written_content bns v d off src n v' d' d2 : file_wf v d -> 0 <= off <= d_size d -> 0 <= n -> off + n <= MAXFILE * BSIZE ->
  n <= Z.of_nat (length src) -> written bns v d off src n v' d' -> d_addrs d2 = d_addrs d' -> d_size d2 = Z.max (d_size d) (off + n) ->
  content v' d2 = splice (Z.to_nat off) (take (Z.to_nat n) src) (content v d).
Proof.
  intros F Hoff Hn Hmax Hl [E N _ R _] Ha Hs.
  assert (Hc : forall k, fbyte v' d2 k = fbyte v' d' k).
  { intros k. unfold fbyte, baddr, ind, addr_at. by rewrite Ha. }
  pose proof (iw_size _ _ F) as Hsz.
  assert (Hlt : length (take (Z.to_nat n) src) = Z.to_nat n) by (rewrite length_take; lia).
  apply list_eq. intros k. destruct (decide (Z.of_nat k < d_size d2)) as [Hk|Hk].
  - assert (Hin : in_file (Z.of_nat k / BSIZE)) by (unfold in_file, BSIZE in *; mlia).
    unfold content at 1. rewrite list_lookup_fmap, lookup_seqZ_lt by lia. simpl. rewrite Hc, Z.add_0_l. unfold splice.
    destruct (decide (Z.of_nat k < off)) as [H1|H1].
    + rewrite lookup_app_l by (rewrite length_take; unfold content; rewrite length_fmap, length_seqZ; lia).
      rewrite lookup_take_lt by lia. unfold content. rewrite list_lookup_fmap, lookup_seqZ_lt by lia. simpl. f_equal.
      apply R; [lia|done|]. apply (iw_map _ _ F); [apply Hin|unfold BSIZE; mlia].
    + rewrite lookup_app_r by (rewrite length_take; lia).
      rewrite length_take. unfold content. rewrite length_fmap, length_seqZ, Nat.min_l by lia.
      destruct (decide (Z.of_nat k < off + n)) as [H2|H2].
      * rewrite lookup_app_l by lia. rewrite lookup_take_lt by lia. destruct (N (Z.of_nat k)) as [_ ->]; [lia|done|].
        destruct (lookup_lt_is_Some_2 src (k - Z.to_nat off)) as [x Hx]; [lia|]. rewrite Hx. f_equal.
        apply nth_lookup_Some. by replace (Z.to_nat (Z.of_nat k - off)) with (k - Z.to_nat off)%nat by lia.
      * rewrite lookup_app_r by lia. rewrite lookup_drop, list_lookup_fmap, lookup_seqZ_lt by lia. simpl. rewrite Hlt. f_equal.
        rewrite R; [f_equal; lia|lia|done|]. apply (iw_map _ _ F); [apply Hin|unfold BSIZE; mlia].
  - rewrite !lookup_ge_None_2; [done| |]; unfold splice, content; rewrite ?length_app, ?length_take, ?length_drop, ?length_fmap, ?length_seqZ; lia.
Qed.

(** The inode and the disk at the end of [writei]. *)
Definition grown d d' (last : Z) : dinode := if d_size d <? last then set_size last d' else d'.
Definition stored v' d d' (i last : Z) : disk := if d_size d <? last then put_inode v' i (grown d d' last) else v'.

Lemma set_size_wf v d n : file_wf v d -> 0 <= n <= MAXFILE * BSIZE -> (forall bn, 0 <= bn -> bn * BSIZE < n -> baddr v d bn <> 0) ->
  file_wf v (set_size n d).
Proof.
  intros [(T1 & T2 & T3 & T4 & T5 & T6 & T7) F2 F3 F4 F5 F6] Hn Hm. split; try done; [|by simpl; lia].
  split_and!; try done. unfold is_uint. simpl. unfold MAXFILE, NDIRECT, NINDIRECT, BSIZE in *. lia.
Qed.

Lemma grown_wf bns v d off src n v' d' : file_wf v d -> 0 <= off <= d_size d -> 0 <= n -> off + n <= MAXFILE * BSIZE ->
  written bns v d off src n v' d' -> file_wf v' (grown d d' (off + n)).
Proof.
  intros F Hoff Hn Hmax [E N _ R _]. unfold grown. destruct (d_size d <? off + n) eqn:Es; [|apply E]. bool_hyps.
  apply set_size_wf; [apply E|lia|]. intros bn Hbn Hlt. destruct (decide (bn * BSIZE < d_size d)) as [H|H].
  - apply (iw_map _ _ (ev_file _ _ _ _ _ E)); [done|]. by destruct (ev_meta _ _ _ _ _ E) as (_ & _ & _ & _ & ->).
  - destruct (N (bn * BSIZE)) as [H1 _]; [lia| |by rewrite Z.div_mul in H1].
    rewrite Z.div_mul by done. unfold in_file, BSIZE in *. lia.
Qed.

(** Storing an inode changes no file block. *)
Lemma put_inode_file v i d e : fs_wf v -> is_inum i -> dinode_typed d -> file_wf v e ->
  file_wf (put_inode v i d) e /\ content (put_inode v i d) e = content v e /\
  forall m, file_block (put_inode v i d) e m <-> file_block v e m.
Proof.
  intros W Hi Ty F. pose proof (fw_geom _ W) as G.
  assert (Hm : forall m, bmb <= m -> put_inode v i d m = v m) by (intros; apply put_inode_other; auto).
  assert (Hind : ind e <> 0 -> put_inode v i d (ind e) = v (ind e)).
  { intros H. destruct (iw_ind _ _ F H). apply Hm. lia. }
  split_and!.
  - apply (file_wf_ext v); [done|done|]. intros m [H1 H2]. split; [done|]. by rewrite Hm by lia.
  - apply content_ext; [|done]. intros m Hb%(file_block_used _ _ _ F). apply Hm. lia.
  - intros m. by apply file_block_ext.
Qed.

Lemma baddr_grown v d d' last bn : baddr v (grown d d' last) bn = baddr v d' bn.
Proof. unfold grown. by destruct (_ <? _). Qed.

Lemma file_block_grown v d d' last m : file_block v (grown d d' last) m <-> file_block v d' m.
Proof. unfold grown. by destruct (_ <? _). Qed.

Lemma grown_fields d d' last : same_meta d d' -> d_type (grown d d' last) = d_type d /\ d_addrs (grown d d' last) = d_addrs d' /\
  d_size (grown d d' last) = Z.max (d_size d) last.
Proof.
  intros (M1 & _ & _ & _ & M5). unfold grown. destruct (d_size d <? last) eqn:E; bool_hyps; simpl; split_and!; try done; lia.
Qed.

(** The disk at the end of [writei] has the new inode, the other inodes and the blocks [writei_loop] left. *)
Lemma stored_spec bns v i off src n v' d' : let d := disk_inode v i in let v2 := stored v' d d' i (off + n) in
  fs_wf v -> file_wf v d -> is_inum i -> 0 <= off <= d_size d -> 0 <= n -> off + n <= MAXFILE * BSIZE -> written bns v d off src n v' d' ->
  fs_wf v2 /\ disk_inode v2 i = grown d d' (off + n) /\ (forall j, is_inum j -> j <> i -> disk_inode v2 j = disk_inode v j) /\
  forall e, file_wf v' e -> file_wf v2 e /\ content v2 e = content v' e /\ forall m, file_block v2 e m <-> file_block v' e m.
Proof.
  intros d v2 W F Hi Hoff Hn Hmax HW. pose proof (wr_evolve _ _ _ _ _ _ _ _ HW) as E.
  pose proof (iw_typed _ _ (grown_wf _ _ _ _ _ _ _ _ F Hoff Hn Hmax HW)) as Ty.
  assert (Hin : forall j, is_inum j -> disk_inode v' j = disk_inode v j) by (intros; by apply (evolve_inode bns v d v' d')).
  unfold v2, stored. destruct (d_size d <? off + n) eqn:Es.
  - split_and!; [by apply fs_wf_put; [apply E| |]|by apply disk_inode_put; [apply E| |]| |].
    + intros j Hj Hne. rewrite disk_inode_put_other; [by apply Hin|apply E|done|done|done|done].
    + intros e Fe. by apply put_inode_file; [apply E| | |].
  - split_and!; [apply E| |intros; by apply Hin|done]. rewrite Hin by done. unfold grown. rewrite Es. bool_hyps.
    symmetry. apply (wr_same _ _ _ _ _ _ _ _ HW). lia.
Qed.

Lemma stored_need bns v' d d' i last : fs_wf v' -> file_wf v' d' -> is_inum i ->
  need (stored v' d d' i last) (grown d d' last) bns = need v' d' bns /\ nfree (stored v' d d' i last) = nfree v'.
Proof.
  intros W F Hi. pose proof (fw_geom _ W) as G. pose proof (iblock_range i G Hi).
  assert (Hm : forall m, bmb <= m -> stored v' d d' i last m = v' m).
  { intros m Hm. unfold stored. destruct (_ <? _); [|done]. apply put_inode_other; auto. }
  assert (Ei : ind (grown d d' last) = ind d') by (unfold grown; by destruct (_ <? _)).
  split; [|unfold nfree; by rewrite Hm by lia]. unfold need. rewrite Ei. f_equal. f_equal. apply filter_ext_in. intros bn _.
  rewrite (baddr_ext v') by (rewrite Ei; intros Hz; destruct (iw_ind _ _ F Hz); apply Hm; lia). by rewrite baddr_grown.
Qed.

(** The superblock is not touched. *)
Lemma stored_superblock bns v v' d d' i last : fs_wf v -> file_wf v d -> evolve bns v d v' d' -> is_inum i -> stored v' d d' i last 1 = v 1.
Proof.
  intros W F E Hi. pose proof (fw_geom _ W) as G. pose proof (bmb_ge G). transitivity (v' 1).
  - unfold stored. destruct (_ <? _); [|done]. apply put_inode_other; auto. lia.
  - apply (ev_frame _ _ _ _ _ E); [apply meta_used; [done|lia]|lia|]. intros Hb. pose proof (file_block_used _ _ _ F Hb). lia.
Qed.

(** A write to the file of inode [i] replaces the bytes of that file and keeps every other file. *)
Lemma written_files bns v i off src n v' d' : let d := disk_inode v i in let v2 := stored v' d d' i (off + n) in
  files_wf v -> is_inum i -> d_type d <> 0 -> 0 <= off <= d_size d -> 0 <= n -> off + n <= MAXFILE * BSIZE -> n <= Z.of_nat (length src) ->
  written bns v d off src n v' d' ->
  files_wf v2 /\ disk_inode v2 i = grown d d' (off + n) /\
  forall j, is_inum j -> files v2 j = if decide (j = i) then Some (splice (Z.to_nat off) (take (Z.to_nat n) src) (content v d)) else files v j.
Proof.
  intros d v2 W Hi Ht Hoff Hn Hmax Hl HW. pose proof (wr_evolve _ _ _ _ _ _ _ _ HW) as E. pose proof (fl_file _ W i Hi Ht) as F. fold d in F.
  destruct (grown_fields d d' (off + n) (ev_meta _ _ _ _ _ E)) as (G1 & G2 & G3).
  pose proof (grown_wf _ _ _ _ _ _ _ _ F Hoff Hn Hmax HW) as F2.
  destruct (stored_spec bns v i off src n v' d' (fl_wf _ W) F Hi Hoff Hn Hmax HW) as (W2 & Hi2 & Hj2 & Hf2). fold d v2 in W2, Hi2, Hj2, Hf2.
  clearbody v2.
  assert (Hoth : forall j, is_inum j -> j <> i -> d_type (disk_inode v j) <> 0 -> file_wf v' (disk_inode v j) /\
    content v' (disk_inode v j) = content v (disk_inode v j) /\
    (forall m, file_block v' (disk_inode v j) m <-> file_block v (disk_inode v j) m) /\
    (forall m, file_block v' d' m -> ~ file_block v' (disk_inode v j) m)).
  { intros j Hj Hne Hjt. apply (evolve_other bns v d); try done; [apply W|by apply (fl_file _ W)|].
    intros m. by apply (fl_disj _ W i j). }
  split_and!; [split; [done| |]|done|].
  - intros j Hj. destruct (decide (j = i)) as [->|Hne]; [intros _; rewrite Hi2; by apply Hf2|]. rewrite Hj2 by done. intros Hjt.
    by apply Hf2, Hoth.
  - assert (Hij : forall j m, is_inum j -> j <> i -> d_type (disk_inode v j) <> 0 -> file_block v2 (grown d d' (off + n)) m ->
      ~ file_block v2 (disk_inode v j) m).
    { intros j m Hj Hne Hjt Hb. destruct (Hoth j Hj Hne Hjt) as (O1 & _ & _ & O4). destruct (Hf2 _ F2) as (_ & _ & ->) in Hb.
      rewrite file_block_grown in Hb. destruct (Hf2 _ O1) as (_ & _ & ->). by apply O4. }
    intros j k m Hj Hk Hne. destruct (decide (j = i)) as [->|Hji].
    + rewrite Hi2, Hj2 by done. intros _ Hkt. by apply Hij.
    + rewrite (Hj2 j) by done. intros Hjt. destruct (decide (k = i)) as [->|Hki].
      * rewrite Hi2. intros _ Hb1 Hb2. by apply (Hij j m).
      * rewrite Hj2 by done. intros Hkt. destruct (Hoth j Hj Hji Hjt) as (O1 & _ & O3 & _).
        destruct (Hoth k Hk Hki Hkt) as (P1 & _ & P3 & _). destruct (Hf2 _ O1) as (_ & _ & ->). destruct (Hf2 _ P1) as (_ & _ & ->).
        rewrite O3, P3. by apply (fl_disj _ W j k).
  - intros j Hj. unfold files. case_decide as Hji.
    + subst j. rewrite Hi2, G1, (proj2 (Z.eqb_neq _ _)) by done. f_equal. destruct (Hf2 _ F2) as (_ & -> & _).
      by apply (written_content bns v d off src n v' d').
    + rewrite Hj2 by done. destruct (d_type (disk_inode v j) =? 0) eqn:Et; [done|]. bool_hyps. f_equal.
      destruct (Hoth j Hj Hji Et) as (O1 & O2 & _). destruct (Hf2 _ O1) as (_ & -> & _). done.
Qed.
(** A piece of the content inside one block. *)
Lemma content_piece v d k m : fs_wf v -> file_wf v d -> 0 <= k -> 0 <= m -> k + m <= d_size d -> k mod BSIZE + m <= BSIZE ->
  take (Z.to_nat m) (drop (Z.to_nat (k mod BSIZE)) (v (baddr v d (k / BSIZE)))) = take (Z.to_nat m) (drop (Z.to_nat k) (content v d)).
Proof.
  intros W F Hk Hm Hs Hb. destruct (decide (m = 0)) as [->|Hm0]; [done|].
  assert (Hin : in_file (k / BSIZE)) by (pose proof (iw_size _ _ F); unfold in_file, BSIZE in *; mlia).
  assert (Hnz : baddr v d (k / BSIZE) <> 0) by (apply (iw_map _ _ F); [apply Hin|unfold BSIZE in *; mlia]).
  destruct (iw_blk _ _ F _ Hin Hnz) as (_ & [Hr _] & _). pose proof (fw_len _ W _ Hr) as Hlen.
  apply list_eq. intros j. destruct (decide (j < Z.to_nat m)%nat) as [Hj|Hj]; [|by rewrite !lookup_take_ge by lia].
  rewrite !lookup_take_lt, !lookup_drop by done. unfold content. rewrite list_lookup_fmap, lookup_seqZ_lt by lia. simpl.
  unfold fbyte. replace (Z.of_nat (Z.to_nat k + j)) with (k + Z.of_nat j) by lia. rewrite Z.add_0_l.
  replace ((k + Z.of_nat j) / BSIZE) with (k / BSIZE) by (unfold BSIZE in *; mlia).
  replace ((k + Z.of_nat j) mod BSIZE) with (k mod BSIZE + Z.of_nat j) by (unfold BSIZE in *; mlia).
  replace (Z.to_nat (k mod BSIZE + Z.of_nat j)) with (Z.to_nat (k mod BSIZE) + j)%nat by (unfold BSIZE in *; mlia).
  destruct (lookup_lt_is_Some_2 (v (baddr v d (k / BSIZE))) (Z.to_nat (k mod BSIZE) + j)) as [x Hx]; [rewrite Hlen; unfold BSIZE in *; mlia|].
  rewrite Hx. f_equal. symmetry. by apply nth_lookup_Some.
Qed.
End layout.
