(* ===== verification/FsSpec.v ===== *)
(** * Files as byte arrays: the specification of the content layer of fs.c

    Inside a transaction the file system sees the blocks below the log through one function, the
    view of the cache; [at_tx] relates a state to it, to the blocks whose buffers the thread holds and
    to the blocks logged so far.  Over it, [balloc], [bmap], [readi] and [writei] do what FsLayout.v
    says of the disk as a whole.  The lemmas [t_*] take what runs after the step. *)

From S2P Require Import Prelude Bio BufferCache Bytes Log LogSpec LogCrash Fs FsLayout.

Section steps.
Context {B : Type} {OPS : BufferOps B} {BC : BufferCache B}.

(** The disk and the writes at the start of the transaction, and the place of the log. *)
Variables (g : geom) (d0 : disk) (t0 : list (Z * list Z)) (lb lsize nblk : Z).
Abbreviation start := (g_start g).
Implicit Types (s : fsys B) (v : disk) (H : gset Z) (l : list Z).

Record at_tx v H l s : Prop := {
  at_tx_ex : exists c, tx (f_log s) c d0 t0 ∅ l /\ home_eq start (c_view c) v /\ c_busy c = H /\ c_size c = nblk;
  at_busy : l_busy (f_log s) = lb;
  at_start : l_start (f_log s) = start;
  at_lsize : l_size (f_log s) = lsize
}.

(** A transaction is open, in a log as large as mkfs.c makes it. *)
Definition log_open : Prop := lb <> 0 /\ 10 <= lsize.

Definition holds s (b : nat) (n : Z) : Prop := bc_holds (l_bc (f_log s)) b n.
Definition keep_but (H : gset Z) s s' : Prop := forall b m, m ∉ H -> holds s b m -> holds s' b m.
(** What every step on a block keeps. *)
Definition kept (H : gset Z) s s' : Prop := f_inode s' = f_inode s /\ held s' = held s /\ keep_but H s s'.

Lemma kept_refl s : kept ∅ s s.
Proof. split_and!; try done. by intros b m _. Qed.

Lemma kept_trans H1 H2 s1 s2 s3 : kept H1 s1 s2 -> kept H2 s2 s3 -> kept (H1 ∪ H2) s1 s3.
Proof.
  intros (A1 & A2 & A3) (C1 & C2 & C3). split_and!; [congruence|congruence|].
  intros b m Hm Hb. apply C3; [set_solver|]. apply A3; [set_solver|done].
Qed.

Lemma kept_weaken H1 H2 s1 s2 : kept H1 s1 s2 -> H1 ⊆ H2 -> kept H2 s1 s2.
Proof. intros (A1 & A2 & A3) Hs. split_and!; try done. intros b m Hm. apply A3. set_solver. Qed.

Lemma runs_lift_l {A} (m : K (lst B) A) s Q : runs m (f_log s) (fun a b => Q a (set_f_log b s)) -> runs (lift_l m) s Q.
Proof. unfold runs, lift_l. by destruct (m (f_log s)). Qed.

(** Room for another block in the log and in the buffers. *)
Definition fits H l : Prop := (size (H ∪ list_to_set l : gset Z) <= 8)%nat.

Lemma fits_mono H l H' l' : fits H' l' -> H ⊆ H' -> (forall x, x ∈ l -> x ∈ l' \/ x ∈ H') -> fits H l.
Proof.
  unfold fits. intros Hf Hs Hl. etrans; [|exact Hf]. apply subseteq_size. intros x Hx.
  apply elem_of_union in Hx as [Hx|Hx]; [set_solver|]. apply elem_of_list_to_set in Hx.
  apply Hl in Hx as [Hx|Hx]; [|set_solver]. apply elem_of_union_r. by apply elem_of_list_to_set.
Qed.

Lemma t_bread v H l s n (Q : nat -> fsys B -> Prop) : at_tx v H l s -> 0 <= n < start -> n ∉ H -> fits H l ->
  (forall b s', at_tx v ({[ n ]} ∪ H) l s' -> holds s' b n -> kept ∅ s s' -> Q b s') ->
  runs (f_bread 1 n) s Q.
Proof.
  intros [(c & T & Hv & Hb & Hs) H1 H2 H3] Hn HH Hf HQ. apply runs_lift_l.
  eapply runs_conseq; [apply (tx_bread (f_log s) c d0 t0 ∅ l n T)|].
  - pose proof (lg_room _ _ _ (tx_geom _ _ _ _ _ _ T)). split; [lia|]. rewrite Hb. split; [done|]. intros _.
    unfold pinned. rewrite Hb, (tx_dirty _ _ _ _ _ _ T). unfold fits in Hf. unfold NBUF. lia.
  - rewrite H2. lia.
  - intros b s' (T' & Hh & (F1 & F2 & F3 & F4 & F5 & F6 & F7) & Hk). apply HQ.
    + split; cbn [f_log set_f_log]; try congruence.
      exists (set_busy ({[ n ]} ∪ c_busy c) c). by rewrite <- Hb.
    + done.
    + split_and!; [done|done|]. intros b' m _. by apply Hk.
Qed.

Lemma t_data v H l s b n (Q : list Z -> fsys B -> Prop) : at_tx v H l s -> holds s b n -> 0 <= n < start ->
  Q (v n) s -> runs (f_data b) s Q.
Proof.
  intros [(c & T & Hv & Hb & Hs) H1 H2 H3] Hh Hn HQ. apply runs_lift_l.
  eapply step_data; [apply T|exact Hh|]. rewrite Hv by done. destruct s. done.
Qed.

Lemma t_brelse v H l s b n (Q : unit -> fsys B -> Prop) : at_tx v H l s -> holds s b n ->
  (forall s', at_tx v (H ∖ {[ n ]}) l s' -> kept {[ n ]} s s' -> Q tt s') ->
  runs (f_brelse b) s Q.
Proof.
  intros [(c & T & Hv & Hb & Hs) H1 H2 H3] Hh HQ. apply runs_lift_l.
  eapply runs_conseq; [apply (tx_brelse (f_log s) c d0 t0 ∅ l b n T Hh); set_solver|].
  intros [] s' (T' & (F1 & F2 & F3 & F4 & F5 & F6 & F7) & Hk). apply HQ.
  - split; cbn [f_log set_f_log]; try congruence.
    eexists. split; [exact T'|]. cbn. by rewrite Hb.
  - split_and!; [done|done|]. intros b' m Hm. apply Hk. set_solver.
Qed.

Lemma t_update {A} v H l s b n w (k : K (fsys B) A) Q : at_tx v H l s -> holds s b n -> n ∈ H -> 0 <= n < start -> log_open -> fits H l ->
  (forall s', at_tx (upd v n w) H (log_add n l) s' -> kept ∅ s s' -> runs k s' Q) ->
  runs (f_put b w ;;; f_log_write b ;;; k) s Q.
Proof.
  intros [(c & T & Hv & Hb & Hs) H1 H2 H3] Hh HnH Hn [Hlb Hls] Hf HQ. apply runs_bind. apply runs_lift_l.
  eapply runs_conseq; [apply (tx_put (f_log s) c d0 t0 ∅ l b n w T Hh)|].
  intros [] s1 (T1 & (F1 & F2 & F3 & F4 & F5 & F6 & F7) & K1). apply runs_bind. apply runs_lift_l.
  assert (Hsz : (size (c_busy c ∪ list_to_set l : gset Z) <= 8)%nat) by (by rewrite Hb).
  assert (Hlen : (length l <= 8)%nat).
  { etrans; [|exact Hsz]. rewrite <- (size_list_to_set (C := gset Z) l) by apply (lg_nodup _ _ _ (tx_geom _ _ _ _ _ _ T)).
    apply subseteq_size. set_solver. }
  cbn [f_log set_f_log]. eapply runs_conseq; [apply (tx_log_write s1 _ d0 t0 _ l b n T1)|].
  - by apply K1.
  - by rewrite F3, H1.
  - unfold LOGSIZE. lia.
  - rewrite F2, H3. lia.
  - unfold pinned. cbn. rewrite (tx_dirty _ _ _ _ _ _ T). unfold NBUF. lia.
  - intros [] s2 (c2 & T2 & M1 & M2 & M3 & M4 & M5 & M6 & M7 & M8).
    replace (({[ n ]} ∪ ∅) ∖ {[ n ]} : gset Z) with (∅ : gset Z) in T2 by set_solver.
    cbn in M4, M5, M6. apply HQ.
    + split; cbn [f_log set_f_log]; try congruence. exists c2. split; [done|]. split_and!; try congruence.
      intros m Hm. rewrite M6 by (rewrite F1, H2; lia). unfold upd. case_decide; [done|]. by apply Hv.
    + split_and!; [done|by etrans; [exact M8|]|]. intros b' m _ Hb'. by apply M7, K1.
Qed.

(** The steps in between have released other blocks only. *)
Lemma kept_all v H l s s' X : at_tx v H l s -> kept X s s' -> X ## H -> kept ∅ s s'.
Proof.
  intros [(c & T & Hv & Hb & Hs) _ _ _] (K1 & K2 & K3) HX. split_and!; [done|done|]. intros b m _ Hh. apply K3; [|done].
  destruct (holds_at _ c b m (tx_at _ _ _ _ _ _ T) Hh) as (_ & _ & _ & Hm). set_solver.
Qed.

Lemma at_tx_view v v' H l s : at_tx v H l s -> (forall m, 0 <= m < start -> v m = v' m) -> at_tx v' H l s.
Proof.
  intros [(c & T & Hv & Hb & Hs) H1 H2 H3] E. split; try done. exists c. split_and!; try done.
  intros m Hm. by rewrite Hv, E.
Qed.

Lemma lift_l_readsb d s : lift_l (readsb d) s =
  (let* bp := f_bread d 1 in let* blk := f_data bp in f_brelse bp ;;;
   kret (Superblock (get_le 4 0 blk) (get_le 4 4 blk) (get_le 4 8 blk) (get_le 4 12 blk))) s.
Proof.
  unfold readsb, f_bread, f_data, f_brelse, lift_l, kbind, buf_data, kgets, kret. destruct (lift_b (bc_bread d 1) (f_log s)); try done.
  cbn [f_log set_f_log]. by destruct (lift_b (bc_brelse a) s0).
Qed.

Lemma t_readsb v H l s (Q : superblock -> fsys B -> Prop) : at_tx v H l s -> 1 < start -> 1 ∉ H -> fits H l ->
  (forall sb s', at_tx v H l s' -> sb_size sb = get_le 4 0 (v 1) -> sb_ninodes sb = get_le 4 8 (v 1) -> kept ∅ s s' -> Q sb s') ->
  runs (lift_l (readsb 1)) s Q.
Proof.
  intros T Hst H1 Hf HQ. unfold runs. rewrite lift_l_readsb.
  apply runs_bind, (t_bread v H l s 1); [done|lia|done|done|]. intros b s1 T1 Hh K1.
  eapply runs_bind, t_data; [exact T1|exact Hh|lia|]. eapply runs_bind, t_brelse; [exact T1|exact Hh|].
  intros s2 T2 K2. apply runs_ret. apply HQ; try done.
  - replace (({[1]} ∪ H) ∖ {[1]}) with H in T2 by set_solver. done.
  - eapply (kept_all v H l); [done|by eapply kept_trans|set_solver].
Qed.

(** A block that is not held has been read: it is changed, logged and released. *)
Lemma t_modify {A} v H l s n w (k : K (fsys B) A) Q b s1 : at_tx v H l s -> 0 <= n < start -> n ∉ H -> log_open ->
  fits ({[ n ]} ∪ H) l -> at_tx v ({[ n ]} ∪ H) l s1 -> holds s1 b n -> kept ∅ s s1 ->
  (forall s', at_tx (upd v n w) H (log_add n l) s' -> kept ∅ s s' -> runs k s' Q) ->
  runs (f_put b w ;;; f_log_write b ;;; f_brelse b ;;; k) s1 Q.
Proof.
  intros T Hn HnH Hls Hf T1 Hh K1 HQ. eapply t_update; [exact T1|exact Hh|set_solver|done|done|done|].
  intros s2 T2 K2. eapply runs_bind, t_brelse; [exact T2|by apply K2|]. intros s3 T3 K3. apply HQ.
  - by replace (({[n]} ∪ H) ∖ {[n]}) with H in T3 by set_solver.
  - eapply (kept_all v H l); [done|eapply kept_trans; [exact K1|by eapply kept_trans]|set_solver].
Qed.

(** The same at the end of a function. *)
Lemma t_modify_last v H l s n w (Q : unit -> fsys B -> Prop) b s1 : at_tx v H l s -> 0 <= n < start -> n ∉ H -> log_open ->
  fits ({[ n ]} ∪ H) l -> at_tx v ({[ n ]} ∪ H) l s1 -> holds s1 b n -> kept ∅ s s1 ->
  (forall s', at_tx (upd v n w) H (log_add n l) s' -> kept ∅ s s' -> Q tt s') ->
  runs (f_put b w ;;; f_log_write b ;;; f_brelse b) s1 Q.
Proof.
  intros T Hn HnH Hls Hf T1 Hh K1 HQ.
  assert (E : runs (f_put b w ;;; f_log_write b ;;; f_brelse b ;;; kret tt) s1 Q).
  { eapply t_modify; [exact T|done|done|done|done|done|done|done|]. intros s' T' K'. apply runs_ret. by apply HQ. }
  revert E. unfold runs, kbind, kret. destruct (f_put b w s1); try done. destruct (f_log_write b s0); try done.
  by destruct (f_brelse b s2) as [[]| | |].
Qed.

Lemma t_bzero v H l s n (Q : unit -> fsys B -> Prop) : at_tx v H l s -> 0 <= n < start -> n ∉ H -> log_open -> fits ({[ n ]} ∪ H) l ->
  (forall s', at_tx (upd v n (replicate (Z.to_nat BSIZE) 0)) H (log_add n l) s' -> kept ∅ s s' -> Q tt s') ->
  runs (Fs.bzero 1 n) s Q.
Proof.
  intros T Hn HnH Hls Hf HQ. unfold Fs.bzero. eapply runs_bind, t_bread; [exact T|done|done| |].
  - eapply fits_mono; [exact Hf|set_solver|auto].
  - intros b s1 T1 Hh K1. by eapply (t_modify_last v H l s n).
Qed.

(** ** balloc *)

Lemma bitmap_starts_one : 0 < g_size g <= BPB -> bitmap_starts (g_size g) = [0].
Proof.
  intros Hs. unfold bitmap_starts. replace ((g_size g + BPB - 1) / BPB) with 1 by (unfold BPB, BSIZE in *; mlia). done.
Qed.

(** The blocks the thread holds are in use, and are neither the superblock nor the bitmap. *)
Definition held_ok v H : Prop := forall m, m ∈ H -> bmb g < m /\ is_used g v m.

(** Room for [n] more blocks besides the bitmap. *)
Definition room (n : nat) H l : Prop := (size ({[ bmb g ]} ∪ H ∪ list_to_set l : gset Z) + n <= 8)%nat.

Lemma room_fits n H l : room n H l -> fits H l.
Proof. unfold room, fits. intros Hr. assert (size (H ∪ list_to_set l : gset Z) <= size ({[ bmb g ]} ∪ H ∪ list_to_set l : gset Z))%nat; [apply subseteq_size; set_solver|lia]. Qed.

Lemma room_weaken n n' H l : room n H l -> (n' <= n)%nat -> room n' H l.
Proof. unfold room. lia. Qed.

Lemma room_add n H l (X : gset Z) H' l' : room (size X + n) H l -> H' ⊆ {[ bmb g ]} ∪ X ∪ H -> (forall x, x ∈ l' -> x ∈ l \/ x ∈ X \/ x = bmb g \/ x ∈ H) -> room n H' l'.
Proof.
  unfold room. intros Hr HX Hl. assert (Hs : {[ bmb g ]} ∪ H' ∪ list_to_set l' ⊆ X ∪ ({[ bmb g ]} ∪ H ∪ list_to_set l : gset Z)).
  { intros x Hx. apply elem_of_union in Hx as [Hx|Hx]; [set_solver|]. apply elem_of_list_to_set in Hx.
    apply Hl in Hx as [Hx|[Hx|[Hx|Hx]]]; [|set_solver|set_solver|set_solver]. apply elem_of_union_r, elem_of_union_r. by apply elem_of_list_to_set. }
  apply subseteq_size in Hs. rewrite (size_union_alt X) in Hs. pose proof (subseteq_size (({[ bmb g ]} ∪ H ∪ list_to_set l) ∖ X) ({[ bmb g ]} ∪ H ∪ list_to_set l)) as Hd.
  specialize (Hd ltac:(set_solver)). lia.
Qed.

Lemma t_balloc v H l s (Q : Z -> fsys B -> Prop) : at_tx v H l s -> fs_wf g v -> (1 <= nfree g v)%nat -> held_ok v H -> log_open -> room 1 H l ->
  (forall a s', is_free g v a -> at_tx (alloc g v a) H (log_add a (log_add (bmb g) l)) s' -> kept ∅ s s' -> Q a s') ->
  runs (Fs.balloc 1) s Q.
Proof.
  intros T W Hn HH Hls Hr HQ. pose proof (bmb_ge _ (fw_geom _ _ W)) as Hb. destruct (fw_geom _ _ W) as [G1 G2 G3].
  assert (Hb1 : 1 ∉ H) by (intros [Hx _]%HH; lia). assert (Hbb : bmb g ∉ H) by (intros [Hx _]%HH; lia).
  unfold Fs.balloc. eapply runs_bind, t_readsb; [exact T|lia|done|by eapply room_fits|].
  intros sb s1 T1 E1 E2 K1. rewrite E1, E2, (fw_size _ _ W), (fw_ninodes _ _ W), bitmap_starts_one by lia.
  apply runs_bind. cbn [for_first]. apply runs_bind. apply runs_bind. change (BBLOCK 0 (g_ninodes g)) with (bmb g).
  eapply t_bread; [exact T1|lia|done|by eapply room_fits|]. intros b s2 T2 Hh K2.
  eapply runs_bind, t_data; [exact T2|done|lia|]. replace (Z.min BPB (g_size g - 0)) with (g_size g) by lia.
  destruct (find_free g v (fw_geom _ _ W) Hn) as (a & -> & Fa). pose proof (free_data _ _ _ W Fa) as Ha. rewrite Z.add_0_l.
  eapply (t_modify v H l s1 (bmb g)); [done|lia|done|done| |done|done|done|].
  { unfold room, fits in *. lia. }
  intros s3 T3 K3. eapply runs_bind, (t_bzero _ H _ s3 a); [exact T3|lia| |done| |].
  - intros [_ Hu]%HH. by eapply used_not_free.
  - apply (room_fits 0). apply (room_add 0 H l {[ a ]}); [by rewrite size_singleton|set_solver|].
    intros x [->|Hx]%elem_of_log_add; auto.
  - intros s4 T4 K4. apply runs_ret, runs_ret, runs_ret. apply HQ; [done|done|].
    eapply kept_weaken; [eapply kept_trans; [exact K1|eapply kept_trans; [exact K3|exact K4]]|set_solver].
Qed.

(** ** bmap *)

(** The cached inode [ip] has the on-disk fields [d]. *)
Definition has_ino s (ip : nat) (d : dinode) : Prop :=
  (ip < length (f_inode s))%nat /\ i_dev (inode_at s ip) = 1 /\ i_d (inode_at s ip) = d.

(** Only the on-disk fields of [ip] have changed in the inode cache. *)
Definition ikept ip (d : dinode) s s' : Prop := f_inode s' = alter (set_i_d d) ip (f_inode s) /\ held s' = held s.

Lemma inode_at_alter f ip s s' : (ip < length (f_inode s))%nat -> f_inode s' = alter f ip (f_inode s) -> inode_at s' ip = f (inode_at s ip).
Proof.
  intros Hl E. unfold inode_at. rewrite E. destruct (lookup_lt_is_Some_2 _ _ Hl) as [x Hx].
  rewrite (nth_lookup_Some _ _ _ _ Hx). apply nth_lookup_Some. by rewrite list_lookup_alter_eq, Hx.
Qed.

Lemma ikept_ino ip d d' s s' : has_ino s ip d -> ikept ip d' s s' -> has_ino s' ip d'.
Proof.
  intros (H1 & H2 & H3) [E1 E2]. split; [by rewrite E1, length_alter|]. by rewrite (inode_at_alter _ _ _ _ H1 E1).
Qed.

Lemma kept_ikept X ip d s s' : has_ino s ip d -> kept X s s' -> ikept ip d s s'.
Proof.
  intros (H1 & H2 & H3) (E1 & E2 & _). split; [|done]. rewrite E1.
  rewrite <- (list_alter_id (fun x => x) (f_inode s) ip) at 1 by done. apply list_alter_ext; [|done]. intros x Hx.
  unfold inode_at in H3. rewrite (nth_lookup_Some _ _ _ _ Hx) in H3. rewrite <- H3. by destruct x.
Qed.

Lemma ikept_trans ip d1 d2 s1 s2 s3 : ikept ip d1 s1 s2 -> ikept ip d2 s2 s3 -> ikept ip d2 s1 s3.
Proof.
  intros [A1 A2] [C1 C2]. split; [|congruence]. rewrite C1, A1, list_alter_alter_eq. by apply list_alter_ext.
Qed.

Lemma has_ino_kept X s s' ip d : has_ino s ip d -> kept X s s' -> has_ino s' ip d.
Proof. intros (H1 & H2 & H3) (E & _). unfold has_ino, inode_at in *. by rewrite E. Qed.

Lemma t_setd v H l s ip f (Q : unit -> fsys B -> Prop) d : at_tx v H l s -> has_ino s ip d ->
  (forall s', at_tx v H l s' -> ikept ip (f d) s s' -> has_ino s' ip (f d) -> keep_but ∅ s s' -> Q tt s') -> runs (setd ip f) s Q.
Proof.
  intros [T1 T2 T3 T4] Hi HQ. unfold setd, seti. apply runs_mod.
  assert (E : ikept ip (f d) s (set_f_inode (alter (fun i => set_i_d (f (i_d i)) i) ip (f_inode s)) s)).
  { split; [|done]. cbn. apply list_alter_ext; [|done]. intros x Hx. destruct Hi as (_ & _ & <-). unfold inode_at.
    by rewrite (nth_lookup_Some _ _ _ _ Hx). }
  apply HQ; [by split|done|by eapply ikept_ino|by intros b m _].
Qed.

Lemma runs_geti {A C} ip (f : inode -> A) (k : A -> K (fsys B) C) s Q : runs (k (f (inode_at s ip))) s Q -> runs (let* x := geti ip f in k x) s Q.
Proof. done. Qed.

(** The first part of [bmap] past the direct blocks: the indirect block is there. *)
Lemma t_bmap_ind bns v l s ip d bn (Q : Z -> fsys B -> Prop) : at_tx v ∅ l s -> fs_wf g v -> file_wf g v d -> has_ino s ip d ->
  Forall in_file bns -> (need v d bns <= nfree g v)%nat -> log_open -> room 2 ∅ l -> NDIRECT <= bn ->
  (forall v1 d1 l1 s1, at_tx v1 ∅ l1 s1 -> fs_wf g v1 -> file_wf g v1 d1 -> ikept ip d1 s s1 -> ind d1 <> 0 -> (need v1 d1 bns <= nfree g v1)%nat ->
    (forall x, x ∈ l1 -> x ∈ l \/ x = bmb g \/ x = ind d1) ->
    (forall v' d' a, bmapped g bns v1 d1 bn v' d' a -> bmapped g bns v d bn v' d' a) -> Q (ind d1) s1) ->
  runs (if addr_at d NDIRECT =? 0 then
           let* addr := Fs.balloc 1 in
           setd ip (set_addr (Z.to_nat NDIRECT) addr) ;;;
           kret addr
         else kret (addr_at d NDIRECT)) s Q.
Proof.
  intros T W F Hi Hbns Hneed Hls Hr Hbn HQ. destruct (addr_at d NDIRECT =? 0) eqn:Ez; bool_hyps.
  - assert (Hn : (1 <= nfree g v)%nat) by (unfold need in Hneed; unfold ind in Hneed; rewrite Ez in Hneed; simpl in Hneed; lia).
    eapply runs_bind, t_balloc; [exact T|done|done|by intros ? ?%elem_of_empty|done| |].
    { eapply (room_add 1 ∅ l ∅); [eapply room_weaken; [exact Hr|]|set_solver|auto]. rewrite size_empty. lia. }
    intros a s1 Fa T1 K1. eapply runs_bind, t_setd; [exact T1|by eapply has_ino_kept|].
    intros s2 T2 K2 I2 _. apply runs_ret. destruct (evolve_indirect g bns v d a W F Fa Hbns Ez) as (E1 & E2 & _).
    pose proof (kept_ikept _ _ _ _ _ Hi K1) as K1'. rewrite <- E2.
    eapply HQ; [exact T2|apply E1|apply E1|by eapply ikept_trans|rewrite E2; pose proof (free_data _ _ _ W Fa); lia|by apply E1| |].
    + intros x [->|[->|Hx]%elem_of_log_add]%elem_of_log_add; auto.
    + intros v' d' a'. by apply bmapped_indirect.
  - apply runs_ret. eapply HQ; try done; [|auto]. eapply kept_ikept; [done|apply kept_refl].
Qed.

Lemma need_free bns v d bn : baddr v d bn = 0 -> bn ∈ bns -> (need v d bns <= nfree g v)%nat -> (1 <= nfree g v)%nat.
Proof.
  intros Hz Hin Hn. unfold need in Hn. destruct (filter (fun bn => baddr v d bn = 0) bns) as [|x r] eqn:E; [|simpl in Hn; lia].
  exfalso. assert (Hb : bn ∈ filter (fun bn => baddr v d bn = 0) bns) by (by apply list_elem_of_filter).
  rewrite E in Hb. by apply elem_of_nil in Hb.
Qed.

(** The second part: the entry of the indirect block. *)
Lemma t_bmap_entry bns v l s ip d bn (Q : Z -> fsys B -> Prop) : at_tx v ∅ l s -> fs_wf g v -> file_wf g v d -> has_ino s ip d ->
  NoDup bns -> Forall in_file bns -> bn ∈ bns -> (need v d bns <= nfree g v)%nat -> log_open -> room 1 {[ ind d ]} l -> NDIRECT <= bn -> ind d <> 0 ->
  (forall a v' l' s', bmapped g bns v d bn v' d a -> at_tx v' ∅ l' s' -> ikept ip d s s' ->
    (forall x, x ∈ l' -> x ∈ l \/ x = bmb g \/ x = ind d \/ x = a) -> Q a s') ->
  runs (let* bp := f_bread 1 (ind d) in
      let* blk := f_data bp in
      let addr := get_le 4 (Z.to_nat (4 * (bn - NDIRECT))) blk in
      let* addr :=
        (if addr =? 0 then
           let* addr := Fs.balloc 1 in
           let* blk := f_data bp in
           f_put bp (put_le 4 (Z.to_nat (4 * (bn - NDIRECT))) addr blk) ;;;
           f_log_write bp ;;;
           kret addr
         else kret addr) in
      f_brelse bp ;;;
      kret addr) s Q.
Proof.
  intros T W F Hi Hnd Hbns Hin Hneed Hls Hr Hbn Hind HQ. destruct (iw_ind _ _ _ F Hind) as [Hi1 [Hi2 Hi3]].
  pose proof (bmb_ge _ (fw_geom _ _ W)). assert (Hbn2 : in_file bn) by (rewrite Forall_forall in Hbns; by apply Hbns).
  assert (Eb : baddr v d bn = get_le 4 (Z.to_nat (4 * (bn - NDIRECT))) (v (ind d))).
  { unfold baddr. rewrite (proj2 (Z.ltb_ge _ _)), (proj2 (Z.eqb_neq _ _)) by done. done. }
  eapply runs_bind, t_bread; [exact T|lia|set_solver|eapply fits_mono; [by eapply room_fits|set_solver|auto]|]. intros b s1 T1 Hh K1.
  eapply runs_bind, t_data; [exact T1|done|lia|]. cbv zeta. rewrite <- Eb. apply runs_bind.
  replace ({[ind d]} ∪ ∅) with ({[ind d]} : gset Z) in T1 by set_solver.
  destruct (baddr v d bn =? 0) eqn:Ez; bool_hyps.
  - eapply runs_bind, t_balloc; [exact T1|done|by eapply need_free| |done| |].
    { intros m ->%elem_of_singleton. done. }
    { done. }
    intros a s2 Fa T2 K2. assert (Hh2 : holds s2 b (ind d)) by (by apply K2).
    eapply runs_bind, t_data; [exact T2|done|lia|]. rewrite alloc_ind_same by done.
    eapply t_update; [exact T2|done|set_solver|lia|done| |].
    { apply (room_fits 0), (room_add 0 {[ ind d ]} l {[ a ]}); [by rewrite size_singleton|set_solver|].
      intros x [->|[->|Hx]%elem_of_log_add]%elem_of_log_add; [right; left; set_solver|auto|auto]. }
    intros s3 T3 K3. apply runs_ret. eapply runs_bind, t_brelse; [exact T3|by apply K3|]. intros s4 T4 K4. apply runs_ret.
    replace ({[ind d]} ∖ {[ind d]} : gset Z) with (∅ : gset Z) in T4 by set_solver.
    eapply HQ; [|exact T4| |].
    + apply (bmapped_entry g bns v d a bn); try done. split; [done|apply Hbn2].
    + eapply kept_ikept; [done|]. eapply kept_trans; [exact K1|eapply kept_trans; [exact K2|by eapply kept_trans]].
    + intros x [->|[->|[->|Hx]%elem_of_log_add]%elem_of_log_add]%elem_of_log_add; auto.
  - apply runs_ret. eapply runs_bind, t_brelse; [exact T1|done|]. intros s2 T2 K2. apply runs_ret.
    replace ({[ind d]} ∖ {[ind d]} : gset Z) with (∅ : gset Z) in T2 by set_solver.
    eapply HQ; [by apply bmapped_old|done| |auto]. eapply kept_ikept; [done|by eapply kept_trans].
Qed.

Lemma t_bmap bns v l s ip d bn (Q : Z -> fsys B -> Prop) : at_tx v ∅ l s -> fs_wf g v -> file_wf g v d -> has_ino s ip d ->
  NoDup bns -> Forall in_file bns -> bn ∈ bns -> (need v d bns <= nfree g v)%nat -> log_open -> room 2 ∅ l ->
  (forall a v' d' l' s', bmapped g bns v d bn v' d' a -> at_tx v' ∅ l' s' -> ikept ip d' s s' ->
    (forall x, x ∈ l' -> x ∈ l \/ x = bmb g \/ x = a \/ (ind d' <> 0 /\ x = ind d')) -> Q a s') ->
  runs (bmap ip bn) s Q.
Proof.
  intros T W F Hi Hnd Hbns Hin Hneed Hls Hr HQ. pose proof Hi as (Hi1 & Hi2 & Hi3).
  assert (Hbn : in_file bn) by (rewrite Forall_forall in Hbns; by apply Hbns). destruct Hbn as [Hb1 Hb2].
  unfold bmap. apply runs_geti. rewrite Hi2, Hi3. destruct (bn <? NDIRECT) eqn:Ed; bool_hyps.
  - assert (Eb : baddr v d bn = addr_at d bn) by (unfold baddr; by rewrite (proj2 (Z.ltb_lt _ _))).
    destruct (addr_at d bn =? 0) eqn:Ez; bool_hyps.
    + eapply runs_bind, t_balloc; [exact T|done|eapply need_free; [by rewrite Eb|done|done]|by intros ? ?%elem_of_empty|done|eapply room_weaken; [done|lia]|].
      intros a s1 Fa T1 K1. eapply runs_bind, t_setd; [exact T1|by eapply has_ino_kept|]. intros s2 T2 K2 I2 _. apply runs_ret.
      eapply HQ; [by apply (bmapped_direct g bns v d a bn)|exact T2|eapply ikept_trans; [by eapply kept_ikept|done]|].
      intros x [->|[->|Hx]%elem_of_log_add]%elem_of_log_add; auto.
    + apply runs_ret. rewrite <- Eb. eapply HQ; [apply bmapped_old; try done; by rewrite Eb|done| |auto]. eapply kept_ikept; [done|apply kept_refl].
  - rewrite (proj2 (Z.ltb_lt _ _)) by (unfold MAXFILE, NDIRECT in *; lia). cbv zeta. apply runs_bind.
    eapply (t_bmap_ind bns v l s ip d bn); try done. intros v1 d1 l1 s1 T1 W1 F1 K1 Hind1 Hneed1 Hl1 Hmap.
    eapply (t_bmap_entry bns v1 l1 s1 ip d1 bn); try done; [by eapply ikept_ino| |].
    + apply (room_add 1 ∅ l {[ ind d1 ]}); [by rewrite size_singleton|set_solver|].
      intros x [Hx|[->| ->]]%Hl1; [auto|auto|right; left; set_solver].
    + intros a v' l' s' Hm T' K' Hl'. eapply HQ; [by apply Hmap|done|by eapply ikept_trans|].
      intros x Hx. apply Hl' in Hx as [Hx|[->|[->| ->]]]; auto. apply Hl1 in Hx as [Hx|[->| ->]]; auto 6.
Qed.

(** ** writei *)

(** The room for [n] more blocks, for the indirect block and for the inode's block. *)
Definition iset (d : dinode) : gset Z := if ind d =? 0 then ∅ else {[ ind d ]}.
Definition budget (n : nat) (d : dinode) l : Prop := room (n + (if ind d =? 0 then 1 else 0) + 1) (iset d) l.

Lemma budget_bmap n d l : budget (S n) d l -> room 2 ∅ l.
Proof.
  unfold budget, room, iset. intros Hr. destruct (ind d =? 0); [lia|].
  pose proof (subseteq_size ({[bmb g]} ∪ ∅ ∪ list_to_set l : gset Z) ({[bmb g]} ∪ {[ind d]} ∪ list_to_set l) ltac:(set_solver)). lia.
Qed.

Lemma budget_step n d d' a l l' : budget (S n) d l -> (ind d <> 0 -> ind d' = ind d) ->
  (forall x, x ∈ l' -> x ∈ l \/ x = bmb g \/ x = a \/ (ind d' <> 0 /\ x = ind d')) ->
  room (n + (if ind d' =? 0 then 1 else 0) + 1) ({[ a ]} ∪ iset d') l'.
Proof.
  unfold budget, iset. intros Hr Hi Hl. destruct (ind d =? 0) eqn:E; bool_hyps.
  - destruct (ind d' =? 0) eqn:E'; bool_hyps.
    + eapply (room_add _ ∅ l {[ a ]}); [rewrite size_singleton; eapply room_weaken; [exact Hr|lia]|set_solver|].
      intros x [Hx|[->|[->|[? _]]]]%Hl; [auto|auto|right; left; set_solver|done].
    + eapply (room_add _ ∅ l {[ a; ind d' ]}); [eapply room_weaken; [exact Hr|]|set_solver|].
      * rewrite (size_union_alt {[ a ]} {[ ind d' ]} : size ({[ a; ind d' ]} : gset Z) = _).
        pose proof (subseteq_size ({[ ind d' ]} ∖ {[ a ]} : gset Z) {[ ind d' ]} ltac:(set_solver)). rewrite !size_singleton in *. lia.
      * intros x [Hx|[->|[->|[? ->]]]]%Hl; [auto|auto|right; left; set_solver|right; left; set_solver].
  - rewrite Hi by done. rewrite (proj2 (Z.eqb_neq _ _)) by done.
    eapply (room_add _ {[ ind d ]} l {[ a ]}); [rewrite size_singleton; eapply room_weaken; [exact Hr|lia]|set_solver|].
    intros x [Hx|[->|[->|[? ->]]]]%Hl; [auto|auto|right; left; set_solver|]. rewrite Hi by done. right; right; right; set_solver.
Qed.

(** The blocks still to be written when [tot] of the [n] bytes at [off] have been. *)
Definition left_blocks (off n tot : Z) : nat := if tot <? n then Z.to_nat ((off + n - 1) / BSIZE - (off + tot) / BSIZE + 1) else 0.

Lemma left_blocks_step off n tot m : 0 <= off -> 0 <= tot < n -> m = Z.min (n - tot) (BSIZE - (off + tot) mod BSIZE) ->
  left_blocks off n tot = S (left_blocks off n (tot + m)).
Proof.
  intros H1 H2 ->. unfold left_blocks, BSIZE. rewrite (proj2 (Z.ltb_lt tot n)) by lia.
  destruct (_ <? n) eqn:E; bool_hyps; mlia.
Qed.

Lemma left_blocks_fuel off n : 0 <= off -> 0 <= n -> (left_blocks off n 0 <= rw_fuel n)%nat.
Proof. intros H1 H2. unfold left_blocks, rw_fuel, BSIZE. destruct (0 <? n) eqn:E; bool_hyps; mlia. Qed.

(** The blocks [bns] cover the bytes to be written. *)
Definition covers (bns : list Z) (off n : Z) : Prop :=
  NoDup bns /\ Forall in_file bns /\ forall k, off <= k < off + n -> k / BSIZE ∈ bns.

Lemma t_writei_loop bns v d off src n ip (Q : Z -> fsys B -> Prop) s0 : 0 <= off -> off + n <= MAXFILE * BSIZE -> n <= Z.of_nat (length src) ->
  bytes_ok src -> covers bns off n -> log_open -> (need v d bns <= nfree g v)%nat ->
  (forall v' d' l' s', written g bns v d off src n v' d' -> at_tx v' ∅ l' s' -> ikept ip d' s0 s' -> budget 0 d' l' -> Q (off + n) s') ->
  forall fuel tot v1 d1 l1 s1, written g bns v d off src tot v1 d1 -> at_tx v1 ∅ l1 s1 -> has_ino s1 ip d1 -> ikept ip d1 s0 s1 ->
  0 <= tot <= n -> budget (left_blocks off n tot) d1 l1 -> (left_blocks off n tot <= fuel)%nat ->
  runs (writei_loop ip src (off + tot) n tot fuel) s1 Q.
Proof.
  intros Hoff Hmax Hl Hsrc (Hnd & Hbns & Hcov) Hls Hneed HQ. induction fuel as [|fuel IH]; intros tot v1 d1 l1 s1 HW T Hi Hk Htot Hbud Hfuel.
  all: cbn [writei_loop]; destruct (tot <? n) eqn:Et; bool_hyps.
  2, 4: replace tot with n in * by lia; apply runs_ret; eapply HQ; [done|exact T|done|];
    unfold left_blocks in Hbud; rewrite Z.ltb_irrefl in Hbud; done.
  - unfold left_blocks in Hfuel. rewrite (proj2 (Z.ltb_lt tot n)) in Hfuel by lia. unfold BSIZE in *. mlia.
  - pose proof (wr_evolve _ _ _ _ _ _ _ _ _ HW) as E. set (m := Z.min (n - tot) (BSIZE - (off + tot) mod BSIZE)).
    rewrite (left_blocks_step off n tot m) in Hbud, Hfuel by (done || lia).
    assert (Hm : 0 < m <= n - tot) by (subst m; unfold BSIZE; mlia). pose proof Hi as (_ & Hdev & _).
    apply runs_geti. rewrite Hdev.
    eapply runs_bind, (t_bmap bns v1 l1 s1 ip d1); [exact T|apply E|apply E|done|done|done|apply Hcov; lia|by apply E|done|by eapply budget_bmap|].
    intros a v2 d2 l2 s2 Hmap T2 K2 Hl2. pose proof Hmap as (E2 & _ & _ & Ha & Hnz & _).
    assert (Hr : room (left_blocks off n (tot + m) + (if ind d2 =? 0 then 1 else 0) + 1) ({[ a ]} ∪ iset d2) l2).
    { eapply budget_step; [exact Hbud|apply E2|done]. }
    destruct (iw_blk _ _ _ (ev_file _ _ _ _ _ _ E2) ((off + tot) / BSIZE)) as (Ha1 & [Ha2 _] & _); [|by rewrite Ha|].
    { rewrite Forall_forall in Hbns. apply Hbns, Hcov. lia. }
    rewrite Ha in Ha1, Ha2. pose proof (bmb_ge _ (fw_geom _ _ (ev_wf _ _ _ _ _ _ E2))) as Hbm.
    assert (Hf : fits ({[ a ]} ∪ ∅) l2) by (eapply fits_mono; [by eapply room_fits|set_solver|auto]).
    eapply runs_bind, t_bread; [exact T2|lia|set_solver|eapply fits_mono; [exact Hf|set_solver|auto]|]. intros b s3 T3 Hh3 K3.
    eapply runs_bind, t_data; [exact T3|done|lia|]. cbv zeta. fold m.
    eapply (t_modify v2 ∅ l2 s2 a); [done|lia|set_solver|done|done|done|done|done|]. intros s4 T4 K4.
    rewrite u32_small by (unfold MAXFILE, NDIRECT, NINDIRECT, BSIZE in *; lia). rewrite <- Z.add_assoc.
    assert (I2 : has_ino s2 ip d2) by (by eapply ikept_ino). assert (K24 : ikept ip d2 s2 s4) by (by eapply kept_ikept).
    pose proof (written_step g bns v d off src n tot v1 d1 v2 d2 a m HW Hsrc Hoff ltac:(lia) Hl Hmax Hmap eq_refl) as HW'.
    eapply IH; [exact HW'|exact T4|by eapply has_ino_kept|eapply ikept_trans; [exact Hk|by eapply ikept_trans]|lia| |lia].
    eapply (room_add _ ({[ a ]} ∪ iset d2) l2 ∅); [by rewrite size_empty|set_solver|].
    intros x [->|Hx]%elem_of_log_add; [right; right; right; set_solver|auto].
Qed.

Lemma t_iupdate v l s ip d (Q : unit -> fsys B -> Prop) : at_tx v ∅ l s -> fs_wf g v -> has_ino s ip d -> is_inum g (i_inum (inode_at s ip)) ->
  log_open -> budget 0 d l ->
  (forall l' s', at_tx (put_inode v (i_inum (inode_at s ip)) d) ∅ l' s' -> ikept ip d s s' -> fits ∅ l' -> Q tt s') -> runs (iupdate ip) s Q.
Proof.
  intros T W Hi Hin Hls Hb HQ. pose proof Hi as (_ & Hdev & Hd). pose proof (iblock_range g _ (fw_geom _ _ W) Hin) as Hr.
  destruct (fw_geom _ _ W) as [G1 G2 G3]. unfold iupdate. apply runs_geti. rewrite Hdev, Hd.
  assert (Hf : fits ({[ IBLOCK (i_inum (inode_at s ip)) ]} ∪ ∅) l).
  { eapply (room_fits 0), (room_add 0 (iset d) l {[ IBLOCK (i_inum (inode_at s ip)) ]}); [|set_solver|auto].
    eapply room_weaken; [exact Hb|]. rewrite size_singleton. lia. }
  eapply runs_bind, t_bread; [exact T|lia|set_solver|eapply fits_mono; [exact Hf|set_solver|auto]|]. intros b s1 T1 Hh K1.
  eapply runs_bind, t_data; [exact T1|done|lia|].
  eapply (t_modify_last v ∅ l s (IBLOCK (i_inum (inode_at s ip)))); [done|lia|set_solver|done|done|done|done|done|]. intros s2 T2 K2. eapply HQ; [exact T2|by eapply kept_ikept|].
  eapply fits_mono; [exact Hf|set_solver|]. intros x [->|Hx]%elem_of_log_add; [right; set_solver|by left].
Qed.

(** The cached inode [ip] is inode [i] of the disk, an ordinary file or directory. *)
Record open_ino v s ip (i : Z) : Prop := {
  oi_ino : has_ino s ip (disk_inode v i);
  oi_inum : i_inum (inode_at s ip) = i;
  oi_range : is_inum g i;
  oi_used : d_type (disk_inode v i) <> 0;
  oi_plain : d_type (disk_inode v i) <> T_DEV
}.

(** The files after [n] bytes of [src] have been written at [off] to inode [i]. *)
Definition write_file (v v' : disk) (i off : Z) (src : list Z) (n : Z) : Prop :=
  files_wf g v' /\ v' 1 = v 1 /\ d_type (disk_inode v' i) = d_type (disk_inode v i) /\
  forall j, is_inum g j -> files v' j =
    if decide (j = i) then Some (splice (Z.to_nat off) (take (Z.to_nat n) src) (content v (disk_inode v i))) else files v j.

Section writei.
Variable devsw_write : Z -> option (nat -> list Z -> Z -> K (fsys B) Z).

Lemma t_writei bns v l s ip i src off n (Q : Z -> fsys B -> Prop) : at_tx v ∅ l s -> files_wf g v -> open_ino v s ip i ->
  0 <= off <= d_size (disk_inode v i) -> 0 <= n <= Z.of_nat (length src) -> off + n <= MAXFILE * BSIZE -> bytes_ok src -> covers bns off n ->
  (need v (disk_inode v i) bns <= nfree g v)%nat -> log_open -> budget (left_blocks off n 0) (disk_inode v i) l ->
  (forall v' l' s', write_file v v' i off src n -> at_tx v' ∅ l' s' -> open_ino v' s' ip i -> ikept ip (disk_inode v' i) s s' ->
    (need v' (disk_inode v' i) bns <= nfree g v')%nat -> fits ∅ l' -> Q n s') ->
  runs (writei devsw_write ip src off n) s Q.
Proof.
  intros T W [Hi Hinum Hr Hu Hp] Hoff Hn Hmax Hsrc Hcov Hneed Hls Hbud HQ. set (d := disk_inode v i) in *.
  pose proof (fl_file _ _ W i Hr Hu) as F. fold d in F. pose proof Hi as (Hlen & Hdev & Hd).
  assert (Hbig : MAXFILE * BSIZE = 71680) by done.
  unfold writei. apply runs_geti. rewrite Hd, (proj2 (Z.eqb_neq _ _)) by done.
  rewrite (proj2 (Z.ltb_ge _ off)) by lia. rewrite u32_small, (proj2 (Z.ltb_ge _ off)), (proj2 (Z.ltb_ge _ (off + n))) by lia. cbn [orb].
  apply runs_bind. replace off with (off + 0) at 1 by lia.
  eapply (t_writei_loop bns v d off src n ip); try done; try lia; [|by apply written_start; [apply W|]|eapply kept_ikept; [done|apply kept_refl]|apply left_blocks_fuel; lia].
  intros v' d' l' s' HW T' K' Hb'. pose proof (wr_evolve _ _ _ _ _ _ _ _ _ HW) as E.
  destruct (ev_meta _ _ _ _ _ _ E) as (M1 & _ & _ & _ & M5).
  assert (I' : has_ino s' ip d') by (by eapply ikept_ino). pose proof I' as (_ & _ & Hd').
  pose proof (inode_at_alter _ _ _ _ Hlen (proj1 K')) as Ei'.
  assert (Hin' : i_inum (inode_at s' ip) = i) by (by rewrite Ei').
  destruct (written_files g bns v i off src n v' d' W Hr Hu) as (W2 & D2 & Hfiles); try done; try lia. fold d in W2, D2, Hfiles.
  destruct (grown_fields d d' (off + n) (ev_meta _ _ _ _ _ _ E)) as (G1 & G2 & G3).
  set (v2 := stored v' d d' i (off + n)) in *.
  assert (Hneed2 : (need v2 (grown d d' (off + n)) bns <= nfree g v2)%nat).
  { unfold v2. destruct (stored_need g bns v' d d' i (off + n) (ev_wf _ _ _ _ _ _ E) (ev_file _ _ _ _ _ _ E) Hr) as [-> ->]. by apply E. }
  assert (Hend : forall l2 s2, at_tx v2 ∅ l2 s2 -> ikept ip (grown d d' (off + n)) s s2 -> fits ∅ l2 -> Q (s32 n) s2).
  { intros l2 s2 T2 K2 Hf2. replace (s32 n) with n by (unfold s32; mlia). apply (HQ v2 l2); rewrite ?D2; try done.
    - split; [done|]. rewrite D2. split; [|done]. by apply (stored_superblock g bns); [apply W| | |].
    - split; rewrite ?D2, ?G1; try done; [by apply (ikept_ino ip d _ s)|]. by rewrite (inode_at_alter _ _ _ _ Hlen (proj1 K2)). }
  apply runs_geti. rewrite Hd', M5. apply runs_bind. unfold v2, stored, grown in *.
  destruct (d_size d <? off + n) eqn:Es.
  - rewrite (proj2 (Z.ltb_lt 0 n)) by (bool_hyps; lia). cbn [andb].
    eapply runs_bind, t_setd; [exact T'|exact I'|]. intros s1 T1 K1 I1 _.
    assert (Hin1 : i_inum (inode_at s1 ip) = i).
    { rewrite <- Hin'. destruct I' as (Hl' & _). by rewrite (inode_at_alter _ _ _ _ Hl' (proj1 K1)). }
    eapply t_iupdate; [exact T1|apply E|exact I1|by rewrite Hin1|done|done|]. rewrite Hin1. intros l2 s2 T2 K2 Hf2.
    apply runs_ret. eapply Hend; [exact T2| |done]. eapply ikept_trans; [exact K'|by eapply ikept_trans].
  - rewrite andb_false_r. apply runs_ret, runs_ret. eapply Hend; [done|done|].
    eapply fits_mono; [by eapply room_fits|set_solver|auto].
Qed.

End writei.

(** ** readi *)

Lemma t_bmap_old v l s ip d bn (Q : Z -> fsys B -> Prop) : at_tx v ∅ l s -> fs_wf g v -> file_wf g v d -> has_ino s ip d ->
  in_file bn -> baddr v d bn <> 0 -> fits ∅ l ->
  (forall s', at_tx v ∅ l s' -> kept ∅ s s' -> Q (baddr v d bn) s') -> runs (bmap ip bn) s Q.
Proof.
  intros T W F (_ & Hdev & Hd) [Hb1 Hb2] Hnz Hf HQ. pose proof (bmb_ge _ (fw_geom _ _ W)).
  unfold bmap. apply runs_geti. rewrite Hdev, Hd. revert Hnz HQ. unfold baddr. destruct (bn <? NDIRECT) eqn:Ed; bool_hyps; intros Hnz HQ.
  - rewrite (proj2 (Z.eqb_neq _ _)) by done. apply runs_ret. apply HQ; [done|apply kept_refl].
  - rewrite (proj2 (Z.ltb_lt _ _)) by (unfold MAXFILE, NDIRECT in *; lia). cbv zeta. apply runs_bind.
    change (addr_at d NDIRECT) with (ind d). destruct (ind d =? 0) eqn:Ei; bool_hyps; [done|]. apply runs_ret.
    destruct (iw_ind _ _ _ F Ei) as [Hi1 [Hi2 _]].
    eapply runs_bind, t_bread; [exact T|lia|set_solver|done|]. intros b s1 T1 Hh K1.
    eapply runs_bind, t_data; [exact T1|done|lia|]. unfold entry in Hnz. rewrite (proj2 (Z.eqb_neq _ _)) by done.
    apply runs_bind, runs_ret. eapply runs_bind, t_brelse; [exact T1|done|]. intros s2 T2 K2. apply runs_ret. apply HQ.
    + by replace (({[ind d]} ∪ ∅) ∖ {[ind d]} : gset Z) with (∅ : gset Z) in T2 by set_solver.
    + eapply (kept_all v ∅ l); [done|by eapply kept_trans|set_solver].
Qed.

Lemma t_readi_loop v l d off n ip (Q : list Z -> fsys B -> Prop) s0 : fs_wf g v -> file_wf g v d -> 0 <= off -> off + n <= d_size d -> fits ∅ l ->
  (forall s', at_tx v ∅ l s' -> kept ∅ s0 s' -> Q (take (Z.to_nat n) (drop (Z.to_nat off) (content v d))) s') ->
  forall fuel tot s1, at_tx v ∅ l s1 -> has_ino s1 ip d -> kept ∅ s0 s1 -> 0 <= tot <= n -> (left_blocks off n tot <= fuel)%nat ->
  runs (readi_loop ip (off + tot) n tot (take (Z.to_nat tot) (drop (Z.to_nat off) (content v d))) fuel) s1 Q.
Proof.
  intros W F Hoff Hsz Hf HQ. pose proof (bmb_ge _ (fw_geom _ _ W)) as Hbm. pose proof (iw_size _ _ _ F) as Hmax.
  assert (Hbig : MAXFILE * BSIZE = 71680) by done.
  induction fuel as [|fuel IH]; intros tot s1 T Hi Hk Htot Hfuel.
  all: cbn [readi_loop]; destruct (tot <? n) eqn:Et; bool_hyps.
  2, 4: replace tot with n in * by lia; apply runs_ret; by apply HQ.
  - unfold left_blocks in Hfuel. rewrite (proj2 (Z.ltb_lt tot n)) in Hfuel by lia. unfold BSIZE in *. mlia.
  - set (m := Z.min (n - tot) (BSIZE - (off + tot) mod BSIZE)).
    rewrite (left_blocks_step off n tot m) in Hfuel by (done || lia).
    assert (Hm : 0 < m <= n - tot /\ (off + tot) mod BSIZE + m <= BSIZE) by (subst m; unfold BSIZE; mlia). pose proof Hi as (_ & Hdev & _).
    assert (Hin : in_file ((off + tot) / BSIZE)) by (unfold in_file, BSIZE in *; mlia).
    assert (Hnz : baddr v d ((off + tot) / BSIZE) <> 0) by (apply (iw_map _ _ _ F); [apply Hin|unfold BSIZE in *; mlia]).
    destruct (iw_blk _ _ _ F _ Hin Hnz) as (Ha1 & [Ha2 _] & _).
    apply runs_geti. rewrite Hdev. eapply runs_bind, t_bmap_old; [exact T|done|done|done|done|done|done|]. intros s2 T2 K2.
    eapply runs_bind, t_bread; [exact T2|lia|set_solver|done|]. intros b s3 T3 Hh3 K3.
    eapply runs_bind, t_data; [exact T3|done|lia|]. cbv zeta. fold m.
    eapply runs_bind, t_brelse; [exact T3|done|]. intros s4 T4 K4.
    replace (({[baddr v d ((off + tot) / BSIZE)]} ∪ ∅) ∖ {[baddr v d ((off + tot) / BSIZE)]} : gset Z) with (∅ : gset Z) in T4 by set_solver.
    assert (K14 : kept ∅ s1 s4) by (eapply (kept_all v ∅ l); [done|eapply kept_trans; [exact K2|by eapply kept_trans]|set_solver]).
    rewrite u32_small by lia. rewrite <- Z.add_assoc, (content_piece g v d (off + tot) m) by (done || lia).
    replace (take (Z.to_nat tot) (drop (Z.to_nat off) (content v d)) ++ take (Z.to_nat m) (drop (Z.to_nat (off + tot)) (content v d)))
      with (take (Z.to_nat (tot + m)) (drop (Z.to_nat off) (content v d))).
    + eapply IH; [exact T4|by eapply has_ino_kept|eapply kept_weaken; [by eapply kept_trans|set_solver]|lia|lia].
    + rewrite !Z2Nat.inj_add, <- drop_drop by lia. by rewrite take_take_drop.
Qed.

Variable devsw_read : Z -> option (nat -> Z -> K (fsys B) (Z * list Z)).

(** The bytes [readi] delivers. *)
Definition read_file (c : list Z) (off n : Z) : list Z := take (Z.to_nat n) (drop (Z.to_nat off) c).

Lemma t_readi v l s ip i off n (Q : Z * list Z -> fsys B -> Prop) : at_tx v ∅ l s -> files_wf g v -> open_ino v s ip i -> fits ∅ l ->
  is_uint off -> is_uint n ->
  (forall s', at_tx v ∅ l s' -> kept ∅ s s' -> Q
     (if (d_size (disk_inode v i) <? off) || (4294967296 <=? off + n) then (-1, [])
      else (Z.of_nat (length (read_file (content v (disk_inode v i)) off n)), read_file (content v (disk_inode v i)) off n)) s') ->
  runs (readi devsw_read ip off n) s Q.
Proof.
  intros T W [Hi Hinum Hr Hu Hp] Hf Hoff Hn HQ. set (d := disk_inode v i) in *. unfold is_uint in *.
  pose proof (fl_file _ _ W i Hr Hu) as F. fold d in F. pose proof Hi as (_ & _ & Hd).
  assert (Hbig : MAXFILE * BSIZE = 71680) by done. pose proof (iw_size _ _ _ F) as Hmax.
  unfold readi. apply runs_geti. rewrite Hd, (proj2 (Z.eqb_neq _ _)) by done.
  replace (u32 (off + n) <? off) with (4294967296 <=? off + n).
  2: { unfold u32. destruct (4294967296 <=? off + n) eqn:E; bool_hyps; symmetry; [apply Z.ltb_lt|apply Z.ltb_ge]; mlia. }
  destruct ((d_size d <? off) || (4294967296 <=? off + n)) eqn:Eo; [apply runs_ret, HQ; [done|apply kept_refl]|]. bool_hyps.
  cbv zeta. set (k := if d_size d <? off + n then d_size d - off else n).
  assert (Hk : 0 <= k /\ off + k <= d_size d /\ k <= 71680) by (subst k; destruct (d_size d <? off + n) eqn:E; bool_hyps; lia).
  assert (Hread : take (Z.to_nat k) (drop (Z.to_nat off) (content v d)) = read_file (content v d) off n).
  { unfold read_file, k. destruct (d_size d <? off + n) eqn:E; [|done]. bool_hyps.
    rewrite !take_ge; [done| |]; unfold content; rewrite length_drop, length_fmap, length_seqZ; lia. }
  apply runs_bind. replace off with (off + 0) at 1 by lia. change [] with (take (Z.to_nat 0) (drop (Z.to_nat off) (content v d))).
  eapply (t_readi_loop v l d off k ip _ s); try done; try lia; [apply W| |apply kept_refl|apply left_blocks_fuel; lia].
  intros s' T' K'. apply runs_ret. rewrite Hread. replace (s32 k) with (Z.of_nat (length (read_file (content v d) off n))); [by apply HQ|].
  rewrite <- Hread, length_take, length_drop. unfold content. rewrite length_fmap, length_seqZ. unfold s32. mlia.
Qed.
End steps.
