(* ===== verification/Pipe.v ===== *)
(** * Pipes: pipe.c

    A run of [pipewrite] or [piperead] holds [p->lock] from one [sleep] to the next, so each stretch
    between sleeps is one atomic step: it ends in a return or in a [sleep], and it
    may have woken the processes that sleep on a channel.  [psys] is a pipe with the processes
    that use it; [pstep] interleaves their stretches with [kill] and with the closing
    of the ends.  [nread] and [nwrite] are 32-bit counters that wrap around. *)

From S2P Require Import Prelude.

Definition PIPESIZE : Z := 512.

(** [struct pipe] *)
Record pipe := Pipe { p_data : list Z; p_nread : Z; p_nwrite : Z; p_readopen : Z; p_writeopen : Z }.

(** The sleep channels [&p->nread] and [&p->nwrite]. *)
Inductive pchan := on_nread | on_nwrite.

#[global] Instance pchan_eq_dec : EqDecision pchan.
Proof. solve_decision. Defined.

(** How a stretch ends; [bytes] is what a reader has got, [rest] what a writer has not written,
    [woken] the channels on which [wakeup] was called. *)
Inductive pout :=
  | PReturn (r : Z) (bytes rest : list Z) (p : pipe) (woken : list pchan)
  | PSleep (c : pchan) (rest : list Z) (p : pipe) (woken : list pchan).

Definition pipe_full (p : pipe) : bool := p_nwrite p =? u32 (p_nread p + PIPESIZE).

Definition pipe_push (c : Z) (p : pipe) : pipe :=
  Pipe (<[ Z.to_nat (p_nwrite p mod PIPESIZE) := c ]> (p_data p)) (p_nread p) (u32 (p_nwrite p + 1)) (p_readopen p) (p_writeopen p).

Definition pipe_pop (p : pipe) : Z * pipe :=
  (nth (Z.to_nat (p_nread p mod PIPESIZE)) (p_data p) 0,
   Pipe (p_data p) (u32 (p_nread p + 1)) (p_nwrite p) (p_readopen p) (p_writeopen p)).

(** What [pipealloc] makes of a page with content [data]. *)
Definition pipe_init (data : list Z) : pipe := Pipe data 0 0 1 1.

(** The pipe and whether its page is freed. *)
Definition pipeclose (p : pipe) (writable : bool) : pipe * bool * list pchan :=
  let p' := if writable then Pipe (p_data p) (p_nread p) (p_nwrite p) (p_readopen p) 0
            else Pipe (p_data p) (p_nread p) (p_nwrite p) 0 (p_writeopen p) in
  (p', (p_readopen p' =? 0) && (p_writeopen p' =? 0), [if writable then on_nread else on_nwrite]).

(** The loop of [pipewrite] over the bytes not yet written; [n] is the result of a
    complete write. *)
Fixpoint pipewrite_loop (killed : bool) (n : Z) (rest : list Z) (p : pipe) : pout :=
  match rest with
  | [] => PReturn n [] [] p [on_nread]
  | c :: rest' =>
      if pipe_full p then
        if (p_readopen p =? 0) || killed then PReturn (-1) [] rest p []
        else PSleep on_nwrite rest p [on_nread]
      else pipewrite_loop killed n rest' (pipe_push c p)
  end.

Definition pipewrite (killed : bool) (addr : list Z) (n : Z) (p : pipe) : pout :=
  pipewrite_loop killed n (take (Z.to_nat n) addr) p.

(** The second loop of [piperead]: up to [n] bytes while there are any. *)
Fixpoint piperead_loop (n : nat) (acc : list Z) (p : pipe) : pout :=
  match n with
  | O => PReturn (Z.of_nat (length acc)) acc [] p [on_nwrite]
  | S n' =>
      if p_nread p =? p_nwrite p then PReturn (Z.of_nat (length acc)) acc [] p [on_nwrite]
      else let '(c, p') := pipe_pop p in piperead_loop n' (acc ++ [c]) p'
  end.

Definition piperead (killed : bool) (n : Z) (p : pipe) : pout :=
  if (p_nread p =? p_nwrite p) && negb (p_writeopen p =? 0) then
    if killed then PReturn (-1) [] [] p []
    else PSleep on_nread [] p []
  else piperead_loop (Z.to_nat n) [] p.

(** ** The processes that use a pipe *)

Inductive pthread :=
  | TIdle
  | TReady (writer : bool) (n : Z) (rest : list Z)
  | TAsleep (writer : bool) (n : Z) (rest : list Z)
  | TDone (r : Z) (bytes : list Z).

Record psys := Psys {
  y_pipe : pipe;
  y_thr : nat -> pthread;
  y_killed : nat -> bool;
  y_written : list Z;           (* every byte stored into the pipe, in order *)
  y_read : list Z;              (* every byte taken out of it *)
  y_cut : list nat              (* the processes that have given up a write *)
}.

Definition chan_of (writer : bool) : pchan := if writer then on_nwrite else on_nread.

Definition awaken (w : list pchan) (t : pthread) : pthread :=
  match t with
  | TAsleep b n rest => if decide (chan_of b ∈ w) then TReady b n rest else t
  | _ => t
  end.

(** The stretch of process [t]. *)
Definition run_thread (s : psys) (t : nat) : option pout :=
  match y_thr s t with
  | TReady true n rest => Some (pipewrite_loop (y_killed s t) n rest (y_pipe s))
  | TReady false n _ => Some (piperead (y_killed s t) n (y_pipe s))
  | _ => None
  end.

(** The bytes a stretch stored are those that are no longer to be written. *)
Definition stored (rest rest' : list Z) : list Z := take (length rest - length rest') rest.

Definition after_run (s : psys) (t : nat) (b : bool) (n : Z) (rest : list Z) (o : pout) : psys :=
  match o with
  | PReturn r bytes rest' p w =>
      Psys p (upd (fun j => awaken w (y_thr s j)) t (TDone r bytes)) (y_killed s) (y_written s ++ stored rest rest') (y_read s ++ bytes)
        (if bool_decide (rest' = []) then y_cut s else t :: y_cut s)
  | PSleep c rest' p w =>
      Psys p (upd (fun j => awaken w (y_thr s j)) t (TAsleep b n rest')) (y_killed s) (y_written s ++ stored rest rest') (y_read s) (y_cut s)
  end.

(** The stretch of a ready process. *)
Definition stretch (killed : bool) (b : bool) (n : Z) (rest : list Z) (p : pipe) : pout :=
  if b then pipewrite_loop killed n rest p else piperead killed n p.

(** A process is inside [pipewrite] ([b] true) or [piperead]. *)
Definition inside (b : bool) (t : pthread) : bool :=
  match t with
  | TReady b' _ _ | TAsleep b' _ _ => Bool.eqb b b'
  | _ => false
  end.

Inductive pstep : psys -> psys -> Prop :=
  | step_write s t addr n :
      inside true (y_thr s t) = false -> inside false (y_thr s t) = false -> p_writeopen (y_pipe s) <> 0 ->
      pstep s (Psys (y_pipe s) (upd (y_thr s) t (TReady true n (take (Z.to_nat n) addr))) (y_killed s) (y_written s) (y_read s) (y_cut s))
  | step_read s t n :
      inside true (y_thr s t) = false -> inside false (y_thr s t) = false -> p_readopen (y_pipe s) <> 0 ->
      pstep s (Psys (y_pipe s) (upd (y_thr s) t (TReady false n [])) (y_killed s) (y_written s) (y_read s) (y_cut s))
  | step_run s t b n rest :
      y_thr s t = TReady b n rest ->
      pstep s (after_run s t b n rest (stretch (y_killed s t) b n rest (y_pipe s)))
  | step_kill s t :
      pstep s (Psys (y_pipe s) (upd (y_thr s) t (match y_thr s t with TAsleep b n rest => TReady b n rest | x => x end))
        (upd (y_killed s) t true) (y_written s) (y_read s) (y_cut s))
  | step_close s (b : bool) p' freed w :
      (forall t, inside b (y_thr s t) = false) -> (if b then p_writeopen (y_pipe s) else p_readopen (y_pipe s)) <> 0 ->
      pipeclose (y_pipe s) b = (p', freed, w) ->
      pstep s (Psys p' (fun j => awaken w (y_thr s j)) (y_killed s) (y_written s) (y_read s) (y_cut s)).

Inductive preachable : psys -> Prop :=
  | preach_init data : length data = Z.to_nat PIPESIZE ->
      preachable (Psys (pipe_init data) (fun _ => TIdle) (fun _ => false) [] [] [])
  | preach_step s s' : preachable s -> pstep s s' -> preachable s'.

(** ** The bytes in the pipe *)

Definition pipe_len (p : pipe) : Z := u32 (p_nwrite p - p_nread p).

(** The [n] bytes from counter value [r] on. *)
Definition pipe_bytes (data : list Z) (r : Z) (n : nat) : list Z :=
  (fun k => nth (Z.to_nat ((r + Z.of_nat k) mod PIPESIZE)) data 0) <$> seq 0 n.

Definition contents (p : pipe) : list Z := pipe_bytes (p_data p) (p_nread p) (Z.to_nat (pipe_len p)).

Record pipe_wf (p : pipe) : Prop := {
  pw_data : length (p_data p) = Z.to_nat PIPESIZE;
  pw_nread : 0 <= p_nread p < 4294967296;
  pw_nwrite : 0 <= p_nwrite p < 4294967296;
  pw_len : pipe_len p <= PIPESIZE
}.

(** The counters wrap around at a multiple of [PIPESIZE]. *)
Lemma u32_mod_pipe z : u32 z mod PIPESIZE = z mod PIPESIZE.
Proof. unfold u32, PIPESIZE. mlia. Qed.

Lemma pipe_full_iff p : pipe_wf p -> pipe_full p = true <-> pipe_len p = PIPESIZE.
Proof. intros [_ H1 H2 H3]. unfold pipe_full, pipe_len, u32, PIPESIZE in *. rewrite Z.eqb_eq. split; mlia. Qed.

Lemma pipe_empty_iff p : pipe_wf p -> (p_nread p =? p_nwrite p) = true <-> pipe_len p = 0.
Proof. intros [_ H1 H2 H3]. unfold pipe_len, u32 in *. rewrite Z.eqb_eq. split; mlia. Qed.

Lemma pipe_index p : pipe_wf p -> p_nwrite p mod PIPESIZE = (p_nread p + pipe_len p) mod PIPESIZE.
Proof. intros [_ H1 H2 H3]. unfold pipe_len, u32, PIPESIZE in *. mlia. Qed.

Lemma push_wf c p : pipe_wf p -> pipe_full p = false -> pipe_wf (pipe_push c p) /\ pipe_len (pipe_push c p) = pipe_len p + 1.
Proof.
  intros W Hf. assert (Hl : pipe_len p <> PIPESIZE) by (intros E; apply (pipe_full_iff p W) in E; congruence).
  destruct W as [W1 W2 W3 W4]. assert (E : pipe_len (pipe_push c p) = pipe_len p + 1).
  { unfold pipe_len, pipe_push, u32, PIPESIZE in *. simpl. mlia. }
  split; [|done]. split; simpl; try done.
  - by rewrite length_insert.
  - apply u32_range.
  - rewrite E. lia.
Qed.

Lemma push_contents c p : pipe_wf p -> pipe_full p = false -> contents (pipe_push c p) = contents p ++ [c].
Proof.
  intros W Hf. destruct (push_wf c p W Hf) as [_ El]. pose proof (pipe_index p W) as Hi.
  assert (Hr : 0 <= pipe_len p < PIPESIZE).
  { pose proof (u32_range (p_nwrite p - p_nread p)). pose proof (pw_len _ W). unfold pipe_len in *.
    destruct (decide (u32 (p_nwrite p - p_nread p) = PIPESIZE)) as [E|E]; [|lia]. apply (pipe_full_iff p W) in E. congruence. }
  unfold contents. rewrite El. replace (Z.to_nat (pipe_len p + 1)) with (S (Z.to_nat (pipe_len p))) by lia.
  unfold pipe_bytes. rewrite seq_S, fmap_app. simpl. f_equal.
  - apply list_fmap_ext. intros j k Hk. apply lookup_seq in Hk as [-> Hk]. simpl. rewrite !nth_lookup.
    rewrite list_lookup_insert_ne; [done|]. rewrite Hi. unfold PIPESIZE in *. mlia.
  - rewrite nth_lookup, Z2Nat.id by lia. rewrite <- Hi, list_lookup_insert_eq; [done|].
    rewrite (pw_data _ W). unfold PIPESIZE. mlia.
Qed.

Lemma pop_spec p : pipe_wf p -> (p_nread p =? p_nwrite p) = false ->
  let '(c, p') := pipe_pop p in pipe_wf p' /\ pipe_len p' = pipe_len p - 1 /\ contents p = c :: contents p'.
Proof.
  intros W Hne. assert (Hl : pipe_len p <> 0) by (intros E; apply (pipe_empty_iff p W) in E; congruence).
  pose proof (u32_range (p_nwrite p - p_nread p)) as Hr. fold (pipe_len p) in Hr.
  unfold pipe_pop. set (p' := Pipe _ _ _ _ _).
  assert (El : pipe_len p' = pipe_len p - 1).
  { unfold p', pipe_len, u32 in *. simpl. destruct W as [_ W2 W3 W4]. mlia. }
  split; [|split; [done|]].
  - destruct W as [W1 W2 W3 W4]. split; simpl; try done; [apply u32_range|rewrite El; lia].
  - unfold contents. rewrite El. replace (Z.to_nat (pipe_len p)) with (S (Z.to_nat (pipe_len p - 1))) by lia.
    unfold pipe_bytes. cbn [seq]. rewrite fmap_cons, Z.add_0_r. f_equal. rewrite <- fmap_S_seq, <- list_fmap_compose.
    apply list_fmap_ext. intros j k _. unfold compose. simpl. f_equal. f_equal.
    rewrite <- (u32_mod_pipe (u32 (p_nread p + 1) + Z.of_nat k)), u32_add_l, u32_mod_pipe. f_equal. lia.
Qed.

(** ** What a stretch does *)

Definition same_ends (p p' : pipe) : Prop := p_readopen p' = p_readopen p /\ p_writeopen p' = p_writeopen p.

(** A stretch of a writer stores a prefix [q] of what it has to write; it returns when all is stored, fails
    when the pipe is full and nobody can read or it was killed, and else sleeps. *)
Lemma pipewrite_loop_spec killed n rest : forall p, pipe_wf p ->
  match pipewrite_loop killed n rest p with
  | PReturn r bytes rest' p' w => bytes = [] /\ pipe_wf p' /\ same_ends p p' /\
      (exists q, rest = q ++ rest' /\ contents p' = contents p ++ q) /\
      ((rest' = [] /\ r = n /\ w = [on_nread]) \/
       (r = -1 /\ w = [] /\ pipe_len p' = PIPESIZE /\ rest' <> [] /\ (p_readopen p = 0 \/ killed = true)))
  | PSleep c rest' p' w => c = on_nwrite /\ w = [on_nread] /\ pipe_wf p' /\ same_ends p p' /\
      (exists q, rest = q ++ rest' /\ contents p' = contents p ++ q) /\ pipe_len p' = PIPESIZE /\ p_readopen p <> 0 /\ killed = false
  end.
Proof.
  induction rest as [|c rest IH]; intros p W; simpl.
  - split_and!; try done; [exists []; split; [done|by rewrite app_nil_r]|by left].
  - destruct (pipe_full p) eqn:Hf.
    + apply (pipe_full_iff p W) in Hf. destruct ((p_readopen p =? 0) || killed) eqn:Hk.
      * split_and!; try done; [exists []; split; [done|by rewrite app_nil_r]|]. right. split_and!; try done. bool_hyps; auto.
      * bool_hyps. split_and!; try done. exists []. split; [done|by rewrite app_nil_r].
    + destruct (push_wf c p W Hf) as [W' _]. specialize (IH (pipe_push c p) W'). pose proof (push_contents c p W Hf) as Hc.
      destruct (pipewrite_loop killed n rest (pipe_push c p)) as [r bytes rest' p' w|ch rest' p' w].
      * destruct IH as (-> & Wp & He & (q & -> & Eq) & H). split_and!; try done. exists (c :: q). split; [done|].
        by rewrite Eq, Hc, <- app_assoc.
      * destruct IH as (-> & -> & Wp & He & (q & -> & Eq) & H). split_and!; try done; try apply H. exists (c :: q). split; [done|].
        by rewrite Eq, Hc, <- app_assoc.
Qed.

Lemma piperead_loop_spec n : forall acc p, pipe_wf p ->
  match piperead_loop n acc p with
  | PReturn r bytes rest' p' w => rest' = [] /\ w = [on_nwrite] /\ pipe_wf p' /\ same_ends p p' /\
      r = Z.of_nat (length bytes) /\ bytes = acc ++ take n (contents p) /\ contents p' = drop n (contents p)
  | PSleep _ _ _ _ => False
  end.
Proof.
  induction n as [|n IH]; intros acc p W; cbn [piperead_loop].
  - split_and!; try done; by rewrite ?app_nil_r.
  - destruct (p_nread p =? p_nwrite p) eqn:He.
    + apply (pipe_empty_iff p W) in He. assert (Hc : contents p = []) by (unfold contents; by rewrite He).
      rewrite Hc. split_and!; try done; by rewrite ?app_nil_r.
    + pose proof (pop_spec p W He) as Hp. destruct (pipe_pop p) as [c p1] eqn:Ep. destruct Hp as (W1 & _ & Hc).
      specialize (IH (acc ++ [c]) p1 W1). assert (Hends : same_ends p p1) by (unfold pipe_pop in Ep; by simplify_eq).
      destruct (piperead_loop n (acc ++ [c]) p1) as [r bytes rest' p' w|]; [|done].
      destruct IH as (-> & -> & W' & He' & -> & Hb & Hd). rewrite Hc. cbn [firstn skipn].
      split_and!; try done; [|by rewrite Hb, <- app_assoc]. destruct Hends, He'. split; congruence.
Qed.

Lemma piperead_spec killed n p : pipe_wf p ->
  match piperead killed n p with
  | PReturn r bytes rest' p' w => rest' = [] /\ pipe_wf p' /\ same_ends p p' /\ contents p = bytes ++ contents p' /\
      ((w = [on_nwrite] /\ r = Z.of_nat (length bytes) /\ bytes = take (Z.to_nat n) (contents p)) \/
       (w = [] /\ r = -1 /\ p' = p /\ killed = true))
  | PSleep c rest' p' w => c = on_nread /\ rest' = [] /\ p' = p /\ w = [] /\ pipe_len p = 0 /\ p_writeopen p <> 0 /\ killed = false
  end.
Proof.
  intros W. unfold piperead. destruct ((p_nread p =? p_nwrite p) && negb (p_writeopen p =? 0)) eqn:Hc.
  - apply andb_prop in Hc as [He Hw]. apply (pipe_empty_iff p W) in He. bool_hyps.
    assert (Hcon : contents p = []) by (unfold contents; by rewrite He).
    destruct killed; [|by split_and!]. split_and!; try done. right. by split_and!.
  - pose proof (piperead_loop_spec (Z.to_nat n) [] p W) as H.
    destruct (piperead_loop (Z.to_nat n) [] p) as [r bytes rest' p' w|]; [|done].
    destruct H as (-> & -> & W' & He & -> & -> & Hd). simpl. split_and!; try done.
    + by rewrite Hd, take_drop.
    + by left.
Qed.

(** ** The invariant *)

Record pinv (s : psys) : Prop := {
  pi_wf : pipe_wf (y_pipe s);
  pi_fifo : y_written s = y_read s ++ contents (y_pipe s);
  pi_writer : forall t n rest, y_thr s t = TAsleep true n rest -> pipe_len (y_pipe s) = PIPESIZE /\ p_readopen (y_pipe s) <> 0;
  pi_reader : forall t n rest, y_thr s t = TAsleep false n rest ->
    p_writeopen (y_pipe s) <> 0 /\ (pipe_len (y_pipe s) = 0 \/ exists k, k ∈ y_cut s /\ y_killed s k = true);
  pi_inside : forall t, (inside true (y_thr s t) = true -> p_writeopen (y_pipe s) <> 0) /\
    (inside false (y_thr s t) = true -> p_readopen (y_pipe s) <> 0)
}.

Lemma awaken_asleep w t b n rest : awaken w t = TAsleep b n rest -> t = TAsleep b n rest /\ (chan_of b ∉ w).
Proof. destruct t as [| |b' n' rest'|]; simpl; try done. case_decide; [done|]. intros [= -> -> ->]. done. Qed.

Lemma awaken_inside w b t : inside b (awaken w t) = inside b t.
Proof. destruct t; simpl; try done. by case_decide. Qed.

Lemma stored_app (q rest' : list Z) : stored (q ++ rest') rest' = q.
Proof. unfold stored. rewrite length_app, Nat.add_sub. apply take_app_length. Qed.

Lemma contents_len p : pipe_wf p -> Z.of_nat (length (contents p)) = pipe_len p.
Proof.
  intros W. unfold contents, pipe_bytes. rewrite length_fmap, length_seq.
  pose proof (u32_range (p_nwrite p - p_nread p)). unfold pipe_len in *. lia.
Qed.

Lemma asleep_inside t b n rest : t = TAsleep b n rest -> inside b t = true.
Proof. intros ->. simpl. by destruct b. Qed.

Lemma wf_len_range p : pipe_wf p -> 0 <= pipe_len p <= PIPESIZE.
Proof. intros W. pose proof (u32_range (p_nwrite p - p_nread p)). pose proof (pw_len _ W). unfold pipe_len in *. lia. Qed.

(** The threads after a stretch of [t]: [t] has its new state, the others may be woken. *)
Lemma others_asleep (f : nat -> pthread) w t x j b n rest : upd (fun j => awaken w (f j)) t x j = TAsleep b n rest ->
  (j = t /\ x = TAsleep b n rest) \/ (f j = TAsleep b n rest /\ (chan_of b ∉ w)).
Proof. unfold upd. destruct (decide (j = t)) as [->|]; [by left|]. intros H. right. by apply awaken_asleep in H. Qed.

Lemma others_inside (f : nat -> pthread) w t x j b : inside b (upd (fun j => awaken w (f j)) t x j) = true ->
  (j = t /\ inside b x = true) \/ inside b (f j) = true.
Proof. unfold upd. destruct (decide (j = t)) as [->|]; [by left|]. rewrite awaken_inside. by right. Qed.

(** A writer that finds the pipe full stores nothing. *)
Lemma full_stays p p' q : pipe_wf p -> pipe_wf p' -> contents p' = contents p ++ q -> pipe_len p = PIPESIZE -> pipe_len p' = PIPESIZE.
Proof.
  intros W W' Hc Hl. pose proof (contents_len p W) as H1. pose proof (contents_len p' W') as H2. rewrite Hc, length_app in H2.
  pose proof (wf_len_range p' W'). lia.
Qed.

Lemma writer_inv s t n rest : pinv s -> y_thr s t = TReady true n rest ->
  pinv (after_run s t true n rest (pipewrite_loop (y_killed s t) n rest (y_pipe s))).
Proof.
  intros [W F IW IR IN] Ht. pose proof (pipewrite_loop_spec (y_killed s t) n rest (y_pipe s) W) as H.
  assert (Hwo : p_writeopen (y_pipe s) <> 0) by (apply (IN t); by rewrite Ht).
  destruct (pipewrite_loop (y_killed s t) n rest (y_pipe s)) as [r bytes rest' p' w|c rest' p' w].
  - destruct H as (-> & W' & [E1 E2] & (q & -> & Eq) & H). split; simpl; try done.
    + rewrite stored_app, app_nil_r, Eq, F. by rewrite <- app_assoc.
    + intros j m r' Hj. apply others_asleep in Hj as [[_ ?]|[Hj _]]; [done|]. destruct (IW _ _ _ Hj) as [Hl Hro].
      split; [by apply (full_stays (y_pipe s) p' q)|congruence].
    + intros j m r' Hj. apply others_asleep in Hj as [[_ ?]|[Hj Hw]]; [done|]. destruct (IR _ _ _ Hj) as [_ Hl]. split; [congruence|].
      destruct H as [(_ & _ & ->)|(_ & _ & _ & Hne & [Hro|Hk])]; [exfalso; apply Hw; left| |right; exists t; rewrite bool_decide_eq_false_2 by done; split; [left|done]].
      exfalso. apply (proj2 (IN j)); [by eapply asleep_inside|done].
    + intros j. split; intros Hj; apply others_inside in Hj as [[_ ?]|Hj]; try done; rewrite ?E1, ?E2; by apply (IN j).
  - destruct H as (-> & -> & W' & [E1 E2] & (q & -> & Eq) & Hl & Hro & Hk). split; simpl; try done.
    + by rewrite stored_app, Eq, F, <- app_assoc.
    + intros j m r' Hj. split; [done|congruence].
    + intros j m r' Hj. apply others_asleep in Hj as [[_ ?]|[Hj Hw]]; [done|]. exfalso. apply Hw. left.
    + intros j. split; intros Hj; apply others_inside in Hj as [[_ ?]|Hj]; try done; rewrite ?E1, ?E2; try done; by apply (IN j).
Qed.

Lemma reader_inv s t n rest : pinv s -> y_thr s t = TReady false n rest -> rest = [] ->
  pinv (after_run s t false n rest (piperead (y_killed s t) n (y_pipe s))).
Proof.
  intros [W F IW IR IN] Ht ->. pose proof (piperead_spec (y_killed s t) n (y_pipe s) W) as H.
  assert (Hro : p_readopen (y_pipe s) <> 0) by (apply (IN t); by rewrite Ht).
  destruct (piperead (y_killed s t) n (y_pipe s)) as [r bytes rest' p' w|c rest' p' w].
  - destruct H as (-> & W' & [E1 E2] & Hc & H). split; simpl; try done.
    + by rewrite app_nil_r, F, Hc, app_assoc.
    + intros j m r' Hj. apply others_asleep in Hj as [[_ ?]|[Hj Hw]]; [done|].
      destruct H as [(-> & _)|(_ & _ & -> & _)]; [exfalso; apply Hw; left|by eapply IW].
    + intros j m r' Hj. apply others_asleep in Hj as [[_ ?]|[Hj Hw]]; [done|]. destruct (IR _ _ _ Hj) as [Hwo Hl].
      split; [congruence|]. destruct Hl as [Hl|?]; [left|by right]. pose proof (contents_len _ W) as L1. pose proof (contents_len _ W') as L2.
      rewrite Hc, length_app in L1. pose proof (wf_len_range p' W'). lia.
    + intros j. split; intros Hj; apply others_inside in Hj as [[_ ?]|Hj]; try done; rewrite ?E1, ?E2; by apply (IN j).
  - destruct H as (-> & -> & -> & -> & Hl & Hwo & Hk). split; simpl; try done.
    + by rewrite app_nil_r.
    + intros j m r' Hj. apply others_asleep in Hj as [[_ ?]|[Hj _]]; [done|]. by eapply IW.
    + intros j m r' Hj. split; [done|by left].
Qed.

(** A reader has nothing to write. *)
Definition readers_plain (s : psys) : Prop := forall t n rest, y_thr s t = TReady false n rest \/ y_thr s t = TAsleep false n rest -> rest = [].

Lemma close_inv s b p' freed w : pinv s -> (forall t, inside b (y_thr s t) = false) -> pipeclose (y_pipe s) b = (p', freed, w) ->
  pinv (Psys p' (fun j => awaken w (y_thr s j)) (y_killed s) (y_written s) (y_read s) (y_cut s)).
Proof.
  intros [W F IW IR IN] Hin Hc. assert (Hp : p_data p' = p_data (y_pipe s) /\ p_nread p' = p_nread (y_pipe s) /\ p_nwrite p' = p_nwrite (y_pipe s)).
  { unfold pipeclose in Hc. destruct b; by simplify_eq. }
  destruct Hp as (P1 & P2 & P3). assert (Hl : pipe_len p' = pipe_len (y_pipe s)) by (unfold pipe_len; by rewrite P2, P3).
  split; simpl.
  - destruct W as [W1 W2 W3 W4]. split; rewrite ?P1, ?P2, ?P3, ?Hl; done.
  - unfold contents. by rewrite P1, P2, Hl.
  - intros j m r Hj. apply awaken_asleep in Hj as [Hj Hw]. destruct (IW _ _ _ Hj) as [Hf Hro]. split; [congruence|].
    unfold pipeclose in Hc. destruct b; simplify_eq; simpl; [done|]. exfalso. apply Hw. left.
  - intros j m r Hj. apply awaken_asleep in Hj as [Hj Hw]. destruct (IR _ _ _ Hj) as [Hwo Hf]. rewrite Hl.
    unfold pipeclose in Hc. destruct b; simplify_eq; simpl; [|done]. exfalso. apply Hw. left.
  - intros j. rewrite !awaken_inside. unfold pipeclose in Hc. destruct b; simplify_eq; simpl; (split; [|]); try (rewrite Hin; done); by apply IN.
Qed.

Lemma awaken_cases w t b m r : awaken w t = TReady b m r \/ awaken w t = TAsleep b m r -> t = TReady b m r \/ t = TAsleep b m r.
Proof. destruct t as [|b' n' r'|b' n' r'|]; simpl; try done. case_decide; intros [?|?]; simplify_eq; auto. Qed.

Lemma pstep_inv s s' : pinv s /\ readers_plain s -> pstep s s' -> pinv s' /\ readers_plain s'.
Proof.
  intros [I RP] Hst. destruct Hst as [s t addr n H1 H2 Ho|s t n H1 H2 Ho|s t b n rest Ht|s t|s b p' freed w Hin Ho Hc].
  - split; [|intros j m r; simpl; unfold upd; case_decide; [by intros [?|?]|apply RP]]. destruct I as [W F IW IR IN].
    split; simpl; try done.
    + intros j m r. unfold upd. case_decide; [done|apply IW].
    + intros j m r. unfold upd. case_decide; [done|apply IR].
    + intros j. unfold upd. case_decide; [done|apply IN].
  - split; [|intros j m r; simpl; unfold upd; case_decide; [intros [?|?]; by simplify_eq|apply RP]]. destruct I as [W F IW IR IN].
    split; simpl; try done.
    + intros j m r. unfold upd. case_decide; [done|apply IW].
    + intros j m r. unfold upd. case_decide; [done|apply IR].
    + intros j. unfold upd. case_decide; [done|apply IN].
  - assert (HRP : readers_plain (after_run s t b n rest (stretch (y_killed s t) b n rest (y_pipe s)))).
    { assert (Hj : forall w x, (forall m r, x = TReady false m r \/ x = TAsleep false m r -> r = []) ->
        forall j m r, upd (fun j => awaken w (y_thr s j)) t x j = TReady false m r \/ upd (fun j => awaken w (y_thr s j)) t x j = TAsleep false m r -> r = []).
      { intros w x Hx j m r. unfold upd. destruct (decide (j = t)); [apply Hx|]. intros Hj. by apply (RP j m), (awaken_cases w). }
      unfold stretch. destruct b.
      - destruct (pipewrite_loop _ _ _ _); intros j m r'; apply Hj; by intros ? ? [?|?].
      - pose proof (piperead_spec (y_killed s t) n (y_pipe s) (pi_wf _ I)) as H.
        destruct (piperead _ _ _); intros j m r'; apply Hj; intros ? ? [?|?]; simplify_eq; apply H. }
    split; [|done]. destruct b; [by apply writer_inv|]. apply reader_inv; [done|done|]. by apply (RP t n); left.
  - split.
    + destruct I as [W F IW IR IN]. split; simpl; try done.
      * intros j m r. unfold upd. destruct (decide (j = t)); [by destruct (y_thr s t)|apply IW].
      * intros j m r Hj. assert (Hj' : y_thr s j = TAsleep false m r) by (unfold upd in Hj; destruct (decide (j = t)); [by destruct (y_thr s t)|done]).
        destruct (IR _ _ _ Hj') as [Hw [Hl|(k & Hc & Hk)]]; (split; [done|]); [by left|right]. exists k. split; [done|]. unfold upd. by case_decide.
      * intros j. unfold upd. destruct (decide (j = t)) as [->|]; [|apply IN]. specialize (IN t). by destruct (y_thr s t).
    + intros j m r. simpl. unfold upd. destruct (decide (j = t)) as [->|]; [|apply RP]. intros Hj. apply (RP t m).
      destruct (y_thr s t); destruct Hj; simplify_eq; auto.
  - split; [by eapply close_inv|]. intros j m r Hj. by apply (RP j m), (awaken_cases w).
Qed.

Lemma preachable_inv s : preachable s -> pinv s /\ readers_plain s.
Proof.
  induction 1 as [data Hd|s s' _ IH Hst]; [|by eapply pstep_inv]. split; [|by intros t n rest [?|?]].
  split; simpl; try done.
Qed.

(** ** Claims *)

(** C20: in every reachable state of a pipe with any number of readers and writers, the bytes read so far
    followed by the bytes in the pipe are the bytes written so far: nothing is lost, repeated
    or reordered, also when the 32-bit counters wrap around, and the pipe never holds more
    than [PIPESIZE] bytes. *)
Theorem pipe_fifo s : preachable s ->
  y_written s = y_read s ++ contents (y_pipe s) /\ Z.of_nat (length (contents (y_pipe s))) <= PIPESIZE.
Proof.
  intros H. apply preachable_inv in H as [I _]. split; [apply I|]. rewrite contents_len by apply I. apply (pw_len _ (pi_wf _ I)).
Qed.

(** C21: a writer sleeps only while the pipe is full and its read end is open; a reader sleeps only while the
    write end is open and the pipe is empty, unless a killed process has given up a write before its last byte. *)
Theorem pipe_no_lost_wakeup s t n rest : preachable s ->
  (y_thr s t = TAsleep true n rest -> pipe_full (y_pipe s) = true /\ p_readopen (y_pipe s) <> 0) /\
  (y_thr s t = TAsleep false n rest -> p_writeopen (y_pipe s) <> 0 /\ (contents (y_pipe s) = [] \/ exists k, k ∈ y_cut s /\ y_killed s k = true)).
Proof.
  intros H. apply preachable_inv in H as [I _]. split; intros Ht.
  - destruct (pi_writer _ I _ _ _ Ht) as [Hl Hr]. split; [|done]. by apply (pipe_full_iff _ (pi_wf _ I)).
  - destruct (pi_reader _ I _ _ _ Ht) as [Hw Hl]. split; [done|]. destruct Hl as [Hl|Hk]; [left|by right]. unfold contents. by rewrite Hl.
Qed.

(** A pipe with one reader asleep. *)
Definition pipe_start : psys := Psys (pipe_init (replicate (Z.to_nat PIPESIZE) 0)) (fun _ => TIdle) (fun _ => false) [] [] [].

Lemma pipe_start_reachable : preachable pipe_start.
Proof. by apply preach_init. Qed.

Definition reader_ready : psys :=
  Psys (y_pipe pipe_start) (upd (y_thr pipe_start) 0%nat (TReady false 1 [])) (y_killed pipe_start) (y_written pipe_start) (y_read pipe_start) (y_cut pipe_start).
Definition reader_waits : psys := after_run reader_ready 0 false 1 [] (stretch (y_killed reader_ready 0) false 1 [] (y_pipe reader_ready)).

Lemma reader_waits_reachable : preachable reader_waits.
Proof.
  eapply preach_step; [eapply preach_step; [apply pipe_start_reachable|exact (step_read pipe_start 0 1 eq_refl eq_refl ltac:(done))]|].
  exact (step_run reader_ready 0 false 1 [] eq_refl).
Qed.

Lemma pipe_no_lost_wakeup_witness : y_thr reader_waits 0 = TAsleep false 1 [] /\ contents (y_pipe reader_waits) = [].
Proof.
  split; [reflexivity|].
  destruct (proj2 (proj2 (pipe_no_lost_wakeup reader_waits 0 1 [] reader_waits_reachable) eq_refl)) as [E|(k & Hk & _)]; [exact E|].
  apply elem_of_nil in Hk. destruct Hk.
Defined.

(** The reader waits, process 1 writes three bytes, and the reader is ready again. *)
Definition three_ready : psys :=
  Psys (y_pipe reader_waits) (upd (y_thr reader_waits) 1%nat (TReady true 3 (take (Z.to_nat 3) [7; 8; 9]))) (y_killed reader_waits) (y_written reader_waits) (y_read reader_waits) (y_cut reader_waits).
Definition three_written : psys := after_run three_ready 1 true 3 [7; 8; 9] (stretch (y_killed three_ready 1) true 3 [7; 8; 9] (y_pipe three_ready)).

Lemma three_written_reachable : preachable three_written.
Proof.
  eapply preach_step; [eapply preach_step; [apply reader_waits_reachable|exact (step_write reader_waits 1 [7; 8; 9] 3 eq_refl eq_refl ltac:(done))]|].
  exact (step_run three_ready 1 true 3 [7; 8; 9] eq_refl).
Qed.

Lemma pipe_fifo_witness : y_written three_written = [7; 8; 9] /\ y_read three_written ++ contents (y_pipe three_written) = [7; 8; 9].
Proof. split; [reflexivity|]. rewrite <- (proj1 (pipe_fifo three_written three_written_reachable)). reflexivity. Defined.

(** A writer that is killed can strand the readers: it fills the pipe and returns -1 without the
    [wakeup(&p->nread)] that every other way out of the loop has, and a reader stays asleep
    on a full pipe with no process left to wake it. *)
Theorem killed_writer_strands_reader : exists s,
  preachable s /\ y_thr s 0%nat = TAsleep false 1 [] /\ pipe_full (y_pipe s) = true /\ p_writeopen (y_pipe s) <> 0 /\
  y_thr s 1%nat = TDone (-1) [] /\ forall t b n rest, y_thr s t <> TReady b n rest.
Proof.
  set (s1 := Psys (y_pipe reader_waits) (upd (y_thr reader_waits) 1%nat TIdle) (upd (y_killed reader_waits) 1%nat true) [] [] []).
  set (w := replicate 600 5).
  set (s2 := Psys (y_pipe s1) (upd (y_thr s1) 1%nat (TReady true 600 w)) (y_killed s1) [] [] []).
  exists (after_run s2 1 true 600 w (stretch true true 600 w (y_pipe s2))).
  split.
  { eapply preach_step; [eapply preach_step; [eapply preach_step; [apply reader_waits_reachable|apply (step_kill reader_waits 1)]|]|].
    - by apply (step_write s1 1 w 600).
    - by apply (step_run s2 1 true 600 w). }
  split; [by vm_compute|]. split; [by vm_compute|]. split; [by vm_compute|]. split; [by vm_compute|].
  intros t b n rest. destruct t as [|[|t]]; [by vm_compute|by vm_compute|].
  assert (E : exists p w', stretch true true 600 w (y_pipe s2) = PReturn (-1) [] (replicate 88 5) p w') by (vm_compute; eauto).
  destruct E as (p & w' & ->). done.
Qed.
