(* ===== verification/File.v ===== *)
(** * Open files: file.c and the allocation of pipes in pipe.c

    The file table, a hundred [struct file], over the file system and the page allocator.  A
    [struct file*] is an index into the table.  The pipes in use are a map from the page
    a pipe is in to its [struct pipe]; a pointer to a page without a pipe is a dangling
    pointer, which is a fault here.  A buffer [char *addr] is the list of the
    bytes read or written.

    [wakeup] acts on the process table only; the interleavings of readers and writers of a
    pipe are the subject of Pipe.v. *)

From S2P Require Import Prelude CString Kalloc Proc Bio BufferCache Bytes Log Fs Pipe.

Definition NFILE : nat := 100.

Inductive ftype := FD_NONE | FD_PIPE | FD_INODE.

#[global] Instance ftype_eq_dec : EqDecision ftype.
Proof. solve_decision. Defined.

(** [struct file] *)
Record file := File {
  fi_type : ftype; fi_ref : Z; fi_readable : Z; fi_writable : Z; fi_pipe : Z; fi_ip : nat; fi_off : Z
}.

Definition zero_file : file := File FD_NONE 0 0 0 0 0 0.

Definition set_fi_type (v : ftype) (f : file) : file :=
  File v (fi_ref f) (fi_readable f) (fi_writable f) (fi_pipe f) (fi_ip f) (fi_off f).
Definition set_fi_ref (v : Z) (f : file) : file :=
  File (fi_type f) v (fi_readable f) (fi_writable f) (fi_pipe f) (fi_ip f) (fi_off f).
Definition set_fi_mode (r w : Z) (f : file) : file :=
  File (fi_type f) (fi_ref f) r w (fi_pipe f) (fi_ip f) (fi_off f).
Definition set_fi_pipe (v : Z) (f : file) : file :=
  File (fi_type f) (fi_ref f) (fi_readable f) (fi_writable f) v (fi_ip f) (fi_off f).
Definition set_fi_ip (v : nat) (f : file) : file :=
  File (fi_type f) (fi_ref f) (fi_readable f) (fi_writable f) (fi_pipe f) v (fi_off f).
Definition set_fi_off (v : Z) (f : file) : file :=
  File (fi_type f) (fi_ref f) (fi_readable f) (fi_writable f) (fi_pipe f) (fi_ip f) v.

(** The file system, [ftable.file], the pipes by page, and the tick count of trap.c. *)
Record fls (B : Type) := Fls { x_fs : fsys B; x_file : list file; x_pipe : gmap Z pipe; x_ticks : Z }.
Arguments Fls {B}.
Arguments x_fs {B}.
Arguments x_file {B}.
Arguments x_pipe {B}.
Arguments x_ticks {B}.

Section File.
Context {B : Type} {OPS : BufferOps B}.

Definition set_x_fs (v : fsys B) (s : fls B) : fls B := Fls v (x_file s) (x_pipe s) (x_ticks s).
Definition set_x_file (v : list file) (s : fls B) : fls B := Fls (x_fs s) v (x_pipe s) (x_ticks s).
Definition set_x_pipe (v : gmap Z pipe) (s : fls B) : fls B := Fls (x_fs s) (x_file s) v (x_ticks s).
Definition set_x_ticks (v : Z) (s : fls B) : fls B := Fls (x_fs s) (x_file s) (x_pipe s) v.

Abbreviation W := (fls B * kstate)%type.

#[global] Instance fls_locks : HasLocks W.
Proof.
  refine {| held := fun s => held (x_fs s.1); set_held := fun l s => (set_x_fs (set_held l (x_fs s.1)) s.1, s.2) |}; intros.
  - apply held_set_held.
  - destruct s as [[] k]. unfold set_x_fs. cbn [fst snd x_fs x_file x_pipe]. by rewrite set_held_held.
  - unfold set_x_fs. cbn [fst snd x_fs x_file x_pipe x_ticks]. by rewrite set_held_set_held.
Defined.

Definition lift_x {A} (m : K (fsys B) A) : K W A := fun s =>
  match m (x_fs s.1) with
  | Ok a f => Ok a (set_x_fs f s.1, s.2)
  | Panic msg f => Panic msg (set_x_fs f s.1, s.2)
  | Block c f => Block c (set_x_fs f s.1, s.2)
  | NoFuel => NoFuel
  end.

Definition lift_m {A} (m : K kstate A) : K W A := fun s =>
  match m s.2 with
  | Ok a k => Ok a (s.1, k)
  | Panic msg k => Panic msg (s.1, k)
  | Block c k => Block c (s.1, k)
  | NoFuel => NoFuel
  end.

Definition file_at (s : W) (f : nat) : file := nth f (x_file s.1) zero_file.
Definition getf {A} (f : nat) (g : file -> A) : K W A := kgets (fun s => g (file_at s f)).
Definition setf (f : nat) (g : file -> file) : K W unit := kmod (fun s => (set_x_file (alter g f (x_file s.1)) s.1, s.2)).

Definition get_pipe (p : Z) : K W pipe :=
  let* s := kget in
  match x_pipe s.1 !! p with
  | Some v => kret v
  | None => kpanic "trap"
  end.
Definition set_pipe (p : Z) (v : pipe) : K W unit := kmod (fun s => (set_x_pipe (<[ p := v ]> (x_pipe s.1)) s.1, s.2)).
Definition drop_pipe (p : Z) : K W unit := kmod (fun s => (set_x_pipe (delete p (x_pipe s.1)) s.1, s.2)).

Variable kend : Z.   (* end[] *)
Variable devsw_read : Z -> option (nat -> Z -> K (fsys B) (Z * list Z)).
Variable devsw_write : Z -> option (nat -> list Z -> Z -> K (fsys B) Z).

Definition filealloc : K W (option nat) :=
  acquire lk_ftable ;;;
  let* r := for_first (seq 0 NFILE) (fun f =>
    let* ref := getf f fi_ref in
    if ref =? 0 then
      setf f (set_fi_ref 1) ;;;
      release lk_ftable ;;;
      kret (Some f)
    else kret None) in
  match r with
  | Some f => kret (Some f)
  | None => release lk_ftable ;;; kret None
  end.

Definition filedup (f : nat) : K W nat :=
  acquire lk_ftable ;;;
  let* ref := getf f fi_ref in
  if ref <? 1 then kpanic "filedup"
  else
    setf f (set_fi_ref (ref + 1)) ;;;
    release lk_ftable ;;;
    kret f.

(** [pipeclose(p, writable)] *)
Definition file_pipeclose (p : Z) (writable : Z) : K W unit :=
  acquire (lk_pipe p) ;;;
  let* v := get_pipe p in
  let '(v', freed, _) := pipeclose v (negb (writable =? 0)) in
  set_pipe p v' ;;;
  release (lk_pipe p) ;;;
  when freed do (drop_pipe p ;;; lift_m (kfree kend p)).

Definition fileclose (f : nat) : K W unit :=
  acquire lk_ftable ;;;
  let* ref := getf f fi_ref in
  if ref <? 1 then kpanic "fileclose"
  else
    setf f (set_fi_ref (ref - 1)) ;;;
    if 0 <? ref - 1 then release lk_ftable
    else
      let* ff := getf f (fun x => x) in
      setf f (set_fi_ref 0) ;;;
      setf f (set_fi_type FD_NONE) ;;;
      release lk_ftable ;;;
      match fi_type ff with
      | FD_PIPE => file_pipeclose (fi_pipe ff) (fi_writable ff)
      | FD_INODE =>
          lift_x (lift_l begin_trans) ;;;
          lift_x (Fs.iput (fi_ip ff)) ;;;
          lift_x (lift_l commit_trans)
      | FD_NONE => kret tt
      end.

Definition filestat (f : nat) : K W (Z * option stat) :=
  let* ff := getf f (fun x => x) in
  match fi_type ff with
  | FD_INODE =>
      lift_x (ilock (fi_ip ff)) ;;;
      let* st := lift_x (stati (fi_ip ff)) in
      lift_x (iunlock (fi_ip ff)) ;;;
      kret (0, Some st)
  | _ => kret (-1, None)
  end.

(** What a stretch of a pipe operation leaves: its result, or the channel it sleeps on. *)
Definition pipe_result (p : Z) (o : pout) : K W (Z * list Z) :=
  match o with
  | PReturn r bytes _ v _ =>
      set_pipe p v ;;;
      release (lk_pipe p) ;;;
      kret (r, bytes)
  | PSleep c _ v _ =>
      set_pipe p v ;;;
      release (lk_pipe p) ;;;
      kblock (match c with on_nread => ch_pipe_nread p | on_nwrite => ch_pipe_nwrite p end)
  end.

(** [killed] is [proc->killed]. *)
Definition fileread (killed : bool) (f : nat) (n : Z) : K W (Z * list Z) :=
  let* ff := getf f (fun x => x) in
  if fi_readable ff =? 0 then kret (-1, [])
  else
    match fi_type ff with
    | FD_PIPE =>
        acquire (lk_pipe (fi_pipe ff)) ;;;
        let* v := get_pipe (fi_pipe ff) in
        pipe_result (fi_pipe ff) (piperead killed n v)
    | FD_INODE =>
        lift_x (ilock (fi_ip ff)) ;;;
        let* (r, bytes) := lift_x (readi devsw_read (fi_ip ff) (fi_off ff) (u32 n)) in
        (when 0 <? r do setf f (fun x => set_fi_off (u32 (fi_off x + r)) x)) ;;;
        lift_x (iunlock (fi_ip ff)) ;;;
        kret (r, bytes)
    | FD_NONE => kpanic "fileread"
    end.

Definition FILEWRITE_MAX : Z := (LOGSIZE - 1 - 1 - 2) / 2 * 512.

(** The loop of [filewrite]; [i] bytes have been written, and the result is [i] at its end. *)
Fixpoint filewrite_loop (f ip : nat) (addr : list Z) (n i : Z) (fuel : nat) : K W Z :=
  if i <? n then
    match fuel with
    | O => knofuel
    | S fuel' =>
        let n1 := if FILEWRITE_MAX <? n - i then FILEWRITE_MAX else n - i in
        lift_x (lift_l begin_trans) ;;;
        lift_x (ilock ip) ;;;
        let* off := getf f fi_off in
        let* r := lift_x (writei devsw_write ip (drop (Z.to_nat i) addr) off n1) in
        (when 0 <? r do setf f (fun x => set_fi_off (u32 (fi_off x + r)) x)) ;;;
        lift_x (iunlock ip) ;;;
        lift_x (lift_l commit_trans) ;;;
        if r <? 0 then kret i
        else if negb (r =? n1) then kpanic "short filewrite"
        else filewrite_loop f ip addr n (i + r) fuel'
    end
  else kret i.

(** Every round but the last writes [FILEWRITE_MAX] bytes. *)
Definition filewrite_fuel (n : Z) : nat := Z.to_nat (n / FILEWRITE_MAX) + 1.

Definition filewrite (killed : bool) (f : nat) (addr : list Z) (n : Z) : K W Z :=
  let* ff := getf f (fun x => x) in
  if fi_writable ff =? 0 then kret (-1)
  else
    match fi_type ff with
    | FD_PIPE =>
        acquire (lk_pipe (fi_pipe ff)) ;;;
        let* v := get_pipe (fi_pipe ff) in
        let* (r, _) := pipe_result (fi_pipe ff) (pipewrite killed addr n v) in
        kret r
    | FD_INODE =>
        let* i := filewrite_loop f (fi_ip ff) addr n 0 (filewrite_fuel n) in
        kret (if i =? n then n else -1)
    | FD_NONE => kpanic "filewrite"
    end.

(** ** pipealloc *)

Definition SIZEOF_SPINLOCK : Z := 52.

(** What the page held where [p->data] is. *)
Definition page_data (m : mem) (p : Z) : list Z := (fun i => m (p + SIZEOF_SPINLOCK + i)) <$> seqZ 0 PIPESIZE.

(** [goto bad], where the page has not been allocated. *)
Definition pipealloc_bad (f0 f1 : option nat) : K W (option (nat * nat)) :=
  (match f0 with Some f => fileclose f | None => kret tt end) ;;;
  (match f1 with Some f => fileclose f | None => kret tt end) ;;;
  kret None.

Definition pipealloc : K W (option (nat * nat)) :=
  let* f0 := filealloc in
  match f0 with
  | None => pipealloc_bad None None
  | Some r =>
      let* f1 := filealloc in
      match f1 with
      | None => pipealloc_bad f0 None
      | Some w =>
          let* p := lift_m kalloc in
          if p =? 0 then pipealloc_bad f0 f1
          else
            let* s := kget in
            set_pipe p (pipe_init (page_data (k_mem s.2) p)) ;;;
            setf r (fun x => set_fi_pipe p (set_fi_mode 1 0 (set_fi_type FD_PIPE x))) ;;;
            setf w (fun x => set_fi_pipe p (set_fi_mode 0 1 (set_fi_type FD_PIPE x))) ;;;
            kret (Some (r, w))
      end
  end.
End File.

(** The interface proc.c uses; [namei] of the root does not look at [proc->cwd]. *)
#[global] Instance kernel_files {B} `{BufferOps B} (kend : Z) (devsw_read : Z -> option (nat -> Z -> K (fsys B) (Z * list Z))) : FileOps (fls B) := {|
  Proc.filedup := filedup;
  Proc.fileclose := fileclose kend;
  Proc.idup := fun ip => lift_x (Fs.idup ip);
  Proc.iput := fun ip => lift_x (Fs.iput ip);
  Proc.namei_root := lift_x (namei devsw_read 0 [slash]);
  Proc.initlog := lift_x (lift_l Log.initlog)
|}.
