(* ===== verification/FileSpec.v ===== *)
(** * The file table and the pipes

    The type invariant of file.c: a file that refers to a pipe refers to a live pipe whose end it is,
    each open end belongs to one file of the table, and the pages of the pipes and the free pages
    together are always the same pages.  [pipealloc], [filedup] and [fileclose] keep it. *)

From S2P Require Import Prelude CString Mmu Kalloc Vm VmSpec Proc Bio BufferCache BioSpec Bytes Log Fs Pipe File.

(** The end of the pipe a file is. *)
Definition write_end (x : file) : bool := negb (fi_writable x =? 0).
Definition end_flag (b : bool) (v : pipe) : Z := if b then p_writeopen v else p_readopen v.

Record files_ok (kend : Z) (F : list file) (P : gmap Z pipe) (k : kstate) (l pages : list Z) : Prop := {
  fo_len : length F = NFILE;
  fo_ref : forall f x, F !! f = Some x -> 0 <= fi_ref x;
  fo_none : forall f x, F !! f = Some x -> fi_ref x = 0 -> fi_type x = FD_NONE;
  fo_pipe : forall f x, F !! f = Some x -> fi_type x = FD_PIPE ->
    exists v, P !! fi_pipe x = Some v /\ end_flag (write_end x) v <> 0;
  fo_ends : forall f g x y, F !! f = Some x -> F !! g = Some y -> fi_type x = FD_PIPE -> fi_type y = FD_PIPE ->
    fi_pipe x = fi_pipe y -> write_end x = write_end y -> f = g;
  fo_open : forall p v b, P !! p = Some v -> end_flag b v <> 0 ->
    exists f x, F !! f = Some x /\ fi_type x = FD_PIPE /\ fi_pipe x = p /\ write_end x = b;
  fo_live : forall p v, P !! p = Some v -> exists b, end_flag b v <> 0;
  fo_page : forall p v, P !! p = Some v -> is_page kend p;
  fo_free : free_list kend k l /\ lock_free k;
  fo_pages : l ++ (map_to_list P).*1 ≡ₚ pages /\ NoDup pages
}.

(** ** Changes that keep the invariant *)

Lemma alter_Some {A} (g : A -> A) f (l : list A) j y : alter g f l !! j = Some y ->
  (j = f /\ exists x, l !! f = Some x /\ y = g x) \/ (j <> f /\ l !! j = Some y).
Proof.
  destruct (decide (j = f)) as [->|Hj].
  - rewrite list_lookup_alter_eq. destruct (l !! f) as [x|]; [|done]. intros [= <-]. left. eauto.
  - rewrite list_lookup_alter_ne by done. by right.
Qed.

Lemma alter_at {A} (g : A -> A) f (l : list A) x : l !! f = Some x -> alter g f l !! f = Some (g x).
Proof. intros E. by rewrite list_lookup_alter_eq, E. Qed.

Ltac alter_cases H := apply alter_Some in H as [[-> (? & ? & ->)]|[? H]].

(** A change of reference counts to a positive number. *)
Lemma ok_ref kend F P k l pages f n : 1 <= n -> files_ok kend F P k l pages -> files_ok kend (alter (set_fi_ref n) f F) P k l pages.
Proof.
  intros Hn [H1 H2 H3 H4 H5 H6 H7 H8 H9 H10]. split; try done.
  - by rewrite length_alter.
  - intros g x Hx. alter_cases Hx; [cbn; lia|by eapply H2].
  - intros g x Hx. alter_cases Hx; [cbn; lia|by eapply H3].
  - intros g x Hx. alter_cases Hx; [|by eapply H4]. intros Ht. by apply (H4 _ _ H Ht).
  - intros g g' x y Hx Hy. alter_cases Hx; alter_cases Hy; [done|..]; intros T1 T2 T3 T4.
    + by apply (H5 _ _ _ _ H Hy T1 T2 T3 T4).
    + by apply (H5 _ _ _ _ Hx H0 T1 T2 T3 T4).
    + by apply (H5 _ _ _ _ Hx Hy T1 T2 T3 T4).
  - intros p v b Hv Hb. destruct (H6 p v b Hv Hb) as (g & x & Hg & Ht). destruct (decide (g = f)) as [->|Hne].
    + exists f, (set_fi_ref n x). split; [by apply alter_at|done].
    + exists g, x. by rewrite list_lookup_alter_ne.
Qed.

(** The last close of a file. *)
Definition closed (x : file) : file := set_fi_type FD_NONE (set_fi_ref 0 x).

(** The table without the file [f] keeps what does not depend on the pipe of [f]. *)
Lemma ok_close kend F P P' k k' l l' pages f x : files_ok kend F P k l pages -> F !! f = Some x ->
  (forall p, fi_type x = FD_PIPE -> p <> fi_pipe x -> P' !! p = P !! p) ->
  (fi_type x <> FD_PIPE -> P' = P) ->
  (fi_type x = FD_PIPE -> forall v, P' !! fi_pipe x = Some v -> exists v0, P !! fi_pipe x = Some v0 /\
     end_flag (write_end x) v = 0 /\ end_flag (negb (write_end x)) v = end_flag (negb (write_end x)) v0 /\
     end_flag (negb (write_end x)) v0 <> 0) ->
  (fi_type x = FD_PIPE -> P' !! fi_pipe x = None -> forall v0, P !! fi_pipe x = Some v0 -> end_flag (negb (write_end x)) v0 = 0) ->
  free_list kend k' l' /\ lock_free k' -> l' ++ (map_to_list P').*1 ≡ₚ pages ->
  files_ok kend (alter closed f F) P' k' l' pages.
Proof.
  intros [H1 H2 H3 H4 H5 H6 H7 H8 H9 [H10 H11]] Hf Ho Hn Hs Hd Hfree Hpages. split; try done.
  - by rewrite length_alter.
  - intros g y Hy. alter_cases Hy; [cbn; lia|by eapply H2].
  - intros g y Hy. alter_cases Hy; [done|by eapply H3].
  - intros g y Hy Ht. alter_cases Hy; [done|]. destruct (H4 g y Hy Ht) as (v & Hv & He).
    destruct (decide (fi_type x = FD_PIPE)) as [Hx|Hx]; [|rewrite Hn by done; eauto].
    destruct (decide (fi_pipe y = fi_pipe x)) as [Ep|Ep]; [|rewrite Ho by done; eauto].
    assert (Hw : write_end y = negb (write_end x)).
    { destruct (write_end y) eqn:Ey, (write_end x) eqn:Ex; try done; exfalso; apply H; apply (H5 _ _ _ _ Hy Hf Ht Hx Ep); congruence. }
    rewrite Ep in *. rewrite Hw in *. destruct (P' !! fi_pipe x) as [v'|] eqn:E.
    + destruct (Hs Hx v' eq_refl) as (v0 & Hv0 & _ & E1 & E2). exists v'. split; [done|congruence].
    + exfalso. apply He. by apply (Hd Hx eq_refl).
  - intros g g' y z Hy Hz. alter_cases Hy; [done|]. alter_cases Hz; [done|]. eauto.
  - intros p v b Hv Hb. assert (Hold : exists v0, P !! p = Some v0 /\ end_flag b v0 <> 0 /\ (fi_type x = FD_PIPE -> p = fi_pipe x -> b = negb (write_end x))).
    { destruct (decide (fi_type x = FD_PIPE)) as [Hx|Hx]; [|rewrite Hn in Hv by done; by exists v].
      destruct (decide (p = fi_pipe x)) as [->|Ep]; [|rewrite Ho in Hv by done; exists v; naive_solver].
      destruct (Hs Hx v Hv) as (v0 & Hv0 & E0 & E1 & E2). exists v0. split; [done|].
      destruct b, (write_end x) eqn:Ew; cbn in *; try congruence; naive_solver. }
    destruct Hold as (v0 & Hv0 & Hb0 & Hd0). destruct (H6 p v0 b Hv0 Hb0) as (g & y & Hy & Ht & Ep & Ew).
    exists g, y. split; [|done]. rewrite list_lookup_alter_ne; [done|]. intros ->. rewrite Hf in Hy. simplify_eq.
    specialize (Hd0 Ht eq_refl). by destruct (write_end y).
  - intros p v Hv. destruct (decide (fi_type x = FD_PIPE)) as [Hx|Hx]; [|rewrite Hn in Hv by done; eauto].
    destruct (decide (p = fi_pipe x)) as [->|Ep]; [|rewrite Ho in Hv by done; eauto].
    destruct (Hs Hx v Hv) as (v0 & _ & _ & E1 & E2). exists (negb (write_end x)). congruence.
  - intros p v Hv. destruct (decide (fi_type x = FD_PIPE)) as [Hx|Hx]; [|rewrite Hn in Hv by done; eauto].
    destruct (decide (p = fi_pipe x)) as [->|Ep]; [|rewrite Ho in Hv by done; eauto].
    destruct (Hs Hx v Hv) as (v0 & Hv0 & _). eauto.
Qed.

(** *** Pages *)

Definition keys (P : gmap Z pipe) : list Z := (map_to_list P).*1.

Lemma keys_delete P p v : P !! p = Some v -> keys P ≡ₚ p :: keys (delete p P).
Proof. intros E. unfold keys. by rewrite <- (map_to_list_delete _ _ _ E). Qed.

Lemma keys_insert P p v v' : P !! p = Some v -> keys (<[ p := v' ]> P) ≡ₚ keys P.
Proof.
  intros E. rewrite (keys_delete (<[ p := v' ]> P) p v') by apply lookup_insert_eq.
  by rewrite delete_insert_eq, <- (keys_delete P p v E).
Qed.

Lemma keys_fresh P p v : P !! p = None -> keys (<[ p := v ]> P) ≡ₚ p :: keys P.
Proof. intros E. unfold keys. by rewrite (map_to_list_insert _ _ _ E). Qed.

Lemma pipe_not_free kend F P k l pages p v : files_ok kend F P k l pages -> P !! p = Some v -> p ∉ l.
Proof.
  intros H Hv Hl. destruct (fo_pages _ _ _ _ _ _ H) as [Hp Hnd]. rewrite <- Hp in Hnd. fold (keys P) in Hnd.
  apply NoDup_app in Hnd as (_ & Hnd & _). apply (Hnd p Hl). rewrite (keys_delete _ _ _ Hv). left.
Qed.

(** *** A new pipe *)

Definition pipe_file (p r w : Z) (x : file) : file := set_fi_pipe p (set_fi_mode r w (set_fi_type FD_PIPE x)).

Lemma two_files (F : list file) r w p x y : F !! r = Some x -> F !! w = Some y -> r <> w ->
  let F' := alter (pipe_file p 0 1) w (alter (pipe_file p 1 0) r F) in
  F' !! r = Some (pipe_file p 1 0 x) /\ F' !! w = Some (pipe_file p 0 1 y) /\
  (forall g, g <> r -> g <> w -> F' !! g = F !! g).
Proof.
  intros Hr Hw Hne F'. unfold F'. split_and!.
  - rewrite list_lookup_alter_ne by done. by apply alter_at.
  - apply alter_at. by rewrite list_lookup_alter_ne.
  - intros g Hg1 Hg2. by rewrite !list_lookup_alter_ne.
Qed.

Lemma ok_pipe kend F P k k' l pages r w p x y d : files_ok kend F P k (p :: l) pages ->
  F !! r = Some x -> F !! w = Some y -> r <> w -> fi_ref x = 1 -> fi_ref y = 1 -> fi_type x = FD_NONE -> fi_type y = FD_NONE ->
  free_list kend k' l -> lock_free k' ->
  files_ok kend (alter (pipe_file p 0 1) w (alter (pipe_file p 1 0) r F)) (<[ p := pipe_init d ]> P) k' l pages.
Proof.
  intros [H1 H2 H3 H4 H5 H6 H7 H8 [[_ [H9 _]] _] [H10 H11]] Hr Hw Hne Rx Ry Tx Ty Hk Hlf.
  destruct (two_files F r w p x y Hr Hw Hne) as (Er & Ew & Eo). set (F' := alter _ w _) in *.
  assert (Hp : P !! p = None).
  { destruct (P !! p) as [v|] eqn:E; [|done]. rewrite <- H10 in H11. fold (keys P) in H11. rewrite (keys_delete _ _ _ E) in H11.
    apply NoDup_cons in H11 as [Hn _]. destruct Hn. apply elem_of_app. right. left. }
  assert (Hcase : forall g z, F' !! g = Some z -> (g = r /\ z = pipe_file p 1 0 x) \/ (g = w /\ z = pipe_file p 0 1 y) \/
    (g <> r /\ g <> w /\ F !! g = Some z /\ (fi_type z = FD_PIPE -> fi_pipe z <> p))).
  { intros g z Hz. destruct (decide (g = r)) as [->|Hgr]; [left; split; congruence|].
    destruct (decide (g = w)) as [->|Hgw]; [right; left; split; congruence|]. right. right. rewrite Eo in Hz by done.
    split_and!; try done. intros Ht E. destruct (H4 g z Hz Ht) as (v & Hv & _). congruence. }
  split; try done.
  - unfold F'. by rewrite !length_alter.
  - intros g z Hz. destruct (Hcase g z Hz) as [[-> ->]|[[-> ->]|(_ & _ & Hz' & _)]]; cbn; [lia|lia|by eapply H2].
  - intros g z Hz. destruct (Hcase g z Hz) as [[-> ->]|[[-> ->]|(_ & _ & Hz' & _)]]; cbn; [lia|lia|by eapply H3].
  - intros g z Hz Ht. destruct (Hcase g z Hz) as [[-> ->]|[[-> ->]|(_ & _ & Hz' & Hzp)]]; cbn.
    + exists (pipe_init d). by rewrite lookup_insert_eq.
    + exists (pipe_init d). by rewrite lookup_insert_eq.
    + specialize (Hzp Ht). rewrite lookup_insert_ne by done. by eapply H4.
  - intros g g' z z' Hz Hz' Ht Ht' Ep Ee.
    destruct (Hcase g z Hz) as [[-> ->]|[[-> ->]|(_ & _ & Hy & Hyp)]], (Hcase g' z' Hz') as [[-> ->]|[[-> ->]|(_ & _ & Hy' & Hyp')]];
      try done; cbn in Ep; try (by destruct (Hyp Ht)); try (by destruct (Hyp' Ht')); eauto.
  - intros q v b Hv Hb. destruct (decide (q = p)) as [->|Hq].
    + rewrite lookup_insert_eq in Hv. injection Hv as <-. destruct b; [exists w, (pipe_file p 0 1 y)|exists r, (pipe_file p 1 0 x)]; done.
    + rewrite lookup_insert_ne in Hv by done. destruct (H6 q v b Hv Hb) as (g & z & Hz & Ht & E & Ez).
      exists g, z. split; [|done]. rewrite Eo; [done| |]; intros ->; congruence.
  - intros q v Hv. destruct (decide (q = p)) as [->|Hq].
    + rewrite lookup_insert_eq in Hv. injection Hv as <-. by exists true.
    + rewrite lookup_insert_ne in Hv by done. by eapply H7.
  - intros q v Hv. destruct (decide (q = p)) as [->|Hq]; [|rewrite lookup_insert_ne in Hv by done; by eapply H8].
    apply chain_pages in H9. by inversion H9.
  - split; [|done]. rewrite <- H10. fold (keys (<[ p := pipe_init d ]> P)). rewrite (keys_fresh _ _ _ Hp). cbn.
    symmetry. apply Permutation_middle.
Qed.

Section spec.
Context {B : Type} {OPS : BufferOps B}.
Variable kend : Z.
Hypothesis kend_ok : KERNBASE <= kend.

Abbreviation W := (fls B * kstate)%type.

(** The parts the invariant is about. *)
Definition fview (s : W) : list file * gmap Z pipe * kstate := (x_file s.1, x_pipe s.1, s.2).

Definition tables_ok (s : W) (pages : list Z) : Prop := exists l, files_ok kend (x_file s.1) (x_pipe s.1) s.2 l pages.

Definition table_safe (s : W) (pages : list Z) : Prop := held s = [] /\ tables_ok s pages.

(** ** Steps *)

Lemma runs_acquire lk (s : W) (Q : unit -> W -> Prop) :
  held s = [] -> (forall s', held s' = [lk] -> fview s' = fview s -> Q tt s') -> runs (acquire lk) s Q.
Proof.
  intros Hh HQ. eapply runs_eq; [apply acquire_ok; rewrite Hh; set_solver|]. rewrite Hh. by apply HQ; [apply held_set_held|].
Qed.

Lemma runs_release lk (s : W) (Q : unit -> W -> Prop) :
  held s = [lk] -> (forall s', held s' = [] -> fview s' = fview s -> Q tt s') -> runs (release lk) s Q.
Proof.
  intros Hh HQ. eapply runs_eq; [apply release_ok; rewrite Hh; set_solver|].
  assert (E : remove_lock lk (held s) = []) by (rewrite Hh; unfold remove_lock; by rewrite filter_cons_False by naive_solver).
  rewrite E. by apply HQ; [apply held_set_held|].
Qed.

Lemma runs_setf f g (s : W) (Q : unit -> W -> Prop) :
  (forall s', held s' = held s -> fview s' = (alter g f (x_file s.1), x_pipe s.1, s.2) -> Q tt s') -> runs (setf f g) s Q.
Proof. intros HQ. apply runs_mod. by apply HQ. Qed.

Lemma runs_set_pipe p v (s : W) (Q : unit -> W -> Prop) :
  (forall s', held s' = held s -> fview s' = (x_file s.1, <[ p := v ]> (x_pipe s.1), s.2) -> Q tt s') -> runs (set_pipe p v) s Q.
Proof. intros HQ. apply runs_mod. by apply HQ. Qed.

Lemma runs_drop_pipe p (s : W) (Q : unit -> W -> Prop) :
  (forall s', held s' = held s -> fview s' = (x_file s.1, delete p (x_pipe s.1), s.2) -> Q tt s') -> runs (drop_pipe p) s Q.
Proof. intros HQ. apply runs_mod. by apply HQ. Qed.

Lemma runs_lift_m {A} (m : K kstate A) (s : W) (Q : A -> W -> Prop) :
  runs m s.2 (fun a k => forall s', held s' = held s -> fview s' = (x_file s.1, x_pipe s.1, k) -> Q a s') -> runs (lift_m m) s Q.
Proof. unfold runs, lift_m. destruct (m s.2); try done. intros HQ. by apply HQ. Qed.

Lemma file_at_lookup (s : W) f x : x_file s.1 !! f = Some x -> file_at s f = x.
Proof. intros E. unfold file_at. by rewrite nth_lookup, E. Qed.

(** ** Allocation of a file *)

Lemma alloc_loop (s : W) l : held s = [lk_ftable] ->
  runs (for_first l (fun f =>
    let* ref := getf f fi_ref in
    if ref =? 0 then
      setf f (set_fi_ref 1) ;;;
      release lk_ftable ;;;
      kret (Some f)
    else kret None)) s (fun r s' =>
    match r with
    | Some f => f ∈ l /\ fi_ref (file_at s f) = 0 /\ held s' = [] /\
        fview s' = (alter (set_fi_ref 1) f (x_file s.1), x_pipe s.1, s.2)
    | None => s' = s
    end).
Proof.
  intros Hh. induction l as [|f l IH]; cbn [for_first]; [done|].
  apply runs_bind, runs_bind, runs_gets. destruct (_ =? 0) eqn:E.
  - apply Z.eqb_eq in E. apply runs_bind, runs_setf. intros s1 H1 V1. apply runs_bind, runs_release; [by rewrite H1|].
    intros s2 H2 V2. apply runs_ret, runs_ret. split; [left|]. rewrite V2, V1. done.
  - apply runs_ret. eapply runs_conseq; [exact IH|]. intros [g|] s' H; [|done]. destruct H as (Hg & H). split; [by right|done].
Qed.

Lemma filealloc_runs (s : W) : held s = [] ->
  runs filealloc s (fun r s' => held s' = [] /\
    match r with
    | Some f => (f < NFILE)%nat /\ fi_ref (file_at s f) = 0 /\ fview s' = (alter (set_fi_ref 1) f (x_file s.1), x_pipe s.1, s.2)
    | None => fview s' = fview s
    end).
Proof.
  intros Hh. unfold filealloc. apply runs_bind, runs_acquire; [done|]. intros s1 H1 V1.
  apply runs_bind. eapply runs_conseq; [by apply alloc_loop|]. intros [f|] s2 H.
  - destruct H as (Hf & Hr & H2 & V2). apply runs_ret. split; [done|]. apply elem_of_seq in Hf. split; [lia|].
    unfold fview in V1, V2 |- *. injection V1 as E1 E2 E3. rewrite V2. unfold file_at in *. rewrite E1 in *. rewrite E2, E3. done.
  - subst. apply runs_bind, runs_release; [done|]. intros s3 H3 V3. apply runs_ret. split; [done|]. by rewrite V3.
Qed.

(** ** Closing *)

Lemma pipeclose_runs (s : W) p v w l : held s = [] -> x_pipe s.1 !! p = Some v -> is_page kend p -> (p ∉ l) ->
  free_list kend s.2 l -> lock_free s.2 ->
  runs (file_pipeclose kend p w) s (fun _ s' => held s' = [] /\
    let '(v', freed, _) := pipeclose v (negb (w =? 0)) in
    if freed then exists k', fview s' = (x_file s.1, delete p (x_pipe s.1), k') /\ free_list kend k' (p :: l) /\ lock_free k'
    else fview s' = (x_file s.1, <[ p := v' ]> (x_pipe s.1), s.2)).
Proof.
  intros Hh Hv Hp Hl Hfl Hlf. unfold file_pipeclose. apply runs_bind, runs_acquire; [done|]. intros s1 H1 V1.
  injection V1 as F1 P1 K1. apply runs_bind. unfold get_pipe. apply runs_bind, runs_gets. rewrite P1, Hv. apply runs_ret.
  destruct (pipeclose v (negb (w =? 0))) as [[v' freed] woken].
  apply runs_bind, runs_set_pipe. intros s2 H2 V2. injection V2 as F2 P2 K2.
  apply runs_bind, runs_release; [by rewrite H2|]. intros s3 H3 V3. injection V3 as F3 P3 K3. destruct freed.
  - apply runs_bind, runs_drop_pipe. intros s4 H4 V4. injection V4 as F4 P4 K4. apply runs_lift_m.
    rewrite K4, K3, K2, K1. eapply runs_conseq; [by apply (kfree_spec kend kend_ok p s.2 l)|].
    intros _ k' (Hk & Hkh & _) s5 H5 V5. split; [by rewrite H5, H4|]. exists k'. split; [|split; [done|]].
    + rewrite V5, F4, P4, F3, P3, F2, P2, F1, P1. by rewrite delete_insert_eq.
    + unfold lock_free. by rewrite Hkh.
  - apply runs_ret. split; [done|]. unfold fview. by rewrite F3, P3, K3, F2, P2, K2, F1, P1, K1.
Qed.

Lemma alter_three (F : list file) f x : F !! f = Some x ->
  alter (set_fi_type FD_NONE) f (alter (set_fi_ref 0) f (alter (set_fi_ref (fi_ref x - 1)) f F)) = alter closed f F.
Proof.
  intros E. apply list_eq. intros j. destruct (decide (j = f)) as [->|Hj].
  - by rewrite !list_lookup_alter_eq, E.
  - by rewrite !list_lookup_alter_ne.
Qed.

(** What closing the end of a pipe leaves of it. *)
Lemma pipeclose_flags v b v' freed w : pipeclose v b = (v', freed, w) ->
  end_flag b v' = 0 /\ end_flag (negb b) v' = end_flag (negb b) v /\ freed = (end_flag (negb b) v =? 0).
Proof.
  unfold pipeclose. intros [= <- <- _]. destruct b; cbn; (split; [done|]); (split; [done|]); [by rewrite andb_true_r|done].
Qed.

Lemma close_pipe_ok F P k l pages f x v v' freed w : files_ok kend F P k l pages -> F !! f = Some x -> fi_type x = FD_PIPE ->
  P !! fi_pipe x = Some v -> pipeclose v (write_end x) = (v', freed, w) ->
  if freed then forall k', free_list kend k' (fi_pipe x :: l) -> lock_free k' ->
    files_ok kend (alter closed f F) (delete (fi_pipe x) P) k' (fi_pipe x :: l) pages
  else files_ok kend (alter closed f F) (<[ fi_pipe x := v' ]> P) k l pages.
Proof.
  intros H Hf Ht Hv Hc. destruct (pipeclose_flags _ _ _ _ _ Hc) as (E1 & E2 & E3).
  destruct (fo_pages _ _ _ _ _ _ H) as [Hp _]. fold (keys P) in Hp. subst freed. destruct (_ =? 0) eqn:E.
  - apply Z.eqb_eq in E. intros k' Hk Hlf. apply (ok_close kend F P _ k _ l _ pages f x H Hf).
    + intros p _ Hne. by apply lookup_delete_ne.
    + done.
    + intros _ v0. by rewrite lookup_delete_eq.
    + intros _ _ v0 Hv0. congruence.
    + done.
    + rewrite <- Hp, (keys_delete _ _ _ Hv). cbn. apply Permutation_middle.
  - apply Z.eqb_neq in E. apply (ok_close kend F P _ k k l l pages f x H Hf).
    + intros p _ Hne. by apply lookup_insert_ne.
    + done.
    + intros _ v0. rewrite lookup_insert_eq. intros [= <-]. by exists v.
    + intros _. by rewrite lookup_insert_eq.
    + apply H.
    + rewrite <- Hp. fold (keys (<[ fi_pipe x := v' ]> P)). by rewrite (keys_insert _ _ _ _ Hv).
Qed.

(** [fileclose] drops a reference, or it clears the entry and closes what the file refers to. *)
Lemma fileclose_outcome (s : W) f x pages (O : outcome W unit -> Prop) : table_safe s pages -> x_file s.1 !! f = Some x -> 1 <= fi_ref x ->
  (forall s', table_safe s' pages -> O (Ok tt s')) ->
  (forall s', held s' = [] -> x_file s'.1 = alter closed f (x_file s.1) -> x_pipe s'.1 = x_pipe s.1 -> s'.2 = s.2 ->
     O (match fi_type x with
        | FD_PIPE => file_pipeclose kend (fi_pipe x) (fi_writable x)
        | FD_INODE => lift_x (lift_l begin_trans) ;;; lift_x (Fs.iput (fi_ip x)) ;;; lift_x (lift_l commit_trans)
        | FD_NONE => kret tt
        end s')) ->
  O (File.fileclose kend f s).
Proof.
  intros [Hh [l H]] Hf Hr Hmore Hlast. unfold File.fileclose. apply outcome_bind, runs_acquire; [done|]. intros s1 H1 V1.
  injection V1 as F1 P1 K1. apply outcome_bind, runs_gets. rewrite (file_at_lookup s1 f x) by by rewrite F1.
  destruct (fi_ref x <? 1) eqn:E; [apply Z.ltb_lt in E; lia|].
  apply outcome_bind, runs_setf. intros s2 H2 V2. injection V2 as F2 P2 K2. destruct (0 <? fi_ref x - 1) eqn:E2.
  - apply Z.ltb_lt in E2. cut (runs (release lk_ftable) s2 (fun _ s' => table_safe s' pages)).
    { intros ([] & s3 & -> & S3)%runs_Ok. by apply Hmore. }
    apply runs_release; [by rewrite H2|]. intros s3 H3 V3. injection V3 as F3 P3 K3. split; [done|]. exists l. rewrite F3, P3, K3, F2, P2, K2, F1, P1, K1. by apply ok_ref; [lia|].
  - apply Z.ltb_ge in E2. apply outcome_bind, runs_gets. rewrite (file_at_lookup s2 f (set_fi_ref (fi_ref x - 1) x)).
    2: { rewrite F2, F1. by apply alter_at. }
    apply outcome_bind, runs_setf. intros s3 H3 V3. injection V3 as F3 P3 K3.
    apply outcome_bind, runs_setf. intros s4 H4 V4. injection V4 as F4 P4 K4.
    apply outcome_bind, runs_release; [by rewrite H4, H3, H2|]. intros s5 H5 V5. injection V5 as F5 P5 K5. cbn.
    apply Hlast; [done| |congruence..]. rewrite F5, F4, F3, F2, F1. by apply alter_three.
Qed.

Lemma close_other_ok (s s' : W) f x pages : tables_ok s pages -> x_file s.1 !! f = Some x -> fi_type x <> FD_PIPE ->
  x_file s'.1 = alter closed f (x_file s.1) -> x_pipe s'.1 = x_pipe s.1 -> s'.2 = s.2 -> tables_ok s' pages.
Proof.
  intros [l H] Hf Ht EF EP EK. exists l. rewrite EF, EP, EK. apply (ok_close kend _ (x_pipe s.1) _ s.2 _ l _ pages f x H Hf); try done; apply H.
Qed.

Lemma fileclose_runs (s : W) f x pages : table_safe s pages -> x_file s.1 !! f = Some x -> 1 <= fi_ref x -> fi_type x <> FD_INODE ->
  runs (File.fileclose kend f) s (fun _ s' => table_safe s' pages).
Proof.
  intros Hs Hf Hr Ht. apply (fileclose_outcome s f x pages (fun o => match o with Ok _ s' => table_safe s' pages | _ => False end)); try done. intros s5 H5 EF EP EK. destruct Hs as [Hh [l H]].
  destruct (fi_type x) eqn:Et; [|..|done].
  - split; [done|]. apply (close_other_ok s s5 f x); try done; [by exists l|by rewrite Et].
  - destruct (fo_pipe _ _ _ _ _ _ H f x Hf Et) as (v & Hv & _). destruct (fo_free _ _ _ _ _ _ H) as [Hfl Hlf].
    eapply (runs_conseq (file_pipeclose kend (fi_pipe x) (fi_writable x))); [apply (pipeclose_runs s5 (fi_pipe x) v (fi_writable x) l)|]; rewrite ?EP, ?EK; try done.
    { by apply (fo_page _ _ _ _ _ _ H _ v). } { by eapply pipe_not_free. }
    intros _ s6 [H6 V6]. fold (write_end x) in V6.
    destruct (pipeclose v (write_end x)) as [[v' freed] w] eqn:Ec.
    pose proof (close_pipe_ok _ _ _ _ _ _ _ _ _ _ _ H Hf Et Hv Ec) as Hok. destruct freed.
    + destruct V6 as (k' & V6 & Hk & Hkl). injection V6 as F6 P6 K6. split; [done|].
      exists (fi_pipe x :: l). rewrite F6, P6, K6, EF. by apply Hok.
    + injection V6 as F6 P6 K6. split; [done|]. exists l. by rewrite F6, P6, K6, EF.
Qed.

(** The state an operation leaves, unless it runs on. *)
Definition leaves {A} (P : W -> Prop) (o : outcome W A) : Prop := match o with Ok _ s' | Panic _ s' | Block _ s' => P s' | NoFuel => True end.

Lemma leaves_then {A C} P (m : K W A) (f : A -> K W C) s : leaves P (m s) -> (forall a s', P s' -> leaves P (f a s')) -> leaves P (kbind m f s).
Proof. intros H1 H2. unfold kbind, leaves in *. destruct (m s); try done. by apply H2. Qed.

Lemma leaves_lift_x {A} (m : K (fsys B) A) pages s : tables_ok s pages -> leaves (fun s' => tables_ok s' pages) (lift_x m s).
Proof. intros Hs. unfold lift_x, leaves. by destruct (m (x_fs s.1)). Qed.

(** A file on an inode: what the file system does is another matter, but it does not touch the table. *)
Lemma fileclose_leaves (s : W) f x pages : table_safe s pages -> x_file s.1 !! f = Some x -> 1 <= fi_ref x -> fi_type x = FD_INODE ->
  leaves (fun s' => tables_ok s' pages) (File.fileclose kend f s).
Proof.
  intros Hs Hf Hr Ht. apply (fileclose_outcome s f x pages); try done; [by intros s' [_ H]|]. intros s5 H5 EF EP EK. rewrite Ht.
  apply leaves_then; [apply leaves_lift_x, (close_other_ok s s5 f x); try done; [apply Hs|by rewrite Ht]|]. intros _ s6 H6.
  apply leaves_then; [by apply leaves_lift_x|]. intros _ s7 H7. by apply leaves_lift_x.
Qed.

Lemma filedup_runs (s : W) f x pages : table_safe s pages -> x_file s.1 !! f = Some x -> 1 <= fi_ref x ->
  runs (File.filedup f) s (fun g s' => g = f /\ table_safe s' pages /\
    fview s' = (alter (set_fi_ref (fi_ref x + 1)) f (x_file s.1), x_pipe s.1, s.2)).
Proof.
  intros [Hh [l H]] Hf Hr. unfold File.filedup. apply runs_bind, runs_acquire; [done|]. intros s1 H1 V1.
  injection V1 as F1 P1 K1. apply runs_bind, runs_gets. rewrite (file_at_lookup s1 f x) by by rewrite F1.
  destruct (fi_ref x <? 1) eqn:E; [apply Z.ltb_lt in E; lia|].
  apply runs_bind, runs_setf. intros s2 H2 V2. injection V2 as F2 P2 K2. apply runs_bind, runs_release; [by rewrite H2|].
  intros s3 H3 V3. injection V3 as F3 P3 K3. apply runs_ret. split; [done|].
  assert (EF : x_file s3.1 = alter (set_fi_ref (fi_ref x + 1)) f (x_file s.1)) by congruence.
  assert (EP : x_pipe s3.1 = x_pipe s.1) by congruence. assert (EK : s3.2 = s.2) by congruence.
  split; [|unfold fview; congruence]. split; [done|]. exists l. rewrite EF, EP, EK. by apply ok_ref; [lia|].
Qed.

(** ** Making a pipe *)

(** A file that was just allocated: it is not in use for anything yet. *)
Definition fresh (s : W) (f : nat) : Prop :=
  exists x, x_file s.1 !! f = Some x /\ fi_ref x = 1 /\ fi_type x = FD_NONE.

Lemma filealloc_safe (s : W) pages : table_safe s pages ->
  runs filealloc s (fun r s' => table_safe s' pages /\
    match r with
    | Some f => fresh s' f /\ (forall g, fresh s g -> fresh s' g /\ g <> f)
    | None => fview s' = fview s
    end).
Proof.
  intros [Hh [l H]]. eapply runs_conseq; [by apply filealloc_runs|]. intros [f|] s' [H' V].
  - destruct V as (Hlt & Hr & V). injection V as F1 P1 K1.
    destruct (lookup_lt_is_Some_2 (x_file s.1) f) as [x Hx]; [by rewrite (fo_len _ _ _ _ _ _ H)|].
    rewrite (file_at_lookup s f x Hx) in Hr. split; [|split].
    + split; [done|]. exists l. rewrite F1, P1, K1. by apply ok_ref.
    + exists (set_fi_ref 1 x). rewrite F1. split; [by apply alter_at|]. split; [done|].
      by apply (fo_none _ _ _ _ _ _ H f x).
    + intros g (y & Hy & Hyr & Hyt). assert (g <> f) by (intros ->; rewrite Hx in Hy; simplify_eq; lia).
      split; [|done]. exists y. by rewrite F1, list_lookup_alter_ne.
  - split; [|done]. injection V as F1 P1 K1. split; [done|]. exists l. by rewrite F1, P1, K1.
Qed.

Lemma fresh_close (s : W) f pages : table_safe s pages -> fresh s f -> runs (File.fileclose kend f) s (fun _ s' => table_safe s' pages).
Proof. intros Hs (x & Hx & Hr & Ht). apply (fileclose_runs s f x pages); [done|done|lia|by rewrite Ht]. Qed.

(** Closing one of two fresh files leaves the other. *)
Lemma fresh_close_other (s : W) f g pages : table_safe s pages -> fresh s f -> fresh s g -> g <> f ->
  runs (File.fileclose kend f) s (fun _ s' => table_safe s' pages /\ fresh s' g).
Proof.
  intros Hs (x & Hx & Hr & Ht) (y & Hy & Hyr & Hyt) Hne.
  assert (Hk : runs (File.fileclose kend f) s (fun _ s' => x_file s'.1 !! g = Some y)).
  { destruct Hs as [Hh _]. unfold File.fileclose. apply runs_bind, runs_acquire; [done|]. intros s1 H1 V1. injection V1 as F1 P1 K1.
    apply runs_bind, runs_gets. rewrite (file_at_lookup s1 f x) by by rewrite F1. rewrite Hr. cbn.
    apply runs_bind, runs_setf. intros s2 H2 V2. injection V2 as F2 P2 K2. apply runs_bind, runs_gets.
    rewrite (file_at_lookup s2 f (set_fi_ref 0 x)) by (rewrite F2, F1; by apply alter_at). cbn. rewrite Ht.
    apply runs_bind, runs_setf. intros s3 H3 V3. injection V3 as F3 P3 K3.
    apply runs_bind, runs_setf. intros s4 H4 V4. injection V4 as F4 P4 K4.
    apply runs_bind, runs_release; [by rewrite H4, H3, H2|]. intros s5 H5 V5. injection V5 as F5 P5 K5.
    apply runs_ret. by rewrite F5, F4, F3, F2, F1, !list_lookup_alter_ne. }
  apply runs_Ok in Hk as (a & s' & E & Hg). pose proof (fileclose_runs s f x pages Hs Hx ltac:(lia) ltac:(by rewrite Ht)) as Hc.
  apply runs_Ok in Hc as (a' & s'' & E' & Hc). rewrite E in E'. simplify_eq. eapply runs_eq; [done|]. split; [done|]. by exists y.
Qed.

(** The two ends of a new pipe. *)
Definition pipe_pair (s : W) (r w : nat) (p : Z) : Prop :=
  r <> w /\ (exists x, x_file s.1 !! r = Some x /\ fi_ref x = 1 /\ fi_type x = FD_PIPE /\ fi_pipe x = p /\ fi_readable x = 1 /\ fi_writable x = 0) /\
  (exists y, x_file s.1 !! w = Some y /\ fi_ref y = 1 /\ fi_type y = FD_PIPE /\ fi_pipe y = p /\ fi_readable y = 0 /\ fi_writable y = 1) /\
  (exists d, x_pipe s.1 !! p = Some (pipe_init d)).

Lemma table_safe_view (s s' : W) pages : table_safe s pages -> held s' = held s -> fview s' = fview s -> table_safe s' pages.
Proof. intros [Hh [l H]] H' V. injection V as F1 P1 K1. split; [congruence|]. exists l. by rewrite F1, P1, K1. Qed.

Lemma fresh_view (s s' : W) f : fresh s f -> fview s' = fview s -> fresh s' f.
Proof. intros (x & Hx & H) V. injection V as F1 _ _. exists x. by rewrite F1. Qed.

Lemma pipealloc_bad_runs (s : W) pages r w : table_safe s pages -> fresh s r -> fresh s w -> w <> r ->
  runs (pipealloc_bad kend (Some r) (Some w)) s (fun o s' => o = None /\ table_safe s' pages).
Proof.
  intros Hs Hr Hw Hne. unfold pipealloc_bad. apply runs_bind.
  eapply runs_conseq; [by apply (fresh_close_other s r w pages)|]. intros [] s1 [S1 W1].
  apply runs_bind. eapply runs_conseq; [by apply (fresh_close s1 w pages)|]. intros [] s2 S2. by apply runs_ret.
Qed.

(** The last part of [pipealloc], with a page. *)
Lemma pipe_init_runs (s s3 : W) pages l p k' r w : table_safe s pages -> fresh s r -> fresh s w -> r <> w ->
  files_ok kend (x_file s.1) (x_pipe s.1) s.2 (p :: l) pages -> free_list kend k' l -> lock_free k' ->
  held s3 = held s -> fview s3 = (x_file s.1, x_pipe s.1, k') ->
  runs (let* s := kget in
        set_pipe p (pipe_init (page_data (k_mem s.2) p)) ;;;
        setf r (pipe_file p 1 0) ;;;
        setf w (pipe_file p 0 1) ;;;
        kret (Some (r, w))) s3 (fun o s' => o = Some (r, w) /\ table_safe s' pages /\ pipe_pair s' r w p).
Proof.
  intros [Hh _] (x & Hx & Rx & Tx) (y & Hy & Ry & Ty) Hne Hok Hk Hlf H3 V3. injection V3 as F3 P3 K3.
  apply runs_bind, runs_gets. set (d := page_data _ _). apply runs_bind, runs_set_pipe. intros s4 H4 V4. injection V4 as F4 P4 K4.
  apply runs_bind, runs_setf. intros s5 H5 V5. injection V5 as F5 P5 K5.
  apply runs_bind, runs_setf. intros s6 H6 V6. injection V6 as F6 P6 K6. apply runs_ret. split; [done|].
  assert (EF : x_file s6.1 = alter (pipe_file p 0 1) w (alter (pipe_file p 1 0) r (x_file s.1))) by congruence.
  assert (EP : x_pipe s6.1 = <[ p := pipe_init d ]> (x_pipe s.1)) by congruence. assert (EK : s6.2 = k') by congruence.
  split.
  - split; [congruence|]. exists l. rewrite EF, EP, EK. by eapply ok_pipe.
  - destruct (two_files (x_file s.1) r w p x y Hx Hy Hne) as (Er & Ew & _). rewrite <- EF in Er, Ew.
    split; [done|]. split; [by eexists|]. split; [by eexists|]. exists d. by rewrite EP, lookup_insert_eq.
Qed.

Lemma pipealloc_runs (s : W) pages : table_safe s pages ->
  runs (pipealloc kend) s (fun o s' => table_safe s' pages /\
    match o with
    | Some (r, w) => exists p, p ∈ pages /\ pipe_pair s' r w p
    | None => True
    end).
Proof.
  intros Hs. unfold pipealloc. apply runs_bind. eapply runs_conseq; [by apply filealloc_safe|]. intros [r|] s1 [S1 V1].
  2: { unfold pipealloc_bad. by apply runs_bind, runs_ret, runs_bind, runs_ret, runs_ret. }
  destruct V1 as [Fr _]. apply runs_bind. eapply runs_conseq; [by apply filealloc_safe|]. intros [w|] s2 [S2 V2].
  2: { unfold pipealloc_bad. apply runs_bind. eapply runs_conseq; [apply fresh_close; [done|by eapply fresh_view]|].
       intros [] s3 S3. by apply runs_bind, runs_ret, runs_ret. }
  destruct V2 as [Fw Hf]. destruct (Hf r Fr) as [Fr2 Hne]. clear Hf Fr. pose proof S2 as [H2 [l Hok]].
  destruct (fo_free _ _ _ _ _ _ Hok) as [Hfl Hlf].
  apply runs_bind, runs_lift_m. eapply runs_conseq; [by apply (kalloc_spec kend s2.2 l)|].
  intros p k' (-> & Hk & Hkh & _) s3 H3 V3. assert (Hlk : lock_free k') by (unfold lock_free; by rewrite Hkh).
  destruct l as [|p l]; cbn [hd tl] in *.
  - rewrite Z.eqb_refl. assert (S3 : table_safe s3 pages).
    { injection V3 as F3 P3 K3. split; [congruence|]. exists []. rewrite F3, P3, K3. destruct Hok. by split. }
    assert (forall f, fresh s2 f -> fresh s3 f) as Hf.
    { intros f (x & Hx & Hx'). injection V3 as F3 _ _. exists x. by rewrite F3. }
    eapply runs_conseq; [by apply (pipealloc_bad_runs s3 pages r w); auto|]. by intros o s4 [-> S4].
  - assert (Hp : is_page kend p) by (destruct Hfl as [_ [Hc _]]; apply chain_pages in Hc; by inversion Hc).
    pose proof (is_page_nonzero kend p Hp). destruct (p =? 0) eqn:E0; [apply Z.eqb_eq in E0; lia|].
    eapply runs_conseq; [apply (pipe_init_runs s2 s3 pages l p k' r w); done|].
    intros o s4 (-> & S4 & Hpp). split; [done|]. exists p. split; [|done].
    destruct (fo_pages _ _ _ _ _ _ Hok) as [<- _]. left.
Qed.

End spec.

(** ** An empty table with four free pages *)

Definition empty_files : fls bst * kstate :=
  (Fls (Fsys (Lst (empty_cache [] (fun _ => []) 0) 0 0 0 0 0 []) []) (replicate NFILE zero_file) ∅ 0,
   free_state (map sample_page [0; 1; 2; 3])).

Lemma empty_files_safe : table_safe sample_end empty_files (map sample_page [0; 1; 2; 3]).
Proof.
  split; [done|]. exists (map sample_page [0; 1; 2; 3]).
  assert (Hz : forall f x, replicate NFILE zero_file !! f = Some x -> x = zero_file) by (intros f x H; by apply lookup_replicate in H as [-> _]).
  split; cbn -[replicate free_state].
  - apply length_replicate.
  - intros f x H. by rewrite (Hz f x H).
  - intros f x H. by rewrite (Hz f x H).
  - intros f x H. by rewrite (Hz f x H).
  - intros f g x y H. by rewrite (Hz f x H).
  - done.
  - done.
  - done.
  - split; [apply sample_free_list|]. by intros ?%elem_of_nil.
  - split; [by rewrite map_to_list_empty|]. apply (bool_decide_unpack _). by vm_compute.
Qed.

Lemma runs_some {S A} (m : K S (option A)) s (Q : option A -> S -> Prop) :
  runs m s Q -> match m s with Ok (Some _) _ => true | _ => false end = true -> runs m s (fun o s' => o <> None /\ Q o s').
Proof. unfold runs. destruct (m s) as [[o|] s'| | |]; done. Qed.
