(* ===== verification/FileRw.v ===== *)
(** * Reading and writing files: fileread and filewrite over the whole file system

    Between transactions the disk, the cache and the log agree on a view of the blocks below the
    log ([at_rest]).  [filewrite] cuts a write into transactions; each of them fits the log, and a crash
    shows the files after some number of them. *)

From S2P Require Import Prelude Kalloc Proc Bio BufferCache BioSpec Bytes Log LogSpec LogCrash Fs FsLayout FsSpec Pipe File.

(** ** Transactions *)

Section transactions.
Context {B : Type} {OPS : BufferOps B} {BC : BufferCache B}.
Variables (g : geom) (lsize nblk : Z).
Implicit Types (s : fsys B) (v : disk).

(** No transaction is open, no buffer is held, and [v] is what the blocks below the log hold. *)
Record at_rest v c s : Prop := {
  ar_quiet : quiescent (f_log s) c;
  ar_view : home_eq (g_start g) (c_view c) v;
  ar_free : c_busy c = ∅;
  ar_blocks : c_size c = nblk;
  ar_busy : l_busy (f_log s) = 0;
  ar_start : l_start (f_log s) = g_start g;
  ar_lsize : l_size (f_log s) = lsize
}.

(** The blocks are on the disk. *)
Lemma at_rest_disk v c s : at_rest v c s -> home_eq (g_start g) (c_disk c) v.
Proof.
  intros [Q V _ _ _ E _] m Hm. rewrite <- V by done. symmetry. apply (tx_clean _ _ _ _ _ _ Q); [lia|set_solver|set_solver].
Qed.

Lemma at_rest_tx v c s : at_rest v c s -> at_tx g (c_disk c) (c_trace c) 0 lsize nblk v ∅ [] s.
Proof. intros [Q V F N L E Z]. split; [|done|done|done]. exists c. by split_and!. Qed.

Lemma t_begin v c s (Q : unit -> fsys B -> Prop) : at_rest v c s ->
  (forall s', at_tx g (c_disk c) (c_trace c) 1 lsize nblk v ∅ [] s' -> f_inode s' = f_inode s -> held s' = held s -> Q tt s') ->
  runs (lift_l begin_trans) s Q.
Proof.
  intros [Qu V F N L E Z] HQ. apply runs_lift_l. eapply runs_conseq; [by apply (begin_trans_runs (f_log s) c)|].
  intros [] s' (Q' & L' & E1 & E2 & E3). apply HQ; [|done|done]. split; cbn; try congruence. exists c. by split_and!.
Qed.

Lemma t_commit d0 t0 v l s (Q : unit -> fsys B -> Prop) : at_tx g d0 t0 1 lsize nblk v ∅ l s -> fits ∅ l ->
  (forall c' ws s', at_rest v c' s' -> c_trace c' = t0 ++ ws -> (forall m, c_disk c' m = apply_writes ws d0 m) ->
     crash_safe (g_start g) nblk d0 ws v -> f_inode s' = f_inode s -> held s' = held s -> Q tt s') ->
  runs (lift_l commit_trans) s Q.
Proof.
  intros [(c & T & V & F & N) L E Z] Hf HQ. apply runs_lift_l. eapply runs_conseq; [apply (commit_trans_runs (f_log s) c d0 t0 l T)|].
  - unfold pinned. rewrite F, (tx_dirty _ _ _ _ _ _ T). unfold fits, NBUF in *. lia.
  - intros x _. rewrite F. set_solver.
  - intros [] s' ((c' & ws & Q' & M1 & M2 & M3 & M4 & M5 & M6 & M7 & M8) & L' & H'). rewrite E, N in *.
    apply (HQ c' ws); try done; [|by eapply crash_safe_home]. split; cbn; try congruence. intros m Hm. rewrite M5 by lia. by apply V.
Qed.

(** ** Crashes of a sequence of transactions *)

(** Wherever the writes [ws] are cut, recovery leaves a disk with property [P]. *)
Definition recovers (d0 : disk) (ws : list (Z * list Z)) (P : disk -> Prop) : Prop :=
  forall p, p `prefix_of` ws -> (exists l u, log_wf (g_start g) nblk (apply_writes p d0) l u) /\ apply_writes p d0 1 = d0 1 /\
    exists v, P v /\ home_eq (g_start g) (recovered (g_start g) (apply_writes p d0)) v.

Lemma recovered_ext start d d' : (forall m, d m = d' m) -> forall m, recovered start d m = recovered start d' m.
Proof.
  intros E m. unfold recovered. replace (logged start d') with (logged start d); [by apply apply_writes_ext|].
  unfold logged. rewrite E. apply list_fmap_ext. intros _ i _. by rewrite E.
Qed.

Lemma log_wf_ext start size d d' l u : (forall m, d m = d' m) -> log_wf start size d l u -> log_wf start size d' l u.
Proof.
  intros E [[H1 H2] H3 H4 H5 H6 H7 H8]. split; try done; rewrite <- ?E; try done.
  split; rewrite <- ?E; [done|]. intros i x Hi. rewrite <- !E. by apply H2.
Qed.

(** A further transaction. *)
Lemma recovers_app d0 d1 ws ws' v v' P : recovers d0 ws P -> (forall m, d1 m = apply_writes ws d0 m) -> crash_safe (g_start g) nblk d1 ws' v' ->
  home_eq (g_start g) d1 v -> P v -> P v' -> 1 < g_start g -> v' 1 = v 1 -> recovers d0 (ws ++ ws') P.
Proof.
  intros R E C Hd Pv Pv' Hst E1 p Hp. apply prefix_app_cases in Hp as [Hp|(q & -> & Hq)]; [by apply R|]. rewrite apply_writes_app.
  assert (Eq : forall m, apply_writes q d1 m = apply_writes q (apply_writes ws d0) m) by (intros; by apply apply_writes_ext).
  destruct (C q Hq) as ((l & u & HW) & Hr & Hone). split; [exists l, u; by eapply log_wf_ext|]. split.
  { destruct (R ws ltac:(done)) as (_ & <- & _). rewrite <- Eq, <- E. destruct (Hone 1) as [->| ->]; [lia|done|]. rewrite E1. symmetry. apply Hd. lia. }
  destruct Hr as [Hr|Hr]; [exists v|exists v']; (split; [done|]); intros m Hm; rewrite <- (recovered_ext _ _ _ Eq), Hr by done; [by apply Hd|done].
Qed.

Lemma recovers_mono d0 ws (P P' : disk -> Prop) : recovers d0 ws P -> (forall v, P v -> P' v) -> recovers d0 ws P'.
Proof. intros R HP p Hp. destruct (R p Hp) as (H1 & H0 & v & H2 & H3). split_and!; eauto. Qed.

(** At rest nothing needs recovery. *)
Lemma recovers_nil v c s (P : disk -> Prop) : at_rest v c s -> P v -> recovers (c_disk c) [] P.
Proof.
  intros R Pv p Hp. apply prefix_nil_inv in Hp as ->. pose proof (at_rest_disk _ _ _ R) as Hd. destruct R as [Q V F N L E Z].
  destruct (tx_hdr _ _ _ _ _ _ Q) as [H1 H2]. pose proof (tx_geom _ _ _ _ _ _ Q) as G. rewrite E in *. simpl.
  split; [exists [], v|split; [done|]; exists v; split; [done|]; by rewrite recovered_empty].
  apply log_wf_empty; try done; rewrite <- ?E, <- ?N; [apply G|]. destruct G as [G1 G2 G3 G4 _ _ _ _ _]. simpl in G3. lia.
Qed.
End transactions.

(** ** Locking an inode that is in memory *)

Section locking.
Context {B : Type} {OPS : BufferOps B}.
Implicit Types (s : fsys B).

(** An inode the kernel has opened and nobody has locked. *)
Record idle_ino s (ip : nat) : Prop := {
  id_range : (ip < length (f_inode s))%nat;
  id_ref : 1 <= i_ref (inode_at s ip);
  id_flags : i_flags (inode_at s ip) = I_VALID;
  id_lock : lk_icache ∉ held s
}.

Definition flagged (fl : Z) (ip : nat) s : fsys B := set_f_inode (alter (set_i_flags fl) ip (f_inode s)) s.

(** A critical section that changes the inode cache only. *)
Lemma icache_section s (f : inode -> inode) ip : lk_icache ∉ held s ->
  (acquire lk_icache ;;; seti ip f ;;; release lk_icache) s = Ok tt (set_f_inode (alter f ip (f_inode s)) s).
Proof.
  intros Hl. unfold kbind. rewrite acquire_ok by done. unfold seti, kmod. set (s1 := set_held (lk_icache :: held s) s).
  assert (E : held s1 = lk_icache :: held s) by apply held_set_held. change (f_inode s1) with (f_inode s).
  set (X := alter f ip (f_inode s)). assert (Eh : held (set_f_inode X s1) = lk_icache :: held s) by exact E.
  rewrite release_ok by (rewrite Eh; left). rewrite Eh, remove_lock_cons by done.
  change (set_held (held s) (set_f_inode X s1)) with (set_f_inode X (set_held (held s) s1)).
  unfold s1. by rewrite set_held_set_held, set_held_held.
Qed.

(** The rest of the program sees the state after the critical section. *)
Lemma icache_then {A} s (f : inode -> inode) ip (k : K (fsys B) A) : lk_icache ∉ held s ->
  (acquire lk_icache ;;; seti ip f ;;; release lk_icache ;;; k) s = k (set_f_inode (alter f ip (f_inode s)) s).
Proof.
  intros Hl. pose proof (icache_section s f ip Hl) as E. revert E. unfold kbind.
  destruct (acquire lk_icache s) as [? s1| | |]; try done. destruct (seti ip f s1) as [? s2| | |]; try done.
  by destruct (release lk_icache s2) as [[]| | |]; intros [= ->].
Qed.

Lemma flagged_eq s ip f fl : i_flags (inode_at s ip) = fl -> alter (fun i => set_i_flags (f (i_flags i)) i) ip (f_inode s) = alter (set_i_flags (f fl)) ip (f_inode s).
Proof.
  intros H. apply list_alter_ext; [|done]. intros x Hx. unfold inode_at in H. rewrite (nth_lookup_Some _ _ _ _ Hx) in H. by rewrite H.
Qed.

Lemma inode_at_flagged s ip fl : (ip < length (f_inode s))%nat -> inode_at (flagged fl ip s) ip = set_i_flags fl (inode_at s ip).
Proof. intros H. by apply inode_at_alter. Qed.

Lemma ilock_valid s ip : idle_ino s ip -> ilock ip s = Ok tt (flagged 3 ip s).
Proof.
  intros [H1 H2 H3 H4]. unfold ilock, geti. unfold kbind at 1, kgets at 1. rewrite (proj2 (Z.ltb_ge _ _)) by lia.
  transitivity ((acquire lk_icache ;;; seti ip (fun i => set_i_flags (Z.lor (i_flags i) I_BUSY) i) ;;; release lk_icache ;;;
    let* i := kgets (fun s => inode_at s ip) in
    when negb (has (i_flags i) I_VALID) do
        (let* bp := f_bread (i_dev i) (IBLOCK (i_inum i)) in
         let* blk := f_data bp in
         setd ip (fun _ => get_dinode (dinode_off (i_inum i)) blk) ;;;
         f_brelse bp ;;;
         seti ip (fun i => set_i_flags (Z.lor (i_flags i) I_VALID) i) ;;;
         let* t := kgets (fun s => d_type (i_d (inode_at s ip))) in
         if t =? 0 then kpanic "ilock: no type" else kret tt)) s).
  { unfold kbind. rewrite acquire_ok by done. unfold kgets at 1.
    change (inode_at (set_held (lk_icache :: held s) s) ip) with (inode_at s ip). by rewrite H3. }
  rewrite icache_then by done. rewrite (flagged_eq s ip (fun x => Z.lor x I_BUSY) I_VALID) by done.
  change (Z.lor I_VALID I_BUSY) with 3. fold (flagged 3 ip s). unfold kbind at 1, kgets at 1. by rewrite inode_at_flagged.
Qed.

Lemma iunlock_busy s ip : (ip < length (f_inode s))%nat -> 1 <= i_ref (inode_at s ip) -> i_flags (inode_at s ip) = 3 -> lk_icache ∉ held s ->
  iunlock ip s = Ok tt (flagged I_VALID ip s).
Proof.
  intros H1 H2 H3 H4. unfold iunlock, geti. unfold kbind at 1, kgets at 1. rewrite H3, (proj2 (Z.ltb_ge _ _)) by lia. cbn [orb negb].
  change (negb (has 3 I_BUSY) || false) with false. cbn iota. rewrite icache_section by done.
  rewrite (flagged_eq s ip (fun x => Z.land x (Z.lnot I_BUSY)) 3) by done. done.
Qed.
End locking.

(** ** Pieces of a write *)

(** Writing two pieces one after the other is writing both at once. *)
Lemma splice_pieces (src c : list Z) off i m : (off <= length c)%nat -> (i + m <= length src)%nat ->
  splice (off + i) (take m (drop i src)) (splice off (take i src) c) = splice off (take (i + m) src) c.
Proof.
  intros Hoff Hlen. unfold splice. assert (L1 : length (take i src) = i) by (rewrite length_take; lia).
  assert (L2 : length (take m (drop i src)) = m) by (rewrite length_take, length_drop; lia).
  assert (L3 : length (take (i + m) src) = (i + m)%nat) by (rewrite length_take; lia). rewrite L1, L2, L3.
  set (a := take off c). assert (La : length a = off) by (unfold a; rewrite length_take; lia).
  rewrite (app_assoc a). set (b := a ++ take i src). assert (Lb : length b = (off + i)%nat) by (unfold b; rewrite length_app; lia).
  rewrite <- Lb at 1. rewrite take_app_length, <- Lb, drop_app_add, drop_drop, Lb. unfold b.
  rewrite <- app_assoc, (app_assoc (take i src)), take_take_drop. do 2 f_equal. f_equal. lia.
Qed.

Section pieces.
Variable (g : geom).
Implicit Types (v : disk).

Lemma write_file_refl v i off src : files_wf g v -> is_inum g i -> d_type (disk_inode v i) <> 0 -> 0 <= off <= Z.of_nat (length (content v (disk_inode v i))) ->
  write_file g v v i off src 0.
Proof.
  intros W Hi Ht Hoff. split_and!; try done. intros j Hj. case_decide as E; [|done]. subst. unfold files.
  rewrite (proj2 (Z.eqb_neq _ _)) by done. f_equal. unfold splice. simpl. by rewrite Nat.add_0_r, take_drop.
Qed.

Lemma files_content v i : d_type (disk_inode v i) <> 0 -> files v i = Some (content v (disk_inode v i)).
Proof. intros Ht. unfold files. by rewrite (proj2 (Z.eqb_neq _ _)). Qed.

Lemma write_file_content v v' i off src n : is_inum g i -> d_type (disk_inode v i) <> 0 -> write_file g v v' i off src n ->
  content v' (disk_inode v' i) = splice (Z.to_nat off) (take (Z.to_nat n) src) (content v (disk_inode v i)).
Proof.
  intros Hi Ht (W & _ & E & Hf). specialize (Hf i Hi). rewrite decide_True in Hf by done. rewrite files_content in Hf by congruence. congruence.
Qed.

Lemma write_file_trans v v1 v2 i off src n m : is_inum g i -> d_type (disk_inode v i) <> 0 -> 0 <= off <= Z.of_nat (length (content v (disk_inode v i))) ->
  0 <= n -> 0 <= m -> n + m <= Z.of_nat (length src) ->
  write_file g v v1 i off src n -> write_file g v1 v2 i (off + n) (drop (Z.to_nat n) src) m -> write_file g v v2 i off src (n + m).
Proof.
  intros Hi Ht Hoff Hn Hm Hl H1 (W2 & S2 & E2 & F2). pose proof (write_file_content _ _ _ _ _ _ Hi Ht H1) as C1. destruct H1 as (W1 & S1 & E1 & F1).
  split_and!; [done|congruence|congruence|]. intros j Hj. rewrite F2 by done. case_decide as E; [|rewrite F1 by done; by rewrite decide_False].
  rewrite C1. f_equal. rewrite !Z2Nat.inj_add by lia. apply splice_pieces; lia.
Qed.

Lemma length_content v d : length (content v d) = Z.to_nat (d_size d).
Proof. unfold content. by rewrite length_fmap, length_seqZ. Qed.

(** The size of the file after the write. *)
Lemma write_file_size v v' i off src n : is_inum g i -> d_type (disk_inode v i) <> 0 -> write_file g v v' i off src n ->
  0 <= off <= d_size (disk_inode v i) -> 0 <= n <= Z.of_nat (length src) -> 0 <= d_size (disk_inode v' i) ->
  d_size (disk_inode v' i) = Z.max (d_size (disk_inode v i)) (off + n).
Proof.
  intros Hi Ht H Hoff Hn Hs. pose proof (f_equal length (write_file_content _ _ _ _ _ _ Hi Ht H)) as E. unfold splice in E.
  rewrite !length_app, length_drop, !length_take, !length_content in E. lia.
Qed.
End pieces.

(** ** filewrite *)

Section filewrite.
Context {B : Type} {OPS : BufferOps B} {BC : BufferCache B}.
Variables (g : geom) (lsize nblk : Z).
Variable devsw_write : Z -> option (nat -> list Z -> Z -> K (fsys B) Z).
Implicit Types (s : fsys B) (w : fls B * kstate) (v : disk).

(** The inode of an open file. *)
Definition open_file v s ip i : Prop := open_ino g v s ip i /\ idle_ino s ip.

Lemma open_ino_flagged v s ip i fl : open_ino g v s ip i -> open_ino g v (flagged fl ip s) ip i.
Proof.
  intros [(H1 & H2 & H3) H4 H5 H6 H7]. split; try done; [|by rewrite inode_at_flagged].
  split; [by cbn; rewrite length_alter|]. by rewrite inode_at_flagged.
Qed.

Lemma at_tx_flagged d0 t0 lb v H l s ip fl : at_tx g d0 t0 lb lsize nblk v H l s -> at_tx g d0 t0 lb lsize nblk v H l (flagged fl ip s).
Proof. intros [T1 T2 T3 T4]. by split. Qed.

Lemma open_file_same v s s' ip i : open_file v s ip i -> f_inode s' = f_inode s -> held s' = held s -> open_file v s' ip i.
Proof.
  intros [[H1 H2 H3 H4 H5] [J1 J2 J3 J4]] E1 E2. unfold has_ino, inode_at in *. split; split; unfold has_ino, inode_at; rewrite ?E1, ?E2; done.
Qed.

(** The inode is unlocked after the work on it. *)
Lemma iunlock_after v s s' ip i d : idle_ino s ip -> open_ino g v s' ip i -> ikept ip d (flagged 3 ip s) s' ->
  iunlock ip s' = Ok tt (flagged I_VALID ip s') /\ open_file v (flagged I_VALID ip s') ip i.
Proof.
  intros [J1 J2 J3 J4] O [E1 E2]. assert (L3 : (ip < length (f_inode (flagged 3 ip s)))%nat) by (cbn; by rewrite length_alter).
  pose proof (inode_at_alter _ _ _ _ L3 E1) as Ei. rewrite inode_at_flagged in Ei by done.
  assert (L' : (ip < length (f_inode s'))%nat) by (by rewrite E1, length_alter).
  assert (Hh : lk_icache ∉ held s') by (rewrite E2; exact J4).
  split; [by apply iunlock_busy; rewrite ?Ei|]. split; [by apply open_ino_flagged|].
  split; [by cbn; rewrite length_alter|rewrite inode_at_flagged by done; by rewrite Ei|by rewrite inode_at_flagged|exact Hh].
Qed.

Lemma runs_lift_x {A} (m : K (fsys B) A) w Q : runs m (x_fs w.1) (fun a s' => Q a (set_x_fs s' w.1, w.2)) -> runs (lift_x m) w Q.
Proof. unfold runs, lift_x. by destruct (m (x_fs w.1)). Qed.

(** A transaction of [filewrite] writes at most [FILEWRITE_MAX] bytes, which touch at most four blocks. *)
Lemma chunk_budget off n d : 0 <= off -> 0 <= n <= FILEWRITE_MAX -> budget g (left_blocks off n 0) d [].
Proof.
  intros Hoff Hn. change FILEWRITE_MAX with 1536 in Hn.
  assert (Hl : (left_blocks off n 0 <= 4)%nat) by (unfold left_blocks, BSIZE; destruct (0 <? n) eqn:E; bool_hyps; mlia).
  unfold budget, room, iset. simpl. destruct (ind d =? 0).
  - rewrite !union_empty_r_L, size_singleton. lia.
  - rewrite union_empty_r_L. pose proof (size_union_alt {[ bmb g ]} {[ ind d ]} : size ({[ bmb g; ind d ]} : gset Z) = _) as Es.
    pose proof (subseteq_size ({[ ind d ]} ∖ {[ bmb g ]} : gset Z) {[ ind d ]} ltac:(set_solver)). rewrite !size_singleton in *. lia.
Qed.

(** The state between two transactions of a [filewrite] that began with the disk [dk0]. *)
Record progress (bns : list Z) (f ip : nat) (i : Z) (addr : list Z) (n : Z) w0 v0 (dk0 : disk) (tr0 : list (Z * list Z)) (off k : Z) w v c ws : Prop := {
  pg_rest : at_rest g lsize nblk v c (x_fs w.1);
  pg_file : write_file g v0 v i off addr k;
  pg_open : open_file v (x_fs w.1) ip i;
  pg_need : (need v (disk_inode v i) bns <= nfree g v)%nat;
  pg_table : x_file w.1 = alter (set_fi_off (off + k)) f (x_file w0.1);
  pg_rem : x_pipe w.1 = x_pipe w0.1 /\ x_ticks w.1 = x_ticks w0.1 /\ w.2 = w0.2 /\ held w = held w0;
  pg_trace : c_trace c = tr0 ++ ws;
  pg_disk : forall m, c_disk c m = apply_writes ws dk0 m;
  pg_crash : recovers g nblk dk0 ws (fun u => exists j, 0 <= j <= k /\ (j = k \/ j mod FILEWRITE_MAX = 0) /\ write_file g v0 u i off addr j)
}.

Lemma file_at_alter h f w w' : (f < length (x_file w.1))%nat -> x_file w'.1 = alter h f (x_file w.1) -> file_at w' f = h (file_at w f).
Proof.
  intros Hl E. unfold file_at. rewrite E. destruct (lookup_lt_is_Some_2 _ _ Hl) as [x Hx].
  rewrite (nth_lookup_Some _ _ _ _ Hx). apply nth_lookup_Some. by rewrite list_lookup_alter_eq, Hx.
Qed.

Variables (bns : list Z) (f ip : nat) (i : Z) (addr : list Z) (n off : Z).
Hypotheses (Hoff : 0 <= off) (Hn : 0 <= n <= Z.of_nat (length addr)) (Hmax : off + n <= MAXFILE * BSIZE).
Hypotheses (Haddr : bytes_ok addr) (Hcov : covers bns off n) (Hls : 10 <= lsize).

(** One round of the loop: a whole transaction. *)
Lemma filewrite_round (k0 : Z -> K (fls B * kstate) Z) Q w0 v0 dk0 tr0 k w v c ws n1 :
  is_inum g i -> d_type (disk_inode v0 i) <> 0 -> off <= d_size (disk_inode v0 i) -> (f < length (x_file w0.1))%nat ->
  progress bns f ip i addr n w0 v0 dk0 tr0 off k w v c ws -> 0 <= k < n -> k mod FILEWRITE_MAX = 0 ->
  n1 = (if FILEWRITE_MAX <? n - k then FILEWRITE_MAX else n - k) ->
  (forall w' v' c' ws', progress bns f ip i addr n w0 v0 dk0 tr0 off (k + n1) w' v' c' ws' -> runs (k0 n1) w' Q) ->
  runs (lift_x (lift_l begin_trans) ;;;
        lift_x (ilock ip) ;;;
        let* o := getf f fi_off in
        let* r := lift_x (writei devsw_write ip (drop (Z.to_nat k) addr) o n1) in
        (when 0 <? r do setf f (fun x => set_fi_off (u32 (fi_off x + r)) x)) ;;;
        lift_x (iunlock ip) ;;;
        lift_x (lift_l commit_trans) ;;;
        k0 r) w Q.
Proof.
  intros Hi Ht Hsz Hf [R WF O Hneed HT HR HTr HD HC] Hk Hkm E1 HQ. assert (Hbig : MAXFILE * BSIZE = 71680) by done.
  change FILEWRITE_MAX with 1536 in *.
  assert (Hn1 : 0 < n1 <= n - k /\ n1 <= 1536) by (subst n1; destruct (1536 <? n - k) eqn:E; bool_hyps; lia).
  apply runs_bind, runs_lift_x. eapply t_begin; [exact R|]. intros s1 T1 F1 L1.
  apply runs_bind, runs_lift_x. cbn [x_fs set_x_fs fst].
  assert (O1 : open_file v s1 ip i) by (by eapply open_file_same). destruct O1 as [O1 D1].
  eapply runs_eq; [by apply ilock_valid|]. apply runs_bind. unfold getf at 1. apply runs_gets.
  assert (Eo : fi_off (file_at (set_x_fs (flagged 3 ip s1) (set_x_fs s1 w.1), w.2) f) = off + k).
  { change (file_at (set_x_fs (flagged 3 ip s1) (set_x_fs s1 w.1), w.2) f) with (file_at w f). by rewrite (file_at_alter _ _ _ _ Hf HT). }
  cbn [fst snd] in *. rewrite Eo. apply runs_bind, runs_lift_x. cbn [x_fs set_x_fs fst].
  assert (Hsize : d_size (disk_inode v i) = Z.max (d_size (disk_inode v0 i)) (off + k)).
  { eapply write_file_size; try done; try lia. destruct (iw_typed _ _ _ (fl_file _ _ (proj1 WF) i Hi (oi_used _ _ _ _ _ O1))) as (_ & _ & _ & _ & [? _] & _). done. }
  eapply (t_writei g _ _ 1 lsize nblk devsw_write bns v [] (flagged 3 ip s1) ip i); try done; try lia.
  { by apply at_tx_flagged. }
  { apply WF. }
  { by apply open_ino_flagged. }
  { rewrite length_drop. lia. }
  { by apply Forall_drop. }
  { destruct Hcov as (C1 & C2 & C3). split_and!; try done. intros x Hx. apply C3. lia. }
  { apply chunk_budget; [lia|]. change FILEWRITE_MAX with 1536. lia. }
  intros v2 l2 s2 WF2 T2 O2 K2 Hneed2 Hf2. rewrite (proj2 (Z.ltb_lt 0 n1)) by lia. apply runs_bind. unfold setf at 1. apply runs_mod.
  apply runs_bind, runs_lift_x. cbn [x_fs set_x_fs set_x_file fst snd].
  destruct (iunlock_after v2 s1 s2 ip i _ D1 O2 K2) as [U1 U2]. eapply runs_eq; [exact U1|].
  apply runs_bind, runs_lift_x. cbn [x_fs set_x_fs set_x_file fst snd].
  eapply t_commit; [by apply at_tx_flagged|done|]. intros c3 ws3 s3 R3 Tr3 Dk3 Cr3 F3 L3. eapply HQ.
  assert (WF3 : write_file g v0 v2 i off addr (k + n1)).
  { eapply write_file_trans; try done; try lia. rewrite length_content. lia. }
  split; cbn [x_fs set_x_fs set_x_file fst snd x_file x_pipe x_ticks]; try done.
  - by eapply open_file_same.
  - rewrite HT, list_alter_alter_eq. apply list_alter_ext; [|done]. intros x _. cbn. rewrite u32_small by lia. by rewrite Z.add_assoc.
  - destruct HR as (R1 & R2 & R4 & R5). split_and!; try done. rewrite <- R5. etrans; [exact L3|]. etrans; [apply K2|exact L1].
  - by rewrite Tr3, HTr, <- app_assoc.
  - intros m. rewrite Dk3, apply_writes_app. by apply apply_writes_ext.
  - eapply (recovers_app g nblk dk0 (c_disk c) ws ws3 v v2); [|done|done|by eapply at_rest_disk|exists k|exists (k + n1)|..].
    2: { split_and!; try done; try lia. by right. }
    2: { split_and!; try done; try lia. }
    2: { destruct (fw_geom _ _ (fl_wf _ _ (proj1 WF))) as [? ? ?]. pose proof (bmb_ge _ (fw_geom _ _ (fl_wf _ _ (proj1 WF)))). lia. }
    2: { apply WF2. }
    eapply recovers_mono; [exact HC|]. intros u (j & J1 & J2 & J3). exists j. split_and!; try done; try lia. right. destruct J2 as [->|J2]; done.
Qed.

Lemma filewrite_loop_runs Q w0 v0 dk0 tr0 : is_inum g i -> d_type (disk_inode v0 i) <> 0 -> off <= d_size (disk_inode v0 i) ->
  (f < length (x_file w0.1))%nat ->
  (forall w' v' c' ws', progress bns f ip i addr n w0 v0 dk0 tr0 off n w' v' c' ws' -> Q n w') ->
  forall fuel k w v c ws, progress bns f ip i addr n w0 v0 dk0 tr0 off k w v c ws -> 0 <= k <= n -> (k = n \/ k mod FILEWRITE_MAX = 0) ->
  n - k <= FILEWRITE_MAX * Z.of_nat fuel -> runs (filewrite_loop devsw_write f ip addr n k fuel) w Q.
Proof.
  intros Hi Ht Hsz Hf HQ. induction fuel as [|fuel IH]; intros k w v c ws P Hk Hkm Hfuel.
  all: cbn [filewrite_loop]; destruct (k <? n) eqn:Ek; bool_hyps.
  2, 4: replace k with n in * by lia; apply runs_ret; by eapply HQ.
  - exfalso. lia.
  - destruct Hkm as [->|Hkm]; [lia|]. cbv zeta. eapply filewrite_round; [done|done|done|done|exact P|lia|done|reflexivity|]. intros w' v' c' ws' P'.
    change FILEWRITE_MAX with 1536 in *. set (n1 := if 1536 <? n - k then 1536 else n - k) in *.
    assert (Hn1 : 0 < n1 <= n - k /\ (n1 = 1536 \/ n1 = n - k)) by (subst n1; destruct (1536 <? n - k) eqn:E; bool_hyps; lia).
    rewrite (proj2 (Z.ltb_ge n1 0)), Z.eqb_refl by lia. cbn [negb].
    eapply IH; [exact P'|lia| |lia]. destruct Hn1 as [? [->| ->]]; [right; change FILEWRITE_MAX with 1536; mlia|left; lia].
Qed.

Lemma filewrite_runs killed Q w v c : is_inum g i -> d_type (disk_inode v i) <> 0 -> off <= d_size (disk_inode v i) -> (f < length (x_file w.1))%nat ->
  fi_type (file_at w f) = FD_INODE -> fi_writable (file_at w f) <> 0 -> fi_ip (file_at w f) = ip -> fi_off (file_at w f) = off ->
  at_rest g lsize nblk v c (x_fs w.1) -> files_wf g v -> open_file v (x_fs w.1) ip i -> (need v (disk_inode v i) bns <= nfree g v)%nat ->
  (forall w' v' c' ws', progress bns f ip i addr n w v (c_disk c) (c_trace c) off n w' v' c' ws' -> Q n w') ->
  runs (filewrite devsw_write killed f addr n) w Q.
Proof.
  intros Hi Ht Hsz Hf Ef1 Ef2 Ef3 Ef4 R W O Hneed HQ. unfold filewrite. apply runs_bind. unfold getf. apply runs_gets.
  rewrite (proj2 (Z.eqb_neq _ _)), Ef1, Ef3 by done. apply runs_bind.
  assert (P : progress bns f ip i addr n w v (c_disk c) (c_trace c) off 0 w v c []).
  { assert (WF : write_file g v v i off addr 0) by (apply write_file_refl; try done; rewrite length_content; lia).
    split; try done; [|by rewrite app_nil_r|].
    - rewrite Z.add_0_r, <- Ef4. rewrite <- (list_alter_id (fun x => x) (x_file w.1) f) at 1 by done. apply list_alter_ext; [|done].
      intros x Hx. unfold file_at. rewrite (nth_lookup_Some _ _ _ _ Hx). by destruct x.
    - eapply recovers_nil; [exact R|]. exists 0. split_and!; try done. by left. }
  eapply (filewrite_loop_runs _ w v); try done.
  - intros w' v' c' ws' P'. apply runs_ret. rewrite Z.eqb_refl. by eapply HQ.
  - lia.
  - by right.
  - unfold filewrite_fuel. change FILEWRITE_MAX with 1536. mlia.
Qed.
End filewrite.

(** ** fileread *)

Section fileread.
Context {B : Type} {OPS : BufferOps B} {BC : BufferCache B}.
Variables (g : geom) (lsize nblk : Z).
Variable devsw_read : Z -> option (nat -> Z -> K (fsys B) (Z * list Z)).
Implicit Types (s : fsys B) (w : fls B * kstate) (v : disk).

(** A transaction that has logged nothing is a quiescent state. *)
Lemma tx_restart (s : lst B) c d0 t0 : tx s c d0 t0 ∅ [] -> quiescent s c.
Proof.
  intros T. pose proof (fun m => tx_home_disk _ _ _ _ _ _ m T) as Hd. destruct T as [T1 T2 T3 T4 T5 T6 T7 T8 T9 T10 T11 T12].
  split; try done.
  - exists []. by rewrite app_nil_r.
  - by rewrite Hd by lia.
  - intros m Hm H1 H2. rewrite Hd by lia. by apply T10.
Qed.

Lemma at_tx_rest d0 t0 v s : at_tx g d0 t0 0 lsize nblk v ∅ [] s -> exists c, at_rest g lsize nblk v c s.
Proof. intros [(c & T & V & F & N) L E Z]. exists c. split; try done. by eapply tx_restart. Qed.

Lemma fits_nil : fits ∅ [].
Proof. unfold fits. change (size (∅ ∪ list_to_set [] : gset Z)) with 0%nat. lia. Qed.

(** [fileread] returns the bytes at the offset, as many as there are, and moves the offset. *)
Lemma fileread_runs killed f i n w v c : (f < length (x_file w.1))%nat ->
  fi_type (file_at w f) = FD_INODE -> fi_readable (file_at w f) <> 0 -> 0 <= fi_off (file_at w f) <= d_size (disk_inode v i) ->
  0 <= n < 2147483648 -> at_rest g lsize nblk v c (x_fs w.1) -> files_wf g v -> open_file g v (x_fs w.1) (fi_ip (file_at w f)) i ->
  runs (fileread devsw_read killed f n) w (fun '(r, bytes) w' =>
    bytes = read_file (content v (disk_inode v i)) (fi_off (file_at w f)) n /\ r = Z.of_nat (length bytes) /\
    file_at w' f = set_fi_off (fi_off (file_at w f) + r) (file_at w f) /\
    exists c', at_rest g lsize nblk v c' (x_fs w'.1) /\ open_file g v (x_fs w'.1) (fi_ip (file_at w f)) i).
Proof.
  intros Hf Ef1 Ef2 Hoff Hn R W [O D]. set (ip := fi_ip (file_at w f)) in *. set (off := fi_off (file_at w f)) in *.
  pose proof (iw_size _ _ _ (fl_file _ _ W i (oi_range _ _ _ _ _ O) (oi_used _ _ _ _ _ O))) as Hsz. assert (Hbig : MAXFILE * BSIZE = 71680) by done.
  unfold fileread. apply runs_bind. unfold getf. apply runs_gets. rewrite (proj2 (Z.eqb_neq _ _)), Ef1 by done. fold ip off.
  apply runs_bind, runs_lift_x. eapply runs_eq; [by apply ilock_valid|]. apply runs_bind, runs_lift_x. cbn [x_fs set_x_fs fst snd].
  rewrite u32_small by lia.
  eapply (t_readi g _ _ 0 lsize nblk devsw_read v [] (flagged 3 ip (x_fs w.1)) ip i).
  { apply at_tx_flagged. by apply at_rest_tx. }
  { done. }
  { by apply open_ino_flagged. }
  { apply fits_nil. }
  { unfold is_uint. lia. }
  { unfold is_uint. lia. }
  intros s1 T1 K1. rewrite (proj2 (Z.ltb_ge _ off)), (proj2 (Z.leb_gt _ (off + n))) by lia. cbn [orb].
  set (bytes := read_file _ _ _). set (r := Z.of_nat (length bytes)).
  assert (Hr : 0 <= r <= 71680) by (unfold r, bytes, read_file; rewrite length_take, length_drop, length_content; lia).
  assert (O1 : open_ino g v s1 ip i).
  { destruct (open_ino_flagged g v (x_fs w.1) ip i 3 O) as [Q1 Q2 Q3 Q4 Q5]. split; try done; [by eapply has_ino_kept|].
    destruct K1 as (E & _). unfold inode_at in *. by rewrite E. }
  destruct (iunlock_after g v (x_fs w.1) s1 ip i _ D O1 (kept_ikept _ _ _ _ _ (oi_ino _ _ _ _ _ (open_ino_flagged g v _ ip i 3 O)) K1)) as [U1 U2].
  assert (Hend : forall tb, file_at (Fls s1 tb (x_pipe w.1) (x_ticks w.1), w.2) f = set_fi_off (off + r) (file_at w f) ->
    runs (lift_x (iunlock ip) ;;; kret (r, bytes)) (Fls s1 tb (x_pipe w.1) (x_ticks w.1), w.2) (fun '(r0, b0) w' =>
      b0 = bytes /\ r0 = Z.of_nat (length b0) /\ file_at w' f = set_fi_off (off + r0) (file_at w f) /\
      exists c', at_rest g lsize nblk v c' (x_fs w'.1) /\ open_file g v (x_fs w'.1) ip i)).
  { intros tb Htb. apply runs_bind, runs_lift_x. eapply runs_eq; [exact U1|]. apply runs_ret. split_and!; try done.
    destruct (at_tx_rest _ _ _ _ (at_tx_flagged g lsize nblk _ _ _ _ _ _ _ ip I_VALID T1)) as [c' R']. by exists c'. }
  apply runs_bind. destruct (0 <? r) eqn:Er; bool_hyps.
  - unfold setf. apply runs_mod. apply Hend. rewrite (file_at_alter (fun x => set_fi_off (u32 (fi_off x + r)) x) f w) by done. fold off. by rewrite u32_small by lia.
  - apply runs_ret. apply Hend. replace r with 0 by lia. rewrite Z.add_0_r. unfold off.
    transitivity (file_at w f); [done|]. by destruct (file_at w f).
Qed.
End fileread.
