(* ===== verification/FsName.v ===== *)
(** * Directories and paths: what namei finds

    A directory is a list of sixteen-byte entries; [dir_find] is the first entry with a name, and [walk] follows the elements of a path.
    [namei] implements [walk] over the inode cache, whose invariant is [icache]: the inodes in use have their
    fields from the disk, and no inode is in two slots. *)

From S2P Require Import Prelude Kalloc Proc Bio BufferCache BioSpec Bytes Log LogSpec LogCrash Fs FsLayout FsSpec Pipe File FileRw.

(** ** Paths *)

(** The pieces between slashes. *)
Fixpoint pieces (cur path : list Z) : list (list Z) :=
  match path with
  | [] => [cur]
  | c :: path' => if c =? slash then cur :: pieces [] path' else pieces (cur ++ [c]) path'
  end.

(** The elements of a path: the pieces that are not empty, cut to fourteen bytes. *)
Definition elements (path : list Z) : list (list Z) := take (Z.to_nat DIRSIZ) <$> filter (fun p => p <> []) (pieces [] path).

Lemma pieces_skip path : filter (fun p => p <> []) (pieces [] path) = filter (fun p => p <> []) (pieces [] (skip_slashes path)).
Proof. induction path as [|c path IH]; [done|]. cbn [pieces skip_slashes]. destruct (c =? slash) eqn:E; [done|]. cbn [pieces]. by rewrite E. Qed.

Lemma pieces_take path : forall cur, pieces cur path =
  match (take_elem path).2 with [] => [cur ++ (take_elem path).1] | _ :: rest => (cur ++ (take_elem path).1) :: pieces [] rest end.
Proof.
  induction path as [|c path IH]; intros cur; cbn [pieces take_elem].
  - by rewrite app_nil_r.
  - destruct (c =? slash); cbn [fst snd]; [by rewrite app_nil_r|]. rewrite IH. destruct (take_elem path) as [e r]. cbn [fst snd]. rewrite <- app_assoc. done.
Qed.

Lemma take_elem_rest path : match (take_elem path).2 with [] => True | c :: _ => c = slash end.
Proof. induction path as [|c path IH]; [done|]. cbn [take_elem]. destruct (c =? slash) eqn:E; [by bool_hyps|]. by destruct (take_elem path). Qed.

Lemma take_elem_app path : (take_elem path).1 ++ (take_elem path).2 = path.
Proof. induction path as [|c path IH]; [done|]. cbn [take_elem]. destruct (c =? slash); [done|]. destruct (take_elem path). cbn in *. by rewrite IH. Qed.

Lemma skip_slashes_head path c rest : skip_slashes path = c :: rest -> c <> slash.
Proof. induction path as [|x path IH]; [done|]. cbn. destruct (x =? slash) eqn:E; [done|]. intros [= <- <-]. by bool_hyps. Qed.

(** [strncmp] does not look behind the end of a name. *)
Lemma strncmp_l_end n : forall s junk t, (0 ∉ s) -> strncmp_l n (s ++ 0 :: junk) t = strncmp_l n s t.
Proof.
  induction n as [|n IH]; intros s junk t Hs; [done|]. destruct s as [|x s]; cbn [strncmp_l app hd tl]; [done|].
  rewrite IH by set_solver. done.
Qed.

Lemma strncmp_l_take n : forall s t, strncmp_l n (take n s) t = strncmp_l n s t.
Proof. induction n as [|n IH]; intros s t; [done|]. destruct s as [|x s]; [done|]. cbn [strncmp_l take hd tl]. by rewrite IH. Qed.

(** The array [name] holds the element [e]. *)
Definition names (name e : list Z) : Prop := forall t, namecmp name t = namecmp e t.

Lemma elements_skip path : elements (skip_slashes path) = elements path.
Proof. unfold elements. by rewrite <- pieces_skip. Qed.

Lemma elements_take path : (take_elem path).1 <> [] ->
  elements path = take (Z.to_nat DIRSIZ) (take_elem path).1 :: elements (skip_slashes (take_elem path).2).
Proof.
  intros He. rewrite elements_skip. unfold elements at 1. rewrite pieces_take. pose proof (take_elem_rest path) as Hr. cbn [app].
  destruct (take_elem path).2 as [|c r].
  - by rewrite filter_cons_True by done.
  - subst c. rewrite filter_cons_True by done. done.
Qed.

Lemma names_array e name : (0 ∉ e) ->
  names (if DIRSIZ <=? Z.of_nat (length e) then take (Z.to_nat DIRSIZ) e else splice 0 (e ++ [0]) name) (take (Z.to_nat DIRSIZ) e).
Proof.
  intros H0 t. destruct (DIRSIZ <=? Z.of_nat (length e)) eqn:E; [done|]. bool_hyps. unfold namecmp, splice. cbn [take app].
  rewrite take_0, <- app_assoc. cbn [app]. rewrite strncmp_l_end by done. by rewrite strncmp_l_take.
Qed.

Lemma skip_slashes_suffix path : skip_slashes path `suffix_of` path.
Proof. induction path as [|c path IH]; [done|]. cbn. destruct (c =? slash); [by apply suffix_cons_r|done]. Qed.

Lemma elements_nil path : elements (skip_slashes path) = [] -> skip_slashes path = [].
Proof.
  pose proof (skip_slashes_head path) as Hh. destruct (skip_slashes path) as [|c p]; [done|]. specialize (Hh c p eq_refl).
  rewrite elements_take; [done|]. cbn [take_elem]. rewrite (proj2 (Z.eqb_neq _ _)) by done. by destruct (take_elem p).
Qed.

Lemma skipelem_spec path name : (0 ∉ path) ->
  match skipelem path name with
  | None => elements path = []
  | Some (path', name') => exists e, elements path = e :: elements path' /\ names name' e /\ (length path' < length path)%nat /\ (0 ∉ path') /\ (elements path' = [] -> path' = [])
  end.
Proof.
  intros H0. unfold skipelem. rewrite <- elements_skip. pose proof (skip_slashes_suffix path) as [pre Epre]. pose proof (skip_slashes_head path) as Hh.
  destruct (skip_slashes path) as [|c p] eqn:Es; [done|]. specialize (Hh c p eq_refl). pose proof (take_elem_app (c :: p)) as Ha.
  assert (He : (take_elem (c :: p)).1 <> []) by (cbn [take_elem]; rewrite (proj2 (Z.eqb_neq _ _)) by done; by destruct (take_elem p)).
  pose proof (elements_take (c :: p) He) as El. destruct (take_elem (c :: p)) as [e r]. cbn [fst snd] in *.
  exists (take (Z.to_nat DIRSIZ) e). destruct (skip_slashes_suffix r) as [pre2 Er]. rewrite <- Ha, Er in Epre. split_and!; [done| | | |].
  - apply names_array. rewrite Epre in H0. set_solver.
  - rewrite Epre, !length_app. destruct e; [done|]. cbn. lia.
  - rewrite Epre in H0. set_solver.
  - apply elements_nil.
Qed.

(** ** Directories *)

(** The entry at an offset of a directory's bytes. *)
Definition dir_entry (c : list Z) (off : Z) : list Z := read_file c off SIZEOF_DIRENT.

Fixpoint scan_dir (c : list Z) (offs : list Z) (name : list Z) : option (Z * Z) :=
  match offs with
  | [] => None
  | off :: offs' =>
      let de := dir_entry c off in
      if (de_inum de =? 0) || negb (namecmp name (de_name de) =? 0) then scan_dir c offs' name else Some (de_inum de, off)
  end.

(** The inode and the offset of the first entry with this name. *)
Definition dir_find (c : list Z) (name : list Z) : option (Z * Z) := scan_dir c (dir_offsets 0 (Z.of_nat (length c))) name.

Lemma scan_dir_names c offs name e : names name e -> scan_dir c offs name = scan_dir c offs e.
Proof. intros Hn. induction offs as [|off offs IH]; [done|]. cbn [scan_dir]. by rewrite Hn, IH. Qed.

Fixpoint walk (v : disk) (i : Z) (path : list (list Z)) : option Z :=
  match path with
  | [] => Some i
  | e :: path' =>
      if d_type (disk_inode v i) =? T_DIR then
        match dir_find (content v (disk_inode v i)) e with
        | Some (j, _) => walk v j path'
        | None => None
        end
      else None
  end.

(** What a path names: an inode, or the directory of its last element. *)
Definition resolve (parent : bool) (v : disk) (i : Z) (path : list (list Z)) : option Z :=
  if parent then
    match path with
    | [] => None
    | _ =>
        match walk v i (removelast path) with
        | Some j => if d_type (disk_inode v j) =? T_DIR then Some j else None
        | None => None
        end
    end
  else walk v i path.

Lemma resolve_cons parent v i e path : resolve parent v i (e :: path) =
  if d_type (disk_inode v i) =? T_DIR then
    if parent && bool_decide (path = []) then Some i
    else match dir_find (content v (disk_inode v i)) e with Some (j, _) => resolve parent v j path | None => None end
  else None.
Proof.
  destruct parent; [|done]. unfold resolve. destruct path as [|e' path].
  - cbn [removelast walk]. done.
  - rewrite bool_decide_eq_false_2 by done. cbn [andb]. change (removelast (e :: e' :: path)) with (e :: removelast (e' :: path)). cbn [walk].
    destruct (d_type (disk_inode v i) =? T_DIR); [|done]. by destruct (dir_find _ e) as [[j ?]|].
Qed.

Section names.
Variable (g : geom).
Implicit Types (v : disk).

(** An inode that is allocated, as a file, a directory or a device. *)
Record used v (j : Z) : Prop := {
  us_inum : is_inum g j;
  us_type : d_type (disk_inode v j) <> 0
}.

(** An inode that a directory may name. *)
Record linked v (j : Z) : Prop := {
  lk_used : used v j;
  lk_nlink : d_nlink (disk_inode v j) <> 0
}.

(** Directories are arrays of entries, and their entries are linked inodes. *)
Definition dirs_ok v : Prop := forall i, is_inum g i -> d_type (disk_inode v i) = T_DIR -> d_size (disk_inode v i) mod SIZEOF_DIRENT = 0 /\
  forall off, off ∈ dir_offsets 0 (d_size (disk_inode v i)) -> let j := de_inum (dir_entry (content v (disk_inode v i)) off) in j <> 0 -> linked v j.

Lemma dir_offsets_range size off : 0 <= size -> size mod SIZEOF_DIRENT = 0 -> off ∈ dir_offsets 0 size -> 0 <= off /\ off + SIZEOF_DIRENT <= size.
Proof.
  intros Hs Hm Ho. unfold dir_offsets in Ho. apply list_elem_of_fmap in Ho as (k & -> & Hk%elem_of_seqZ). unfold SIZEOF_DIRENT in *. mlia.
Qed.

Lemma scan_dir_linked v i offs name j off : (forall o, o ∈ offs -> let j := de_inum (dir_entry (content v (disk_inode v i)) o) in j <> 0 -> linked v j) ->
  scan_dir (content v (disk_inode v i)) offs name = Some (j, off) -> linked v j.
Proof.
  intros Hd. induction offs as [|o offs IH]; [done|]. cbn [scan_dir]. destruct (_ || _) eqn:E; [apply IH; intros; apply Hd; [by right|done]|].
  intros [= <- <-]. apply orb_false_elim in E as [E _]. apply Z.eqb_neq in E. apply (Hd o); [left|done].
Qed.
End names.

(** ** The inode cache *)

Definition weight (j : Z) (x : inode) : Z := if (0 <? i_ref x) && (i_inum x =? j) then i_ref x else 0.

Definition total_weight (j : Z) (l : list inode) : Z := foldr (fun x n => weight j x + n) 0 l.

Lemma total_weight_alter j f l ip : (ip < length l)%nat ->
  total_weight j (alter f ip l) = total_weight j l - weight j (nth ip l null_inode) + weight j (f (nth ip l null_inode)).
Proof.
  revert ip. induction l as [|x l IH]; intros [|ip] Hl; cbn in *; try lia. change (foldr (fun y n => weight j y + n) 0 (alter f ip l)) with (total_weight j (alter f ip l)).
  rewrite IH by lia. unfold total_weight. lia.
Qed.

Lemma weight_nonneg j x : 0 <= weight j x.
Proof. unfold weight. destruct (0 <? i_ref x) eqn:E; cbn; [|lia]. bool_hyps. destruct (_ =? _); lia. Qed.

Lemma total_weight_nonneg j l : 0 <= total_weight j l.
Proof. induction l as [|x l IH]; cbn; [lia|]. pose proof (weight_nonneg j x). unfold total_weight in IH. lia. Qed.

Lemma total_weight_pos j l : 0 < total_weight j l <-> exists ip x, l !! ip = Some x /\ 0 < i_ref x /\ i_inum x = j.
Proof.
  induction l as [|x l IH]; cbn.
  - split; [lia|]. by intros (ip & y & Hy & _).
  - change (foldr (fun y n => weight j y + n) 0 l) with (total_weight j l). pose proof (weight_nonneg j x). pose proof (total_weight_nonneg j l). split.
    + intros Hp. destruct (decide (0 < total_weight j l)) as [Hl|Hl].
      * apply IH in Hl as (ip & y & Hy & Hr). by exists (S ip), y.
      * exists 0%nat, x. split; [done|]. assert (Hw : 0 < weight j x) by lia. unfold weight in Hw. destruct (0 <? i_ref x) eqn:E1; cbn in Hw; [|lia].
        destruct (i_inum x =? j) eqn:E2; [|lia]. by bool_hyps.
    + intros ([|ip] & y & Hy & Hr & Hi); cbn in Hy.
      * injection Hy as ->. assert (weight j y = i_ref y); [|lia]. unfold weight. by rewrite (proj2 (Z.ltb_lt _ _)), (proj2 (Z.eqb_eq _ _)).
      * assert (0 < total_weight j l) by (apply IH; eauto). lia.
Qed.

Section cache.
Context {B : Type} {OPS : BufferOps B} {BC : BufferCache B}.
Variables (g : geom) (d0 : disk) (t0 : list (Z * list Z)) (lb lsize nblk : Z) (l : list Z) (v : disk).
Hypothesis (Hfits : fits ∅ l) (Hfiles : files_wf g v).
Implicit Types (s : fsys B).

(** The references to inode [j]. *)
Definition refs s (j : Z) : Z := total_weight j (f_inode s).

Record slot_ok (locked : bool) (x : inode) : Prop := {
  sl_dev : i_dev x = 1;
  sl_used : used g v (i_inum x);
  sl_flags : if locked then i_flags x = 3 else i_flags x = 0 \/ i_flags x = I_VALID;
  sl_copy : i_flags x <> 0 -> i_d x = disk_inode v (i_inum x)
}.

(** [L] is the slot this thread has locked. *)
Record icache (L : option nat) s : Prop := {
  ic_tx : at_tx g d0 t0 lb lsize nblk v ∅ l s;
  ic_refs : forall ip, 0 <= i_ref (inode_at s ip);
  ic_slot : forall ip, 0 < i_ref (inode_at s ip) -> slot_ok (bool_decide (L = Some ip)) (inode_at s ip);
  ic_uniq : forall ip ip', 0 < i_ref (inode_at s ip) -> 0 < i_ref (inode_at s ip') -> i_inum (inode_at s ip) = i_inum (inode_at s ip') -> ip = ip';
  ic_locked : forall ip, L = Some ip -> 0 < i_ref (inode_at s ip);
  ic_free : lk_icache ∉ held s
}.

Lemma live_range s ip : 0 < i_ref (inode_at s ip) -> (ip < length (f_inode s))%nat.
Proof. unfold inode_at. intros H. destruct (decide (ip < length (f_inode s))%nat) as [|Hn]; [done|]. rewrite nth_overflow in H by lia. cbn in H. lia. Qed.

Lemma inode_at_lookup s ip x : f_inode s !! ip = Some x -> inode_at s ip = x.
Proof. apply nth_lookup_Some. Qed.

Lemma refs_live s j : 0 < refs s j <-> exists ip, 0 < i_ref (inode_at s ip) /\ i_inum (inode_at s ip) = j.
Proof.
  unfold refs. rewrite total_weight_pos. split.
  - intros (ip & x & Hx & H1 & H2). exists ip. by rewrite (inode_at_lookup _ _ _ Hx).
  - intros (ip & H1 & H2). destruct (lookup_lt_is_Some_2 _ _ (live_range s ip H1)) as [x Hx]. exists ip, x. rewrite (inode_at_lookup _ _ _ Hx) in H1, H2. done.
Qed.

(** A slot is free as long as fewer inodes are in use than there are slots. *)
Lemma free_slot s L (X : gset Z) : icache L s -> (forall j, 0 < refs s j -> j ∈ X) -> (size X < length (f_inode s))%nat -> exists ip, (ip < length (f_inode s))%nat /\ i_ref (inode_at s ip) = 0.
Proof.
  intros I HX Hsz. destruct (decide (Exists (fun x => i_ref x = 0) (f_inode s))) as [He|Hn].
  - apply Exists_exists in He as (x & Hx & H0). apply list_elem_of_lookup_1 in Hx as [ip Hip]. exists ip. rewrite (inode_at_lookup _ _ _ Hip).
    split; [by eapply lookup_lt_Some|done].
  - exfalso. assert (Hl : forall ip x, f_inode s !! ip = Some x -> 0 < i_ref (inode_at s ip)).
    { intros ip x Hx. pose proof (ic_refs _ _ I ip). rewrite (inode_at_lookup _ _ _ Hx) in *. destruct (decide (i_ref x = 0)); [|lia]. exfalso. apply Hn, Exists_exists.
      exists x. split; [by eapply list_elem_of_lookup_2|done]. }
    assert (Hnd : NoDup (i_inum <$> f_inode s)).
    { apply NoDup_alt. intros a b j Ha Hb. apply list_lookup_fmap_Some in Ha as (x & -> & Hx). apply list_lookup_fmap_Some in Hb as (y & Hy & Hb).
      apply (ic_uniq _ _ I); [by eapply Hl|by eapply Hl|]. by rewrite (inode_at_lookup _ _ _ Hx), (inode_at_lookup _ _ _ Hb). }
    assert (Hsub : list_to_set (i_inum <$> f_inode s) ⊆ X).
    { intros j Hj. apply elem_of_list_to_set, list_elem_of_fmap in Hj as (x & -> & Hx). apply list_elem_of_lookup_1 in Hx as [ip Hip]. apply HX, refs_live.
      exists ip. rewrite (inode_at_lookup _ _ _ Hip). split; [|done]. rewrite <- (inode_at_lookup _ _ _ Hip). by eapply Hl. }
    apply subseteq_size in Hsub. rewrite (size_list_to_set (C := gset Z)), length_fmap in Hsub by done. lia.
Qed.

Lemma inode_at_other f ip s s' ip' : f_inode s' = alter f ip (f_inode s) -> ip' <> ip -> inode_at s' ip' = inode_at s ip'.
Proof. intros E Hne. unfold inode_at. rewrite E, !nth_lookup. by rewrite list_lookup_alter_ne. Qed.

(** One slot changes. *)
Lemma icache_step L L' s s' ip f : icache L s -> at_tx g d0 t0 lb lsize nblk v ∅ l s' -> f_inode s' = alter f ip (f_inode s) -> held s' = held s ->
  (ip < length (f_inode s))%nat -> 0 <= i_ref (f (inode_at s ip)) ->
  (0 < i_ref (f (inode_at s ip)) -> slot_ok (bool_decide (L' = Some ip)) (f (inode_at s ip)) /\
     forall ip', ip' <> ip -> 0 < i_ref (inode_at s ip') -> i_inum (inode_at s ip') <> i_inum (f (inode_at s ip))) ->
  (forall ip', ip' <> ip -> bool_decide (L' = Some ip') = bool_decide (L = Some ip')) -> (L' = Some ip -> 0 < i_ref (f (inode_at s ip))) ->
  icache L' s' /\ inode_at s' ip = f (inode_at s ip) /\ (forall ip', ip' <> ip -> inode_at s' ip' = inode_at s ip') /\
  (forall j, refs s' j = refs s j - weight j (inode_at s ip) + weight j (f (inode_at s ip))).
Proof.
  intros I T Ef Eh Hip Hr Hok HL HL'. pose proof (inode_at_alter f ip s s' Hip Ef) as Ei. pose proof (fun ip' => inode_at_other f ip s s' ip' Ef) as Eo.
  split_and!; try done.
  2: { intros j. unfold refs. rewrite Ef. by apply total_weight_alter. }
  split; try done.
  - intros ip'. destruct (decide (ip' = ip)) as [->|Hne]; [by rewrite Ei|]. rewrite Eo by done. apply (ic_refs _ _ I).
  - intros ip'. destruct (decide (ip' = ip)) as [->|Hne]; [rewrite Ei; intros H; by apply Hok|]. rewrite Eo, HL by done. apply (ic_slot _ _ I).
  - intros a b. destruct (decide (a = ip)) as [->|Ha], (decide (b = ip)) as [->|Hb]; rewrite ?Ei, ?(Eo _ Ha), ?(Eo _ Hb); try done.
    + intros H1 H2 H3. exfalso. by apply (proj2 (Hok H1) b).
    + intros H1 H2 H3. exfalso. by apply (proj2 (Hok H2) a).
    + apply (ic_uniq _ _ I).
  - intros ip' E. destruct (decide (ip' = ip)) as [->|Hne]; [rewrite Ei; auto|]. rewrite Eo by done. apply (ic_locked _ _ I).
    specialize (HL ip' Hne). rewrite (bool_decide_eq_true_2 _ E) in HL. symmetry in HL. by apply bool_decide_eq_true in HL.
  - rewrite Eh. apply (ic_free _ _ I).
Qed.

Lemma at_tx_inodes s X : at_tx g d0 t0 lb lsize nblk v ∅ l s -> at_tx g d0 t0 lb lsize nblk v ∅ l (set_f_inode X s).
Proof. intros [T1 T2 T3 T4]. by split. Qed.

(** ** iget *)

Lemma iget_scan_spec d inum (ls : list inode) : (forall x, x ∈ ls -> 0 <= i_ref x) -> forall k empty,
  match iget_scan d inum ls k empty with
  | inl ip => exists x, (k <= ip)%nat /\ ls !! (ip - k)%nat = Some x /\ 0 < i_ref x /\ i_dev x = d /\ i_inum x = inum
  | inr r => (forall x, x ∈ ls -> 0 < i_ref x -> ~ (i_dev x = d /\ i_inum x = inum)) /\
      match r with
      | Some ip => empty = Some ip \/ exists x, (k <= ip)%nat /\ ls !! (ip - k)%nat = Some x /\ i_ref x = 0
      | None => empty = None /\ forall x, x ∈ ls -> i_ref x <> 0
      end
  end.
Proof.
  intros Hr. induction ls as [|x ls IH]; intros k empty; cbn [iget_scan].
  - split; [set_solver|]. destruct empty; [by left|]. split; [done|set_solver].
  - destruct ((0 <? i_ref x) && (i_dev x =? d) && (i_inum x =? inum)) eqn:E.
    { bool_hyps. exists x. rewrite Nat.sub_diag. by split_and!. }
    specialize (IH ltac:(intros; apply Hr; by right) (S k) (if bool_decide (empty = None) && (i_ref x =? 0) then Some k else empty)).
    assert (Hx : 0 < i_ref x -> ~ (i_dev x = d /\ i_inum x = inum)).
    { intros H1 [H2 H3]. by rewrite (proj2 (Z.ltb_lt _ _) H1), (proj2 (Z.eqb_eq _ _) H2), (proj2 (Z.eqb_eq _ _) H3) in E. }
    assert (Hsh : forall ip y, (S k <= ip)%nat -> ls !! (ip - S k)%nat = Some y -> (x :: ls) !! (ip - k)%nat = Some y) by (intros ip y H1 H2; by replace (ip - k)%nat with (S (ip - S k)) by lia).
    destruct (iget_scan d inum ls (S k) _) as [ip|[ip|]].
    + destruct IH as (y & H1 & H2 & H3). exists y. split_and!; try lia; try apply H3. by apply Hsh.
    + destruct IH as [H1 H2]. split; [intros y [->|Hy]%elem_of_cons; auto|]. destruct H2 as [H2|(y & H2 & H3 & H4)].
      * destruct (bool_decide (empty = None) && (i_ref x =? 0)) eqn:Ee; [|by left]. injection H2 as <-. apply andb_prop in Ee as [_ Ee]. apply Z.eqb_eq in Ee.
        right. exists x. rewrite Nat.sub_diag. by split_and!.
      * right. exists y. split_and!; [lia|by apply Hsh|done].
    + destruct IH as (H1 & H2 & H3). split; [intros y [->|Hy]%elem_of_cons; auto|].
      destruct empty as [e|]; [by destruct (_ && _)|]. split; [done|]. intros y [->|Hy]%elem_of_cons; [|by apply H3]. intros H0.
      by rewrite (proj2 (Z.eqb_eq _ _) H0) in H2.
Qed.

(** What the lookup of an inode keeps: the slots in use stay in use for their inodes, and the references are as told. *)
Definition grew s s' (f : Z -> Z) : Prop :=
  (forall ip, 0 < i_ref (inode_at s ip) -> i_inum (inode_at s' ip) = i_inum (inode_at s ip) /\ i_ref (inode_at s ip) <= i_ref (inode_at s' ip)) /\
  (forall j, refs s' j = refs s j + f j) /\ length (f_inode s') = length (f_inode s).

(** A slot for inode [j] with one more reference. *)
Definition got (L : option nat) (s : fsys B) (j : Z) (ip : nat) (s' : fsys B) : Prop :=
  icache L s' /\ i_inum (inode_at s' ip) = j /\ 0 < i_ref (inode_at s' ip) /\ grew s s' (fun k => if decide (k = j) then 1 else 0).

Definition one_more (i : inode) : inode := set_i_ref (i_ref i + 1) i.

Lemma icache_incr L s ip : icache L s -> 0 < i_ref (inode_at s ip) -> got L s (i_inum (inode_at s ip)) ip (set_f_inode (alter one_more ip (f_inode s)) s).
Proof.
  intros I Hl. set (s' := set_f_inode _ s).
  destruct (icache_step L L s s' ip one_more I (at_tx_inodes _ _ (ic_tx _ _ I)) eq_refl eq_refl (live_range _ _ Hl)) as (I' & E1 & E2 & E3); cbn [one_more set_i_ref i_ref i_inum]; try done; try lia.
  { intros _. split; [by destruct (ic_slot _ _ I ip Hl)|]. intros ip' Hne Hr Hi. apply Hne. by apply (ic_uniq _ _ I). }
  split; [done|]. rewrite E1. cbn [one_more set_i_ref i_ref i_inum]. split_and!; [done|lia|]. split_and!.
  - intros ip' Hl'. destruct (decide (ip' = ip)) as [->|Hne]; [rewrite E1; cbn; split; [done|lia]|rewrite E2 by done; split; [done|lia]].
  - intros k. rewrite E3. unfold weight. cbn [one_more set_i_ref i_ref i_inum]. rewrite !(proj2 (Z.ltb_lt 0 _)) by lia. cbn [andb].
    case_decide as Hk; [subst k; rewrite Z.eqb_refl; lia|]. rewrite (proj2 (Z.eqb_neq _ _)) by done. lia.
  - unfold s'. cbn. by rewrite length_alter.
Qed.

Definition recycled (j : Z) (i : inode) : inode := Inode 1 j 1 0 (i_d i).

Lemma icache_fresh L s ip j : icache L s -> used g v j -> (ip < length (f_inode s))%nat -> i_ref (inode_at s ip) = 0 ->
  (forall ip', 0 < i_ref (inode_at s ip') -> i_inum (inode_at s ip') <> j) -> got L s j ip (set_f_inode (alter (recycled j) ip (f_inode s)) s).
Proof.
  intros I Hj Hip Hr0 Hno. set (s' := set_f_inode _ s).
  assert (HL : bool_decide (L = Some ip) = false) by (apply bool_decide_eq_false; intros E; pose proof (ic_locked _ _ I ip E); lia).
  destruct (icache_step L L s s' ip (recycled j) I (at_tx_inodes _ _ (ic_tx _ _ I)) eq_refl eq_refl Hip) as (I' & E1 & E2 & E3); cbn [recycled i_ref i_inum]; try done; try lia.
  { intros _. split; [rewrite HL; split; try done; by left|]. intros ip' _. apply Hno. }
  split; [done|]. rewrite E1. cbn [recycled i_ref i_inum]. split_and!; [done|lia|]. split_and!.
  - intros ip' Hl. destruct (decide (ip' = ip)) as [->|Hne]; [lia|rewrite E2 by done; split; [done|lia]].
  - intros k. rewrite E3. unfold weight. cbn [recycled i_ref i_inum]. rewrite Hr0. change (0 <? 0) with false. change (0 <? 1) with true. cbn [andb].
    destruct (decide (k = j)) as [->|Hk]; [ rewrite Z.eqb_refl; lia|]. rewrite (proj2 (Z.eqb_neq _ _)) by done. lia.
  - unfold s'. cbn. by rewrite length_alter.
Qed.

(** The slots that the scan of [iget] passes over. *)
Lemma unseen L s j : icache L s -> (forall x, x ∈ f_inode s -> 0 < i_ref x -> ~ (i_dev x = 1 /\ i_inum x = j)) ->
  forall ip, 0 < i_ref (inode_at s ip) -> i_inum (inode_at s ip) <> j.
Proof.
  intros I Hno ip Hl Hi. destruct (lookup_lt_is_Some_2 _ _ (live_range s ip Hl)) as [y Hy]. pose proof (sl_dev _ _ (ic_slot _ _ I ip Hl)) as Hd.
  rewrite (inode_at_lookup _ _ _ Hy) in *. apply (Hno y); [by eapply list_elem_of_lookup_2|done|done].
Qed.

Lemma iget_runs L s j : icache L s -> used g v j -> (0 < refs s j \/ exists ip, (ip < length (f_inode s))%nat /\ i_ref (inode_at s ip) = 0) ->
  runs (iget 1 j) s (got L s j).
Proof.
  intros I Hj Hroom. pose proof (ic_free _ _ I) as Hh.
  assert (Hrun : forall ip f, iget_scan 1 j (f_inode s) 0 None = inl ip /\ f = one_more \/
    iget_scan 1 j (f_inode s) 0 None = inr (Some ip) /\ f = recycled j -> iget 1 j s = Ok ip (set_f_inode (alter f ip (f_inode s)) s)).
  { intros ip f Hc. transitivity ((acquire lk_icache ;;; seti ip f ;;; release lk_icache ;;; kret ip) s).
    - unfold iget, kbind. rewrite acquire_ok by done. unfold kgets. change (f_inode (set_held (lk_icache :: held s) s)) with (f_inode s).
      by destruct Hc as [[-> ->]|[-> ->]].
    - by rewrite icache_then. }
  assert (Hpos : forall x, x ∈ f_inode s -> 0 <= i_ref x).
  { intros x Hx. apply list_elem_of_lookup_1 in Hx as [ip Hip]. rewrite <- (inode_at_lookup _ _ _ Hip). apply (ic_refs _ _ I). }
  pose proof (iget_scan_spec 1 j (f_inode s) Hpos 0 None) as Hsc. destruct (iget_scan 1 j (f_inode s) 0 None) as [ip|[ip|]] eqn:Escan.
  - destruct Hsc as (x & _ & Hx & H1 & H2 & <-). rewrite Nat.sub_0_r in Hx. rewrite <- (inode_at_lookup _ _ _ Hx) in *.
    eapply runs_eq; [apply (Hrun ip one_more); by left|]. by apply icache_incr.
  - destruct Hsc as [Hno [?|(x & _ & Hx & Hr0)]]; [done|]. rewrite Nat.sub_0_r in Hx. rewrite <- (inode_at_lookup _ _ _ Hx) in Hr0.
    eapply runs_eq; [apply (Hrun ip (recycled j)); by right|]. apply icache_fresh; try done; [by eapply lookup_lt_Some|by eapply unseen].
  - exfalso. destruct Hsc as (Hno & _ & Hnz). destruct Hroom as [Hr|(ip & H1 & H2)].
    + apply refs_live in Hr as (ip & H1 & H2). by apply (unseen _ _ _ I Hno ip).
    + destruct (lookup_lt_is_Some_2 _ _ H1) as [y Hy]. rewrite (inode_at_lookup _ _ _ Hy) in H2. apply (Hnz y); [by eapply list_elem_of_lookup_2|done].
Qed.

Lemma idup_runs L s ip : icache L s -> 0 < i_ref (inode_at s ip) -> runs (idup ip) s (fun ip' s' => ip' = ip /\ got L s (i_inum (inode_at s ip)) ip s').
Proof.
  intros I Hl. eapply runs_eq; [unfold idup; rewrite (icache_then s one_more ip (kret ip)) by apply (ic_free _ _ I); done|]. split; [done|by apply icache_incr].
Qed.

(** The slots and the references are the same, only locks and the copies of the fields change. *)
Definition same_refs s s' : Prop :=
  (forall ip, i_inum (inode_at s' ip) = i_inum (inode_at s ip) /\ i_ref (inode_at s' ip) = i_ref (inode_at s ip)) /\
  (forall j, refs s' j = refs s j) /\ length (f_inode s') = length (f_inode s).

Lemma same_refs_grew s s' s'' f : same_refs s s' -> grew s' s'' f -> grew s s'' f.
Proof.
  intros (A1 & A2 & A3) (B1 & B2 & B3). split_and!; [|intros j; by rewrite B2, A2|congruence].
  intros ip. destruct (A1 ip) as [E1 E2]. rewrite <- E1, <- E2. apply B1.
Qed.

Lemma grew_same s s' s'' f : grew s s' f -> same_refs s' s'' -> grew s s'' f.
Proof.
  intros (B1 & B2 & B3) (A1 & A2 & A3). split_and!; [|intros j; by rewrite A2, B2|congruence].
  intros ip. destruct (A1 ip) as [-> ->]. apply B1.
Qed.

(** A slot changes its flags and its fields. *)
Lemma icache_touch L L' s s' ip f : icache L s -> at_tx g d0 t0 lb lsize nblk v ∅ l s' -> f_inode s' = alter f ip (f_inode s) -> held s' = held s ->
  0 < i_ref (inode_at s ip) -> i_ref (f (inode_at s ip)) = i_ref (inode_at s ip) -> i_inum (f (inode_at s ip)) = i_inum (inode_at s ip) ->
  slot_ok (bool_decide (L' = Some ip)) (f (inode_at s ip)) ->
  (forall ip', ip' <> ip -> bool_decide (L' = Some ip') = bool_decide (L = Some ip')) -> icache L' s' /\ same_refs s s'.
Proof.
  intros I T Ef Eh Hl Er En Hok HL. destruct (icache_step L L' s s' ip f I T Ef Eh (live_range _ _ Hl)) as (I' & E1 & E2 & E3); rewrite ?Er; try done; try lia.
  { intros _. split; [done|]. rewrite En. intros ip' Hne Hr Hi. apply Hne. by apply (ic_uniq _ _ I). }
  split; [done|]. split_and!.
  - intros ip'. destruct (decide (ip' = ip)) as [->|Hne]; [by rewrite E1|by rewrite E2].
  - intros j. rewrite E3. unfold weight. rewrite Er, En. lia.
  - by rewrite Ef, length_alter.
Qed.

Lemma lock_other (ip ip' : nat) : ip' <> ip -> bool_decide (Some ip = Some ip') = bool_decide (None = Some ip').
Proof. intros H. rewrite !bool_decide_eq_false_2; congruence. Qed.

Lemma alter_compose (f1 f2 : inode -> inode) ip (ls : list inode) : alter f2 ip (alter f1 ip ls) = alter (fun x => f2 (f1 x)) ip ls.
Proof. by rewrite list_alter_alter_eq. Qed.

(** [ilock] on an inode that has not been read yet. *)
Lemma ilock_invalid s ip : (ip < length (f_inode s))%nat -> 1 <= i_ref (inode_at s ip) -> i_flags (inode_at s ip) = 0 -> lk_icache ∉ held s ->
  ilock ip s = (let* bp := f_bread (i_dev (inode_at s ip)) (IBLOCK (i_inum (inode_at s ip))) in
    let* blk := f_data bp in
    setd ip (fun _ => get_dinode (dinode_off (i_inum (inode_at s ip))) blk) ;;;
    f_brelse bp ;;;
    seti ip (fun i => set_i_flags (Z.lor (i_flags i) I_VALID) i) ;;;
    let* t := geti ip (fun i => d_type (i_d i)) in
    if t =? 0 then kpanic "ilock: no type" else kret tt) (flagged 1 ip s).
Proof.
  intros H1 H2 H3 H4. unfold ilock, geti. unfold kbind at 1, kgets at 1. rewrite (proj2 (Z.ltb_ge _ _)) by lia.
  transitivity ((acquire lk_icache ;;; seti ip (fun i => set_i_flags (Z.lor (i_flags i) I_BUSY) i) ;;; release lk_icache ;;;
    let* i := kgets (fun s => inode_at s ip) in
    when negb (has (i_flags i) I_VALID) do
        (let* bp := f_bread (i_dev i) (IBLOCK (i_inum i)) in
         let* blk := f_data bp in
         setd ip (fun _ => get_dinode (dinode_off (i_inum i)) blk) ;;;
         f_brelse bp ;;;
         seti ip (fun i => set_i_flags (Z.lor (i_flags i) I_VALID) i) ;;;
         let* t := kgets (fun s => d_type (i_d (inode_at s ip))) in
         if t =? 0 then kpanic "ilock: no type" else kret tt)) s).
  { unfold kbind. rewrite acquire_ok by done. unfold kgets at 1.
    change (inode_at (set_held (lk_icache :: held s) s) ip) with (inode_at s ip). by rewrite H3. }
  rewrite icache_then by done. rewrite (flagged_eq s ip (fun x => Z.lor x I_BUSY) 0) by done.
  change (Z.lor 0 I_BUSY) with 1. fold (flagged 1 ip s). unfold kbind at 1, kgets at 1. by rewrite inode_at_flagged.
Qed.

Lemma ilock_runs s ip : icache None s -> 0 < i_ref (inode_at s ip) -> runs (ilock ip) s (fun _ s' => icache (Some ip) s' /\ same_refs s s').
Proof.
  intros I Hl. pose proof (live_range _ _ Hl) as Hip. pose proof (ic_slot _ _ I ip Hl) as [S1 S2 S3 S4]. rewrite bool_decide_eq_false_2 in S3 by done.
  pose proof (ic_free _ _ I) as Hh. pose proof (us_inum _ _ _ S2) as Hnum. destruct S3 as [S3|S3].
  - unfold runs. rewrite ilock_invalid by (done || lia). rewrite S1. set (i := i_inum (inode_at s ip)) in *. pose proof (iblock_range g i (fw_geom _ _ (fl_wf _ _ Hfiles)) Hnum) as Hb.
    destruct (fw_geom _ _ (fl_wf _ _ Hfiles)) as [G1 G2 G3]. set (s1 := flagged 1 ip s). set (Q := fun (_ : unit) s' => icache (Some ip) s' /\ same_refs s s').
    assert (T1 : at_tx g d0 t0 lb lsize nblk v ∅ l s1) by apply at_tx_inodes, I.
    apply (runs_bind (f_bread 1 (IBLOCK i)) _ s1 Q), (t_bread g d0 t0 lb lsize nblk v ∅ l); [done|lia|set_solver|done|]. intros b s2 T2 Hb2 K2.
    apply runs_bind, (t_data g d0 t0 lb lsize nblk v ({[IBLOCK i]} ∪ ∅) l s2 b (IBLOCK i)); [done|done|lia|]. fold (disk_inode v i).
    apply runs_bind, runs_mod, runs_bind. set (s3 := set_f_inode _ s2).
    apply (t_brelse g d0 t0 lb lsize nblk v ({[IBLOCK i]} ∪ ∅) l s3 b (IBLOCK i)); [by destruct T2|done|]. intros s4 T4 K4. replace (({[IBLOCK i]} ∪ ∅) ∖ {[IBLOCK i]}) with (∅ : gset Z) in T4 by set_solver.
    apply runs_bind, runs_mod. set (s5 := set_f_inode _ s4).
    set (f := fun x : inode => set_i_flags (Z.lor 1 I_VALID) (set_i_d (disk_inode v i) x)).
    assert (Ef : f_inode s5 = alter f ip (f_inode s)).
    { unfold s5. cbn [f_inode set_f_inode]. rewrite (proj1 K4). unfold s3. cbn [f_inode set_f_inode]. rewrite (proj1 K2). unfold s1, flagged. cbn [f_inode set_f_inode].
      rewrite !alter_compose. apply list_alter_ext; [|done]. intros x Hx. done. }
    assert (Eh : held s5 = held s).
    { change (held s5) with (held s4). rewrite (proj1 (proj2 K4)). change (held s3) with (held s2). rewrite (proj1 (proj2 K2)). done. }
    assert (E5 : inode_at s5 ip = f (inode_at s ip)) by (by apply inode_at_alter). apply runs_geti. rewrite E5. cbn [f set_i_flags set_i_d i_d].
    rewrite (proj2 (Z.eqb_neq _ _)) by apply S2. apply runs_ret.
    eapply (icache_touch None (Some ip) s s5 ip f); try done; [by apply at_tx_inodes| |by apply lock_other]. rewrite bool_decide_eq_true_2 by done. by split.
  - eapply runs_eq; [apply ilock_valid; by split; [|lia| |]|].
    eapply (icache_touch None (Some ip) s (flagged 3 ip s) ip (set_i_flags 3)); try done; [by apply at_tx_inodes, I| |by apply lock_other].
    rewrite bool_decide_eq_true_2 by done. split; try done. intros _. cbn. apply S4. by rewrite S3.
Qed.

(** ** iunlock and iput *)

Lemma iunlock_runs s ip : icache (Some ip) s -> runs (iunlock ip) s (fun _ s' => icache None s' /\ same_refs s s').
Proof.
  intros I. pose proof (ic_locked _ _ I ip eq_refl) as Hl. pose proof (ic_slot _ _ I ip Hl) as [S1 S2 S3 S4]. rewrite bool_decide_eq_true_2 in S3 by done.
  eapply runs_eq; [apply iunlock_busy; [by apply live_range|lia|done|apply (ic_free _ _ I)]|].
  eapply (icache_touch (Some ip) None s (flagged I_VALID ip s) ip (set_i_flags I_VALID)); try done; [apply at_tx_inodes, (ic_tx _ _ I)| |intros; symmetry; by apply lock_other].
  split; try done; [by right|]. intros _. cbn. apply S4. by rewrite S3.
Qed.

(** The references to an inode are those of its slot. *)
Lemma refs_slot L s ip : icache L s -> 0 < i_ref (inode_at s ip) -> refs s (i_inum (inode_at s ip)) = i_ref (inode_at s ip).
Proof.
  intros I Hl. set (j := i_inum (inode_at s ip)). pose proof (total_weight_alter j (set_i_ref 0) (f_inode s) ip (live_range s ip Hl)) as E.
  fold (inode_at s ip) in E. assert (E0 : total_weight j (alter (set_i_ref 0) ip (f_inode s)) = 0).
  { pose proof (total_weight_nonneg j (alter (set_i_ref 0) ip (f_inode s))). destruct (decide (0 < total_weight j (alter (set_i_ref 0) ip (f_inode s)))) as [Hp|]; [|lia].
    apply total_weight_pos in Hp as (a & x & Hx & H1 & H2). destruct (decide (a = ip)) as [->|Hne].
    - rewrite list_lookup_alter_eq in Hx. destruct (f_inode s !! ip); [|done]. injection Hx as <-. cbn in H1. lia.
    - rewrite list_lookup_alter_ne in Hx by done. exfalso. apply Hne. pose proof (inode_at_lookup _ _ _ Hx) as Ex. apply (ic_uniq _ _ I); by rewrite ?Ex. }
  rewrite E0 in E. unfold refs, weight in *. cbn [set_i_ref i_ref] in E. rewrite (proj2 (Z.ltb_lt 0 (i_ref (inode_at s ip)))), Z.eqb_refl in E by done.
  change (0 <? 0) with false in E. cbn [andb] in E. lia.
Qed.

(** No slot in use changes hands while its inode is referenced. *)
Definition moved s s' : Prop :=
  (forall ip, 0 < i_ref (inode_at s ip) -> 0 < refs s' (i_inum (inode_at s ip)) -> i_inum (inode_at s' ip) = i_inum (inode_at s ip) /\ 0 < i_ref (inode_at s' ip)) /\
  length (f_inode s') = length (f_inode s).

Lemma same_moved s s' : same_refs s s' -> moved s s'.
Proof. intros (A1 & A2 & A3). split; [|done]. intros ip. by destruct (A1 ip) as [-> ->]. Qed.

Lemma grew_moved s s' f : grew s s' f -> moved s s'.
Proof. intros (A1 & A2 & A3). split; [|done]. intros ip Hl _. destruct (A1 ip Hl). split; [done|lia]. Qed.

(** Dropping a reference to an inode that has a link, or to which there is another reference, never frees it. *)
Lemma iput_runs s ip : icache None s -> 0 < i_ref (inode_at s ip) -> d_nlink (disk_inode v (i_inum (inode_at s ip))) <> 0 \/ 1 < refs s (i_inum (inode_at s ip)) ->
  runs (iput ip) s (fun _ s' => icache None s' /\ moved s s' /\ forall j, refs s' j = refs s j - if decide (j = i_inum (inode_at s ip)) then 1 else 0).
Proof.
  intros I Hl Hk. pose proof (ic_slot _ _ I ip Hl) as [S1 S2 S3 S4]. rewrite bool_decide_eq_false_2 in S3 by done. pose proof (ic_free _ _ I) as Hh. pose proof (refs_slot _ _ _ I Hl) as Hrs.
  set (f := fun i => set_i_ref (i_ref i - 1) i). apply (runs_eq _ _ tt (set_f_inode (alter f ip (f_inode s)) s)).
  - rewrite <- (icache_section s f ip Hh). unfold iput, kbind. rewrite acquire_ok by done. unfold geti, kgets.
    change (inode_at (set_held (lk_icache :: held s) s) ip) with (inode_at s ip).
    assert (E : (i_ref (inode_at s ip) =? 1) && has (i_flags (inode_at s ip)) I_VALID && (d_nlink (i_d (inode_at s ip)) =? 0) = false).
    { destruct Hk as [Hk|Hk]; [|by rewrite (proj2 (Z.eqb_neq _ 1)) by lia]. destruct S3 as [S3|S3]; [rewrite S3; by rewrite andb_false_r|]. rewrite S4 by (by rewrite S3). rewrite (proj2 (Z.eqb_neq _ 0)) by done. apply andb_false_r. }
    by rewrite E.
  - set (s' := set_f_inode _ s).
    destruct (icache_step None None s s' ip f I (at_tx_inodes _ _ (ic_tx _ _ I)) eq_refl eq_refl (live_range _ _ Hl)) as (I' & E1 & E2 & E3); cbn [f set_i_ref i_ref i_inum]; try done; try lia.
    { intros _. split; [split; try done; by rewrite bool_decide_eq_false_2|]. intros ip' Hne Hr Hi. apply Hne. by apply (ic_uniq _ _ I). }
    assert (Er : forall j, refs s' j = refs s j - if decide (j = i_inum (inode_at s ip)) then 1 else 0).
    { intros j. rewrite E3. unfold weight. cbn [f set_i_ref i_ref i_inum]. rewrite (proj2 (Z.ltb_lt 0 (i_ref (inode_at s ip)))) by done. cbn [andb].
      case_decide as Hj; [subst j; rewrite Z.eqb_refl, andb_true_r|rewrite (proj2 (Z.eqb_neq _ _)), andb_false_r by done; lia]. destruct (0 <? _) eqn:Ep; bool_hyps; lia. }
    split_and!; [done| |done]. split; [|unfold s'; cbn; by rewrite length_alter].
    intros a Ha Hp. destruct (decide (a = ip)) as [->|Hne]; [|by rewrite E2]. rewrite E1. cbn [f set_i_ref i_ref i_inum]. split; [done|]. rewrite Er, decide_True in Hp by done. lia.
Qed.

(** ** dirlookup *)

Lemma icache_kept L H s s' : icache L s -> at_tx g d0 t0 lb lsize nblk v ∅ l s' -> kept H s s' -> icache L s' /\ same_refs s s'.
Proof.
  intros [I1 I2 I3 I4 I5 I6] T (Ei & Eh & _). assert (E : forall ip, inode_at s' ip = inode_at s ip) by (intros; unfold inode_at; by rewrite Ei).
  split; [split; try done|split_and!].
  - intros. rewrite E. apply I2.
  - intros. rewrite E in *. by apply I3.
  - intros ip ip'. rewrite !E. apply I4.
  - intros. rewrite E. by apply I5.
  - by rewrite Eh.
  - intros. by rewrite E.
  - intros. unfold refs. by rewrite Ei.
  - by rewrite Ei.
Qed.

Lemma locked_ino s ip : icache (Some ip) s -> has_ino s ip (disk_inode v (i_inum (inode_at s ip))) /\ used g v (i_inum (inode_at s ip)).
Proof.
  intros I. pose proof (ic_locked _ _ I ip eq_refl) as Hl. pose proof (ic_slot _ _ I ip Hl) as [S1 S2 S3 S4]. rewrite bool_decide_eq_true_2 in S3 by done.
  split; [|done]. split_and!; [by apply live_range|done|]. apply S4. by rewrite S3.
Qed.

Lemma locked_open s ip : icache (Some ip) s -> d_type (disk_inode v (i_inum (inode_at s ip))) <> T_DEV -> open_ino g v s ip (i_inum (inode_at s ip)).
Proof. intros I Ht. destruct (locked_ino s ip I) as (H1 & [H2 H3]). by split. Qed.

Lemma same_refs_refl s : same_refs s s.
Proof. done. Qed.

Lemma same_refs_trans s1 s2 s3 : same_refs s1 s2 -> same_refs s2 s3 -> same_refs s1 s3.
Proof.
  intros (A1 & A2 & A3) (B1 & B2 & B3). split_and!; [|intros; by rewrite B2|congruence]. intros ip. destruct (A1 ip) as [<- <-]. apply B1.
Qed.

Variable devsw_read : Z -> option (nat -> Z -> K (fsys B) (Z * list Z)).
Hypothesis (Hdirs : dirs_ok g v).

(** Room for one more inode. *)
Definition room s : Prop := exists ip, (ip < length (f_inode s))%nat /\ i_ref (inode_at s ip) = 0.

Lemma same_refs_room s s' : same_refs s s' -> room s -> room s'.
Proof. intros (A1 & A2 & A3) (ip & H1 & H2). exists ip. destruct (A1 ip) as [_ ->]. by rewrite A3. Qed.

Definition looked_up s0 ip (r : option (Z * Z)) (res : option (nat * Z)) s' : Prop :=
  icache (Some ip) s' /\
  match r with
  | None => res = None /\ same_refs s0 s'
  | Some (j, off) => exists ip', res = Some (ip', off) /\ i_inum (inode_at s' ip') = j /\ 0 < i_ref (inode_at s' ip') /\ grew s0 s' (fun k => if decide (k = j) then 1 else 0)
  end.

Lemma dirlookup_loop s0 ip i name offs : i = i_inum (inode_at s0 ip) -> d_type (disk_inode v i) = T_DIR -> room s0 -> d_size (disk_inode v i) <= 71680 ->
  (forall off, off ∈ offs -> (0 <= off /\ off + SIZEOF_DIRENT <= d_size (disk_inode v i)) /\ let j := de_inum (dir_entry (content v (disk_inode v i)) off) in j <> 0 -> linked g v j) ->
  forall s, icache (Some ip) s -> same_refs s0 s ->
  runs (for_first offs (fun off =>
      let* (r, de) := readi devsw_read ip off SIZEOF_DIRENT in
      if negb (r =? SIZEOF_DIRENT) then kpanic "dirlink read"
      else if de_inum de =? 0 then kret None
      else if namecmp name (de_name de) =? 0 then
        let* ip := iget 1 (de_inum de) in
        kret (Some (ip, off))
      else kret None)) s (looked_up s0 ip (scan_dir (content v (disk_inode v i)) offs name)).
Proof.
  intros -> Hty Hroom Hmax Hoffs. set (i := i_inum (inode_at s0 ip)) in *. induction offs as [|off offs IH]; intros s I Hs; cbn [for_first scan_dir]; [by apply runs_ret|].
  destruct (Hoffs off ltac:(left)) as [Hoff Hlk]. specialize (IH ltac:(intros; apply Hoffs; by right)). pose proof (locked_open _ _ I) as O. rewrite (proj1 (proj1 Hs ip)) in O. fold i in O. rewrite Hty in O. specialize (O ltac:(done)).
  assert (Hd : SIZEOF_DIRENT = 16) by done. apply runs_bind, runs_bind.
  apply (t_readi g d0 t0 lb lsize nblk devsw_read v l s ip i off SIZEOF_DIRENT); [apply I|done|done|done|unfold is_uint; lia|unfold is_uint; lia|].
  intros s1 T1 K1. destruct (icache_kept _ _ _ _ I T1 K1) as [I1 R1]. pose proof (same_refs_trans _ _ _ Hs R1) as Hs1.
  rewrite (proj2 (Z.ltb_ge _ off)), (proj2 (Z.leb_gt _ (off + _))) by lia. cbn [orb]. fold (dir_entry (content v (disk_inode v i)) off). set (de := dir_entry _ off) in *.
  assert (Hlen : length de = 16%nat) by (unfold de, dir_entry, read_file; rewrite length_take, length_drop, length_content; lia).
  rewrite Hlen. cbn [negb Z.eqb Z.of_nat]. change (negb (16 =? SIZEOF_DIRENT)) with false. cbn iota.
  destruct (de_inum de =? 0) eqn:E0; [apply runs_ret; by apply IH|]. apply Z.eqb_neq in E0. cbn [orb].
  destruct (namecmp name (de_name de) =? 0); cbn [negb]; [|apply runs_ret; by apply IH].
  apply runs_bind. eapply runs_conseq; [apply (iget_runs (Some ip) s1 (de_inum de)); [done|by apply lk_used, Hlk|right; by eapply same_refs_room]|].
  intros ip' s2 (I2 & E2 & L2 & G2). apply runs_ret, runs_ret. split; [done|]. exists ip'. split_and!; try done. by eapply same_refs_grew.
Qed.

Lemma dirlookup_runs s ip name : icache (Some ip) s -> room s -> d_type (disk_inode v (i_inum (inode_at s ip))) = T_DIR ->
  runs (dirlookup devsw_read ip name) s (looked_up s ip (dir_find (content v (disk_inode v (i_inum (inode_at s ip)))) name)).
Proof.
  intros I Hroom Ht. pose proof (locked_ino _ _ I) as ((H1 & H2 & H3) & [H5 H6]). unfold dirlookup. apply runs_geti. rewrite H2, H3, Ht. cbn [negb Z.eqb].
  change (negb (T_DIR =? T_DIR)) with false. cbn iota. pose proof (fl_file _ _ Hfiles _ H5 H6) as F. pose proof (iw_size _ _ _ F) as Hsz. change (MAXFILE * BSIZE) with 71680 in Hsz.
  assert (Hnn : 0 <= d_size (disk_inode v (i_inum (inode_at s ip)))) by apply (iw_typed _ _ _ F).
  destruct (Hdirs _ H5 Ht) as [Hm Hlk]. unfold dir_find. rewrite length_content, Z2Nat.id by lia.
  apply dirlookup_loop; try done; try lia. intros off Hoff. split; [by apply dir_offsets_range; [lia| |]|by apply Hlk].
Qed.

(** ** namex *)

(** How often an inode occurs in a list of references. *)
Fixpoint cnt (j : Z) (own : list Z) : Z :=
  match own with
  | [] => 0
  | i :: own' => (if decide (j = i) then 1 else 0) + cnt j own'
  end.

Lemma cnt_nonneg j own : 0 <= cnt j own.
Proof. induction own as [|i own IH]; cbn; [done|]. case_decide; lia. Qed.

(** Since [s0] this thread has taken the references [own], and all the others are as they were, in their slots. *)
Definition since s0 (own : list Z) s : Prop :=
  (forall j, refs s j = refs s0 j + cnt j own) /\
  (forall ip, 0 < i_ref (inode_at s0 ip) -> i_inum (inode_at s ip) = i_inum (inode_at s0 ip) /\ 0 < i_ref (inode_at s ip)) /\
  length (f_inode s) = length (f_inode s0).

Lemma since_step s0 own own' s s' : since s0 own s -> moved s s' -> (forall j, refs s' j = refs s j + cnt j own' - cnt j own) -> since s0 own' s'.
Proof.
  intros (A1 & A2 & A3) (M1 & M2) Hr. assert (Hr' : forall j, refs s' j = refs s0 j + cnt j own') by (intros j; rewrite Hr, A1; lia).
  split_and!; [done| |congruence]. intros ip Hl. destruct (A2 ip Hl) as [E1 E2]. rewrite <- E1. apply M1; [done|]. rewrite Hr', E1.
  pose proof (cnt_nonneg (i_inum (inode_at s0 ip)) own'). enough (0 < refs s0 (i_inum (inode_at s0 ip))) by lia. apply refs_live. by exists ip.
Qed.

Lemma since_same s0 own s s' : since s0 own s -> same_refs s s' -> since s0 own s'.
Proof. intros A R. eapply since_step; [done|by apply same_moved|]. intros j. rewrite (proj1 (proj2 R)). lia. Qed.

(** An inode that does not vanish when this thread drops a reference: it has a link or was in use before. *)
Definition stays s0 (i : Z) : Prop := d_nlink (disk_inode v i) <> 0 \/ 0 < refs s0 i.

Lemma stays_since s0 i own s : stays s0 i -> since s0 (i :: own) s -> d_nlink (disk_inode v i) <> 0 \/ 1 < refs s i.
Proof. intros [H|H] (A & _); [by left|right]. rewrite A. cbn [cnt]. rewrite decide_True by done. pose proof (cnt_nonneg i own). lia. Qed.

(** The inodes referenced before are in [X], and there is room for two more. *)
Definition spare s0 : Prop := exists X : gset Z, (forall j, 0 < refs s0 j -> j ∈ X) /\ (size X + 2 <= length (f_inode s0))%nat.

Lemma since_room s0 L i s : spare s0 -> icache L s -> since s0 [i] s -> room s.
Proof.
  intros (X & HX & Hsz) I (A1 & _ & A3). apply (free_slot s L ({[ i ]} ∪ X)); [done| |].
  - intros j. rewrite A1. cbn [cnt]. case_decide; [set_solver|]. intros Hj. apply elem_of_union_r, HX. lia.
  - rewrite A3. pose proof (size_union_alt {[ i ]} X) as E. rewrite size_singleton in E. pose proof (subseteq_size (X ∖ {[ i ]}) X ltac:(set_solver)). lia.
Qed.

Lemma iunlockput_runs s0 own s ip i : icache (Some ip) s -> i_inum (inode_at s ip) = i -> stays s0 i -> since s0 (i :: own) s ->
  runs (iunlockput ip) s (fun _ s' => icache None s' /\ since s0 own s' /\
    forall a j, i_inum (inode_at s a) = j -> 0 < i_ref (inode_at s a) -> 0 < cnt j own -> i_inum (inode_at s' a) = j /\ 0 < i_ref (inode_at s' a)).
Proof.
  intros I <- Hst A. pose proof (ic_locked _ _ I ip eq_refl) as Hl. unfold iunlockput. apply runs_bind. eapply runs_conseq; [by apply iunlock_runs|]. intros ? s1 (I1 & R1).
  pose proof (since_same _ _ _ _ A R1) as A1. destruct (proj1 R1 ip) as [E1 E2].
  eapply runs_conseq; [apply iput_runs; [done|by rewrite E2|rewrite E1; by eapply stays_since]|]. intros ? s2 (I2 & M2 & Er). rewrite E1 in Er.
  assert (A2 : since s0 own s2) by (eapply since_step; [done|done|]; intros j; rewrite Er; cbn [cnt]; lia).
  split_and!; [done|done|]. intros b j Ha Hla Hc. destruct (proj1 R1 b) as [F1 F2]. rewrite <- Ha, <- F1. apply M2; [by rewrite F2|]. rewrite F1, Ha, (proj1 A2).
  pose proof (total_weight_nonneg j (f_inode s0)) as Hn. fold (refs s0 j) in Hn. lia.
Qed.

(** The result of a lookup in the inode cache: one reference to the inode, or none. *)
Definition found s0 (want : option Z) (r : option nat) s : Prop :=
  icache None s /\
  match want with
  | None => r = None /\ since s0 [] s
  | Some j => exists ip, r = Some ip /\ i_inum (inode_at s ip) = j /\ 0 < i_ref (inode_at s ip) /\ since s0 [j] s
  end.

Definition named (parent : bool) (els : list (list Z)) (r : option nat) (name : list Z) : Prop := parent = true -> r <> None -> exists e, last els = Some e /\ names name e.

Lemma namex_loop_runs s0 parent fuel : spare s0 -> forall path name ip i s, (length path < fuel)%nat -> (0 ∉ path) -> icache None s -> since s0 [i] s ->
  i_inum (inode_at s ip) = i -> stays s0 i -> 0 < i_ref (inode_at s ip) ->
  runs (namex_loop devsw_read path name parent ip fuel) s (fun r s' => found s0 (resolve parent v i (elements path)) r.1 s' /\ named parent (elements path) r.1 r.2).
Proof.
  intros Hsp. induction fuel as [|fuel IH]; intros path name ip i s Hfuel H0 I A Hi Hst Hl; [lia|]. cbn [namex_loop].
  pose proof (skipelem_spec path name H0) as Hk. destruct (skipelem path name) as [[path' name']|].
  2: { rewrite Hk. destruct parent; cbn [resolve].
    - apply runs_bind. eapply runs_conseq; [apply iput_runs; [done|done|rewrite Hi; by eapply stays_since]|]. intros ? s1 (I1 & M1 & Er). apply runs_ret. split; [|by intros ? ?]. split; [done|]. split; [done|].
      eapply since_step; [done|done|]. intros j. rewrite Er, Hi. cbn [cnt]. lia.
    - apply runs_ret. split; [|by intros ?]. split; [done|]. by exists ip. }
  destruct Hk as (e & El & Hn & Hlen & H0' & Hnil). rewrite El, resolve_cons.
  apply runs_bind. eapply runs_conseq; [by apply ilock_runs|]. intros ? s1 (I1 & R1). pose proof (since_same _ _ _ _ A R1) as A1. destruct (proj1 R1 ip) as [E1 E2].
  destruct (locked_ino _ _ I1) as (O1 & [U1 _]). rewrite E1, Hi in O1, U1. destruct O1 as (_ & _ & Hd). apply runs_geti. rewrite Hd.
  destruct (d_type (disk_inode v i) =? T_DIR) eqn:Et; cbn [negb].
  2: { apply runs_bind. eapply runs_conseq; [apply (iunlockput_runs s0 [] s1 ip i); [done|congruence|done|done]|]. intros ? s2 (I2 & A2 & _). apply runs_ret. split; [by split|by intros ? ?]. }
  apply Z.eqb_eq in Et. replace (bool_decide (elements path' = [])) with (bool_decide (path' = [])).
  2: { apply bool_decide_ext. split; [by intros ->|done]. }
  destruct (parent && bool_decide (path' = [])) eqn:Ep.
  { apply runs_bind. eapply runs_conseq; [by apply iunlock_runs|]. intros ? s2 (I2 & R2). apply runs_ret. destruct (proj1 R2 ip) as [F1 F2]. split.
    - split; [done|]. exists ip. split_and!; [done|congruence|cbn [fst]; lia|by eapply since_same].
    - intros _ _. exists e. apply andb_prop in Ep as [_ Ep]. apply bool_decide_eq_true in Ep. by subst path'. }
  apply runs_bind. eapply runs_conseq; [apply (dirlookup_runs s1 ip name'); [done|by eapply since_room|by rewrite E1, Hi]|]. intros r s2 (I2 & Hr). rewrite E1, Hi in Hr.
  unfold dir_find in Hr at 1. rewrite (scan_dir_names _ _ _ e Hn) in Hr. fold (dir_find (content v (disk_inode v i)) e) in Hr.
  destruct (dir_find (content v (disk_inode v i)) e) as [[j off]|] eqn:Ed.
  - destruct Hr as (next & -> & Hj & Hlj & G). assert (A2 : since s0 [i; j] s2).
    { eapply since_step; [exact A1|by eapply grew_moved|]. intros k. rewrite (proj1 (proj2 G)). cbn [cnt]. lia. }
    assert (Ei2 : i_inum (inode_at s2 ip) = i) by (rewrite (proj1 (proj1 G ip ltac:(lia))); congruence).
    apply runs_bind. eapply runs_conseq; [by apply (iunlockput_runs s0 [j] s2 ip i)|]. intros ? s3 (I3 & A3 & Hs).
    destruct (Hs next j Hj Hlj) as [Hj3 Hl3]; [cbn [cnt]; rewrite decide_True by done; lia|].
    assert (Hlk : linked g v j).
    { unfold dir_find in Ed. eapply (scan_dir_linked g v i); [|exact Ed]. rewrite length_content, Z2Nat.id by apply (iw_typed _ _ _ (fl_file _ _ Hfiles i U1 ltac:(by rewrite Et))). apply (Hdirs i U1 Et). }
    eapply runs_conseq; [apply (IH path' name' next j s3); [lia|done|done|done|done|left; apply Hlk|done]|]. intros [r nm] s4 [F4 N4]. split; [done|]. cbn [fst snd] in *.
    intros Hp Hne. destruct (N4 Hp Hne) as (e' & He' & Hn'). exists e'. split; [|done]. destruct (elements path'); [done|]. by rewrite last_cons_cons.
  - destruct Hr as [-> R2]. apply runs_bind. destruct (proj1 R2 ip) as [F1 F2].
    eapply runs_conseq; [apply (iunlockput_runs s0 [] s2 ip i); [done|congruence|done|by eapply since_same]|]. intros ? s3 (I3 & A3 & _). apply runs_ret. split; [by split|by intros ? ?].
Qed.

(** Where a path starts. *)
Definition start_of s (cwd : nat) (path : list Z) : Z := if hd 0 path =? slash then ROOTINO else i_inum (inode_at s cwd).

Lemma got_since s j ip s' : got None s j ip s' -> since s [j] s'.
Proof.
  intros (I & E & Hl & G). apply (since_step s [] [j] s s'); [|by eapply grew_moved|].
  - split_and!; try done. intros k. cbn. lia.
  - intros k. rewrite (proj1 (proj2 G)). cbn [cnt]. lia.
Qed.

Lemma namex_runs s cwd path parent name : icache None s -> spare s -> (0 ∉ path) -> linked g v ROOTINO -> (hd 0 path <> slash -> 0 < i_ref (inode_at s cwd)) ->
  runs (namex devsw_read cwd path parent name) s (fun r s' => found s (resolve parent v (start_of s cwd path) (elements path)) r.1 s' /\ named parent (elements path) r.1 r.2).
Proof.
  intros I Hsp H0 Hroot Hcwd. unfold namex. apply runs_bind. eapply (runs_conseq _ s _ (got None s (start_of s cwd path))).
  - unfold start_of. destruct (hd 0 path =? slash) eqn:Eh.
    + apply iget_runs; [done|apply Hroot|]. right. destruct Hsp as (X & HX & Hsz). apply (free_slot s None X); [done|done|lia].
    + apply Z.eqb_neq in Eh. eapply runs_conseq; [apply (idup_runs None s cwd); auto|]. by intros ? s' (-> & G).
  - intros ip s1 G. pose proof (got_since _ _ _ _ G) as A. destruct G as (I1 & E1 & L1 & _). apply namex_loop_runs; try done; [lia|]. unfold start_of, stays. destruct (hd 0 path =? slash) eqn:Eh; [left; apply Hroot|right].
    apply Z.eqb_neq in Eh. apply refs_live. exists cwd. auto.
Qed.
End cache.

(** C7: path lookup.  Let the files be well formed, the inode cache consistent with the disk, with no inode locked and two slots to spare; let directories
    be arrays of entries that name allocated inodes (files, directories or devices) with a link count other than 0, the root be such an inode, the path hold no zero byte and start at the root or at a
    current directory in use, and let a buffer be free to read with.  Then [namex] returns, without a
    panic and without a change to the files.  It returns the inode the path names on the disk, or for [nameiparent] the directory of its
    last element, with that element in [name]; or 0 where an element is missing or its directory is no directory.
    The cache stays consistent with no inode locked; the caller has one more reference to the result, and every other
    reference stays as it was, in its slot. *)
Theorem namex_correct {B} {OPS : BufferOps B} {BC : BufferCache B} g d0 t0 lb lsize nblk l v devsw_read (s : fsys B) cwd path parent name :
  fits ∅ l -> files_wf g v -> dirs_ok g v -> linked g v ROOTINO ->
  icache g d0 t0 lb lsize nblk l v None s -> spare s -> (0 ∉ path) -> (hd 0 path <> slash -> 0 < i_ref (inode_at s cwd)) ->
  let want := resolve parent v (start_of s cwd path) (elements path) in
  runs (namex devsw_read cwd path parent name) s (fun r s' =>
    icache g d0 t0 lb lsize nblk l v None s' /\
    (forall ip, 0 < i_ref (inode_at s ip) -> i_inum (inode_at s' ip) = i_inum (inode_at s ip) /\ 0 < i_ref (inode_at s' ip)) /\
    (forall j, refs s' j = refs s j + if decide (want = Some j) then 1 else 0) /\
    match want with
    | None => r.1 = None
    | Some j => exists ip, r.1 = Some ip /\ i_inum (inode_at s' ip) = j /\ 0 < i_ref (inode_at s' ip) /\
        (parent = true -> exists e, last (elements path) = Some e /\ names r.2 e)
    end).
Proof.
  intros Hf Hw Hd Hr I Hsp H0 Hcwd want. eapply runs_conseq; [by apply (namex_runs g d0 t0 lb lsize nblk l v Hf Hw devsw_read Hd s cwd path parent name)|].
  fold want. intros [r nm] s' [[I' F] N]. split; [done|]. cbn [fst snd] in *. destruct want as [j|].
  - destruct F as (ip & -> & E1 & E2 & A1 & A2 & _). split; [exact A2|]. split; [|exists ip; split_and!; try done; intros Hp; by apply N].
    intros k. rewrite A1. cbn [cnt]. destruct (decide (k = j)) as [->|Hk]; [by rewrite decide_True|]. rewrite decide_False; [done|congruence].
  - destruct F as (-> & A1 & A2 & _). split; [exact A2|]. split; [|done]. intros k. rewrite A1. cbn [cnt]. by rewrite decide_False.
Qed.
