(* ===== verification/FileRwSpec.v ===== *)
(** * Files are byte arrays that survive crashes

    The theorems on [filewrite] and [fileread] over the whole stack: the file table, the inodes and the
    bitmap of fs.c, the log of log.c and the buffer cache of bio.c on the memory disk. *)

From S2P Require Import Prelude Kalloc Proc Bio BufferCache BioSpec Bytes Log LogSpec LogCrash Fs FsLayout FsSpec Pipe File FileRw.

(** The blocks of the file that the bytes from [off] to [off + n] are in. *)
Definition blocks_of (off n : Z) : list Z := if 0 <? n then seqZ (off / BSIZE) ((off + n - 1) / BSIZE - off / BSIZE + 1) else [].

Lemma blocks_of_covers off n : 0 <= off -> off + n <= MAXFILE * BSIZE -> covers (blocks_of off n) off n.
Proof.
  intros Hoff Hmax. change (MAXFILE * BSIZE) with 71680 in Hmax. unfold blocks_of. destruct (0 <? n) eqn:E; bool_hyps.
  - split_and!.
    + apply NoDup_seqZ.
    + apply Forall_forall. intros x Hx%elem_of_seqZ. unfold in_file, BSIZE in *. change MAXFILE with 140. mlia.
    + intros k Hk. apply elem_of_seqZ. unfold BSIZE. mlia.
  - split_and!; [constructor|constructor|lia].
Qed.

Section bio.
Variables (g : geom) (lsize : Z).
Implicit Types (w : fls bst * kstate).

Definition disk_of w : disk := b_disk (l_bc (f_log (x_fs w.1))).
Definition cache_of w : bst := l_bc (f_log (x_fs w.1)).

(** A kernel at rest whose disk holds well-formed files. *)
Record rested w : Prop := {
  re_rest : at_rest g lsize (b_size (cache_of w)) (disk_of w) (bio_abs (cache_of w)) (x_fs w.1);
  re_files : files_wf g (disk_of w);
  re_place : sb_places (disk_of w) (g_start g) lsize;
  re_lsize : 10 <= lsize
}.

(** The open file [f] is inode [i]. *)
Record opened w (f : nat) (i : Z) : Prop := {
  op_range : (f < length (x_file w.1))%nat;
  op_type : fi_type (file_at w f) = FD_INODE;
  op_ino : open_file g (disk_of w) (x_fs w.1) (fi_ip (file_at w f)) i;
  op_off : 0 <= fi_off (file_at w f) <= d_size (disk_inode (disk_of w) i)
}.
End bio.

(** C1: [filewrite] writes all [n] bytes at the offset of the file: the file's content has them in place, every other
    file is what it was, the disk has the result, and the offset has moved.  Its transactions fit
    the log, and if the machine stops anywhere in its disk writes, the next boot finds the files as they are
    after some whole number of the transactions. *)
Theorem filewrite_correct g lsize devsw_write killed f i addr n (w : fls bst * kstate) junk :
  let off := fi_off (file_at w f) in let old := disk_of w in
  rested g lsize w -> opened g w f i -> fi_writable (file_at w f) <> 0 ->
  0 <= n <= Z.of_nat (length addr) -> off + n <= MAXFILE * BSIZE -> bytes_ok addr ->
  (need old (disk_inode old i) (blocks_of off n) <= nfree g old)%nat ->
  runs (filewrite devsw_write killed f addr n) w (fun r w' => r = n /\ file_at w' f = set_fi_off (off + n) (file_at w f) /\
    exists tr new, b_trace (cache_of w') = b_trace (cache_of w) ++ tr /\
    write_file g old new i off addr n /\ home_eq (g_start g) (disk_of w') new /\
    forall p, p `prefix_of` tr -> runs boot (boot_state junk (apply_writes p old) (b_size (cache_of w))) (fun _ s2 =>
      exists j u, 0 <= j <= n /\ (j = n \/ j mod FILEWRITE_MAX = 0) /\ write_file g old u i off addr j /\
        home_eq (g_start g) (view (l_bc s2)) u)).
Proof.
  intros off old [R W P Hls] [Hf Ht O Ho] Hw Hn Hmax Hb Hneed. fold off old in O, Ho, W, R, P. destruct O as [O1 O2].
  eapply (filewrite_runs g lsize (b_size (cache_of w)) devsw_write (blocks_of off n)) with (ip := fi_ip (file_at w f)) (v := old) (c := bio_abs (cache_of w)) (off := off);
    try done; try lia; [apply blocks_of_covers; [lia|done]|apply O1|apply O1|].
  intros w' v' c' ws [R' WF' O' _ HT _ HTr HD HC]. split; [done|]. split; [by apply (file_at_alter _ f w)|].
  destruct (tx_at _ _ _ _ _ _ (ar_quiet _ _ _ _ _ _ R')) as [_ (A1 & A2 & _ & A4 & _)].
  exists ws, v'. split; [etrans; [exact A4|exact HTr]|]. split; [done|].
  split; [intros m Hm; etrans; [apply A2|by apply (at_rest_disk _ _ _ _ _ _ R')]|].
  intros p Hp. destruct (HC p Hp) as ((l & u & HW) & Hone & v & (j & J1 & J2 & J3) & Hv).
  pose proof (bmb_ge _ (fw_geom _ _ (fl_wf _ _ W))). destruct (fw_geom _ _ (fl_wf _ _ W)) as [G1 G2 G3].
  eapply runs_conseq; [apply (boot_runs junk _ _ l u (g_start g) lsize)|].
  - unfold sb_places. change (c_disk (bio_abs (cache_of w))) with old in Hone. by rewrite Hone.
  - lia.
  - lia.
  - pose proof (tx_size _ _ _ _ _ _ (ar_quiet _ _ _ _ _ _ R)) as Hs. rewrite (ar_start _ _ _ _ _ _ R), (ar_lsize _ _ _ _ _ _ R) in Hs. exact Hs.
  - exact HW.
  - intros [] s2 Hs2. exists j, v. split_and!; try done; try lia. intros m Hm. rewrite (Hs2 m Hm). by apply Hv.
Qed.

Lemma read_splice (src c : list Z) off n : 0 <= off <= Z.of_nat (length c) -> 0 <= n <= Z.of_nat (length src) ->
  read_file (splice (Z.to_nat off) (take (Z.to_nat n) src) c) off n = take (Z.to_nat n) src.
Proof.
  intros Hoff Hn. unfold read_file, splice. rewrite drop_app_length' by (rewrite length_take; lia).
  rewrite take_app_length'; [done|]. rewrite length_take. lia.
Qed.

(** C3: what [filewrite] has written through one open file, [fileread] returns through another one of the
    same inode at the same offset. *)
Theorem write_read_roundtrip g lsize devsw_read devsw_write killed f f2 i addr n (w : fls bst * kstate) :
  let off := fi_off (file_at w f) in let old := disk_of w in
  rested g lsize w -> opened g w f i -> fi_writable (file_at w f) <> 0 ->
  opened g w f2 i -> fi_readable (file_at w f2) <> 0 -> f2 <> f -> fi_ip (file_at w f2) = fi_ip (file_at w f) -> fi_off (file_at w f2) = off ->
  0 <= n <= Z.of_nat (length addr) -> off + n <= MAXFILE * BSIZE -> bytes_ok addr ->
  (need old (disk_inode old i) (blocks_of off n) <= nfree g old)%nat ->
  runs (let* r := filewrite devsw_write killed f addr n in
        let* (m, bytes) := fileread devsw_read killed f2 n in
        kret (r, m, bytes)) w (fun x _ => x = (n, n, take (Z.to_nat n) addr)).
Proof.
  intros off old [R W P Hls] [Hf Ht O Ho] Hw [Hf2 Ht2 O2 Ho2] Hr2 Hne Eip Eoff Hn Hmax Hb Hneed. fold off old in O, Ho, W, R, P, O2, Ho2.
  change (MAXFILE * BSIZE) with 71680 in Hmax. pose proof O as [O1 _]. pose proof (oi_range _ _ _ _ _ O1) as Hi. pose proof (oi_used _ _ _ _ _ O1) as Hu.
  apply runs_bind.
  eapply (filewrite_runs g lsize (b_size (cache_of w)) devsw_write (blocks_of off n)) with (ip := fi_ip (file_at w f)) (v := old) (c := bio_abs (cache_of w)) (off := off);
    try done; try lia; [apply blocks_of_covers; [lia|done]|].
  intros w' v' c' ws [R' WF' O' _ HT _ _ _ _].
  assert (E2 : file_at w' f2 = file_at w f2) by (unfold file_at; rewrite HT, !nth_lookup; by rewrite list_lookup_alter_ne).
  pose proof (write_file_content g old v' i off addr n Hi Hu WF') as Hc.
  assert (Hsz : off <= d_size (disk_inode v' i)).
  { destruct (iw_typed _ _ _ (fl_file _ _ (proj1 WF') i Hi (oi_used _ _ _ _ _ (proj1 O')))) as (_ & _ & _ & _ & [? _] & _).
    pose proof (f_equal length Hc) as El. unfold splice in El. rewrite !length_app, length_drop, !length_take, !length_content in El. lia. }
  apply runs_bind. eapply runs_conseq; [apply (fileread_runs g lsize (b_size (cache_of w)) devsw_read killed f2 i n w' v' c')|]; rewrite ?E2, ?Eoff, ?Eip; try done; try lia.
  - by rewrite HT, length_alter.
  - apply WF'.
  - intros [r bytes] w2 (-> & -> & _). apply runs_ret. rewrite Hc, read_splice by (rewrite ?length_content; lia).
    rewrite length_take, Nat.min_l by lia. by rewrite Z2Nat.id by lia.
Qed.

(** ** A small file system *)

(** Twenty blocks: two inodes in block 2, the bitmap in block 3, data from block 4 to 9, and a log of ten blocks. *)
Definition sample_geom : geom := Geom 20 2 10.
Definition sample_inode : dinode := Dinode T_FILE 0 0 1 0 (replicate 13 0).
Definition sample_superblock : list Z := put_le 4 0 20 (put_le 4 8 2 (put_le 4 12 10 zero_block)).
Definition sample_inode_block : list Z := put_dinode (dinode_off 1) sample_inode zero_block.
Definition sample_bitmap : list Z := put_le 1 0 15 (put_le 1 1 252 (put_le 1 2 15 zero_block)).
Definition sample_fs : disk := fun n =>
  if n =? 1 then sample_superblock else if n =? 2 then sample_inode_block else if n =? 3 then sample_bitmap else zero_block.

Lemma sample_fs_block (P : list Z -> bool) : P sample_superblock && P sample_inode_block && P sample_bitmap && P zero_block = true ->
  forall n, P (sample_fs n) = true.
Proof.
  unfold sample_fs. generalize sample_superblock sample_inode_block sample_bitmap zero_block. intros a b c z H n. bool_hyps.
  destruct (n =? 1); [done|]. destruct (n =? 2); [done|]. by destruct (n =? 3).
Qed.

Lemma sample_fs_wf : fs_wf sample_geom sample_fs.
Proof.
  split.
  - split; by vm_compute.
  - by vm_compute.
  - by vm_compute.
  - intros m _. apply Nat.eqb_eq, (sample_fs_block (fun b => Nat.eqb (length b) (Z.to_nat BSIZE))). by vm_compute.
  - intros m _. pose proof (sample_fs_block (forallb (fun x => (0 <=? x) && (x <? 256))) ltac:(by vm_compute) m) as H.
    apply Forall_forall. intros x Hx%list_elem_of_In. rewrite forallb_forall in H. specialize (H x Hx). bool_hyps. lia.
  - intros m [Hm Hf].
    assert (Hall : forallb (fun m => negb (bit_free (sample_fs 3) m) || ((3 <? m) && (m <? 10))) (seqZ 0 20) = true) by (by vm_compute).
    rewrite forallb_forall in Hall. specialize (Hall m). rewrite <- list_elem_of_In, elem_of_seqZ in Hall. 
    change (bmb sample_geom) with 3 in *. rewrite Hf in Hall. simpl in Hall. specialize (Hall ltac:(simpl in Hm; lia)). bool_hyps. simpl. lia.
Qed.

(** An inode without blocks. *)
Lemma empty_file_wf g v d : geom_ok g -> dinode_typed d -> d_size d = 0 -> d_addrs d = replicate 13 0 -> file_wf g v d.
Proof.
  intros G Ty Hs Ha.
  assert (Hz : forall k, addr_at d k = 0).
  { intros k. unfold addr_at. rewrite Ha, nth_lookup. destruct (replicate 13 0 !! Z.to_nat k) as [x|] eqn:E; [|done].
    by apply lookup_replicate in E as [-> _]. }
  assert (Hb : forall bn, baddr v d bn = 0) by (intros; unfold baddr, ind; rewrite !Hz; by destruct (_ <? _)).
  split; try done.
  - intros Hi. by destruct Hi, (Hz NDIRECT).
  - intros bn _ Hn. by rewrite Hb in Hn.
  - intros bn bn' _ _ Hn. by rewrite Hb in Hn.
  - intros bn H1 H2. unfold BSIZE in *. lia.
  - rewrite Hs. done.
Qed.

Lemma sample_inodes i : is_inum sample_geom i -> disk_inode sample_fs i = if i =? 1 then sample_inode else zero_dinode.
Proof. intros [H1 H2]. simpl in H2. assert (Hi : i = 0 \/ i = 1) by lia. destruct Hi as [->| ->]; by vm_compute. Qed.

Lemma sample_files_wf : files_wf sample_geom sample_fs.
Proof.
  split; [apply sample_fs_wf| |].
  - intros i Hi. rewrite sample_inodes by done. destruct (i =? 1); [intros _|done].
    apply empty_file_wf; [apply sample_fs_wf| |done|done]. unfold dinode_typed, is_short, is_uint. simpl. split_and!; try lia; try done.
    repeat constructor; lia.
  - intros i j m Hi Hj Hij. rewrite !sample_inodes by done. destruct (i =? 1) eqn:E1; [|done]. destruct (j =? 1) eqn:E2; [|done]. bool_hyps. lia.
Qed.

(** The kernel has opened inode 1 twice; the two entries of the file table are the ends for writing and reading. *)
Definition sample_log_fs : lst bst := Lst (empty_cache zero_block sample_fs 20) 10 10 0 1 0 (replicate (Z.to_nat LOGSIZE) 0).
Definition sample_cached : inode := Inode 1 1 2 I_VALID sample_inode.
Definition sample_kernel : fls bst * kstate :=
  (Fls (Fsys sample_log_fs [sample_cached]) [File FD_INODE 1 0 1 0 0 0; File FD_INODE 1 1 0 0 0 0] ∅ 0,
   {| k_mem := fun _ => 0; k_freelist := 0; k_use_lock := true; k_held := [] |}).

Lemma sample_log_fs_quiescent : quiescent sample_log_fs (bio_abs (l_bc sample_log_fs)).
Proof.
  apply quiescent_intro; try done.
  - split; [|done]. by exists (rev (seq 0 NBUF)); apply empty_cache_inv.
  - split; try done.
    + by intros x Hx%elem_of_nil.
    + constructor.
  - apply not_elem_of_nil.
Qed.

Lemma sample_rested : rested sample_geom 10 sample_kernel.
Proof.
  split; [|apply sample_files_wf|by split; vm_compute|lia]. split; try done. apply sample_log_fs_quiescent.
Qed.

Lemma sample_open : open_file sample_geom (disk_of sample_kernel) (x_fs sample_kernel.1) 0 1.
Proof.
  assert (E : disk_inode (disk_of sample_kernel) 1 = sample_inode) by (by vm_compute). split; split; rewrite ?E.
  - split_and!; [simpl; lia|reflexivity|reflexivity].
  - reflexivity.
  - split; reflexivity || discriminate.
  - discriminate.
  - discriminate.
  - simpl. lia.
  - discriminate.
  - reflexivity.
  - apply not_elem_of_nil.
Qed.

Lemma sample_opened f : (f < 2)%nat -> opened sample_geom sample_kernel f 1.
Proof.
  intros Hf. assert (E : d_size (disk_inode (disk_of sample_kernel) 1) = 0) by (by vm_compute).
  destruct f as [|[|f]]; [| |lia]; (split; [simpl; lia|reflexivity|exact sample_open|rewrite E; simpl; lia]).
Qed.

(** Five bytes. *)
Definition hello : list Z := [104; 101; 108; 108; 111].

Lemma filewrite_correct_witness :
  runs (filewrite (fun _ => None) false 0 hello 5) sample_kernel (fun r w' => r = 5 /\ file_at w' 0 = set_fi_off (0 + 5) (file_at sample_kernel 0) /\
    exists tr new, b_trace (cache_of w') = [] ++ tr /\
    write_file sample_geom sample_fs new 1 0 hello 5 /\ home_eq 10 (disk_of w') new /\
    forall p, p `prefix_of` tr -> runs boot (boot_state [] (apply_writes p sample_fs) 20) (fun _ s2 =>
      exists j u, 0 <= j <= 5 /\ (j = 5 \/ j mod FILEWRITE_MAX = 0) /\ write_file sample_geom sample_fs u 1 0 hello j /\
        home_eq 10 (view (l_bc s2)) u)).
Proof.
  apply (filewrite_correct sample_geom 10 (fun _ => None) false 0 1 hello 5 sample_kernel []).
  - exact sample_rested.
  - apply sample_opened. lia.
  - discriminate.
  - split; discriminate.
  - discriminate.
  - repeat constructor; discriminate || reflexivity.
  - apply Nat.leb_le. vm_compute. reflexivity.
Defined.

Lemma write_read_roundtrip_witness :
  runs (let* r := filewrite (fun _ => None) false 0 hello 5 in
        let* (m, bytes) := fileread (fun _ => None) false 1 5 in
        kret (r, m, bytes)) sample_kernel (fun x _ => x = (5, 5, hello)).
Proof.
  apply (write_read_roundtrip sample_geom 10 (fun _ => None) (fun _ => None) false 0 1 1 hello 5 sample_kernel).
  - exact sample_rested.
  - apply sample_opened. lia.
  - discriminate.
  - apply sample_opened. lia.
  - discriminate.
  - discriminate.
  - reflexivity.
  - reflexivity.
  - split; discriminate.
  - discriminate.
  - repeat constructor; discriminate || reflexivity.
  - apply Nat.leb_le. vm_compute. reflexivity.
Defined.
