(* ===== verification/Mkfs.v ===== *)
(** * The builder of file system images: mkfs.c

    A host program.  Its state is the image, as a function from sectors to 512 bytes with the number of sectors
    the image file has, and the counters [freeblock], [usedblocks] and [freeinode].  [xshort] and [xint] store an integer in
    little-endian order, so what they do is in [put_le], [get_le], [put_dinode] and [get_dinode].  A failed
    assertion, and a read behind the end of the image, end the program ([Panic]); opening, seeking and writing the image
    succeed.

    An argument is a file name with the results of the calls of [read] on the file, up to the one that returns 0. *)

From S2P Require Import Prelude Bio BufferCache Bytes Log Fs.

Definition mk_nblocks : Z := 985.
Definition mk_nlog : Z := LOGSIZE.
Definition mk_ninodes : Z := 200.
Definition mk_size : Z := 1024.

Record mk := Mk {
  mk_img : Z -> list Z;
  mk_len : Z;          (* sectors of the image file *)
  mk_freeblock : Z;
  mk_usedblocks : Z;
  mk_freeinode : Z
}.

Definition set_image (v : Z -> list Z) (n : Z) (s : mk) : mk := Mk v n (mk_freeblock s) (mk_usedblocks s) (mk_freeinode s).

Definition mk_assert (b : bool) : K mk unit := if b then kret tt else kpanic "assert".

Definition wsect (sec : Z) (buf : list Z) : K mk unit :=
  kmod (fun s => set_image (upd (mk_img s) sec buf) (Z.max (mk_len s) (sec + 1)) s).

Definition rsect (sec : Z) : K mk (list Z) :=
  let* s := kget in
  if sec <? mk_len s then kret (mk_img s sec) else kpanic "read".

Definition i2b (inum : Z) : Z := inum / IPB + 2.

Definition winode (inum : Z) (ip : dinode) : K mk unit :=
  let* buf := rsect (i2b inum) in
  wsect (i2b inum) (put_dinode (dinode_off inum) ip buf).

Definition rinode (inum : Z) : K mk dinode :=
  let* buf := rsect (i2b inum) in
  kret (get_dinode (dinode_off inum) buf).

Definition mk_ialloc (type : Z) : K mk Z :=
  let* s := kget in
  let inum := mk_freeinode s in
  kmod (fun s => Mk (mk_img s) (mk_len s) (mk_freeblock s) (mk_usedblocks s) (u32 (inum + 1))) ;;;
  winode inum (Dinode type 0 0 1 0 (replicate 13 0)) ;;;
  kret inum.

(** [freeblock++] and [usedblocks++]. *)
Definition take_block : K mk Z :=
  let* s := kget in
  kmod (fun s => Mk (mk_img s) (mk_len s) (u32 (mk_freeblock s + 1)) (u32 (mk_usedblocks s + 1)) (mk_freeinode s)) ;;;
  kret (mk_freeblock s).

(** The sector of block [fbn] of the file, allocated if it has none. *)
Definition map_block (din : dinode) (fbn : Z) : K mk (dinode * Z) :=
  if fbn <? NDIRECT then
    if addr_at din fbn =? 0 then
      let* b := take_block in
      kret (set_addr (Z.to_nat fbn) b din, b)
    else kret (din, addr_at din fbn)
  else
    let* din :=
      (if addr_at din NDIRECT =? 0 then
         let* b := take_block in
         kret (set_addr (Z.to_nat NDIRECT) b din)
       else kret din) in
    let* indirect := rsect (addr_at din NDIRECT) in
    let k := Z.to_nat (4 * (fbn - NDIRECT)) in
    if get_le 4 k indirect =? 0 then
      let* b := take_block in
      wsect (addr_at din NDIRECT) (put_le 4 k b indirect) ;;;
      kret (din, b)
    else kret (din, get_le 4 k indirect).

Fixpoint iappend_loop (din : dinode) (off : Z) (p : list Z) (fuel : nat) : K mk (dinode * Z) :=
  let n := Z.of_nat (length p) in
  if 0 <? n then
    match fuel with
    | O => knofuel
    | S fuel' =>
        let fbn := off / 512 in
        mk_assert (fbn <? MAXFILE) ;;;
        let* r := map_block din fbn in
        let '(din, x) := r in
        let n1 := Z.min n ((fbn + 1) * 512 - off) in
        let* buf := rsect x in
        wsect x (splice (Z.to_nat (off - fbn * 512)) (take (Z.to_nat n1) p) buf) ;;;
        iappend_loop din (off + n1) (drop (Z.to_nat n1) p) fuel'
    end
  else kret (din, off).

Definition iappend (inum : Z) (p : list Z) : K mk unit :=
  let* din := rinode inum in
  let* r := iappend_loop din (d_size din) p (length p) in
  winode inum (set_size r.2 r.1).

(** The bitmap block [balloc] builds. *)
Definition first_bits (used : Z) : list Z := fold_left set_bit (seqZ 0 used) (replicate 512 0).

Definition mk_balloc (used : Z) : K mk unit :=
  mk_assert (used <? 512 * 8) ;;;
  wsect (mk_ninodes / IPB + 3) (first_bits used).

(** The leading underscore of a program's name is left out. *)
Definition strip (name : list Z) : list Z := match name with c :: name' => if c =? 95 then name' else name | [] => [] end.

(** The body of the loop over the arguments. *)
Definition add_file (rootino : Z) (f : list Z * list (list Z)) : K mk unit :=
  mk_assert (negb (bool_decide (47 ∈ f.1))) ;;;
  let* inum := mk_ialloc T_FILE in
  iappend rootino (dirent inum (strip f.1)) ;;;
  for_each f.2 (iappend inum).

Definition superblock_bytes : list Z :=
  put_le 4 12 mk_nlog (put_le 4 8 mk_ninodes (put_le 4 4 mk_nblocks (put_le 4 0 mk_size (replicate 512 0)))).

Definition bitblocks : Z := mk_size / (512 * 8) + 1.
Definition first_used : Z := mk_ninodes / IPB + 3 + bitblocks.

Definition mkfs (files : list (list Z * list (list Z))) : K mk unit :=
  kmod (fun s => Mk (mk_img s) (mk_len s) first_used first_used (mk_freeinode s)) ;;;
  mk_assert (mk_nblocks + first_used + mk_nlog =? mk_size) ;;;
  for_each (seqZ 0 (mk_nblocks + first_used + mk_nlog)) (fun i => wsect i (replicate 512 0)) ;;;
  wsect 1 superblock_bytes ;;;
  let* rootino := mk_ialloc T_DIR in
  mk_assert (rootino =? ROOTINO) ;;;
  iappend rootino (dirent rootino [46]) ;;;
  iappend rootino (dirent rootino [46; 46]) ;;;
  for_each files (add_file rootino) ;;;
  let* din := rinode rootino in
  let off := (d_size din / BSIZE + 1) * BSIZE in
  winode rootino (set_size off din) ;;;
  let* s := kget in
  mk_balloc (mk_usedblocks s).

(** The image file was truncated, and [freeinode] starts at 1. *)
Definition mk_start : mk := Mk (fun _ => replicate 512 0) 0 0 0 1.

(** The image [mkfs] leaves, if it ends well. *)
Definition mkfs_image (files : list (list Z * list (list Z))) : option (Z -> list Z) :=
  match mkfs files mk_start with
  | Ok _ s => Some (mk_img s)
  | _ => None
  end.
