(* ===== verification/MkfsSpec.v ===== *)
(** * What mkfs.c builds: a well-formed file system with the files it was given

    While [mkfs] works, its bitmap block is still empty.  [mk_rep] relates the image to the file system [v] it will be: [v] has the
    bitmap of the blocks taken so far.  In it, taking a block is what [balloc] of the kernel does, and the lemmas of FsLayout.v on
    files that grow apply. *)

From S2P Require Import Prelude Bio BufferCache Bytes Log LogSpec Fs FsLayout Mkfs.

Definition mk_geom : geom := Geom mk_size mk_ninodes (mk_size - mk_nlog).
Abbreviation g := mk_geom.

Definition zeros : list Z := replicate 512 0.

(** The blocks of a file that grows by appending, its indirect block included. *)
Definition fblocks (n : Z) : Z := (n + 511) / 512 + (if NDIRECT * 512 <? n then 1 else 0).

(** ** The bitmap *)

Lemma first_bits_S n : 0 <= n -> first_bits (n + 1) = set_bit (first_bits n) n.
Proof. intros Hn. unfold first_bits. rewrite seqZ_app by lia. by rewrite fold_left_app. Qed.

Lemma length_first_bits n : length (first_bits n) = 512%nat.
Proof.
  unfold first_bits. generalize (seqZ 0 n). intros l. assert (H : length (replicate 512 0) = 512%nat) by done. revert H. generalize (replicate 512 0).
  induction l as [|x l IH]; intros b Hb; [done|]. cbn. apply IH. unfold set_bit. by rewrite length_alter.
Qed.

Lemma bytes_ok_first_bits n : bytes_ok (first_bits n).
Proof.
  unfold first_bits. generalize (seqZ 0 n). intros l. assert (H : bytes_ok (replicate 512 0)) by (apply Forall_replicate; lia). revert H. generalize (replicate 512 0).
  induction l as [|x l IH]; intros b Hb; [done|]. cbn. apply IH. by apply bytes_ok_set_bit.
Qed.

Lemma bit_free_zeros m : 0 <= m -> bit_free zeros m = true.
Proof. intros Hm. rewrite bit_free_testbit by done. unfold zeros. rewrite nth_replicate_0. by rewrite Z.bits_0. Qed.

Lemma bit_first_bits n m : 0 <= n <= 4096 -> 0 <= m -> bit_free (first_bits n) m = (n <=? m).
Proof.
  intros Hn Hm. destruct Hn as [Hn Hn']. revert Hn'. pattern n. apply natlike_ind; [| |done].
  - intros _. rewrite (proj2 (Z.leb_le 0 m)) by done. by apply bit_free_zeros.
  - intros k Hk IH Hk'. rewrite <- Z.add_1_r, first_bits_S by done. rewrite bit_free_set by (rewrite ?length_first_bits; try done; mlia).
    case_decide as E; [subst; symmetry; apply Z.leb_gt; lia|]. rewrite IH by lia.
    destruct (k <=? m) eqn:E1; symmetry; bool_hyps; [apply Z.leb_le|apply Z.leb_gt]; lia.
Qed.

(** ** The image and the file system it will be *)

Ltac mkcbn := cbn [mk_img mk_len mk_freeblock mk_usedblocks mk_freeinode set_image].

Record mk_rep (v : disk) (s : mk) : Prop := {
  mr_len : mk_len s = mk_size;
  mr_fb : first_used <= mk_freeblock s <= g_start g;
  mr_used : mk_usedblocks s = mk_freeblock s;
  mr_img : forall m, m <> bmb g -> mk_img s m = v m;
  mr_bitmap : v (bmb g) = first_bits (mk_freeblock s);
  mr_zero : forall m, mk_freeblock s <= m < mk_size -> v m = zeros;
  mr_super : v 1 = superblock_bytes;
  mr_wf : fs_wf g v
}.

Lemma geom_values : g_size g = 1024 /\ g_ninodes g = 200 /\ g_start g = 1014 /\ bmb g = 28 /\ first_used = 29 /\ mk_size = 1024.
Proof. done. Qed.

Lemma rep_bit v s m : mk_rep v s -> 0 <= m -> bit_free (v (bmb g)) m = (mk_freeblock s <=? m).
Proof.
  intros R Hm. rewrite (mr_bitmap v s R). pose proof (mr_fb v s R). destruct geom_values as (G1 & G2 & G3 & G4 & G5 & G6). apply bit_first_bits; lia.
Qed.

Lemma rep_free v s : mk_rep v s -> mk_freeblock s < g_start g -> is_free g v (mk_freeblock s).
Proof.
  intros R Hf. pose proof (mr_fb v s R). destruct geom_values as (G1 & G2 & G3 & G4 & G5 & G6). split; [lia|]. rewrite (rep_bit v s _ R) by lia. by rewrite Z.leb_refl.
Qed.

Lemma rep_used v s m : mk_rep v s -> is_used g v m -> 0 <= m < mk_freeblock s.
Proof. intros R [Hm Hu]. rewrite (rep_bit v s _ R) in Hu by lia. bool_hyps. lia. Qed.

Lemma rsect_runs v s m (Q : list Z -> mk -> Prop) : mk_rep v s -> m < mk_size -> m <> bmb g -> Q (v m) s -> runs (rsect m) s Q.
Proof.
  intros R Hm Hb HQ. unfold rsect. apply runs_bind. unfold kget, runs. rewrite (mr_len v s R), (proj2 (Z.ltb_lt _ _)) by done. cbn. by rewrite (mr_img v s R).
Qed.

(** A sector below the free ones is written. *)
Lemma wsect_runs v s m w (Q : unit -> mk -> Prop) : mk_rep v s -> 2 <= m < mk_freeblock s -> m <> bmb g -> fs_wf g (upd v m w) ->
  (forall s', mk_rep (upd v m w) s' -> mk_freeblock s' = mk_freeblock s -> mk_freeinode s' = mk_freeinode s -> Q tt s') -> runs (wsect m w) s Q.
Proof.
  intros R Hm Hb W HQ. unfold wsect. apply runs_mod, HQ; try done. pose proof (mr_fb v s R). destruct geom_values as (G1 & G2 & G3 & G4 & G5 & G6).
  split; mkcbn; try apply R; try done.
  - rewrite (mr_len v s R). lia.
  - intros k Hk. unfold upd. case_decide; [done|]. by apply (mr_img v s R).
  - rewrite upd_ne by done. apply R.
  - intros k Hk. rewrite upd_ne by lia. by apply (mr_zero v s R).
  - rewrite upd_ne by lia. apply R.
Qed.

Lemma take_block_runs v s (Q : Z -> mk -> Prop) : mk_rep v s -> mk_freeblock s < g_start g ->
  (forall s', mk_rep (alloc g v (mk_freeblock s)) s' -> mk_freeblock s' = mk_freeblock s + 1 -> mk_freeinode s' = mk_freeinode s -> Q (mk_freeblock s) s') ->
  runs take_block s Q.
Proof.
  intros R Hf HQ. pose proof (rep_free v s R Hf) as F. pose proof (mr_fb v s R). destruct geom_values as (G1 & G2 & G3 & G4 & G5 & G6).
  unfold take_block. apply runs_bind. unfold kget at 1, runs at 1. apply runs_bind, runs_mod, runs_ret.
  assert (E : u32 (mk_freeblock s + 1) = mk_freeblock s + 1) by (apply u32_small; lia).
  apply HQ; [|done|done]. split; mkcbn; rewrite ?E, ?(mr_used v s R), ?E; try done; try lia; try apply R.
  - intros m Hm. destruct (decide (m = mk_freeblock s)) as [->|Hne].
    + rewrite alloc_new. rewrite (mr_img v s R) by done. apply (mr_zero v s R). lia.
    + rewrite alloc_other by done. by apply (mr_img v s R).
  - rewrite alloc_bitmap by (done || apply R). rewrite (mr_bitmap v s R). symmetry. apply first_bits_S. lia.
  - intros m Hm. rewrite alloc_other by lia. apply (mr_zero v s R). lia.
  - rewrite alloc_other by lia. apply R.
  - by apply alloc_wf; [apply R|].
Qed.

(** ** A block of a file *)

Definition bns : list Z := seqZ 0 MAXFILE.

Lemma bns_in bn : bn ∈ bns <-> in_file bn.
Proof. unfold bns. rewrite elem_of_seqZ. unfold in_file. lia. Qed.

Lemma bns_ok : NoDup bns /\ Forall in_file bns.
Proof. split; [apply NoDup_seqZ|]. apply Forall_forall. intros bn. by rewrite bns_in. Qed.

(** The blocks [map_block] takes. *)
Definition cost (v : disk) (d : dinode) (bn : Z) : Z :=
  (if baddr v d bn =? 0 then 1 else 0) + (if (NDIRECT <=? bn) && (ind d =? 0) then 1 else 0).

(** What [map_block] does, in the terms of the kernel's [bmap]. *)
Definition mapped (v : disk) (s : mk) (d : dinode) (bn : Z) (r : dinode * Z) (s' : mk) : Prop :=
  exists v', mk_rep v' s' /\ bmapped g bns v d bn v' r.1 r.2 /\ mk_freeblock s' = mk_freeblock s + cost v d bn /\ mk_freeinode s' = mk_freeinode s /\
    (if bn <? NDIRECT then ind r.1 = ind d else ind r.1 <> 0).

Lemma map_direct_runs v s d bn : mk_rep v s -> file_wf g v d -> 0 <= bn < NDIRECT -> mk_freeblock s + cost v d bn <= g_start g ->
  runs (map_block d bn) s (mapped v s d bn).
Proof.
  intros R F Hbn Hf. destruct bns_ok as [N1 N2]. assert (Hin : in_file bn) by (unfold in_file, MAXFILE, NDIRECT, NINDIRECT in *; lia).
  pose proof (mr_wf _ _ R) as W. unfold map_block. assert (El : (bn <? NDIRECT) = true) by (apply Z.ltb_lt; lia). rewrite El.
  assert (Eb : baddr v d bn = addr_at d bn) by (unfold baddr; by rewrite El).
  assert (Ec : cost v d bn = if addr_at d bn =? 0 then 1 else 0) by (unfold cost; rewrite Eb, (proj2 (Z.leb_gt NDIRECT bn)) by lia; cbn [andb]; lia).
  rewrite Ec in Hf. destruct (addr_at d bn =? 0) eqn:E; [apply Z.eqb_eq in E|apply Z.eqb_neq in E].
  - apply runs_bind, (take_block_runs v s); [done|lia|]. intros s' R' E1 E2. apply runs_ret. exists (alloc g v (mk_freeblock s)).
    split_and!; try done; cbn [fst snd]; rewrite ?El, ?Ec; [|lia|].
    + apply bmapped_direct; try done; [|by apply bns_in]. apply rep_free; [done|lia].
    + unfold ind. rewrite addr_at_set; [|apply F|unfold NDIRECT in *; lia|unfold NDIRECT; lia]. rewrite decide_False; [done|lia].
  - apply runs_ret. exists v. split_and!; try done; cbn [fst snd]; rewrite ?El, ?Ec; [|lia|done]. rewrite <- Eb. apply bmapped_old; [done|done|by rewrite Eb].
Qed.

(** With the indirect block there. *)
Lemma map_entry_runs v s d bn : mk_rep v s -> file_wf g v d -> NDIRECT <= bn < MAXFILE -> ind d <> 0 -> mk_freeblock s + cost v d bn <= g_start g ->
  runs (let* indirect := rsect (addr_at d NDIRECT) in
        let k := Z.to_nat (4 * (bn - NDIRECT)) in
        if get_le 4 k indirect =? 0 then
          let* b := take_block in
          wsect (addr_at d NDIRECT) (put_le 4 k b indirect) ;;;
          kret (d, b)
        else kret (d, get_le 4 k indirect)) s (mapped v s d bn).
Proof.
  intros R F Hbn Hi Hf. destruct bns_ok as [N1 N2]. pose proof (mr_wf _ _ R) as W. change (addr_at d NDIRECT) with (ind d). pose proof (mr_fb _ _ R) as Hfb.
  destruct (iw_ind _ _ _ F Hi) as [Hi1 Hi2]. pose proof (rep_used _ _ _ R Hi2) as Hi3. destruct geom_values as (G1 & G2 & G3 & G4 & G5 & G6).
  assert (El : (bn <? NDIRECT) = false) by (apply Z.ltb_ge; lia). assert (Ei : (ind d =? 0) = false) by (by apply Z.eqb_neq).
  apply runs_bind, (rsect_runs v s); [done|lia|lia|]. cbv zeta.
  assert (Eb : baddr v d bn = get_le 4 (Z.to_nat (4 * (bn - NDIRECT))) (v (ind d))) by (unfold baddr, entry; by rewrite El, Ei).
  assert (Ec : cost v d bn = if baddr v d bn =? 0 then 1 else 0) by (unfold cost; rewrite Ei, andb_false_r; lia).
  rewrite <- Eb. rewrite Ec in Hf. destruct (baddr v d bn =? 0) eqn:E; [apply Z.eqb_eq in E|apply Z.eqb_neq in E].
  - assert (Fa : is_free g v (mk_freeblock s)) by (apply rep_free; [done|lia]).
    assert (Hmap : bmapped g bns v d bn (alloc_entry g v (ind d) bn (mk_freeblock s)) d (mk_freeblock s)).
    { apply bmapped_entry; try done. apply bns_in. unfold in_file, NDIRECT in *. lia. }
    apply runs_bind, (take_block_runs v s); [done|lia|]. intros s1 R1 E1 E2.
    apply runs_bind, (wsect_runs (alloc g v (mk_freeblock s)) s1); [done|lia|lia|apply Hmap|]. intros s2 R2 E3 E4. apply runs_ret.
    exists (alloc_entry g v (ind d) bn (mk_freeblock s)). split_and!; try done; cbn [fst snd]; rewrite ?El, ?Ec; [lia|congruence|done].
  - apply runs_ret. exists v. split_and!; try done; cbn [fst snd]; rewrite ?El, ?Ec; [by apply bmapped_old|lia|done].
Qed.

Lemma map_block_runs v s d bn : mk_rep v s -> file_wf g v d -> in_file bn -> mk_freeblock s + cost v d bn <= g_start g ->
  runs (map_block d bn) s (mapped v s d bn).
Proof.
  intros R F [Hb1 Hb2] Hf. destruct (bn <? NDIRECT) eqn:El; [apply map_direct_runs; bool_hyps; try done; lia|].
  destruct bns_ok as [N1 N2]. unfold map_block. rewrite El. pose proof El as El'. apply Z.ltb_ge in El'. pose proof (mr_wf _ _ R) as W. change (addr_at d NDIRECT) with (ind d).
  destruct (ind d =? 0) eqn:Ei; apply runs_bind; [apply Z.eqb_eq in Ei|apply Z.eqb_neq in Ei].
  - assert (Ec : cost v d bn = 2).
    { unfold cost, baddr. rewrite El, Ei, (proj2 (Z.leb_le _ _)) by done. by rewrite Z.eqb_refl. }
    assert (Fa : is_free g v (mk_freeblock s)) by (apply rep_free; [done|lia]).
    destruct (evolve_indirect g bns v d (mk_freeblock s) W F Fa N2 Ei) as (E1 & E2 & E3).
    apply runs_bind, (take_block_runs v s); [done|lia|]. intros s1 R1 J1 J2. apply runs_ret.
    set (d1 := set_addr (Z.to_nat NDIRECT) (mk_freeblock s) d) in *. set (v1 := alloc g v (mk_freeblock s)) in *.
    assert (Hi1 : ind d1 <> 0) by (rewrite E2; pose proof (free_data _ _ _ W Fa); lia).
    assert (Ec1 : cost v1 d1 bn = 1).
    { unfold cost. rewrite E3 by done. rewrite (proj2 (Z.eqb_neq _ _) Hi1), andb_false_r. unfold baddr. by rewrite El, Ei. }
    eapply runs_conseq; [apply (map_entry_runs v1 s1 d1 bn); [done|apply E1|lia|done|lia]|].
    intros r s2 (v2 & R2 & M2 & J3 & J4 & J5). rewrite El in J5. exists v2. rewrite El. split_and!; try done; [|lia|lia]. by apply (bmapped_indirect g bns v d (mk_freeblock s)).
  - apply runs_ret, map_entry_runs; done.
Qed.

(** ** Appending to a file *)

(** The file has exactly the blocks of its first [off] bytes. *)
Record tight_at (v : disk) (d : dinode) (off : Z) : Prop := {
  ta_blk : forall bn, in_file bn -> (baddr v d bn <> 0 <-> bn * 512 < off);
  ta_ind : ind d <> 0 <-> NDIRECT * 512 < off
}.

Lemma cost_tight v d off : tight_at v d off -> 0 <= off -> in_file (off / 512) ->
  cost v d (off / 512) = (if off mod 512 =? 0 then 1 else 0) + (if off =? NDIRECT * 512 then 1 else 0).
Proof.
  intros [T1 T2] Ho Hin. unfold cost. specialize (T1 _ Hin). f_equal.
  - destruct (baddr v d (off / 512) =? 0) eqn:E; bool_hyps.
    + rewrite (proj2 (Z.eqb_eq _ _)); [done|]. destruct (decide (off mod 512 = 0)); [done|]. exfalso. apply T1; [mlia|done].
    + rewrite (proj2 (Z.eqb_neq _ _)); [done|]. apply T1 in E. mlia.
  - destruct (ind d =? 0) eqn:E; bool_hyps.
    + destruct (NDIRECT <=? off / 512) eqn:E1; bool_hyps; cbn [andb].
      * rewrite (proj2 (Z.eqb_eq _ _)); [done|]. assert (~ NDIRECT * 512 < off) by (intros H; by apply T2 in H). unfold NDIRECT in *. mlia.
      * rewrite (proj2 (Z.eqb_neq _ _)); [done|]. unfold NDIRECT in *. mlia.
    + rewrite andb_false_r. rewrite (proj2 (Z.eqb_neq _ _)); [done|]. apply T2 in E. lia.
Qed.

(** One turn of the loop, in blocks. *)
Lemma fblocks_step off m : 0 <= off -> 0 < m <= 512 - off mod 512 ->
  fblocks (off + m) = fblocks off + ((if off mod 512 =? 0 then 1 else 0) + (if off =? NDIRECT * 512 then 1 else 0)).
Proof.
  intros Ho Hm. unfold fblocks, NDIRECT. destruct (off mod 512 =? 0) eqn:E1; destruct (off =? 12 * 512) eqn:E2;
    destruct (12 * 512 <? off + m) eqn:E3; destruct (12 * 512 <? off) eqn:E4; bool_hyps; mlia.
Qed.

Lemma fblocks_mono a b : 0 <= a <= b -> fblocks a <= fblocks b.
Proof. intros H. unfold fblocks, NDIRECT. destruct (12 * 512 <? a) eqn:E1; destruct (12 * 512 <? b) eqn:E2; bool_hyps; mlia. Qed.

Lemma tight_step v d off v' d' a m : tight_at v d off -> 0 <= off -> in_file (off / 512) -> 0 < m <= 512 - off mod 512 ->
  bmapped g bns v d (off / 512) v' d' a -> (if off / 512 <? NDIRECT then ind d' = ind d else ind d' <> 0) -> tight_at v' d' (off + m).
Proof.
  intros [T1 T2] Ho Hin Hm (E & _ & _ & Hb & Ha & Hoth & _) Hi. split.
  - intros bn Hbn. destruct (decide (bn = off / 512)) as [->|Hne].
    + rewrite Hb. split; [intros _; mlia|done].
    + rewrite Hoth by done. rewrite T1 by done. destruct Hin, Hbn. mlia.
  - destruct (off / 512 <? NDIRECT) eqn:El; bool_hyps.
    + rewrite Hi, T2. unfold NDIRECT in *. mlia.
    + split; [intros _; unfold NDIRECT in *; mlia|done].
Qed.

Lemma tight_upd v d off a w : tight_at v d off -> (ind d <> 0 -> ind d <> a) -> tight_at (upd v a w) d off.
Proof. intros [T1 T2] Hi. split; [|done]. intros bn Hbn. rewrite (baddr_ext v); [by apply T1|]. intros H. apply upd_ne. auto. Qed.

Lemma rep_byte_block v s d bn : mk_rep v s -> file_wf g v d -> in_file bn -> baddr v d bn <> 0 ->
  bmb g < baddr v d bn /\ 0 <= baddr v d bn < mk_freeblock s /\ baddr v d bn <> ind d /\ length (v (baddr v d bn)) = 512%nat /\ bytes_ok (v (baddr v d bn)).
Proof.
  intros R F Hb Hn. destruct (iw_blk _ _ _ F bn Hb Hn) as (H1 & H2 & H3). pose proof (rep_used _ _ _ R H2). pose proof (mr_wf _ _ R) as W.
  destruct H2 as [H2 _]. split_and!; try done; try lia; [by apply (fw_len _ _ W)|by apply (fw_bytes _ _ W)].
Qed.

Lemma iappend_loop_runs v0 d0 off0 src : let n := Z.of_nat (length src) in bytes_ok src -> 0 <= off0 -> off0 + n <= MAXFILE * 512 ->
  forall fuel tot v s d, written g bns v0 d0 off0 src tot v d -> mk_rep v s -> tight_at v d (off0 + tot) -> 0 <= tot <= n -> (Z.to_nat (n - tot) <= fuel)%nat ->
    mk_freeblock s + fblocks (off0 + n) - fblocks (off0 + tot) <= g_start g ->
    runs (iappend_loop d (off0 + tot) (drop (Z.to_nat tot) src) fuel) s (fun r s' => exists v', written g bns v0 d0 off0 src n v' r.1 /\ r.2 = off0 + n /\
      mk_rep v' s' /\ tight_at v' r.1 (off0 + n) /\ mk_freeblock s' = mk_freeblock s + fblocks (off0 + n) - fblocks (off0 + tot) /\ mk_freeinode s' = mk_freeinode s).
Proof.
  intros n Hsrc Ho0 Hmax. induction fuel as [|fuel IH]; intros tot v s d Wr R T Ht Hfu Hfb; cbn [iappend_loop];
    assert (El : Z.of_nat (length (drop (Z.to_nat tot) src)) = n - tot) by (rewrite length_drop; unfold n; lia); rewrite El; destruct (0 <? n - tot) eqn:E; bool_hyps; try lia.
  1,3: replace tot with n in * by lia; apply runs_ret; exists v; split_and!; try done; lia.
  remember (off0 + tot) as off eqn:Eoff. remember (Z.min (n - tot) ((off / 512 + 1) * 512 - off)) as m eqn:Em.
  assert (Hm : 0 < m <= 512 - off mod 512 /\ m <= n - tot) by mlia.
  assert (Hin : in_file (off / 512)) by (unfold in_file; mlia). assert (Ho : 0 <= off) by lia.
  unfold mk_assert. rewrite (proj2 (Z.ltb_lt _ _)) by apply Hin. apply runs_bind, runs_ret, runs_bind.
  pose proof (fblocks_step off m Ho (proj1 Hm)) as Hst. pose proof (fblocks_mono (off + m) (off0 + n) ltac:(lia)) as Hmono.
  pose proof (cost_tight v d off T Ho Hin) as Hcost.
  eapply runs_conseq; [apply (map_block_runs v s d (off / 512)); [done|apply (wr_evolve _ _ _ _ _ _ _ _ _ Wr)|done|lia]|].
  intros [d1 a] s1 (v1 & R1 & M1 & J1 & J2 & J3). cbn [fst snd] in *. rewrite Hcost in J1.
  pose proof (tight_step v d off v1 d1 a m T Ho Hin (proj1 Hm) M1 J3) as T1.
  pose proof M1 as (E1 & _ & _ & Hb & Ha & _). pose proof (ev_file _ _ _ _ _ _ E1) as F1.
  destruct (rep_byte_block v1 s1 d1 (off / 512) R1 F1 Hin) as (B1 & B2 & B3 & B4 & B5); [by rewrite Hb|]. rewrite Hb in *.
  destruct geom_values as (G1 & G2 & G3 & G4 & G5 & G6). pose proof (mr_fb _ _ R1).
  apply runs_bind, (rsect_runs v1 s1); [done|lia|lia|].
  assert (Wr1 : written g bns v0 d0 off0 src (tot + m)
    (upd v1 a (splice (Z.to_nat (off mod BSIZE)) (take (Z.to_nat m) (drop (Z.to_nat tot) src)) (v1 a))) d1).
  { rewrite Eoff. apply (written_step g bns v0 d0 off0 src n tot v d v1 d1 a m Wr Hsrc); try lia; unfold BSIZE; try lia; [by rewrite <- Eoff|]. rewrite Em, Eoff. mlia. }
  replace (off - off / 512 * 512) with (off mod BSIZE) by (unfold BSIZE; mlia).
  pose proof (ev_wf _ _ _ _ _ _ (wr_evolve _ _ _ _ _ _ _ _ _ Wr1)) as W2.
  apply runs_bind, (wsect_runs v1 s1); [done|lia|lia|done|]. intros s2 R2 J4 J5. rewrite drop_drop.
  assert (Eom : off + m = off0 + (tot + m)) by lia. replace (Z.to_nat tot + Z.to_nat m)%nat with (Z.to_nat (tot + m)) by lia. rewrite Eom in *.
  eapply runs_conseq; [apply (IH (tot + m) _ s2 d1 Wr1 R2)|].
  - apply tight_upd; [done|auto].
  - lia.
  - lia.
  - lia.
  - intros r s' (v' & K1 & K2 & K3 & K4 & K5 & K6). exists v'. split_and!; try done; [lia|congruence].
Qed.

(** A file that has only been appended to: the blocks of its bytes, and zeros behind them. *)
Record tight (v : disk) (d : dinode) : Prop := {
  tt_at : tight_at v d (d_size d);
  tt_zero : forall k, d_size d <= k -> in_file (k / BSIZE) -> baddr v d (k / BSIZE) <> 0 -> fbyte v d k = 0
}.

Lemma tight_ext v v' d : tight v d -> (forall m, file_block v d m -> v' m = v m) -> tight v' d.
Proof.
  intros [[T1 T2] T3] Hm. assert (Hi : ind d <> 0 -> v' (ind d) = v (ind d)) by (intros H; apply Hm; split; [done|by left]).
  assert (Hb : forall bn, baddr v' d bn = baddr v d bn) by (intros; by apply baddr_ext). split; [split; [|done]|].
  - intros bn. rewrite Hb. apply T1.
  - intros k H1 H2. rewrite Hb. intros H3. unfold fbyte. rewrite Hb, Hm; [by apply T3|]. split; [done|]. right. by exists (k / BSIZE).
Qed.

(** Every file has one link. *)
Definition one_link (v : disk) : Prop := forall i, is_inum g i -> d_type (disk_inode v i) <> 0 -> d_nlink (disk_inode v i) = 1.

(** The state between two steps of [mkfs]: the inodes before [freeinode] are files that grow. *)
Record mk_inv (v : disk) (s : mk) : Prop := {
  mv_rep : mk_rep v s;
  mv_files : files_wf g v;
  mv_tight : forall i, is_inum g i -> d_type (disk_inode v i) <> 0 -> tight v (disk_inode v i);
  mv_next : 0 <= mk_freeinode s <= mk_ninodes;
  mv_rest : forall i, mk_freeinode s <= i < mk_ninodes -> d_type (disk_inode v i) = 0;
  mv_links : one_link v
}.

(** The type and the bytes of every file. *)
Definition typed_files (v : disk) (i : Z) : option (Z * list Z) :=
  if d_type (disk_inode v i) =? 0 then None else Some (d_type (disk_inode v i), content v (disk_inode v i)).

Lemma typed_files_Some v i ty c : typed_files v i = Some (ty, c) -> d_type (disk_inode v i) = ty /\ ty <> 0 /\ content v (disk_inode v i) = c.
Proof. unfold typed_files. destruct (_ =? 0) eqn:E; [done|]. bool_hyps. intros [= <- <-]. done. Qed.

Lemma typed_files_eq v i : typed_files v i = (fun c => (d_type (disk_inode v i), c)) <$> files v i.
Proof. unfold typed_files, files. by destruct (_ =? 0). Qed.

Lemma content_length v d : 0 <= d_size d -> Z.of_nat (length (content v d)) = d_size d.
Proof. intros H. unfold content. rewrite length_fmap, length_seqZ. lia. Qed.

Lemma i2b_range i : is_inum g i -> 2 <= i2b i < bmb g /\ i2b i < first_used.
Proof. intros Hi. destruct geom_values as (G1 & G2 & G3 & G4 & G5 & G6). unfold is_inum in Hi. unfold i2b, IPB. rewrite G2, G4, G5 in *. mlia. Qed.

Lemma winode_runs v s i d (Q : unit -> mk -> Prop) : mk_rep v s -> is_inum g i -> dinode_typed d ->
  (forall s', mk_rep (put_inode v i d) s' -> mk_freeblock s' = mk_freeblock s -> mk_freeinode s' = mk_freeinode s -> Q tt s') -> runs (winode i d) s Q.
Proof.
  intros R Hi Ty HQ. destruct (i2b_range i Hi) as [H1 H2]. destruct geom_values as (G1 & G2 & G3 & G4 & G5 & G6). pose proof (mr_fb _ _ R).
  unfold winode. apply runs_bind, (rsect_runs v s); [done|lia|lia|]. apply (wsect_runs v s); [done|lia|lia| |done].
  apply (fs_wf_put g v i d); [apply R|done|done].
Qed.

Lemma rinode_runs v s i (Q : dinode -> mk -> Prop) : mk_rep v s -> is_inum g i -> Q (disk_inode v i) s -> runs (rinode i) s Q.
Proof.
  intros R Hi HQ. destruct (i2b_range i Hi) as [H1 H2]. destruct geom_values as (G1 & G2 & G3 & G4 & G5 & G6).
  unfold rinode. apply runs_bind, (rsect_runs v s); [done|lia|lia|]. by apply runs_ret.
Qed.

Lemma written_zero v d src n v' d' : tight v d -> written g bns v d (d_size d) src n v' d' -> 0 <= n ->
  forall k, d_size d + n <= k -> in_file (k / BSIZE) -> baddr v' d' (k / BSIZE) <> 0 -> fbyte v' d' k = 0.
Proof.
  intros [_ T] Wr Hn k Hk Hin Hb. destruct (decide (baddr v d (k / BSIZE) = 0)) as [Hz|Hz].
  - apply (wr_zero _ _ _ _ _ _ _ _ _ Wr); [lia|done|done|done].
  - rewrite (wr_rest _ _ _ _ _ _ _ _ _ Wr k) by (done || lia). apply T; [lia|done|done].
Qed.

(** What one step does to the files. *)
Definition next (v : disk) (s : mk) (upd_files : Z -> option (Z * list Z)) (fb : Z) (s' : mk) : Prop :=
  exists v', mk_inv v' s' /\ (forall j, is_inum g j -> typed_files v' j = upd_files j) /\ mk_freeblock s' = fb.

Lemma iappend_runs v s i ty c p fb : mk_inv v s -> is_inum g i -> typed_files v i = Some (ty, c) -> (0 < length p)%nat -> bytes_ok p ->
  Z.of_nat (length c) + Z.of_nat (length p) <= MAXFILE * BSIZE ->
  fb = mk_freeblock s + fblocks (Z.of_nat (length c) + Z.of_nat (length p)) - fblocks (Z.of_nat (length c)) -> fb <= g_start g ->
  runs (iappend i p) s (fun _ s' => mk_freeinode s' = mk_freeinode s /\
    next v s (fun j => if decide (j = i) then Some (ty, c ++ p) else typed_files v j) fb s').
Proof.
  intros I Hi Hf Hp Hb Hmax Efb Hfb. destruct (typed_files_Some _ _ _ _ Hf) as (Ety & Hty & Hc). rewrite <- Ety in Hty. pose proof (mv_files _ _ I) as FW.
  pose proof (fl_file _ _ FW i Hi Hty) as F. pose proof (mv_tight _ _ I i Hi Hty) as T. set (d := disk_inode v i) in *. set (n := Z.of_nat (length p)) in *.
  assert (Hsz : 0 <= d_size d) by apply (iw_typed _ _ _ F). assert (Ec : Z.of_nat (length c) = d_size d) by (rewrite <- Hc; by apply content_length). rewrite Ec in *.
  unfold iappend. apply runs_bind, (rinode_runs v s); [apply I|done|]. fold d. apply runs_bind. pose proof (mr_wf _ _ (mv_rep _ _ I)) as W.
  pose proof (iappend_loop_runs v d (d_size d) p Hb Hsz Hmax (length p) 0 v s d (written_start g bns v d (d_size d) p W F) (mv_rep _ _ I)) as HL.
  rewrite Z.add_0_r, drop_0 in HL. eapply runs_conseq; [apply HL; [apply T|unfold n; lia|unfold n; lia|unfold n in *; lia]|]. clear HL.
  intros [d' off'] s1 (v1 & Wr & -> & R1 & T1 & Ef & En). cbn [fst snd] in *. fold n in Wr, T1, Ef.
  pose proof (wr_evolve _ _ _ _ _ _ _ _ _ Wr) as E. assert (Hn : 0 < n) by (unfold n; lia).
  assert (Hle : 0 <= d_size d <= d_size d) by lia. assert (Hn0 : 0 <= n) by lia.
  pose proof (grown_wf g bns v d (d_size d) p n v1 d' F Hle Hn0 Hmax Wr) as Fg. destruct (grown_fields d d' (d_size d + n) (ev_meta _ _ _ _ _ _ E)) as (M1 & M2 & M3).
  assert (Eg : grown d d' (d_size d + n) = set_size (d_size d + n) d') by (unfold grown; by rewrite (proj2 (Z.ltb_lt _ _)) by lia).
  assert (Es : stored v1 d d' i (d_size d + n) = put_inode v1 i (set_size (d_size d + n) d')) by (unfold stored; rewrite Eg; by rewrite (proj2 (Z.ltb_lt _ _)) by lia).
  destruct (stored_spec g bns v i (d_size d) p n v1 d' W F Hi Hle Hn0 Hmax Wr) as (W2 & Hi2 & Hj2 & _).
  destruct (written_files g bns v i (d_size d) p n v1 d' FW Hi Hty Hle Hn0 Hmax ltac:(unfold n; lia) Wr) as (FW2 & _ & Hfiles).
  fold d in W2, Hi2, Hj2, FW2, Hfiles. rewrite Es, Eg in *. apply (winode_runs v1 s1); [done|done|apply Fg|]. intros s2 R2 Ef2 En2. split; [congruence|].
  set (dn := set_size (d_size d + n) d') in *. set (v2 := put_inode v1 i dn) in *.
  assert (Hbig : forall m, bmb g <= m -> v2 m = v1 m) by (intros m Hm; apply (put_inode_other g); [done|apply W|by left]).
  exists v2. split; [split; try done|split].
  - intros j Hj. destruct (decide (j = i)) as [->|Hne].
    + intros _. rewrite Hi2. apply (tight_ext v1).
      * split; [by destruct T1|]. intros k. cbn [dn set_size d_size]. by apply (written_zero v d p n v1 d').
      * intros m Hm. apply Hbig. destruct (file_block_used _ _ _ _ Fg Hm). lia.
    + rewrite Hj2 by done. intros Hjt. apply (tight_ext v); [by apply (mv_tight _ _ I)|]. intros m Hm.
      destruct (file_block_used _ _ _ _ (fl_file _ _ FW j Hj Hjt) Hm) as [H1 H2]. rewrite Hbig by lia. apply (ev_frame _ _ _ _ _ _ E); [done|lia|].
      intros Hd. by apply (fl_disj _ _ FW i j m).
  - rewrite En2, En. apply (mv_next _ _ I).
  - intros j Hj. rewrite En2, En in Hj. pose proof (mv_next _ _ I). assert (Hji : j <> i) by (intros ->; apply Hty; by apply (mv_rest _ _ I)).
    rewrite Hj2 by (done || (unfold is_inum; cbn; lia)). by apply (mv_rest _ _ I).
  - intros j Hj. destruct (decide (j = i)) as [->|Hne]; [intros _; rewrite Hi2|rewrite Hj2 by done; by apply (mv_links _ _ I)].
    cbn [dn set_size d_nlink]. destruct (ev_meta _ _ _ _ _ _ E) as (_ & _ & _ & -> & _). by apply (mv_links _ _ I).
  - intros j Hj. rewrite typed_files_eq, Hfiles by done. case_decide as Hji.
    + subst j. rewrite Hi2. cbn [fmap option_fmap option_map dn set_size d_type]. destruct (ev_meta _ _ _ _ _ _ E) as (-> & _). rewrite Ety, Hc. do 2 f_equal.
      unfold splice. rewrite <- Ec, Nat2Z.id. unfold n. rewrite Nat2Z.id, take_ge, take_ge by done. rewrite drop_ge by lia. by rewrite app_nil_r.
    + rewrite Hj2 by done. by rewrite <- typed_files_eq.
  - rewrite Ef2, Ef. unfold n in *. lia.
Qed.

(** ** A new inode *)

Definition new_dinode (ty : Z) : dinode := Dinode ty 0 0 1 0 (replicate 13 0).

Lemma new_dinode_blocks v ty : ind (new_dinode ty) = 0 /\ forall bn, baddr v (new_dinode ty) bn = 0.
Proof.
  assert (Ha : forall k, addr_at (new_dinode ty) k = 0) by (intros; unfold addr_at, new_dinode; apply nth_replicate_0).
  split; [apply Ha|]. intros bn. unfold baddr, ind. rewrite !Ha. by destruct (_ <? _).
Qed.

Lemma new_dinode_typed ty : is_short ty -> dinode_typed (new_dinode ty).
Proof.
  intros H. unfold dinode_typed, is_short, is_uint in *. cbn [d_type d_major d_minor d_nlink d_size d_addrs new_dinode].
  split_and!; try lia; [done|]. apply Forall_replicate. lia.
Qed.

Lemma new_dinode_wf v ty : is_short ty -> file_wf g v (new_dinode ty) /\ tight v (new_dinode ty) /\ (forall m, ~ file_block v (new_dinode ty) m) /\ content v (new_dinode ty) = [].
Proof.
  intros H. destruct (new_dinode_blocks v ty) as [Hi Hb].
  assert (Hf : forall m, ~ file_block v (new_dinode ty) m) by (intros m [Hm [->|(bn & _ & <-)]]; [by rewrite Hi in Hm|by rewrite Hb in Hm]).
  split_and!; try done.
  - split; try (by apply new_dinode_typed); rewrite ?Hi; try done; try (intros bn; rewrite Hb; done).
    intros bn H1 H2. cbn in H2. unfold BSIZE in H2. lia.
  - split; [split|].
    + intros bn [Hbn _]. rewrite Hb. cbn. split; [done|lia].
    + rewrite Hi. cbn. unfold NDIRECT. split; [done|lia].
    + intros k _ _. by rewrite Hb.
Qed.

Lemma ialloc_runs v s ty : mk_inv v s -> mk_freeinode s < mk_ninodes -> is_short ty -> ty <> 0 ->
  runs (mk_ialloc ty) s (fun i s' => i = mk_freeinode s /\ mk_freeinode s' = mk_freeinode s + 1 /\
    next v s (fun j => if decide (j = mk_freeinode s) then Some (ty, []) else typed_files v j) (mk_freeblock s) s').
Proof.
  intros I Hlt Hsh Hty. pose proof (mv_next _ _ I) as Hk. pose proof (mv_rep _ _ I) as R. pose proof (mr_wf _ _ R) as W. pose proof (mv_files _ _ I) as FW.
  set (k := mk_freeinode s) in *. assert (Hi : is_inum g k) by (unfold is_inum; cbn; lia). pose proof (new_dinode_typed ty Hsh) as Ty.
  unfold mk_ialloc. apply runs_bind. unfold kget at 1, runs at 1. apply runs_bind, runs_mod, runs_bind. fold k. fold (new_dinode ty).
  set (s1 := Mk _ _ _ _ _). assert (R1 : mk_rep v s1) by (by destruct R). apply (winode_runs v s1); [done|done|done|]. intros s2 R2 Ef En. apply runs_ret.
  assert (En' : mk_freeinode s2 = k + 1) by (rewrite En; cbn; apply u32_small; unfold mk_ninodes in *; lia). split_and!; [done|done|].
  set (v2 := put_inode v k (new_dinode ty)) in *. assert (Hi2 : disk_inode v2 k = new_dinode ty) by (by apply (disk_inode_put g)).
  assert (Hj2 : forall j, is_inum g j -> j <> k -> disk_inode v2 j = disk_inode v j) by (intros; by apply (disk_inode_put_other g)).
  assert (Hf2 : forall e, file_wf g v e -> file_wf g v2 e /\ content v2 e = content v e /\ forall m, file_block v2 e m <-> file_block v e m) by (intros; by apply (put_inode_file g)).
  destruct (new_dinode_wf v2 ty Hsh) as (N1 & N2 & N3 & N4). exists v2. split; [split; try done|split].
  - split; [apply R2| |].
    + intros j Hj. destruct (decide (j = k)) as [->|Hne]; [by rewrite Hi2|]. rewrite Hj2 by done. intros Hjt. by apply Hf2, (fl_file _ _ FW).
    + intros i j m Hi1 Hj Hne. destruct (decide (i = k)) as [->|Hik]; [rewrite Hi2; intros _ _ Hb; by apply N3 in Hb|].
      destruct (decide (j = k)) as [->|Hjk]; [rewrite Hi2; intros _ _ _; apply N3|]. rewrite !Hj2 by done. intros Hit Hjt.
      destruct (Hf2 _ (fl_file _ _ FW i Hi1 Hit)) as (_ & _ & ->). destruct (Hf2 _ (fl_file _ _ FW j Hj Hjt)) as (_ & _ & ->). by apply (fl_disj _ _ FW).
  - intros j Hj. destruct (decide (j = k)) as [->|Hne]; [by rewrite Hi2|]. rewrite Hj2 by done. intros Hjt. apply (tight_ext v); [by apply (mv_tight _ _ I)|].
    intros m Hm. destruct (file_block_used _ _ _ _ (fl_file _ _ FW j Hj Hjt) Hm). apply (put_inode_other g); [done|apply W|left; lia].
  - rewrite En'. lia.
  - intros j Hj. rewrite En' in Hj. rewrite Hj2 by (unfold is_inum; cbn; lia). apply (mv_rest _ _ I). lia.
  - intros j Hj. destruct (decide (j = k)) as [->|Hne]; [by rewrite Hi2|]. rewrite Hj2 by done. by apply (mv_links _ _ I).
  - intros j Hj. unfold typed_files. case_decide as Hji.
    + subst j. rewrite Hi2, N4. cbn [d_type new_dinode]. by rewrite (proj2 (Z.eqb_neq _ _)).
    + rewrite Hj2 by done. destruct (d_type (disk_inode v j) =? 0) eqn:E; [done|]. apply Z.eqb_neq in E.
      by destruct (Hf2 _ (fl_file _ _ FW j Hj E)) as (_ & -> & _).
  - rewrite Ef. done.
Qed.

(** ** The steps, on the files *)

(** The files are [F], the next inode is [k] and the next block [fb]. *)
Definition mk_abs (s : mk) (F : Z -> option (Z * list Z)) (k fb : Z) : Prop :=
  exists v, mk_inv v s /\ (forall j, is_inum g j -> typed_files v j = F j) /\ mk_freeblock s = fb /\ mk_freeinode s = k.

Lemma mk_abs_ext s F F' k fb fb' : mk_abs s F k fb -> (forall j, is_inum g j -> F j = F' j) -> fb = fb' -> mk_abs s F' k fb'.
Proof. intros (v & I & HF & E1 & E2) HX <-. exists v. split_and!; try done. intros j Hj. rewrite HF by done. auto. Qed.

Lemma abs_iappend s F k fb i ty c p fb' : mk_abs s F k fb -> is_inum g i -> F i = Some (ty, c) -> (0 < length p)%nat -> bytes_ok p ->
  Z.of_nat (length c) + Z.of_nat (length p) <= MAXFILE * BSIZE ->
  fb' = fb + fblocks (Z.of_nat (length c) + Z.of_nat (length p)) - fblocks (Z.of_nat (length c)) -> fb' <= g_start g ->
  runs (iappend i p) s (fun _ s' => mk_abs s' (upd F i (Some (ty, c ++ p))) k fb').
Proof.
  intros (v & I & HF & E1 & E2) Hi Hf Hp Hb Hmax Efb Hle. eapply runs_conseq.
  - apply (iappend_runs v s i ty c p fb'); try done; [by rewrite HF|by rewrite E1].
  - intros _ s' (En & v' & I' & HF' & E'). exists v'. split_and!; try done; [|congruence]. intros j Hj. rewrite HF' by done. unfold upd. case_decide; [done|by apply HF].
Qed.

Lemma abs_ialloc s F k fb ty : mk_abs s F k fb -> k < mk_ninodes -> is_short ty -> ty <> 0 ->
  runs (mk_ialloc ty) s (fun i s' => i = k /\ mk_abs s' (upd F k (Some (ty, []))) (k + 1) fb).
Proof.
  intros (v & I & HF & E1 & E2) Hk Hsh Hty. subst k. eapply runs_conseq; [by apply (ialloc_runs v s ty)|].
  intros i s' (-> & En & v' & I' & HF' & E'). split; [done|]. exists v'. split_and!; try done; [|congruence]. intros j Hj. rewrite HF' by done.
  unfold upd. case_decide; [done|by apply HF].
Qed.

(** What the calls of [read] return before the 0. *)
Definition chunks_ok (chunks : list (list Z)) : Prop := Forall (fun p => (0 < length p)%nat /\ bytes_ok p) chunks.

Lemma abs_chunks chunks : forall s F k fb i ty c fb', mk_abs s F k fb -> is_inum g i -> F i = Some (ty, c) -> chunks_ok chunks ->
  let n := Z.of_nat (length (concat chunks)) in Z.of_nat (length c) + n <= MAXFILE * BSIZE ->
  fb' = fb + fblocks (Z.of_nat (length c) + n) - fblocks (Z.of_nat (length c)) -> fb' <= g_start g ->
  runs (for_each chunks (iappend i)) s (fun _ s' => mk_abs s' (upd F i (Some (ty, c ++ concat chunks))) k fb').
Proof.
  induction chunks as [|p chunks IH]; intros s F k fb i ty c fb' A Hi Hf Hc n Hmax Efb Hle; cbn [for_each concat] in *.
  - apply runs_ret. eapply mk_abs_ext; [exact A| |].
    + intros j _. unfold upd. case_decide; [subst; by rewrite app_nil_r|done].
    + unfold n in Efb. cbn in Efb. rewrite Z.add_0_r in Efb. lia.
  - apply Forall_cons in Hc as [[Hp Hb] Hc]. unfold n in *. rewrite length_app, Nat2Z.inj_add in *.
    pose proof (fblocks_mono (Z.of_nat (length c) + Z.of_nat (length p)) (Z.of_nat (length c) + (Z.of_nat (length p) + Z.of_nat (length (concat chunks)))) ltac:(lia)) as M.
    apply runs_bind. eapply runs_conseq; [eapply (abs_iappend s F k fb i ty c p); try done; lia|]. intros ? s1 A1.
    eapply runs_conseq; [eapply (IH s1 _ k _ i ty (c ++ p) fb' A1 Hi); [apply upd_eq|done|..]|].
    + rewrite length_app. lia.
    + rewrite length_app, Nat2Z.inj_add. rewrite <- Z.add_assoc. lia.
    + done.
    + intros ? s2 A2. eapply mk_abs_ext; [exact A2| |done]. intros j _. unfold upd. case_decide; [|done]. by rewrite app_assoc.
Qed.

Lemma length_strncpy_l n : forall t, length (strncpy_l n t) = n.
Proof. induction n as [|n IH]; intros t; [done|]. cbn [strncpy_l]. destruct (_ =? 0); [by rewrite length_replicate|]. cbn. by rewrite IH. Qed.

Lemma bytes_ok_strncpy_l n : forall t, bytes_ok t -> bytes_ok (strncpy_l n t).
Proof.
  induction n as [|n IH]; intros t Ht; cbn [strncpy_l]; [by apply Forall_nil|]. destruct (hd 0 t =? 0) eqn:E; [apply Forall_replicate; lia|].
  destruct t as [|x t]; [done|]. apply Forall_cons in Ht as [H1 H2]. constructor; [done|by apply IH].
Qed.

Lemma length_dirent i name : length (dirent i name) = 16%nat.
Proof. unfold dirent. by rewrite length_app, length_le_bytes, length_strncpy_l. Qed.

Lemma bytes_ok_dirent i name : bytes_ok name -> bytes_ok (dirent i name).
Proof. intros H. apply Forall_app. split; [apply le_bytes_ok|by apply bytes_ok_strncpy_l]. Qed.

Lemma bytes_ok_strip name : bytes_ok name -> bytes_ok (strip name).
Proof. intros H. destruct name as [|x l]; [done|]. cbn. destruct (x =? 95); [by apply Forall_cons in H as [_ ?]|done]. Qed.

(** An argument [mkfs] can take. *)
Record file_ok (f : list Z * list (list Z)) : Prop := {
  fo_slash : 47 ∉ f.1;
  fo_name : bytes_ok f.1;
  fo_chunks : chunks_ok f.2;
  fo_size : Z.of_nat (length (concat f.2)) <= MAXFILE * BSIZE
}.

(** The entries of the root directory from inode [k] on, and the blocks of the files. *)
Fixpoint entries (k : Z) (fs : list (list Z * list (list Z))) : list Z :=
  match fs with
  | [] => []
  | f :: fs' => dirent k (strip f.1) ++ entries (k + 1) fs'
  end.

Definition space (fs : list (list Z * list (list Z))) : Z := foldr (fun f n => fblocks (Z.of_nat (length (concat f.2))) + n) 0 fs.

Lemma length_entries fs : forall k, length (entries k fs) = (16 * length fs)%nat.
Proof. induction fs as [|f fs IH]; intros k; [done|]. cbn [entries length]. rewrite length_app, length_dirent, IH. lia. Qed.

Lemma fblocks_nonneg n : 0 <= n -> 0 <= fblocks n.
Proof. intros H. unfold fblocks. destruct (_ <? _); mlia. Qed.

Lemma space_nonneg fs : 0 <= space fs.
Proof. induction fs as [|f fs IH]; cbn; [done|]. pose proof (fblocks_nonneg (Z.of_nat (length (concat f.2)))). unfold space in IH. lia. Qed.

Lemma abs_add_file s F k fb rc f fb' : mk_abs s F k fb -> F 1 = Some (T_DIR, rc) -> 2 <= k < mk_ninodes -> file_ok f ->
  Z.of_nat (length rc) + 16 <= MAXFILE * BSIZE ->
  fb' = fb + fblocks (Z.of_nat (length rc) + 16) - fblocks (Z.of_nat (length rc)) + fblocks (Z.of_nat (length (concat f.2))) -> fb' <= g_start g ->
  runs (add_file 1 f) s (fun _ s' => mk_abs s' (upd (upd F k (Some (T_FILE, concat f.2))) 1 (Some (T_DIR, rc ++ dirent k (strip f.1)))) (k + 1) fb').
Proof.
  intros A H1 Hk [O1 O2 O3 O4] Hmax Efb Hle. unfold add_file, mk_assert. rewrite bool_decide_eq_false_2 by done. apply runs_bind, runs_ret, runs_bind.
  eapply runs_conseq; [apply (abs_ialloc s F k fb T_FILE A); [lia|unfold is_short, T_FILE; lia|done]|]. intros i s1 [-> A1].
  assert (I1 : is_inum g 1) by (unfold is_inum; cbn; unfold mk_ninodes; lia). assert (Ik : is_inum g k) by (unfold is_inum; cbn; lia).
  pose proof (fblocks_nonneg (Z.of_nat (length (concat f.2))) ltac:(lia)) as Hnn. apply runs_bind.
  eapply runs_conseq; [eapply (abs_iappend s1 _ (k + 1) fb 1 T_DIR rc (dirent k (strip f.1)) _ A1 I1); rewrite ?length_dirent; change (Z.of_nat 16) with 16; [|lia| |done|done|lia]|].
  - rewrite upd_ne by lia. done.
  - by apply bytes_ok_dirent, bytes_ok_strip.
  - intros ? s2 A2. eapply runs_conseq; [eapply (abs_chunks f.2 s2 _ (k + 1) _ k T_FILE [] fb' A2 Ik); [by rewrite upd_ne, upd_eq by lia|done|done| |done]|].
    + cbn [length]. rewrite !Z.add_0_l. change (fblocks (Z.of_nat 0)) with 0. lia.
    + intros ? s3 A3. eapply mk_abs_ext; [exact A3| |done]. intros j _. unfold upd. repeat case_decide; try done; lia.
Qed.

(** The files of the arguments have the inodes from [k] on. *)
Definition with_files (k : Z) (fs : list (list Z * list (list Z))) (F : Z -> option (Z * list Z)) (j : Z) : option (Z * list Z) :=
  if k <=? j then match fs !! Z.to_nat (j - k) with Some f => Some (T_FILE, concat f.2) | None => F j end else F j.

Lemma with_files_cons k f fs F j : with_files k (f :: fs) F j = with_files (k + 1) fs (upd F k (Some (T_FILE, concat f.2))) j.
Proof.
  unfold with_files. destruct (decide (j = k)) as [->|Hne].
  - rewrite Z.leb_refl, Z.sub_diag, (proj2 (Z.leb_gt _ _)) by lia. by rewrite upd_eq.
  - rewrite upd_ne by done. destruct (k <=? j) eqn:E; bool_hyps.
    + rewrite (proj2 (Z.leb_le _ _)) by lia. by replace (Z.to_nat (j - k)) with (S (Z.to_nat (j - (k + 1)))) by lia.
    + by rewrite (proj2 (Z.leb_gt _ _)) by lia.
Qed.

Lemma with_files_below k fs F j : j < k -> with_files k fs F j = F j.
Proof. intros H. unfold with_files. by rewrite (proj2 (Z.leb_gt _ _)). Qed.

Lemma abs_files fs : forall s F k fb rc fb', mk_abs s F k fb -> F 1 = Some (T_DIR, rc) -> 2 <= k -> k + Z.of_nat (length fs) <= mk_ninodes -> Forall file_ok fs ->
  let n := Z.of_nat (length rc) + 16 * Z.of_nat (length fs) in n <= MAXFILE * BSIZE ->
  fb' = fb + fblocks n - fblocks (Z.of_nat (length rc)) + space fs -> fb' <= g_start g ->
  runs (for_each fs (add_file 1)) s (fun _ s' => mk_abs s' (upd (with_files k fs F) 1 (Some (T_DIR, rc ++ entries k fs))) (k + Z.of_nat (length fs)) fb').
Proof.
  induction fs as [|f fs IH]; intros s F k fb rc fb' A H1 Hk Hn Hok n Hmax Efb Hle; unfold n in *; cbn [for_each entries length] in *.
  - apply runs_ret. rewrite Z.add_0_r. eapply mk_abs_ext; [exact A| |].
    + intros j _. unfold upd, with_files. rewrite app_nil_r. case_decide; [by subst|]. by destruct (k <=? j).
    + change (space []) with 0 in Efb. change (Z.of_nat 0) with 0 in Efb. rewrite Z.mul_0_r, !Z.add_0_r in Efb. lia.
  - apply Forall_cons in Hok as [Hf Hok]. cbn [space foldr] in Efb. fold (space fs) in Efb. pose proof (space_nonneg fs).
    pose proof (fblocks_nonneg (Z.of_nat (length (concat f.2))) ltac:(lia)) as Hnn.
    pose proof (fblocks_mono (Z.of_nat (length rc) + 16) (Z.of_nat (length rc) + 16 * Z.of_nat (S (length fs))) ltac:(lia)) as M.
    apply runs_bind. eapply runs_conseq; [eapply (abs_add_file s F k fb rc f); try done; lia|]. intros ? s1 A1.
    assert (El : Z.of_nat (length (rc ++ dirent k (strip f.1))) = Z.of_nat (length rc) + 16) by (rewrite length_app, length_dirent; lia).
    eapply runs_conseq; [eapply (IH s1 _ (k + 1) _ (rc ++ dirent k (strip f.1)) fb' A1); [apply upd_eq|lia|lia|done|..]; rewrite ?El|].
    + lia.
    + replace (Z.of_nat (length rc) + 16 + 16 * Z.of_nat (length fs)) with (Z.of_nat (length rc) + 16 * Z.of_nat (S (length fs))) by lia. lia.
    + done.
    + intros ? s2 A2. replace (k + 1 + Z.of_nat (length fs)) with (k + Z.of_nat (S (length fs))) in A2 by lia. eapply mk_abs_ext; [exact A2| |done].
      intros j _. unfold upd at 1 4. case_decide as Hj; [by rewrite <- app_assoc|]. rewrite with_files_cons. unfold with_files.
      assert (Eu : upd (upd F k (Some (T_FILE, concat f.2))) 1 (Some (T_DIR, rc ++ dirent k (strip f.1))) j = upd F k (Some (T_FILE, concat f.2)) j) by (by apply upd_ne).
      by rewrite Eu.
Qed.

Lemma runs_assoc {A C D} (m : K mk A) (f : A -> K mk C) (h : C -> K mk D) s Q : runs (let* b := (let* a := m in f a) in h b) s Q -> runs (let* a := m in let* b := f a in h b) s Q.
Proof. unfold runs, kbind. by destruct (m s). Qed.

(** ** The empty image *)

Lemma zero_loop n : forall i s, 0 <= i -> mk_len s = i -> (forall m, mk_img s m = zeros) ->
  runs (for_each (seqZ i (Z.of_nat n)) (fun i => wsect i zeros)) s (fun _ s' => mk_len s' = i + Z.of_nat n /\ (forall m, mk_img s' m = zeros) /\
    mk_freeblock s' = mk_freeblock s /\ mk_usedblocks s' = mk_usedblocks s /\ mk_freeinode s' = mk_freeinode s).
Proof.
  induction n as [|n IH]; intros i s Hi Hl Hz.
  - apply runs_ret. split_and!; try done. lia.
  - rewrite seqZ_cons by lia. replace (Z.pred (Z.of_nat (S n))) with (Z.of_nat n) by lia. cbn [for_each]. apply runs_bind, runs_mod.
    eapply runs_conseq; [apply (IH (Z.succ i)); mkcbn; [lia|lia|]|].
    + intros m. unfold upd. by case_decide.
    + intros ? s' (E1 & E2 & E3 & E4 & E5). split_and!; try done. lia.
Qed.

Definition empty_fs : disk := upd (upd (fun _ => zeros) 1 superblock_bytes) (bmb g) (first_bits first_used).

Lemma empty_fs_cases m : m = 1 \/ m = bmb g \/ empty_fs m = zeros.
Proof.
  destruct (decide (m = 1)) as [->|H1]; [by left|]. destruct (decide (m = bmb g)) as [->|H2]; [by right; left|]. right; right.
  unfold empty_fs. by rewrite !upd_ne.
Qed.

Lemma empty_fs_wf : fs_wf g empty_fs.
Proof.
  destruct geom_values as (G1 & G2 & G3 & G4 & G5 & G6).
  assert (E1 : empty_fs 1 = superblock_bytes) by (unfold empty_fs; by rewrite upd_ne, upd_eq by done).
  assert (E2 : empty_fs (bmb g) = first_bits first_used) by apply upd_eq.
  assert (Hb : bytes_ok superblock_bytes) by (apply (bool_decide_unpack _); by vm_compute).
  split.
  - by split.
  - rewrite E1. by vm_compute.
  - rewrite E1. by vm_compute.
  - intros m _. destruct (empty_fs_cases m) as [->|[->| ->]]; [by rewrite E1|rewrite E2; apply length_first_bits|apply length_replicate].
  - intros m _. destruct (empty_fs_cases m) as [->|[->| ->]]; [by rewrite E1|rewrite E2; apply bytes_ok_first_bits|apply Forall_replicate; lia].
  - intros m [Hm Hf]. rewrite E2, bit_first_bits in Hf by lia. bool_hyps. lia.
Qed.

Lemma empty_fs_inode i : is_inum g i -> d_type (disk_inode empty_fs i) = 0.
Proof.
  intros Hi. destruct (i2b_range i Hi) as [H1 H2]. unfold disk_inode. destruct (empty_fs_cases (IBLOCK i)) as [E|[E| ->]].
  - unfold IBLOCK, IPB, is_inum in *. mlia.
  - change (i2b i) with (IBLOCK i) in *. lia.
  - unfold get_dinode. cbn [d_type]. unfold zeros. by rewrite get_le_zeros.
Qed.

Lemma empty_fs_abs s : mk_len s = mk_size -> mk_freeblock s = first_used -> mk_usedblocks s = first_used -> mk_freeinode s = 1 ->
  (forall m, mk_img s m = upd (fun _ => zeros) 1 superblock_bytes m) -> mk_abs s (fun _ => None) 1 first_used.
Proof.
  intros E1 E2 E3 E4 Hm. destruct geom_values as (G1 & G2 & G3 & G4 & G5 & G6). pose proof empty_fs_wf as W. exists empty_fs. split_and!; try done.
  2: { intros j Hj. unfold typed_files. by rewrite empty_fs_inode. }
  split.
  - split; rewrite ?E2; try done.
    + intros m Hne. rewrite Hm. unfold empty_fs. by rewrite (upd_ne _ (bmb g)).
    + intros m Hr. destruct (empty_fs_cases m) as [->|[->|]]; [lia|lia|done].
  - split; [done| |]; intros j; [|intros j' m]; intros; by rewrite empty_fs_inode in *.
  - intros i Hi. by rewrite empty_fs_inode.
  - rewrite E4. unfold mk_ninodes. lia.
  - intros i Hi. apply empty_fs_inode. rewrite E4 in Hi. unfold is_inum. cbn. lia.
  - intros i Hi Ht. by rewrite empty_fs_inode in Ht.
Qed.

(** ** The end: the size of the root directory, and the bitmap *)

(** The same disk, block by block. *)
Lemma files_wf_eq v v' : (forall m, v' m = v m) -> files_wf g v -> files_wf g v' /\ (one_link v -> one_link v') /\ (forall i, is_inum g i -> typed_files v' i = typed_files v i) /\ nfree g v' = nfree g v.
Proof.
  intros Hm [W F D]. assert (Hi : forall i, disk_inode v' i = disk_inode v i) by (intros; unfold disk_inode; by rewrite Hm).
  assert (Hw : forall e, file_wf g v e -> file_wf g v' e) by (intros e He; apply (file_wf_ext g v); [done|auto|]; intros m [H1 H2]; split; [done|by rewrite Hm]).
  split_and!.
  - split.
    + destruct W as [W1 W2 W3 W4 W5 W6]. split; rewrite ?Hm; try done; intros m Hx.
      * rewrite Hm. by apply W4.
      * rewrite Hm. by apply W5.
      * apply W6. destruct Hx as [H1 H2]. split; [done|by rewrite <- Hm].
    + intros i H1. rewrite Hi. auto.
    + intros i j m. rewrite !Hi, !(file_block_ext v v') by auto. apply D.
  - intros H i. rewrite Hi. apply H.
  - intros i H1. unfold typed_files. rewrite Hi. destruct (_ =? 0) eqn:E; [done|]. apply Z.eqb_neq in E. by rewrite (content_ext g v v') by auto.
  - unfold nfree. by rewrite Hm.
Qed.

Lemma content_grow v d n : tight v d -> 0 <= d_size d <= n -> n <= MAXFILE * BSIZE -> (forall bn, 0 <= bn -> bn * BSIZE < n -> baddr v d bn <> 0) ->
  content v (set_size n d) = content v d ++ replicate (Z.to_nat (n - d_size d)) 0.
Proof.
  intros T Hn Hmax Hm. unfold content. cbn [set_size d_size]. 
  assert (Es : seqZ 0 n = seqZ 0 (d_size d) ++ seqZ (0 + d_size d) (n - d_size d)) by (rewrite <- seqZ_app by lia; f_equal; lia).
  rewrite Es, fmap_app. f_equal.
  apply list_eq. intros k. destruct (decide (k < Z.to_nat (n - d_size d))%nat) as [Hk|Hk].
  - rewrite list_lookup_fmap, lookup_seqZ_lt, lookup_replicate_2 by lia. cbn [fmap option_fmap option_map]. f_equal.
    change (fbyte v (set_size n d) (0 + d_size d + Z.of_nat k)) with (fbyte v d (0 + d_size d + Z.of_nat k)).
    apply (tt_zero _ _ T); [lia| |apply Hm]; unfold in_file, BSIZE in *; mlia.
  - rewrite !lookup_ge_None_2; [done|rewrite length_replicate; lia|rewrite length_fmap, length_seqZ; lia].
Qed.

(** The size of the root directory is rounded up to whole blocks. *)
Definition round_up (n : Z) : Z := (n / BSIZE + 1) * BSIZE.

Lemma fix_root_runs v s c : mk_inv v s -> typed_files v 1 = Some (T_DIR, c) -> Z.of_nat (length c) mod BSIZE <> 0 -> round_up (Z.of_nat (length c)) <= MAXFILE * BSIZE ->
  runs (let* din := rinode 1 in winode 1 (set_size ((d_size din / BSIZE + 1) * BSIZE) din)) s (fun _ s' => mk_freeblock s' = mk_freeblock s /\
    exists v', mk_rep v' s' /\ files_wf g v' /\ one_link v' /\ forall j, is_inum g j -> typed_files v' j =
      if decide (j = 1) then Some (T_DIR, c ++ replicate (Z.to_nat (round_up (Z.of_nat (length c)) - Z.of_nat (length c))) 0) else typed_files v j).
Proof.
  intros I Hf Hmod Hmax. destruct (typed_files_Some _ _ _ _ Hf) as (Ety & _ & Hc). assert (Hi : is_inum g 1) by (unfold is_inum; cbn; unfold mk_ninodes; lia).
  pose proof (mv_files _ _ I) as FW. pose proof (mr_wf _ _ (mv_rep _ _ I)) as W. assert (Hty : d_type (disk_inode v 1) <> 0) by (by rewrite Ety).
  pose proof (fl_file _ _ FW 1 Hi Hty) as F. pose proof (mv_tight _ _ I 1 Hi Hty) as T. set (d := disk_inode v 1) in *.
  assert (Hsz : 0 <= d_size d) by apply (iw_typed _ _ _ F). assert (Ec : Z.of_nat (length c) = d_size d) by (rewrite <- Hc; by apply content_length). rewrite Ec in *.
  apply runs_bind, (rinode_runs v s); [apply I|done|]. fold d. change ((d_size d / BSIZE + 1) * BSIZE) with (round_up (d_size d)). set (n := round_up (d_size d)) in *.
  assert (Hn : d_size d < n <= d_size d + BSIZE) by (unfold n, round_up, BSIZE; mlia).
  assert (Hb : forall bn, 0 <= bn -> bn * BSIZE < n -> baddr v d bn <> 0).
  { intros bn H1 H2. unfold n, round_up, BSIZE in *. apply (ta_blk _ _ _ (tt_at _ _ T)); [unfold in_file; lia|mlia]. }
  assert (Fn : file_wf g v (set_size n d)) by (apply set_size_wf; [done|lia|done]).
  apply (winode_runs v s); [apply I|done|apply Fn|]. intros s' R' E1 E2. split; [done|]. set (v' := put_inode v 1 (set_size n d)) in *. exists v'. split; [done|].
  assert (Hi2 : disk_inode v' 1 = set_size n d) by (apply (disk_inode_put g); [done|done|apply Fn]).
  assert (Hj2 : forall j, is_inum g j -> j <> 1 -> disk_inode v' j = disk_inode v j) by (intros; apply (disk_inode_put_other g); try done; apply Fn).
  assert (Hf2 : forall e, file_wf g v e -> file_wf g v' e /\ content v' e = content v e /\ forall m, file_block v' e m <-> file_block v e m) by (intros; apply (put_inode_file g); try done; apply Fn).
  assert (Hall : forall j, is_inum g j -> d_type (disk_inode v' j) <> 0 -> exists e, file_wf g v e /\ disk_inode v' j = e /\ d_type (disk_inode v j) <> 0 /\
    (forall m, file_block v e m <-> file_block v (disk_inode v j) m)).
  { intros j Hj. destruct (decide (j = 1)) as [->|Hne]; [intros _; by exists (set_size n d)|]. rewrite Hj2 by done. intros Hjt. exists (disk_inode v j).
    split; [by apply (fl_file _ _ FW)|done]. }
  split; [split|split].
  - apply R'.
  - intros j Hj Hjt. destruct (Hall j Hj Hjt) as (e & H1 & -> & _). by apply Hf2.
  - intros i j m H1 H2 Hne Hit Hjt. destruct (Hall i H1 Hit) as (e & A1 & -> & A2 & A3). destruct (Hall j H2 Hjt) as (e' & B1 & -> & B2 & B3).
    destruct (Hf2 _ A1) as (_ & _ & ->). destruct (Hf2 _ B1) as (_ & _ & ->). rewrite A3, B3. by apply (fl_disj _ _ FW).
  - intros j Hj. destruct (decide (j = 1)) as [->|Hne]; [intros _; rewrite Hi2|rewrite Hj2 by done; by apply (mv_links _ _ I)]. by apply (mv_links _ _ I).
  - intros j Hj. unfold typed_files. case_decide as Hj1.
    + subst j. rewrite Hi2. change (d_type (set_size n d)) with (d_type d). rewrite Ety. change (T_DIR =? 0) with false. cbn iota. do 2 f_equal.
      destruct (Hf2 _ Fn) as (_ & -> & _). rewrite <- Hc. apply content_grow; [done|lia|done|done].
    + rewrite Hj2 by done. destruct (_ =? 0) eqn:E; [done|]. apply Z.eqb_neq in E. by destruct (Hf2 _ (fl_file _ _ FW j Hj E)) as (_ & -> & _).
Qed.

Lemma nfree_first_bits v fb : v (bmb g) = first_bits fb -> 0 <= fb <= g_start g -> nfree g v = Z.to_nat (g_start g - fb).
Proof.
  intros E Hfb. destruct geom_values as (G1 & G2 & G3 & G4 & G5 & G6). unfold nfree. rewrite E.
  assert (Es : seqZ 0 (g_start g) = seqZ 0 fb ++ seqZ (0 + fb) (g_start g - fb)) by (rewrite <- seqZ_app by lia; f_equal; lia).
  assert (Hbit : forall m, 0 <= m -> bit_free (first_bits fb) m = (fb <=? m)) by (intros; apply bit_first_bits; lia).
  rewrite Es, filter_app, length_app, filter_none, filter_all.
  - cbn [length]. rewrite length_seqZ. lia.
  - intros x Hx%elem_of_seqZ. rewrite Hbit by lia. apply Z.leb_le. lia.
  - intros x Hx%elem_of_seqZ. rewrite Hbit by lia. intros H%Z.leb_le. lia.
Qed.

(** ** The file system of the arguments *)

Definition root_entries (fs : list (list Z * list (list Z))) : list Z := (dirent ROOTINO [46] ++ dirent ROOTINO [46; 46]) ++ entries 2 fs.

(** The root directory, filled up with zeros to whole blocks. *)
Definition root_dir (fs : list (list Z * list (list Z))) : list Z :=
  let n := Z.of_nat (length (root_entries fs)) in root_entries fs ++ replicate (Z.to_nat (round_up n - n)) 0.

Definition mkfs_files (fs : list (list Z * list (list Z))) (j : Z) : option (Z * list Z) :=
  if decide (j = ROOTINO) then Some (T_DIR, root_dir fs) else with_files 2 fs (fun _ => None) j.

(** The blocks in use. *)
Definition mkfs_used (fs : list (list Z * list (list Z))) : Z := first_used + fblocks (16 * (Z.of_nat (length fs) + 2)) + space fs.

Lemma length_root_entries fs : Z.of_nat (length (root_entries fs)) = 16 * (Z.of_nat (length fs) + 2).
Proof. unfold root_entries. rewrite !length_app, !length_dirent, length_entries. lia. Qed.

(** The statements before the first inode. *)
Lemma mkfs_format_runs {A} (m : K mk A) Q : (forall s, mk_abs s (fun _ => None) 1 first_used -> runs m s Q) ->
  runs (kmod (fun s => Mk (mk_img s) (mk_len s) first_used first_used (mk_freeinode s)) ;;;
    mk_assert (mk_nblocks + first_used + mk_nlog =? mk_size) ;;;
    for_each (seqZ 0 (mk_nblocks + first_used + mk_nlog)) (fun i => wsect i (replicate 512 0)) ;;;
    wsect 1 superblock_bytes ;;;
    m) mk_start Q.
Proof.
  intros Hm. assert (En : mk_nblocks + first_used + mk_nlog = Z.of_nat 1024) by reflexivity. rewrite En. apply runs_bind, runs_mod, runs_bind, runs_ret, runs_bind.
  eapply runs_conseq; [apply (zero_loop 1024 0); done|]. intros ? s (E1 & E2 & E3 & E4 & E5). apply runs_bind, runs_mod, Hm, empty_fs_abs; mkcbn.
  - by rewrite E1.
  - by rewrite E3.
  - by rewrite E4.
  - by rewrite E5.
  - intros k. unfold upd. case_decide; [done|apply E2].
Qed.

(** The root directory before the loop over the arguments. *)
Lemma mkfs_root_runs {A} (m : Z -> K mk A) Q s : mk_abs s (fun _ => None) 1 first_used ->
  (forall s, mk_abs s (upd (fun _ => None) 1 (Some (T_DIR, dirent ROOTINO [46] ++ dirent ROOTINO [46; 46]))) 2 (first_used + 1) -> runs (m 1) s Q) ->
  runs (let* rootino := mk_ialloc T_DIR in
    mk_assert (rootino =? ROOTINO) ;;;
    iappend rootino (dirent rootino [46]) ;;;
    iappend rootino (dirent rootino [46; 46]) ;;;
    m rootino) s Q.
Proof.
  intros A1 Hm. assert (I1 : is_inum g 1) by (unfold is_inum; cbn; unfold mk_ninodes; lia).
  apply runs_bind. eapply runs_conseq; [apply (abs_ialloc s _ 1 first_used T_DIR A1); [done|unfold is_short, T_DIR; lia|done]|]. intros i s2 [-> A2].
  apply runs_bind, runs_ret, runs_bind. assert (Hb : forall n, bytes_ok n -> bytes_ok (dirent 1 n)) by (intros; by apply bytes_ok_dirent).
  eapply runs_conseq; [eapply (abs_iappend s2 _ 2 first_used 1 T_DIR [] (dirent 1 [46]) (first_used + 1) A2 I1); [apply upd_eq|rewrite length_dirent; lia| | |by vm_compute|by vm_compute]|].
  { apply Hb. by repeat constructor. }
  { by vm_compute. }
  intros ? s3 A3. apply runs_bind.
  eapply runs_conseq; [eapply (abs_iappend s3 _ 2 _ 1 T_DIR (dirent 1 [46]) (dirent 1 [46; 46]) (first_used + 1) A3 I1); [apply upd_eq|rewrite length_dirent; lia| | |by vm_compute|by vm_compute]|].
  { apply Hb. by repeat constructor. }
  { by vm_compute. }
  intros ? s4 A4. apply Hm. eapply mk_abs_ext; [exact A4| |done]. intros j _. unfold upd. change ROOTINO with 1. by destruct (decide (j = 1)).
Qed.

Lemma mkfs_image_runs fs Q : runs (mkfs fs) mk_start Q -> exists u s, mkfs_image fs = Some (mk_img s) /\ Q u s.
Proof. unfold mkfs_image, runs. destruct (mkfs fs mk_start) as [u s|?|?|]; try contradiction. intros H. exists u, s. by split. Qed.

Lemma mkfs_runs fs : Forall file_ok fs -> Z.of_nat (length fs) + 2 <= mk_ninodes -> (Z.of_nat (length fs) + 2) mod 32 <> 0 -> mkfs_used fs <= g_start g ->
  runs (mkfs fs) mk_start (fun _ s => files_wf g (mk_img s) /\ one_link (mk_img s) /\ (forall j, is_inum g j -> typed_files (mk_img s) j = mkfs_files fs j) /\
    nfree g (mk_img s) = Z.to_nat (g_start g - mkfs_used fs) /\ mk_img s 1 = superblock_bytes /\ (forall m, g_start g <= m < mk_size -> mk_img s m = zeros)).
Proof.
  intros Hok Hn Hmod Hu. pose proof (length_root_entries fs) as Hl. pose proof (space_nonneg fs).
  unfold mkfs. apply mkfs_format_runs. intros s0 A0. apply (mkfs_root_runs _ _ s0 A0). clear s0 A0. intros s A. apply runs_bind.
  assert (Er : Z.of_nat (length (dirent ROOTINO [46] ++ dirent ROOTINO [46; 46])) = 32) by (by rewrite length_app, !length_dirent).
  eapply runs_conseq; [apply (abs_files fs s _ 2 (first_used + 1) (dirent ROOTINO [46] ++ dirent ROOTINO [46; 46]) (mkfs_used fs) A); rewrite ?Er; [apply upd_eq|lia|lia|done| | |done]|].
  { unfold mk_ninodes, MAXFILE, NDIRECT, NINDIRECT, BSIZE in *. lia. }
  { unfold mkfs_used. replace (16 * (Z.of_nat (length fs) + 2)) with (32 + 16 * Z.of_nat (length fs)) by lia. change (fblocks 32) with 1. lia. }
  intros ? s1 (v & I & HF & E1 & E2). assert (I1 : is_inum g 1) by (unfold is_inum; cbn; unfold mk_ninodes; lia).
  assert (H1 : typed_files v 1 = Some (T_DIR, root_entries fs)) by (rewrite HF by done; apply upd_eq).
  pose proof (fix_root_runs v s1 (root_entries fs) I H1) as Hfix. rewrite Hl in Hfix.
  apply (runs_assoc (rinode 1) (fun din => winode 1 (set_size ((d_size din / BSIZE + 1) * BSIZE) din))). apply runs_bind.
  eapply runs_conseq; [apply Hfix|].
  { unfold BSIZE. mlia. }
  { unfold round_up, mk_ninodes, MAXFILE, NDIRECT, NINDIRECT, BSIZE in *. mlia. }
  intros ? s2 (E3 & v2 & R2 & FW2 & NL2 & HF2). apply runs_bind. unfold kget at 1, runs at 1. unfold mk_balloc, mk_assert.
  pose proof (mr_used _ _ R2) as E4. destruct geom_values as (G1 & G2 & G3 & G4 & G5 & G6). rewrite E4, E3, E1, (proj2 (Z.ltb_lt _ _)) by lia.
  apply runs_bind, runs_ret, runs_mod. mkcbn. change (mk_ninodes / IPB + 3) with (bmb g).
  assert (Eb : v2 (bmb g) = first_bits (mkfs_used fs)) by (rewrite (mr_bitmap _ _ R2); by rewrite E3, E1).
  assert (Heq : forall m, upd (mk_img s2) (bmb g) (first_bits (mkfs_used fs)) m = v2 m).
  { intros m. unfold upd. case_decide as Hm; [by subst|]. by apply (mr_img _ _ R2). }
  destruct (files_wf_eq v2 _ Heq FW2) as (FW3 & NL3 & HF3 & N3). split_and!.
  - done.
  - by apply NL3.
  - intros j Hj. rewrite HF3, HF2 by done. unfold mkfs_files, root_dir. change ROOTINO with 1. case_decide as Hj1; [by rewrite Hl|].
    rewrite HF by done. rewrite upd_ne by done. unfold with_files. by rewrite upd_ne by done.
  - rewrite N3. apply nfree_first_bits; [done|]. pose proof (mr_fb _ _ R2). lia.
  - rewrite Heq. apply (mr_super _ _ R2).
  - intros m Hm. rewrite Heq. apply (mr_zero _ _ R2). lia.
Qed.

(** C8: [mkfs] builds the file system of its arguments.  Let the names of the arguments hold no slash, the files have at most 140 blocks each, there be at most
    198 of them, let their blocks and those of the root directory fit before the log, and let the entries of the root directory, two more than there are arguments, not be a multiple of 32, so that they do not fill its blocks exactly.
    Then [mkfs] ends well, and the image is a well-formed file system: the superblock, the bitmap and the inodes are consistent and no block is shared.  Its inodes are exactly the
    root directory, with an entry for ".", ".." and each argument in order, and one file per argument with the bytes read from it, with one link each; the
    blocks not in use are free, and the log is empty. *)
Theorem mkfs_correct fs : Forall file_ok fs -> Z.of_nat (length fs) + 2 <= mk_ninodes -> (Z.of_nat (length fs) + 2) mod 32 <> 0 -> mkfs_used fs <= g_start g ->
  exists img, mkfs_image fs = Some img /\ files_wf g img /\ one_link img /\ (forall j, is_inum g j -> typed_files img j = mkfs_files fs j) /\
    nfree g img = Z.to_nat (g_start g - mkfs_used fs) /\ get_le 4 12 (img 1) = mk_nlog /\ (forall m, g_start g <= m < mk_size -> img m = zeros).
Proof.
  intros Hok Hn Hmod Hu. destruct (mkfs_image_runs _ _ (mkfs_runs fs Hok Hn Hmod Hu)) as (u & s & E & H1 & H6 & H2 & H3 & H4 & H5). exists (mk_img s).
  split; [exact E|]. split; [exact H1|]. split; [exact H6|]. split; [exact H2|]. split; [exact H3|]. split; [|exact H5]. rewrite H4. by vm_compute.
Qed.

(** A program "_cat" read in two pieces, and an empty file "x". *)
Definition sample_args : list (list Z * list (list Z)) := [([95; 99; 97; 116], [[127; 69; 76]; [70; 1]]); ([120], [])].

Lemma sample_args_ok : Forall file_ok sample_args.
Proof. repeat constructor; apply (bool_decide_unpack _); by vm_compute. Qed.

Lemma mkfs_correct_witness : exists img, mkfs_image sample_args = Some img /\ files_wf g img /\ one_link img /\ (forall j, is_inum g j -> typed_files img j = mkfs_files sample_args j) /\
    nfree g img = 983%nat /\ get_le 4 12 (img 1) = mk_nlog /\ (forall m, g_start g <= m < mk_size -> img m = zeros).
Proof.
  apply (mkfs_correct sample_args).
  - exact sample_args_ok.
  - by vm_compute.
  - by vm_compute.
  - by vm_compute.
Defined.
