(* ===== verification/MkfsKernel.v ===== *)
(** * The kernel on an image of mkfs

    [mkfs] and the kernel agree on the file system: the image is a disk on which the lookup of FsName.v
    works ([image_dirs]), and after the boot [namei] and [readi] give back the files that were put in. *)

From S2P Require Import Prelude Kalloc Proc Bio BufferCache BioSpec Bytes Log LogSpec LogCrash Fs FsLayout FsSpec Pipe File FileRw FsName Mkfs MkfsSpec.

(** ** Names of entries *)

(** The bytes of a C string. *)
Definition cname (s : list Z) : Prop := Forall (fun c => 0 < c < 256) s.

Lemma u8_byte c : 0 <= c < 256 -> u8 c = c.
Proof. intros H. unfold u8. by rewrite Z.mod_small. Qed.

Lemma strncmp_l_eq n : forall s t, cname s -> cname t -> strncmp_l n s t = 0 <-> take n s = take n t.
Proof.
  induction n as [|n IH]; intros s t Hs Ht; [done|]. cbn [strncmp_l]. destruct Hs as [|a s Ha Hs], Ht as [|b t Hb Ht]; cbn [hd tl take].
  - done.
  - cbn [Z.eqb negb andb]. rewrite (u8_byte b) by lia. change (u8 0) with 0. split; [lia|done].
  - rewrite (proj2 (Z.eqb_neq a 0)) by lia. cbn [negb andb]. rewrite (u8_byte a) by lia. change (u8 0) with 0. split; [lia|done].
  - rewrite (proj2 (Z.eqb_neq a 0)) by lia. cbn [negb andb]. destruct (a =? b) eqn:E; bool_hyps.
    + subst b. rewrite IH by done. split; [by intros ->|by intros [= ?]].
    + rewrite !u8_byte by lia. split; [lia|]. intros [= ? ?]. lia.
Qed.

Lemma strncmp_l_strncpy n : forall s t, strncmp_l n s (strncpy_l n t) = strncmp_l n s t.
Proof.
  induction n as [|n IH]; intros s t; [done|]. cbn [strncmp_l strncpy_l]. destruct (hd 0 t =? 0) eqn:E; cbn [replicate hd tl].
  - bool_hyps. rewrite E. by destruct (hd 0 s =? 0) eqn:Es.
  - rewrite IH. done.
Qed.

Lemma de_inum_dirent i name : 0 <= i < 65536 -> de_inum (dirent i name) = i.
Proof. intros H. unfold de_inum, get_le, dirent. rewrite drop_0, take_app_length' by (by rewrite length_le_bytes). by rewrite le_val_bytes, Z.mod_small. Qed.

Lemma namecmp_dirent e i name : cname e -> cname name -> namecmp e (de_name (dirent i name)) = 0 <-> take (Z.to_nat DIRSIZ) e = take (Z.to_nat DIRSIZ) name.
Proof.
  intros He Hn. unfold de_name, dirent, namecmp. rewrite drop_app_length' by (by rewrite length_le_bytes). rewrite take_ge by (by rewrite length_strncpy_l).
  rewrite strncmp_l_strncpy. by apply strncmp_l_eq.
Qed.

(** ** The root directory *)

(** The entries with this name among entries [offs] of a directory, in a list of the entries. *)
Fixpoint find_entry (ds : list (Z * list Z)) (off : Z) (e : list Z) : option (Z * Z) :=
  match ds with
  | [] => None
  | (i, name) :: ds' => if bool_decide (take (Z.to_nat DIRSIZ) e = take (Z.to_nat DIRSIZ) name) then Some (i, off) else find_entry ds' (off + SIZEOF_DIRENT) e
  end.

Definition pack (ds : list (Z * list Z)) : list Z := concat ((fun d => dirent d.1 d.2) <$> ds).

Definition entry_ok (d : Z * list Z) : Prop := 0 < d.1 < 65536 /\ cname d.2.

Lemma length_pack ds : length (pack ds) = (16 * length ds)%nat.
Proof. induction ds as [|d ds IH]; [done|]. unfold pack in *. cbn [fmap list_fmap concat length]. rewrite length_app, length_dirent, IH. lia. Qed.

Lemma dir_entry_pack pre d rest : dir_entry (pack pre ++ dirent d.1 d.2 ++ rest) (16 * Z.of_nat (length pre)) = dirent d.1 d.2.
Proof.
  unfold dir_entry, read_file. rewrite drop_app_length' by (rewrite length_pack; lia). apply take_app_length'. by rewrite length_dirent.
Qed.

Lemma dir_entry_zeros pre n off : 16 * Z.of_nat (length pre) <= off -> de_inum (dir_entry (pack pre ++ replicate n 0) off) = 0.
Proof.
  intros H. unfold de_inum, dir_entry, read_file. rewrite drop_app_ge by (rewrite length_pack; lia). rewrite drop_replicate, take_replicate. apply get_le_zeros.
Qed.

Lemma pack_app a b : pack (a ++ b) = pack a ++ pack b.
Proof. unfold pack. by rewrite fmap_app, concat_app. Qed.

Lemma dir_entry_lookup ds k d rest : ds !! k = Some d -> dir_entry (pack ds ++ rest) (16 * Z.of_nat k) = dirent d.1 d.2.
Proof.
  intros Hd. pose proof (lookup_lt_Some _ _ _ Hd). assert (Hk : length (take k ds) = k) by (rewrite length_take; lia).
  pose proof (dir_entry_pack (take k ds) d (pack (drop (S k) ds) ++ rest)) as E. rewrite Hk in E. rewrite <- E. f_equal.
  rewrite <- (take_drop_middle _ _ _ Hd) at 1. rewrite pack_app. change (pack (d :: drop (S k) ds)) with (dirent d.1 d.2 ++ pack (drop (S k) ds)). by rewrite <- !app_assoc.
Qed.

Lemma scan_zeros c offs e : Forall (fun off => de_inum (dir_entry c off) = 0) offs -> scan_dir c offs e = None.
Proof. induction 1 as [|off offs H _ IH]; [done|]. cbn [scan_dir]. by rewrite H. Qed.

Definition offsets (k n : nat) : list Z := (fun k => 16 * Z.of_nat k) <$> seq k n.

Lemma dir_offsets_eq n : dir_offsets 0 (16 * Z.of_nat n) = offsets 0 n.
Proof.
  unfold dir_offsets, offsets. replace ((16 * Z.of_nat n - 0 + SIZEOF_DIRENT - 1) / SIZEOF_DIRENT) with (Z.of_nat n) by (unfold SIZEOF_DIRENT; mlia).
  unfold seqZ. rewrite Nat2Z.id, <- list_fmap_compose. apply list_fmap_ext. intros i x _. unfold compose, SIZEOF_DIRENT. lia.
Qed.

Lemma scan_pack n e : cname e -> forall ds pre m, Forall entry_ok ds -> (length ds <= m)%nat ->
  scan_dir (pack (pre ++ ds) ++ replicate n 0) (offsets (length pre) m) e = find_entry ds (16 * Z.of_nat (length pre)) e.
Proof.
  intros He. induction ds as [|d ds IH]; intros pre m Hds Hm.
  - rewrite app_nil_r. apply scan_zeros, Forall_fmap, Forall_seq. intros j Hj. cbn. apply dir_entry_zeros. lia.
  - destruct m as [|m]; [cbn in Hm; lia|]. apply Forall_cons in Hds as [[H1 H2] Hds]. unfold offsets. cbn [seq fmap list_fmap scan_dir]. fold (offsets (S (length pre)) m).
    assert (Ed : dir_entry (pack (pre ++ d :: ds) ++ replicate n 0) (16 * Z.of_nat (length pre)) = dirent d.1 d.2).
    { apply dir_entry_lookup. by rewrite lookup_app_r, Nat.sub_diag by lia. }
    rewrite Ed, de_inum_dirent, (proj2 (Z.eqb_neq _ _)) by lia. cbn [orb]. destruct d as [i name]. cbn [fst snd find_entry] in *.
    case_bool_decide as Hc.
    + apply (namecmp_dirent e i name) in Hc; [|done|done]. by rewrite Hc.
    + rewrite <- (namecmp_dirent e i name) in Hc by done. rewrite (proj2 (Z.eqb_neq _ _)) by done. cbn [negb].
      specialize (IH (pre ++ [(i, name)]) m Hds ltac:(cbn in Hm; lia)). rewrite <- app_assoc, length_app in IH. cbn [length app] in IH.
      replace (length pre + 1)%nat with (S (length pre)) in IH by lia. rewrite IH. f_equal. unfold SIZEOF_DIRENT. lia.
Qed.

Fixpoint file_entries (k : Z) (fs : list (list Z * list (list Z))) : list (Z * list Z) :=
  match fs with
  | [] => []
  | f :: fs' => (k, strip f.1) :: file_entries (k + 1) fs'
  end.

Definition root_list (fs : list (list Z * list (list Z))) : list (Z * list Z) := (ROOTINO, [46]) :: (ROOTINO, [46; 46]) :: file_entries 2 fs.

Lemma pack_entries fs : forall k, pack (file_entries k fs) = entries k fs.
Proof. induction fs as [|f fs IH]; intros k; [done|]. cbn [file_entries entries]. by rewrite <- IH. Qed.

Lemma length_file_entries fs : forall k, length (file_entries k fs) = length fs.
Proof. induction fs as [|f fs IH]; intros k; [done|]. cbn. by rewrite IH. Qed.

Lemma file_entries_lookup fs : forall k n f, fs !! n = Some f -> file_entries k fs !! n = Some (k + Z.of_nat n, strip f.1).
Proof.
  induction fs as [|f0 fs IH]; intros k [|n] f Hf; try done.
  - injection Hf as ->. cbn. by rewrite Z.add_0_r.
  - etrans; [apply (IH (k + 1) n f Hf)|]. do 2 f_equal. lia.
Qed.

Lemma root_dir_pack fs : exists m, (length (root_list fs) <= m)%nat /\ length (root_dir fs) = (16 * m)%nat /\
  root_dir fs = pack (root_list fs) ++ replicate (16 * m - 16 * length (root_list fs)) 0.
Proof.
  pose proof (length_root_entries fs) as Hl. set (n := Z.of_nat (length (root_entries fs))) in *. exists (Z.to_nat (round_up n / 16)).
  assert (Er : root_entries fs = pack (root_list fs)) by (unfold root_entries, root_list; rewrite <- pack_entries, <- app_assoc; done).
  assert (El : length (root_list fs) = (length fs + 2)%nat) by (unfold root_list; cbn [length]; rewrite length_file_entries; lia).
  assert (Hm : round_up n = 16 * (round_up n / 16) /\ n < round_up n) by (unfold round_up, BSIZE; mlia).
  split_and!; [lia| |].
  - unfold root_dir. fold n. rewrite length_app, length_replicate. lia.
  - unfold root_dir. fold n. rewrite <- Er. f_equal. f_equal. lia.
Qed.

(** The arguments of [mkfs]: their names are C strings. *)
Record args_ok (fs : list (list Z * list (list Z))) : Prop := {
  ao_files : Forall file_ok fs;
  ao_names : Forall (fun f => cname f.1) fs;
  ao_inodes : Z.of_nat (length fs) + 2 <= mk_ninodes;
  ao_root : (Z.of_nat (length fs) + 2) mod 32 <> 0;
  ao_blocks : mkfs_used fs <= g_start g
}.

(** What the kernel needs to know of the image. *)
Record image_of (fs : list (list Z * list (list Z))) (img : disk) : Prop := {
  io_wf : files_wf g img;
  io_links : one_link img;
  io_files : forall j, is_inum g j -> typed_files img j = mkfs_files fs j;
  io_super : img 1 = superblock_bytes;
  io_log : img (g_start g) = zeros
}.

Lemma mkfs_image_of fs : args_ok fs -> exists img, mkfs_image fs = Some img /\ image_of fs img.
Proof.
  intros [A1 A2 A3 A4 A5]. destruct (mkfs_image_runs _ _ (mkfs_runs fs A1 A3 A4 A5)) as (u & s & E & H1 & H2 & H3 & H4 & H5 & H6). exists (mk_img s).
  split; [exact E|]. split; [exact H1|exact H2|exact H3|exact H5|]. apply H6. destruct geom_values as (G1 & G2 & G3 & G4 & G5 & G6). lia.
Qed.

Lemma cname_strip name : cname name -> cname (strip name).
Proof. intros H. destruct name as [|x l]; [done|]. cbn. destruct (x =? 95); [by apply Forall_cons in H as [_ ?]|done]. Qed.

Section image.
Variables (fs : list (list Z * list (list Z))) (img : disk).
Hypothesis (Hargs : args_ok fs) (Himg : image_of fs img).

Lemma file_inum n f : fs !! n = Some f -> is_inum g (2 + Z.of_nat n) /\ mkfs_files fs (2 + Z.of_nat n) = Some (T_FILE, concat f.2).
Proof.
  intros Hf. pose proof (lookup_lt_Some _ _ _ Hf). pose proof (ao_inodes _ Hargs). split; [unfold is_inum; cbn; lia|].
  unfold mkfs_files. rewrite decide_False by (unfold ROOTINO; lia). unfold with_files. rewrite (proj2 (Z.leb_le _ _)) by lia.
  replace (Z.to_nat (2 + Z.of_nat n - 2)) with n by lia. by rewrite Hf.
Qed.

Lemma root_inum : is_inum g ROOTINO.
Proof. split; by vm_compute. Qed.

Lemma image_linked j : j = ROOTINO \/ (exists n f, fs !! n = Some f /\ j = 2 + Z.of_nat n) -> linked g img j.
Proof.
  intros Hj. assert (Ht : is_inum g j /\ exists ty c, typed_files img j = Some (ty, c)).
  { destruct Hj as [->|(n & f & Hf & ->)].
    - split; [apply root_inum|]. exists T_DIR, (root_dir fs). rewrite (io_files _ _ Himg) by apply root_inum. done.
    - destruct (file_inum n f Hf) as [H1 H2]. split; [done|]. exists T_FILE, (concat f.2). by rewrite (io_files _ _ Himg). }
  destruct Ht as (Hi & ty & c & Hty). apply typed_files_Some in Hty as (E1 & E2 & _). rewrite <- E1 in E2. split; [done|].
  by rewrite (io_links _ _ Himg).
Qed.

Lemma file_entries_inum : forall k d, d ∈ file_entries k fs -> exists n f, fs !! n = Some f /\ d = (k + Z.of_nat n, strip f.1).
Proof.
  intros k d Hd. apply list_elem_of_lookup_1 in Hd as [n Hn]. pose proof (lookup_lt_Some _ _ _ Hn) as Hl. rewrite length_file_entries in Hl.
  destruct (lookup_lt_is_Some_2 _ _ Hl) as [f Hf]. exists n, f. split; [done|]. rewrite (file_entries_lookup _ _ _ _ Hf) in Hn. by injection Hn as <-.
Qed.

Lemma root_list_linked d : d ∈ root_list fs -> linked g img d.1 /\ entry_ok d.
Proof.
  intros Hd. unfold root_list in Hd. rewrite !elem_of_cons in Hd. destruct Hd as [->|[->|(n & f & Hf & ->)%file_entries_inum]].
  1, 2: split; [apply image_linked; by left|]; split; [done|by repeat constructor].
  split; [apply image_linked; right; eauto|]. destruct (file_inum n f Hf) as [[H1 H2] _]. change (g_ninodes g) with 200 in H2. split; cbn [fst snd]; [lia|].
  apply cname_strip. pose proof (ao_names _ Hargs) as Hn. rewrite Forall_forall in Hn. apply Hn. by eapply list_elem_of_lookup_2.
Qed.

Lemma image_root : d_type (disk_inode img ROOTINO) = T_DIR /\ content img (disk_inode img ROOTINO) = root_dir fs.
Proof.
  assert (H : typed_files img ROOTINO = Some (T_DIR, root_dir fs)) by (rewrite (io_files _ _ Himg) by apply root_inum; done).
  by apply typed_files_Some in H as (E1 & _ & E2).
Qed.

Lemma image_dirs : dirs_ok g img.
Proof.
  intros i Hi Ht. assert (i = ROOTINO) as ->.
  { pose proof (io_files _ _ Himg i Hi) as E. unfold typed_files in E. rewrite Ht in E. change (T_DIR =? 0) with false in E. cbn iota in E.
    unfold mkfs_files in E. case_decide as Hr; [done|]. unfold with_files in E. destruct (2 <=? i); [|done]. by destruct (fs !! _). }
  destruct image_root as [_ Ec]. destruct (root_dir_pack fs) as (m & Hm & Hlen & Epack). rewrite Ec.
  assert (Hsz : d_size (disk_inode img ROOTINO) = 16 * Z.of_nat m).
  { assert (Hused : d_type (disk_inode img ROOTINO) <> 0) by (by rewrite Ht). pose proof (fl_file _ _ (io_wf _ _ Himg) _ Hi Hused) as F.
    rewrite <- (content_length img (disk_inode img ROOTINO)) by apply (iw_typed _ _ _ F). rewrite Ec, Hlen. lia. }
  rewrite Hsz. split; [unfold SIZEOF_DIRENT; mlia|]. rewrite dir_offsets_eq. intros off Hoff j Hj. apply list_elem_of_fmap in Hoff as (k & -> & Hk%elem_of_seq).
  unfold j in *. rewrite Epack in *. destruct (decide (k < length (root_list fs))%nat) as [Hlt|Hge].
  - destruct (lookup_lt_is_Some_2 _ _ Hlt) as [d Hd]. destruct (root_list_linked d) as [H1 [H2 _]]; [by eapply list_elem_of_lookup_2|].
    by rewrite (dir_entry_lookup _ _ _ _ Hd), de_inum_dirent by lia.
  - exfalso. apply Hj. apply dir_entry_zeros. lia.
Qed.

Lemma image_find e : cname e -> dir_find (root_dir fs) e = find_entry (root_list fs) 0 e.
Proof.
  intros He. destruct (root_dir_pack fs) as (m & Hm & Hlen & Epack). unfold dir_find. rewrite Hlen. replace (Z.of_nat (16 * m)) with (16 * Z.of_nat m) by lia.
  rewrite dir_offsets_eq, Epack. apply (scan_pack _ e He (root_list fs) []); [|done]. apply Forall_forall. intros d Hd. by apply root_list_linked.
Qed.
End image.

(** ** After the boot *)

(** The kernel before it has looked at the disk: no buffer, no log and no inode in use. *)
Definition kernel_at (junk : list Z) (img : disk) : fsys bst := Fsys (boot_state junk img mk_size) (replicate NINODE null_inode).

Lemma kernel_boot fs img junk : image_of fs img ->
  runs (lift_l boot) (kernel_at junk img) (fun _ s => (exists c, at_rest g mk_nlog mk_size img c s) /\ f_inode s = replicate NINODE null_inode /\ held s = []).
Proof.
  intros I. destruct geom_values as (G1 & G2 & G3 & G4 & G5 & G6). pose proof (io_log _ _ I) as Hz. assert (Hh : hdr_n zeros = 0) by (by vm_compute).
  apply runs_lift_l. eapply runs_conseq; [apply (boot_quiet junk img mk_size [] img (g_start g) mk_nlog)|].
  - split; rewrite (io_super _ _ I); by vm_compute.
  - lia.
  - done.
  - done.
  - apply log_wf_empty; rewrite ?Hz; try done; lia.
  - intros ? s' (c & Q & E1 & E2 & E3 & E4 & E5 & E6 & E7). split; [|done]. exists c. split; try done. intros m Hm. rewrite E7 by done.
    rewrite recovered_empty; [done|by rewrite Hz].
Qed.

Lemma null_slots s : f_inode s = replicate NINODE null_inode -> forall ip, inode_at (B := bst) s ip = null_inode.
Proof.
  intros E ip. unfold inode_at. rewrite E, nth_lookup. destruct (replicate NINODE null_inode !! ip) as [x|] eqn:Ex; [|done]. by apply lookup_replicate in Ex as [-> _].
Qed.

Lemma empty_icache img c s : at_rest g mk_nlog mk_size img c s -> f_inode s = replicate NINODE null_inode -> held s = [] ->
  icache (B := bst) g (c_disk c) (c_trace c) 0 mk_nlog mk_size [] img None s /\ spare s.
Proof.
  intros R Ei Eh. pose proof (null_slots s Ei) as N. split.
  - split; try (intros; rewrite !N in *; done); try done; [by apply at_rest_tx|]. rewrite Eh. apply not_elem_of_nil.
  - exists ∅. rewrite size_empty, Ei, length_replicate. split; [|unfold NINODE; lia]. intros j (ip & H & _)%refs_live. by rewrite N in H.
Qed.

(** ** Finding a file *)

(** Look a file up and read it, as [exec] does. *)
Definition read_path (devsw_read : Z -> option (nat -> Z -> K (fsys bst) (Z * list Z))) (path : list Z) (n : Z) : K (fsys bst) (option (Z * list Z)) :=
  let* r := namei devsw_read 0 path in
  match r with
  | None => kret None
  | Some ip =>
      ilock ip ;;;
      let* x := readi devsw_read ip 0 n in
      iunlockput ip ;;;
      kret (Some x)
  end.

Lemma take_elem_all e : (slash ∉ e) -> take_elem e = (e, []).
Proof.
  induction e as [|c e IH]; intros H; [done|]. cbn [take_elem]. rewrite (proj2 (Z.eqb_neq _ _)) by set_solver. by rewrite IH by set_solver.
Qed.

Lemma elements_single e : (slash ∉ e) -> e <> [] -> elements (slash :: e) = [take (Z.to_nat DIRSIZ) e].
Proof.
  intros H1 H2. change (elements (slash :: e)) with (elements e). rewrite elements_take; rewrite take_elem_all by done; [done|done].
Qed.

(** Argument [n] is the first one with its name. *)
Definition first_named (fs : list (list Z * list (list Z))) (n : nat) (e : list Z) : Prop :=
  (forall m f, (m < n)%nat -> fs !! m = Some f -> take (Z.to_nat DIRSIZ) (strip f.1) <> take (Z.to_nat DIRSIZ) e) /\
  take (Z.to_nat DIRSIZ) e <> [46] /\ take (Z.to_nat DIRSIZ) e <> [46; 46].

Lemma find_entry_take ds off e : find_entry ds off (take (Z.to_nat DIRSIZ) e) = find_entry ds off e.
Proof. revert off. induction ds as [|[i name] ds IH]; intros off; [done|]. cbn [find_entry]. by rewrite take_take, Nat.min_id, IH. Qed.

Lemma find_file_entry e : forall fs k n f off, fs !! n = Some f -> strip f.1 = e ->
  (forall m f, (m < n)%nat -> fs !! m = Some f -> take (Z.to_nat DIRSIZ) (strip f.1) <> take (Z.to_nat DIRSIZ) e) ->
  exists off', find_entry (file_entries k fs) off e = Some (k + Z.of_nat n, off').
Proof.
  induction fs as [|f0 fs IH]; intros k n f off Hf He Hn; [done|]. cbn [file_entries find_entry]. destruct n as [|n].
  - injection Hf as ->. rewrite He, bool_decide_eq_true_2 by done. exists off. do 2 f_equal. lia.
  - rewrite bool_decide_eq_false_2; [|intros E; by apply (Hn 0%nat f0 ltac:(lia) eq_refl)].
    destruct (IH (k + 1) n f (off + SIZEOF_DIRENT) Hf He) as [off' E]; [intros m f' Hm Hf'; apply (Hn (S m)); [lia|done]|].
    exists off'. rewrite E. do 2 f_equal. lia.
Qed.

Lemma find_root fs n f : fs !! n = Some f -> first_named fs n (strip f.1) -> exists off, find_entry (root_list fs) 0 (strip f.1) = Some (2 + Z.of_nat n, off).
Proof.
  intros Hf (H1 & H2 & H3). unfold root_list. cbn [find_entry]. change (take (Z.to_nat DIRSIZ) [46]) with [46]. change (take (Z.to_nat DIRSIZ) [46; 46]) with [46; 46].
  rewrite !bool_decide_eq_false_2 by done. by eapply find_file_entry.
Qed.

Lemma image_walk fs img n f : args_ok fs -> image_of fs img -> fs !! n = Some f -> strip f.1 <> [] -> first_named fs n (strip f.1) ->
  walk img ROOTINO (elements (slash :: strip f.1)) = Some (2 + Z.of_nat n).
Proof.
  intros A I Hf Hne Hfirst. pose proof (list_elem_of_lookup_2 _ _ _ Hf) as Hin. pose proof (ao_files _ A) as Hok. rewrite Forall_forall in Hok. specialize (Hok f Hin).
  pose proof (ao_names _ A) as Hcn. rewrite Forall_forall in Hcn. specialize (Hcn f Hin). cbn beta in Hcn.
  assert (Hs : slash ∉ strip f.1) by (pose proof (fo_slash _ Hok) as Hs; destruct f.1 as [|c l]; [done|]; cbn; destruct (c =? 95); set_solver).
  rewrite elements_single by done. cbn [walk]. destruct (image_root fs img I) as [-> ->]. change (T_DIR =? T_DIR) with true. cbn iota.
  rewrite (image_find fs img A I) by (by apply Forall_take, cname_strip). rewrite find_entry_take. by destruct (find_root fs n f Hf Hfirst) as [off ->].
Qed.

Lemma read_path_runs fs img n f devsw_read c s : args_ok fs -> image_of fs img -> fs !! n = Some f -> strip f.1 <> [] -> first_named fs n (strip f.1) ->
  at_rest g mk_nlog mk_size img c s -> f_inode s = replicate NINODE null_inode -> held s = [] ->
  runs (read_path devsw_read (slash :: strip f.1) (Z.of_nat (length (concat f.2)))) s (fun r _ => r = Some (Z.of_nat (length (concat f.2)), concat f.2)).
Proof.
  intros A I Hf Hne Hfirst R Ei Eh. destruct (empty_icache _ _ _ R Ei Eh) as [C Hsp]. pose proof (image_dirs fs img A I) as Hd.
  pose proof (image_linked fs img A I ROOTINO ltac:(by left)) as Hr. pose proof (io_wf _ _ I) as W. pose proof (image_walk fs img n f A I Hf Hne Hfirst) as Hw.
  assert (H0 : 0 ∉ slash :: strip f.1).
  { pose proof (ao_names _ A) as Hcn. rewrite Forall_forall in Hcn. specialize (Hcn f (list_elem_of_lookup_2 _ _ _ Hf)). apply cname_strip in Hcn.
    intros [?|H]%elem_of_cons; [done|]. unfold cname in Hcn. rewrite Forall_forall in Hcn. specialize (Hcn 0 H). lia. }
  set (j := 2 + Z.of_nat n) in *. set (len := Z.of_nat (length (concat f.2))).
  unfold read_path, namei. apply runs_bind, runs_bind.
  eapply runs_conseq; [apply (namex_runs g (c_disk c) (c_trace c) 0 mk_nlog mk_size [] img fits_nil W devsw_read Hd s 0); try done|].
  intros [r nm] s1 [[C1 F1] _]. apply runs_ret. unfold resolve, start_of in F1. cbn [hd fst] in F1. change (slash =? slash) with true in F1. cbn iota in F1. rewrite Hw in F1.
  destruct F1 as (ip & -> & E1 & L1 & A1). apply runs_bind. eapply runs_conseq; [by apply (ilock_runs g (c_disk c) (c_trace c) 0 mk_nlog mk_size [] img fits_nil W s1 ip)|].
  intros ? s2 (C2 & R2). destruct (proj1 R2 ip) as [E2 L2]. apply runs_bind.
  destruct (file_inum fs A n f Hf) as [Hi Hfile]. rewrite <- (io_files _ _ I) in Hfile by done. apply typed_files_Some in Hfile as (Ty & _ & Hc). fold j in Ty, Hc.
  pose proof (locked_open _ _ _ _ _ _ _ _ _ _ C2) as O. rewrite E2, E1, Ty in O. specialize (O ltac:(done)).
  assert (Hlen : d_size (disk_inode img j) = len).
  { unfold len. rewrite <- Hc. symmetry. apply content_length. apply (iw_typed _ _ _ (fl_file _ _ W j Hi (oi_used _ _ _ _ _ O))). }
  assert (Hmax : len <= 71680) by (rewrite <- Hlen; apply (iw_size _ _ _ (fl_file _ _ W j Hi (oi_used _ _ _ _ _ O)))).
  apply (t_readi g (c_disk c) (c_trace c) 0 mk_nlog mk_size devsw_read img [] s2 ip j 0 len); try done; [apply C2|apply fits_nil|unfold is_uint; lia|].
  intros s3 T3 K3. rewrite (proj2 (Z.ltb_ge _ 0)), (proj2 (Z.leb_gt _ (0 + len))) by lia. cbn [orb].
  assert (Er : read_file (content img (disk_inode img j)) 0 len = concat f.2) by (unfold read_file; rewrite drop_0, Hc; apply take_ge; unfold len; lia).
  rewrite Er. fold len. destruct (icache_kept _ _ _ _ _ _ _ _ _ _ _ _ C2 T3 K3) as [C3 R3]. destruct (proj1 R3 ip) as [E3 L3].
  apply runs_bind. eapply runs_conseq; [apply (iunlockput_runs g (c_disk c) (c_trace c) 0 mk_nlog mk_size [] img s [] s3 ip j); [done|congruence|left; apply (image_linked fs img A I j); eauto|]|intros ? s4 _; by apply runs_ret].
  eapply since_same; [|exact R3]. by eapply since_same.
Qed.

(** C6: from [mkfs] to the running kernel.  Put files into an image with [mkfs], boot the kernel on the image, and look one of them up by its
    name: [namei] finds it, and [readi] gives the bytes that [mkfs] read from the host, all of them and nothing else.  The file is the first argument with its
    name, after the leading "_" is dropped and the name is cut to fourteen bytes. *)
Theorem mkfs_boot_reads fs n f devsw_read junk : args_ok fs -> fs !! n = Some f -> strip f.1 <> [] -> first_named fs n (strip f.1) ->
  exists img, mkfs_image fs = Some img /\
  runs (lift_l boot ;;; read_path devsw_read (slash :: strip f.1) (Z.of_nat (length (concat f.2)))) (kernel_at junk img)
    (fun r _ => r = Some (Z.of_nat (length (concat f.2)), concat f.2)).
Proof.
  intros A Hf Hne Hfirst. destruct (mkfs_image_of fs A) as (img & E & I). exists img. split; [exact E|].
  apply runs_bind. eapply runs_conseq; [by apply (kernel_boot fs img junk)|]. intros ? s ((c & R) & Ei & Eh). by eapply read_path_runs.
Qed.

Lemma sample_args_all_ok : args_ok sample_args.
Proof. split; [exact sample_args_ok| |by vm_compute..]. repeat constructor; by vm_compute. Qed.

Lemma mkfs_boot_reads_witness : exists img, mkfs_image sample_args = Some img /\
  runs (lift_l boot ;;; read_path (fun _ => None) [47; 99; 97; 116] 5) (kernel_at [] img) (fun r _ => r = Some (5, [127; 69; 76; 70; 1])).
Proof.
  apply (mkfs_boot_reads sample_args 0 ([95; 99; 97; 116], [[127; 69; 76]; [70; 1]]) (fun _ => None) []).
  - exact sample_args_all_ok.
  - reflexivity.
  - discriminate.
  - split; [intros m f Hm; lia|]. split; discriminate.
Defined.

(** The kernel after the boot on the image of the sample. *)
Definition image_of_option (o : option disk) : disk := match o with Some img => img | None => fun _ => [] end.
Definition sample_image : disk := image_of_option (mkfs_image sample_args).
Definition sample_booted : fsys bst :=
  Fsys (Lst (empty_cache zero_block sample_image mk_size) (g_start g) mk_nlog 0 1 0 (replicate (Z.to_nat LOGSIZE) 0)) (replicate NINODE null_inode).

Lemma sample_image_of : image_of sample_args sample_image.
Proof. unfold sample_image, image_of_option. destruct (mkfs_image_of _ sample_args_all_ok) as (img & -> & I). exact I. Qed.

Lemma sample_booted_rest : at_rest g mk_nlog mk_size sample_image (bio_abs (l_bc (f_log sample_booted))) sample_booted.
Proof.
  pose proof sample_image_of as I. pose proof (io_log _ _ I) as Hz. unfold sample_booted. generalize dependent sample_image. intros img I Hz.
  split; try done. apply quiescent_intro; try done.
  - split; [|done]. by exists (rev (seq 0 NBUF)); apply empty_cache_inv.
  - split; try done.
    + by intros x Hx%elem_of_nil.
    + constructor.
  - cbn [l_start f_log bio_abs c_disk l_bc empty_cache b_disk]. rewrite Hz. by vm_compute.
  - cbn [l_start f_log bio_abs c_disk l_bc empty_cache b_disk]. rewrite Hz. by vm_compute.
  - apply not_elem_of_nil.
Qed.

Lemma namex_correct_witness :
  let c := bio_abs (l_bc (f_log sample_booted)) in
  runs (namex (fun _ => None) 0 [47; 47; 120] true (replicate 14 0)) sample_booted (fun r s' =>
    icache g (c_disk c) (c_trace c) 0 mk_nlog mk_size [] sample_image None s' /\
    (forall ip, 0 < i_ref (inode_at sample_booted ip) -> i_inum (inode_at s' ip) = i_inum (inode_at sample_booted ip) /\ 0 < i_ref (inode_at s' ip)) /\
    (forall j, refs s' j = refs sample_booted j + if decide (resolve true sample_image 1 [[120]] = Some j) then 1 else 0) /\
    match resolve true sample_image 1 [[120]] with
    | None => r.1 = None
    | Some j => exists ip, r.1 = Some ip /\ i_inum (inode_at s' ip) = j /\ 0 < i_ref (inode_at s' ip) /\
        (true = true -> exists e, last (elements [47; 47; 120]) = Some e /\ names r.2 e)
    end).
Proof.
  intros c. destruct (empty_icache _ _ _ sample_booted_rest eq_refl eq_refl) as [C Hsp].
  apply (namex_correct g (c_disk c) (c_trace c) 0 mk_nlog mk_size [] sample_image (fun _ => None) sample_booted 0 [47; 47; 120] true (replicate 14 0)).
  - apply fits_nil.
  - apply (io_wf _ _ sample_image_of).
  - apply (image_dirs sample_args); [exact sample_args_all_ok|exact sample_image_of].
  - apply (image_linked sample_args); [exact sample_args_all_ok|exact sample_image_of|by left].
  - exact C.
  - exact Hsp.
  - apply (bool_decide_unpack _). vm_compute. exact I.
  - intros H. exfalso. by apply H.
Defined.

(** ** Where the images and the kernel do not fit *)

(** Thirty empty files: with "." and ".." their entries fill the first block of the root directory. *)
Definition thirty_files : list (list Z * list (list Z)) := (fun k => ([97; 97 + Z.of_nat k], [])) <$> seq 0 30.

(** An example: [mkfs] rounds the size of the root directory up to the next block even if its entries end at the end of a block, so that the last block of the directory is
    not there.  On such an image the kernel panics when it looks up a name that the root directory does not have: [readi] asks [bmap]
    for the missing block, and [bmap] allocates it outside of a transaction. *)
Example full_root_lookup_panics : exists img, mkfs_image thirty_files = Some img /\
  exists s, (lift_l boot ;;; namei (fun _ => None) 0 [47; 122]) (kernel_at [] img) = Panic "write outside of trans" s.
Proof.
  assert (E : match mkfs_image thirty_files with
    | Some img => match (lift_l boot ;;; namei (fun _ => None) 0 [47; 122]) (kernel_at [] img) with Panic m _ => String.eqb m "write outside of trans" | _ => false end
    | None => false
    end = true) by (by vm_compute).
  destruct (mkfs_image thirty_files) as [img|]; [|done]. exists img. split; [done|].
  destruct ((lift_l boot ;;; namei _ _ _) (kernel_at [] img)) as [|m s| |]; try done. exists s. apply String.eqb_eq in E. by subst m.
Qed.

(** Files that use every block below the log. *)
Definition filling_files : list (list Z * list (list Z)) :=
  ((fun k => ([97 + Z.of_nat k], replicate 140 (replicate 512 1))) <$> seq 0 6) ++ [([122], replicate 137 (replicate 512 1))].

(** The bitmap of an image has the blocks of the log as free.  When the blocks below the log are in use, the kernel's [balloc] does not
    panic for lack of blocks but gives out the head of the log. *)
Theorem full_disk_allocates_log : mkfs_used filling_files = g_start g /\ exists img, mkfs_image filling_files = Some img /\
  exists s, (lift_l boot ;;; lift_l begin_trans ;;; balloc 1) (kernel_at [] img) = Ok (g_start g) s.
Proof.
  split; [by vm_compute|]. assert (E : match mkfs_image filling_files with
    | Some img => match (lift_l boot ;;; lift_l begin_trans ;;; balloc 1) (kernel_at [] img) with Ok a _ => a =? g_start g | _ => false end
    | None => false
    end = true) by (by vm_compute).
  destruct (mkfs_image filling_files) as [img|]; [|done]. exists img. split; [done|].
  destruct ((lift_l boot ;;; lift_l begin_trans ;;; balloc 1) (kernel_at [] img)) as [a s| | |]; try done. exists s. apply Z.eqb_eq in E. by subst a.
Qed.
