(* ===== verification/Syscall.v ===== *)
(** * System call arguments: the first part of syscall.c

    A user address is read and written through the page table in use, as in Proc.v; an unmapped one faults
    in the kernel.  [fetchint], [argint] and [argptr] give the value they store, or
    [None] for the result -1; a string argument is its address and the list of its bytes. *)

From S2P Require Import Prelude CString Mmu Kalloc Vm Proc.

Section Syscall.
Context {F : Type} `{FO : FileOps F} `{AS : AddrSpace}.

(** A load of the kernel through the page table of the running process. *)
Definition vload8 (va : Z) : K (pst F) Z :=
  let* s := kget in
  let* pte := lift_k (walkpgdir (p2v (s_cr3 s)) va false) in
  if pte =? 0 then kpanic "trap"
  else
    let* e := lift_k (load32 pte) in
    if negb (present e) then kpanic "trap"
    else lift_k (kgets (fun k => ld (k_mem k) (p2v (PTE_ADDR e) + va mod PGSIZE))).

Definition vload32 (va : Z) : K (pst F) Z :=
  let* b0 := vload8 va in
  let* b1 := vload8 (u32 (va + 1)) in
  let* b2 := vload8 (u32 (va + 2)) in
  let* b3 := vload8 (u32 (va + 3)) in
  kret (b0 + 256 * b1 + 65536 * b2 + 16777216 * b3).

(** The bytes of a buffer in user memory. *)
Fixpoint vload_bytes (va : Z) (n : nat) : K (pst F) (list Z) :=
  match n with
  | O => kret []
  | S n' =>
      let* c := vload8 va in
      let* l := vload_bytes (u32 (va + 1)) n' in
      kret (c :: l)
  end.

Fixpoint vstore_bytes (va : Z) (l : list Z) : K (pst F) unit :=
  match l with
  | [] => kret tt
  | c :: l' =>
      vstore8 va c ;;;
      vstore_bytes (u32 (va + 1)) l'
  end.

Definition fetchint (addr : Z) : K (pst F) (option Z) :=
  let* i := myproc in
  let* sz := getp i p_sz in
  if (sz <=? addr) || (sz <? u32 (addr + 4)) then kret None
  else
    let* v := vload32 addr in
    kret (Some (s32 v)).

(** The loop of [fetchstr] over the [n] addresses below [proc->sz]; [acc] are the bytes passed. *)
Fixpoint fetchstr_loop (va : Z) (acc : list Z) (n : nat) : K (pst F) (option (list Z)) :=
  match n with
  | O => kret None
  | S n' =>
      let* c := vload8 va in
      if c =? 0 then kret (Some acc) else fetchstr_loop (u32 (va + 1)) (acc ++ [c]) n'
  end.

(** The string at [addr]; its length is the result of the call. *)
Definition fetchstr (addr : Z) : K (pst F) (option (list Z)) :=
  let* i := myproc in
  let* sz := getp i p_sz in
  if sz <=? addr then kret None
  else fetchstr_loop addr [] (Z.to_nat (sz - addr)).

Definition argint (n : Z) : K (pst F) (option Z) :=
  let* i := myproc in
  let* tf := getp i p_tf in
  let* esp := lift_k (load32 (tf + tf_esp)) in
  fetchint (u32 (esp + 4 + 4 * n)).

Definition argptr (n size : Z) : K (pst F) (option Z) :=
  let* r := argint n in
  match r with
  | None => kret None
  | Some v =>
      let* i := myproc in
      let* sz := getp i p_sz in
      if (sz <=? u32 v) || (sz <? u32 (v + size)) then kret None
      else kret (Some (u32 v))
  end.

Definition argstr (n : Z) : K (pst F) (option (list Z)) :=
  let* r := argint n in
  match r with
  | None => kret None
  | Some addr => fetchstr (u32 addr)
  end.
End Syscall.
