(* ===== verification/Sysproc.v ===== *)
(** * Process system calls: sysproc.c

    A local variable that the code reads although the call that should have set it failed
    is an argument of the definition ([junk]); its value is arbitrary. *)

From S2P Require Import Prelude CString Mmu Kalloc Vm Proc Syscall Bio BufferCache Log Fs Pipe File.

Section Sysproc.
Context {B : Type} {FO : FileOps (fls B)} {AS : AddrSpace}.
Variable forkret_a trapret_a : Z.

Abbreviation St := (pst (fls B)).

Definition or_junk (r : option Z) (junk : Z) : Z := default junk r.

Definition sys_fork : K St Z := fork forkret_a trapret_a.

(** [fuel] bounds the loop of [exit] (Proc.v). *)
Definition sys_exit (junk : Z) (fuel : nat) : K St Z :=
  let* st := argint 0 in
  exit (or_junk st junk) fuel ;;;
  kret 0.

Definition sys_wait (junk : Z) : K St Z :=
  let* st := argptr 0 8 in
  wait (or_junk st junk).

Definition sys_waitpid (junk_st junk_pid junk_op : Z) : K St Z :=
  let* pid := argint 0 in
  let* st := argptr 0 8 in
  let* op := argint 0 in
  waitpid (or_junk pid junk_pid) (or_junk st junk_st) (or_junk op junk_op).

Definition sys_setprio (junk : Z) : K St Z :=
  let* prio := argint 0 in
  setprio (or_junk prio junk) ;;;
  kret 0.

Definition sys_kill : K St Z :=
  let* pid := argint 0 in
  match pid with
  | None => kret (-1)
  | Some pid => kill pid
  end.

Definition sys_getpid : K St Z :=
  let* i := myproc in
  getp i p_pid.

Definition sys_sbrk : K St Z :=
  let* n := argint 0 in
  match n with
  | None => kret (-1)
  | Some n =>
      let* i := myproc in
      let* addr := getp i p_sz in
      let* r := growproc n in
      if r <? 0 then kret (-1) else kret (s32 addr)
  end.

(** The test of the loop of [sys_sleep]: the [int] argument is converted to [uint]. *)
Definition sleeping (ticks ticks0 n : Z) : bool := u32 (ticks - ticks0) <? u32 n.

(** The loop of [sys_sleep] from its test to the return or to [sleep]. *)
Definition sys_sleep_loop (ticks0 n : Z) : K St Z :=
  let* ticks := kgets (fun s => x_ticks (s_fs s)) in
  if sleeping ticks ticks0 n then
    let* i := myproc in
    let* killed := getp i p_killed in
    if negb (killed =? 0) then
      release lk_ticks ;;;
      kret (-1)
    else sleep ch_ticks lk_ticks (KSleep lk_ticks 0)
  else
    release lk_ticks ;;;
    kret 0.

Definition sys_sleep : K St Z :=
  let* n := argint 0 in
  match n with
  | None => kret (-1)
  | Some n =>
      acquire lk_ticks ;;;
      let* ticks0 := kgets (fun s => x_ticks (s_fs s)) in
      sys_sleep_loop ticks0 n
  end.

Definition sys_uptime : K St Z :=
  acquire lk_ticks ;;;
  let* xticks := kgets (fun s => x_ticks (s_fs s)) in
  release lk_ticks ;;;
  kret (s32 xticks).
End Sysproc.
