(* ===== verification/Exec.v ===== *)
(** * Running a program: exec.c

    The strings of [argv] are the lists of their bytes, read from the old address space before the call.
    The local [elf] is not initialised: [junk_elf] is what its 52 bytes hold before the call. *)

From S2P Require Import Prelude CString Mmu Kalloc Vm Proc Syscall Bio BufferCache Bytes Log Fs Pipe File.

Definition MAXARG : nat := 32.
Definition ELF_MAGIC : Z := 0x464C457F.
Definition ELF_PROG_LOAD : Z := 1.
Definition SIZEOF_ELFHDR : Z := 52.
Definition SIZEOF_PROGHDR : Z := 32.

(** [struct elfhdr]: the fields used, in its bytes. *)
Definition elf_magic (h : list Z) : Z := get_le 4 0 h.
Definition elf_entry (h : list Z) : Z := get_le 4 24 h.
Definition elf_phoff (h : list Z) : Z := get_le 4 28 h.
Definition elf_phnum (h : list Z) : Z := get_le 2 44 h.

(** [struct proghdr] *)
Definition ph_type (h : list Z) : Z := get_le 4 0 h.
Definition ph_off (h : list Z) : Z := get_le 4 4 h.
Definition ph_vaddr (h : list Z) : Z := get_le 4 8 h.
Definition ph_filesz (h : list Z) : Z := get_le 4 16 h.
Definition ph_memsz (h : list Z) : Z := get_le 4 20 h.

(** The name after the last slash, as the string kept in [proc->name]. *)
Fixpoint last_elem (path last : list Z) : list Z :=
  match path with
  | [] => last
  | c :: path' => last_elem path' (if c =? slash then path' else last)
  end.

Fixpoint bytes_string (l : list Z) : string :=
  match l with
  | [] => EmptyString
  | c :: l' => String (Ascii.ascii_of_N (Z.to_N (u8 c))) (bytes_string l')
  end.

Section Exec.
Context {B : Type} {OPS : BufferOps B} {FO : FileOps (fls B)} {AS : AddrSpace}.
Variable devsw_read : Z -> option (nat -> Z -> K (fsys B) (Z * list Z)).

Abbreviation St := (pst (fls B)).

(** [proc->cwd], where [namex] uses it. *)
Definition cwd_for (path : list Z) : K St nat :=
  if hd 0 path =? slash then kret 0%nat
  else
    let* i := myproc in
    let* cwd := getp i p_cwd in
    match cwd with
    | Some c => kret c
    | None => kpanic "trap"
    end.

Definition sys_namei (path : list Z) : K St (option nat) :=
  let* cwd := cwd_for path in
  lift_f (lift_x (namei devsw_read cwd path)).

(** [readi] to an address of kernel memory. *)
Definition readi_to (ip : nat) (dst off n : Z) : K St Z :=
  let* (r, bytes) := lift_f (lift_x (readi devsw_read ip off n)) in
  lift_k (kmod (fun k => set_mem (st_bytes (k_mem k) dst bytes) k)) ;;;
  kret r.

(** The loop over the program headers from [i] and [off] on: the size of the
    image, or the jump to [bad]. *)
Fixpoint load_segments (ip : nat) (pgdir sz off : Z) (n : nat) : K St (option Z) :=
  match n with
  | O => kret (Some sz)
  | S n' =>
      let* (r, ph) := lift_f (lift_x (readi devsw_read ip off SIZEOF_PROGHDR)) in
      if negb (u32 r =? SIZEOF_PROGHDR) then kret None
      else if negb (ph_type ph =? ELF_PROG_LOAD) then load_segments ip pgdir sz (u32 (off + SIZEOF_PROGHDR)) n'
      else if ph_memsz ph <? ph_filesz ph then kret None
      else
        let* sz := lift_k (vm_allocuvm pgdir sz (u32 (ph_vaddr ph + ph_memsz ph))) in
        if sz =? 0 then kret None
        else
          let* r := loaduvm (fun A m => lift_k m) (readi_to ip) pgdir (ph_vaddr ph) (ph_off ph) (ph_filesz ph) in
          if r <? 0 then kret None
          else load_segments ip pgdir sz (u32 (off + SIZEOF_PROGHDR)) n'
  end.

(** The loop that pushes the arguments: the stack pointer and the words of [ustack] from 3 on, or
    the jump to [bad]. *)
Fixpoint push_args (pgdir sp : Z) (argv : list (list Z)) (argc : nat) (ustack : list Z) : K St (option (Z * list Z)) :=
  match argv with
  | [] => kret (Some (sp, ustack))
  | a :: argv' =>
      if bool_decide (MAXARG <= argc)%nat then kret None
      else
        let sp := Z.land (u32 (sp - (Z.of_nat (length a) + 1))) (u32 (Z.lnot 3)) in
        let* r := lift_k (copyout pgdir sp (a ++ [0])) in
        if r <? 0 then kret None
        else push_args pgdir sp argv' (S argc) (ustack ++ [sp])
  end.

(** [bad]: [ip] is [None] once it has been put. *)
Definition exec_bad (pgdir : Z) (ip : option nat) : K St Z :=
  (when negb (pgdir =? 0) do lift_k (vm_freevm pgdir)) ;;;
  (match ip with Some ip => lift_f (lift_x (iunlockput ip)) | None => kret tt end) ;;;
  kret (-1).

(** [exec] from [iunlockput] on. *)
Definition exec_commit (path : list Z) (argv : list (list Z)) (elf : list Z) (pgdir sz : Z) : K St Z :=
  let sz := PGROUNDUP sz in
  let* sz := lift_k (vm_allocuvm pgdir sz (u32 (sz + 2 * PGSIZE))) in
  if sz =? 0 then exec_bad pgdir None
  else
    lift_k (clearpteu pgdir (u32 (sz - 2 * PGSIZE))) ;;;
    let* r := push_args pgdir sz argv 0 [] in
    match r with
    | None => exec_bad pgdir None
    | Some (sp, args) =>
        let argc := Z.of_nat (length args) in
        let ustack := [0xffffffff; argc; u32 (sp - (argc + 1) * 4)] ++ args ++ [0] in
        let sp := u32 (sp - (3 + argc + 1) * 4) in
        let* r := lift_k (copyout pgdir sp (mjoin (le_bytes 4 <$> ustack))) in
        if r <? 0 then exec_bad pgdir None
        else
          let* i := myproc in
          setp i (set_p_name (copy_name (bytes_string (last_elem path path)))) ;;;
          let* oldpgdir := getp i p_pgdir in
          setp i (set_p_pgdir pgdir) ;;;
          setp i (set_p_sz sz) ;;;
          let* tf := getp i p_tf in
          lift_k (store32 (tf + tf_eip) (elf_entry elf)) ;;;
          lift_k (store32 (tf + tf_esp) sp) ;;;
          switchuvm i ;;;
          lift_k (vm_freevm oldpgdir) ;;;
          kret 0
    end.

Definition exec (junk_elf : list Z) (path : list Z) (argv : list (list Z)) : K St Z :=
  let* ip := sys_namei path in
  match ip with
  | None => kret (-1)
  | Some ip =>
      lift_f (lift_x (ilock ip)) ;;;
      let* (r, bytes) := lift_f (lift_x (readi devsw_read ip 0 SIZEOF_ELFHDR)) in
      let elf := splice 0 bytes junk_elf in
      if u32 r <? SIZEOF_ELFHDR then exec_bad 0 (Some ip)
      else if negb (elf_magic elf =? ELF_MAGIC) then exec_bad 0 (Some ip)
      else
        let* pgdir := lift_k vm_setupkvm in
        if pgdir =? 0 then exec_bad 0 (Some ip)
        else
          let* sz := load_segments ip pgdir 0 (elf_phoff elf) (Z.to_nat (elf_phnum elf)) in
          match sz with
          | None => exec_bad pgdir (Some ip)
          | Some sz =>
              lift_f (lift_x (iunlockput ip)) ;;;
              exec_commit path argv elf pgdir sz
          end
  end.
End Exec.
