(* ===== verification/Sysfile.v ===== *)
(** * File system calls and the table of system calls: sysfile.c, syscall.c

    Every call works on the whole state: the process table, the memory and the file layer.  The local arrays
    [char name[DIRSIZ]] are not initialised ([junk_name]).  What a read stores into the user's buffer is stored
    when the bytes have been read. *)

From S2P Require Import Prelude CString Mmu Kalloc Vm Proc Syscall Bio BufferCache Bytes Log Fs Pipe File Sysproc Exec.

Definition O_RDONLY : Z := 0x000.
Definition O_WRONLY : Z := 0x001.
Definition O_RDWR : Z := 0x002.
Definition O_CREATE : Z := 0x200.
Definition SIZEOF_STAT : Z := 20.

Section Sysfile.
Context {B : Type} {OPS : BufferOps B} {FO : FileOps (fls B)} {AS : AddrSpace}.
Variable kend : Z.
Variable devsw_read : Z -> option (nat -> Z -> K (fsys B) (Z * list Z)).
Variable devsw_write : Z -> option (nat -> list Z -> Z -> K (fsys B) Z).
Variable junk_name : list Z.
Variable junk_elf : list Z.

Abbreviation St := (pst (fls B)).

(** Code of fs.c and log.c, run on the whole state. *)
Definition fs {A} (m : K (fsys B) A) : K St A := lift_f (lift_x m).
Definition sys_begin : K St unit := fs (lift_l begin_trans).
Definition sys_commit : K St unit := fs (lift_l commit_trans).

Definition sys_nameiparent (path : list Z) : K St (option nat * list Z) :=
  let* cwd := cwd_for path in
  fs (nameiparent devsw_read cwd path junk_name).

(** The descriptor and the file. *)
Definition argfd (n : Z) : K St (option (nat * nat)) :=
  let* fd := argint n in
  match fd with
  | None => kret None
  | Some fd =>
      if (fd <? 0) || (Z.of_nat NOFILE <=? fd) then kret None
      else
        let* i := myproc in
        let* f := getp i (fun p => nth (Z.to_nat fd) (p_ofile p) None) in
        kret (option_map (fun f => (Z.to_nat fd, f)) f)
  end.

Definition set_ofile (i fd : nat) (v : option nat) : K St unit :=
  setp i (fun p => set_p_ofile (<[fd := v]> (p_ofile p)) p).

Definition fdalloc (f : nat) : K St (option nat) :=
  let* i := myproc in
  for_first (seq 0 NOFILE) (fun fd =>
    let* o := getp i (fun p => nth fd (p_ofile p) None) in
    match o with
    | None => set_ofile i fd (Some f) ;;; kret (Some fd)
    | Some _ => kret None
    end).

Definition sys_dup : K St Z :=
  let* a := argfd 0 in
  match a with
  | None => kret (-1)
  | Some (_, f) =>
      let* fd := fdalloc f in
      match fd with
      | None => kret (-1)
      | Some fd =>
          lift_f (File.filedup f) ;;;
          kret (Z.of_nat fd)
      end
  end.

(** [proc->killed], which the pipe operations test. *)
Definition my_killed : K St bool :=
  let* i := myproc in
  getp i (fun p => negb (p_killed p =? 0)).

(** [argfd(0, 0, &f) < 0 || argint(2, &n) < 0 || argptr(1, &p, n) < 0]: the file, the count and the pointer. *)
Definition rw_args : K St (option (nat * Z * Z)) :=
  let* a := argfd 0 in
  match a with
  | None => kret None
  | Some (_, f) =>
      let* n := argint 2 in
      match n with
      | None => kret None
      | Some n =>
          let* p := argptr 1 n in
          kret (option_map (fun p => (f, n, p)) p)
      end
  end.

Definition sys_read : K St Z :=
  let* a := rw_args in
  match a with
  | None => kret (-1)
  | Some (f, n, p) =>
      let* killed := my_killed in
      let* (r, bytes) := lift_f (fileread devsw_read killed f n) in
      vstore_bytes p bytes ;;;
      kret r
  end.

Definition sys_write : K St Z :=
  let* a := rw_args in
  match a with
  | None => kret (-1)
  | Some (f, n, p) =>
      let* killed := my_killed in
      let* bytes := vload_bytes p (Z.to_nat n) in
      lift_f (filewrite devsw_write killed f bytes n)
  end.

Definition sys_close : K St Z :=
  let* a := argfd 0 in
  match a with
  | None => kret (-1)
  | Some (fd, f) =>
      let* i := myproc in
      set_ofile i fd None ;;;
      lift_f (File.fileclose kend f) ;;;
      kret 0
  end.

Definition vstore16 (va v : Z) : K St unit :=
  vstore8 va v ;;;
  vstore8 (u32 (va + 1)) (Z.shiftr v 8).

(** The fields of [struct stat] in user memory. *)
Definition vstore_stat (va : Z) (st : stat) : K St unit :=
  vstore32 (u32 (va + 4)) (st_dev st) ;;;
  vstore32 (u32 (va + 8)) (st_ino st) ;;;
  vstore16 va (st_type st) ;;;
  vstore16 (u32 (va + 12)) (st_nlink st) ;;;
  vstore32 (u32 (va + 16)) (st_size st).

Definition sys_fstat : K St Z :=
  let* a := argfd 0 in
  match a with
  | None => kret (-1)
  | Some (_, f) =>
      let* p := argptr 1 SIZEOF_STAT in
      match p with
      | None => kret (-1)
      | Some p =>
          let* (r, st) := lift_f (filestat f) in
          (match st with Some st => vstore_stat p st | None => kret tt end) ;;;
          kret r
      end
  end.

(** ** link and unlink *)

Definition add_nlink (ip : nat) (d : Z) : K St unit :=
  fs (setd ip (fun x => set_nlink (s16 (d_nlink x + d)) x)).

(** [bad] of [sys_link]. *)
Definition sys_link_bad (ip : nat) : K St Z :=
  fs (ilock ip) ;;;
  add_nlink ip (-1) ;;;
  fs (iupdate ip) ;;;
  fs (iunlockput ip) ;;;
  sys_commit ;;;
  kret (-1).

Definition sys_link : K St Z :=
  let* old := argstr 0 in
  match old with None => kret (-1) | Some old =>
  let* new := argstr 1 in
  match new with None => kret (-1) | Some new =>
  let* ip := sys_namei devsw_read old in
  match ip with None => kret (-1) | Some ip =>
  sys_begin ;;;
  fs (ilock ip) ;;;
  let* t := fs (geti ip (fun i => d_type (i_d i))) in
  if t =? T_DIR then
    fs (iunlockput ip) ;;;
    sys_commit ;;;
    kret (-1)
  else
    add_nlink ip 1 ;;;
    fs (iupdate ip) ;;;
    fs (iunlock ip) ;;;
    let* (dp, name) := sys_nameiparent new in
    match dp with
    | None => sys_link_bad ip
    | Some dp =>
        fs (ilock dp) ;;;
        let* ddev := fs (geti dp i_dev) in
        let* idev := fs (geti ip i_dev) in
        let* inum := fs (geti ip i_inum) in
        let* r := (if negb (ddev =? idev) then kret (-1)
                   else fs (dirlink devsw_read devsw_write dp name inum)) in
        if r <? 0 then
          fs (iunlockput dp) ;;;
          sys_link_bad ip
        else
          fs (iunlockput dp) ;;;
          fs (Fs.iput ip) ;;;
          sys_commit ;;;
          kret 0
    end
  end end end.

Definition isdirempty (dp : nat) : K St bool :=
  let* size := fs (geti dp (fun i => d_size (i_d i))) in
  let* r := for_first (dir_offsets (2 * SIZEOF_DIRENT) size) (fun off =>
    let* (r, de) := fs (readi devsw_read dp off SIZEOF_DIRENT) in
    if negb (r =? SIZEOF_DIRENT) then kpanic "isdirempty: readi"
    else if negb (de_inum de =? 0) then kret (Some tt)
    else kret None) in
  kret (match r with Some _ => false | None => true end).

(** [bad] of [sys_unlink]. *)
Definition sys_unlink_bad (dp : nat) : K St Z :=
  fs (iunlockput dp) ;;;
  sys_commit ;;;
  kret (-1).

Definition dot : list Z := [46].
Definition dotdot : list Z := [46; 46].

Definition sys_unlink : K St Z :=
  let* path := argstr 0 in
  match path with None => kret (-1) | Some path =>
  let* (dp, name) := sys_nameiparent path in
  match dp with None => kret (-1) | Some dp =>
  sys_begin ;;;
  fs (ilock dp) ;;;
  if (namecmp name dot =? 0) || (namecmp name dotdot =? 0) then sys_unlink_bad dp
  else
    let* r := fs (dirlookup devsw_read dp name) in
    match r with
    | None => sys_unlink_bad dp
    | Some (ip, off) =>
        fs (ilock ip) ;;;
        let* i := fs (geti ip (fun i => i)) in
        if d_nlink (i_d i) <? 1 then kpanic "unlink: nlink < 1"
        else
          let* empty := (if d_type (i_d i) =? T_DIR then isdirempty ip else kret true) in
          if negb empty then
            fs (iunlockput ip) ;;;
            sys_unlink_bad dp
          else
            let* r := fs (writei devsw_write dp (replicate (Z.to_nat SIZEOF_DIRENT) 0) off SIZEOF_DIRENT) in
            if negb (r =? SIZEOF_DIRENT) then kpanic "unlink: writei"
            else
              let* t := fs (geti ip (fun i => d_type (i_d i))) in
              (when t =? T_DIR do
                 (add_nlink dp (-1) ;;;
                  fs (iupdate dp))) ;;;
              fs (iunlockput dp) ;;;
              add_nlink ip (-1) ;;;
              fs (iupdate ip) ;;;
              fs (iunlockput ip) ;;;
              sys_commit ;;;
              kret 0
    end
  end end.

(** ** Creating files *)

(** The "." and ".." entries of a new directory. *)
Definition create_dots (dp ip : nat) : K St unit :=
  add_nlink dp 1 ;;;
  fs (iupdate dp) ;;;
  let* inum := fs (geti ip i_inum) in
  let* r := fs (dirlink devsw_read devsw_write ip dot inum) in
  let* r := (if r <? 0 then kret r
             else
               let* dinum := fs (geti dp i_inum) in
               fs (dirlink devsw_read devsw_write ip dotdot dinum)) in
  if r <? 0 then kpanic "create dots" else kret tt.

Definition create (path : list Z) (type major minor : Z) : K St (option nat) :=
  let* (dp, name) := sys_nameiparent path in
  match dp with None => kret None | Some dp =>
  fs (ilock dp) ;;;
  let* r := fs (dirlookup devsw_read dp name) in
  match r with
  | Some (ip, _) =>
      fs (iunlockput dp) ;;;
      fs (ilock ip) ;;;
      let* t := fs (geti ip (fun i => d_type (i_d i))) in
      if (type =? T_FILE) && (t =? T_FILE) then kret (Some ip)
      else
        fs (iunlockput ip) ;;;
        kret None
  | None =>
      let* dev := fs (geti dp i_dev) in
      let* ip := fs (ialloc dev type) in
      fs (ilock ip) ;;;
      fs (setd ip (fun d => set_nlink 1 (set_dev (s16 major) (s16 minor) d))) ;;;
      fs (iupdate ip) ;;;
      (when type =? T_DIR do create_dots dp ip) ;;;
      let* inum := fs (geti ip i_inum) in
      let* r := fs (dirlink devsw_read devsw_write dp name inum) in
      if r <? 0 then kpanic "create: dirlink"
      else
        fs (iunlockput dp) ;;;
        kret (Some ip)
  end end.

(** The inode of [sys_open], locked, or the result -1. *)
Definition open_inode (path : list Z) (omode : Z) : K St (option nat) :=
  if negb (Z.land omode O_CREATE =? 0) then
    sys_begin ;;;
    let* ip := create path T_FILE 0 0 in
    sys_commit ;;;
    kret ip
  else
    let* ip := sys_namei devsw_read path in
    match ip with
    | None => kret None
    | Some ip =>
        fs (ilock ip) ;;;
        let* t := fs (geti ip (fun i => d_type (i_d i))) in
        if (t =? T_DIR) && negb (omode =? O_RDONLY) then
          fs (iunlockput ip) ;;;
          kret None
        else kret (Some ip)
    end.

Definition open_mode (omode : Z) : Z * Z :=
  ((if Z.land omode O_WRONLY =? 0 then 1 else 0),
   (if (Z.land omode O_WRONLY =? 0) && (Z.land omode O_RDWR =? 0) then 0 else 1)).

Definition sys_open : K St Z :=
  let* path := argstr 0 in
  match path with None => kret (-1) | Some path =>
  let* omode := argint 1 in
  match omode with None => kret (-1) | Some omode =>
  let* ip := open_inode path omode in
  match ip with None => kret (-1) | Some ip =>
  let* f := lift_f filealloc in
  match f with
  | None =>
      fs (iunlockput ip) ;;;
      kret (-1)
  | Some f =>
      let* fd := fdalloc f in
      match fd with
      | None =>
          lift_f (File.fileclose kend f) ;;;
          fs (iunlockput ip) ;;;
          kret (-1)
      | Some fd =>
          fs (iunlock ip) ;;;
          lift_f (setf f (fun x => set_fi_mode (open_mode omode).1 (open_mode omode).2
            (set_fi_off 0 (set_fi_ip ip (set_fi_type FD_INODE x))))) ;;;
          kret (Z.of_nat fd)
      end
  end
  end end end.

(** The common end of [sys_mkdir] and [sys_mknod]. *)
Definition created (ip : option nat) : K St Z :=
  match ip with
  | None =>
      sys_commit ;;;
      kret (-1)
  | Some ip =>
      fs (iunlockput ip) ;;;
      sys_commit ;;;
      kret 0
  end.

Definition sys_mkdir : K St Z :=
  sys_begin ;;;
  let* path := argstr 0 in
  let* ip := (match path with None => kret None | Some path => create path T_DIR 0 0 end) in
  created ip.

Definition sys_mknod : K St Z :=
  sys_begin ;;;
  let* path := argstr 0 in
  let* ip :=
    (match path with None => kret None | Some path =>
     let* major := argint 1 in
     match major with None => kret None | Some major =>
     let* minor := argint 2 in
     match minor with None => kret None | Some minor => create path T_DEV major minor end end end) in
  created ip.

Definition sys_chdir : K St Z :=
  let* path := argstr 0 in
  match path with None => kret (-1) | Some path =>
  let* ip := sys_namei devsw_read path in
  match ip with None => kret (-1) | Some ip =>
  fs (ilock ip) ;;;
  let* t := fs (geti ip (fun i => d_type (i_d i))) in
  if negb (t =? T_DIR) then
    fs (iunlockput ip) ;;;
    kret (-1)
  else
    fs (iunlock ip) ;;;
    let* i := myproc in
    let* cwd := getp i p_cwd in
    match cwd with
    | None => kpanic "trap"
    | Some c =>
        fs (Fs.iput c) ;;;
        setp i (set_p_cwd (Some ip)) ;;;
        kret 0
    end
  end end.

(** The loop of [sys_exec]: the arguments from [i] on; [n] are left in the array. *)
Fixpoint fetch_argv (uargv i : Z) (n : nat) (argv : list (list Z)) : K St (option (list (list Z))) :=
  match n with
  | O => kret None
  | S n' =>
      let* uarg := fetchint (u32 (uargv + 4 * i)) in
      match uarg with None => kret None | Some uarg =>
      if uarg =? 0 then kret (Some argv)
      else
        let* s := fetchstr (u32 uarg) in
        match s with None => kret None | Some s => fetch_argv uargv (i + 1) n' (argv ++ [s]) end
      end
  end.

Definition sys_exec : K St Z :=
  let* path := argstr 0 in
  match path with None => kret (-1) | Some path =>
  let* uargv := argint 1 in
  match uargv with None => kret (-1) | Some uargv =>
  let* argv := fetch_argv (u32 uargv) 0 MAXARG [] in
  match argv with None => kret (-1) | Some argv =>
  exec devsw_read junk_elf path argv
  end end end.

Definition sys_pipe : K St Z :=
  let* fd := argptr 0 8 in
  match fd with None => kret (-1) | Some fd =>
  let* r := lift_f (pipealloc kend) in
  match r with None => kret (-1) | Some (rf, wf) =>
  let* i := myproc in
  let* fd0 := fdalloc rf in
  let* fd1 := (match fd0 with None => kret None | Some _ => fdalloc wf end) in
  match fd0, fd1 with
  | Some fd0, Some fd1 =>
      vstore32 fd (Z.of_nat fd0) ;;;
      vstore32 (u32 (fd + 4)) (Z.of_nat fd1) ;;;
      kret 0
  | _, _ =>
      (match fd0 with Some fd0 => set_ofile i fd0 None | None => kret tt end) ;;;
      lift_f (File.fileclose kend rf) ;;;
      lift_f (File.fileclose kend wf) ;;;
      kret (-1)
  end end end.

(** ** The table of system calls *)

Variable forkret_a trapret_a : Z.
Variable junk : Z.          (* what uninitialised locals hold *)
Variable exit_fuel : nat.   (* the bound of the loop in exit *)

(** [syscalls[num]] *)
Definition syscalls (num : Z) : option (K St Z) :=
  match num with
  | 1 => Some (sys_fork forkret_a trapret_a)
  | 2 => Some (sys_exit junk exit_fuel)
  | 3 => Some (sys_wait junk)
  | 4 => Some sys_pipe
  | 5 => Some sys_read
  | 6 => Some sys_kill
  | 7 => Some sys_exec
  | 8 => Some sys_fstat
  | 9 => Some sys_chdir
  | 10 => Some sys_dup
  | 11 => Some sys_getpid
  | 12 => Some sys_sbrk
  | 13 => Some sys_sleep
  | 14 => Some sys_uptime
  | 15 => Some sys_open
  | 16 => Some sys_write
  | 17 => Some sys_mknod
  | 18 => Some sys_unlink
  | 19 => Some sys_link
  | 20 => Some sys_mkdir
  | 21 => Some sys_close
  | 22 => Some (sys_waitpid junk junk junk)
  | 23 => Some (sys_setprio junk)
  | _ => None
  end.

(** The message for an unknown call is not modelled. *)
Definition syscall : K St unit :=
  let* i := myproc in
  let* tf := getp i p_tf in
  let* num := lift_k (load32 (tf + tf_eax)) in
  match syscalls (s32 num) with
  | Some call =>
      let* r := call in
      let* tf := getp i p_tf in
      lift_k (store32 (tf + tf_eax) r)
  | None => lift_k (store32 (tf + tf_eax) (-1))
  end.
End Sysfile.
