(* ===== verification/Trap.v ===== *)
(** * Traps: trap.c

    [trap] handles system calls, device interrupts and faults.  The device handlers and the
    interrupt controller are arguments; the messages are not modelled.  The trap frame is in kernel
    memory at the address [tf].  [exit], [yield] and a system call that sleeps end the run of the process on this CPU; when the process is
    switched to again, [trap_leg] runs what is left: [resume] of proc.c for the return from [sched], the rest of the system call, if it was in one, and the rest of [trap]. *)

From S2P Require Import Prelude CString Mmu Kalloc Vm Proc Syscall Bio BufferCache Bytes Log Fs Pipe File Sysproc Exec Sysfile.

Definition T_SYSCALL : Z := 64.
Definition T_IRQ0 : Z := 32.
Definition IRQ_TIMER : Z := 0.
Definition IRQ_KBD : Z := 1.
Definition IRQ_COM1 : Z := 4.
Definition IRQ_IDE : Z := 14.
Definition IRQ_SPURIOUS : Z := 31.
Definition tf_trapno : Z := 48.

Section Trap.
Context {B : Type} {FO : FileOps (fls B)} {AS : AddrSpace}.

Abbreviation St := (pst (fls B)).

Variable syscall : K St unit.
Variables ideintr kbdintr uartintr lapiceoi : K St unit.
Variable cpu_id : Z.
Variable exit_fuel : nat.

(** [proc && proc->killed && (tf->cs&3) == DPL_USER] *)
Definition must_exit (tf : Z) : K St bool :=
  let* s := kget in
  match s_cur s with
  | None => kret false
  | Some i =>
      kret (negb (p_killed (proc_at s i) =? 0) && (Z.land (ld (k_mem (s_k s)) (tf + tf_cs)) 3 =? DPL_USER))
  end.

(** Exit if the process has been killed and the trap came from user space. *)
Definition trap_end (tf : Z) : K St unit :=
  let* b := must_exit tf in
  when b do exit 0 exit_fuel.

(** [trap] after [yield]: its last statement. *)
Definition after_yield (tf : Z) : K St unit := trap_end tf.

(** [trap] after [syscall]. *)
Definition after_syscall : K St unit :=
  let* i := myproc in
  let* killed := getp i p_killed in
  when negb (killed =? 0) do exit 0 exit_fuel.

Definition trap_syscall (tf : Z) : K St unit :=
  let* i := myproc in
  let* killed := getp i p_killed in
  (when negb (killed =? 0) do exit 1 exit_fuel) ;;;
  setp i (set_p_tf tf) ;;;
  syscall ;;;
  after_syscall.

(** The case [T_IRQ0 + IRQ_TIMER]. *)
Definition timer_tick : K St unit :=
  when cpu_id =? 0 do
    (acquire lk_ticks ;;;
     kmod (fun s => set_s_fs (set_x_ticks (u32 (x_ticks (s_fs s) + 1)) (s_fs s)) s) ;;;
     wakeup ch_ticks ;;;
     release lk_ticks).

(** The default case. *)
Definition trap_fault (tf : Z) : K St unit :=
  let* s := kget in
  match s_cur s with
  | None => kpanic "trap"
  | Some i =>
      if Z.land (ld (k_mem (s_k s)) (tf + tf_cs)) 3 =? 0 then kpanic "trap"
      else setp i (set_p_killed 1)
  end.

Definition trap_irq (tf trapno : Z) : K St unit :=
  if trapno =? T_IRQ0 + IRQ_TIMER then timer_tick ;;; lapiceoi
  else if trapno =? T_IRQ0 + IRQ_IDE then ideintr ;;; lapiceoi
  else if trapno =? T_IRQ0 + IRQ_IDE + 1 then kret tt
  else if trapno =? T_IRQ0 + IRQ_KBD then kbdintr ;;; lapiceoi
  else if trapno =? T_IRQ0 + IRQ_COM1 then uartintr ;;; lapiceoi
  else if (trapno =? T_IRQ0 + 7) || (trapno =? T_IRQ0 + IRQ_SPURIOUS) then lapiceoi
  else trap_fault tf.

Definition trap (tf : Z) : K St unit :=
  let* trapno := lift_k (load32 (tf + tf_trapno)) in
  if trapno =? T_SYSCALL then trap_syscall tf
  else
    trap_irq tf trapno ;;;
    trap_end tf ;;;
    let* s := kget in
    let running := match s_cur s with Some i => st_is RUNNING (proc_at s i) | None => false end in
    let* trapno := lift_k (load32 (tf + tf_trapno)) in
    (when running && (trapno =? T_IRQ0 + IRQ_TIMER) do yield) ;;;
    after_yield tf.

(** A trap is run in one or more legs: from its entry and, each time the process that took it is switched to again, from the [sched] in [yield] or in a system call that sleeps.  [rest] is what is left of [syscall]
    when the [sleep] in it returns. *)
Inductive leg :=
  | LEntry
  | LYield
  | LSyscall (rest : option Z -> K St unit).

Definition trap_leg (l : leg) (tf : Z) : K St unit :=
  match l with
  | LEntry => trap tf
  | LYield =>
      let* i := myproc in
      let* k := getp i p_kont in
      resume k ;;;
      after_yield tf
  | LSyscall rest =>
      let* i := myproc in
      let* k := getp i p_kont in
      let* v := resume k in
      rest v ;;;
      after_syscall
  end.

(** ** A killed process does not go back to user mode *)

Lemma sched_never_returns {A} k s (Q : A -> St -> Prop) D : (forall s', D s') -> post (sched k) s Q D.
Proof.
  intros HD. unfold sched, myproc. apply post_bind, post_get.
  case_match; [apply post_panic|]. case_match; [apply post_panic|]. apply post_bind, post_bind, post_get.
  case_match; [|apply post_panic]. apply post_ret, post_bind, post_gets.
  case_match; [apply post_panic|]. case_match; [apply post_panic|]. apply post_bind, post_mod. apply HD.
Qed.

(** Whatever [m] does, what comes after it decides. *)
Lemma post_any {A C} (m : K St A) (f : A -> K St C) s Q D :
  (forall a s', post (f a) s' Q D) -> (forall s', D s') -> post (kbind m f) s Q D.
Proof. intros Hf HD. unfold post, kbind. destruct (m s); [apply Hf|done|apply HD|done]. Qed.

Lemma exit_never_returns st fuel s (Q : unit -> St -> Prop) D : (forall s', D s') -> post (exit st fuel) s Q D.
Proof.
  intros HD. unfold exit. apply post_any; [|done]. intros i s1. apply post_any; [|done]. intros init s2.
  case_match; [apply post_panic|]. apply post_any; [|done]. intros _ s3. apply post_any; [|done]. intros cwd s4.
  case_match; [|apply post_panic]. unfold exit_locked.
  do 9 (apply post_any; [|done]; intros ? ?). by apply sched_never_returns.
Qed.

(** The current process may go on. *)
Definition not_killed (s : St) : Prop :=
  match s_cur s with Some i => p_killed (proc_at s i) = 0 | None => True end.

Definition user_mode (tf : Z) (s : St) : Prop := Z.land (ld (k_mem (s_k s)) (tf + tf_cs)) 3 = DPL_USER.

Lemma trap_end_post tf s : post (trap_end tf) s (fun _ s' => user_mode tf s' -> not_killed s') (fun _ => True).
Proof.
  unfold trap_end, must_exit. apply post_bind, post_bind, post_get. unfold not_killed, user_mode.
  destruct (s_cur s) as [i|] eqn:Ec; apply post_ret.
  - case_match eqn:E; [by apply exit_never_returns|]. apply post_ret. rewrite Ec. intros Hu.
    rewrite Hu, Z.eqb_refl, andb_true_r in E. by apply Z.eqb_eq, negb_false_iff.
  - apply post_ret. by rewrite Ec.
Qed.

Lemma after_syscall_post s : post after_syscall s (fun _ s' => not_killed s') (fun _ => True).
Proof.
  unfold after_syscall, myproc. apply post_bind, post_bind, post_get. destruct (s_cur _) as [i|] eqn:Ec; [|apply post_panic].
  apply post_ret, post_bind, post_gets. case_match eqn:Ek; [by apply exit_never_returns|].
  apply post_ret. unfold not_killed. rewrite Ec. by apply Z.eqb_eq, negb_false_iff.
Qed.

(** The leg is one of a system call. *)
Definition in_syscall (l : leg) (tf : Z) (s : St) : Prop :=
  match l with
  | LEntry => ld32 (k_mem (s_k s)) (tf + tf_trapno) = T_SYSCALL
  | LYield => False
  | LSyscall _ => True
  end.

(** C31: a killed process never returns to its user program.  Whenever [trap] returns, on the leg from its entry, on the one after [yield] or on the one after a sleep in a system call, the [killed] flag of the current
    process is clear, if the trap is a system call or came from user mode.  This holds whatever the system calls, what is left of one after a sleep, and the device handlers do. *)
Theorem killed_never_returns_to_user l tf s u s' :
  trap_leg l tf s = Ok u s' -> in_syscall l tf s \/ user_mode tf s' -> not_killed s'.
Proof.
  intros E. assert (H : post (trap_leg l tf) s (fun _ s' => in_syscall l tf s \/ user_mode tf s' -> not_killed s') (fun _ => True)).
  2: { unfold post in H. by rewrite E in H. }
  clear E. destruct l as [| |rest]; cbn [trap_leg].
  - unfold trap. apply post_bind. unfold post at 1, lift_k, load32, kgets. destruct (_ =? T_SYSCALL) eqn:Et.
    + unfold trap_syscall. do 5 (apply post_any; [|done]; intros ? ?). eapply post_conseq; [apply after_syscall_post|done|done].
    + do 5 (apply post_any; [|done]; intros ? ?). eapply post_conseq; [apply trap_end_post| |done].
      intros ? s1 H [Hs|Hu]; [|by apply H]. cbn in Hs. by rewrite Hs in Et.
  - do 3 (apply post_any; [|done]; intros ? ?). eapply post_conseq; [apply trap_end_post| |done]. intros ? s1 H [Hs|Hu]; [done|by apply H].
  - do 4 (apply post_any; [|done]; intros ? ?). eapply post_conseq; [apply after_syscall_post|done|done].
Qed.
End Trap.

(** ** A system call that returns *)

Section example.

(** A process whose trap frame is at [tf], in a memory where the frame has trap number 64 and the user's [cs]. *)
Definition trap_mem (tf : Z) : mem := fun a => if a =? tf + tf_trapno then T_SYSCALL else if a =? tf + tf_cs then 0x23 else 0.

Definition trap_kstate (tf : Z) : kstate := set_mem (trap_mem tf) empty_kstate.

Definition trap_proc : proc :=
  Proc 4096 0x80600000 0x80601000 RUNNING 1 None 0 0 KForkret ch_null 0 (replicate NOFILE None) (Some 0%nat) "init" 0 0 1.

Definition no_files : fls unit := Fls (Fsys (Lst tt 0 0 0 0 0 []) []) [] ∅ 0.

Definition trap_state (tf : Z) : pst (fls unit) :=
  Pst (trap_proc :: replicate 63 zero_proc) 2 (Some 0%nat) false (Some 0%nat) [] 0 no_task (trap_kstate tf) no_files.

#[local] Instance null_files : FileOps (fls unit) := {|
  Proc.filedup := kret; Proc.fileclose := fun _ => kret tt; Proc.idup := kret; Proc.iput := fun _ => kret tt;
  Proc.namei_root := kret (Some 0%nat); Proc.initlog := kret tt
|}.

#[local] Instance null_vm : AddrSpace := {|
  vm_kfree := fun _ => kret tt; vm_setupkvm := kret 0x80600000; vm_inituvm := fun _ _ => kret tt;
  vm_allocuvm := fun _ _ sz => kret sz; vm_deallocuvm := fun _ _ sz => kret sz;
  vm_freevm := fun _ => kret tt; vm_copyuvm := fun _ _ => kret 0x80600000
|}.

(** The process of [trap_state], which has been switched to again in [yield]. *)
Definition yielded_state (tf : Z) : pst (fls unit) := set_held [lk_ptable] (upd_proc 0 (set_p_kont KYield) (trap_state tf)).

Lemma killed_never_returns_to_user_witness :
  (exists s', trap_leg (kret tt) (kret tt) (kret tt) (kret tt) (kret tt) 0 0 LEntry 0x80601fb4 (trap_state 0x80601fb4) = Ok tt s' /\ not_killed s') /\
  (exists s', trap_leg (kret tt) (kret tt) (kret tt) (kret tt) (kret tt) 0 0 LYield 0x80601fb4 (yielded_state 0x80601fb4) = Ok tt s' /\ not_killed s').
Proof.
  split; eexists; (split; [cbv; reflexivity|]).
  - eapply (killed_never_returns_to_user (kret tt) (kret tt) (kret tt) (kret tt) (kret tt) 0 0 LEntry 0x80601fb4 (trap_state 0x80601fb4));
      [cbv; reflexivity|left; vm_compute; reflexivity].
  - eapply (killed_never_returns_to_user (kret tt) (kret tt) (kret tt) (kret tt) (kret tt) 0 0 LYield 0x80601fb4 (yielded_state 0x80601fb4));
      [cbv; reflexivity|right; vm_compute; reflexivity].
Defined.
End example.
