(* ===== verification/Ends.v ===== *)
(** * Calls that end

    [ends I V m]: from a state that satisfies [I] the call [m] returns a value that satisfies [V], sleeps or panics, and
    leaves [I] behind; no bound of the model is reached.  The interface [BufferEnds] asks this of the
    buffer cache; the log, the file system and the file layer keep it, over the invariant of the cache
    alone. *)

From S2P Require Import Prelude CString Kalloc Vm Proc Bio BufferCache BioSpec Bytes Log Fs Pipe File.

Definition ends {S A} (I : S -> Prop) (V : A -> Prop) (m : K S A) : Prop := forall s, I s ->
  match m s with
  | Ok a s' => I s' /\ V a
  | Panic _ _ => True
  | Block _ s' => I s'
  | NoFuel => False
  end.

Abbreviation ends_any I := (ends I (fun _ => True)).

Section ends.
Context {S : Type} (I : S -> Prop).

Lemma ends_bind {A C} (V : A -> Prop) (V' : C -> Prop) (m : K S A) (f : A -> K S C) :
  ends I V m -> (forall a, V a -> ends I V' (f a)) -> ends I V' (kbind m f).
Proof.
  intros Hm Hf s Hs. unfold kbind. specialize (Hm s Hs). destruct (m s); try done. destruct Hm. by apply Hf.
Qed.

Lemma ends_seq {A C} (V' : C -> Prop) (m : K S A) (f : A -> K S C) :
  ends_any I m -> (forall a, ends I V' (f a)) -> ends I V' (kbind m f).
Proof. intros Hm Hf. eapply ends_bind; [exact Hm|auto]. Qed.

Lemma ends_ret {A} (V : A -> Prop) a : V a -> ends I V (kret a).
Proof. by intros Hv s Hs. Qed.

Lemma ends_panic {A} (V : A -> Prop) msg : ends I V (kpanic msg).
Proof. done. Qed.

Lemma ends_block {A} (V : A -> Prop) c : ends I V (kblock c).
Proof. by intros s Hs. Qed.

Lemma ends_get : ends_any I kget.
Proof. by intros s Hs. Qed.

Lemma ends_gets {A} (f : S -> A) : ends_any I (kgets f).
Proof. by intros s Hs. Qed.

Lemma ends_mod f : (forall s, I s -> I (f s)) -> ends_any I (kmod f).
Proof. intros Hf s Hs. split; [by apply Hf|done]. Qed.

Lemma ends_weaken {A} (V V' : A -> Prop) m : ends I V m -> (forall a, V a -> V' a) -> ends I V' m.
Proof. intros Hm HV s Hs. specialize (Hm s Hs). destruct (m s); naive_solver. Qed.

Lemma ends_any_of {A} (V : A -> Prop) m : ends I V m -> ends_any I m.
Proof. intros Hm. by apply (ends_weaken V). Qed.

Lemma ends_for_each {X} (l : list X) (f : X -> K S unit) : (forall x, ends_any I (f x)) -> ends_any I (for_each l f).
Proof. intros Hf. induction l; cbn; [by apply ends_ret|]. by apply ends_seq. Qed.

Lemma ends_for_first {X R} (V : R -> Prop) (l : list X) (f : X -> K S (option R)) :
  (forall x, ends I (fun r => forall v, r = Some v -> V v) (f x)) ->
  ends I (fun r => forall v, r = Some v -> V v) (for_first l f).
Proof.
  intros Hf. induction l; cbn; [by apply ends_ret|]. eapply ends_bind; [apply Hf|].
  intros [v|] Hv; [by apply ends_ret|done].
Qed.

Lemma ends_for_first_any {X R} (l : list X) (f : X -> K S (option R)) :
  (forall x, ends_any I (f x)) -> ends_any I (for_first l f).
Proof.
  intros Hf. induction l; cbn; [by apply ends_ret|]. apply ends_seq; [apply Hf|]. intros [v|]; [by apply ends_ret|done].
Qed.

Context `{HasLocks S} (HI : forall l s, I s -> I (set_held l s)).

Lemma ends_acquire lk : ends_any I (acquire lk).
Proof. unfold acquire. apply ends_seq; [apply ends_get|]. intros s. case_decide; [done|]. apply ends_mod. auto. Qed.

Lemma ends_release lk : ends_any I (release lk).
Proof. unfold release. apply ends_seq; [apply ends_get|]. intros s. case_decide; [|done]. apply ends_mod. auto. Qed.
End ends.

(** The structure of a call; what it does not settle by itself it leaves. *)
Create HintDb ends.
#[export] Hint Resolve ends_panic ends_block ends_get ends_gets : ends.

Ltac ends_step :=
  lazymatch goal with
  | |- ends _ _ (kbind _ _) => first [apply ends_seq; [|intros] | fail 1]
  | |- ends _ _ (kret _) => apply ends_ret; done
  | |- ends _ _ (kpanic _) => apply ends_panic
  | |- ends _ _ (kblock _) => apply ends_block
  | |- ends _ _ (for_each _ _) => apply ends_for_each; intros
  | |- ends _ _ (for_first _ _) => apply ends_for_first_any; intros
  | |- ends _ _ (if ?b then _ else _) => let E := fresh "E" in destruct b eqn:E
  | |- ends _ _ (match ?x with _ => _ end) => let E := fresh "E" in destruct x eqn:E
  | |- ends _ _ (let '(_, _) := ?x in _) => destruct x
  | |- ends _ _ _ => solve [eauto with ends]
  end.
Ltac ends_tac := repeat ends_step.

(** ** The interface of the cache *)

Class BufferEnds (B : Type) `{OPS : BufferOps B} := {
  be_inv : B -> Prop;
  be_buf : nat -> Prop;
  be_lock : forall l s, be_inv s -> be_inv (set_held l s);
  be_bread : forall d n, ends be_inv be_buf (bc_bread d n);
  be_bwrite : forall b, be_buf b -> ends_any be_inv (bc_bwrite b);
  be_brelse : forall b, be_buf b -> ends_any be_inv (bc_brelse b);
  be_put : forall b v, ends_any be_inv (bc_put b v);
  be_mark : forall b, ends_any be_inv (bc_mark b)
}.

(** *** bio.c keeps its promise: the ring *)

Definition ring_ok (s : bst) : Prop := exists l, rinv s l.

Lemma links_upd s i f : (forall x, next (f x) = next x /\ prev (f x) = prev x) ->
  (forall j, nx (upd_buf i f s) j = nx s j) /\ (forall j, pv (upd_buf i f s) j = pv s j).
Proof.
  intros Hf. unfold nx, pv, buf_at, upd_buf. cbn.
  split; intros j; rewrite !nth_lookup; (destruct (decide (i = j)) as [->|]; [|by rewrite list_lookup_alter_ne]);
    rewrite list_lookup_alter_eq; destruct (b_buf s !! j); cbn; try done; apply Hf.
Qed.

Lemma ring_ok_upd i f s : (forall x, next (f x) = next x /\ prev (f x) = prev x) -> ring_ok s -> ring_ok (upd_buf i f s).
Proof.
  intros Hf [l [H1 H2 H3]]. destruct (links_upd s i f Hf) as [Hn Hp]. exists l. split; [by rewrite length_upd| |done].
  eapply linked_ext; [| |exact H2]; auto.
Qed.

Lemma ring_ok_setb i f : (forall x, next (f x) = next x /\ prev (f x) = prev x) -> ends_any ring_ok (setb i f).
Proof. intros Hf. apply ends_mod. intros s. by apply ring_ok_upd. Qed.

Lemma ring_ok_lock l s : ring_ok s -> ring_ok (set_b_held l s).
Proof. intros [r H]. exists r. destruct H. by split. Qed.

#[local] Hint Extern 1 (ends _ _ (setb _ _)) => apply ring_ok_setb; by intros : ends.
#[local] Hint Extern 1 (ends _ _ (getb _ _)) => apply ends_gets : ends.
#[local] Hint Extern 1 (ends _ _ (acquire _)) => apply ends_acquire, ring_ok_lock : ends.
#[local] Hint Extern 1 (ends _ _ (release _)) => apply ends_release, ring_ok_lock : ends.
#[local] Hint Extern 1 (ends _ _ (kmod (disk_write _ _))) => apply ends_mod; intros s [r []]; by exists r : ends.

Lemma iderw_ends b : ends_any ring_ok (iderw b).
Proof. unfold iderw. ends_tac. Qed.

Lemma bget_search_ends (m : nat -> K bst (option nat)) (f : bst -> nat) :
  (forall s l, rinv s l -> exists r, m (f s) s = Ok r s /\ forall b, r = Some b -> b ∈ l) ->
  ends ring_ok (fun r => forall b, r = Some b -> (b < NBUF)%nat) (let* x := kgets f in m x).
Proof.
  intros Hm s [l H]. unfold kbind, kgets. destruct (Hm s l H) as (r & -> & Hr).
  split; [by exists l|]. intros b Hb. apply (ring_elem s l b H). by apply Hr.
Qed.

Lemma find_ends d n : ends ring_ok (fun r => forall b, r = Some b -> (b < NBUF)%nat)
  (let* first := getb head next in bget_find d n first (S NBUF)).
Proof.
  apply bget_search_ends. intros s l H. pose proof (NoDup_cons_1_1 _ _ (ring_nodup s l H)) as Hh.
  eexists. split.
  - apply (bget_find_ring s d n l head); [apply H|done|]. rewrite (ri_perm _ _ H), length_seq. lia.
  - intros b Hb. apply List.find_some in Hb as [Hb _]. by apply list_elem_of_In.
Qed.

Lemma free_ends : ends ring_ok (fun r => forall b, r = Some b -> (b < NBUF)%nat)
  (let* last := getb head prev in bget_free last (S NBUF)).
Proof.
  apply bget_search_ends. intros s l H. pose proof (NoDup_cons_1_1 _ _ (ring_nodup s l H)) as Hh.
  eexists. split.
  - apply (bget_free_ring s l head); [apply H|done|]. rewrite (ri_perm _ _ H), length_seq. lia.
  - intros b Hb. apply List.find_some in Hb as [Hb _]. by apply List.in_rev, list_elem_of_In in Hb.
Qed.

Lemma ends_search {A C D} (I : bst -> Prop) (V : D -> Prop) (V' : C -> Prop) (m : K bst A) (f : A -> K bst C) (g : C -> K bst D) :
  ends I V' (let* a := m in f a) -> (forall c, V' c -> ends I V (g c)) -> ends I V (let* a := m in let* c := f a in g c).
Proof.
  intros Hm Hg s Hs. specialize (Hm s Hs). unfold kbind in *. destruct (m s); try done.
  destruct (f a s0); try done. destruct Hm as [Hs' Hv]. by apply Hg.
Qed.

Lemma bget_ends d n : ends ring_ok (fun b => (b < NBUF)%nat) (bget d n).
Proof.
  unfold bget. apply ends_seq; [auto with ends|]. intros _. eapply ends_search; [apply find_ends|].
  intros [b|] Hb.
  - ends_tac. apply ends_ret. by apply Hb.
  - eapply ends_search; [apply free_ends|]. intros [b|] Hf; [|done]. ends_tac. apply ends_ret. by apply Hf.
Qed.

#[local] Hint Resolve iderw_ends : ends.

Lemma bread_ends d n : ends ring_ok (fun b => (b < NBUF)%nat) (bread d n).
Proof. unfold bread. eapply ends_bind; [apply bget_ends|]. intros b Hb. ends_tac. Qed.

Lemma bwrite_ends b : ends_any ring_ok (bwrite b).
Proof. unfold bwrite. ends_tac. Qed.

Lemma brelse_ends b : (b < NBUF)%nat -> ends_any ring_ok (brelse b).
Proof.
  intros Hb s [l H]. destruct (busy_buf (buf_at s b)) eqn:Eb.
  2: { unfold brelse, kbind at 1, getb at 1, kgets at 1. unfold busy_buf in Eb. by rewrite Eb. }
  destruct (decide (lk_bcache ∈ b_held s)) as [Hl|Hl].
  - assert (E : brelse b s = Panic "acquire" s); [|by rewrite E].
    unfold brelse, kbind, getb, kgets. unfold busy_buf in Eb. rewrite Eb. cbn [negb].
    unfold acquire, kbind, kget. by rewrite decide_True.
  - rewrite (brelse_eq s b Hl Eb). split; [|done]. apply ring_ok_upd; [done|].
    destruct (relink_ring s l b H Hb) as (l1 & l2 & _ & (RL & _) & Hr & Hp). eexists. split; [|exact Hr|exact Hp].
    by rewrite RL, (ri_len _ _ H).
Qed.

#[global] Instance bio_ends : BufferEnds bst.
Proof.
  refine {| be_inv := ring_ok; be_buf := fun b => (b < NBUF)%nat; be_bread := bread_ends; be_brelse := brelse_ends |}.
  - apply ring_ok_lock.
  - intros b _. apply bwrite_ends.
  - intros b v. by apply ring_ok_setb.
  - intros b. by apply ring_ok_setb.
Defined.

Lemma binv_ring_ok s : bio_inv s -> ring_ok s.
Proof. intros [l H]. exists l. exact (binv_rinv s l H). Qed.

(** ** log.c *)

Section log.
Context {B : Type} {OPS : BufferOps B} {BE : BufferEnds B}.

Definition log_inv (s : lst B) : Prop := be_inv (l_bc s).

Lemma lift_b_ends {A} (V : A -> Prop) (m : K B A) : ends be_inv V m -> ends log_inv V (lift_b m).
Proof. intros Hm s Hs. specialize (Hm (l_bc s) Hs). unfold lift_b. by destruct (m (l_bc s)). Qed.

Lemma log_lock l s : log_inv s -> log_inv (set_held l s).
Proof. apply be_lock. Qed.

#[local] Hint Extern 1 (ends _ _ (lift_b (bc_put _ _))) => apply lift_b_ends, be_put : ends.
#[local] Hint Extern 1 (ends _ _ (lift_b (bc_mark _))) => apply lift_b_ends, be_mark : ends.
#[local] Hint Extern 1 (ends _ _ (lift_b (bc_bwrite _))) => apply lift_b_ends, be_bwrite; assumption : ends.
#[local] Hint Extern 1 (ends _ _ (lift_b (bc_brelse _))) => apply lift_b_ends, be_brelse; assumption : ends.
#[local] Hint Extern 1 (ends _ _ (buf_data _)) => apply ends_gets : ends.
#[local] Hint Extern 1 (ends _ _ (acquire _)) => apply ends_acquire, log_lock : ends.
#[local] Hint Extern 1 (ends _ _ (release _)) => apply ends_release, log_lock : ends.
#[local] Hint Extern 1 (ends _ _ (kmod _)) => apply ends_mod; by intros : ends.

(** [bread] gives a buffer. *)
Ltac with_bread := eapply ends_bind; [apply lift_b_ends, be_bread|intros ? ?].
Ltac log_ends := repeat first [with_bread | ends_step].

Lemma readsb_ends d : ends_any log_inv (readsb d).
Proof. unfold readsb. log_ends. Qed.

Lemma install_trans_ends : ends_any log_inv install_trans.
Proof. unfold install_trans, install_one. log_ends. Qed.

Lemma read_head_ends : ends_any log_inv read_head.
Proof. unfold read_head. log_ends. Qed.

Lemma write_head_ends : ends_any log_inv write_head.
Proof. unfold write_head. log_ends. Qed.

#[local] Hint Resolve readsb_ends install_trans_ends read_head_ends write_head_ends : ends.

Lemma initlog_ends : ends_any log_inv initlog.
Proof. unfold initlog, recover_from_log. log_ends. Qed.

Lemma begin_trans_ends : ends_any log_inv begin_trans.
Proof. unfold begin_trans. log_ends. Qed.

Lemma commit_trans_ends : ends_any log_inv commit_trans.
Proof. unfold commit_trans. log_ends. Qed.

Lemma log_write_ends b : ends_any log_inv (log_write b).
Proof. unfold log_write. log_ends. Qed.
End log.

#[export] Hint Resolve readsb_ends initlog_ends begin_trans_ends commit_trans_ends log_write_ends : ends.

(** ** fs.c *)

Section fs.
Context {B : Type} {OPS : BufferOps B} {BE : BufferEnds B}.

Definition fs_inv (s : fsys B) : Prop := log_inv (f_log s).

Lemma lift_l_ends {A} (V : A -> Prop) (m : K (lst B) A) : ends log_inv V m -> ends fs_inv V (lift_l m).
Proof. intros Hm s Hs. specialize (Hm (f_log s) Hs). unfold lift_l. by destruct (m (f_log s)). Qed.

Lemma fs_lock l s : fs_inv s -> fs_inv (set_held l s).
Proof. apply be_lock. Qed.

Lemma f_bread_ends d n : ends fs_inv be_buf (f_bread d n).
Proof. apply lift_l_ends, lift_b_ends, be_bread. Qed.

Lemma f_brelse_ends b : be_buf b -> ends_any fs_inv (f_brelse b).
Proof. intros. by apply lift_l_ends, lift_b_ends, be_brelse. Qed.

Lemma f_put_ends b v : ends_any fs_inv (f_put b v).
Proof. apply lift_l_ends, lift_b_ends, be_put. Qed.

Lemma f_data_ends b : ends_any fs_inv (f_data b).
Proof. apply lift_l_ends, ends_gets. Qed.

Lemma f_log_write_ends b : ends_any fs_inv (f_log_write b).
Proof. apply lift_l_ends, log_write_ends. Qed.

#[local] Hint Resolve f_put_ends f_data_ends f_log_write_ends : ends.
#[local] Hint Extern 1 (ends _ _ (f_brelse _)) => apply f_brelse_ends; assumption : ends.
#[local] Hint Extern 1 (ends _ _ (lift_l _)) => apply lift_l_ends; solve [eauto with ends] : ends.
#[local] Hint Extern 1 (ends _ _ (geti _ _)) => apply ends_gets : ends.
#[local] Hint Extern 1 (ends _ _ (seti _ _)) => apply ends_mod; by intros : ends.
#[local] Hint Extern 1 (ends _ _ (setd _ _)) => apply ends_mod; by intros : ends.
#[local] Hint Extern 1 (ends _ _ (acquire _)) => apply ends_acquire, fs_lock : ends.
#[local] Hint Extern 1 (ends _ _ (release _)) => apply ends_release, fs_lock : ends.

Ltac fs_ends := repeat first [eapply ends_bind; [apply f_bread_ends|intros ? ?] | ends_step].

Lemma balloc_ends d : ends_any fs_inv (Fs.balloc d).
Proof. unfold Fs.balloc, Fs.bzero. fs_ends. Qed.

Lemma bfree_ends d b : ends_any fs_inv (bfree d b).
Proof. unfold bfree. fs_ends. Qed.

Lemma iget_ends d n : ends_any fs_inv (iget d n).
Proof. unfold iget. fs_ends. Qed.

#[local] Hint Resolve balloc_ends bfree_ends iget_ends : ends.

Lemma idup_ends ip : ends_any fs_inv (Fs.idup ip).
Proof. unfold Fs.idup. fs_ends. Qed.

Lemma ialloc_ends d t : ends_any fs_inv (ialloc d t).
Proof. unfold ialloc. fs_ends. Qed.

Lemma iupdate_ends ip : ends_any fs_inv (iupdate ip).
Proof. unfold iupdate. fs_ends. Qed.

Lemma ilock_ends ip : ends_any fs_inv (ilock ip).
Proof. unfold ilock. fs_ends. Qed.

Lemma iunlock_ends ip : ends_any fs_inv (iunlock ip).
Proof. unfold iunlock. fs_ends. Qed.

Lemma bmap_ends ip bn : ends_any fs_inv (bmap ip bn).
Proof. unfold bmap. fs_ends. Qed.

#[local] Hint Resolve idup_ends ialloc_ends iupdate_ends ilock_ends iunlock_ends bmap_ends : ends.

Lemma itrunc_ends ip : ends_any fs_inv (itrunc ip).
Proof. unfold itrunc. fs_ends. Qed.

#[local] Hint Resolve itrunc_ends : ends.

Lemma iput_ends ip : ends_any fs_inv (Fs.iput ip).
Proof. unfold Fs.iput. fs_ends. Qed.

#[local] Hint Resolve iput_ends : ends.

Lemma iunlockput_ends ip : ends_any fs_inv (iunlockput ip).
Proof. unfold iunlockput. fs_ends. Qed.

Lemma stati_ends ip : ends_any fs_inv (stati ip).
Proof. apply ends_gets. Qed.

#[local] Hint Resolve iunlockput_ends stati_ends : ends.

(** The rounds that a transfer of [r] more bytes from offset [a] of a block takes. *)
Definition rounds (a r : Z) : Z := (a + r + BSIZE - 1) / BSIZE.

Lemma rounds_next off n tot m : tot < n -> m = Z.min (n - tot) (BSIZE - off mod BSIZE) ->
  0 < m /\ tot + m <= n /\ 0 < rounds (off mod BSIZE) (n - tot) /\
  (tot + m < n -> rounds (u32 (off + m) mod BSIZE) (n - (tot + m)) <= rounds (off mod BSIZE) (n - tot) - 1).
Proof.
  intros Ht ->. unfold rounds, BSIZE, u32. split; [mlia|]. split; [mlia|]. split; [mlia|]. intros H.
  assert (E : Z.min (n - tot) (512 - off mod 512) = 512 - off mod 512) by mlia. rewrite E.
  assert (E' : ((off + (512 - off mod 512)) mod 4294967296) mod 512 = 0) by mlia. rewrite E'. mlia.
Qed.

Lemma rw_fuel_enough off n : 0 <= n -> rounds (off mod BSIZE) n <= Z.of_nat (rw_fuel n).
Proof. intros Hn. unfold rounds, rw_fuel, BSIZE. mlia. Qed.

Lemma readi_loop_ends ip n fuel : forall off tot acc, (tot < n -> rounds (off mod BSIZE) (n - tot) <= Z.of_nat fuel) ->
  ends_any fs_inv (readi_loop ip off n tot acc fuel).
Proof.
  induction fuel as [|fuel IH]; intros off tot acc Hf; cbn [readi_loop]; (destruct (tot <? n) eqn:E; [|by apply ends_ret]);
    apply Z.ltb_lt in E; destruct (rounds_next off n tot _ E eq_refl) as (H1 & H2 & H3 & H4); specialize (Hf E).
  - lia.
  - fs_ends. apply IH. intros Hn. specialize (H4 Hn). lia.
Qed.

Lemma writei_loop_ends ip src n fuel : forall off tot, (tot < n -> rounds (off mod BSIZE) (n - tot) <= Z.of_nat fuel) ->
  ends_any fs_inv (writei_loop ip src off n tot fuel).
Proof.
  induction fuel as [|fuel IH]; intros off tot Hf; cbn [writei_loop]; (destruct (tot <? n) eqn:E; [|by apply ends_ret]);
    apply Z.ltb_lt in E; destruct (rounds_next off n tot _ E eq_refl) as (H1 & H2 & H3 & H4); specialize (Hf E).
  - lia.
  - fs_ends. apply IH. intros Hn. specialize (H4 Hn). lia.
Qed.

(** The device drivers end too. *)
Variable devsw_read : Z -> option (nat -> Z -> K (fsys B) (Z * list Z)).
Variable devsw_write : Z -> option (nat -> list Z -> Z -> K (fsys B) Z).
Hypothesis Hread : forall d f, devsw_read d = Some f -> forall ip n, ends_any fs_inv (f ip n).
Hypothesis Hwrite : forall d f, devsw_write d = Some f -> forall ip src n, ends_any fs_inv (f ip src n).

Lemma readi_ends ip off n : ends_any fs_inv (readi devsw_read ip off n).
Proof.
  unfold readi. ends_tac. apply readi_loop_ends. rewrite Z.sub_0_r. intros Hn. apply rw_fuel_enough. lia.
Qed.

Lemma writei_ends ip src off n : ends_any fs_inv (writei devsw_write ip src off n).
Proof.
  unfold writei. ends_tac. apply writei_loop_ends. rewrite Z.sub_0_r. intros Hn. apply rw_fuel_enough. lia.
Qed.

#[local] Hint Resolve readi_ends writei_ends : ends.

Lemma dirlookup_ends dp name : ends_any fs_inv (dirlookup devsw_read dp name).
Proof. unfold dirlookup. ends_tac. Qed.

#[local] Hint Resolve dirlookup_ends : ends.

Lemma dirlink_ends dp name inum : ends_any fs_inv (dirlink devsw_read devsw_write dp name inum).
Proof. unfold dirlink. ends_tac. Qed.

Lemma skip_slashes_length p : (length (skip_slashes p) <= length p)%nat.
Proof. induction p as [|c p IH]; cbn; [done|]. destruct (c =? slash); cbn; lia. Qed.

Lemma take_elem_length p : (length (take_elem p).2 <= length p)%nat.
Proof. induction p as [|c p IH]; cbn; [done|]. destruct (c =? slash); [done|]. destruct (take_elem p). cbn in *. lia. Qed.

Lemma skip_slashes_first p c p' : skip_slashes p = c :: p' -> (c =? slash) = false.
Proof. induction p as [|d p IH]; cbn; [done|]. destruct (d =? slash) eqn:E; [done|]. by intros [= <- _]. Qed.

(** A path with an element left gets shorter. *)
Lemma skipelem_length path name path' name' : skipelem path name = Some (path', name') -> (length path' < length path)%nat.
Proof.
  unfold skipelem. pose proof (skip_slashes_length path) as Hl. destruct (skip_slashes path) as [|c p] eqn:E; [done|].
  pose proof (skip_slashes_first _ _ _ E) as Hc. cbn [take_elem]. rewrite Hc. pose proof (take_elem_length p) as Ht.
  destruct (take_elem p) as [e r]. intros [= <- _]. pose proof (skip_slashes_length r). cbn in *. lia.
Qed.

Lemma namex_loop_ends fuel : forall path name np ip, (length path < fuel)%nat ->
  ends_any fs_inv (namex_loop devsw_read path name np ip fuel).
Proof.
  induction fuel as [|fuel IH]; intros path name np ip Hf; [lia|]. cbn [namex_loop].
  destruct (skipelem path name) as [[path' name']|] eqn:E; [|ends_tac]. apply skipelem_length in E.
  ends_tac. apply IH. lia.
Qed.

Lemma namex_ends cwd path np name : ends_any fs_inv (namex devsw_read cwd path np name).
Proof. unfold namex. ends_tac. apply namex_loop_ends. lia. Qed.

#[local] Hint Resolve namex_ends : ends.

Lemma namei_ends cwd path : ends_any fs_inv (namei devsw_read cwd path).
Proof. unfold namei. ends_tac. Qed.

Lemma nameiparent_ends cwd path name : ends_any fs_inv (nameiparent devsw_read cwd path name).
Proof. apply namex_ends. Qed.
End fs.

#[export] Hint Resolve idup_ends ialloc_ends iupdate_ends ilock_ends iunlock_ends iput_ends iunlockput_ends stati_ends
  readi_ends writei_ends dirlookup_ends dirlink_ends namei_ends nameiparent_ends : ends.
