(* ===== verification/Sh.v ===== *)
(** * The shell's parser: sh.c

    The input line is a list of characters.  A pointer [*ps] into it is the suffix it points to, with [es]
    its end, where a read gives the terminating 0; the pointers [q] and [eq] stored in the tree are
    indices into the line.  [panic] exits the shell's child: it is an error value.

    [parseexec] fills in the arguments of a [struct execcmd] that [parseredirs] may already have
    wrapped; the model keeps the arguments and the redirections apart and wraps at the end, which gives
    the same tree. *)

From S2P Require Import Prelude.

Definition MAXARGS : nat := 10.
Definition O_RDONLY : Z := 0.
Definition O_WRONLY : Z := 1.
Definition O_CREATE : Z := 512.

(** The tree; [W] is the type of a word: a pair of indices, or its text. *)
Inductive cmd (W : Type) :=
  | EXEC (argv : list W)
  | REDIR (c : cmd W) (file : W) (mode fd : Z)
  | PIPE (left right : cmd W)
  | LIST (left right : cmd W)
  | BACK (c : cmd W).
Arguments EXEC {W}.
Arguments REDIR {W}.
Arguments PIPE {W}.
Arguments LIST {W}.
Arguments BACK {W}.

(** The characters used. *)
Definition ch_lt : Z := 60.
Definition ch_bar : Z := 124.
Definition ch_gt : Z := 62.
Definition ch_amp : Z := 38.
Definition ch_semi : Z := 59.
Definition ch_lpar : Z := 40.
Definition ch_rpar : Z := 41.
Definition ch_plus : Z := 43.
Definition ch_a : Z := 97.

Definition whitespace : list Z := [32; 9; 13; 10; 11].
Definition symbols : list Z := [ch_lt; ch_bar; ch_gt; ch_amp; ch_semi; ch_lpar; ch_rpar].

(** [strchr(l, c)] as a test; it does not find the terminating 0. *)
Definition strchr (l : list Z) (c : Z) : bool := bool_decide (c ∈ l).

Fixpoint skip_ws (s : list Z) : list Z :=
  match s with
  | c :: s' => if strchr whitespace c then skip_ws s' else s
  | [] => []
  end.

(** [*s], which is 0 at [es]. *)
Definition cur (s : list Z) : Z := hd 0 s.

Fixpoint skip_word (s : list Z) : list Z :=
  match s with
  | c :: s' => if negb (strchr whitespace c) && negb (strchr symbols c) then skip_word s' else s
  | [] => []
  end.

(** The token, its two pointers as suffixes, and [*ps] after it. *)
Definition gettoken (s : list Z) : Z * list Z * list Z * list Z :=
  let q := skip_ws s in
  let c := cur q in
  let '(ret, eq) :=
    if c =? 0 then (c, q)
    else if bool_decide (c ∈ [ch_bar; ch_lpar; ch_rpar; ch_semi; ch_amp; ch_lt]) then (c, tl q)
    else if c =? ch_gt then
      (if cur (tl q) =? ch_gt then (ch_plus, tl (tl q)) else (c, tl q))
    else (ch_a, skip_word q) in
  (ret, q, eq, skip_ws eq).

(** The test of [peek] and [*ps] after it. *)
Definition peek (s toks : list Z) : bool * list Z :=
  let s := skip_ws s in
  (negb (cur s =? 0) && strchr toks (cur s), s).

(** Results of the parser: a value with the rest of the line, a syntax error, or a bound that was
    too small. *)
Inductive pres (A : Type) :=
  | POk (a : A) (s : list Z)
  | PErr (msg : string)
  | PFuel.
Arguments POk {A}.
Arguments PErr {A} msg%_string.
Arguments PFuel {A}.

Definition pbind {A C} (m : pres A) (f : A -> list Z -> pres C) : pres C :=
  match m with
  | POk a s => f a s
  | PErr msg => PErr msg
  | PFuel => PFuel
  end.

Abbreviation word := (nat * nat)%type (only parsing).

Section parser.
Variable N : nat.    (* the length of the line *)

(** The index of a pointer. *)
Definition at_ (s : list Z) : nat := N - length s.

(** The redirections read, in order, appended to [rs]. *)
Fixpoint parseredirs (fuel : nat) (rs : list (word * Z * Z)) (s : list Z) : pres (list (word * Z * Z)) :=
  let '(b, s) := peek s [ch_lt; ch_gt] in
  if b then
    match fuel with
    | O => PFuel
    | S fuel' =>
        let '(tok, _, _, s) := gettoken s in
        let '(tok2, q, eq, s) := gettoken s in
        if negb (tok2 =? ch_a) then PErr "missing file for redirection"
        else
          let w := (at_ q, at_ eq) in
          parseredirs fuel' (rs ++ [if tok =? ch_lt then (w, O_RDONLY, 0) else (w, Z.lor O_WRONLY O_CREATE, 1)]) s
    end
  else POk rs s.

Definition wrap {W} (c : cmd W) (rs : list (W * Z * Z)) : cmd W :=
  fold_left (fun c r => REDIR c r.1.1 r.1.2 r.2) rs c.

(** The loop of [parseexec]. *)
Fixpoint parseargs (fuel : nat) (argv : list word) (rs : list (word * Z * Z)) (s : list Z) : pres (cmd word) :=
  let '(b, s) := peek s [ch_bar; ch_rpar; ch_amp; ch_semi] in
  if b then POk (wrap (EXEC argv) rs) s
  else
    match fuel with
    | O => PFuel
    | S fuel' =>
        let '(tok, q, eq, s) := gettoken s in
        if tok =? 0 then POk (wrap (EXEC argv) rs) s
        else if negb (tok =? ch_a) then PErr "syntax"
        else
          let argv := argv ++ [(at_ q, at_ eq)] in
          if bool_decide (MAXARGS <= length argv)%nat then PErr "too many args"
          else pbind (parseredirs (length s) rs s) (fun rs s => parseargs fuel' argv rs s)
    end.

(** The loop over [&] in [parseline]. *)
Fixpoint parseback (fuel : nat) (c : cmd word) (s : list Z) : pres (cmd word) :=
  let '(b, s) := peek s [ch_amp] in
  if b then
    match fuel with
    | O => PFuel
    | S fuel' => let '(_, _, _, s) := gettoken s in parseback fuel' (BACK c) s
    end
  else POk c s.

Fixpoint parseline (fuel : nat) (s : list Z) : pres (cmd word) :=
  match fuel with
  | O => PFuel
  | S fuel' =>
      pbind (parsepipe fuel' s) (fun c s =>
      pbind (parseback (length s) c s) (fun c s =>
      let '(b, s) := peek s [ch_semi] in
      if b then
        let '(_, _, _, s) := gettoken s in
        pbind (parseline fuel' s) (fun r s => POk (LIST c r) s)
      else POk c s))
  end
with parsepipe (fuel : nat) (s : list Z) : pres (cmd word) :=
  match fuel with
  | O => PFuel
  | S fuel' =>
      pbind (parseexec fuel' s) (fun c s =>
      let '(b, s) := peek s [ch_bar] in
      if b then
        let '(_, _, _, s) := gettoken s in
        pbind (parsepipe fuel' s) (fun r s => POk (PIPE c r) s)
      else POk c s)
  end
with parseexec (fuel : nat) (s : list Z) : pres (cmd word) :=
  match fuel with
  | O => PFuel
  | S fuel' =>
      let '(b, s) := peek s [ch_lpar] in
      if b then parseblock fuel' s
      else pbind (parseredirs (length s) [] s) (fun rs s => parseargs (S (length s)) [] rs s)
  end
with parseblock (fuel : nat) (s : list Z) : pres (cmd word) :=
  match fuel with
  | O => PFuel
  | S fuel' =>
      let '(b, s) := peek s [ch_lpar] in
      if negb b then PErr "parseblock"
      else
        let '(_, _, _, s) := gettoken s in
        pbind (parseline fuel' s) (fun c s =>
        let '(b, s) := peek s [ch_rpar] in
        if negb b then PErr "syntax - missing )"
        else
          let '(_, _, _, s) := gettoken s in
          pbind (parseredirs (length s) [] s) (fun rs s => POk (wrap c rs) s))
  end.
End parser.

(** [nulterminate]: the stores of 0 into the line. *)
Fixpoint nulterminate (c : cmd word) (line : list Z) : list Z :=
  match c with
  | EXEC argv => fold_left (fun l w => <[ w.2 := 0 ]> l) argv line
  | REDIR c file _ _ => <[ file.2 := 0 ]> (nulterminate c line)
  | PIPE l r | LIST l r => nulterminate r (nulterminate l line)
  | BACK c => nulterminate c line
  end.

(** Every rule that goes round the four functions once consumes a character. *)
Definition parse_fuel (s : list Z) : nat := 4 * length s + 4.

(** The tree and the line with the words terminated.  The line is followed by its 0. *)
Definition parsecmd (line : list Z) : pres (cmd word * list Z) :=
  pbind (parseline (length line) (parse_fuel line) line) (fun c s =>
  let '(_, s) := peek s [] in
  if bool_decide (s = []) then POk (c, nulterminate c (line ++ [0])) s
  else PErr "syntax").

(** A word as a program reads it: from its first character to the next 0. *)
Fixpoint cstring (l : list Z) : list Z :=
  match l with
  | [] => []
  | c :: l' => if c =? 0 then [] else c :: cstring l'
  end.

Fixpoint map_words {W W'} (f : W -> W') (c : cmd W) : cmd W' :=
  match c with
  | EXEC argv => EXEC (f <$> argv)
  | REDIR c file mode fd => REDIR (map_words f c) (f file) mode fd
  | PIPE l r => PIPE (map_words f l) (map_words f r)
  | LIST l r => LIST (map_words f l) (map_words f r)
  | BACK c => BACK (map_words f c)
  end.
