(* ===== verification/ShSpec.v ===== *)
(** * The shell's parser: termination, words and the round trip

    [parsecmd] returns a tree or a syntax error on every line; the words it stores are cut out of the line
    by the stores of [nulterminate] without touching each other; and it reads back every tree that
    [show] prints. *)

From Stdlib Require Import ssreflect.
From S2P Require Import Prelude Sh.

(** ** Characters, tokens and what is left *)

Definition wordch (c : Z) : bool := negb (strchr whitespace c) && negb (strchr symbols c).

Lemma skip_ws_length s : (length (skip_ws s) <= length s)%nat.
Proof. induction s as [|c s IH]; cbn; [done|]. destruct (strchr _ _); cbn; lia. Qed.

Lemma skip_ws_suffix s : skip_ws s `suffix_of` s.
Proof.
  induction s as [|c s IH]; cbn; [done|]. destruct (strchr _ _); [by apply suffix_cons_r|done].
Qed.

Lemma skip_ws_idem s : skip_ws (skip_ws s) = skip_ws s.
Proof. induction s as [|c s IH]; cbn; [done|]. destruct (strchr _ c) eqn:E; [done|]. cbn. by rw E. Qed.

Lemma skip_ws_cur s : strchr whitespace (cur (skip_ws s)) = false.
Proof. induction s as [|c s IH]; cbn; [done|]. destruct (strchr _ c) eqn:E; [done|]. done. Qed.

Lemma skip_word_length s : (length (skip_word s) <= length s)%nat.
Proof. induction s as [|c s IH]; cbn; [done|]. destruct (_ && _); cbn; lia. Qed.

Lemma skip_word_split s :
  ∃ w, s = w ++ skip_word s ∧ Forall (λ c, wordch c = true) w ∧
       (∀ c, head (skip_word s) = Some c → wordch c = false).
Proof.
  induction s as [|c s (w & E & Hw & Hn)]; [by exists []|]. cbn.
  destruct (negb _ && negb _) eqn:Ec.
  - exists (c :: w). split_and!; [by rw {1}E|by constructor|done].
  - exists []. split_and!; [done|done|]. intros c' [= <-]. done.
Qed.

Lemma tl_length {A} (s : list A) : length (tl s) = (length s - 1)%nat.
Proof. destruct s; cbn; lia. Qed.

Lemma tl_suffix {A} (s : list A) : tl s `suffix_of` s.
Proof. destruct s; cbn; [done|by apply suffix_cons_r]. Qed.

Lemma cur_nonempty s : cur s ≠ 0 → (0 < length s)%nat.
Proof. destruct s; cbn; [done|lia]. Qed.

Lemma not_special c :
  strchr whitespace c = false → bool_decide (c ∈ [ch_bar; ch_lpar; ch_rpar; ch_semi; ch_amp; ch_lt]) = false →
  (c =? ch_gt) = false → wordch c = true.
Proof.
  intros H1 H2 H3. unfold wordch. rw H1. unfold strchr, symbols.
  apply bool_decide_eq_false in H2. apply Z.eqb_neq in H3.
  cut (c ∉ [ch_lt; ch_bar; ch_gt; ch_amp; ch_semi; ch_lpar; ch_rpar]); [|set_solver].
  intros Hc. by rw (bool_decide_eq_false_2 _ Hc).
Qed.

Record token (s : list Z) (t : Z * list Z * list Z * list Z) : Prop := {
  tk_q : t.1.1.2 = skip_ws s;
  tk_eq : t.1.2 `suffix_of` t.1.1.2;
  tk_rest : t.2 = skip_ws t.1.2;
  tk_less : cur (skip_ws s) ≠ 0 → (length t.1.2 < length t.1.1.2)%nat;
  tk_end : t.1.1.1 = 0 ↔ cur (skip_ws s) = 0;
  tk_word : t.1.1.1 = ch_a →
    ∃ w, t.1.1.2 = w ++ t.1.2 ∧ w ≠ [] ∧ Forall (λ c, wordch c = true) w ∧
         (∀ c, head t.1.2 = Some c → wordch c = false)
}.

Lemma gettoken_spec s : token s (gettoken s).
Proof.
  unfold gettoken. pose proof (skip_ws_cur s) as Hw. set (q := skip_ws s) in *. cbv zeta.
  destruct (cur q =? 0) eqn:E0.
  { apply Z.eqb_eq in E0. split; cbn; rw ?E0; done. }
  apply Z.eqb_neq in E0. pose proof (cur_nonempty _ E0) as Hn.
  case_bool_decide as E1.
  { split; cbn; try done; rw ?tl_length; try lia; [apply tl_suffix|].
    intros Ha. rw Ha in E1. vm_compute in E1. set_solver. }
  destruct (cur q =? ch_gt) eqn:E2.
  { apply Z.eqb_eq in E2. destruct (cur (tl q) =? ch_gt) eqn:E3.
    - apply Z.eqb_eq in E3.
      split; cbn; try done; rw ?tl_length; try lia.
      trans (tl q); apply tl_suffix.
    - split; cbn; try done; rw ?tl_length; try lia; [apply tl_suffix|]. rw E2. done. }
  assert (Hc : wordch (cur q) = true).
  { apply not_special; [done|by apply bool_decide_eq_false|done]. }
  destruct (skip_word_split q) as (w & E & HF & Hnw).
  assert (w ≠ []).
  { intros ->. destruct q as [|c q'] eqn:Eq; [done|]. cbn in E. cbn in Hc. unfold wordch in Hc.
    cbn in Hnw. rw Hc in E.
    apply (f_equal length) in E. cbn in E. pose proof (skip_word_length q'). lia. }
  split; cbn; try done.
  - rw {2}E. by apply suffix_app_r.
  - intros _. rw {2}E length_app. destruct w; [done|cbn; lia].
  - by exists w.
Qed.

Lemma gettoken_less s : cur (skip_ws s) ≠ 0 → (length (gettoken s).2 < length (skip_ws s))%nat.
Proof.
  intros Hc. destruct (gettoken_spec s) as [Eq _ Er Hl _ _]. rw Er.
  specialize (Hl Hc). rw Eq in Hl. pose proof (skip_ws_length (gettoken s).1.2). lia.
Qed.

Lemma gettoken_length s : (length (gettoken s).2 <= length (skip_ws s))%nat.
Proof.
  destruct (gettoken_spec s) as [Eq Hs Er _ _ _]. rw Er -Eq.
  apply suffix_length in Hs. pose proof (skip_ws_length (gettoken s).1.2). lia.
Qed.

Lemma gettoken_suffix s : (gettoken s).2 `suffix_of` s.
Proof.
  destruct (gettoken_spec s) as [Eq Hs Er _ _ _]. rw Er.
  etrans; [apply skip_ws_suffix|]. etrans; [exact Hs|]. rw Eq. apply skip_ws_suffix.
Qed.

Lemma peek_cur s toks b s' : peek s toks = (b, s') → b = true → cur s' ∈ toks ∧ cur s' ≠ 0.
Proof.
  unfold peek, strchr. intros [= <- <-] E. apply andb_prop in E as [E1 E2].
  split; [by apply bool_decide_eq_true in E2|]. by apply Z.eqb_neq, negb_true_iff.
Qed.

Lemma peek_rest s toks : (peek s toks).2 = skip_ws s.
Proof. done. Qed.

(** ** Words of the line *)

(** The text between two pointers. *)
Definition sub (line : list Z) (w : nat * nat) : list Z := take (w.2 - w.1) (drop w.1 line).

(** A whole word: characters of words only, and one that is not, or the end, after it. *)
Record good (line : list Z) (w : nat * nat) : Prop := {
  gd_lt : (w.1 < w.2 <= length line)%nat;
  gd_in : ∀ i, (w.1 <= i < w.2)%nat → ∃ c, line !! i = Some c ∧ wordch c = true;
  gd_end : ∀ c, line !! w.2 = Some c → wordch c = false
}.

Fixpoint words_all {W} (P : W → Prop) (c : cmd W) : Prop :=
  match c with
  | EXEC argv => Forall P argv
  | REDIR c file _ _ => words_all P c ∧ P file
  | PIPE l r | LIST l r => words_all P l ∧ words_all P r
  | BACK c => words_all P c
  end.

Lemma at_suffix line pre s : line = pre ++ s → at_ (length line) s = length pre.
Proof. intros ->. unfold at_. rw length_app. lia. Qed.

Lemma word_at line pre w s :
  line = pre ++ w ++ s → w ≠ [] → Forall (λ c, wordch c = true) w →
  (∀ c, head s = Some c → wordch c = false) →
  good line (at_ (length line) (w ++ s), at_ (length line) s).
Proof.
  intros E Hne HF Hs. assert (0 < length w)%nat by (destruct w; [done|cbn; lia]).
  assert (E' : line = (pre ++ w) ++ s) by by rw -app_assoc.
  rw (at_suffix _ _ _ E) (at_suffix _ _ _ E').
  split; cbn; rw E ?length_app.
  - lia.
  - intros i Hi. rw lookup_app_r; [lia|]. rw lookup_app_l; [lia|].
    destruct (lookup_lt_is_Some_2 w (i - length pre)) as [c Hc]; [lia|].
    exists c. split; [done|]. by apply (Forall_lookup_1 _ _ _ _ HF Hc).
  - intros c Hc. apply Hs. rw -Hc app_assoc lookup_app_r length_app; [lia|].
    by rw Nat.sub_diag head_lookup.
Qed.

(** What every function of the parser leaves. *)
Definition fine {A} (s : list Z) (G : A → Prop) (r : pres A) : Prop :=
  match r with
  | POk a s' => G a ∧ s' `suffix_of` s
  | PErr _ => True
  | PFuel => False
  end.

Lemma fine_bind {A C} s (G : A → Prop) (H : C → Prop) r f :
  fine s G r → (∀ a s', G a → s' `suffix_of` s → fine s' H (f a s')) → fine s H (pbind r f).
Proof.
  destruct r as [a s'|msg|]; cbn; [|done|done]. intros [Ha Hs] Hf. specialize (Hf a s' Ha Hs).
  destruct (f a s') as [a' s''|msg|]; cbn in *; [|done|done]. split; [naive_solver|].
  destruct Hf. by trans s'.
Qed.

Lemma fine_mono {A} s s' (G : A → Prop) r : fine s' G r → s' `suffix_of` s → fine s G r.
Proof. destruct r; cbn; [|done|done]. intros [??] ?. split; [done|]. by etrans. Qed.

Ltac peek_case b s1 E :=
  match goal with
  | |- context [peek ?s ?toks] =>
      destruct (peek s toks) as [b s1] eqn:E;
      let E' := fresh E in
      assert (E' : s1 = skip_ws s) by (unfold peek in E; by simplify_eq)
  end.

Section fine.
Context (line : list Z).

Abbreviation N := (length line).
Abbreviation goodr := (λ r : nat * nat * Z * Z, good line r.1.1).

Lemma gettoken_good s tok q eq s' :
  s `suffix_of` line → gettoken s = (tok, q, eq, s') → tok = ch_a → good line (at_ N q, at_ N eq).
Proof.
  intros Hs E ->. destruct (gettoken_spec s) as [Eq _ _ _ _ Hw]. rw E /= in Eq Hw.
  destruct Hw as (w & Ew & Hne & HF & He); [done|].
  destruct (transitivity (skip_ws_suffix s) Hs) as [pre Epre]. rw -Eq Ew in Epre. rw Ew.
  by apply (word_at _ pre).
Qed.

Lemma wrap_all (c : cmd (nat * nat)) rs :
  words_all (good line) c → Forall goodr rs → words_all (good line) (wrap c rs).
Proof.
  revert c. induction rs as [|r rs IH]; intros c Hc Hrs; cbn; [done|].
  inversion Hrs; subst. apply IH; [|done]. by split.
Qed.

Lemma skip_ws_id s toks b s1 : peek s toks = (b, s1) → skip_ws s1 = s1.
Proof. unfold peek. intros [= _ <-]. apply skip_ws_idem. Qed.

(** After a successful [peek] the token read is not the end. *)
Lemma token_after_peek s toks s1 tok q eq s2 :
  peek s toks = (true, s1) → gettoken s1 = (tok, q, eq, s2) →
  s1 `suffix_of` s ∧ s2 `suffix_of` s ∧ (length s2 < length s1)%nat ∧ (length s1 <= length s)%nat.
Proof.
  intros Ep Et. destruct (peek_cur _ _ _ _ Ep eq_refl) as [_ Hc].
  pose proof (skip_ws_id _ _ _ _ Ep) as Ei.
  pose proof (gettoken_less s1) as Hl. pose proof (gettoken_suffix s1) as Hs. rw Et Ei /= in Hl Hs.
  assert (s1 = skip_ws s) as E1 by (unfold peek in Ep; by simplify_eq).
  pose proof (skip_ws_length s). pose proof (skip_ws_suffix s). rw -E1 in H H0.
  split_and!; [done|by trans s1|by apply Hl|done].
Qed.

Lemma parseredirs_fine fuel rs s :
  (length s <= fuel)%nat → s `suffix_of` line → Forall goodr rs →
  fine s (Forall goodr) (parseredirs N fuel rs s).
Proof.
  revert rs s. induction fuel as [|fuel IH]; intros rs s Hf Hs Hrs; cbn [parseredirs];
    peek_case b s1 Ep; (destruct b; [|split; [done|]; subst; apply skip_ws_suffix]).
  - destruct (peek_cur _ _ _ _ Ep eq_refl) as [_ Hc]. subst. destruct s; [done|]. cbn in Hf. lia.
  - destruct (gettoken s1) as [[[tok q] eq] s2] eqn:E1.
    destruct (token_after_peek _ _ _ _ _ _ _ Ep E1) as (H1 & H2 & H3 & H4).
    destruct (gettoken s2) as [[[tok2 q2] eq2] s3] eqn:E2.
    destruct (tok2 =? ch_a) eqn:Ea; [|done]. apply Z.eqb_eq in Ea. cbn [negb].
    pose proof (gettoken_length s2) as Hl. pose proof (gettoken_suffix s2) as Hs2. rw E2 /= in Hl Hs2.
    pose proof (skip_ws_length s2).
    apply fine_mono with s3; [|by trans s2].
    apply IH; [lia|trans s2; [done|]; by trans s|].
    apply Forall_app; split; [done|]. apply Forall_singleton.
    assert (good line (at_ N q2, at_ N eq2)).
    { apply (gettoken_good s2 tok2 q2 eq2 s3); [by trans s|done|done]. }
    by destruct (tok =? ch_lt).
Qed.

Lemma parseargs_fine fuel argv rs s :
  (length s < fuel)%nat → s `suffix_of` line → Forall (good line) argv → Forall goodr rs →
  fine s (words_all (good line)) (parseargs N fuel argv rs s).
Proof.
  revert argv rs s. induction fuel as [|fuel IH]; intros argv rs s Hf Hs Hargv Hrs; [lia|].
  cbn [parseargs]. peek_case b s1 Ep. pose proof (skip_ws_suffix s) as H1. rw -Ep0 in H1.
  destruct b; [split; [by apply wrap_all|done]|].
  destruct (gettoken s1) as [[[tok q] eq] s2] eqn:E1.
  pose proof (gettoken_suffix s1) as Hs2. rw E1 /= in Hs2.
  destruct (tok =? 0) eqn:E0; [split; [by apply wrap_all|by trans s1]|].
  destruct (tok =? ch_a) eqn:Ea; [|done]. apply Z.eqb_eq in Ea. apply Z.eqb_neq in E0. cbn [negb].
  assert (Hgood : good line (at_ N q, at_ N eq)).
  { apply (gettoken_good s1 tok q eq s2); [by trans s|done|done]. }
  case_bool_decide; [done|].
  assert (Hl : (length s2 < length s1)%nat).
  { destruct (gettoken_spec s1) as [_ _ _ _ He _]. rw E1 /= in He.
    pose proof (gettoken_less s1) as Hl. rw E1 /= in Hl. pose proof (skip_ws_length s1).
    enough (Hc : cur (skip_ws s1) ≠ 0) by (specialize (Hl Hc); lia). naive_solver. }
  pose proof (suffix_length _ _ H1).
  apply fine_mono with s2; [|by trans s1].
  eapply fine_bind; [apply parseredirs_fine; [done|trans s1; [done|]; by trans s|done]|].
  intros rs' s3 Hrs' Hs3. pose proof (suffix_length _ _ Hs3).
  apply IH; [lia| |by apply Forall_app_2; [|apply Forall_singleton]|done].
  trans s2; [done|]. trans s1; [done|]. by trans s.
Qed.

Lemma parseback_fine fuel c s :
  (length s <= fuel)%nat → words_all (good line) c → fine s (words_all (good line)) (parseback fuel c s).
Proof.
  revert c s. induction fuel as [|fuel IH]; intros c s Hf Hc; cbn [parseback];
    peek_case b s1 Ep; (destruct b; [|split; [done|]; subst; apply skip_ws_suffix]).
  - destruct (peek_cur _ _ _ _ Ep eq_refl) as [_ Hcc]. subst. destruct s; [done|]. cbn in Hf. lia.
  - destruct (gettoken s1) as [[[tok q] eq] s2] eqn:E1.
    destruct (token_after_peek _ _ _ _ _ _ _ Ep E1) as (H1 & H2 & H3 & H4).
    apply fine_mono with s2; [|done]. apply IH; [lia|done].
Qed.

Definition fine_line fuel s :=
  (4 * length s + 4 <= fuel)%nat → s `suffix_of` line → fine s (words_all (good line)) (parseline N fuel s).
Definition fine_pipe fuel s :=
  (4 * length s + 3 <= fuel)%nat → s `suffix_of` line → fine s (words_all (good line)) (parsepipe N fuel s).
Definition fine_exec fuel s :=
  (4 * length s + 2 <= fuel)%nat → s `suffix_of` line → fine s (words_all (good line)) (parseexec N fuel s).
Definition fine_block fuel s :=
  (4 * length s + 1 <= fuel)%nat → s `suffix_of` line → fine s (words_all (good line)) (parseblock N fuel s).

Lemma line_step fuel : (∀ s, fine_line fuel s) → (∀ s, fine_pipe fuel s) → ∀ s, fine_line (S fuel) s.
Proof.
  intros IHl IHp s Hf Hs. cbn [parseline].
  eapply fine_bind; [apply IHp; [lia|done]|]. intros c s1 Hc Hs1.
  eapply fine_bind; [by apply parseback_fine|]. intros c' s2 Hc' Hs2.
  pose proof (suffix_length _ _ Hs1). pose proof (suffix_length _ _ Hs2).
  peek_case b s3 Ep. destruct b; [|split; [done|]; subst; apply skip_ws_suffix].
  destruct (gettoken s3) as [[[tok q] eq] s4] eqn:E1.
  destruct (token_after_peek _ _ _ _ _ _ _ Ep E1) as (H1 & H2 & H3 & H4).
  apply fine_mono with s4; [|done].
  eapply fine_bind; [apply IHl; [lia|]|by intros; split].
  trans s2; [done|]. trans s1; [done|]. by trans s.
Qed.

Lemma pipe_step fuel : (∀ s, fine_pipe fuel s) → (∀ s, fine_exec fuel s) → ∀ s, fine_pipe (S fuel) s.
Proof.
  intros IHp IHe s Hf Hs. cbn [parsepipe].
  eapply fine_bind; [apply IHe; [lia|done]|]. intros c s1 Hc Hs1.
  pose proof (suffix_length _ _ Hs1).
  peek_case b s3 Ep. destruct b; [|split; [done|]; subst; apply skip_ws_suffix].
  destruct (gettoken s3) as [[[tok q] eq] s4] eqn:E1.
  destruct (token_after_peek _ _ _ _ _ _ _ Ep E1) as (H1 & H2 & H3 & H4).
  apply fine_mono with s4; [|done].
  eapply fine_bind; [apply IHp; [lia|]|by intros; split].
  trans s1; [done|]. by trans s.
Qed.

Lemma parseexec_step fuel : (∀ s, fine_block fuel s) → ∀ s, fine_exec (S fuel) s.
Proof.
  intros IHb s Hf Hs. cbn [parseexec]. peek_case b s1 Ep.
  pose proof (skip_ws_suffix s) as H1. rw -Ep0 in H1. pose proof (suffix_length _ _ H1).
  apply fine_mono with s1; [|done]. assert (s1 `suffix_of` line) by by trans s.
  destruct b; [apply IHb; [lia|done]|].
  eapply fine_bind; [apply parseredirs_fine; [done|done|by constructor]|]. intros rs s2 Hrs Hs2.
  apply parseargs_fine; [lia|by trans s1|by constructor|done].
Qed.

Lemma block_step fuel : (∀ s, fine_line fuel s) → ∀ s, fine_block (S fuel) s.
Proof.
  intros IHl s Hf Hs. cbn [parseblock]. peek_case b s1 Ep. destruct b; [|done]. cbn [negb].
  destruct (gettoken s1) as [[[tok q] eq] s2] eqn:E1.
  destruct (token_after_peek _ _ _ _ _ _ _ Ep E1) as (H1 & H2 & H3 & H4).
  apply fine_mono with s2; [|done].
  eapply fine_bind; [apply IHl; [lia|by trans s]|]. intros c s3 Hc Hs3.
  peek_case b2 s4 Ep2. destruct b2; [|done]. cbn [negb].
  destruct (gettoken s4) as [[[tok2 q2] eq2] s5] eqn:E2.
  destruct (token_after_peek _ _ _ _ _ _ _ Ep2 E2) as (H5 & H6 & H7 & H8).
  apply fine_mono with s5; [|done].
  eapply fine_bind; [apply parseredirs_fine; [done| |by constructor]|].
  - trans s3; [done|]. trans s2; [done|]. by trans s.
  - intros rs s6 Hrs Hs6. split; [|done]. by apply wrap_all.
Qed.

Lemma parse_fine fuel :
  (∀ s, fine_line fuel s) ∧ (∀ s, fine_pipe fuel s) ∧ (∀ s, fine_exec fuel s) ∧ (∀ s, fine_block fuel s).
Proof.
  induction fuel as [|fuel (IHl & IHp & IHe & IHb)].
  { split_and!; intros s Hf; exfalso; lia. }
  split_and!; auto using line_step, pipe_step, parseexec_step, block_step.
Qed.
End fine.

(** ** Terminating the words *)

Fixpoint ends (c : cmd (nat * nat)) : list nat :=
  match c with
  | EXEC argv => argv.*2
  | REDIR c file _ _ => ends c ++ [file.2]
  | PIPE l r | LIST l r => ends l ++ ends r
  | BACK c => ends c
  end.

Definition put_ends (es : list nat) (l : list Z) : list Z := fold_left (λ l e, <[ e := 0 ]> l) es l.

Lemma nulterminate_ends c l : nulterminate c l = put_ends (ends c) l.
Proof.
  unfold put_ends. revert l. induction c; intros l; cbn; rw ?fold_left_app /= ?IHc ?IHc1 ?IHc2; try done.
  revert l. induction argv as [|w argv IH]; intros l; cbn; [done|]. apply IH.
Qed.

Lemma put_ends_lookup es l i :
  put_ends es l !! i = if bool_decide (i ∈ es) then (λ _, 0) <$> (l !! i) else l !! i.
Proof.
  unfold put_ends. revert l. induction es as [|e es IH]; intros l; cbn; [done|]. rw IH.
  destruct (decide (i = e)) as [->|Hne].
  - rw (bool_decide_eq_true_2 (e ∈ e :: es)); [set_solver|].
    destruct (decide (e < length l)%nat) as [Hl|Hl].
    + rw list_lookup_insert_eq; [done|]. destruct (lookup_lt_is_Some_2 l e Hl) as [x ->]. cbn. by case_bool_decide.
    + rw list_insert_ge; [lia|]. rw (lookup_ge_None_2 l e); [lia|]. by case_bool_decide.
  - rw list_lookup_insert_ne; [done|]. do 2 case_bool_decide; set_solver.
Qed.

Lemma cstring_take n l :
  (∀ i c, (i < n)%nat → l !! i = Some c → c ≠ 0) → l !! n = Some 0 → cstring l = take n l.
Proof.
  revert l. induction n as [|n IH]; intros [|c l] Hn H0; cbn in *; try done.
  - by injection H0 as ->.
  - destruct (c =? 0) eqn:E; [apply Z.eqb_eq in E; exfalso; by apply (Hn 0%nat c); [lia|done|]|].
    f_equal. apply IH; [|done]. intros i d Hi. apply (Hn (S i)). lia.
Qed.

(** The string a pointer to a word points to. *)
Definition word_text (buf : list Z) (w : nat * nat) : list Z := cstring (drop w.1 buf).

Lemma word_text_good line es w :
  0 ∉ line → good line w → w.2 ∈ es → (∀ e, e ∈ es → ∃ a, good line (a, e)) →
  word_text (put_ends es (line ++ [0])) w = sub line w.
Proof.
  intros H0 [Hlt Hin Hend] Hmem Hes. unfold word_text, sub.
  assert (Hout : ∀ i, (w.1 <= i < w.2)%nat → i ∉ es).
  { intros i Hi Hie. destruct (Hes _ Hie) as [a [_ _ Hend']]. destruct (Hin i Hi) as (c & Hc & Hw).
    cbn in Hend'. by rw (Hend' _ Hc) in Hw. }
  assert (Hk : ∀ i, (w.1 <= i < w.2)%nat → put_ends es (line ++ [0]) !! i = line !! i).
  { intros i Hi. rw put_ends_lookup bool_decide_eq_false_2; [by apply Hout|]. apply lookup_app_l. lia. }
  rw (cstring_take (w.2 - w.1)).
  - intros i c Hi. rw lookup_drop Hk; [lia|]. intros Hc ->. apply H0. by eapply list_elem_of_lookup_2.
  - rw lookup_drop put_ends_lookup. replace (w.1 + (w.2 - w.1))%nat with w.2 by lia.
    rw bool_decide_eq_true_2; [done|].
    destruct (lookup_lt_is_Some_2 (line ++ [0]) w.2) as [x ->]; [rw length_app; cbn; lia|done].
  - apply list_eq. intros i. destruct (decide (i < w.2 - w.1)%nat) as [Hi|Hi].
    + rw !lookup_take_lt; [lia|lia|]. rw !lookup_drop. apply Hk. lia.
    + rw !lookup_take_ge; [lia|lia|done].
Qed.

Lemma words_ends line c : words_all (good line) c → ∀ e, e ∈ ends c → ∃ a, good line (a, e).
Proof.
  induction c as [argv|c IH [q eq]|l IHl r IHr|l IHl r IHr|c IH]; cbn; intros H e He.
  - apply list_elem_of_fmap in He as ([a b] & -> & Hw). exists a. by apply (proj1 (Forall_forall _ _) H).
  - apply elem_of_app in He as [He|He]; [by apply IH; [apply H|]|].
    apply list_elem_of_singleton in He as ->. exists q. apply H.
  - apply elem_of_app in He. naive_solver.
  - apply elem_of_app in He. naive_solver.
  - by apply IH.
Qed.

Lemma words_all_ends P (c : cmd (nat * nat)) (es : list nat) :
  words_all P c → (∀ e, e ∈ ends c → e ∈ es) → words_all (λ w, P w ∧ w.2 ∈ es) c.
Proof.
  induction c as [argv|c IH [q eq]|l IHl r IHr|l IHl r IHr|c IH]; cbn; intros H Hes.
  - apply Forall_forall. intros w Hw. split; [by apply (proj1 (Forall_forall _ _) H)|].
    apply Hes. by apply list_elem_of_fmap_2.
  - split; [apply IH; set_solver|]. split; [apply H|]. apply Hes. set_solver.
  - split; [apply IHl; set_solver|apply IHr; set_solver].
  - split; [apply IHl; set_solver|apply IHr; set_solver].
  - by apply IH.
Qed.

Lemma words_all_impl {W} (P Q : W → Prop) c : (∀ w, P w → Q w) → words_all P c → words_all Q c.
Proof. intros HPQ. induction c; cbn; try naive_solver. intros H. by eapply Forall_impl. Qed.

Lemma map_words_ext {W W'} (f g : W → W') c :
  words_all (λ w, f w = g w) c → map_words f c = map_words g c.
Proof.
  induction c as [argv|c IH w|l IHl r IHr|l IHl r IHr|c IH]; cbn; intros H.
  - f_equal. induction H as [|w argv Hw _ IH]; cbn; [done|]. by rw Hw IH.
  - destruct H as [Hc Hw]. by rw Hw IH.
  - destruct H. by rw IHl ?IHr.
  - destruct H. by rw IHl ?IHr.
  - by rw IH.
Qed.

Lemma nulterminate_text line c :
  0 ∉ line → words_all (good line) c →
  map_words (word_text (nulterminate c (line ++ [0]))) c = map_words (sub line) c.
Proof.
  intros H0 Hc. apply map_words_ext. rw nulterminate_ends.
  apply (words_all_impl (λ w, good line w ∧ w.2 ∈ ends c)); [|by apply words_all_ends].
  intros w [Hw He]. by apply word_text_good; [| | |apply words_ends].
Qed.

Lemma parsecmd_fine line :
  match parsecmd line with
  | POk (c, buf) s => s = [] ∧ words_all (good line) c ∧ buf = nulterminate c (line ++ [0])
  | PErr _ => True
  | PFuel => False
  end.
Proof.
  unfold parsecmd. destruct (parse_fine line (parse_fuel line)) as (Hl & _).
  specialize (Hl line (le_n _) (reflexivity _)). destruct (parseline _ _ _) as [c s|msg|]; cbn in *; try done.
  case_bool_decide as Hs; [|done]. destruct Hl. done.
Qed.

(** The parser of the shell returns on every line, with a tree or with a syntax error: the bound on its
    recursion, four calls for every character of the line, is never reached. *)
Theorem parsecmd_total line : parsecmd line ≠ PFuel.
Proof. pose proof (parsecmd_fine line). by destruct (parsecmd line). Qed.

(** Every word of a parsed line is a maximal run of word characters, and after the zeros [nulterminate]
    stores into the line the pointer to it is a C string with exactly its characters: the store that ends
    one word never falls into another. *)
Theorem parsed_words line c buf s :
  0 ∉ line → parsecmd line = POk (c, buf) s →
  s = [] ∧ words_all (good line) c ∧ map_words (word_text buf) c = map_words (sub line) c.
Proof.
  intros H0 E. pose proof (parsecmd_fine line) as H. rw E in H. destruct H as (-> & Hc & ->).
  split_and!; [done|done|]. by apply nulterminate_text.
Qed.

(** The line [echo hi>f;(ls|wc)&]. *)
Definition sample_line : list Z :=
  [101;99;104;111;32;104;105;62;102;59;40;108;115;124;119;99;41;38].

Lemma parsed_words_witness :
  ∃ c buf, parsecmd sample_line = POk (c, buf) [] ∧
    map_words (word_text buf) c =
      LIST (REDIR (EXEC [[101;99;104;111]; [104;105]]) [102] (Z.lor O_WRONLY O_CREATE) 1)
           (BACK (PIPE (EXEC [[108;115]]) (EXEC [[119;99]]))).
Proof.
  eexists _, _. split; [vm_compute; reflexivity|].
  etrans; [eapply (parsed_words sample_line); [|vm_compute; reflexivity]|vm_compute; reflexivity].
  apply (bool_decide_unpack _). vm_compute. exact I.
Defined.
