(* ===== verification/ShShow.v ===== *)
(** * The shell's parser reads back every command

    [show] prints a command tree with the parentheses its grammar needs; [parsecmd] gives the tree back,
    and the strings its words point to are the words printed. *)

From Stdlib Require Import ssreflect.
From S2P Require Import Prelude Sh ShSpec.

Abbreviation text := (list Z).

Definition show_argv (argv : list text) : list Z := mjoin ((λ w, 32 :: w) <$> argv).

Definition show_redir (r : text * Z * Z) : list Z := (if r.1.2 =? O_RDONLY then ch_lt else ch_gt) :: r.1.1.

Definition show_redirs (rs : list (text * Z * Z)) : list Z := mjoin (show_redir <$> rs).

(** How loosely a command binds: redirections, then [|], [&] and [;]. *)
Definition level (c : cmd text) : nat :=
  match c with
  | EXEC _ | REDIR _ _ _ _ => 0
  | PIPE _ _ => 1
  | BACK _ => 2
  | LIST _ _ => 3
  end.

Definition paren (n : nat) (c : cmd text) (s : list Z) : list Z :=
  if (level c <=? n)%nat then s else ch_lpar :: s ++ [ch_rpar].

Fixpoint show (c : cmd text) : list Z :=
  match c with
  | EXEC argv => show_argv argv
  | REDIR c file mode fd => paren 0 c (show c) ++ show_redir (file, mode, fd)
  | PIPE l r => paren 0 l (show l) ++ [ch_bar] ++ paren 1 r (show r)
  | BACK c => paren 2 c (show c) ++ [ch_amp]
  | LIST l r => paren 2 l (show l) ++ [ch_semi] ++ paren 3 r (show r)
  end.

Definition sh (n : nat) (c : cmd text) : list Z := paren n c (show c).

(** The trees the shell can be given: words of word characters, fewer arguments than the array of
    [struct execcmd] holds, and the two kinds of redirection. *)
Definition good_text (w : text) : Prop := w ≠ [] ∧ Forall (λ c, wordch c = true ∧ c ≠ 0) w.

Definition good_redir (r : text * Z * Z) : Prop :=
  good_text r.1.1 ∧ ((r.1.2, r.2) = (O_RDONLY, 0) ∨ (r.1.2, r.2) = (Z.lor O_WRONLY O_CREATE, 1)).

Fixpoint wf (c : cmd text) : Prop :=
  match c with
  | EXEC argv => Forall good_text argv ∧ (length argv < MAXARGS)%nat
  | REDIR c file mode fd => wf c ∧ good_redir (file, mode, fd)
  | PIPE l r | LIST l r => wf l ∧ wf r
  | BACK c => wf c
  end.

(** ** Reading tokens *)

(** The next character is one of [l], or the line ends. *)
Definition next_in (l : list Z) (s : list Z) : Prop := s = [] ∨ ∃ c s', s = c :: s' ∧ c ∈ l.

Lemma next_in_weaken l l' s : next_in l s → (∀ c, c ∈ l → c ∈ l') → next_in l' s.
Proof. intros [->|(c & s' & -> & H)] Hl; [by left|right]. exists c, s'. auto. Qed.

Lemma symbol_stop c s : c ∈ symbols → skip_ws (c :: s) = c :: s ∧ skip_word (c :: s) = c :: s ∧ c ≠ 0.
Proof.
  unfold symbols. intros H. repeat (apply elem_of_cons in H as [->|H]; [done|]). by apply elem_of_nil in H.
Qed.

Lemma next_skip l s : next_in l s → (∀ c, c ∈ l → c ∈ symbols) → skip_ws s = s ∧ skip_word s = s.
Proof. intros [->|(c & s' & -> & Hc)] Hl; [done|]. destruct (symbol_stop c s' (Hl _ Hc)) as (?&?&?). done. Qed.

Lemma peek_hit c s toks : c ∈ symbols → peek (c :: s) toks = (bool_decide (c ∈ toks), c :: s).
Proof.
  intros H. destruct (symbol_stop c s H) as (E & _ & H0). unfold peek. rw E /=.
  by apply Z.eqb_neq in H0 as ->.
Qed.

Lemma peek_miss l s toks :
  next_in l s → (∀ c, c ∈ l → c ∈ symbols ∧ c ∉ toks) → peek s toks = (false, s).
Proof.
  intros [->|(c & s' & -> & Hc)] Hl; [done|]. destruct (Hl _ Hc) as [Hs Ht].
  rw (peek_hit _ _ _ Hs). by rw bool_decide_eq_false_2.
Qed.

Lemma gettoken_symbol c s :
  c ∈ [ch_bar; ch_lpar; ch_rpar; ch_semi; ch_amp; ch_lt] → gettoken (c :: s) = (c, c :: s, s, skip_ws s).
Proof.
  intros H. repeat (apply elem_of_cons in H as [->|H]; [done|]). by apply elem_of_nil in H.
Qed.

Lemma wordch_facts c : wordch c = true →
  strchr whitespace c = false ∧ (c ∉ symbols).
Proof.
  unfold wordch, strchr. intros H. apply andb_prop in H as [H1 H2].
  split; [by apply negb_true_iff|]. by apply negb_true_iff, bool_decide_eq_false in H2.
Qed.

Lemma skip_word_text w s : Forall (λ c, wordch c = true ∧ c ≠ 0) w → skip_word s = s → skip_word (w ++ s) = s.
Proof.
  intros Hw Hs. induction Hw as [|c w [Hc _] _ IH]; [done|]. cbn. unfold wordch in Hc. by rw Hc.
Qed.

Lemma skip_ws_text w s : good_text w → skip_ws (w ++ s) = w ++ s.
Proof.
  intros [Hne Hw]. destruct Hw as [|c w [Hc _] _]; [done|]. cbn. by destruct (wordch_facts _ Hc) as [-> _].
Qed.

Lemma gettoken_text w s : good_text w → skip_word s = s → gettoken (w ++ s) = (ch_a, w ++ s, s, skip_ws s).
Proof.
  intros Hg Hs. unfold gettoken. rw (skip_ws_text _ _ Hg). destruct Hg as [Hne Hw].
  destruct w as [|c w]; [done|]. inversion Hw as [|?? [Hc H0] Hw']; subst.
  destruct (wordch_facts _ Hc) as [Hws Hsym]. unfold symbols in Hsym. cbn [cur hd app tl]. cbv zeta.
  rw (proj2 (Z.eqb_neq _ _) H0) bool_decide_eq_false_2; [set_solver|].
  rw (proj2 (Z.eqb_neq c ch_gt)); [set_solver|].
  change (c :: w ++ s) with ((c :: w) ++ s). by rw (skip_word_text _ _ Hw Hs).
Qed.

Lemma peek_text w s toks :
  good_text w → (∀ c, c ∈ toks → c ∈ symbols) → peek (w ++ s) toks = (false, w ++ s).
Proof.
  intros Hg Ht. unfold peek. rw (skip_ws_text _ _ Hg). destruct Hg as [Hne Hw].
  destruct Hw as [|c w [Hc H0] _]; [done|]. cbn. destruct (wordch_facts _ Hc) as [_ Hsym].
  unfold strchr. rw (bool_decide_eq_false_2 (c ∈ toks)); [by intros ?%Ht|]. by rw andb_false_r.
Qed.

Lemma gettoken_gt f s : good_text f → gettoken (ch_gt :: f ++ s) = (ch_gt, ch_gt :: f ++ s, f ++ s, f ++ s).
Proof.
  intros Hf. pose proof (skip_ws_text f s Hf) as Ef. destruct Hf as [Hne Hw].
  destruct Hw as [|x f [Hx _] _]; [done|]. destruct (wordch_facts _ Hx) as [_ Hsym].
  assert (Hgt : (x =? ch_gt) = false) by (apply Z.eqb_neq; unfold symbols in Hsym; set_solver).
  unfold gettoken. change (skip_ws (ch_gt :: (x :: f) ++ s)) with (ch_gt :: (x :: f) ++ s).
  cbn [cur hd tl app]. rw Hgt. cbv beta zeta. change (ch_gt =? 0) with false.
  rw (bool_decide_eq_false_2 (ch_gt ∈ _)); [set_solver|]. rw Z.eqb_refl. cbn [app] in Ef. by rw Ef.
Qed.

(** ** Parsing what was printed *)

Definition follow : list Z := [ch_bar; ch_amp; ch_semi; ch_rpar].

Lemma follow_symbols c : c ∈ follow → c ∈ symbols.
Proof. unfold follow, symbols. set_solver. Qed.

Section printed.
Context (line : list Z).

Abbreviation N := (length line).

Lemma sub_at w s : (w ++ s) `suffix_of` line → sub line (at_ N (w ++ s), at_ N s) = w.
Proof.
  intros [pre E]. assert (E' : line = (pre ++ w) ++ s) by by rw -app_assoc.
  rw (at_suffix _ _ _ E) (at_suffix _ _ _ E'). unfold sub. cbn. rw length_app E.
  rw drop_app_length. replace (_ + _ - _)%nat with (length w) by lia. by rw take_app_length.
Qed.

Definition textr (r : nat * nat * Z * Z) : text * Z * Z := (sub line r.1.1, r.1.2, r.2).

Lemma suffix_drop (w s : list Z) : (w ++ s) `suffix_of` line → s `suffix_of` line.
Proof. intros H. etrans; [|exact H]. by apply suffix_app_r. Qed.

Lemma next_redirs rs rest : next_in follow rest → next_in (ch_lt :: ch_gt :: follow) (show_redirs rs ++ rest).
Proof.
  destruct rs as [|r rs]; intros H; [apply (next_in_weaken _ _ _ H); intros c Hc; by do 2 right|].
  right. eexists _, _. split; [reflexivity|]. destruct (_ =? _); set_solver.
Qed.

Lemma after_redirs c : c ∈ ch_lt :: ch_gt :: follow → c ∈ symbols.
Proof. unfold follow, symbols. set_solver. Qed.

Lemma parseredirs_show rs : ∀ fuel rs0 rest,
  Forall good_redir rs → next_in follow rest → (show_redirs rs ++ rest) `suffix_of` line →
  (length (show_redirs rs ++ rest) <= fuel)%nat →
  ∃ rs', parseredirs N fuel rs0 (show_redirs rs ++ rest) = POk (rs0 ++ rs') rest ∧ textr <$> rs' = rs.
Proof.
  induction rs as [|[[f m] fd] rs IH]; intros fuel rs0 rest Hg Hn Hs Hf.
  - exists []. rw app_nil_r. split; [|done]. cbn [app show_redirs fmap list_fmap mjoin list_join].
    destruct fuel; cbn [parseredirs]; rw (peek_miss _ _ [ch_lt; ch_gt] Hn); try done;
      intros c Hc; (split; [by apply follow_symbols|]); unfold follow in Hc; set_solver.
  - inversion Hg as [|?? [Hgf Hm] Hg']; subst. cbn in Hgf, Hm.
    change (show_redirs ((f, m, fd) :: rs)) with (show_redir (f, m, fd) ++ show_redirs rs) in Hs, Hf |- *.
    rw -app_assoc in Hs Hf |- *. set (rest' := show_redirs rs ++ rest) in *.
    pose proof (next_redirs rs rest Hn) as Hn'. fold rest' in Hn'.
    destruct (next_skip _ _ Hn' after_redirs) as [Ews Ewd].
    unfold show_redir in Hs, Hf |- *. cbn [fst snd app] in Hs, Hf |- *.
    set (c := if m =? O_RDONLY then ch_lt else ch_gt) in *.
    assert (Hc : c ∈ [ch_lt; ch_gt]) by (unfold c; destruct (m =? _); set_solver).
    assert (Hcs : c ∈ symbols) by (unfold symbols; set_solver).
    destruct fuel as [|fuel]; [cbn in Hf; lia|]. cbn [parseredirs].
    rw (peek_hit _ _ _ Hcs) (bool_decide_eq_true_2 _ Hc).
    assert (Et : gettoken (c :: f ++ rest') = (c, c :: f ++ rest', f ++ rest', f ++ rest')).
    { unfold c. destruct (m =? O_RDONLY); [|by apply gettoken_gt].
      rw gettoken_symbol; [set_solver|]. by rw (skip_ws_text _ _ Hgf). }
    rw Et (gettoken_text _ _ Hgf Ewd) Ews. cbn [negb]. rw Z.eqb_refl. cbn [negb].
    pose proof (suffix_drop [c] _ Hs) as Hs1. pose proof (suffix_drop f _ Hs1) as Hs2.
    cbn [length] in Hf. rw length_app in Hf.
    destruct (IH fuel (rs0 ++ [if c =? ch_lt then ((at_ N (f ++ rest'), at_ N rest'), O_RDONLY, 0)
       else ((at_ N (f ++ rest'), at_ N rest'), Z.lor O_WRONLY O_CREATE, 1)]) rest Hg' Hn Hs2)
      as (rs' & E & Er); [fold rest'; lia|].
    fold rest' in E. rw E. rw -app_assoc. eexists. split; [reflexivity|]. cbn. rw Er. f_equal.
    unfold textr. destruct Hm as [[= -> ->]|[= -> ->]]; cbn -[sub at_]; by rw (sub_at _ _ Hs1).
Qed.

Lemma parseargs_end fuel argv rs rest :
  next_in follow rest → (0 < fuel)%nat → parseargs N fuel argv rs rest = POk (wrap (EXEC argv) rs) rest.
Proof.
  intros [->|(c & s & -> & Hc)] Hf; (destruct fuel; [lia|]); [done|]. cbn [parseargs].
  rw (peek_hit _ _ _ (follow_symbols _ Hc)) bool_decide_eq_true_2; [unfold follow in Hc; set_solver|done].
Qed.

(** The redirections after a word that another word follows: none. *)
Lemma parseredirs_word fuel rs w s : good_text w → parseredirs N fuel rs (w ++ s) = POk rs (w ++ s).
Proof.
  intros Hw. pose proof (peek_text w s [ch_lt; ch_gt] Hw) as E.
  destruct fuel; cbn [parseredirs]; (rw E; [unfold symbols; set_solver|done]).
Qed.

Lemma show_argv_next argv rs rest :
  next_in follow rest → skip_word (show_argv argv ++ show_redirs rs ++ rest) =
    show_argv argv ++ show_redirs rs ++ rest.
Proof.
  intros Hn. destruct argv; [|done]. apply (next_skip _ _ (next_redirs rs rest Hn) after_redirs).
Qed.

Lemma parseargs_show argv : ∀ w fuel argv0 rs rest,
  Forall good_text (w :: argv) → Forall good_redir rs → next_in follow rest →
  (w ++ show_argv argv ++ show_redirs rs ++ rest) `suffix_of` line →
  (length (w ++ show_argv argv ++ show_redirs rs ++ rest) < fuel)%nat →
  (length argv0 + S (length argv) < MAXARGS)%nat →
  ∃ argv' rs', parseargs N fuel argv0 [] (w ++ show_argv argv ++ show_redirs rs ++ rest) =
      POk (wrap (EXEC (argv0 ++ argv')) rs') rest ∧
    sub line <$> argv' = w :: argv ∧ textr <$> rs' = rs.
Proof.
  induction argv as [|w2 argv IH]; intros w fuel argv0 rs rest Hg Hr Hn Hs Hf Hlen;
    inversion Hg as [|?? Hw Hg']; subst; (destruct fuel as [|fuel]; [lia|]); cbn [parseargs].
  all: rw (peek_text _ _ _ Hw); [unfold symbols; set_solver|].
  all: rw (gettoken_text _ _ Hw (show_argv_next _ _ _ Hn)); change (ch_a =? 0) with false;
    rw Z.eqb_refl; cbn [negb].
  all: rw bool_decide_eq_false_2; [rw length_app; cbn in Hlen |- *; lia|].
  all: pose proof (sub_at _ _ Hs) as Ew; pose proof (suffix_drop _ _ Hs) as Hs1; rw length_app in Hf.
  - change (show_argv [] ++ show_redirs rs ++ rest) with (show_redirs rs ++ rest) in *.
    destruct (next_skip _ _ (next_redirs rs rest Hn) after_redirs) as [-> _].
    destruct (parseredirs_show rs (length (show_redirs rs ++ rest)) [] rest Hr Hn Hs1 (le_n _)) as (rs' & E & Er).
    rw E. cbn [pbind app]. assert (0 < fuel)%nat by (destruct w; [by destruct Hw|cbn in Hf; lia]).
    rw (parseargs_end _ _ _ _ Hn); [done|]. eexists [_], rs'. split_and!; [done| |done]. exact (f_equal (λ x, [x]) Ew).
  - inversion Hg' as [|?? Hw2 _]; subst.
    change (show_argv (w2 :: argv)) with ((32 :: w2) ++ show_argv argv) in *.
    rw -app_assoc in Hf Ew Hs1 |- *. cbn [app] in Hf, Ew, Hs1 |- *.
    change (skip_ws (32 :: ?s)) with (skip_ws s).
    rw (skip_ws_text _ _ Hw2) (parseredirs_word _ _ _ _ Hw2). cbn [pbind].
    destruct (IH w2 fuel (argv0 ++ [(at_ N (w ++ 32 :: w2 ++ show_argv argv ++ show_redirs rs ++ rest),
       at_ N (32 :: w2 ++ show_argv argv ++ show_redirs rs ++ rest))]) rs rest) as (argv' & rs' & E & Ea & Er);
      [done|done|done|by apply (suffix_drop [32])|cbn in Hf; lia|rw length_app; cbn in Hlen |- *; lia|].
    rw E -app_assoc. eexists _, rs'. split_and!; [done| |done]. exact (f_equal2 cons Ew Ea).
Qed.

Lemma wrap_text c rs : map_words (sub line) (wrap c rs) = wrap (map_words (sub line) c) (textr <$> rs).
Proof. unfold wrap. revert c. induction rs as [|r rs IH]; intros c; cbn; [done|]. by rw IH. Qed.

(** The parser [p], given a printed command and what follows it, gives back the command [c]. *)
Definition reads (r : pres (cmd (nat * nat))) (c : cmd text) (rest : list Z) : Prop :=
  ∃ c', r = POk c' rest ∧ map_words (sub line) c' = c.

Definition reads_exec (c : cmd text) : Prop := ∀ fuel rs rest,
  let s := sh 0 c ++ show_redirs rs ++ rest in
  Forall good_redir rs → next_in follow rest → s `suffix_of` line → (4 * length s + 2 <= fuel)%nat →
  reads (parseexec N fuel s) (wrap c rs) rest.

Definition reads_pipe (c : cmd text) : Prop := ∀ fuel rest,
  let s := sh 1 c ++ rest in
  next_in [ch_amp; ch_semi; ch_rpar] rest → s `suffix_of` line → (4 * length s + 3 <= fuel)%nat →
  reads (parsepipe N fuel s) c rest.

Definition reads_back (c : cmd text) : Prop := ∀ fuel k rest,
  let s := sh 2 c ++ replicate k ch_amp ++ rest in
  next_in [ch_semi; ch_rpar] rest → s `suffix_of` line → (4 * length s + 3 <= fuel)%nat →
  reads (pbind (parsepipe N fuel s) (λ c s, parseback (length s) c s)) (Nat.iter k BACK c) rest.

Definition reads_line (c : cmd text) : Prop := ∀ fuel rest,
  let s := sh 3 c ++ rest in
  next_in [ch_rpar] rest → s `suffix_of` line → (4 * length s + 4 <= fuel)%nat →
  reads (parseline N fuel s) c rest.

Lemma sh_same n m c : (level c <= n ↔ level c <= m)%nat → sh n c = sh m c.
Proof.
  intros H. unfold sh, paren.
  destruct (Nat.leb_spec (level c) n), (Nat.leb_spec (level c) m); naive_solver lia.
Qed.

Lemma exec_reads argv : wf (EXEC argv) → reads_exec (EXEC argv).
Proof.
  intros [Hg Hl] fuel rs rest s Hr Hn Hs Hf. subst s.
  change (sh 0 (EXEC argv)) with (show_argv argv) in Hs, Hf |- *.
  destruct fuel as [|fuel]; [lia|]. cbn [parseexec]. destruct argv as [|w argv].
  - change (show_argv [] ++ show_redirs rs ++ rest) with (show_redirs rs ++ rest) in *.
    rw (peek_miss _ _ [ch_lpar] (next_redirs rs rest Hn)).
    { intros c Hc. split; [by apply after_redirs|]. unfold follow in Hc. set_solver. }
    destruct (parseredirs_show rs (length (show_redirs rs ++ rest)) [] rest Hr Hn Hs (le_n _)) as (rs' & E & Er).
    rw E. cbn [pbind app]. rw (parseargs_end _ _ _ _ Hn); [lia|]. eexists. split; [done|].
    by rw wrap_text Er.
  - inversion Hg as [|?? Hw Hg']; subst.
    change (show_argv (w :: argv)) with ((32 :: w) ++ show_argv argv) in *. rw -app_assoc in Hs Hf |- *.
    cbn [app] in Hs, Hf |- *. apply (suffix_drop [32]) in Hs.
    assert (E : peek (32 :: w ++ show_argv argv ++ show_redirs rs ++ rest) [ch_lpar] =
      (false, w ++ show_argv argv ++ show_redirs rs ++ rest)).
    { transitivity (peek (w ++ show_argv argv ++ show_redirs rs ++ rest) [ch_lpar]); [done|].
      apply peek_text; [done|]. unfold symbols. set_solver. }
    rw E (parseredirs_word _ _ _ _ Hw). cbn [pbind].
    destruct (parseargs_show argv w (S (length (w ++ show_argv argv ++ show_redirs rs ++ rest))) [] rs rest)
      as (argv' & rs' & -> & Ea & Er); [done|done|done|done|lia|cbn in *; lia|].
    eexists. split; [done|]. rw wrap_text Er. cbn [app map_words]. by rw Ea.
Qed.

Lemma redir_reads c f m fd : reads_exec c → good_redir (f, m, fd) → reads_exec (REDIR c f m fd).
Proof.
  intros IH Hg fuel rs rest s Hr Hn Hs Hf. specialize (IH fuel ((f, m, fd) :: rs) rest).
  assert (E : s = sh 0 c ++ show_redirs ((f, m, fd) :: rs) ++ rest).
  { unfold s, sh at 1. cbn [paren level Nat.leb show]. unfold show_redirs. cbn. unfold sh.
    by rw -!app_assoc. }
  rw E in Hs Hf |- *. apply IH; [by constructor|done|done|done].
Qed.

Lemma exec_pipe c : level c ≠ 1%nat → reads_exec c → reads_pipe c.
Proof.
  intros Hl IH fuel rest s Hn Hs Hf. subst s. rw (sh_same 1 0 c ltac:(lia)) in Hs Hf |- *.
  destruct fuel as [|fuel]; [lia|]. cbn [parsepipe].
  specialize (IH fuel [] rest). change (show_redirs [] ++ rest) with rest in IH. cbv zeta in IH.
  destruct IH as (c' & E & Ec); [done|..|done|lia|].
  { apply (next_in_weaken _ _ _ Hn). unfold follow. set_solver. }
  rw E. cbn [pbind].
  rw (peek_miss _ _ [ch_bar] Hn); [|by exists c'].
  intros x Hx. split; [apply follow_symbols; unfold follow|]; set_solver.
Qed.

Lemma peek_ws s toks : peek (skip_ws s) toks = peek s toks.
Proof. unfold peek. by rw skip_ws_idem. Qed.

Lemma parsepipe_ws fuel s : parsepipe N fuel (skip_ws s) = parsepipe N fuel s.
Proof. destruct fuel as [|[|fuel]]; [done|done|]. cbn [parsepipe parseexec]. by rw peek_ws. Qed.

Lemma parseline_ws fuel s : parseline N fuel (skip_ws s) = parseline N fuel s.
Proof. destruct fuel as [|fuel]; [done|]. cbn [parseline]. by rw parsepipe_ws. Qed.

Lemma next_cons l c s : c ∈ l → next_in l (c :: s).
Proof. intros H. right. by exists c, s. Qed.

Lemma pipe_reads l r : reads_exec l → reads_pipe r → reads_pipe (PIPE l r).
Proof.
  intros IHl IHr fuel rest s Hn Hs Hf.
  assert (E : s = sh 0 l ++ ch_bar :: sh 1 r ++ rest).
  { unfold s, sh at 1. cbn [paren level Nat.leb show app]. by rw -app_assoc. }
  clearbody s. subst s. destruct fuel as [|fuel]; [lia|]. cbn [parsepipe]. rw length_app /= in Hf.
  specialize (IHl fuel [] (ch_bar :: sh 1 r ++ rest)).
  change (show_redirs [] ++ ?x) with x in IHl. cbv zeta in IHl. rw length_app /= in IHl.
  destruct IHl as (c' & E & Ec); [done|by apply next_cons; set_solver|done|lia|]. rw E. cbn [pbind].
  rw peek_hit; [unfold symbols; set_solver|]. rw bool_decide_eq_true_2; [set_solver|].
  rw gettoken_symbol; [set_solver|]. rw parsepipe_ws.
  apply suffix_drop, (suffix_drop [_]) in Hs.
  destruct (IHr fuel rest Hn Hs) as (c'' & E' & Ec'); [lia|]. rw E'. cbn [pbind].
  eexists. split; [done|]. cbn. by rw Ec Ec'.
Qed.

Lemma block_reads c : level c ≠ 0%nat → reads_line c → reads_exec c.
Proof.
  intros Hl IH fuel rs rest s Hr Hn Hs Hf.
  assert (E : s = ch_lpar :: sh 3 c ++ ch_rpar :: show_redirs rs ++ rest).
  { unfold s, sh, paren. rw (proj2 (Nat.leb_gt (level c) 0)); [lia|].
    rw (proj2 (Nat.leb_le (level c) 3)); [destruct c; cbn; lia|]. cbn. by rw -app_assoc. }
  clearbody s. subst s. rw /= length_app /= in Hf. apply (suffix_drop [_]) in Hs.
  destruct fuel as [|fuel]; [lia|]. cbn [parseexec].
  assert (Ep : ∀ s, peek (ch_lpar :: s) [ch_lpar] = (true, ch_lpar :: s)) by done.
  rw Ep. destruct fuel as [|fuel]; [lia|]. cbn [parseblock]. rw Ep. cbn [negb].
  rw gettoken_symbol; [set_solver|]. rw parseline_ws.
  destruct (IH fuel (ch_rpar :: show_redirs rs ++ rest)) as (c' & E & Ec);
    [by apply next_cons; set_solver|done|rw length_app /=; lia|].
  rw E. cbn [pbind]. assert (Er : ∀ s, peek (ch_rpar :: s) [ch_rpar] = (true, ch_rpar :: s)) by done.
  rw Er. cbn [negb]. rw gettoken_symbol; [set_solver|].
  destruct (next_skip _ _ (next_redirs rs rest Hn) after_redirs) as [-> _].
  apply suffix_drop, (suffix_drop [_]) in Hs.
  destruct (parseredirs_show rs (length (show_redirs rs ++ rest)) [] rest Hr Hn Hs (le_n _)) as (rs' & E2 & Er2).
  rw E2. cbn [pbind app]. eexists. split; [done|]. by rw wrap_text Ec Er2.
Qed.

Lemma amps_next k rest :
  next_in [ch_semi; ch_rpar] rest → next_in [ch_amp; ch_semi; ch_rpar] (replicate k ch_amp ++ rest).
Proof.
  intros Hn. destruct k; cbn; [|by apply next_cons; set_solver].
  apply (next_in_weaken _ _ _ Hn). set_solver.
Qed.

Lemma amps_symbols c : c ∈ [ch_amp; ch_semi; ch_rpar] → c ∈ symbols.
Proof. unfold symbols. set_solver. Qed.

Lemma parseback_amps k : ∀ fuel c rest,
  next_in [ch_semi; ch_rpar] rest → (k <= fuel)%nat →
  parseback fuel c (replicate k ch_amp ++ rest) = POk (Nat.iter k BACK c) rest.
Proof.
  induction k as [|k IH]; intros fuel c rest Hn Hf.
  - cbn [replicate app Nat.iter]. destruct fuel; cbn [parseback]; rw (peek_miss _ _ [ch_amp] Hn); try done;
      intros x Hx; (split; [apply amps_symbols|]; set_solver).
  - destruct fuel as [|fuel]; [lia|]. cbn [replicate app parseback].
    rw peek_hit; [unfold symbols; set_solver|]. rw bool_decide_eq_true_2; [set_solver|].
    rw gettoken_symbol; [set_solver|].
    destruct (next_skip _ _ (amps_next k rest Hn) amps_symbols) as [-> _].
    rw IH; [done|lia|]. by rw Nat.iter_succ_r.
Qed.

Lemma iter_back_text k c : map_words (sub line) (Nat.iter k BACK c) = Nat.iter k BACK (map_words (sub line) c).
Proof. induction k; cbn; [done|]. by f_equal. Qed.

Lemma pipe_back c : level c ≠ 2%nat → reads_pipe c → reads_back c.
Proof.
  intros Hl IH fuel k rest s Hn Hs Hf. subst s. rw (sh_same 2 1 c ltac:(lia)) in Hs Hf |- *.
  destruct (IH fuel (replicate k ch_amp ++ rest)) as (c' & E & Ec); [by apply amps_next|done|lia|].
  rw E. cbn [pbind]. rw parseback_amps; [done|rw length_app length_replicate; lia|].
  eexists. split; [done|]. by rw iter_back_text Ec.
Qed.

Lemma back_reads c : reads_back c → reads_back (BACK c).
Proof.
  intros IH fuel k rest s Hn Hs Hf. specialize (IH fuel (S k) rest).
  assert (E : s = sh 2 c ++ replicate (S k) ch_amp ++ rest).
  { unfold s, sh at 1. cbn [paren level Nat.leb show replicate app]. by rw -app_assoc. }
  rw E in Hs Hf |- *. rw -Nat.iter_succ_r. by apply IH.
Qed.

Lemma pbind_assoc {A C D} (m : pres A) (f : A → list Z → pres C) (g : C → list Z → pres D) :
  pbind m (λ a s, pbind (f a s) g) = pbind (pbind m f) g.
Proof. by destruct m. Qed.

Lemma back_line c : level c ≠ 3%nat → reads_back c → reads_line c.
Proof.
  intros Hl IH fuel rest s Hn Hs Hf. subst s. rw (sh_same 3 2 c ltac:(lia)) in Hs Hf |- *.
  destruct fuel as [|fuel]; [lia|]. cbn [parseline]. rw pbind_assoc.
  destruct (IH fuel 0%nat rest) as (c' & E & Ec); [|done|cbn; lia|].
  { apply (next_in_weaken _ _ _ Hn). set_solver. }
  cbn [replicate app] in E. rw E. cbn [pbind].
  rw (peek_miss _ _ [ch_semi] Hn); [|by exists c'].
  intros x Hx. split; [apply amps_symbols|]; set_solver.
Qed.

Lemma list_reads l r : reads_back l → reads_line r → reads_line (LIST l r).
Proof.
  intros IHl IHr fuel rest s Hn Hs Hf.
  assert (E : s = sh 2 l ++ ch_semi :: sh 3 r ++ rest).
  { unfold s, sh at 1. cbn [paren level Nat.leb show app]. by rw -app_assoc. }
  clearbody s. subst s. rw length_app /= in Hf. destruct fuel as [|fuel]; [lia|]. cbn [parseline]. rw pbind_assoc.
  destruct (IHl fuel 0%nat (ch_semi :: sh 3 r ++ rest)) as (c' & E & Ec);
    [by apply next_cons; set_solver|done|cbn [replicate app]; rw length_app /=; lia|].
  cbn [replicate app] in E. rw E. cbn [pbind].
  rw peek_hit; [unfold symbols; set_solver|]. rw bool_decide_eq_true_2; [set_solver|].
  rw gettoken_symbol; [set_solver|]. rw parseline_ws.
  apply suffix_drop, (suffix_drop [_]) in Hs.
  destruct (IHr fuel rest Hn Hs) as (c'' & E' & Ec'); [lia|]. rw E'. cbn [pbind].
  eexists. split; [done|]. cbn. by rw Ec Ec'.
Qed.

Lemma all_read c : wf c → reads_exec c ∧ reads_pipe c ∧ reads_back c ∧ reads_line c.
Proof.
  induction c as [argv|c IH f m fd|l IHl r IHr|l IHl r IHr|c IH]; intros Hwf.
  - assert (reads_exec (EXEC argv)) by by apply exec_reads. eauto 10 using exec_pipe, pipe_back, back_line.
  - destruct Hwf as [Hc Hr]. destruct (IH Hc) as (He & _).
    assert (reads_exec (REDIR c f m fd)) by by apply redir_reads. eauto 10 using exec_pipe, pipe_back, back_line.
  - destruct Hwf as [Hl Hr]. destruct (IHl Hl) as (He & _), (IHr Hr) as (_ & Hp & _).
    assert (reads_pipe (PIPE l r)) by by apply pipe_reads. eauto 10 using pipe_back, back_line, block_reads.
  - destruct Hwf as [Hl Hr]. destruct (IHl Hl) as (_ & _ & Hb & _), (IHr Hr) as (_ & _ & _ & Hn).
    assert (reads_line (LIST l r)) by by apply list_reads. eauto 10 using block_reads, exec_pipe, pipe_back.
  - destruct (IH Hwf) as (_ & _ & Hb & _).
    assert (reads_back (BACK c)) by by apply back_reads. eauto 10 using back_line, block_reads, exec_pipe.
Qed.
End printed.

Lemma show_no_zero c : wf c → 0 ∉ show c.
Proof.
  assert (Hw : ∀ w, good_text w → 0 ∉ w).
  { intros w [_ Hw] H0. by destruct (proj1 (Forall_forall _ _) Hw 0 H0). }
  assert (Hp : ∀ n c s, 0 ∉ s → 0 ∉ paren n c s).
  { intros n c' s H0. unfold paren. destruct (_ <=? _)%nat; [done|]. unfold ch_lpar, ch_rpar. set_solver. }
  unfold ch_bar, ch_amp, ch_semi in *.
  induction c as [argv|c IH f m fd|l IHl r IHr|l IHl r IHr|c IH]; cbn; intros Hwf.
  - destruct Hwf as [Hg _]. unfold show_argv. induction Hg as [|w argv Hg _ IH]; cbn; [set_solver|].
    specialize (Hw w Hg). set_solver.
  - destruct Hwf as [Hc [Hf _]]. specialize (Hp 0%nat c _ (IH Hc)). specialize (Hw f Hf).
    unfold show_redir, ch_lt, ch_gt. cbn. destruct (m =? _); set_solver.
  - destruct Hwf as [Hl Hr]. pose proof (Hp 0%nat l _ (IHl Hl)). pose proof (Hp 1%nat r _ (IHr Hr)).
    unfold ch_bar. set_solver.
  - destruct Hwf as [Hl Hr]. pose proof (Hp 2%nat l _ (IHl Hl)). pose proof (Hp 3%nat r _ (IHr Hr)).
    unfold ch_semi. set_solver.
  - pose proof (Hp 2%nat c _ (IH Hwf)). unfold ch_amp. set_solver.
Qed.

Lemma sh_3 c : sh 3 c = show c.
Proof. unfold sh, paren. by destruct c. Qed.

(** C15: parsing a printed command gives the command back: [parsecmd] accepts every tree of the grammar with
    fewer arguments than [MAXARGS], whatever the nesting of lists, background commands, pipes, blocks and
    redirections, and the strings [runcmd] reads through the tree are the words that were printed. *)
Theorem parsecmd_show c : wf c →
  ∃ c' buf, parsecmd (show c) = POk (c', buf) [] ∧ map_words (word_text buf) c' = c.
Proof.
  intros Hwf. pose proof (show_no_zero c Hwf) as H0. pose proof (parsecmd_fine (show c)) as Hfine.
  destruct (all_read (show c) c Hwf) as (_ & _ & _ & Hl).
  specialize (Hl (parse_fuel (show c)) []). cbv zeta in Hl. rw sh_3 app_nil_r in Hl.
  destruct Hl as (c' & E & Ec); [by left|done|done|].
  unfold parsecmd in Hfine |- *. rw E /= in Hfine |- *. destruct Hfine as (_ & Hg & _).
  eexists _, _. split; [done|]. by rw nulterminate_text.
Qed.

Lemma parsecmd_show_witness :
  let c := LIST (BACK (REDIR (PIPE (EXEC [[97]; [98]]) (EXEC [[99]])) [102] O_RDONLY 0)) (EXEC []) in
  ∃ c' buf, parsecmd (show c) = POk (c', buf) [] ∧ map_words (word_text buf) c' = c.
Proof.
  intros c. apply (parsecmd_show c).
  repeat match goal with
  | |- wf _ => cbn
  | |- _ ∧ _ => split
  | |- Forall _ _ => constructor
  | |- (_ < _)%nat => cbv; lia
  | |- good_redir _ => split; [split|by left]
  | |- good_text _ => split
  | |- _ => done
  end.
Defined.
