(* ===== verification/ShRun.v ===== *)
(** * Running a command: runcmd of sh.c

    [runcmd] is the program of system calls it makes, as a tree that branches on their results ([prog]); a fork has
    the program of the child and that of the parent.  [execs] runs such a program on a table of
    descriptors with the rules of sysfile.c: [open], [dup] and [pipe] take the lowest free descriptor, and a
    child starts with a copy of the table.  It gives the programs that are executed, each with the
    descriptors it starts with. *)

From S2P Require Import Prelude Sh.

(** What the shell asks of the kernel.  [Fork] has the branches of the child, the parent and the failure;
    [Exec] goes on with [k] when it fails. *)
Inductive prog (W : Type) :=
  | Exit (st : Z)
  | Exec (argv : list W) (k : prog W)
  | Close (fd : nat) (k : prog W)
  | Open (file : W) (mode : Z) (ok failed : prog W)
  | Dup (fd : nat) (k : prog W)
  | MkPipe (k : nat -> nat -> prog W) (failed : prog W)
  | Fork (child parent failed : prog W)
  | Wait (k : prog W).
Arguments Exit {W}.
Arguments Exec {W}.
Arguments Close {W}.
Arguments Open {W}.
Arguments Dup {W}.
Arguments MkPipe {W}.
Arguments Fork {W}.
Arguments Wait {W}.

(** [panic] of sh.c; the messages on descriptor 2 are not modelled. *)
Definition sh_panic {W} : prog W := Exit 1.

Definition fork1 {W} (child parent : prog W) : prog W := Fork child parent sh_panic.

Fixpoint runcmd {W} (c : cmd W) : prog W :=
  match c with
  | EXEC [] => Exit 1
  | EXEC argv => Exec argv (Exit 1)
  | REDIR c file mode fd => Close (Z.to_nat fd) (Open file mode (runcmd c) (Exit 1))
  | LIST l r => fork1 (runcmd l) (Wait (runcmd r))
  | PIPE l r =>
      MkPipe (fun p0 p1 =>
        fork1 (Close 1 (Dup p1 (Close p0 (Close p1 (runcmd l)))))
          (fork1 (Close 0 (Dup p0 (Close p0 (Close p1 (runcmd r)))))
            (Close p0 (Close p1 (Wait (Wait (Exit 1))))))) sh_panic
  | BACK c => fork1 (runcmd c) (Exit 1)
  end.

(** What a descriptor refers to: something the shell was started with, an end of the [n]th pipe made, or a file
    opened by a redirection. *)
Inductive obj (W : Type) :=
  | Given (n : nat)
  | PRead (n : nat)
  | PWrite (n : nat)
  | Opened (file : W) (mode : Z).
Arguments Given {W}.
Arguments PRead {W}.
Arguments PWrite {W}.
Arguments Opened {W}.

Abbreviation fdtable W := (list (option (obj W))).

(** The lowest free descriptor. *)
Fixpoint alloc_fd {A} (o : A) (t : list (option A)) : option (nat * list (option A)) :=
  match t with
  | [] => None
  | None :: t' => Some (0%nat, Some o :: t')
  | Some x :: t' =>
      match alloc_fd o t' with
      | Some (fd, t'') => Some (S fd, Some x :: t'')
      | None => None
      end
  end.

(** The programs executed, in the order the forks are made, and the number of pipes made; every [open]
    and [fork] succeeds, and so does [exec]. *)
Fixpoint execs {W} (p : prog W) (t : fdtable W) (n : nat) : list (list W * fdtable W) * nat :=
  match p with
  | Exit _ => ([], n)
  | Exec argv _ => ([(argv, t)], n)
  | Close fd k => execs k (<[ fd := None ]> t) n
  | Open file mode ok failed =>
      match alloc_fd (Opened file mode) t with
      | Some (_, t') => execs ok t' n
      | None => execs failed t n
      end
  | Dup fd k =>
      match nth fd t None with
      | Some o =>
          match alloc_fd o t with
          | Some (_, t') => execs k t' n
          | None => execs k t n
          end
      | None => execs k t n
      end
  | MkPipe k failed =>
      match alloc_fd (PRead n) t with
      | Some (p0, t') =>
          match alloc_fd (PWrite n) t' with
          | Some (p1, t'') => execs (k p0 p1) t'' (S n)
          | None => execs failed t n
          end
      | None => execs failed t n
      end
  | Fork child parent _ =>
      let '(l, n') := execs child t n in
      let '(l', n'') := execs parent t n' in
      (l ++ l', n'')
  | Wait k => execs k t n
  end.

(** ** What a command means *)

(** The programs a command starts with standard input [i], output [o] and error [e], and the pipes between
    them: a redirection replaces one of the two, a pipe connects its sides. *)
Fixpoint wired {W} (c : cmd W) (i o e : obj W) (n : nat) : list (list W * list (obj W)) * nat :=
  match c with
  | EXEC [] => ([], n)
  | EXEC argv => ([(argv, [i; o; e])], n)
  | REDIR c file mode fd =>
      if fd =? 0 then wired c (Opened file mode) o e n else wired c i (Opened file mode) e n
  | PIPE l r =>
      let '(a, n') := wired l i (PWrite n) e (S n) in
      let '(b, n'') := wired r (PRead n) o e n' in
      (a ++ b, n'')
  | LIST l r =>
      let '(a, n') := wired l i o e n in
      let '(b, n'') := wired r i o e n' in
      (a ++ b, n'')
  | BACK c =>
      let '(a, n') := wired c i o e n in
      (a ++ [], n')
  end.

(** The redirections of the grammar. *)
Fixpoint std_redirs {W} (c : cmd W) : Prop :=
  match c with
  | EXEC _ => True
  | REDIR c _ _ fd => (fd = 0 \/ fd = 1) /\ std_redirs c
  | PIPE l r | LIST l r => std_redirs l /\ std_redirs r
  | BACK c => std_redirs c
  end.

(** The table with three descriptors in use and [k] free. *)
Definition std {W} (i o e : obj W) (k : nat) : fdtable W := [Some i; Some o; Some e] ++ replicate k None.

Definition with_std {W} (k : nat) (l : list (list W * list (obj W))) : list (list W * fdtable W) :=
  (fun x => (x.1, (Some <$> x.2) ++ replicate k None)) <$> l.

Lemma execs_runcmd {W} (c : cmd W) k : std_redirs c -> forall i o e n,
  execs (runcmd c) (std i o e (S (S k))) n =
    let '(l, n') := wired c i o e n in (with_std (S (S k)) l, n').
Proof.
  induction c as [argv|c IH f m fd|l IHl r IHr|l IHl r IHr|c IH]; intros Hr i o e n.
  - by destruct argv.
  - destruct Hr as [[->| ->] Hr]; cbn -[replicate]; apply (IH Hr).
  - destruct Hr as [Hl Hr]. cbn [runcmd execs std app replicate alloc_fd fork1 nth insert list_insert].
    specialize (IHl Hl i (PWrite n) e (S n)). cbn [std app replicate] in IHl. rewrite IHl. cbn [wired].
    destruct (wired l i (PWrite n) e (S n)) as [a n']. cbn [with_std].
    specialize (IHr Hr (PRead n) o e n'). cbn [std app replicate] in IHr. rewrite IHr.
    destruct (wired r (PRead n) o e n') as [b n'']. unfold with_std. by rewrite fmap_app, app_nil_r.
  - destruct Hr as [Hl Hr]. cbn [runcmd execs fork1 wired]. rewrite (IHl Hl).
    destruct (wired l i o e n) as [a n']. rewrite (IHr Hr). destruct (wired r i o e n') as [b n''].
    unfold with_std. by rewrite fmap_app.
  - cbn [runcmd execs fork1 wired]. rewrite (IH Hr). destruct (wired c i o e n) as [a n'].
    unfold with_std. by rewrite fmap_app.
Qed.

(** C29: [runcmd] starts exactly the programs its command names, connected as the command says: in a pipeline
    the output of the left side is the write end of the pipe that is the input of the right side, a
    redirection replaces one of the two, and every program starts with the three standard
    descriptors and no other, so that no end of a pipe stays open in a process that does not use it.  It needs
    two free descriptors, whatever the depth of the command. *)
Theorem runcmd_wires_pipelines {W} (c : cmd W) (i o e : obj W) k n :
  std_redirs c -> execs (runcmd c) (std i o e (S (S k))) n =
    let '(l, n') := wired c i o e n in (with_std (S (S k)) l, n').
Proof. intros. by apply execs_runcmd. Qed.

(** [a | (b | c) > f] with the sixteen descriptors of a process. *)
Lemma runcmd_wires_pipelines_witness :
  execs (runcmd (PIPE (EXEC [1]) (REDIR (PIPE (EXEC [2]) (EXEC [3])) 4 513 1)))
    (std (Given 0) (Given 1) (Given 2) 13) 0 =
  (with_std 13 [([1], [Given 0; PWrite 0; Given 2]); ([2], [PRead 0; PWrite 1; Given 2]);
                ([3], [PRead 1; Opened 4 513; Given 2])], 2%nat).
Proof.
  etrans; [apply (runcmd_wires_pipelines _ (Given 0) (Given 1) (Given 2) 11 0)|reflexivity].
  cbn. repeat split. by right.
Defined.
