(* ===== verification/SysfileSpec.v ===== *)
(** * Properties of the system calls *)

From S2P Require Import Prelude CString Mmu Kalloc Vm Proc ProcSpec Syscall Bio BufferCache BioSpec Bytes Log LogCrash Fs Pipe File Sysproc Exec Sysfile Sh ShRun.

(** ** Descriptors *)

Section fdalloc.
Context {B : Type} {FO : FileOps (fls B)} {AS : AddrSpace}.

Lemma nth_middle_list {A} (pre : list (option A)) x t : nth (length pre) (pre ++ x :: t) None = x.
Proof. rewrite app_nth2 by lia. by rewrite Nat.sub_diag. Qed.

Lemma fdalloc_loop i f (s : pst (fls B)) t : forall pre, p_ofile (proc_at s i) = pre ++ t ->
  for_first (seq (length pre) (length t)) (fun fd =>
    let* o := getp i (fun p => nth fd (p_ofile p) None) in
    match o with
    | None => set_ofile i fd (Some f) ;;; kret (Some fd)
    | Some _ => kret None
    end) s =
  match alloc_fd f t with
  | Some (fd, _) => Ok (Some (length pre + fd)%nat)
      (upd_proc i (fun p => set_p_ofile (<[ (length pre + fd)%nat := Some f ]> (p_ofile p)) p) s)
  | None => Ok None s
  end.
Proof.
  induction t as [|o t IH]; intros pre E; [done|]. cbn [length seq for_first alloc_fd].
  unfold kbind at 1. unfold kbind at 1. unfold getp at 1, kgets at 1. rewrite E, nth_middle_list. destruct o as [g|].
  - unfold kret at 1. specialize (IH (pre ++ [Some g])). rewrite length_app, Nat.add_1_r in IH. cbn [length] in IH.
    rewrite IH by by rewrite <- app_assoc.
    destruct (alloc_fd f t) as [[fd t']|]; [|done]. by rewrite <- Nat.add_succ_comm.
  - unfold kbind at 1, set_ofile, setp, kmod, kret. by rewrite Nat.add_0_r.
Qed.

(** [fdalloc] of the kernel is the allocation of descriptors the shell relies on: it stores the file in the
    lowest free slot of [proc->ofile] and changes nothing else, and it fails, without any change, exactly
    when all sixteen are in use. *)
Theorem fdalloc_is_lowest_free i f (s : pst (fls B)) :
  s_cur s = Some i -> length (p_ofile (proc_at s i)) = NOFILE ->
  fdalloc f s =
    match alloc_fd f (p_ofile (proc_at s i)) with
    | Some (fd, _) => Ok (Some fd) (upd_proc i (fun p => set_p_ofile (<[ fd := Some f ]> (p_ofile p)) p) s)
    | None => Ok None s
    end.
Proof.
  intros Ec Hl. unfold fdalloc. rewrite (kbind_ok _ _ s i s) by (unfold myproc, kbind, kget; by rewrite Ec).
  rewrite <- Hl. apply (fdalloc_loop i f s (p_ofile (proc_at s i)) []). done.
Qed.
End fdalloc.

(** ** Arguments *)

Section arguments.
Context {B : Type} {FO : FileOps (fls B)} {AS : AddrSpace}.

(** C39: what the check of [argptr] lets through, for a process smaller than 2GB, as all are.  A block of [size] >= 0 bytes passes exactly when it starts and ends inside the process.  For a negative [size] the sum with the pointer
    wraps, and the block passes whenever its pointer is inside the process and at least -[size]: every caller that goes on to use [size] as a count of bytes then works on more memory than the process has. *)
Theorem argptr_checks n size (s : pst (fls B)) i v (sz := p_sz (proc_at s i)) :
  s_cur s = Some i -> argint n s = Ok (Some v) s -> 0 <= sz < 2147483648 -> -2147483648 <= v < 2147483648 -> -2147483648 <= size < 2147483648 ->
  (0 <= size -> argptr n size s = Ok (if bool_decide (0 <= v < sz /\ v + size <= sz) then Some v else None) s) /\
  (size < 0 -> argptr n size s = Ok (if bool_decide (0 <= v < sz /\ - size <= v) then Some v else None) s) /\
  (size < 0 -> argptr n size s = Ok (Some v) s -> sz < v + u32 size).
Proof.
  intros Ec E Hsz Hv Hs.
  assert (Ep : argptr n size s = Ok (if (sz <=? u32 v) || (sz <? u32 (v + size)) then None else Some (u32 v)) s).
  { unfold argptr. rewrite (kbind_ok _ _ _ _ _ E). unfold myproc, getp, kbind, kget, kgets. rewrite Ec. unfold kret. fold sz. by destruct (_ || _). }
  rewrite Ep. clear Ep E. clearbody sz.
  assert (Hu : forall x, -4294967296 <= x < 4294967296 -> 0 <= x /\ u32 x = x \/ x < 0 /\ u32 x = x + 4294967296) by (intros x Hx; unfold u32; mlia).
  assert (Hb : forall (P : Prop) `{!Decision P}, (P -> 0 <= v) -> ((sz <=? u32 v) || (sz <? u32 (v + size)) = false <-> P) ->
    @Ok (pst (fls B)) _ (if (sz <=? u32 v) || (sz <? u32 (v + size)) then None else Some (u32 v)) s = Ok (if bool_decide P then Some v else None) s).
  { intros P Pd H0 Hi. destruct ((sz <=? u32 v) || (sz <? u32 (v + size))) eqn:Eb.
    - rewrite bool_decide_eq_false_2; [done|]. intros HP. by apply Hi in HP.
    - assert (HP : P) by (by apply Hi). rewrite bool_decide_eq_true_2 by done. rewrite u32_small; [done|]. specialize (H0 HP). lia. }
  split_and!.
  - intros H0. apply Hb; [tauto|]. rewrite orb_false_iff, Z.leb_gt, Z.ltb_ge. destruct (Hu v ltac:(lia)) as [U|U], (Hu (v + size) ltac:(lia)) as [U'|U']; lia.
  - intros H0. apply Hb; [tauto|]. rewrite orb_false_iff, Z.leb_gt, Z.ltb_ge. destruct (Hu v ltac:(lia)) as [U|U], (Hu (v + size) ltac:(lia)) as [U'|U']; lia.
  - intros H0. destruct (_ || _) eqn:Eb; [done|]. rewrite orb_false_iff, Z.leb_gt, Z.ltb_ge in Eb. intros [= Ev]. destruct (Hu v ltac:(lia)) as [U|U], (Hu size ltac:(lia)) as [U'|U']; lia.
Qed.
End arguments.

(** ** A machine with one user page *)

(** The page directory, the page table and the page of a process, and its trap frame. *)
Definition demo_pgdir : Z := 0x80600000.
Definition demo_tf : Z := 0x80603FB4.

Fixpoint poke (l : list (Z * Z)) (m : mem) : mem :=
  match l with
  | [] => m
  | (a, v) :: l' => poke l' (st32 m a v)
  end.

(** Page 0 is mapped, readable and writable; the user's stack pointer is 0x100, above which are the arguments. *)
Definition demo_mem (args : list Z) : mem :=
  poke ([(demo_pgdir, 0x601007); (0x80601000, 0x602007); (demo_tf + tf_esp, 0x100)] ++
        imap (fun k a => (0x80602104 + 4 * Z.of_nat k, a)) args) (fun _ => 0).

Definition demo_proc : proc :=
  Proc 4096 demo_pgdir 0x80603000 RUNNING 2 (Some 1%nat) demo_tf 0 KForkret ch_null 0
    (<[ 3%nat := Some 0%nat ]> (replicate NOFILE None)) (Some 1%nat) "sh" 0 0 1.

(** Descriptor 3 is a file of 600 bytes in the sectors 18 and 19. *)
Definition demo_inode : inode := Inode 1 5 1 I_VALID (Dinode T_FILE 0 0 1 600 ([18; 19] ++ replicate 11 0)).
Definition demo_file : file := File FD_INODE 1 1 0 0 0 0.

Definition demo_fls : fls bst :=
  Fls (Fsys sample_log (demo_inode :: replicate 49 null_inode)) (demo_file :: replicate 99 zero_file) ∅ 0.

Definition demo_state (args : list Z) : pst (fls bst) :=
  Pst (zero_proc :: zero_proc :: demo_proc :: replicate 61 zero_proc) 3 (Some 1%nat) false (Some 2%nat) [] 0x600000 no_task
    (set_mem (demo_mem args) empty_kstate) demo_fls.

(** A call that returns [r], or that panics. *)
Definition gives {S} (o : outcome S Z) (r : Z) : bool := match o with Ok a _ => a =? r | _ => false end.

(** An example: [read] with a negative count stops the kernel.  The count passes the check of [argptr]; [readi] then takes it for a large unsigned number and reads to the end
    of the file, past the end of the process.  With the count 196 the same call reads 196 bytes, and with 197
    it is refused. *)
Example negative_read_panics :
  panics (sys_read (fun _ => None) (demo_state [3; 3900; -1])) "trap" = true /\
  gives (sys_read (fun _ => None) (demo_state [3; 3900; 196])) 196 = true /\
  gives (sys_read (fun _ => None) (demo_state [3; 3900; 197])) (-1) = true.
Proof. vm_compute. done. Qed.

#[local] Instance demo_files : FileOps (fls bst) := kernel_files 0x80400000 (fun _ => None).
#[local] Instance demo_vm : AddrSpace := kernel_vm 0x80400000 0x80108000.

Lemma fdalloc_is_lowest_free_witness :
  exists s', fdalloc 7 (demo_state []) = Ok (Some 0%nat) s' /\ nth 0 (p_ofile (proc_at s' 2)) None = Some 7%nat.
Proof.
  eexists. split.
  - etrans; [apply (fdalloc_is_lowest_free 2 7 (demo_state [])); reflexivity|reflexivity].
  - reflexivity.
Defined.

Lemma argptr_checks_witness : argptr 1 (-1) (demo_state [3; 3900; -1]) = Ok (Some 3900) (demo_state [3; 3900; -1]) /\
  argptr 1 196 (demo_state [3; 3900; 196]) = Ok (Some 3900) (demo_state [3; 3900; 196]) /\ argptr 1 197 (demo_state [3; 3900; 197]) = Ok None (demo_state [3; 3900; 197]).
Proof.
  split_and!.
  - refine (proj1 (proj2 (argptr_checks 1 (-1) (demo_state [3; 3900; -1]) 2 3900 eq_refl _ _ _ _)) _); [vm_compute; reflexivity|by split|lia|lia|lia].
  - refine (proj1 (argptr_checks 1 196 (demo_state [3; 3900; 196]) 2 3900 eq_refl _ _ _ _) _); [vm_compute; reflexivity|by split|lia|lia|lia].
  - refine (proj1 (argptr_checks 1 197 (demo_state [3; 3900; 197]) 2 3900 eq_refl _ _ _ _) _); [vm_compute; reflexivity|by split|lia|lia|lia].
Defined.
