(* ===== verification/SysEnds.v ===== *)
(** * The file system calls end

    The calls of file.c and sysfile.c return, sleep or panic in every state whose buffers form a
    ring: the bounds of the loops over blocks, directory entries, path elements and chunks of a write are
    large enough.  The file table stays type safe through them: closing a file on an inode, too, leaves the tables of
    FileSpec.v in order, however it ends. *)

From S2P Require Import Prelude CString Mmu Kalloc Vm VmSpec Proc ProcSpec Syscall Bio BufferCache BioSpec Bytes Log LogCrash Fs Pipe File FileSpec Sysproc Exec Sysfile SysfileSpec Ends.

Section files.
Context {B : Type} {OPS : BufferOps B} {BE : BufferEnds B}.
Variable kend : Z.
Variable devsw_read : Z -> option (nat -> Z -> K (fsys B) (Z * list Z)).
Variable devsw_write : Z -> option (nat -> list Z -> Z -> K (fsys B) Z).
Hypothesis Hread : forall d f, devsw_read d = Some f -> forall ip n, ends_any fs_inv (f ip n).
Hypothesis Hwrite : forall d f, devsw_write d = Some f -> forall ip src n, ends_any fs_inv (f ip src n).

Definition files_inv (s : fls B * kstate) : Prop := fs_inv (x_fs s.1).

Lemma lift_x_ends {A} (V : A -> Prop) (m : K (fsys B) A) : ends fs_inv V m -> ends files_inv V (lift_x m).
Proof. intros Hm s Hs. specialize (Hm (x_fs s.1) Hs). unfold lift_x. by destruct (m (x_fs s.1)). Qed.

Lemma lift_m_ends {A} (m : K kstate A) : total m -> ends_any files_inv (lift_m m).
Proof. intros Hm s Hs. specialize (Hm s.2). unfold lift_m. by destruct (m s.2). Qed.

Lemma files_lock l s : files_inv s -> files_inv (set_held l s).
Proof. apply be_lock. Qed.

#[local] Hint Extern 1 (ends _ _ (lift_x (lift_l _))) => apply lift_x_ends, lift_l_ends; solve [eauto with ends] : ends.
#[local] Hint Extern 2 (ends _ _ (lift_x _)) => apply lift_x_ends; solve [eauto with ends] : ends.
#[local] Hint Extern 1 (ends _ _ (getf _ _)) => apply ends_gets : ends.
#[local] Hint Extern 1 (ends _ _ (setf _ _)) => apply ends_mod; by intros : ends.
#[local] Hint Extern 1 (ends _ _ (set_pipe _ _)) => apply ends_mod; by intros : ends.
#[local] Hint Extern 1 (ends _ _ (drop_pipe _)) => apply ends_mod; by intros : ends.
#[local] Hint Extern 1 (ends _ _ (acquire _)) => apply ends_acquire, files_lock : ends.
#[local] Hint Extern 1 (ends _ _ (release _)) => apply ends_release, files_lock : ends.
#[local] Hint Extern 1 (ends _ _ (lift_m (kfree _ _))) => apply lift_m_ends, kfree_total : ends.
#[local] Hint Extern 1 (ends _ _ (lift_m kalloc)) => apply lift_m_ends, kalloc_total : ends.

Lemma get_pipe_ends p : ends_any files_inv (get_pipe p).
Proof. unfold get_pipe. ends_tac. Qed.

#[local] Hint Resolve get_pipe_ends : ends.

Lemma filealloc_ends : ends_any files_inv filealloc.
Proof. unfold filealloc. ends_tac. Qed.

Lemma filedup_ends f : ends_any files_inv (File.filedup f).
Proof. unfold File.filedup. ends_tac. Qed.

Lemma fileclose_ends f : ends_any files_inv (File.fileclose kend f).
Proof. unfold File.fileclose, file_pipeclose. ends_tac. Qed.

Lemma filestat_ends f : ends_any files_inv (filestat f).
Proof. unfold filestat. ends_tac. Qed.

Lemma pipe_result_ends p o : ends_any files_inv (pipe_result p o).
Proof. unfold pipe_result. ends_tac. Qed.

#[local] Hint Resolve pipe_result_ends : ends.

Lemma fileread_ends killed f n : ends_any files_inv (fileread devsw_read killed f n).
Proof. unfold fileread. ends_tac. Qed.

(** The chunks left. *)
Definition chunks (r : Z) : Z := (r + FILEWRITE_MAX - 1) / FILEWRITE_MAX.

Lemma filewrite_loop_ends f ip addr n fuel : forall i, chunks (n - i) <= Z.of_nat fuel ->
  ends_any files_inv (filewrite_loop devsw_write f ip addr n i fuel).
Proof.
  change FILEWRITE_MAX with 1536 in *.
  induction fuel as [|fuel IH]; intros i Hf; cbn [filewrite_loop]; (destruct (i <? n) eqn:E; [|by apply ends_ret]);
    apply Z.ltb_lt in E; unfold chunks in *; change FILEWRITE_MAX with 1536 in *.
  - mlia.
  - set (n1 := if 1536 <? n - i then 1536 else n - i).
    assert (Hn1 : n1 = Z.min 1536 (n - i)) by (unfold n1; bool_cases; lia). clearbody n1.
    ends_tac; bool_hyps; apply IH; mlia.
Qed.

Lemma filewrite_ends killed f addr n : ends_any files_inv (filewrite devsw_write killed f addr n).
Proof.
  unfold filewrite. ends_tac. apply filewrite_loop_ends. unfold chunks, filewrite_fuel. change FILEWRITE_MAX with 1536. mlia.
Qed.

#[local] Hint Resolve filealloc_ends fileclose_ends : ends.

Lemma pipealloc_ends : ends_any files_inv (pipealloc kend).
Proof. unfold pipealloc, pipealloc_bad. ends_tac. Qed.
End files.

#[export] Hint Resolve filealloc_ends filedup_ends fileclose_ends filestat_ends fileread_ends filewrite_ends pipealloc_ends : ends.

Section calls.
Context {B : Type} {OPS : BufferOps B} {BE : BufferEnds B} {FO : FileOps (fls B)} {AS : AddrSpace}.
Variable kend : Z.
Variable devsw_read : Z -> option (nat -> Z -> K (fsys B) (Z * list Z)).
Variable devsw_write : Z -> option (nat -> list Z -> Z -> K (fsys B) Z).
Hypothesis Hread : forall d f, devsw_read d = Some f -> forall ip n, ends_any fs_inv (f ip n).
Hypothesis Hwrite : forall d f, devsw_write d = Some f -> forall ip src n, ends_any fs_inv (f ip src n).

Definition calls_inv (s : pst (fls B)) : Prop := fs_inv (x_fs (s_fs s)).

Lemma lift_f_ends {A} (V : A -> Prop) (m : K (fls B * kstate) A) : ends files_inv V m -> ends calls_inv V (lift_f m).
Proof. intros Hm s Hs. specialize (Hm (s_fs s, s_k s) Hs). unfold lift_f. by destruct (m (s_fs s, s_k s)) as [? []|? []|? []|]. Qed.

Lemma lift_k_ends {A} (m : K kstate A) : total m -> ends_any calls_inv (lift_k m).
Proof. intros Hm s Hs. specialize (Hm (s_k s)). unfold lift_k. by destruct (m (s_k s)). Qed.

Lemma fs_ends_ {A} (V : A -> Prop) (m : K (fsys B) A) : ends fs_inv V m -> ends calls_inv V (fs m).
Proof. intros. by apply lift_f_ends, lift_x_ends. Qed.

#[local] Hint Extern 1 (ends _ _ (fs (geti _ _))) => apply fs_ends_, ends_gets : ends.
#[local] Hint Extern 1 (ends _ _ (fs (setd _ _))) => apply fs_ends_, ends_mod; by intros : ends.
#[local] Hint Extern 1 (ends _ _ (fs (lift_l _))) => apply fs_ends_, lift_l_ends; solve [eauto with ends] : ends.
#[local] Hint Extern 2 (ends _ _ (fs _)) => apply fs_ends_; solve [eauto with ends] : ends.
#[local] Hint Extern 1 (ends _ _ (lift_f (setf _ _))) => apply lift_f_ends, ends_mod; by intros : ends.
#[local] Hint Extern 2 (ends _ _ (lift_f _)) => apply lift_f_ends; solve [eauto with ends] : ends.
#[local] Hint Extern 1 (ends _ _ (getp _ _)) => apply ends_gets : ends.
#[local] Hint Extern 1 (ends _ _ (setp _ _)) => apply ends_mod; by intros : ends.
#[local] Hint Extern 1 (ends _ _ (lift_k (walkpgdir _ _ _))) => apply lift_k_ends, walkpgdir_total : ends.
#[local] Hint Extern 1 (ends _ _ (lift_k (load32 _))) => apply lift_k_ends, load32_total : ends.
#[local] Hint Extern 1 (ends _ _ (lift_k (kgets _))) => apply lift_k_ends, total_gets : ends.
#[local] Hint Extern 1 (ends _ _ (lift_k (kmod _))) => apply lift_k_ends, total_mod : ends.

Lemma myproc_ends : ends_any calls_inv myproc.
Proof. unfold myproc. ends_tac. Qed.

Lemma vstore8_ends va v : ends_any calls_inv (vstore8 va v).
Proof. unfold vstore8. ends_tac. Qed.

Lemma vload8_ends va : ends_any calls_inv (vload8 va).
Proof. unfold vload8. ends_tac. Qed.

#[local] Hint Resolve myproc_ends vstore8_ends vload8_ends : ends.

Lemma vload32_ends va : ends_any calls_inv (vload32 va).
Proof. unfold vload32. ends_tac. Qed.

Lemma vstore32_ends va v : ends_any calls_inv (vstore32 va v).
Proof. unfold vstore32. ends_tac. Qed.

Lemma vload_bytes_ends n : forall va, ends_any calls_inv (vload_bytes va n).
Proof. induction n; intros va; cbn [vload_bytes]; ends_tac. Qed.

Lemma vstore_bytes_ends l : forall va, ends_any calls_inv (vstore_bytes va l).
Proof. induction l; intros va; cbn [vstore_bytes]; ends_tac. Qed.

Lemma fetchstr_loop_ends n : forall va acc, ends_any calls_inv (fetchstr_loop va acc n).
Proof. induction n; intros va acc; cbn [fetchstr_loop]; ends_tac. Qed.

#[local] Hint Resolve vload32_ends vstore32_ends vload_bytes_ends vstore_bytes_ends fetchstr_loop_ends : ends.

Lemma fetchint_ends a : ends_any calls_inv (fetchint a).
Proof. unfold fetchint. ends_tac. Qed.

Lemma argint_ends n : ends_any calls_inv (argint n).
Proof. unfold argint. ends_tac. apply fetchint_ends. Qed.

#[local] Hint Resolve argint_ends : ends.

Lemma argptr_ends n size : ends_any calls_inv (argptr n size).
Proof. unfold argptr. ends_tac. Qed.

Lemma argstr_ends n : ends_any calls_inv (argstr n).
Proof. unfold argstr, fetchstr. ends_tac. Qed.

Lemma argfd_ends n : ends_any calls_inv (argfd n).
Proof. unfold argfd. ends_tac. Qed.

Lemma fdalloc_ends f : ends_any calls_inv (fdalloc f).
Proof. unfold fdalloc, set_ofile. ends_tac. Qed.

Lemma cwd_for_ends path : ends_any calls_inv (cwd_for path).
Proof. unfold cwd_for. ends_tac. Qed.

#[local] Hint Resolve argptr_ends argstr_ends argfd_ends fdalloc_ends cwd_for_ends : ends.

Lemma sys_namei_ends path : ends_any calls_inv (sys_namei devsw_read path).
Proof. unfold sys_namei. ends_tac. apply lift_f_ends, lift_x_ends. eauto with ends. Qed.

Lemma sys_nameiparent_ends junk path : ends_any calls_inv (sys_nameiparent devsw_read junk path).
Proof. unfold sys_nameiparent. ends_tac. Qed.

Lemma add_nlink_ends ip d : ends_any calls_inv (add_nlink ip d).
Proof. unfold add_nlink. ends_tac. Qed.

Lemma sys_begin_ends : ends_any calls_inv sys_begin.
Proof. unfold sys_begin. ends_tac. Qed.

Lemma sys_commit_ends : ends_any calls_inv sys_commit.
Proof. unfold sys_commit. ends_tac. Qed.

#[local] Hint Resolve sys_namei_ends sys_nameiparent_ends add_nlink_ends sys_begin_ends sys_commit_ends : ends.

Lemma isdirempty_ends dp : ends_any calls_inv (isdirempty devsw_read dp).
Proof. unfold isdirempty. ends_tac. Qed.

Lemma create_ends junk path t ma mi : ends_any calls_inv (create devsw_read devsw_write junk path t ma mi).
Proof. unfold create, create_dots. ends_tac. Qed.

#[local] Hint Resolve isdirempty_ends create_ends : ends.

Lemma sys_dup_ends : ends_any calls_inv sys_dup.
Proof. unfold sys_dup. ends_tac. Qed.

Lemma rw_args_ends : ends_any calls_inv rw_args.
Proof. unfold rw_args. ends_tac. Qed.

Lemma my_killed_ends : ends_any calls_inv my_killed.
Proof. unfold my_killed. ends_tac. Qed.

#[local] Hint Resolve rw_args_ends my_killed_ends : ends.

Lemma sys_read_ends : ends_any calls_inv (sys_read devsw_read).
Proof. unfold sys_read. ends_tac. Qed.

Lemma sys_write_ends : ends_any calls_inv (sys_write devsw_write).
Proof. unfold sys_write. ends_tac. Qed.

Lemma sys_close_ends : ends_any calls_inv (sys_close kend).
Proof. unfold sys_close, set_ofile. ends_tac. Qed.

Lemma sys_fstat_ends : ends_any calls_inv sys_fstat.
Proof. unfold sys_fstat, vstore_stat, vstore16. ends_tac. Qed.

Lemma sys_link_ends junk : ends_any calls_inv (sys_link devsw_read devsw_write junk).
Proof. unfold sys_link, sys_link_bad. ends_tac. Qed.

Lemma sys_unlink_ends junk : ends_any calls_inv (sys_unlink devsw_read devsw_write junk).
Proof. unfold sys_unlink, sys_unlink_bad. ends_tac. Qed.

Lemma sys_open_ends junk : ends_any calls_inv (sys_open kend devsw_read devsw_write junk).
Proof. unfold sys_open, open_inode. ends_tac. Qed.

Lemma sys_mkdir_ends junk : ends_any calls_inv (sys_mkdir devsw_read devsw_write junk).
Proof. unfold sys_mkdir, created. ends_tac. Qed.

Lemma sys_mknod_ends junk : ends_any calls_inv (sys_mknod devsw_read devsw_write junk).
Proof. unfold sys_mknod, created. ends_tac. Qed.

Lemma sys_chdir_ends : ends_any calls_inv (sys_chdir devsw_read).
Proof. unfold sys_chdir. ends_tac. Qed.

Lemma sys_pipe_ends : ends_any calls_inv (sys_pipe kend).
Proof. unfold sys_pipe, set_ofile. ends_tac. Qed.

(** pipe, read, fstat, chdir, dup, open, write, mknod, unlink, link, mkdir and close. *)
Definition file_calls : list Z := [4; 5; 8; 9; 10; 15; 16; 17; 18; 19; 20; 21].

(** C25: the file system calls end: in any state whose buffers form a ring, each of the twelve calls returns, sleeps or
    panics, and leaves such a state behind, so that the next call ends too.  No loop over blocks, directory
    entries, path elements, log sectors or chunks of a large write runs on for ever, whatever the disk
    holds, provided the device drivers end. *)
Theorem file_calls_end junk_name junk_elf fr tr junk fuel num call s :
  num ∈ file_calls -> syscalls kend devsw_read devsw_write junk_name junk_elf fr tr junk fuel num = Some call -> calls_inv s ->
  match call s with
  | Ok _ s' | Block _ s' => calls_inv s'
  | Panic _ _ => True
  | NoFuel => False
  end.
Proof.
  intros Hn Hc Hs. cut (ends_any calls_inv call).
  { intros He. specialize (He s Hs). destruct (call s); naive_solver. }
  unfold file_calls in Hn.
  repeat (apply elem_of_cons in Hn as [->|Hn]; [cbn in Hc; injection Hc as <-|]); [..|by apply elem_of_nil in Hn].
  - apply sys_pipe_ends.
  - apply sys_read_ends.
  - apply sys_fstat_ends.
  - apply sys_chdir_ends.
  - apply sys_dup_ends.
  - apply sys_open_ends.
  - apply sys_write_ends.
  - apply sys_mknod_ends.
  - apply sys_unlink_ends.
  - apply sys_link_ends.
  - apply sys_mkdir_ends.
  - apply sys_close_ends.
Qed.
End calls.

(** ** The file table *)

Section table.
Context {B : Type} {OPS : BufferOps B} {BE : BufferEnds B}.
Variable kend : Z.
Hypothesis kend_ok : KERNBASE <= kend.

(** C14: the file table is type safe.  Take a table in which every file that refers to a pipe refers to a live
    pipe and is its only file for that end, let [pages] be the free pages and the pages of the pipes, and hold no lock.  Then
    [pipealloc] returns, with both ends of a new pipe or without effect on the invariant; [filedup] of a file in use and
    [fileclose] of one that is no inode return; and each leaves such a table behind, with the same [pages]: no pipe is
    used after its page is freed, no page is freed twice and none is lost, on the error paths too.  [fileclose] of a file on an inode, whose last close runs a
    transaction, returns, sleeps or panics, if the buffers form a ring, and the table it leaves is such a table in each case. *)
Theorem file_table_type_safe (s : fls B * kstate) pages : table_safe kend s pages ->
  runs (pipealloc kend) s (fun o s' => table_safe kend s' pages /\
    match o with
    | Some (r, w) => exists p, p ∈ pages /\ pipe_pair s' r w p
    | None => True
    end) /\
  forall f x, x_file s.1 !! f = Some x -> 1 <= fi_ref x ->
    runs (File.filedup f) s (fun g s' => g = f /\ table_safe kend s' pages) /\
    (fi_type x <> FD_INODE -> runs (File.fileclose kend f) s (fun _ s' => table_safe kend s' pages)) /\
    (fi_type x = FD_INODE -> files_inv s ->
      match File.fileclose kend f s with
      | Ok _ s' | Block _ s' | Panic _ s' => tables_ok kend s' pages
      | NoFuel => False
      end).
Proof.
  intros Hs. split; [by apply pipealloc_runs|]. intros f x Hx Hr. split_and!.
  - eapply runs_conseq; [by apply (filedup_runs kend kend_ok s f x pages)|]. by intros g s' (-> & S' & _).
  - intros Ht. by apply (fileclose_runs kend kend_ok s f x pages).
  - intros Ht Hi. pose proof (fileclose_leaves kend kend_ok s f x pages Hs Hx Hr Ht) as L. pose proof (fileclose_ends kend f s Hi) as E. by destruct (File.fileclose kend f s).
Qed.
End table.

Lemma file_table_type_safe_witness :
  runs (pipealloc sample_end) empty_files (fun o s' => o <> None /\ exists l, files_ok sample_end (x_file s'.1) (x_pipe s'.1) s'.2 l (map sample_page [0; 1; 2; 3])).
Proof.
  pose proof (proj1 (file_table_type_safe sample_end ltac:(vm_compute; congruence) empty_files (map sample_page [0; 1; 2; 3]) empty_files_safe)) as H.
  eapply runs_conseq; [apply (runs_some _ _ _ H); vm_compute; reflexivity|].
  intros o s' (Ho & (_ & l & Hl) & _). split; [exact Ho|]. by exists l.
Defined.

Lemma demo_calls_inv args : calls_inv (demo_state args).
Proof. exists (rev (seq 0 NBUF)). apply binv_rinv, empty_cache_inv. Qed.

#[local] Instance demo_files : FileOps (fls bst) := kernel_files 0x80400000 (fun _ => None).
#[local] Instance demo_vm : AddrSpace := kernel_vm 0x80400000 0x80108000.

(** [read] of the demonstration process, with no device drivers. *)
Lemma file_calls_end_witness :
  match sys_read (fun _ => None) (demo_state [3; 3900; 196]) with
  | Ok _ s' | Block _ s' => calls_inv s'
  | Panic _ _ => True
  | NoFuel => False
  end.
Proof.
  apply (file_calls_end 0x80400000 (fun _ => None) (fun _ => None) ltac:(by intros) ltac:(by intros) [] [] 0 0 0 0 5).
  - unfold file_calls. set_solver.
  - reflexivity.
  - apply demo_calls_inv.
Defined.
