(* ===== verification/Ports.v ===== *)
(** * Port input and output

    The [in] and [out] instructions of x86.h reach devices, which are not part of the kernel: what they do is
    the class [Ports], and what the kernel relies on of a device is a class of laws over it.
    [D] is the state of the devices. *)

From S2P Require Import Prelude.

Class Ports (D : Type) := {
  inb : Z -> D -> Z * D;
  outb : Z -> Z -> D -> D;
  insl : Z -> nat -> D -> list Z * D;     (* as many words, as bytes *)
  outsl : Z -> list Z -> D -> D
}.

Definition CRTPORT : Z := 980.   (* 0x3d4 *)
Definition COM1 : Z := 1016.     (* 0x3f8 *)

(** The CRT controller: the port [CRTPORT] selects a register, and [CRTPORT+1] is the register selected.  Ports of
    other devices do not change its registers. *)
Class Crtc (D : Type) `{Ports D} := {
  crtc_sel : D -> Z;
  crtc_reg : D -> Z -> Z;
  crtc_in : forall d, inb (CRTPORT + 1) d = (crtc_reg d (crtc_sel d), d);
  crtc_select : forall d v, crtc_sel (outb CRTPORT v d) = v /\ forall i, crtc_reg (outb CRTPORT v d) i = crtc_reg d i;
  crtc_out : forall d v, crtc_sel (outb (CRTPORT + 1) v d) = crtc_sel d /\
    forall i, crtc_reg (outb (CRTPORT + 1) v d) i = if decide (i = crtc_sel d) then u8 v else crtc_reg d i;
  crtc_serial_in : forall d p, COM1 <= p < COM1 + 8 -> crtc_sel (inb p d).2 = crtc_sel d /\ forall i, crtc_reg (inb p d).2 i = crtc_reg d i;
  crtc_serial_out : forall d p v, COM1 <= p < COM1 + 8 -> crtc_sel (outb p v d) = crtc_sel d /\ forall i, crtc_reg (outb p v d) i = crtc_reg d i;
  crtc_byte : forall d i, 0 <= crtc_reg d i < 256
}.

(** The position of the cursor in registers 14 and 15. *)
Definition cursor {D} `{Crtc D} (d : D) : Z := crtc_reg d 14 * 256 + crtc_reg d 15.
