(* ===== verification/Printf.v ===== *)
(** * Formatted output: printf.c, and the conversion of integers it shares with console.c

    A string is the list of its bytes without the final 0.  [printf] writes one byte at a time; its
    result is the bytes written, in order.  An argument is a word, or the string a [char*] points to
    (none for a null pointer); an argument of the other kind, or one that was not passed, is undefined. *)

From S2P Require Import Prelude.

(** "0123456789ABCDEF" and, in console.c, "0123456789abcdef". *)
Definition digits_upper : list Z := [48; 49; 50; 51; 52; 53; 54; 55; 56; 57; 65; 66; 67; 68; 69; 70].
Definition digits_lower : list Z := [48; 49; 50; 51; 52; 53; 54; 55; 56; 57; 97; 98; 99; 100; 101; 102].

(** The [do] loop of [printint]: [buf] from index 0 on, at most [room] more bytes. *)
Fixpoint digit_loop (digits : list Z) (base x : Z) (room : nat) : option (list Z) :=
  match room with
  | O => None
  | S room' =>
      let d := nth (Z.to_nat (x mod base)) digits 0 in
      if x / base =? 0 then Some [d]
      else match digit_loop digits base (x / base) room' with
           | Some l => Some (d :: l)
           | None => None
           end
  end.

Definition minus : Z := 45.

(** What [printint] prints, or none if it stores outside [buf[16]].  [xx] is an [int]. *)
Definition printint_bytes (digits : list Z) (xx base : Z) (sgn : bool) : option (list Z) :=
  let neg := sgn && (xx <? 0) in
  let x := if neg then u32 (- xx) else u32 xx in
  match digit_loop digits base x 16 with
  | None => None
  | Some l =>
      if neg then if (length l <? 16)%nat then Some (rev (l ++ [minus])) else None
      else Some (rev l)
  end.

Inductive arg := AWord (v : Z) | AStr (s : option (list Z)).

(** "(null)" *)
Definition null_string : list Z := [40; 110; 117; 108; 108; 41].
Definition percent : Z := 37.

(** The loop of [printf] in [state]; the bytes written. *)
Fixpoint printf_loop (state : Z) (fmt : list Z) (args : list arg) : option (list Z) :=
  match fmt with
  | [] => Some []
  | ch :: fmt' =>
      let c := u8 ch in
      if state =? 0 then
        if c =? percent then printf_loop percent fmt' args
        else match printf_loop 0 fmt' args with Some l => Some (c :: l) | None => None end
      else
        let emit (bytes : option (list Z)) (args' : list arg) :=
          match bytes with
          | Some b => match printf_loop 0 fmt' args' with Some l => Some (b ++ l) | None => None end
          | None => None
          end in
        if c =? 100 then
          match args with AWord v :: args' => emit (printint_bytes digits_upper (s32 v) 10 true) args' | _ => None end
        else if (c =? 120) || (c =? 112) then
          match args with AWord v :: args' => emit (printint_bytes digits_upper (s32 v) 16 false) args' | _ => None end
        else if c =? 115 then
          match args with AStr s :: args' => emit (Some (default null_string s)) args' | _ => None end
        else if c =? 99 then
          match args with AWord v :: args' => emit (Some [u8 v]) args' | _ => None end
        else if c =? percent then emit (Some [c]) args
        else emit (Some [percent; c]) args
  end.

Definition printf (fmt : list Z) (args : list arg) : option (list Z) := printf_loop 0 fmt args.

(** ** The digits denote the number *)

(** The value of a numeral whose digits are looked up in a table. *)
Definition digit_value (digits : list Z) (c : Z) : Z :=
  match list_find (fun d => d = c) digits with Some (i, _) => Z.of_nat i | None => 0 end.
Definition numeral (digits : list Z) (base : Z) (l : list Z) : Z := fold_left (fun v c => v * base + digit_value digits c) l 0.

Lemma numeral_snoc digits base l c : numeral digits base (l ++ [c]) = numeral digits base l * base + digit_value digits c.
Proof. unfold numeral. by rewrite fold_left_app. Qed.

Lemma list_find_nodup (l : list Z) i x : NoDup l -> l !! i = Some x -> list_find (fun d => d = x) l = Some (i, x).
Proof.
  intros Hnd Hi. apply list_find_Some. split; [done|]. split; [done|]. intros j y Hj Hlt ->.
  pose proof (NoDup_lookup _ _ _ _ Hnd Hi Hj). lia.
Qed.

Lemma digit_value_nth digits i : NoDup digits -> (i < length digits)%nat -> digit_value digits (nth i digits 0) = Z.of_nat i.
Proof.
  intros Hnd Hi. destruct (lookup_lt_is_Some_2 _ _ Hi) as [x Hx]. rewrite (nth_lookup_Some _ _ _ _ Hx). unfold digit_value.
  by rewrite (list_find_nodup _ i).
Qed.

Lemma digit_value_mod digits base x : NoDup digits -> 2 <= base <= Z.of_nat (length digits) ->
  digit_value digits (nth (Z.to_nat (x mod base)) digits 0) = x mod base.
Proof.
  intros Hnd Hb. pose proof (Z.mod_pos_bound x base ltac:(lia)) as Hm. revert Hm. generalize (x mod base). intros m Hm.
  rewrite digit_value_nth by (done || lia). lia.
Qed.

Lemma digit_loop_value digits base room : NoDup digits -> 2 <= base <= Z.of_nat (length digits) ->
  forall x, 0 <= x < base ^ Z.of_nat (S room) -> exists l, digit_loop digits base x (S room) = Some l /\ numeral digits base (rev l) = x /\
    (x = 0 \/ base ^ (Z.of_nat (length l) - 1) <= x).
Proof.
  intros Hnd Hb. induction room as [|room IH]; intros x Hx.
  all: rewrite Nat2Z.inj_succ, Z.pow_succ_r in Hx by lia.
  all: cbn [digit_loop]; pose proof (Z.div_mod x base ltac:(lia)) as Ex;
    assert (Hd : digit_value digits (nth (Z.to_nat (x mod base)) digits 0) = x mod base) by (by apply digit_value_mod).
  - assert (Ez : x / base = 0) by (apply Z.div_small; simpl in Hx; lia). rewrite Ez in *. cbn [Z.eqb].
    eexists. split; [done|]. split; [unfold numeral; simpl; rewrite Hd; lia|]. simpl. destruct (decide (x = 0)); [by left|right; lia].
  - destruct (x / base =? 0) eqn:E; bool_hyps.
    + eexists. split; [done|]. split; [unfold numeral; simpl; rewrite Hd; lia|]. simpl. destruct (decide (x = 0)); [by left|right; lia].
    + destruct (IH (x / base)) as (l & El & Hv & Hlen); [split; [apply Z.div_pos; lia|apply Z.div_lt_upper_bound; lia]|].
      cbn [digit_loop] in El. rewrite El. exists (nth (Z.to_nat (x mod base)) digits 0 :: l). split; [done|]. cbn [rev].
      rewrite numeral_snoc, Hv, Hd. split; [lia|]. right.
      destruct Hlen as [Hz|Hlen]; [lia|]. cbn [length]. replace (Z.of_nat (S (length l)) - 1) with (Z.succ (Z.of_nat (length l) - 1)) by lia.
      pose proof (Z.div_pos x base ltac:(lia) ltac:(lia)). destruct l as [|d l]; [simpl in Hv; unfold numeral in Hv; simpl in Hv; lia|].
      rewrite Z.pow_succ_r by (cbn [length]; lia). pose proof (Z.mod_pos_bound x base ltac:(lia)). nia.
Qed.

(** The decimal or hexadecimal value of what [printint] prints, a leading minus sign included. *)
Definition read_int (digits : list Z) (base : Z) (l : list Z) : Z :=
  match l with
  | c :: l' => if c =? minus then - numeral digits base l' else numeral digits base l
  | [] => 0
  end.

Lemma digits_nodup : NoDup digits_upper /\ NoDup digits_lower.
Proof. split; apply (bool_decide_unpack _); by vm_compute. Qed.

Lemma digit_loop_in digits base room : forall x l, 2 <= base <= Z.of_nat (length digits) -> digit_loop digits base x room = Some l -> Forall (fun c => c ∈ digits) l.
Proof.
  induction room as [|room IH]; intros x l Hb H; [done|]. cbn [digit_loop] in H.
  assert (Hd : nth (Z.to_nat (x mod base)) digits 0 ∈ digits).
  { pose proof (Z.mod_pos_bound x base ltac:(lia)) as Hm. revert Hm. generalize (x mod base). intros m Hm.
    destruct (lookup_lt_is_Some_2 digits (Z.to_nat m)) as [c Hc]; [lia|]. rewrite (nth_lookup_Some _ _ _ _ Hc). by eapply list_elem_of_lookup_2. }
  destruct (x / base =? 0); [injection H as <-; by repeat constructor|].
  destruct (digit_loop digits base (x / base) room) as [l'|] eqn:E; [|done]. injection H as <-. constructor; [done|]. by eapply IH.
Qed.

Lemma read_digits digits base l : minus ∉ digits -> Forall (fun c => c ∈ digits) l -> read_int digits base (rev l) = numeral digits base (rev l).
Proof.
  intros Hm Hl. unfold read_int. destruct (rev l) as [|c r] eqn:E; [done|]. destruct (Z.eqb_spec c minus) as [->|]; [|done].
  exfalso. apply Hm. rewrite Forall_forall in Hl. apply Hl. apply list_elem_of_In, in_rev. rewrite E. by left.
Qed.

(** The digits of a word in base 10 or 16 fit the buffer with the sign. *)
Lemma word_digits digits base x : NoDup digits -> length digits = 16%nat -> base = 10 \/ base = 16 -> 0 <= x < 4294967296 ->
  exists l, digit_loop digits base x 16 = Some l /\ numeral digits base (rev l) = x /\ (length l < 16)%nat /\ Forall (fun c => c ∈ digits) l.
Proof.
  intros Hnd Hlen Hb Hx. destruct (digit_loop_value digits base 15 Hnd ltac:(lia) x) as (l & El & Hv & Hs).
  { destruct Hb as [->| ->]; change (Z.of_nat 16) with 16; lia. }
  exists l. split_and!; try done; [|eapply digit_loop_in; [|exact El]; lia].
  destruct (decide (length l < 16)%nat) as [|Hge]; [done|]. exfalso. destruct Hs as [->|Hs].
  - destruct Hb as [->| ->]; cbn in El; injection El as <-; simpl in Hge; lia.
  - assert (base ^ 15 <= base ^ (Z.of_nat (length l) - 1)) by (apply Z.pow_le_mono_r; lia). destruct Hb as [->| ->]; lia.
Qed.

Lemma int_digits digits xx : digits = digits_upper \/ digits = digits_lower -> -2147483648 <= xx < 2147483648 ->
  (exists l, printint_bytes digits xx 10 true = Some l /\ read_int digits 10 l = xx) /\
  (exists l, printint_bytes digits xx 16 false = Some l /\ read_int digits 16 l = u32 xx).
Proof.
  intros Hd Hx. pose proof digits_nodup as [N1 N2].
  assert (Hp : NoDup digits /\ length digits = 16%nat /\ minus ∉ digits).
  { destruct Hd as [->| ->]; split_and!; try done; apply (bool_decide_unpack _); by vm_compute. }
  destruct Hp as (Hnd & Hlen & Hm). unfold printint_bytes. split.
  - destruct (xx <? 0) eqn:E; cbn [andb]; bool_hyps.
    + destruct (word_digits digits 10 (u32 (- xx)) Hnd Hlen ltac:(by left) (u32_range _)) as (l & -> & Hv & Hl & _).
      rewrite (proj2 (Nat.ltb_lt _ _)) by done. eexists. split; [done|]. rewrite rev_app_distr. cbn [rev app read_int].
      rewrite Z.eqb_refl, Hv. rewrite u32_small; lia.
    + destruct (word_digits digits 10 (u32 xx) Hnd Hlen ltac:(by left) (u32_range _)) as (l & -> & Hv & Hl & Hin).
      eexists. split; [done|]. rewrite read_digits, Hv by done. apply u32_small. lia.
  - cbn [andb]. destruct (word_digits digits 16 (u32 xx) Hnd Hlen ltac:(by right) (u32_range _)) as (l & -> & Hv & Hl & Hin).
    eexists. split; [done|]. by rewrite read_digits.
Qed.

(** [printint] prints a numeral that denotes its argument, in decimal with its sign and in hexadecimal as an unsigned word, and
    stays inside its buffer, for every [int]. *)
Theorem printint_roundtrip digits xx : digits = digits_upper \/ digits = digits_lower -> -2147483648 <= xx < 2147483648 ->
  (exists l, printint_bytes digits xx 10 true = Some l /\ read_int digits 10 l = xx) /\
  (exists l, printint_bytes digits xx 16 false = Some l /\ read_int digits 16 l = u32 xx).
Proof. apply int_digits. Qed.

Lemma printint_roundtrip_witness : -2147483648 <= -2147483648 < 2147483648 /\
  exists l, printint_bytes digits_lower (-2147483648) 10 true = Some l /\ read_int digits_lower 10 l = -2147483648.
Proof.
  split; [lia|]. destruct (printint_roundtrip digits_lower (-2147483648)) as [H _]; [right; reflexivity|lia|exact H].
Defined.
