(* ===== verification/Console.v ===== *)
(** * The console: console.c, and the serial port of uart.c

    The state of the console is the flags [panicked] and [cons.locking], the ring of input characters, the
    text memory of the screen and the devices behind the ports.  A character is an [int]; the text memory is the 25
    rows of 80 cells, and a store outside it is undefined.  A CPU that finds
    [panicked] set stops, which is the result [Panic] here.

    [wakeup(&input.r)] is counted: the readers that sleep are the threads of ConsoleSys.v.  [procdump] is given what it
    prints of the process table.  [consoleread] returns what it has copied, or, when
    it sleeps, what it has copied so far and how many bytes are still wanted. *)

From S2P Require Import Prelude Proc Bio BufferCache Bytes Log Fs Ports Printf.

Definition INPUT_BUF : Z := 128.
Definition BACKSPACE : Z := 256.
Definition ctrl_d : Z := 4.
Definition ctrl_h : Z := 8.
Definition ctrl_p : Z := 16.
Definition ctrl_u : Z := 21.
Definition ch_del : Z := 127.
Definition nl : Z := 10.
Definition cr : Z := 13.

Record con (D : Type) := Con {
  c_panicked : bool;
  c_locking : bool;
  c_uart : bool;
  c_buf : list Z;    (* input.buf *)
  c_r : Z;
  c_w : Z;
  c_e : Z;
  c_wakeups : nat;   (* the calls of wakeup(&input.r) so far *)
  c_crt : list Z;
  c_dev : D
}.
Arguments Con {D}.
Arguments c_panicked {D}.
Arguments c_locking {D}.
Arguments c_uart {D}.
Arguments c_buf {D}.
Arguments c_r {D}.
Arguments c_w {D}.
Arguments c_e {D}.
Arguments c_wakeups {D}.
Arguments c_crt {D}.
Arguments c_dev {D}.

Section Console.
Context {D : Type} `{Ports D} {B : Type} {OPS : BufferOps B}.

Abbreviation S := (con D * fsys B)%type.

Definition set_panicked (v : bool) (s : con D) : con D := Con v (c_locking s) (c_uart s) (c_buf s) (c_r s) (c_w s) (c_e s) (c_wakeups s) (c_crt s) (c_dev s).
Definition set_locking (v : bool) (s : con D) : con D := Con (c_panicked s) v (c_uart s) (c_buf s) (c_r s) (c_w s) (c_e s) (c_wakeups s) (c_crt s) (c_dev s).
Definition set_input (b : list Z) (r w e : Z) (s : con D) : con D := Con (c_panicked s) (c_locking s) (c_uart s) b r w e (c_wakeups s) (c_crt s) (c_dev s).
Definition set_crt (v : list Z) (s : con D) : con D := Con (c_panicked s) (c_locking s) (c_uart s) (c_buf s) (c_r s) (c_w s) (c_e s) (c_wakeups s) v (c_dev s).
Definition set_dev (v : D) (s : con D) : con D := Con (c_panicked s) (c_locking s) (c_uart s) (c_buf s) (c_r s) (c_w s) (c_e s) (c_wakeups s) (c_crt s) v.

Definition wake_readers (s : con D) : con D := Con (c_panicked s) (c_locking s) (c_uart s) (c_buf s) (c_r s) (c_w s) (c_e s) (Datatypes.S (c_wakeups s)) (c_crt s) (c_dev s).

#[global] Instance con_locks : HasLocks S.
Proof.
  refine {| held := fun s => held s.2; set_held := fun l s => (s.1, set_held l s.2) |}; intros.
  - apply held_set_held.
  - destruct s as [c f]. cbn [fst snd]. by rewrite set_held_held.
  - cbn [fst snd]. by rewrite set_held_set_held.
Defined.

Definition getc {A} (f : con D -> A) : K S A := kgets (fun s => f s.1).
Definition setc (f : con D -> con D) : K S unit := kmod (fun s => (f s.1, s.2)).
Definition k_inb (p : Z) : K S Z := fun s => let '(v, d) := inb p (c_dev s.1) in Ok v (set_dev d s.1, s.2).
Definition k_outb (p v : Z) : K S unit := setc (fun c => set_dev (outb p v (c_dev c)) c).

(** A call into the file system. *)
Definition lift_i {A} (m : K (fsys B) A) : K S A := fun s =>
  match m s.2 with
  | Ok a f => Ok a (s.1, f)
  | Panic msg f => Panic msg (s.1, f)
  | Block c f => Block c (s.1, f)
  | NoFuel => NoFuel
  end.

(** ** uart.c *)

(** The loop that waits for the transmitter, at most 128 times. *)
Fixpoint uart_wait (n : nat) : K S unit :=
  match n with
  | O => kret tt
  | Datatypes.S n' =>
      let* st := k_inb (COM1 + 5) in
      if has st 32 then kret tt else uart_wait n'
  end.

Definition uartputc (c : Z) : K S unit :=
  let* u := getc c_uart in
  when u do
    (uart_wait 128 ;;;
     k_outb (COM1 + 0) c).

(** -1 when there is nothing to read. *)
Definition uartgetc : K S Z :=
  let* u := getc c_uart in
  if negb u then kret (-1)
  else
    let* st := k_inb (COM1 + 5) in
    if negb (has st 1) then kret (-1) else k_inb (COM1 + 0).

(** ** Output *)

Definition CELLS : Z := 25 * 80.

Definition crt_store (i v : Z) : K S unit :=
  if (0 <=? i) && (i <? CELLS) then setc (fun c => set_crt (<[ Z.to_nat i := v ]> (c_crt c)) c)
  else kpanic "undefined: crt index".

(** [memmove] of 23 rows up and [memset] of the cells from [pos] to the end of row 24. *)
Definition scroll (pos : Z) (crt : list Z) : list Z :=
  let moved := splice 0 (take (23 * 80) (drop 80 crt)) crt in
  splice (Z.to_nat pos) (replicate (Z.to_nat (24 * 80 - pos)) 0) moved.

(** [cgaputc] after it has read the position of the cursor. *)
Definition cga_at (c pos : Z) : K S unit :=
  let* pos :=
    (if c =? nl then kret (pos + (80 - pos mod 80))
     else if c =? BACKSPACE then kret (if 0 <? pos then pos - 1 else pos)
     else
       crt_store pos (Z.lor (Z.land c 255) 1792) ;;;
       kret (pos + 1)) in
  let* pos :=
    (if 24 <=? pos / 80 then
       setc (fun s => set_crt (scroll (pos - 80) (c_crt s)) s) ;;;
       kret (pos - 80)
     else kret pos) in
  k_outb CRTPORT 14 ;;;
  k_outb (CRTPORT + 1) (Z.shiftr pos 8) ;;;
  k_outb CRTPORT 15 ;;;
  k_outb (CRTPORT + 1) pos ;;;
  crt_store pos (Z.lor 32 1792).

Definition cgaputc (c : Z) : K S unit :=
  k_outb CRTPORT 14 ;;;
  let* hi := k_inb (CRTPORT + 1) in
  k_outb CRTPORT 15 ;;;
  let* lo := k_inb (CRTPORT + 1) in
  cga_at c (Z.lor (Z.shiftl hi 8) lo).

Definition consputc (c : Z) : K S unit :=
  let* p := getc c_panicked in
  if (p : bool) then kpanic "panicked"
  else
    (if c =? BACKSPACE then
       uartputc 8 ;;; uartputc 32 ;;; uartputc 8
     else uartputc c) ;;;
    cgaputc c.

Definition con_printint (xx base : Z) (sign : bool) : K S unit :=
  match printint_bytes digits_lower xx base sign with
  | Some l => for_each l consputc
  | None => kpanic "undefined: buf"
  end.

(** The loop of [cprintf]. *)
Fixpoint cprintf_loop (fmt : list Z) (args : list arg) : K S unit :=
  match fmt with
  | [] => kret tt
  | ch :: fmt1 =>
      let c := Z.land ch 255 in
      if negb (c =? percent) then
        consputc c ;;;
        cprintf_loop fmt1 args
      else
        match fmt1 with
        | [] => kret tt
        | ch1 :: fmt2 =>
            let c := Z.land ch1 255 in
            if c =? 100 then
              match args with
              | AWord v :: args' => con_printint (s32 v) 10 true ;;; cprintf_loop fmt2 args'
              | _ => kpanic "undefined: argument"
              end
            else if (c =? 120) || (c =? 112) then
              match args with
              | AWord v :: args' => con_printint (s32 v) 16 false ;;; cprintf_loop fmt2 args'
              | _ => kpanic "undefined: argument"
              end
            else if c =? 115 then
              match args with
              | AStr s :: args' => for_each (default null_string s) consputc ;;; cprintf_loop fmt2 args'
              | _ => kpanic "undefined: argument"
              end
            else if c =? percent then
              consputc percent ;;;
              cprintf_loop fmt2 args
            else
              consputc percent ;;;
              consputc c ;;;
              cprintf_loop fmt2 args
        end
  end.

Definition cprintf (fmt : list Z) (args : list arg) : K S unit :=
  let* locking := getc c_locking in
  (when locking do acquire lk_cons) ;;;
  cprintf_loop fmt args ;;;
  (when locking do release lk_cons).

(** The C strings of [panic]; [pcs] are the ten words [getcallerpcs] finds. *)
Definition panic_fmt : list Z := [99; 112; 117; 37; 100; 58; 32; 112; 97; 110; 105; 99; 58; 32].   (* "cpu%d: panic: " *)
Definition panic (cpuid : Z) (msg : list Z) (pcs : list Z) : K S unit :=
  setc (set_locking false) ;;;
  cprintf panic_fmt [AWord cpuid] ;;;
  cprintf msg [] ;;;
  cprintf [nl] [] ;;;
  for_each pcs (fun pc => cprintf [32; 37; 112] [AWord pc]) ;;;
  setc (set_panicked true) ;;;
  kpanic "panic".

(** The names of the states in [procdump], six characters each. *)
Definition state_name (st : procstate) : list Z :=
  match st with
  | UNUSED => [117; 110; 117; 115; 101; 100]
  | EMBRYO => [101; 109; 98; 114; 121; 111]
  | SLEEPING => [115; 108; 101; 101; 112; 32]
  | RUNNABLE => [114; 117; 110; 98; 108; 101]
  | RUNNING => [114; 117; 110; 32; 32; 32]
  | ZOMBIE => [122; 111; 109; 98; 105; 101]
  end.

(** A slot of the process table as [procdump] sees it; [pr_pcs] are the words [getcallerpcs] finds on the kernel stack. *)
Record prow := Prow { pr_state : procstate; pr_pid : Z; pr_name : list Z; pr_pcs : list Z }.

(** The words before the first 0. *)
Fixpoint until_zero (l : list Z) : list Z :=
  match l with
  | x :: l' => if x =? 0 then [] else x :: until_zero l'
  | [] => []
  end.

Definition procdump (rows : list prow) : K S unit :=
  for_each rows (fun p =>
    if bool_decide (pr_state p = UNUSED) then kret tt
    else
      cprintf [37; 100; 32; 37; 115; 32; 37; 115] [AWord (pr_pid p); AStr (Some (state_name (pr_state p))); AStr (Some (pr_name p))] ;;;
      (when bool_decide (pr_state p = SLEEPING) do
         for_each (until_zero (pr_pcs p)) (fun pc => cprintf [32; 37; 112] [AWord pc])) ;;;
      cprintf [nl] []).

Definition consolewrite (ip : nat) (buf : list Z) (n : Z) : K S Z :=
  lift_i (iunlock ip) ;;;
  acquire lk_cons ;;;
  for_each (seqZ 0 n) (fun i => consputc (Z.land (nth (Z.to_nat i) buf 0) 255)) ;;;
  release lk_cons ;;;
  lift_i (ilock ip) ;;;
  kret n.

(** ** Input *)

Definition slot (i : Z) : nat := Z.to_nat (i mod INPUT_BUF).
Definition input_at (c : con D) (i : Z) : Z := nth (slot i) (c_buf c) 0.

Definition set_e (e : Z) : K S unit := setc (fun c => set_input (c_buf c) (c_r c) (c_w c) e c).

(** The loop of [^U]; the distance from [input.w] bounds it. *)
Fixpoint kill_line (fuel : nat) : K S unit :=
  let* c := getc (fun c => c) in
  if negb (c_e c =? c_w c) && negb (input_at c (u32 (c_e c - 1)) =? nl) then
    match fuel with
    | O => knofuel
    | Datatypes.S fuel' =>
        set_e (u32 (c_e c - 1)) ;;;
        consputc BACKSPACE ;;;
        kill_line fuel'
    end
  else kret tt.

(** [input.buf] holds [char]s. *)
Definition input_char (rows : list prow) (c : Z) : K S unit :=
  if c =? ctrl_p then procdump rows
  else if c =? ctrl_u then
    let* s := getc (fun c => c) in
    kill_line (Datatypes.S (Z.to_nat (u32 (c_e s - c_w s))))
  else if (c =? ctrl_h) || (c =? ch_del) then
    let* s := getc (fun c => c) in
    when negb (c_e s =? c_w s) do
      (set_e (u32 (c_e s - 1)) ;;;
       consputc BACKSPACE)
  else
    let* s := getc (fun c => c) in
    when negb (c =? 0) && (u32 (c_e s - c_r s) <? INPUT_BUF) do
      (let c := if c =? cr then nl else c in
       setc (fun s => set_input (<[ slot (c_e s) := s8 c ]> (c_buf s)) (c_r s) (c_w s) (u32 (c_e s + 1)) s) ;;;
       consputc c ;;;
       let* s := getc (fun c => c) in
       when (c =? nl) || (c =? ctrl_d) || (c_e s =? u32 (c_r s + INPUT_BUF)) do
         (setc (fun s => set_input (c_buf s) (c_r s) (c_e s) (c_e s) s) ;;;
          setc wake_readers)).

(** [cs] are the characters [getc] returns before a negative one. *)
Definition consoleintr (rows : list prow) (cs : list Z) : K S unit :=
  acquire lk_input ;;;
  for_each cs (input_char rows) ;;;
  release lk_input.

Inductive cout := CDone (r : Z) | CSleep (want : Z).

(** The loop of [consoleread] from [n] bytes wanted of [target], with [acc] stored at [dst]: why it stops. *)
Fixpoint read_input (killed : bool) (target n : Z) (acc : list Z) (fuel : nat) : K S (cout * list Z) :=
  if 0 <? n then
    match fuel with
    | O => knofuel
    | Datatypes.S fuel' =>
        let* s := getc (fun c => c) in
        if c_r s =? c_w s then
          if killed then kret (CDone (-1), acc) else kret (CSleep n, acc)
        else
          let c := input_at s (c_r s) in
          setc (fun s => set_input (c_buf s) (u32 (c_r s + 1)) (c_w s) (c_e s) s) ;;;
          if c =? ctrl_d then
            (when n <? target do setc (fun s => set_input (c_buf s) (u32 (c_r s - 1)) (c_w s) (c_e s) s)) ;;;
            kret (CDone (target - n), acc)
          else if c =? nl then kret (CDone (target - (n - 1)), acc ++ [c])
          else read_input killed target (n - 1) (acc ++ [c]) fuel'
    end
  else kret (CDone (target - n), acc).

(** What [consoleread] does with [input.lock] held, when [n] bytes of [target] are still wanted: [n = target] at the
    call, less when it goes on after a sleep.  The lock is free while it sleeps. *)
Definition read_locked (killed : bool) (target n : Z) (acc : list Z) : K S (cout * list Z) :=
  acquire lk_input ;;;
  let* r := read_input killed target n acc (Z.to_nat n) in
  release lk_input ;;;
  kret r.

Definition consoleread_from (killed : bool) (ip : nat) (target n : Z) (acc : list Z) : K S (cout * list Z) :=
  let* r := read_locked killed target n acc in
  match r.1 with
  | CDone _ => lift_i (ilock ip)
  | CSleep _ => kret tt
  end ;;;
  kret r.

Definition consoleread (killed : bool) (ip : nat) (n : Z) : K S (cout * list Z) :=
  lift_i (iunlock ip) ;;;
  consoleread_from killed ip n n [].
End Console.
