(* ===== verification/ConsoleSpec.v ===== *)
(** * The console as a terminal: what console.c guarantees

    On a CRT controller that keeps its registers, output never leaves the text memory ([screen_ok] is invariant), and the ring of
    input characters implements a line discipline: a list of finished characters and a line that is being edited. *)

From S2P Require Import Prelude Mmu Proc Bio BufferCache Bytes Log Fs Ports Printf Console.

Section ConsoleSpec.
Context {D : Type} {PO : Ports D} {CR : Crtc D} {B : Type} {OPS : BufferOps B}.

Abbreviation St := (con D * fsys B)%type.
Implicit Types (s : St) (c : con D) (d : D).

(** ** The screen *)

Record screen_ok c : Prop := {
  so_live : c_panicked c = false;
  so_cells : length (c_crt c) = Z.to_nat CELLS;
  so_cursor : 0 <= cursor (c_dev c) < 24 * 80
}.

(** Output changes the screen and the devices only. *)
Definition out_frame s s' : Prop :=
  c_panicked s'.1 = c_panicked s.1 /\ c_locking s'.1 = c_locking s.1 /\ c_uart s'.1 = c_uart s.1 /\ c_buf s'.1 = c_buf s.1 /\
  c_r s'.1 = c_r s.1 /\ c_w s'.1 = c_w s.1 /\ c_e s'.1 = c_e s.1 /\ c_wakeups s'.1 = c_wakeups s.1 /\ s'.2 = s.2.

Lemma out_frame_refl s : out_frame s s.
Proof. by split_and!. Qed.

Lemma out_frame_trans s1 s2 s3 : out_frame s1 s2 -> out_frame s2 s3 -> out_frame s1 s3.
Proof. unfold out_frame. intuition congruence. Qed.

(** Steps that keep the screen and change nothing but output compose. *)
Definition prints_in (P : fsys B -> Prop) {A} (m : K St A) : Prop := forall s, P s.2 -> screen_ok s.1 -> runs m s (fun _ s' => screen_ok s'.1 /\ out_frame s s').

Abbreviation prints := (prints_in (fun _ => True)).

Lemma prints_bind P {A C} (m : K St A) (k : A -> K St C) : prints_in P m -> (forall a, prints_in P (k a)) -> prints_in P (kbind m k).
Proof.
  intros Hm Hk s HP Hs. apply runs_bind. eapply runs_conseq; [by apply Hm|]. intros a s1 [H1 F1].
  eapply runs_conseq; [apply Hk; [|done]; by destruct F1 as (_ & _ & _ & _ & _ & _ & _ & _ & ->)|]. intros b s2 [H2 F2]. split; [done|by eapply out_frame_trans].
Qed.

Lemma prints_ret P {A} (a : A) : prints_in P (kret a).
Proof. intros s _ Hs. apply runs_ret. split; [done|apply out_frame_refl]. Qed.

Lemma prints_for_each P {X} (l : list X) (f : X -> K St unit) : (forall x, prints_in P (f x)) -> prints_in P (for_each l f).
Proof. intros Hf. induction l as [|x l IH]; cbn [for_each]; [apply prints_ret|]. by apply prints_bind. Qed.

(** The registers of the controller are those of [d]. *)
Definition same_regs d d' : Prop := crtc_sel d' = crtc_sel d /\ forall i, crtc_reg d' i = crtc_reg d i.

Lemma cursor_same d d' : same_regs d d' -> cursor d' = cursor d.
Proof. intros [_ H]. unfold cursor. by rewrite !H. Qed.

Lemma runs_outb p v s (Q : unit -> St -> Prop) : Q tt (Console.set_dev (outb p v (c_dev s.1)) s.1, s.2) -> runs (k_outb p v) s Q.
Proof. done. Qed.

Lemma runs_inb p s (Q : Z -> St -> Prop) : Q (inb p (c_dev s.1)).1 (Console.set_dev (inb p (c_dev s.1)).2 s.1, s.2) -> runs (k_inb p) s Q.
Proof. unfold runs, k_inb. by destruct (inb p (c_dev s.1)). Qed.

(** The two registers of the cursor, as [cgaputc] reads and writes them. *)
Definition select_read d : D := outb CRTPORT 15 (outb CRTPORT 14 d).
Definition write_cursor (pos : Z) d : D := outb (CRTPORT + 1) pos (outb CRTPORT 15 (outb (CRTPORT + 1) (Z.shiftr pos 8) (outb CRTPORT 14 d))).

Lemma select_regs d v : crtc_sel (outb CRTPORT v d) = v /\ forall i, crtc_reg (outb CRTPORT v d) i = crtc_reg d i.
Proof. apply crtc_select. Qed.

Lemma write_cursor_spec pos d : 0 <= pos < 65536 -> cursor (write_cursor pos d) = pos.
Proof.
  intros Hp. unfold cursor, write_cursor. set (d1 := outb CRTPORT 14 d). set (d2 := outb (CRTPORT + 1) (Z.shiftr pos 8) d1). set (d3 := outb CRTPORT 15 d2).
  destruct (crtc_select d 14) as [S1 _]. fold d1 in S1. destruct (crtc_out d1 (Z.shiftr pos 8)) as [S2 R2]. fold d2 in S2, R2.
  destruct (crtc_select d2 15) as [S3 R3]. fold d3 in S3, R3. destruct (crtc_out d3 pos) as [_ R4].
  rewrite !R4, S3. rewrite decide_False, decide_True, R3, R2, S1, decide_True by done. rewrite Z.shiftr_div_pow2 by lia. change (2 ^ 8) with 256.
  unfold u8. mlia.
Qed.

(** [cgaputc] reads the cursor, and goes on with its position. *)
Lemma read_cursor_runs {A} s (k : Z -> K St A) Q :
  runs (k (cursor (c_dev s.1))) (Console.set_dev (select_read (c_dev s.1)) s.1, s.2) Q ->
  runs (k_outb CRTPORT 14 ;;;
        let* hi := k_inb (CRTPORT + 1) in
        k_outb CRTPORT 15 ;;;
        let* lo := k_inb (CRTPORT + 1) in
        k (Z.lor (Z.shiftl hi 8) lo)) s Q.
Proof.
  intros Hk. apply runs_bind, runs_outb, runs_bind, runs_inb, runs_bind, runs_outb, runs_bind, runs_inb. cbn [fst snd c_dev Console.set_dev].
  set (d := c_dev s.1) in *. set (d1 := outb CRTPORT 14 d). destruct (crtc_select d 14) as [S1 R1]. fold d1 in S1, R1.
  rewrite (crtc_in d1). cbn [fst snd]. set (d2 := outb CRTPORT 15 d1). destruct (crtc_select d1 15) as [S2 R2]. fold d2 in S2, R2.
  rewrite (crtc_in d2). cbn [fst snd]. rewrite S1, S2, R2, !R1. rewrite lor_disjoint by (try lia; apply (crtc_byte d)).
  exact Hk.
Qed.

Lemma crt_store_runs i v s (Q : unit -> St -> Prop) : 0 <= i < CELLS ->
  Q tt (set_crt (<[ Z.to_nat i := v ]> (c_crt s.1)) s.1, s.2) -> runs (crt_store i v) s Q.
Proof.
  intros Hi HQ. unfold crt_store. rewrite (proj2 (Z.leb_le _ _)), (proj2 (Z.ltb_lt _ _)) by lia. done.
Qed.

Lemma length_scroll pos crt : length crt = Z.to_nat CELLS -> 0 <= pos < 24 * 80 -> length (scroll pos crt) = Z.to_nat CELLS.
Proof.
  intros Hl Hp. unfold CELLS in *. unfold scroll. assert (L1 : length (splice 0 (take (23 * 80) (drop 80 crt)) crt) = Z.to_nat (25 * 80)).
  { rewrite length_splice; [done|]. rewrite length_take, length_drop. lia. }
  rewrite length_splice; [done|]. rewrite length_replicate, L1. lia.
Qed.

Lemma prints_cgaputc ch : prints (cgaputc ch).
Proof.
  intros s _ [S1 S2 S3]. unfold cgaputc. apply (read_cursor_runs s (cga_at ch)). unfold cga_at. set (pos := cursor (c_dev s.1)) in *.
  set (s1 := (Console.set_dev (select_read (c_dev s.1)) s.1, s.2)). apply runs_bind.
  assert (Hmid : runs (if ch =? nl then kret (pos + (80 - pos mod 80)) else if ch =? BACKSPACE then kret (if 0 <? pos then pos - 1 else pos)
     else crt_store pos (Z.lor (Z.land ch 255) 1792) ;;; kret (pos + 1)) s1
     (fun p s2 => 0 <= p <= 24 * 80 /\ length (c_crt s2.1) = Z.to_nat CELLS /\ out_frame s s2)).
  { destruct (ch =? nl); [apply runs_ret; split_and!; try done; mlia|]. destruct (ch =? BACKSPACE).
    - apply runs_ret. split_and!; try done; destruct (0 <? pos) eqn:E; bool_hyps; lia.
    - apply runs_bind, crt_store_runs; [unfold CELLS; lia|]. apply runs_ret. split; [lia|]. split; [cbn; by rewrite length_insert|done]. }
  eapply runs_conseq; [exact Hmid|]. clearbody s1. intros p s2 (Hp & L2 & F2). apply runs_bind.
  assert (Hscr : runs (if 24 <=? p / 80 then setc (fun x => set_crt (scroll (p - 80) (c_crt x)) x) ;;; kret (p - 80) else kret p) s2
     (fun p' s3 => 0 <= p' < 24 * 80 /\ length (c_crt s3.1) = Z.to_nat CELLS /\ out_frame s s3)).
  { destruct (24 <=? p / 80) eqn:E; bool_hyps.
    - apply runs_bind, runs_mod, runs_ret. split; [mlia|]. split; [cbn; apply length_scroll; [done|mlia]|done].
    - apply runs_ret. split; [mlia|done]. }
  eapply runs_conseq; [exact Hscr|]. intros p' s3 (Hp' & L3 & F3). apply runs_bind, runs_outb, runs_bind, runs_outb, runs_bind, runs_outb, runs_bind, runs_outb.
  apply crt_store_runs; [unfold CELLS; lia|]. split; [|exact F3]. split; cbn [fst snd set_crt c_panicked c_crt c_dev Console.set_dev].
  - destruct F3 as (-> & _). done.
  - by rewrite length_insert.
  - fold (write_cursor p' (c_dev s3.1)). rewrite write_cursor_spec; lia.
Qed.

Lemma prints_uart_wait n : prints (uart_wait n).
Proof.
  induction n as [|n IH]; intros s _ Hs; cbn [uart_wait]; [apply runs_ret; split; [done|apply out_frame_refl]|].
  apply runs_bind, runs_inb. set (s1 := (_, s.2)).
  assert (H1 : screen_ok s1.1 /\ out_frame s s1).
  { split; [|done]. destruct Hs as [S1 S2 S3]. split; try done. cbn. rewrite (cursor_same (c_dev s.1)); [done|]. apply crtc_serial_in. unfold COM1. lia. }
  destruct H1 as [H1 F1]. destruct (has _ 32); [by apply runs_ret|].
  eapply runs_conseq; [by apply IH|]. intros _ s' [H2 F2]. split; [done|by eapply out_frame_trans].
Qed.

Lemma prints_uartputc ch : prints (uartputc ch).
Proof.
  intros s _ Hs. unfold uartputc. apply runs_bind, runs_gets. destruct (c_uart s.1); [|apply runs_ret; split; [done|apply out_frame_refl]].
  apply runs_bind. eapply runs_conseq; [by apply prints_uart_wait|]. intros _ s1 [H1 F1]. apply runs_outb. split; [|done].
  destruct H1 as [S1 S2 S3]. split; try done. cbn. rewrite (cursor_same (c_dev s1.1)); [done|]. apply crtc_serial_out. unfold COM1. lia.
Qed.

Lemma prints_consputc ch : prints (consputc ch).
Proof.
  intros s _ Hs. unfold consputc. apply runs_bind, runs_gets. rewrite (so_live _ Hs).
  apply (prints_bind (fun _ => True)); [|intros; apply prints_cgaputc|done|done]. destruct (ch =? BACKSPACE); [|apply prints_uartputc].
  repeat (apply prints_bind; [apply prints_uartputc|intros _]). apply prints_uartputc.
Qed.

Lemma prints_printint xx : -2147483648 <= xx < 2147483648 -> prints (con_printint xx 10 true) /\ prints (con_printint xx 16 false).
Proof.
  intros Hx. unfold con_printint. destruct (int_digits digits_lower xx ltac:(by right) Hx) as [(l1 & -> & _) (l2 & -> & _)].
  split; apply prints_for_each, prints_consputc.
Qed.

Lemma prints_weaken (P P' : fsys B -> Prop) {A} (m : K St A) : prints_in P m -> (forall f, P' f -> P f) -> prints_in P' m.
Proof. intros Hm HP s Hs. apply Hm. by apply HP. Qed.

(** The arguments [cprintf] finds for a format: the right number, of the right kinds. *)
Fixpoint args_ok (fmt : list Z) (args : list arg) : bool :=
  match fmt with
  | [] => true
  | ch :: fmt1 =>
      if negb (Z.land ch 255 =? percent) then args_ok fmt1 args
      else
        match fmt1 with
        | [] => true
        | ch1 :: fmt2 =>
            let c := Z.land ch1 255 in
            if (c =? 100) || (c =? 120) || (c =? 112) then
              match args with AWord _ :: args' => args_ok fmt2 args' | _ => false end
            else if c =? 115 then match args with AStr _ :: args' => args_ok fmt2 args' | _ => false end
            else args_ok fmt2 args
        end
  end.

Lemma prints_loop : forall fmt args, args_ok fmt args = true -> prints (cprintf_loop fmt args).
Proof.
  apply (list_ind2 (fun fmt => forall args, args_ok fmt args = true -> prints (cprintf_loop fmt args))).
  - intros args _. apply prints_ret.
  - intros ch args _. cbn [cprintf_loop]. destruct (negb _); [|apply prints_ret]. apply prints_bind; [apply prints_consputc|intros; apply prints_ret].
  - intros ch ch1 fmt IH1 IH2 args Hok.
    change (args_ok (ch :: ch1 :: fmt) args) with (if negb (Z.land ch 255 =? percent) then args_ok (ch1 :: fmt) args else
      let c := Z.land ch1 255 in
      if (c =? 100) || (c =? 120) || (c =? 112) then match args with AWord _ :: args' => args_ok fmt args' | _ => false end
      else if c =? 115 then match args with AStr _ :: args' => args_ok fmt args' | _ => false end else args_ok fmt args) in Hok.
    assert (Hint : forall v, prints (con_printint (s32 v) 10 true) /\ prints (con_printint (s32 v) 16 false)).
    { intros v. apply prints_printint. unfold s32. mlia. }
    cbn [cprintf_loop]. destruct (negb (Z.land ch 255 =? percent)); [by apply prints_bind; [apply prints_consputc|intros; apply IH2]|].
    cbv zeta in *. set (c := Z.land ch1 255) in *. destruct (c =? 100); cbn [orb] in Hok.
    { destruct args as [|[v|] args]; try done. apply prints_bind; [apply Hint|by intros; apply IH1]. }
    destruct ((c =? 120) || (c =? 112)).
    { destruct args as [|[v|] args]; try done. apply prints_bind; [apply Hint|by intros; apply IH1]. }
    destruct (c =? 115).
    { destruct args as [|[|str] args]; try done. apply prints_bind; [apply prints_for_each, prints_consputc|by intros; apply IH1]. }
    destruct (c =? percent); repeat (apply prints_bind; [apply prints_consputc|intros _]); by apply IH1.
Qed.

Lemma prints_cprintf fmt args : args_ok fmt args = true -> prints_in (fun f => lk_cons ∉ held f) (cprintf fmt args).
Proof.
  intros Hok s Hl Hs. unfold cprintf. apply runs_bind, runs_gets. destruct (c_locking s.1).
  - apply runs_bind. eapply runs_eq; [by apply acquire_ok|]. apply runs_bind.
    eapply runs_conseq; [by apply (prints_loop fmt args Hok)|]. intros _ s1 [H1 F1].
    assert (E : s1.2 = set_held (lk_cons :: held s.2) s.2) by apply F1.
    assert (Eh : held s1 = lk_cons :: held s.2) by (change (held s1) with (held s1.2); by rewrite E, held_set_held).
    eapply runs_eq; [apply release_ok; rewrite Eh; left|]. rewrite Eh, remove_lock_cons by done. split; [done|].
    destruct F1 as (F1 & F2 & F3 & F4 & F5 & F6 & F7 & F8 & _). split_and!; try done.
    transitivity (set_held (held s.2) s1.2); [done|]. by rewrite E, set_held_set_held, set_held_held.
  - apply runs_bind, runs_ret, runs_bind. eapply runs_conseq; [by apply (prints_loop fmt args Hok)|]. intros _ s1 [H1 F1]. by apply runs_ret.
Qed.

Lemma prints_procdump rows : prints_in (fun f => lk_cons ∉ held f) (procdump rows).
Proof.
  apply prints_for_each. intros p. destruct (bool_decide _); [apply prints_ret|].
  apply prints_bind; [by apply prints_cprintf|intros _]. apply prints_bind; [|intros _; by apply prints_cprintf].
  destruct (bool_decide _); [|apply prints_ret]. apply prints_for_each. intros pc. by apply prints_cprintf.
Qed.

(** ** The line discipline *)

(** The characters a reader can have, and the line being edited. *)
Record line := Line { l_done : list Z; l_edit : list Z }.

Definition line_len (l : line) : nat := length (l_done l) + length (l_edit l).

(** A key: the new line, and whether readers are woken. *)
Definition key (ch : Z) (l : line) : line * bool :=
  if ch =? ctrl_p then (l, false)
  else if ch =? ctrl_u then (Line (l_done l) [], false)
  else if (ch =? ctrl_h) || (ch =? ch_del) then (Line (l_done l) (removelast (l_edit l)), false)
  else if (ch =? 0) || (128 <=? line_len l)%nat then (l, false)
  else
    let ch := if ch =? cr then nl else ch in
    let edit := l_edit l ++ [s8 ch] in
    if (ch =? nl) || (ch =? ctrl_d) || (line_len l =? 127)%nat then (Line (l_done l ++ edit) [], true)
    else (Line (l_done l) edit, false).

Fixpoint keys (chs : list Z) (l : line) : line * bool :=
  match chs with
  | [] => (l, false)
  | ch :: chs' =>
      let '(l1, b1) := key ch l in
      let '(l2, b2) := keys chs' l1 in (l2, b1 || b2)
  end.

(** A read of [n] more bytes: what it returns, what it has copied, and what is left. *)
Fixpoint take_line (killed : bool) (target n : Z) (acc done : list Z) : (cout * list Z) * list Z :=
  if 0 <? n then
    match done with
    | [] => ((if killed then CDone (-1) else CSleep n, acc), [])
    | ch :: done' =>
        if ch =? ctrl_d then ((CDone (target - n), acc), if n <? target then done else done')
        else if ch =? nl then ((CDone (target - (n - 1)), acc ++ [ch]), done')
        else take_line killed target (n - 1) (acc ++ [ch]) done'
    end
  else ((CDone (target - n), acc), done).

(** ** The ring holds the line *)

(** The characters between [input.r] and [input.e]. *)
Record ring c (q : list Z) : Prop := {
  rg_len : length (c_buf c) = 128%nat;
  rg_r : 0 <= c_r c < 4294967296;
  rg_e : c_e c = u32 (c_r c + Z.of_nat (length q));
  rg_max : (length q <= 128)%nat;
  rg_chars : forall k x, q !! k = Some x -> input_at c (c_r c + Z.of_nat k) = x
}.

Record input_rep c (l : line) : Prop := {
  ir_ring : ring c (l_done l ++ l_edit l);
  ir_w : c_w c = u32 (c_r c + Z.of_nat (length (l_done l)));
  ir_nl : nl ∉ l_edit l
}.

Lemma slot_u32 z : slot (u32 z) = slot z.
Proof. unfold slot, u32, INPUT_BUF. mlia. Qed.

Lemma input_at_u32 c z : input_at c (u32 z) = input_at c z.
Proof. unfold input_at. by rewrite slot_u32. Qed.

Lemma u32_eq_small z a b : 0 <= a <= 128 -> 0 <= b <= 128 -> u32 (z + a) = u32 (z + b) -> a = b.
Proof. unfold u32. intros. mlia. Qed.

Lemma slot_inj z a b : 0 <= a < 128 -> 0 <= b < 128 -> slot (z + a) = slot (z + b) -> a = b.
Proof. unfold slot, INPUT_BUF. intros. mlia. Qed.

Lemma slot_lt z : (slot z < 128)%nat.
Proof. unfold slot, INPUT_BUF. mlia. Qed.

Lemma ring_eq c c' q : ring c q -> c_buf c' = c_buf c -> c_r c' = c_r c -> c_e c' = c_e c -> ring c' q.
Proof. intros [] E1 E2 E3. unfold input_at in *. split; unfold input_at; by rewrite ?E1, ?E2, ?E3. Qed.

Lemma ring_unread c q : ring c q -> u32 (c_e c - c_r c) = Z.of_nat (length q).
Proof. intros [? ? -> ? _]. rewrite u32_sub_l. rewrite u32_small; lia. Qed.

(** The last character goes away, a character comes to the end, the first one is taken. *)
Lemma ring_back c q x : ring c (q ++ [x]) ->
  input_at c (u32 (c_e c - 1)) = x /\
  forall c', c_buf c' = c_buf c -> c_r c' = c_r c -> c_e c' = u32 (c_e c - 1) -> ring c' q.
Proof.
  intros [R1 R2 R4 R5 R7]. rewrite length_app in *. cbn [length] in *.
  assert (E : u32 (c_e c - 1) = u32 (c_r c + Z.of_nat (length q))) by (rewrite R4, u32_sub_l; f_equal; lia).
  split.
  - rewrite E, input_at_u32. apply R7. by apply list_lookup_middle.
  - intros c' E1 E2 E4. rewrite E in E4. unfold input_at in *. split; unfold input_at; rewrite ?E1, ?E2, ?E4; try done; [lia|].
    intros k y Hk. apply R7. by apply lookup_app_l_Some.
Qed.

Lemma ring_add c q x c' : ring c q -> (length q < 128)%nat ->
  c_buf c' = <[ slot (c_e c) := x ]> (c_buf c) -> c_r c' = c_r c -> c_e c' = u32 (c_e c + 1) -> ring c' (q ++ [x]).
Proof.
  intros [R1 R2 R4 R5 R7] Hq E1 E2 E4.
  assert (Hs : slot (c_e c) = slot (c_r c + Z.of_nat (length q))) by (by rewrite R4, slot_u32).
  split; unfold input_at in *; rewrite ?E1, ?E2, ?length_insert, ?length_app; cbn [length]; try done; try lia.
  - rewrite E4, R4, u32_add_l. f_equal. lia.
  - intros k y Hk. rewrite Hs, nth_lookup. apply lookup_app_Some in Hk as [Hk|[Hk1 Hk]].
    + pose proof (lookup_lt_Some _ _ _ Hk). rewrite list_lookup_insert_ne; [rewrite <- nth_lookup; by apply R7|].
      intros E. apply slot_inj in E; lia.
    + apply list_lookup_singleton_Some in Hk as [Hk ->]. replace k with (length q) by lia.
      rewrite list_lookup_insert_eq; [done|]. rewrite R1. apply slot_lt.
Qed.

Lemma ring_take c q x c' : ring c (x :: q) -> c_buf c' = c_buf c -> c_r c' = u32 (c_r c + 1) -> c_e c' = c_e c -> input_at c (c_r c) = x /\ ring c' q.
Proof.
  intros [R1 R2 R4 R5 R7] E1 E2 E4. cbn [length] in *. split.
  - rewrite <- (Z.add_0_r (c_r c)). by apply (R7 0%nat).
  - split; unfold input_at in *; rewrite ?E1, ?E2; try done; try lia; [apply u32_range| |].
    + rewrite E4, R4, u32_add_l. f_equal. lia.
    + intros k y Hk. rewrite <- (R7 (Datatypes.S k) y Hk). f_equal. rewrite <- (slot_u32 (_ + Z.of_nat (Datatypes.S k))), <- (slot_u32 (u32 _ + _)), u32_add_l.
      do 2 f_equal. lia.
Qed.

Lemma at_w_iff c l : input_rep c l -> (c_e c =? c_w c) = true <-> l_edit l = [].
Proof.
  intros [[_ _ E M _] W _]. rewrite Z.eqb_eq, E, W. rewrite length_app in M |- *. split.
  - intros E'. apply u32_eq_small in E'; [|lia|lia]. destruct (l_edit l); [done|]. cbn in *. lia.
  - intros ->. by rewrite Nat.add_0_r.
Qed.

Lemma at_r_iff c l : input_rep c l -> (c_r c =? c_w c) = true <-> l_done l = [].
Proof.
  intros [[_ R _ M _] W _]. rewrite Z.eqb_eq, W. rewrite length_app in M. split.
  - intros E. rewrite <- (u32_small (c_r c)) in E at 1 by done. rewrite <- (Z.add_0_r (c_r c)) in E at 1. apply u32_eq_small in E; [|lia|lia].
    destruct (l_done l); [done|]. cbn in *. lia.
  - intros ->. rewrite Z.add_0_r. by rewrite u32_small.
Qed.

Lemma input_rep_eq c c' l : input_rep c l -> c_buf c' = c_buf c -> c_r c' = c_r c -> c_w c' = c_w c -> c_e c' = c_e c -> input_rep c' l.
Proof. intros [R W N] E1 E2 E3 E4. split; [by eapply ring_eq|by rewrite E3, E2|done]. Qed.

Lemma input_rep_back c done edit x c' : input_rep c (Line done (edit ++ [x])) ->
  c_buf c' = c_buf c -> c_r c' = c_r c -> c_w c' = c_w c -> c_e c' = u32 (c_e c - 1) -> input_at c (u32 (c_e c - 1)) <> nl /\ input_rep c' (Line done edit).
Proof.
  intros [R W N] E1 E2 E3 E4. cbn [l_done l_edit] in *. rewrite app_assoc in R. destruct (ring_back _ _ _ R) as [-> R']. split; [set_solver|].
  split; cbn [l_done l_edit]; [by apply R'|by rewrite E3, E2|set_solver].
Qed.

(** ** The interrupt handler and the reader implement the line *)

(** The terminal shows its screen and holds the line [l]. *)
Record terminal s (l : line) : Prop := {
  te_screen : screen_ok s.1;
  te_input : input_rep s.1 l
}.

(** A step of the terminal: [woken] tells whether it woke the readers. *)
Definition stepped s s' (l' : line) (woken : bool) : Prop :=
  terminal s' l' /\ s'.2 = s.2 /\ (if woken then c_wakeups s.1 < c_wakeups s'.1 else c_wakeups s'.1 = c_wakeups s.1)%nat.

Lemma stepped_trans s s1 s2 l1 l2 b1 b2 : stepped s s1 l1 b1 -> stepped s1 s2 l2 b2 -> stepped s s2 l2 (b1 || b2).
Proof. intros (_ & E1 & W1) (T2 & E2 & W2). split; [done|]. split; [congruence|]. destruct b1, b2; cbn in *; lia. Qed.

Lemma prints_stepped P (m : K St unit) s l : prints_in P m -> P s.2 -> terminal s l -> runs m s (fun _ s' => stepped s s' l false).
Proof.
  intros Hm HP [T1 T2]. eapply runs_conseq; [by apply Hm|]. intros _ s' [H1 (F1 & F2 & F3 & F4 & F5 & F6 & F7 & F8 & F9)].
  split; [|by split]. split; [done|]. by eapply input_rep_eq.
Qed.

(** [input.e] goes back over the last character, which is also erased on the screen. *)
Lemma erase_runs s done edit x : terminal s (Line done (edit ++ [x])) ->
  runs (set_e (u32 (c_e s.1 - 1)) ;;; consputc BACKSPACE) s (fun _ s' => stepped s s' (Line done edit) false).
Proof.
  intros [T1 T2]. apply runs_bind, runs_mod. set (s1 := (_, s.2)).
  assert (T : terminal s1 (Line done edit)).
  { split; [by destruct T1|]. by apply (input_rep_back s.1 done edit x). }
  eapply runs_conseq; [by apply (prints_stepped (fun _ => True) _ s1 (Line done edit) (prints_consputc BACKSPACE))|]. done.
Qed.

Lemma kill_line_runs done edit fuel : forall s, (length edit <= fuel)%nat -> terminal s (Line done edit) ->
  runs (kill_line fuel) s (fun _ s' => stepped s s' (Line done []) false).
Proof.
  revert fuel. induction edit as [|x edit IH] using rev_ind; intros fuel s Hf T; destruct fuel as [|fuel]; cbn [kill_line]; apply runs_bind, runs_gets.
  1,2: rewrite (proj2 (at_w_iff _ _ (te_input _ _ T))) by done; by apply runs_ret.
  - rewrite length_app in Hf. cbn in Hf. lia.
  - destruct (c_e s.1 =? c_w s.1) eqn:E.
    { apply (proj1 (at_w_iff _ _ (te_input _ _ T))) in E. cbn in E. by destruct edit. }
    destruct (input_rep_back s.1 done edit x (set_input (c_buf s.1) (c_r s.1) (c_w s.1) (u32 (c_e s.1 - 1)) s.1) (te_input _ _ T)) as [Hx _]; try done.
    rewrite (proj2 (Z.eqb_neq _ _) Hx). cbn [negb andb].
    pose proof (erase_runs s done edit x T) as He. unfold runs, kbind in He |- *. destruct (set_e _ s); try done. destruct (consputc BACKSPACE s0); try done.
    assert (Hf' : (length edit <= fuel)%nat) by (rewrite length_app in Hf; cbn in Hf; lia).
    eapply runs_conseq; [apply (IH fuel s1 Hf'); apply He|]. intros ? s2 Hr. exact (stepped_trans _ _ _ _ _ _ _ He Hr).
Qed.

Lemma line_len_ring c l : input_rep c l -> u32 (c_e c - c_r c) = Z.of_nat (line_len l).
Proof. intros R. rewrite (ring_unread _ _ (ir_ring _ _ R)), length_app. done. Qed.

Lemma s8_nl ch : 0 <= ch < 256 -> (s8 ch = nl <-> ch = nl).
Proof. unfold s8, nl. intros. mlia. Qed.

(** An ordinary character joins the line, and ends it if it must. *)
Lemma add_runs s l ch : terminal s l -> (line_len l < 128)%nat -> 0 <= ch < 256 ->
  runs (setc (fun c => set_input (<[ slot (c_e c) := s8 ch ]> (c_buf c)) (c_r c) (c_w c) (u32 (c_e c + 1)) c) ;;;
        consputc ch ;;;
        let* c := getc (fun c => c) in
        when (ch =? nl) || (ch =? ctrl_d) || (c_e c =? u32 (c_r c + INPUT_BUF)) do
          (setc (fun c => set_input (c_buf c) (c_r c) (c_e c) (c_e c) c) ;;;
           setc wake_readers)) s
    (fun _ s' => let edit := l_edit l ++ [s8 ch] in
      if (ch =? nl) || (ch =? ctrl_d) || (line_len l =? 127)%nat then stepped s s' (Line (l_done l ++ edit) []) true
      else stepped s s' (Line (l_done l) edit) false).
Proof.
  intros [T1 [R W N]] Hl Hch. apply runs_bind, runs_mod. set (s1 := (_, s.2)).
  assert (R1 : ring s1.1 ((l_done l ++ l_edit l) ++ [s8 ch])) by (apply (ring_add s.1); [done| |done..]; by rewrite length_app).
  assert (T : screen_ok s1.1) by (by destruct T1). apply runs_bind. eapply runs_conseq; [by apply (prints_consputc ch)|].
  intros _ s2 [H2 (F1 & F2 & F3 & F4 & F5 & F6 & F7 & F8 & F9)]. apply runs_bind, runs_gets.
  assert (R2 : ring s2.1 ((l_done l ++ l_edit l) ++ [s8 ch])) by (by eapply ring_eq). rewrite <- app_assoc in R2.
  assert (Efull : (c_e s2.1 =? u32 (c_r s2.1 + INPUT_BUF)) = (line_len l =? 127)%nat).
  { apply eq_bool_prop_intro. rewrite !Is_true_true, Z.eqb_eq, Nat.eqb_eq, (rg_e _ _ R2), !length_app. cbn [length]. unfold line_len in *. split; intros E.
    - apply u32_eq_small in E; unfold INPUT_BUF in *; lia.
    - do 2 f_equal. unfold INPUT_BUF. lia. }
  rewrite Efull. destruct ((ch =? nl) || (ch =? ctrl_d) || (line_len l =? 127)%nat) eqn:E.
  - apply runs_bind, runs_mod, runs_mod. split; [|split; [exact F9|cbn; rewrite F8; cbn; lia]]. split; [by destruct H2|].
    split; cbn [l_done l_edit fst]; [|by rewrite (rg_e _ _ R2)|set_solver]. rewrite app_nil_r. by eapply ring_eq.
  - apply runs_ret. split; [|by split]. split; [done|]. split; cbn [l_done l_edit]; [done|by rewrite F6, F5|].
    apply orb_false_elim in E as [E _]. apply orb_false_elim in E as [E _]. apply Z.eqb_neq in E. pose proof (s8_nl ch Hch). set_solver.
Qed.

Lemma input_char_runs rows s l ch : terminal s l -> lk_cons ∉ held s.2 -> 0 <= ch < 256 ->
  runs (input_char rows ch) s (fun _ s' => stepped s s' (key ch l).1 (key ch l).2).
Proof.
  intros T Hl Hch. unfold input_char, key. destruct (ch =? ctrl_p).
  { eapply prints_stepped; [apply prints_procdump|done|done]. }
  destruct (ch =? ctrl_u).
  { apply runs_bind, runs_gets. destruct l as [done edit]. apply (kill_line_runs done edit); [|done]. destruct T as [_ [[_ _ E M _] W _]]. cbn [l_done l_edit] in *.
    rewrite E, W, length_app, u32_sub_l. rewrite length_app in M. unfold u32. mlia. }
  destruct ((ch =? ctrl_h) || (ch =? ch_del)).
  { apply runs_bind, runs_gets. destruct l as [done edit]. cbn [l_done l_edit fst snd]. destruct (c_e s.1 =? c_w s.1) eqn:E; cbn [negb].
    - apply (at_w_iff _ _ (te_input _ _ T)) in E. cbn in E. subst edit. by apply runs_ret.
    - destruct edit as [|x edit _] using rev_ind; [by rewrite (proj2 (at_w_iff _ _ (te_input _ _ T))) in E|].
      rewrite removelast_last. by apply erase_runs with x. }
  apply runs_bind, runs_gets. rewrite (line_len_ring _ _ (te_input _ _ T)).
  replace (Z.of_nat (line_len l) <? INPUT_BUF) with (negb (128 <=? line_len l)%nat).
  2: { unfold INPUT_BUF. destruct (128 <=? line_len l)%nat eqn:E; symmetry; bool_hyps; [apply Z.ltb_ge; apply Nat.leb_le in E|apply Z.ltb_lt; apply Nat.leb_gt in E]; lia. }
  rewrite <- negb_orb. destruct ((ch =? 0) || (128 <=? line_len l)%nat) eqn:E; cbn [negb]; [by apply runs_ret|].
  apply orb_false_elim in E as [_ E]. apply Nat.leb_gt in E. cbv zeta. set (ch' := if ch =? cr then nl else ch).
  assert (Hch' : 0 <= ch' < 256) by (unfold ch'; destruct (ch =? cr); unfold nl; lia).
  eapply runs_conseq; [by apply (add_runs s l ch')|]. intros ? s'. cbv zeta. by destruct (_ || _).
Qed.

Lemma input_chars_runs rows chs : forall s l, terminal s l -> lk_cons ∉ held s.2 -> Forall (fun ch => 0 <= ch < 256) chs ->
  runs (for_each chs (input_char rows)) s (fun _ s' => stepped s s' (keys chs l).1 (keys chs l).2).
Proof.
  induction chs as [|ch chs IH]; intros s l T Hl Hc; cbn [for_each keys]; [by apply runs_ret|]. apply Forall_cons in Hc as [Hc1 Hc2].
  apply runs_bind. eapply runs_conseq; [by apply input_char_runs|]. intros ? s1 H1. destruct (key ch l) as [l1 b1]. cbn [fst snd] in H1.
  eapply runs_conseq; [apply (IH s1 l1); [apply H1|by rewrite (proj1 (proj2 H1))|done]|]. intros ? s2 H2. destruct (keys chs l1) as [l2 b2].
  exact (stepped_trans _ _ _ _ _ _ _ H1 H2).
Qed.

(** What runs with [input.lock] held, and leaves the file system and its locks alone. *)
Lemma locked_runs {A} (m : K St A) s (Q : A -> con D -> Prop) : lk_input ∉ held s.2 ->
  runs m (s.1, set_held (lk_input :: held s.2) s.2) (fun a s' => Q a s'.1 /\ s'.2 = set_held (lk_input :: held s.2) s.2) ->
  runs (acquire lk_input ;;; let* a := m in release lk_input ;;; kret a) s (fun a s' => Q a s'.1 /\ s'.2 = s.2).
Proof.
  intros Hl Hm. apply runs_bind. eapply runs_eq; [by apply acquire_ok|]. apply runs_bind. eapply runs_conseq; [exact Hm|]. intros a s1 [Ha E].
  assert (Eh : held s1 = lk_input :: held s.2) by (change (held s1) with (held s1.2); by rewrite E, held_set_held).
  apply runs_bind. eapply runs_eq; [apply release_ok; rewrite Eh; left|]. rewrite Eh, remove_lock_cons by done. apply runs_ret. split; [done|].
  transitivity (set_held (held s.2) s1.2); [done|]. by rewrite E, set_held_set_held, set_held_held.
Qed.

Lemma consoleintr_runs rows chs s l : terminal s l -> lk_cons ∉ held s.2 -> lk_input ∉ held s.2 -> Forall (fun ch => 0 <= ch < 256) chs ->
  runs (consoleintr rows chs) s (fun _ s' => stepped s s' (keys chs l).1 (keys chs l).2).
Proof.
  intros [T1 T2] Hl Hi Hc. assert (Hr : runs (acquire lk_input ;;; let* a := for_each chs (input_char rows) in release lk_input ;;; kret a) s
    (fun _ s' => (forall f, stepped (s.1, f) (s'.1, f) (keys chs l).1 (keys chs l).2) /\ s'.2 = s.2)).
  { apply (locked_runs _ _ (fun _ c' => forall f, stepped (s.1, f) (c', f) (keys chs l).1 (keys chs l).2)); [done|].
    eapply runs_conseq; [apply input_chars_runs; [by split| |done]|].
    - cbn [snd]. rewrite held_set_held. set_solver.
    - intros ? s' ([S1 S2] & E & W). by split. }
  unfold consoleintr. unfold runs, kbind in Hr |- *. destruct (acquire lk_input s); try done. destruct (for_each chs _ s0); try done.
  destruct (release lk_input s1); try done. destruct a1. cbn in Hr. destruct Hr as [Hr E]. destruct s2 as [c2 f2]. cbn in *. subst f2.
  destruct s as [c f]. apply (Hr f).
Qed.

Lemma read_input_runs killed target : forall done n acc fuel s edit, (Z.to_nat n <= fuel)%nat -> terminal s (Line done edit) ->
  runs (read_input killed target n acc fuel) s
    (fun r s' => r = (take_line killed target n acc done).1 /\ stepped s s' (Line (take_line killed target n acc done).2 edit) false).
Proof.
  induction done as [|ch done IH]; intros n acc fuel s edit Hf T; destruct fuel as [|fuel]; cbn [read_input take_line];
    destruct (0 <? n) eqn:En; bool_hyps; try (by apply runs_ret); try lia; apply runs_bind, runs_gets.
  - rewrite (proj2 (at_r_iff _ _ (te_input _ _ T))) by done. by destruct killed; apply runs_ret.
  - destruct (c_r s.1 =? c_w s.1) eqn:E; [apply (at_r_iff _ _ (te_input _ _ T)) in E; done|].
    apply runs_bind, runs_mod. set (s1 := (_, s.2)).
    destruct T as [T1 [R W N]]. cbn [l_done l_edit app] in R, W, N. destruct (ring_take s.1 (done ++ edit) ch s1.1 R) as [Ein R1]; [done..|]. rewrite Ein.
    assert (TL : terminal s1 (Line done edit)).
    { split; [by destruct T1|]. split; cbn [l_done l_edit]; [done| |done]. cbn. rewrite W, u32_add_l. f_equal. cbn [length]. lia. }
    destruct (ch =? ctrl_d) eqn:Ed.
    + destruct (n <? target).
      * apply runs_bind, runs_mod, runs_ret. split; [done|]. split; [|done]. split; [by destruct T1|].
        assert (Er : u32 (u32 (c_r s.1 + 1) - 1) = c_r s.1) by (rewrite u32_sub_l, Z.add_simpl_r; apply u32_small, (rg_r _ _ R)).
        split; cbn [l_done l_edit fst app]; [by eapply ring_eq|by cbn; rewrite Er|done].
      * apply runs_bind, runs_ret, runs_ret. by split.
    + destruct (ch =? nl); [by apply runs_ret|]. eapply runs_conseq; [apply (IH (n - 1) (acc ++ [ch]) fuel s1 edit); [lia|done]|]. done.
Qed.

Lemma read_locked_runs killed target n acc s done edit : terminal s (Line done edit) -> lk_input ∉ held s.2 ->
  runs (read_locked killed target n acc) s
    (fun r s' => r = (take_line killed target n acc done).1 /\ stepped s s' (Line (take_line killed target n acc done).2 edit) false).
Proof.
  intros [T1 T2] Hi. eapply runs_conseq; [apply (locked_runs _ s (fun r c' => r = (take_line killed target n acc done).1 /\
    forall f, stepped (s.1, f) (c', f) (Line (take_line killed target n acc done).2 edit) false)); [done|]|].
  - eapply runs_conseq; [by apply (read_input_runs killed target done n acc _ _ edit)|]. intros r s' (-> & [S1 S2] & E & W). by split.
  - intros r [c' f'] [[-> Hs] E]. cbn in E. subst f'. split; [done|]. destruct s as [c f]. apply (Hs f).
Qed.
End ConsoleSpec.
