(* ===== verification/ConsoleSys.v ===== *)
(** * Readers of the console and its interrupts, in any order

    The processes that read the console are threads: idle, asleep on [&input.r] or woken.  An event is an interrupt that delivers
    characters, a call of [consoleread], the resumption of a woken reader, or a [kill]; each one runs the code of
    console.c with [input.lock] held, so a run is a list of events.  The same machine runs on the terminal (Console.v) and on the
    line discipline (ConsoleSpec.v): the first refines the second. *)

From S2P Require Import Prelude Mmu Proc Bio BufferCache Bytes Log Fs File FileRwSpec Ports Printf Console ConsoleSpec.

Inductive rstate := Idle | Asleep (target n : Z) (acc : list Z) | Awake (target n : Z) (acc : list Z).

Record thread := Thread { t_killed : bool; t_state : rstate }.

Inductive event :=
  | Keys (rows : list prow) (chs : list Z)
  | Read (i : nat) (n : Z)
  | Resume (i : nat)
  | Kill (i : nat).

(** [getc] returns a byte. *)
Definition event_ok (ev : event) : Prop := match ev with Keys _ chs => Forall (fun ch => 0 <= ch < 256) chs | _ => True end.

(** The threads, and the reads that have ended: the reader, the result of [consoleread] and the bytes it copied. *)
Record sys (X : Type) := Sys { y_core : X; y_threads : list thread; y_out : list (nat * Z * list Z) }.
Arguments Sys {X}.
Arguments y_core {X}.
Arguments y_threads {X}.
Arguments y_out {X}.

Definition wake (t : thread) : thread :=
  match t_state t with Asleep target n acc => Thread (t_killed t) (Awake target n acc) | _ => t end.
Definition set_state (st : rstate) (t : thread) : thread := Thread (t_killed t) st.
Definition kill_reader (t : thread) : thread := wake (Thread true (t_state t)).

(** ** The machine, over what an interrupt and a read do *)
Section Machine.
Context {X : Type} (intr : list prow -> list Z -> X -> option (X * bool)) (rd : bool -> Z -> Z -> list Z -> X -> option ((cout * list Z) * X)).

Definition reading (i : nat) (killed : bool) (target n : Z) (acc : list Z) (y : sys X) : option (sys X) :=
  match rd killed target n acc (y_core y) with
  | Some ((CDone v, acc'), x) => Some (Sys x (alter (set_state Idle) i (y_threads y)) (y_out y ++ [(i, v, acc')]))
  | Some ((CSleep n', acc'), x) => Some (Sys x (alter (set_state (Asleep target n' acc')) i (y_threads y)) (y_out y))
  | None => None
  end.

Definition step (ev : event) (y : sys X) : option (sys X) :=
  match ev with
  | Keys rows chs =>
      match intr rows chs (y_core y) with
      | Some (x, woken) => Some (Sys x (if (woken : bool) then wake <$> y_threads y else y_threads y) (y_out y))
      | None => None
      end
  | Read i n =>
      match y_threads y !! i with
      | Some (Thread killed Idle) => reading i killed n n [] y
      | _ => Some y
      end
  | Resume i =>
      match y_threads y !! i with
      | Some (Thread killed (Awake target n acc)) => reading i killed target n acc y
      | _ => Some y
      end
  | Kill i => Some (Sys (y_core y) (alter kill_reader i (y_threads y)) (y_out y))
  end.

Fixpoint run (evs : list event) (y : sys X) : option (sys X) :=
  match evs with
  | [] => Some y
  | ev :: evs' => match step ev y with Some y' => run evs' y' | None => None end
  end.
End Machine.

(** A relation of the cores that interrupts and reads keep is a simulation of the machines. *)
Section Simulation.
Context {X Y : Type} (intr : list prow -> list Z -> X -> option (X * bool)) (rd : bool -> Z -> Z -> list Z -> X -> option ((cout * list Z) * X)).
Context (intr' : list prow -> list Z -> Y -> option (Y * bool)) (rd' : bool -> Z -> Z -> list Z -> Y -> option ((cout * list Z) * Y)).
Variable R : X -> Y -> Prop.
Hypothesis sim_intr : forall rows chs x y, R x y -> Forall (fun ch => 0 <= ch < 256) chs ->
  exists x' y' woken, intr rows chs x = Some (x', woken) /\ intr' rows chs y = Some (y', woken) /\ R x' y'.
Hypothesis sim_rd : forall killed target n acc x y, R x y ->
  exists x' y' r, rd killed target n acc x = Some (r, x') /\ rd' killed target n acc y = Some (r, y') /\ R x' y'.

Definition sys_rel (y : sys X) (z : sys Y) : Prop := R (y_core y) (y_core z) /\ y_threads y = y_threads z /\ y_out y = y_out z.

Lemma reading_sim i killed target n acc y z : sys_rel y z ->
  exists y' z', reading rd i killed target n acc y = Some y' /\ reading rd' i killed target n acc z = Some z' /\ sys_rel y' z'.
Proof.
  intros (HR & Et & Eo). destruct (sim_rd killed target n acc _ _ HR) as (x' & y' & [[v|n'] acc'] & E1 & E2 & HR'); unfold reading; rewrite E1, E2, Et, Eo;
    eexists _, _; by split_and!.
Qed.

Lemma step_sim ev y z : sys_rel y z -> event_ok ev -> exists y' z', step intr rd ev y = Some y' /\ step intr' rd' ev z = Some z' /\ sys_rel y' z'.
Proof.
  intros Hs Hok. pose proof Hs as (HR & Et & Eo). destruct ev as [rows chs|i n|i|i]; cbn [step].
  - destruct (sim_intr rows chs _ _ HR Hok) as (x' & y' & woken & -> & -> & HR'). rewrite Et, Eo. eexists _, _. by split_and!.
  - rewrite Et. destruct (y_threads z !! i) as [[k []]|]; try (by eexists _, _); by apply reading_sim.
  - rewrite Et. destruct (y_threads z !! i) as [[k []]|]; try (by eexists _, _); by apply reading_sim.
  - rewrite Et, Eo. eexists _, _. by split_and!.
Qed.

Lemma run_sim evs : forall y z, sys_rel y z -> Forall event_ok evs -> exists y' z', run intr rd evs y = Some y' /\ run intr' rd' evs z = Some z' /\ sys_rel y' z'.
Proof.
  induction evs as [|ev evs IH]; intros y z Hs Hok; [by eexists _, _|]. apply Forall_cons in Hok as [H1 H2]. cbn [run].
  destruct (step_sim ev y z Hs H1) as (y' & z' & -> & -> & Hs'). by apply IH.
Qed.
End Simulation.

(** ** The line discipline as a machine *)

Definition line_intr (rows : list prow) (chs : list Z) (l : line) : option (line * bool) := Some (keys chs l).
Definition line_rd (killed : bool) (target n : Z) (acc : list Z) (l : line) : option ((cout * list Z) * line) :=
  let r := take_line killed target n acc (l_done l) in Some (r.1, Line r.2 (l_edit l)).
Definition line_run : list event -> sys line -> option (sys line) := run line_intr line_rd.

(** No thread is asleep while there is something to read, and none that was killed. *)
Definition sleepers_ok (y : sys line) : Prop := forall i k target n acc, y_threads y !! i = Some (Thread k (Asleep target n acc)) -> k = false /\ l_done (y_core y) = [].

Lemma key_quiet (ch : Z) (l : line) : (key ch l).2 = false -> l_done (key ch l).1 = l_done l.
Proof. unfold key. by repeat (case_match; try done). Qed.

Lemma keys_quiet chs : forall l, (keys chs l).2 = false -> l_done (keys chs l).1 = l_done l.
Proof.
  induction chs as [|ch chs IH]; intros l; cbn [keys]; [done|]. pose proof (key_quiet ch l) as Hk. destruct (key ch l) as [l1 b1]. specialize (IH l1).
  destruct (keys chs l1) as [l2 b2]. cbn in *. intros H. apply orb_false_elim in H as [-> ->]. rewrite IH by done. by apply Hk.
Qed.

Lemma take_line_sleep killed target : forall done n acc n' acc', (take_line killed target n acc done).1 = (CSleep n', acc') ->
  killed = false /\ (take_line killed target n acc done).2 = [].
Proof.
  induction done as [|ch done IH]; intros n acc n' acc'; cbn [take_line]; destruct (0 <? n); cbn [fst snd]; try (by intros [=]).
  - by destruct killed; intros [=].
  - destruct (ch =? ctrl_d); [by intros [=]|]. destruct (ch =? nl); [by intros [=]|]. apply IH.
Qed.

Lemma take_line_empty killed target n acc : (take_line killed target n acc []).2 = [].
Proof. cbn. by destruct (0 <? n). Qed.

Lemma reading_sleepers i killed target n acc y y' : sleepers_ok y -> (exists st, y_threads y !! i = Some (Thread killed st)) ->
  reading line_rd i killed target n acc y = Some y' -> sleepers_ok y'.
Proof.
  intros Hy [st Hi]. unfold reading, line_rd. cbv zeta.
  assert (Hn : forall j k t0 n0 a0, y_threads y !! j = Some (Thread k (Asleep t0 n0 a0)) -> k = false /\ (take_line killed target n acc (l_done (y_core y))).2 = []).
  { intros j k t0 n0 a0 Hj. destruct (Hy _ _ _ _ _ Hj) as [-> ->]. by rewrite take_line_empty. }
  pose proof (take_line_sleep killed target (l_done (y_core y)) n acc) as Hsl.
  destruct (take_line killed target n acc (l_done (y_core y))) as [[[v|n'] acc'] rest]; cbn [fst snd] in *; intros [= <-] j k t0 n0 a0 Hj; cbn [y_threads y_core l_done] in *;
    destruct (decide (j = i)) as [->|Hne]; rewrite ?list_lookup_alter_ne in Hj by done; rewrite ?list_lookup_alter_eq, ?Hi in Hj; try done; try (by eapply Hn).
  cbn in Hj. injection Hj as <- _ _ _. by apply (Hsl n' acc').
Qed.

Lemma wake_not_asleep (l : list thread) i k target n acc : (wake <$> l) !! i <> Some (Thread k (Asleep target n acc)).
Proof. rewrite list_lookup_fmap. destruct (l !! i) as [[? []]|]; cbn; congruence. Qed.

Lemma step_sleepers ev y y' : sleepers_ok y -> step line_intr line_rd ev y = Some y' -> sleepers_ok y'.
Proof.
  intros Hy. destruct ev as [rows chs|i n|i|i]; cbn [step].
  - unfold line_intr. pose proof (keys_quiet chs (y_core y)) as Hq. destruct (keys chs (y_core y)) as [l' []]; intros [= <-] i k target n acc Hi; cbn in *.
    + by apply wake_not_asleep in Hi.
    + rewrite Hq by done. by eapply Hy.
  - destruct (y_threads y !! i) as [[k []]|] eqn:Ei; try (by intros [= <-]). intros H. eapply reading_sleepers; eauto.
  - destruct (y_threads y !! i) as [[k []]|] eqn:Ei; try (by intros [= <-]). intros H. eapply reading_sleepers; eauto.
  - intros [= <-] j k target n acc Hj. cbn in *. destruct (decide (j = i)) as [->|Hne]; [|rewrite list_lookup_alter_ne in Hj by done; by eapply Hy].
    rewrite list_lookup_alter_eq in Hj. destruct (y_threads y !! i) as [[k' []]|]; cbn in Hj; congruence.
Qed.

Lemma run_sleepers evs : forall y y', sleepers_ok y -> line_run evs y = Some y' -> sleepers_ok y'.
Proof.
  unfold line_run. induction evs as [|ev evs IH]; intros y y' Hy; cbn [run]; [by intros [= <-]|].
  destruct (step line_intr line_rd ev y) eqn:E; [|done]. apply IH. by eapply step_sleepers.
Qed.

(** Text without a newline, an end of file, an editing key or a 0. *)
Definition plain (text : list Z) : Prop := Forall (fun ch => 0 < ch < 128 /\ ch ∉ [ctrl_d; ctrl_h; ctrl_p; ctrl_u; ch_del; nl; cr]) text.

Lemma key_plain ch l : plain [ch] -> (line_len l < 127)%nat -> key ch l = (Line (l_done l) (l_edit l ++ [ch]), false).
Proof.
  intros H Hl. apply Forall_singleton in H as [Hc Hn]. unfold key. rewrite !not_elem_of_cons in Hn. destruct Hn as (H1 & H2 & H3 & H4 & H5 & H6 & H7 & _).
  rewrite (proj2 (Z.eqb_neq _ _) H3), (proj2 (Z.eqb_neq _ _) H4), (proj2 (Z.eqb_neq _ _) H2), (proj2 (Z.eqb_neq _ _) H5), (proj2 (Z.eqb_neq _ _) H7).
  rewrite (proj2 (Z.eqb_neq ch 0)) by lia. rewrite (proj2 (Nat.leb_gt _ _)) by lia. cbv zeta. cbn [orb].
  rewrite (proj2 (Z.eqb_neq _ _) H6), (proj2 (Z.eqb_neq _ _) H1), (proj2 (Nat.eqb_neq _ _)) by lia. cbn [orb]. replace (s8 ch) with ch; [done|]. unfold s8. mlia.
Qed.

Lemma keys_app chs1 chs2 l : keys (chs1 ++ chs2) l = ((keys chs2 (keys chs1 l).1).1, (keys chs1 l).2 || (keys chs2 (keys chs1 l).1).2).
Proof.
  revert l. induction chs1 as [|ch chs1 IH]; intros l; cbn [keys app].
  - cbn [fst snd orb]. by destruct (keys chs2 l).
  - destruct (key ch l) as [l1 b1]. rewrite IH. destruct (keys chs1 l1) as [l2 b2]. cbn [fst snd]. by rewrite orb_assoc.
Qed.

Lemma keys_plain text : forall l, plain text -> (line_len l + length text <= 127)%nat -> keys text l = (Line (l_done l) (l_edit l ++ text), false).
Proof.
  induction text as [|ch text IH]; intros l Hp Hl; cbn [keys].
  - rewrite app_nil_r. by destruct l.
  - apply Forall_cons in Hp as [H1 H2]. cbn [length] in Hl. rewrite key_plain; [|by apply Forall_singleton|lia].
    rewrite IH; [|done|unfold line_len in *; cbn; rewrite length_app; cbn; lia]. cbn. by rewrite <- app_assoc.
Qed.

Lemma take_line_text text : forall target n acc rest, plain text -> Z.of_nat (length text) < n ->
  take_line false target n acc (text ++ nl :: rest) = ((CDone (target - n + Z.of_nat (length text) + 1), acc ++ text ++ [nl]), rest).
Proof.
  induction text as [|ch text IH]; intros target n acc rest Hp Hn; cbn [app take_line length] in *; rewrite (proj2 (Z.ltb_lt 0 n)) by lia.
  - cbn. do 3 f_equal. lia.
  - apply Forall_cons in Hp as [[H1 H2] H3]. rewrite !not_elem_of_cons in H2. destruct H2 as (D1 & _ & _ & _ & _ & D2 & _).
    rewrite (proj2 (Z.eqb_neq _ _) D1), (proj2 (Z.eqb_neq _ _) D2). rewrite IH by (done || lia). rewrite <- app_assoc. cbn. do 3 f_equal. lia.
Qed.

(** ** The terminal as a machine *)
Section Terminal.
Context {D : Type} {PO : Ports D} {CR : Crtc D} {B : Type} {OPS : BufferOps B}.
Implicit Types (s : con D * fsys B) (l : line).

Definition con_intr (rows : list prow) (chs : list Z) s : option ((con D * fsys B) * bool) :=
  match consoleintr rows chs s with
  | Ok _ s' => Some (s', (c_wakeups s.1 <? c_wakeups s'.1)%nat)
  | _ => None
  end.

Definition con_rd (killed : bool) (target n : Z) (acc : list Z) s : option ((cout * list Z) * (con D * fsys B)) :=
  match read_locked killed target n acc s with
  | Ok r s' => Some (r, s')
  | _ => None
  end.

Definition con_run : list event -> sys (con D * fsys B) -> option (sys (con D * fsys B)) := run con_intr con_rd.

(** The terminal holds the line, and the two locks of the console are free. *)
Definition con_rel s l : Prop := terminal s l /\ (lk_cons ∉ held s.2) /\ (lk_input ∉ held s.2).

Lemma con_intr_sim rows chs s l : con_rel s l -> Forall (fun ch => 0 <= ch < 256) chs ->
  exists s' l' woken, con_intr rows chs s = Some (s', woken) /\ line_intr rows chs l = Some (l', woken) /\ con_rel s' l'.
Proof.
  intros (T & H1 & H2) Hc. destruct (proj1 (runs_Ok _ _ _) (consoleintr_runs rows chs s l T H1 H2 Hc)) as (u & s' & E & T' & Es & W).
  unfold con_intr, line_intr. rewrite E. exists s', (keys chs l).1, (keys chs l).2. split; [|split].
  - do 2 f_equal. destruct (keys chs l).2; [by apply Nat.ltb_lt|apply Nat.ltb_ge; lia].
  - by destruct (keys chs l).
  - unfold con_rel; by rewrite Es.
Qed.

Lemma con_rd_sim killed target n acc s l : con_rel s l ->
  exists s' l' r, con_rd killed target n acc s = Some (r, s') /\ line_rd killed target n acc l = Some (r, l') /\ con_rel s' l'.
Proof.
  intros (T & H1 & H2). destruct l as [done edit].
  destruct (proj1 (runs_Ok _ _ _) (read_locked_runs killed target n acc s done edit T H2)) as (r & s' & E & -> & T' & Es & W).
  unfold con_rd, line_rd. rewrite E. eexists s', _, _. split; [done|]. split; [done|]. unfold con_rel; by rewrite Es.
Qed.

Lemma con_run_sim evs s l ths : con_rel s l -> Forall event_ok evs ->
  exists s' l' ths' out, con_run evs (Sys s ths []) = Some (Sys s' ths' out) /\ line_run evs (Sys l ths []) = Some (Sys l' ths' out) /\ con_rel s' l'.
Proof.
  intros HR Hok. destruct (run_sim con_intr con_rd line_intr line_rd con_rel con_intr_sim con_rd_sim evs (Sys s ths []) (Sys l ths [])) as ([s' t1 o1] & [l' t2 o2] & E1 & E2 & H1 & H2 & H3); [by split_and!|done|].
  cbn in *. subst. by eexists _, _, _, _.
Qed.

Lemma con_rel_asleep s l : con_rel s l -> l_done l = [] -> c_r s.1 = c_w s.1.
Proof. intros ([_ T] & _) E. by apply Z.eqb_eq, (at_r_iff _ _ T). Qed.

(** C5: the console is a line discipline.  From a terminal that holds the line [l], with no reader asleep, every sequence of
    interrupts, reads, resumptions and kills runs without a panic, and its readers get exactly the results and bytes
    they get from the line discipline (a list of finished characters and a line under edit, without ring, indices or
    wrap-around); the terminal then holds the line the discipline ends with.  A reader that is asleep is not
    killed, and has nothing to read: no wakeup is lost. *)
Theorem console_line_discipline (evs : list event) s l (ths : list thread) : con_rel s l -> Forall event_ok evs ->
  Forall (fun t => t_state t = Idle) ths ->
  exists s' l' ths' out,
    con_run evs (Sys s ths []) = Some (Sys s' ths' out) /\ line_run evs (Sys l ths []) = Some (Sys l' ths' out) /\ con_rel s' l' /\
    forall i k target n acc, ths' !! i = Some (Thread k (Asleep target n acc)) -> k = false /\ c_r s'.1 = c_w s'.1.
Proof.
  intros HR Hok Hi. destruct (con_run_sim evs s l ths HR Hok) as (s' & l' & ths' & out & E1 & E2 & HR'). exists s', l', ths', out. split_and!; try done.
  intros i k target n acc Ht. assert (H0 : sleepers_ok (Sys l ths [])).
  { intros j k' t' n' a' Hj. pose proof (Forall_lookup_1 _ _ _ _ Hi Hj) as Hs. done. }
  destruct (run_sleepers evs _ _ H0 E2 i k target n acc Ht) as [-> Hd]. split; [done|]. by eapply con_rel_asleep.
Qed.

(** A reader that waits gets the line as it was edited.  A reader asks for more bytes than the line will have and
    sleeps; somebody types some text, kills it with control-U, types [text] and presses return: the reader is woken and
    returns [text] with a newline, and nothing is left over. *)
Theorem console_reads_edited_line s (ths : list thread) (i : nat) n rows (junk text : list Z) : con_rel s (Line [] []) ->
  ths !! i = Some (Thread false Idle) -> plain junk -> plain text -> (length junk <= 127)%nat -> (length text < 127)%nat -> Z.of_nat (length text) < n ->
  exists s', con_run [Read i n; Keys rows (junk ++ [ctrl_u] ++ text ++ [cr]); Resume i] (Sys s ths []) =
    Some (Sys s' (alter (set_state Idle) i (wake <$> ths)) [(i, Z.of_nat (length text) + 1, text ++ [nl])]) /\ con_rel s' (Line [] []).
Proof.
  intros HR Hi Hj Ht Lj Lt Hn. set (evs := [_; _; _]).
  assert (Hb : forall t, plain t -> Forall (fun ch => 0 <= ch < 256) t) by (intros t Hp; eapply Forall_impl; [exact Hp|]; cbn; lia).
  assert (Hok : Forall event_ok evs).
  { repeat constructor. cbn [event_ok]. rewrite !Forall_app, !Forall_singleton. split_and!; auto; unfold ctrl_u, cr; lia. }
  destruct (con_run_sim evs s (Line [] []) ths HR Hok) as (s' & l' & ths' & out & E1 & E2 & HR'). exists s'. rewrite E1.
  assert (Ek : keys (junk ++ [ctrl_u] ++ text ++ [cr]) (Line [] []) = (Line (text ++ [nl]) [], true)).
  { rewrite keys_app, (keys_plain junk) by (done || cbn; lia). cbn [fst snd orb l_done l_edit]. rewrite (app_nil_l junk), (keys_app [ctrl_u]).
    change (keys [ctrl_u] (Line [] junk)) with (Line [] [], false). cbn [fst snd orb]. rewrite (keys_app text), (keys_plain text) by (done || cbn; lia).
    cbn [fst snd orb l_done l_edit app]. cbn [keys]. change (key cr (Line [] text)) with (let edit := text ++ [s8 nl] in
      if (128 <=? length text)%nat then (Line [] text, false) else (Line edit [], true)).
    rewrite (proj2 (Nat.leb_gt _ _)) by lia. done. }
  assert (E3 : line_run evs (Sys (Line [] []) ths []) = Some (Sys (Line [] []) (alter (set_state Idle) i (wake <$> ths)) [(i, Z.of_nat (length text) + 1, text ++ [nl])])).
  { unfold line_run, evs. cbn [run step y_threads y_core y_out]. rewrite Hi. unfold reading, line_rd. cbn [y_threads y_core y_out l_done l_edit take_line].
    rewrite (proj2 (Z.ltb_lt 0 n)) by lia. cbn [fst snd run step y_threads y_core y_out]. unfold line_intr. rewrite Ek. cbn [y_threads y_core y_out].
    rewrite list_lookup_fmap, list_lookup_alter_eq, Hi. cbn [fmap option_fmap option_map set_state wake t_state t_killed].
    unfold reading, line_rd. cbn [y_threads y_core y_out l_done l_edit]. rewrite take_line_text by done. cbn [fst snd app].
    do 2 f_equal; [|by do 3 f_equal; lia]. apply list_eq. intros j. destruct (decide (j = i)) as [->|Hne].
    - rewrite !list_lookup_alter_eq, !list_lookup_fmap, list_lookup_alter_eq, Hi. done.
    - rewrite !list_lookup_alter_ne, !list_lookup_fmap, list_lookup_alter_ne by done. done. }
  rewrite E3 in E2. injection E2 as <- <- <-. done.
Qed.
End Terminal.

(** ** A machine with a CRT controller and a serial port that is always ready *)

Record toy := Toy { toy_sel : Z; toy_regs : Z -> Z }.

#[global] Instance toy_ports : Ports toy := {|
  inb := fun p d => (if p =? CRTPORT + 1 then u8 (toy_regs d (toy_sel d)) else 32, d);
  outb := fun p v d => if p =? CRTPORT then Toy v (toy_regs d) else if p =? CRTPORT + 1 then Toy (toy_sel d) (upd (toy_regs d) (toy_sel d) v) else d;
  insl := fun _ n d => (replicate n 0, d);
  outsl := fun _ _ d => d
|}.

#[global] Instance toy_crtc : Crtc toy.
Proof.
  refine {| crtc_sel := toy_sel; crtc_reg := fun d i => u8 (toy_regs d i) |}; try done.
  - intros d v. split; [done|]. intros i. change (u8 (upd (toy_regs d) (toy_sel d) v i) = if decide (i = toy_sel d) then u8 v else u8 (toy_regs d i)). unfold upd. by destruct (decide _).
  - intros d p v Hp. cbn. unfold COM1, CRTPORT in *. rewrite (proj2 (Z.eqb_neq p 980)), (proj2 (Z.eqb_neq p (980 + 1))) by lia. done.
  - intros d i. apply u8_range.
Defined.

Definition toy_console : con toy := Con false true true (replicate 128 0) 0 0 0 0 (replicate (Z.to_nat CELLS) 1792) (Toy 14 (fun _ => 0)).
Definition toy_state : con toy * fsys bst := (toy_console, x_fs sample_kernel.1).

Lemma toy_rel : con_rel toy_state (Line [] []).
Proof.
  assert (E : held toy_state.2 = []) by reflexivity. unfold con_rel. rewrite E. split; [|split; apply not_elem_of_nil].
  split; [split; [done|by vm_compute|by split; vm_compute]|]. split; [|done|set_solver].
  split; cbn; try done; lia.
Qed.

Lemma console_line_discipline_witness : exists s' l' ths' out,
  con_run [Read 0 10; Keys [] [97; 98; 127; 10]] (Sys toy_state [Thread false Idle] []) = Some (Sys s' ths' out) /\
  line_run [Read 0 10; Keys [] [97; 98; 127; 10]] (Sys (Line [] []) [Thread false Idle] []) = Some (Sys l' ths' out) /\ con_rel s' l' /\
  forall i k target n acc, ths' !! i = Some (Thread k (Asleep target n acc)) -> k = false /\ c_r s'.1 = c_w s'.1.
Proof.
  apply (console_line_discipline [Read 0 10; Keys [] [97; 98; 127; 10]] toy_state (Line [] []) [Thread false Idle]).
  - apply toy_rel.
  - repeat constructor; lia.
  - by repeat constructor.
Defined.

Lemma console_reads_edited_line_witness : exists s', con_run [Read 0 10; Keys [] ([120] ++ [ctrl_u] ++ [108; 115] ++ [cr]); Resume 0] (Sys toy_state [Thread false Idle] []) =
    Some (Sys s' [Thread false Idle] [(0%nat, 3, [108; 115; 10])]) /\ con_rel s' (Line [] []).
Proof.
  apply (console_reads_edited_line toy_state [Thread false Idle] 0 10 [] [120] [108; 115]); try done; try (cbn; lia).
  - apply toy_rel.
  - repeat constructor; try lia; apply (bool_decide_unpack _); by vm_compute.
  - repeat constructor; try lia; apply (bool_decide_unpack _); by vm_compute.
Defined.
