(* ===== verification/Grep.v ===== *)
(** * grep: the matcher and the line loop of grep.c

    A C string is the list of its characters without the final 0, so [re[0] == 0] is the
    empty list.  The buffer of [grep] is the list of its 1024 bytes; a read or a store outside it, which C
    leaves undefined, is the result [GUndef].  The file is what its reads return. *)

From S2P Require Import Prelude.

Definition ch_star : Z := 42.
Definition ch_dot : Z := 46.
Definition ch_dollar : Z := 36.
Definition ch_caret : Z := 94.
Definition ch_nl : Z := 10.

(** ** The matcher *)

(** [matchstar(c, re, text)], where [here] is [matchhere] of [re]. *)
Fixpoint matchstar (c : Z) (here : list Z -> bool) (text : list Z) : bool :=
  here text ||
  match text with
  | x :: text' => if (x =? c) || (c =? ch_dot) then matchstar c here text' else false
  | [] => false
  end.

Fixpoint matchhere (re text : list Z) : bool :=
  match re with
  | [] => true
  | c :: re1 =>
      match re1 with
      | s :: re2 =>
          if s =? ch_star then matchstar c (matchhere re2) text
          else match text with
               | x :: text' => if (c =? ch_dot) || (c =? x) then matchhere re1 text' else false
               | [] => false
               end
      | [] =>
          if c =? ch_dollar then bool_decide (text = [])
          else match text with
               | x :: text' => if (c =? ch_dot) || (c =? x) then matchhere re1 text' else false
               | [] => false
               end
      end
  end.

(** The loop of [match] over the suffixes of the text, the empty one included. *)
Fixpoint match_any (re text : list Z) : bool :=
  matchhere re text ||
  match text with
  | _ :: text' => match_any re text'
  | [] => false
  end.

Definition grep_match (re text : list Z) : bool :=
  match re with
  | c :: re1 => if c =? ch_caret then matchhere re1 text else match_any re text
  | [] => match_any re text
  end.

(** ** The line loop *)

Inductive gres (A : Type) := GOk (a : A) | GUndef | GNoFuel.
Arguments GOk {A}.
Arguments GUndef {A}.
Arguments GNoFuel {A}.

Definition BUFSIZE : Z := 1024.

(** [strchr(p, '\n')] in the buffer: the offset of the newline, or none when a 0 comes before it. *)
Fixpoint find_nl (l : list Z) (p : Z) : gres (option Z) :=
  match l with
  | [] => GUndef
  | c :: l' => if c =? 0 then GOk None else if c =? ch_nl then GOk (Some p) else find_nl l' (p + 1)
  end.

(** The C string at offset [p]. *)
Fixpoint cstr (l : list Z) : list Z :=
  match l with
  | c :: l' => if c =? 0 then [] else c :: cstr l'
  | [] => []
  end.

Definition from (p : Z) (buf : list Z) : list Z := drop (Z.to_nat p) buf.
Definition set_at (q v : Z) (buf : list Z) : list Z := <[ Z.to_nat q := v ]> buf.

(** The loop over the lines: the buffer, the output, and [p] at the end.  The newline of a line that does not
    match stays 0. *)
Fixpoint lines_loop (pattern buf : list Z) (p : Z) (out : list Z) (fuel : nat) : gres (list Z * Z * list Z) :=
  match fuel with
  | O => GNoFuel
  | S fuel' =>
      match find_nl (from p buf) p with
      | GUndef => GUndef
      | GNoFuel => GNoFuel
      | GOk None => GOk (buf, p, out)
      | GOk (Some q) =>
          let buf0 := set_at q 0 buf in
          if grep_match pattern (cstr (from p buf0)) then
            let buf1 := set_at q ch_nl buf0 in
            lines_loop pattern buf1 (q + 1) (out ++ take (Z.to_nat (q + 1 - p)) (from p buf1)) fuel'
          else lines_loop pattern buf0 (q + 1) out fuel'
      end
  end.

(** A file descriptor: what the next reads find; [read] takes at most [n] bytes. *)
Definition read_fd (chunks : list (list Z)) (n : Z) : list Z * list (list Z) :=
  match chunks with
  | [] => ([], [])
  | ch :: rest =>
      if Z.of_nat (length ch) <=? n then (ch, rest)
      else (take (Z.to_nat n) ch, drop (Z.to_nat n) ch :: rest)
  end.

Fixpoint grep_loop (pattern buf : list Z) (m : Z) (chunks : list (list Z)) (out : list Z) (fuel : nat) : gres (list Z) :=
  match fuel with
  | O => GNoFuel
  | S fuel' =>
      let '(bytes, rest) := read_fd chunks (BUFSIZE - m) in
      if bool_decide (bytes = []) then GOk out
      else if m <? 0 then GUndef
      else
        let buf1 := splice (Z.to_nat m) bytes buf in
        let m1 := m + Z.of_nat (length bytes) in
        match lines_loop pattern buf1 0 out (S (length buf1)) with
        | GUndef => GUndef
        | GNoFuel => GNoFuel
        | GOk (buf2, p, out2) =>
            let m2 := if p =? 0 then 0 else m1 in
            if 0 <? m2 then
              grep_loop pattern (splice 0 (take (Z.to_nat (m2 - p)) (from p buf2)) buf2) (m2 - p) rest out2 fuel'
            else grep_loop pattern buf2 m2 rest out2 fuel'
        end
  end.

(** Every read but the last takes a byte. *)
Definition grep_fuel (chunks : list (list Z)) : nat := S (length (concat chunks)).

Definition grep (pattern : list Z) (chunks : list (list Z)) : gres (list Z) :=
  grep_loop pattern (replicate (Z.to_nat BUFSIZE) 0) 0 chunks [] (grep_fuel chunks).

(** ** The language of a pattern *)

(** A pattern is a sequence of characters ([.] is any character), each once or starred, and
    may be anchored at the end. *)
Inductive item := One (c : Z) | Star (c : Z).

Definition accepts (c x : Z) : bool := (c =? ch_dot) || (c =? x).

Inductive lang : list item -> list Z -> Prop :=
  | lang_nil : lang [] []
  | lang_one c x r t : accepts c x = true -> lang r t -> lang (One c :: r) (x :: t)
  | lang_star_none c r t : lang r t -> lang (Star c :: r) t
  | lang_star_more c x r t : accepts c x = true -> lang (Star c :: r) t -> lang (Star c :: r) (x :: t).

Fixpoint items (re : list Z) : list item :=
  match re with
  | [] => []
  | c :: re1 =>
      match re1 with
      | s :: re2 => if s =? ch_star then Star c :: items re2 else One c :: items re1
      | [] => if c =? ch_dollar then [] else [One c]
      end
  end.

(** The final [$] that is not starred. *)
Fixpoint anchored_end (re : list Z) : bool :=
  match re with
  | [] => false
  | c :: re1 =>
      match re1 with
      | s :: re2 => if s =? ch_star then anchored_end re2 else anchored_end re1
      | [] => c =? ch_dollar
      end
  end.

(** The pattern matches a prefix of the text. *)
Definition prefix_in (re text : list Z) : Prop :=
  exists a b, text = a ++ b /\ lang (items re) a /\ (anchored_end re = true -> b = []).

Lemma lang_star_inv c r t : lang (Star c :: r) t <-> lang r t \/ exists x t', t = x :: t' /\ accepts c x = true /\ lang (Star c :: r) t'.
Proof.
  split.
  - intros H. inversion H; subst; [by left|right; eauto].
  - intros [H|(x & t' & -> & Ha & H)]; by constructor.
Qed.

Lemma matchstar_spec c here (r : list item) (e : bool) :
  (forall text, here text = true <-> exists a b, text = a ++ b /\ lang r a /\ (e = true -> b = [])) ->
  forall text, matchstar c here text = true <-> exists a b, text = a ++ b /\ lang (Star c :: r) a /\ (e = true -> b = []).
Proof.
  intros Hh text. induction text as [|x text IH]; cbn [matchstar].
  - rewrite orb_false_r, Hh. split; intros (a & b & E & H & He); exists a, b; (split; [done|]); (split; [|done]).
    + by constructor.
    + destruct a; [|done]. apply lang_star_inv in H as [H|(? & ? & ? & _)]; done.
  - rewrite orb_true_iff, Hh. split.
    + intros [(a & b & E & H & He)|H].
      * exists a, b. split; [done|]. split; [by constructor|done].
      * destruct ((x =? c) || (c =? ch_dot)) eqn:Ea; [|done]. apply IH in H as (a & b & -> & H & He).
        exists (x :: a), b. split; [done|]. split; [|done]. apply lang_star_more; [|done].
        unfold accepts. rewrite orb_comm, (Z.eqb_sym c x). done.
    + intros (a & b & E & H & He). apply lang_star_inv in H as [H|(y & a' & -> & Ha & H)]; [left; eauto|right].
      injection E as -> ->. unfold accepts in Ha. rewrite orb_comm, (Z.eqb_sym c y) in Ha. rewrite Ha. apply IH. eauto.
Qed.

Lemma lang_one_inv c r t : lang (One c :: r) t <-> exists x t', t = x :: t' /\ accepts c x = true /\ lang r t'.
Proof.
  split.
  - intros H. inversion H; subst. eauto.
  - intros (x & t' & -> & Ha & H). by constructor.
Qed.

(** One character of the pattern against the text. *)
Lemma one_spec c (r : list item) (e : bool) (here : list Z -> bool) :
  (forall text, here text = true <-> exists a b, text = a ++ b /\ lang r a /\ (e = true -> b = [])) ->
  forall text, match text with x :: text' => if (c =? ch_dot) || (c =? x) then here text' else false | [] => false end = true <->
    exists a b, text = a ++ b /\ lang (One c :: r) a /\ (e = true -> b = []).
Proof.
  intros Hh [|x text].
  - split; [done|]. intros (a & b & E & H & _). destruct a; [|done]. by apply lang_one_inv in H as (? & ? & ? & _).
  - split.
    + destruct ((c =? ch_dot) || (c =? x)) eqn:Ea; [|done]. intros (a & b & -> & H & He)%Hh.
      exists (x :: a), b. split; [done|]. split; [by constructor|done].
    + intros (a & b & E & H & He). apply lang_one_inv in H as (y & a' & -> & Ha & H). injection E as -> ->.
      unfold accepts in Ha. rewrite Ha. apply Hh. eauto.
Qed.

Lemma matchhere_spec : forall re text, matchhere re text = true <-> prefix_in re text.
Proof.
  apply (list_ind2 (fun re => forall text, matchhere re text = true <-> prefix_in re text)); unfold prefix_in.
  - intros text. split; [|done]. intros _. exists [], text. split; [done|]. split; [constructor|done].
  - intros c text. cbn [matchhere items anchored_end]. destruct (c =? ch_dollar) eqn:E.
    + rewrite bool_decide_eq_true. split.
      * intros ->. exists [], []. split; [done|]. split; [constructor|done].
      * intros (a & b & -> & H & He). inversion H; subst. by apply He.
    + apply one_spec. intros t. split; [|done]. intros _. exists [], t. split; [done|]. split; [constructor|done].
  - intros c s re IH1 IH2 text.
    change (matchhere (c :: s :: re) text) with (if s =? ch_star then matchstar c (matchhere re) text
      else match text with x :: text' => if (c =? ch_dot) || (c =? x) then matchhere (s :: re) text' else false | [] => false end).
    change (items (c :: s :: re)) with (if s =? ch_star then Star c :: items re else One c :: items (s :: re)).
    change (anchored_end (c :: s :: re)) with (if s =? ch_star then anchored_end re else anchored_end (s :: re)).
    destruct (s =? ch_star); [by apply matchstar_spec|by apply one_spec].
Qed.

Lemma match_any_spec re text : match_any re text = true <-> exists a b, text = a ++ b /\ prefix_in re b.
Proof.
  induction text as [|x text IH]; cbn [match_any].
  - rewrite orb_false_r, matchhere_spec. split; [intros H; by exists [], []|]. intros (a & b & E & H). by destruct a; simplify_eq/=.
  - rewrite orb_true_iff, matchhere_spec, IH. split.
    + intros [H|(a & b & -> & H)]; [by exists [], (x :: text)|by exists (x :: a), b].
    + intros (a & b & E & H). destruct a as [|y a]; simplify_eq/=; [by left|right; eauto].
Qed.

(** Where the pattern may start: [^] ties it to the start of the text. *)
Definition anchored_start (re : list Z) : bool := match re with c :: _ => c =? ch_caret | [] => false end.
Definition body (re : list Z) : list Z := if anchored_start re then tail re else re.

(** C36: the matcher of grep accepts exactly the texts that contain a word of the pattern's language: a middle part of
    the text is in it, starting at the start of the text after a [^] and reaching its end before a final [$]. *)
Theorem grep_match_correct re text :
  grep_match re text = true <-> exists a b c, text = a ++ b ++ c /\ lang (items (body re)) b /\
    (anchored_start re = true -> a = []) /\ (anchored_end (body re) = true -> c = []).
Proof.
  unfold grep_match, body, anchored_start. destruct re as [|k re]; [|destruct (k =? ch_caret) eqn:Ek]; cbn [tail].
  2: { rewrite matchhere_spec. split.
    - intros (b & c & -> & H & He). by exists [], b, c.
    - intros (a & b & c & -> & H & Ha & He). rewrite Ha by done. by exists b, c. }
  all: rewrite match_any_spec; split; [intros (a & ? & -> & b & c & -> & H & He); by exists a, b, c|].
  all: intros (a & b & c & -> & H & _ & He); exists a, (b ++ c); split; [done|]; by exists b, c.
Qed.

(** ** The line loop on a text that one read delivers *)

(** The terminated lines of a text, and what grep is to print. *)
Fixpoint lines_from (cur l : list Z) : list (list Z) :=
  match l with
  | [] => []
  | c :: l' => if c =? ch_nl then cur :: lines_from [] l' else lines_from (cur ++ [c]) l'
  end.
Definition lines (l : list Z) : list (list Z) := lines_from [] l.
Definition grep_out (pattern l : list Z) : list Z :=
  concat ((fun x => x ++ [ch_nl]) <$> filter (fun x => grep_match pattern x = true) (lines l)).

(** A text is without newline, or is a first line and the rest. *)
Lemma first_line l : (ch_nl ∉ l) \/ exists a l', l = a ++ ch_nl :: l' /\ (ch_nl ∉ a).
Proof.
  induction l as [|c l IH]; [left; set_solver|]. destruct (decide (c = ch_nl)) as [->|Hc]; [right; exists [], l; set_solver|].
  destruct IH as [IH|(a & l' & -> & IH)]; [left; set_solver|right]. exists (c :: a), l'. set_solver.
Qed.

Lemma lines_from_none cur l : (ch_nl ∉ l) -> lines_from cur l = [].
Proof.
  revert cur. induction l as [|c l IH]; intros cur H; [done|]. cbn [lines_from].
  rewrite (proj2 (Z.eqb_neq _ _)) by set_solver. apply IH. set_solver.
Qed.

Lemma lines_from_line cur a l : (ch_nl ∉ a) -> lines_from cur (a ++ ch_nl :: l) = (cur ++ a) :: lines_from [] l.
Proof.
  revert cur. induction a as [|c a IH]; intros cur H; cbn [lines_from app].
  - by rewrite Z.eqb_refl, app_nil_r.
  - rewrite (proj2 (Z.eqb_neq _ _)) by set_solver. rewrite IH by set_solver. by rewrite <- app_assoc.
Qed.

Lemma grep_out_none pattern l : (ch_nl ∉ l) -> grep_out pattern l = [].
Proof. intros H. unfold grep_out, lines. by rewrite lines_from_none. Qed.

Lemma grep_out_line pattern a l : (ch_nl ∉ a) ->
  grep_out pattern (a ++ ch_nl :: l) = (if grep_match pattern a then a ++ [ch_nl] else []) ++ grep_out pattern l.
Proof.
  intros H. unfold grep_out, lines. rewrite lines_from_line by done. rewrite filter_cons. simpl.
  destruct (grep_match pattern a) eqn:E; [rewrite decide_True by done|rewrite decide_False by done]; done.
Qed.

Lemma find_nl_none l k p : (ch_nl ∉ l) -> (0 ∉ l) -> find_nl (l ++ replicate (S k) 0) p = GOk None.
Proof.
  revert p. induction l as [|c l IH]; intros p H1 H2; [done|]. cbn [find_nl app].
  rewrite !(proj2 (Z.eqb_neq _ _)) by set_solver. apply IH; set_solver.
Qed.

Lemma find_nl_line a l p : (ch_nl ∉ a) -> (0 ∉ a) -> find_nl (a ++ ch_nl :: l) p = GOk (Some (p + Z.of_nat (length a))).
Proof.
  revert p. induction a as [|c a IH]; intros p H1 H2; cbn [find_nl app length].
  - rewrite Z.eqb_refl. cbn. do 2 f_equal. lia.
  - rewrite !(proj2 (Z.eqb_neq _ _)) by set_solver. rewrite IH by set_solver. do 2 f_equal. lia.
Qed.

Lemma cstr_line a l : (0 ∉ a) -> cstr (a ++ 0 :: l) = a.
Proof.
  induction a as [|c a IH]; intros H; cbn [cstr app]; [done|]. rewrite (proj2 (Z.eqb_neq _ _)) by set_solver. f_equal. apply IH. set_solver.
Qed.

Lemma from_app pre l p : p = Z.of_nat (length pre) -> from p (pre ++ l) = l.
Proof. intros ->. unfold from. rewrite Nat2Z.id. apply drop_app_length. Qed.

Lemma set_at_app pre c l q v : q = Z.of_nat (length pre) -> set_at q v (pre ++ c :: l) = pre ++ v :: l.
Proof. intros ->. unfold set_at. rewrite Nat2Z.id. rewrite insert_app_r_alt, Nat.sub_diag by lia. done. Qed.

(** The newline of the line is back when the line is printed. *)
Lemma print_line pre a l p : p = Z.of_nat (length pre) ->
  take (Z.to_nat (p + Z.of_nat (length a) + 1 - p)) (from p (pre ++ a ++ ch_nl :: l)) = a ++ [ch_nl].
Proof.
  intros Hp. rewrite from_app by done. replace (Z.to_nat _) with (length (a ++ [ch_nl])) by (rewrite length_app; simpl; lia).
  rewrite (cons_middle ch_nl a l), app_assoc. apply take_app_length.
Qed.

Lemma lines_loop_spec pattern k fuel : forall rest pre p out, (0 ∉ rest) -> p = Z.of_nat (length pre) -> (length rest < fuel)%nat ->
  exists buf2 p2, lines_loop pattern (pre ++ rest ++ replicate (S k) 0) p out fuel = GOk (buf2, p2, out ++ grep_out pattern rest).
Proof.
  induction fuel as [|fuel IH]; intros rest pre p out H0 Hp Hf; [lia|]. cbn [lines_loop]. rewrite from_app by done.
  destruct (first_line rest) as [Hn|(a & l & -> & Hn)].
  - rewrite find_nl_none by done. do 2 eexists. by rewrite grep_out_none, app_nil_r.
  - rewrite <- app_assoc. cbn [app]. rewrite find_nl_line by set_solver. cbv zeta. set (tl := l ++ replicate (S k) 0).
    assert (Eq : forall c v, set_at (p + Z.of_nat (length a)) v (pre ++ a ++ c :: tl) = pre ++ a ++ v :: tl).
    { intros c v. rewrite (app_assoc pre a (c :: tl)), set_at_app by (rewrite length_app; lia). by rewrite <- app_assoc. }
    rewrite !Eq, from_app, cstr_line by (done || set_solver). rewrite (print_line pre a tl p) by done. rewrite grep_out_line by done.
    rewrite length_app in Hf. simpl in Hf.
    assert (Hstep : forall v out', exists buf2 p2, lines_loop pattern (pre ++ a ++ v :: tl) (p + Z.of_nat (length a) + 1) out' fuel =
      GOk (buf2, p2, out' ++ grep_out pattern l)).
    { intros v out'. destruct (IH l (pre ++ a ++ [v]) (p + Z.of_nat (length a) + 1) out') as (buf2 & p2 & E).
      - set_solver.
      - rewrite !length_app. simpl. lia.
      - lia.
      - exists buf2, p2. rewrite <- E. f_equal. unfold tl. by rewrite <- !app_assoc. }
    destruct (grep_match pattern a); [|apply Hstep]. rewrite (app_assoc out (a ++ [ch_nl])). apply Hstep.
Qed.

(** A text of at most 1023 bytes that one read delivers: grep prints the terminated lines that match, in order. *)
Theorem grep_one_read pattern data : (0 ∉ data) -> Z.of_nat (length data) < BUFSIZE -> grep pattern [data] = GOk (grep_out pattern data).
Proof.
  intros H0 Hl. unfold BUFSIZE in Hl. unfold grep, grep_fuel. cbn [concat]. rewrite app_nil_r.
  destruct (decide (data = [])) as [->|Hne]; [done|]. destruct data as [|x data]; [done|]. set (d := x :: data) in *.
  change (S (length d)) with (S (S (length data))). remember (S (length data)) as fuel eqn:Ef.
  cbn [grep_loop]. change (read_fd [d] (BUFSIZE - 0)) with (if Z.of_nat (length d) <=? 1024 then (d, []) else (take (Z.to_nat 1024) d, [drop (Z.to_nat 1024) d])).
  rewrite (proj2 (Z.leb_le _ _)) by lia. rewrite bool_decide_false by done. change (0 <? 0) with false. cbv iota zeta.
  assert (Eb : splice (Z.to_nat 0) d (replicate (Z.to_nat BUFSIZE) 0) = [] ++ d ++ replicate (S (1023 - length d)) 0).
  { unfold splice. change (Z.to_nat 0) with 0%nat. rewrite Nat.add_0_l, drop_replicate. cbn [take app]. change (Z.to_nat BUFSIZE) with 1024%nat. by replace (1024 - length d)%nat with (S (1023 - length d)) by lia. }
  rewrite Eb. set (buf := [] ++ d ++ _). 
  destruct (lines_loop_spec pattern (1023 - length d) (S (length buf)) d [] 0 [] H0 eq_refl) as (buf2 & p2 & E).
  { unfold buf. rewrite !length_app. simpl. lia. }
  fold buf in E. rewrite E. subst fuel. cbn [app]. destruct (0 <? _); done.
Qed.

(** ** Termination *)

Lemma find_nl_range l p : find_nl l p <> GNoFuel /\ forall q, find_nl l p = GOk (Some q) -> p <= q < p + Z.of_nat (length l).
Proof.
  revert p. induction l as [|c l IH]; intros p; cbn [find_nl length]; [done|].
  destruct (c =? 0); [done|]. destruct (c =? ch_nl); [split; [done|]; intros q [= ->]; lia|].
  destruct (IH (p + 1)) as [H1 H2]. split; [done|]. intros q Hq. apply H2 in Hq. lia.
Qed.

Lemma lines_loop_total pattern fuel : forall buf p out, 0 <= p <= Z.of_nat (length buf) -> Z.of_nat (length buf) < p + Z.of_nat fuel ->
  lines_loop pattern buf p out fuel <> GNoFuel.
Proof.
  induction fuel as [|fuel IH]; intros buf p out Hp Hf; [lia|]. cbn [lines_loop].
  destruct (find_nl_range (from p buf) p) as [H1 H2]. destruct (find_nl (from p buf) p) as [[q|]| |]; try done.
  specialize (H2 q eq_refl). unfold from in H2. rewrite length_drop in H2.
  destruct (grep_match _ _); apply IH; unfold set_at; rewrite ?length_insert; lia.
Qed.

Lemma read_fd_takes chunks n bytes rest : read_fd chunks n = (bytes, rest) -> concat chunks = bytes ++ concat rest.
Proof.
  destruct chunks as [|ch chunks]; simpl; [by intros [= <- <-]|]. destruct (_ <=? n); intros [= <- <-]; [done|].
  simpl. by rewrite app_assoc, take_drop.
Qed.

Lemma grep_loop_total pattern fuel : forall buf m chunks out, (length (concat chunks) < fuel)%nat -> grep_loop pattern buf m chunks out fuel <> GNoFuel.
Proof.
  induction fuel as [|fuel IH]; intros buf m chunks out Hf; [lia|]. cbn [grep_loop].
  destruct (read_fd chunks (BUFSIZE - m)) as [bytes rest] eqn:Er. apply read_fd_takes in Er. rewrite Er, length_app in Hf.
  case_bool_decide as Hb; [done|]. destruct (m <? 0); [done|]. cbv zeta.
  assert (Hlen : (length bytes <> 0)%nat) by (destruct bytes; done).
  set (buf1 := splice _ bytes buf). pose proof (lines_loop_total pattern (S (length buf1)) buf1 0 out ltac:(lia) ltac:(lia)) as Ht.
  destruct (lines_loop pattern buf1 0 out (S (length buf1))) as [[[buf2 p] out2]| |]; [|done|done].
  destruct (0 <? _); apply IH; lia.
Qed.

(** grep ends on every file. *)
Theorem grep_total pattern chunks : grep pattern chunks <> GNoFuel.
Proof. apply grep_loop_total. unfold grep_fuel. lia. Qed.

(** ** Files that do not fit the buffer *)

Lemma find_nl_past l p : (ch_nl ∉ l) -> (0 ∉ l) -> find_nl l p = GUndef.
Proof.
  revert p. induction l as [|c l IH]; intros p H1 H2; [done|]. cbn [find_nl].
  rewrite !(proj2 (Z.eqb_neq _ _)) by set_solver. apply IH; set_solver.
Qed.

Lemma lines_loop_past pattern fuel : forall rest pre p out, (0 ∉ rest) -> p = Z.of_nat (length pre) -> (length rest < fuel)%nat ->
  lines_loop pattern (pre ++ rest) p out fuel = GUndef.
Proof.
  induction fuel as [|fuel IH]; intros rest pre p out H0 Hp Hf; [lia|]. cbn [lines_loop]. rewrite from_app by done.
  destruct (first_line rest) as [Hn|(a & l & -> & Hn)]; [by rewrite find_nl_past|].
  rewrite find_nl_line by set_solver. cbv zeta. rewrite length_app in Hf. simpl in Hf.
  assert (Hstep : forall v out', lines_loop pattern (set_at (p + Z.of_nat (length a)) v (pre ++ a ++ ch_nl :: l)) (p + Z.of_nat (length a) + 1) out' fuel = GUndef).
  { intros v out'. rewrite (app_assoc pre a (ch_nl :: l)), set_at_app by (rewrite length_app; lia). rewrite (cons_middle v _ l), app_assoc.
    apply IH; [set_solver|rewrite !length_app; simpl; lia|lia]. }
  destruct (grep_match _ _); [|apply Hstep]. rewrite (app_assoc pre a (ch_nl :: l)), (set_at_app (pre ++ a)) by (rewrite length_app; lia).
  rewrite <- app_assoc. rewrite (app_assoc pre a (0 :: l)), (set_at_app (pre ++ a)) by (rewrite length_app; lia).
  rewrite <- (set_at_app (pre ++ a) ch_nl l (p + Z.of_nat (length a)) ch_nl) by (rewrite length_app; lia). rewrite <- app_assoc. apply Hstep.
Qed.

(** [strchr] runs past the end of the buffer on every file of 1024 bytes or more without a 0 among the first 1024. *)
Theorem grep_large_file_undefined pattern data : (0 ∉ take 1024 data) -> (1024 <= length data)%nat -> grep pattern [data] = GUndef.
Proof.
  intros H0 Hl. unfold grep, grep_fuel. cbn [concat]. rewrite app_nil_r. destruct (length data) as [|fuel] eqn:El; [lia|].
  cbn [grep_loop]. assert (Er : read_fd [data] (BUFSIZE - 0) = (take 1024 data, if Nat.eqb (length data) 1024 then [] else [drop 1024 data])).
  { unfold read_fd. change (BUFSIZE - 0) with 1024. change (Z.to_nat 1024) with 1024%nat. destruct (Nat.eqb_spec (length data) 1024) as [E|E].
    - rewrite E, take_ge by lia. done.
    - rewrite (proj2 (Z.leb_gt _ _)) by lia. done. }
  rewrite Er. assert (L1 : length (take 1024 data) = 1024%nat) by (rewrite length_take; lia).
  rewrite bool_decide_false by (intros E; by rewrite E in L1). change (0 <? 0) with false. cbv iota zeta.
  assert (Eb : splice (Z.to_nat 0) (take 1024 data) (replicate (Z.to_nat BUFSIZE) 0) = [] ++ take 1024 data).
  { unfold splice. rewrite L1, drop_replicate. change (replicate (Z.to_nat BUFSIZE - (Z.to_nat 0 + 1024)) 0) with ([] : list Z). by rewrite app_nil_r. }
  rewrite Eb, lines_loop_past; [done|done|done|]. simpl. lia.
Qed.

(** After a short read the line loop goes on into the bytes of earlier reads, and prints lines again:
    the reads bring the lines aa, ab and c, and ab is printed twice. *)
Theorem grep_repeats_stale_lines : grep [97] [[97; 97; 10; 97; 98; 10]; [99; 10]] = GOk [97; 97; 10; 97; 98; 10; 97; 98; 10].
Proof. by vm_compute. Qed.
