(* ===== verification/Umalloc.v ===== *)
(** * The user-level allocator: umalloc.c

    The memory is that of the process, byte by byte; a header is eight bytes, the pointer to the next free block and
    the size of the block in units of a header.  [um_freep] is [freep], 0 before the first call; [base] is the
    address of the header of size 0 that the ring starts from.  [sbrk] is the system call: [grow] says for the size of the process and the
    bytes asked for what the new size is, or that the kernel refuses. *)

From S2P Require Import Prelude CString.

Definition sizeof_Header : Z := 8.

Record um := Um { um_mem : mem; um_freep : Z; um_sz : Z }.

Definition set_um_mem (m : mem) (s : um) : um := Um m (um_freep s) (um_sz s).
Definition set_um_freep (p : Z) (s : um) : um := Um (um_mem s) p (um_sz s).
Definition set_um_sz (n : Z) (s : um) : um := Um (um_mem s) (um_freep s) n.

(** [p->s.ptr] and [p->s.size]. *)
Definition hptr (p : Z) : K um Z := kgets (fun s => ld32 (um_mem s) p).
Definition hsize (p : Z) : K um Z := kgets (fun s => ld32 (um_mem s) (p + 4)).
Definition set_hptr (p v : Z) : K um unit := kmod (fun s => set_um_mem (st32 (um_mem s) p v) s).
Definition set_hsize (p v : Z) : K um unit := kmod (fun s => set_um_mem (st32 (um_mem s) (p + 4) v) s).

(** [p + n] for a pointer to headers. *)
Definition hadd (p n : Z) : Z := u32 (p + n * sizeof_Header).

Section Umalloc.
Variable (base : Z) (grow : Z -> Z -> option Z).

(** No more free blocks than headers fit into the process. *)
Definition um_fuel (s : um) : nat := S (S (Z.to_nat (um_sz s / sizeof_Header))).

(** The loop of [free]: the block of the ring after which [bp] belongs. *)
Fixpoint free_loop (bp p : Z) (fuel : nat) : K um Z :=
  match fuel with
  | O => knofuel
  | S fuel' =>
      let* next := hptr p in
      if (p <? bp) && (bp <? next) then kret p
      else if (next <=? p) && ((p <? bp) || (bp <? next)) then kret p
      else free_loop bp next fuel'
  end.

(** [free] joins the block with its upper neighbour [p->s.ptr], or links it in front of it; *)
Definition join_upper (bp p : Z) : K um unit :=
  let* bsize := hsize bp in
  let* next := hptr p in
  if hadd bp bsize =? next then
    let* nsize := hsize next in
    set_hsize bp (u32 (bsize + nsize)) ;;;
    let* nnext := hptr next in
    set_hptr bp nnext
  else set_hptr bp next.

(** and the lower neighbour [p] with it. *)
Definition join_lower (bp p : Z) : K um unit :=
  let* psize := hsize p in
  if hadd p psize =? bp then
    let* bsize := hsize bp in
    set_hsize p (u32 (psize + bsize)) ;;;
    let* bnext := hptr bp in
    set_hptr p bnext
  else set_hptr p bp.

Definition free (ap : Z) : K um unit :=
  let bp := hadd ap (-1) in
  let* freep := kgets um_freep in
  let* fuel := kgets um_fuel in
  let* p := free_loop bp freep fuel in
  join_upper bp p ;;;
  join_lower bp p ;;;
  kmod (set_um_freep p).

(** The system call; its argument is an [int]. *)
Definition sbrk (n : Z) : K um Z :=
  let* sz := kgets um_sz in
  match grow sz (s32 n) with
  | Some sz' =>
      kmod (set_um_sz sz') ;;;
      kret sz
  | None => kret 4294967295
  end.

Definition morecore (nu : Z) : K um Z :=
  let nu := if nu <? 4096 then 4096 else nu in
  let* p := sbrk (u32 (nu * sizeof_Header)) in
  if p =? 4294967295 then kret 0
  else
    set_hsize p nu ;;;
    free (hadd p 1) ;;;
    kgets um_freep.

(** The block [p], which is large enough, less the units that are given out. *)
Definition carve (prevp p nunits : Z) : K um Z :=
  let* size := hsize p in
  let* q := (if size =? nunits then
      let* next := hptr p in
      set_hptr prevp next ;;;
      kret p
    else
      set_hsize p (u32 (size - nunits)) ;;;
      let* size := hsize p in
      set_hsize (hadd p size) nunits ;;;
      kret (hadd p size)) in
  kmod (set_um_freep prevp) ;;;
  kret (hadd q 1).

(** The loop of [malloc]. *)
Fixpoint malloc_loop (nunits prevp p : Z) (fuel : nat) : K um Z :=
  match fuel with
  | O => knofuel
  | S fuel' =>
      let* size := hsize p in
      if nunits <=? size then carve prevp p nunits
      else
        let* freep := kgets um_freep in
        if p =? freep then
          let* p := morecore nunits in
          if p =? 0 then kret 0
          else
            let* next := hptr p in
            malloc_loop nunits p next fuel'
        else
          let* next := hptr p in
          malloc_loop nunits p next fuel'
  end.

Definition units (nbytes : Z) : Z := u32 (u32 (nbytes + sizeof_Header - 1) / sizeof_Header + 1).

Definition malloc (nbytes : Z) : K um Z :=
  let* freep := kgets um_freep in
  (when freep =? 0 do
     (set_hptr base base ;;;
      kmod (set_um_freep base) ;;;
      set_hsize base 0)) ;;;
  let* prevp := kgets um_freep in
  let* p := hptr prevp in
  let* fuel := kgets um_fuel in
  malloc_loop (units nbytes) prevp p (fuel + fuel).
End Umalloc.
