(* ===== verification/UmallocSpec.v ===== *)
(** * What the allocator promises

    The free blocks form a ring in the order of their addresses, which starts at [base]; no two free blocks touch.  The blocks given
    out ([live]) are apart from them and from each other.  [malloc] and [free] keep this, always return, and change no byte of a block
    that is given out. *)

From S2P Require Import Prelude CString Umalloc.
From Stdlib Require Import Sorting.Sorted.

Abbreviation block := (Z * Z)%type.

(** ** Lists of blocks *)

Definition next_addr (xs : list block) (tl : Z) : Z := match xs with x :: _ => x.1 | [] => tl end.

(** The headers of [xs] are linked, and the last one points to [tl]. *)
Fixpoint chain (m : mem) (xs : list block) (tl : Z) : Prop :=
  match xs with
  | [] => True
  | x :: xs' => ld32 m x.1 = next_addr xs' tl /\ ld32 m (x.1 + 4) = x.2 /\ chain m xs' tl
  end.

Lemma next_addr_app xs ys tl : next_addr (xs ++ ys) tl = next_addr xs (next_addr ys tl).
Proof. by destruct xs. Qed.

Lemma chain_app m xs ys tl : chain m (xs ++ ys) tl <-> chain m xs (next_addr ys tl) /\ chain m ys tl.
Proof. induction xs as [|x xs IH]; cbn [app chain]; [tauto|]. rewrite IH, next_addr_app. tauto. Qed.

Definition same_hdr (m m' : mem) (a : Z) : Prop := ld32 m' a = ld32 m a /\ ld32 m' (a + 4) = ld32 m (a + 4).

Lemma chain_frame_hdr m m' xs tl : (forall x, x ∈ xs -> same_hdr m m' x.1) -> chain m xs tl -> chain m' xs tl.
Proof.
  induction xs as [|x xs IH]; intros H; cbn [chain]; [done|]. intros (H1 & H2 & H3). destruct (H x ltac:(left)) as [E1 E2]. rewrite E1, E2. split_and!; try done.
  apply IH; [|done]. intros y Hy. apply H. by right.
Qed.

Lemma same_hdr_trans m1 m2 m3 a : same_hdr m1 m2 a -> same_hdr m2 m3 a -> same_hdr m1 m3 a.
Proof. unfold same_hdr. intuition congruence. Qed.

Definition addr_ok (a : Z) : Prop := 0 <= a /\ a + 8 <= 2147483648.

(** Only the header at [a] has changed. *)
Definition only_hdr (m m' : mem) (a : Z) : Prop := forall b, b < a \/ a + 8 <= b -> m' b = m b.

Lemma only_hdr_trans m1 m2 m3 a : only_hdr m1 m2 a -> only_hdr m2 m3 a -> only_hdr m1 m3 a.
Proof. intros H1 H2 b Hb. by rewrite H2, H1. Qed.

Lemma only_hdr_same m m' a c : only_hdr m m' a -> addr_ok c -> c + 8 <= a \/ a + 8 <= c -> same_hdr m m' c.
Proof. intros H [H1 H2] Hc. split; apply ld32_eq; unfold fits; try lia; intros b Hb; apply H; lia. Qed.

Lemma only_st_ptr m a v : addr_ok a -> only_hdr m (st32 m a v) a.
Proof. intros [H1 H2] b Hb. rewrite st32_bytes by lia. repeat (destruct (_ =? _) eqn:?; bool_hyps; [lia|]). done. Qed.

Lemma only_st_size m a v : addr_ok a -> only_hdr m (st32 m (a + 4) v) a.
Proof. intros [H1 H2] b Hb. rewrite st32_bytes by lia. repeat (destruct (_ =? _) eqn:?; bool_hyps; [lia|]). done. Qed.

(** Both fields of a header are written. *)
Definition put_hdr (m : mem) (a next n : Z) : mem := st32 (st32 m (a + 4) n) a next.

Lemma put_hdr_spec m a next n : addr_ok a -> 0 <= next < 4294967296 -> 0 <= n < 4294967296 ->
  only_hdr m (put_hdr m a next n) a /\ ld32 (put_hdr m a next n) a = next /\ ld32 (put_hdr m a next n) (a + 4) = n.
Proof.
  intros Ha H1 H2. destruct Ha as [A1 A2]. unfold put_hdr. split_and!.
  - eapply only_hdr_trans; [apply only_st_size|apply only_st_ptr]; done.
  - apply ld32_st32; [unfold fits; lia|done].
  - rewrite ld32_st32_ne by (unfold fits; lia). apply ld32_st32; [unfold fits; lia|done].
Qed.

Lemma sorted_app {A} (R : A -> A -> Prop) xs ys : StronglySorted R (xs ++ ys) <-> StronglySorted R xs /\ StronglySorted R ys /\ forall x y, x ∈ xs -> y ∈ ys -> R x y.
Proof.
  induction xs as [|a xs IH]; cbn [app].
  - split; [|tauto]. intros H. split_and!; [constructor|done|]. by intros x y ?%elem_of_nil.
  - split.
    + intros [H1 H2]%StronglySorted_inv. apply IH in H1 as (A1 & A2 & A3). rewrite Forall_forall in H2. split_and!; [|done|].
      * constructor; [done|]. apply Forall_forall. intros x Hx. apply H2, elem_of_app. by left.
      * intros x y [->|Hx]%elem_of_cons Hy; [|by apply A3]. apply H2, elem_of_app. by right.
    + intros ([H1 H2]%StronglySorted_inv & H3 & H4). constructor.
      * apply IH. split_and!; try done. intros x y Hx. apply H4. by right.
      * apply Forall_app. split; [done|]. apply Forall_forall. intros y Hy. apply H4; [left|done].
Qed.

Lemma sorted_cons {A} (R : A -> A -> Prop) a xs : StronglySorted R (a :: xs) <-> StronglySorted R xs /\ forall x, x ∈ xs -> R a x.
Proof.
  split.
  - intros [H1 H2]%StronglySorted_inv. rewrite Forall_forall in H2. done.
  - intros [H1 H2]. constructor; [done|]. by apply Forall_forall.
Qed.

(** [x] lies before [y], and they do not touch. *)
Definition gap (x y : block) : Prop := x.1 + 8 * x.2 < y.1 /\ x.1 + 8 <= y.1.

Definition apart (x y : block) : Prop := x.1 + 8 * x.2 <= y.1 \/ y.1 + 8 * y.2 <= x.1.

(** ** The invariant *)

Section spec.
Variables (base : Z) (grow : Z -> Z -> option Z).
Hypothesis (Hbase : 0 < base).
Implicit Types (s : um) (bs : list block) (live : gmap nat block).

Definition nodes bs : list block := (base, 0) :: bs.

(** Where a block given out or to be freed may be. *)
Record placed s (x : block) : Prop := {
  pl_size : 0 < x.2;
  pl_low : base + 8 <= x.1;
  pl_high : x.1 + 8 * x.2 <= um_sz s
}.

Record heap s bs live : Prop := {
  hp_chain : chain (um_mem s) (nodes bs) base;
  hp_sorted : StronglySorted gap (nodes bs);
  hp_free : forall x, x ∈ bs -> placed s x;
  hp_freep : um_freep s ∈ (nodes bs).*1;
  hp_live : forall i x, live !! i = Some x -> placed s x /\ ld32 (um_mem s) (x.1 + 4) = x.2;
  hp_apart : forall i x y, live !! i = Some x -> y ∈ bs -> apart x y;
  hp_disj : forall i j x y, i <> j -> live !! i = Some x -> live !! j = Some y -> apart x y;
  hp_sz : base + 8 <= um_sz s <= 2147483648
}.

Lemma base_in bs : (base, 0) ∈ nodes bs.
Proof. left. Qed.

(** The last block of the ring below an address, and what comes after it. *)
Lemma split_at a xs : forall h, StronglySorted gap (h :: xs) -> h.1 < a -> (forall x, x ∈ xs -> x.1 <> a) ->
  exists u q r, h :: xs = u ++ q :: r /\ (forall x, x ∈ u ++ [q] -> x.1 < a) /\ (forall x, x ∈ r -> a < x.1).
Proof.
  induction xs as [|y xs IH]; intros h Hs Hh Hn.
  - exists [], h, []. split_and!; [done| |by intros x ?%elem_of_nil]. intros x. cbn. rewrite list_elem_of_singleton. by intros ->.
  - apply sorted_cons in Hs as [Hs Hg]. destruct (decide (y.1 < a)) as [Hy|Hy].
    + destruct (IH y Hs Hy) as (u & q & r & E & H1 & H2); [intros x Hx; apply Hn; by right|]. exists (h :: u), q, r. rewrite E. split_and!; try done.
      intros x [->|Hx]%elem_of_cons; [done|by apply H1].
    + exists [], h, (y :: xs). split_and!; [done|intros x; cbn; rewrite list_elem_of_singleton; by intros ->|].
      assert (Ha : a < y.1) by (pose proof (Hn y ltac:(left)); lia). apply sorted_cons in Hs as [_ Hs]. intros x [->|Hx]%elem_of_cons; [done|].
      destruct (Hs x Hx) as [_ ?]. lia.
Qed.

(** ** The loop of free *)

Lemma hptr_eq p s : hptr p s = Ok (ld32 (um_mem s) p) s.
Proof. done. Qed.

Lemma free_loop_step bp p fuel s : free_loop bp p (S fuel) s =
  (let next := ld32 (um_mem s) p in
   if (p <? bp) && (bp <? next) then Ok p s else if (next <=? p) && ((p <? bp) || (bp <? next)) then Ok p s else free_loop bp next fuel s).
Proof. cbn [free_loop]. unfold kbind. rewrite hptr_eq. cbv zeta. destruct (_ && _); [done|]. by destruct (_ && _). Qed.

Section find.
Variables (s : um) (bp : Z) (u : list block) (q : block) (r : list block).
Hypothesis (Hc : chain (um_mem s) (u ++ q :: r) base) (Hs : StronglySorted gap (u ++ q :: r)).
Hypothesis (Hlow : forall x, x ∈ u ++ [q] -> x.1 < bp) (Hhigh : forall x, x ∈ r -> bp < x.1) (Hhead : next_addr (u ++ q :: r) base = base).

Lemma base_below : base < bp.
Proof. rewrite <- Hhead. destruct u as [|x u']; cbn; apply Hlow; left. Qed.

Lemma find_low l2 : forall l1 x fuel, u ++ [q] = l1 ++ x :: l2 -> free_loop bp x.1 (S (length l2) + fuel) s = Ok q.1 s.
Proof.
  pose proof base_below as Hb. induction l2 as [|y l2 IH]; intros l1 x fuel E; cbn [length Nat.add].
  - apply app_inj_tail in E as [<- <-]. rewrite free_loop_step. cbv zeta. apply chain_app in Hc as [_ [Hq _]]. rewrite Hq.
    pose proof (Hlow q ltac:(apply elem_of_app; right; left)) as Hqb. destruct r as [|y r']; cbn [next_addr].
    + rewrite (proj2 (Z.ltb_lt _ _) Hqb), (proj2 (Z.ltb_ge _ base)) by lia. cbn [andb orb]. rewrite (proj2 (Z.leb_le _ _)); [done|].
      rewrite <- Hhead. destruct u as [|z u']; cbn; [done|]. apply sorted_app in Hs as (_ & _ & Hs). destruct (Hs z q ltac:(left) ltac:(left)). lia.
    + pose proof (Hhigh y ltac:(left)). by rewrite !(proj2 (Z.ltb_lt _ _)) by lia.
  - rewrite free_loop_step. cbv zeta. assert (Ef : u ++ q :: r = l1 ++ x :: y :: l2 ++ r) by (change (q :: r) with ([q] ++ r); rewrite app_assoc, E, <- app_assoc; done).
    pose proof Hc as Hc'. rewrite Ef in Hc'. apply chain_app in Hc' as [_ [Hx _]]. cbn [next_addr] in Hx. rewrite Hx.
    pose proof (Hlow y) as Hy. rewrite E in Hy. specialize (Hy ltac:(apply elem_of_app; right; right; left)).
    pose proof Hs as Hs'. rewrite Ef in Hs'. apply sorted_app in Hs' as (_ & [_ Hs']%sorted_cons & _). destruct (Hs' y ltac:(left)).
    rewrite (proj2 (Z.ltb_ge bp y.1)), andb_false_r, (proj2 (Z.leb_gt y.1 x.1)) by lia. cbn [andb]. apply (IH (l1 ++ [x])). by rewrite <- app_assoc.
Qed.

Lemma find_high r2 : forall r1 x fuel, r = r1 ++ x :: r2 -> free_loop bp x.1 (S (length r2) + (length (u ++ [q]) + fuel)) s = Ok q.1 s.
Proof.
  pose proof base_below as Hb. induction r2 as [|y r2 IH]; intros r1 x fuel E; cbn [length Nat.add]; rewrite free_loop_step; cbv zeta.
  all: pose proof Hc as Hc'; rewrite E in Hc'; change (q :: r1 ++ x :: ?z) with ([q] ++ r1 ++ x :: z) in Hc'; rewrite !app_assoc in Hc'; apply chain_app in Hc' as [_ [Hx _]]; cbn [next_addr] in Hx; rewrite Hx.
  all: assert (Hxb : bp < x.1) by (apply Hhigh; rewrite E; apply elem_of_app; right; left).
  - rewrite (proj2 (Z.ltb_ge x.1 bp)), (proj2 (Z.ltb_ge bp base)) by lia. cbn [andb orb]. rewrite andb_false_r.
    assert (Hh : exists h t, u ++ [q] = h :: t /\ h.1 = base) by (rewrite <- Hhead; destruct u as [|h t]; [by exists q, []|by exists h, (t ++ [q])]).
    destruct Hh as (h & t & Eu & Eh). rewrite <- Eh, Eu. cbn [length]. by apply (find_low t []).
  - rewrite (proj2 (Z.ltb_ge x.1 bp)) by lia. cbn [andb]. pose proof Hs as Hs'. rewrite E in Hs'. apply sorted_app in Hs' as (_ & [Hs' _]%sorted_cons & _).
    apply sorted_app in Hs' as (_ & [_ Hs']%sorted_cons & _). destruct (Hs' y ltac:(left)). rewrite (proj2 (Z.leb_gt y.1 x.1)) by lia. cbn [andb].
    apply (IH (r1 ++ [x])). by rewrite E, <- app_assoc.
Qed.

(** From any block of the ring the loop comes to the place of [bp]. *)
Lemma find_place p fuel : p ∈ (u ++ q :: r).*1 -> (length (u ++ q :: r) <= fuel)%nat -> free_loop bp p fuel s = Ok q.1 s.
Proof.
  intros (x & -> & Hx)%list_elem_of_fmap Hf. change (q :: r) with ([q] ++ r) in Hx, Hf. rewrite app_assoc in Hx, Hf. rewrite length_app in Hf. apply elem_of_app in Hx as [Hx|Hx].
  - apply list_elem_of_split in Hx as (l1 & l2 & E). assert (Hl : (S (length l2) <= fuel)%nat) by (rewrite E, length_app in Hf; cbn in Hf; lia).
    replace fuel with (S (length l2) + (fuel - S (length l2)))%nat by lia. by apply (find_low l2 l1).
  - apply list_elem_of_split in Hx as (r1 & r2 & E). assert (Hl : (S (length r2) <= length r)%nat) by (rewrite E, length_app; cbn; lia).
    replace fuel with (S (length r2) + (length (u ++ [q]) + (fuel - S (length r2) - length (u ++ [q]))))%nat by lia. by apply (find_high r2 r1).
Qed.
End find.

(** ** free *)

Lemma sorted_length top xs : forall h, StronglySorted gap (h :: xs) -> (forall x, x ∈ h :: xs -> x.1 + 8 <= top) -> h.1 + 8 * Z.of_nat (length (h :: xs)) <= top.
Proof.
  induction xs as [|y xs IH]; intros h Hs Ht.
  - specialize (Ht h ltac:(left)). cbn. lia.
  - apply sorted_cons in Hs as [Hs Hg]. specialize (IH y Hs ltac:(intros x Hx; apply Ht; by right)). destruct (Hg y ltac:(left)). cbn [length] in *. lia.
Qed.

(** The block [(a, n)] in front of the list [r]: joined with its first block if they touch. *)
Definition upper (a n : Z) (r : list block) : Z * list block :=
  match r with
  | (b, k) :: r' => if a + 8 * n =? b then (n + k, r') else (n, r)
  | [] => (n, [])
  end.

Lemma join_upper_eq s a n p r : ld32 (um_mem s) p = next_addr r base -> ld32 (um_mem s) (a + 4) = n -> chain (um_mem s) r base ->
  0 <= a -> 0 < n -> a + 8 * n <= 2147483648 -> base < a -> (forall x, x ∈ r -> a + 8 <= x.1 /\ 0 < x.2 /\ x.1 + 8 * x.2 <= 2147483648) ->
  join_upper a p s = Ok tt (set_um_mem (if a + 8 * n =? next_addr r base then put_hdr (um_mem s) a (next_addr (upper a n r).2 base) (upper a n r).1
                                        else st32 (um_mem s) a (next_addr r base)) s).
Proof.
  intros Hp Hn Hc Ha Hn0 Htop Hb Hr. unfold join_upper, hsize, hptr, set_hsize, set_hptr, kbind, kgets, kmod. rewrite Hp, Hn. unfold hadd, sizeof_Header.
  replace (u32 (a + n * 8)) with (a + 8 * n) by (unfold u32; rewrite Z.mod_small by lia; lia). destruct r as [|[b k] r]; cbn [next_addr upper fst snd].
  - by rewrite (proj2 (Z.eqb_neq _ _)) by lia.
  - destruct (a + 8 * n =? b) eqn:E; [|done]. bool_hyps. destruct Hc as (H1 & H2 & _). cbn [fst snd] in H1, H2. destruct (Hr (b, k) ltac:(left)) as (R1 & R2 & R3). cbn [fst snd] in R1, R2, R3.
    rewrite H2. cbn [um_mem set_um_mem]. rewrite (ld32_st32_ne _ (a + 4) b) by (unfold fits; lia). rewrite H1. rewrite u32_small by lia. done.
Qed.

Lemma join_upper_spec s a n p r : ld32 (um_mem s) p = next_addr r base -> ld32 (um_mem s) (a + 4) = n -> chain (um_mem s) r base ->
  0 <= a -> 0 < n -> a + 8 * n <= 2147483648 -> base < a -> (forall x, x ∈ r -> a + 8 <= x.1 /\ 0 < x.2 /\ x.1 + 8 * x.2 <= 2147483648) ->
  exists m1, join_upper a p s = Ok tt (set_um_mem m1 s) /\ only_hdr (um_mem s) m1 a /\
    ld32 m1 a = next_addr (upper a n r).2 base /\ ld32 m1 (a + 4) = (upper a n r).1.
Proof.
  intros Hp Hn Hc Ha Hn0 Htop Hb Hr. eexists. split; [by eapply join_upper_eq|]. assert (Hok : addr_ok a) by (unfold addr_ok; lia).
  assert (Hnx : forall xs, (forall x, x ∈ xs -> a + 8 <= x.1 /\ 0 < x.2 /\ x.1 + 8 * x.2 <= 2147483648) -> 0 <= next_addr xs base < 4294967296).
  { intros [|x xs] Hxs; cbn; [lia|]. destruct (Hxs x ltac:(left)). lia. }
  destruct r as [|[b k] r]; cbn [upper next_addr fst snd].
  - rewrite (proj2 (Z.eqb_neq _ _)) by lia. split_and!; [by apply only_st_ptr|apply ld32_st32; unfold fits; lia|]. by rewrite ld32_st32_ne by (unfold fits; lia).
  - destruct (Hr (b, k) ltac:(left)) as (R1 & R2 & R3). cbn [fst snd] in *. destruct (a + 8 * n =? b) eqn:E; bool_hyps; cbn [fst snd next_addr].
    + apply put_hdr_spec; [done| |lia]. apply Hnx. intros x Hx. apply Hr. by right.
    + split_and!; [by apply only_st_ptr|apply ld32_st32; unfold fits; lia|]. by rewrite ld32_st32_ne by (unfold fits; lia).
Qed.

(** The lower neighbour [q] and the block behind it: joined if they touch. *)
Definition lower (q x : block) : list block := if q.1 + 8 * q.2 =? x.1 then [(q.1, q.2 + x.2)] else [q; x].

Lemma join_lower_spec s q x t : ld32 (um_mem s) (q.1 + 4) = q.2 -> ld32 (um_mem s) x.1 = t -> ld32 (um_mem s) (x.1 + 4) = x.2 ->
  0 <= q.1 -> 0 <= q.2 -> q.1 + 8 * q.2 <= x.1 -> q.1 + 8 <= x.1 -> 0 < x.2 -> x.1 + 8 * x.2 <= 2147483648 -> 0 <= t < 4294967296 ->
  exists m1, join_lower x.1 q.1 s = Ok tt (set_um_mem m1 s) /\ only_hdr (um_mem s) m1 q.1 /\ chain m1 (lower q x) t.
Proof.
  intros Hq Hx1 Hx2 Q1 Q2 Q3 Q4 X1 X2 Ht. unfold join_lower, hsize, hptr, set_hsize, set_hptr, kbind, kgets, kmod. rewrite Hq. unfold hadd, sizeof_Header.
  replace (u32 (q.1 + q.2 * 8)) with (q.1 + 8 * q.2) by (unfold u32; rewrite Z.mod_small by lia; lia). assert (Hok : addr_ok q.1) by (unfold addr_ok; lia).
  unfold lower. destruct (q.1 + 8 * q.2 =? x.1) eqn:E.
  - rewrite Hx2. cbn [um_mem set_um_mem]. rewrite (ld32_st32_ne _ (q.1 + 4) x.1) by (unfold fits; lia). rewrite Hx1, u32_small by lia.
    destruct (put_hdr_spec (um_mem s) q.1 t (q.2 + x.2) Hok) as (P1 & P2 & P3); [lia|lia|]. eexists. split; [reflexivity|]. split; [exact P1|].
    cbn [chain next_addr fst snd]. by split_and!.
  - eexists. split; [reflexivity|]. split; [by apply only_st_ptr|]. cbn [chain next_addr fst snd].
    rewrite ld32_st32 by (unfold fits; lia). rewrite !(ld32_st32_ne _ q.1) by (unfold fits; lia). by split_and!.
Qed.

(** The ring after [(a, n)] has been put between [u ++ [q]] and [r]. *)
Definition put_between (u : list block) (q : block) (a n : Z) (r : list block) : list block :=
  u ++ lower q (a, (upper a n r).1) ++ (upper a n r).2.

(** What a property of blocks needs to pass to the joined block. *)
Lemma upper_ind (P : block -> Prop) a n r : (forall x, x ∈ r -> P x) -> P (a, n) -> (forall k, (a + 8 * n, k) ∈ r -> P (a, n + k)) ->
  P (a, (upper a n r).1) /\ (forall x, x ∈ (upper a n r).2 -> P x).
Proof.
  intros H1 H2 H3. destruct r as [|[b k] r]; cbn [upper]; [by split|]. destruct (a + 8 * n =? b) eqn:E; bool_hyps; cbn [fst snd]; [|by split].
  subst b. split; [apply H3; left|]. intros x Hx. apply H1. by right.
Qed.

Lemma put_between_ind (P : block -> Prop) u q a n r : (forall x, x ∈ u ++ q :: r -> P x) -> P (a, n) -> (forall k, (a + 8 * n, k) ∈ r -> P (a, n + k)) ->
  (forall k, q.1 + 8 * q.2 = a -> P (a, k) -> P (q.1, q.2 + k)) -> forall x, x ∈ put_between u q a n r -> P x.
Proof.
  intros H1 H2 H3 H4. destruct (upper_ind P a n r) as [H5 H6]; [|done|done|].
  { intros x Hx. apply H1, elem_of_app. right. by right. }
  intros x. unfold put_between. rewrite !elem_of_app. intros [Hx|[Hx|Hx]]; [apply H1, elem_of_app; by left| |by apply H6].
  unfold lower in Hx. cbn [fst snd] in Hx. destruct (q.1 + 8 * q.2 =? a) eqn:E; bool_hyps.
  - apply list_elem_of_singleton in Hx as ->. by apply H4.
  - apply elem_of_cons in Hx as [->|Hx%list_elem_of_singleton]; [apply H1, elem_of_app; right; left|by rewrite Hx].
Qed.

Lemma put_between_big u q a n r : 0 <= q.2 -> (forall x, x ∈ r -> 0 < x.2) -> exists y, y ∈ put_between u q a n r /\ n <= y.2.
Proof.
  intros Hq Hr. assert (Hn : n <= (upper a n r).1).
  { destruct r as [|[b k] r']; cbn [upper fst]; [lia|]. specialize (Hr (b, k) ltac:(left)). cbn in Hr. destruct (_ =? b); cbn; lia. }
  unfold put_between, lower. cbn [fst snd]. destruct (_ =? a).
  - exists (q.1, q.2 + (upper a n r).1). split; [|cbn; lia]. apply elem_of_app. right. left.
  - exists (a, (upper a n r).1). split; [|done]. apply elem_of_app. right. right. left.
Qed.

Lemma put_between_length u q a n r : (length (put_between u q a n r) <= S (length (u ++ q :: r)))%nat.
Proof.
  unfold put_between. rewrite !length_app. assert (length (lower q (a, (upper a n r).1)) <= 2)%nat by (unfold lower; destruct (_ =? _); cbn; lia).
  assert (length (upper a n r).2 <= length r)%nat by (destruct r as [|[b k] r']; cbn [upper]; [done|]; destruct (_ =? b); cbn; lia). cbn [length]. lia.
Qed.

Section between.
Variables (u r : list block) (q : block) (a n : Z).
Hypothesis (Hs : StronglySorted gap (u ++ q :: r)) (Hn : 0 < n).
Hypothesis (Hlow : forall x, x ∈ u ++ [q] -> x.1 + 8 * x.2 <= a /\ x.1 + 8 <= a).
Hypothesis (Hhigh : forall x, x ∈ r -> a + 8 * n <= x.1 /\ 0 < x.2).

Lemma upper_sorted : StronglySorted gap ((a, (upper a n r).1) :: (upper a n r).2) /\ 0 < (upper a n r).1.
Proof.
  apply sorted_app in Hs as (_ & [Hr _]%sorted_cons & _). destruct r as [|[b k] r']; cbn [upper].
  - cbn. split; [|done]. apply sorted_cons. split; [constructor|]. by intros x ?%elem_of_nil.
  - pose proof (Hhigh (b, k) ltac:(left)) as [B1 B2]. cbn [fst snd] in *. destruct (a + 8 * n =? b) eqn:E; bool_hyps; cbn [fst snd].
    + apply sorted_cons in Hr as [Hr Hg]. split; [|lia]. apply sorted_cons. split; [done|]. intros x Hx. destruct (Hg x Hx) as [G1 G2]. unfold gap. cbn [fst snd] in *. lia.
    + split; [|done]. apply sorted_cons. split; [done|]. apply sorted_cons in Hr as [_ Hg]. intros x [->|Hx]%elem_of_cons; unfold gap; cbn [fst snd]; [lia|].
      destruct (Hg x Hx) as [G1 G2]. cbn [fst snd] in *. lia.
Qed.

Lemma put_between_sorted : StronglySorted gap (put_between u q a n r).
Proof.
  destruct upper_sorted as [Hu Hp]. unfold put_between. set (n' := (upper a n r).1) in *. set (r' := (upper a n r).2) in *.
  apply sorted_app in Hs as (Hsu & _ & Huq). pose proof (Hlow q ltac:(apply elem_of_app; right; left)) as [Q1 Q2].
  apply sorted_cons in Hu as [Hr' Ha]. assert (Hua : forall x, x ∈ u -> gap x (a, n')).
  { intros x Hx. destruct (Hlow x ltac:(apply elem_of_app; by left)). destruct (Huq x q Hx ltac:(left)) as [G1 G2]. unfold gap. cbn [fst snd]. lia. }
  assert (Hur : forall x y, x ∈ u -> y ∈ r' -> gap x y).
  { intros x y Hx Hy. destruct (Hua x Hx) as [G1 G2]. destruct (Ha y Hy) as [G3 G4]. unfold gap in *. cbn [fst snd] in *. lia. }
  apply sorted_app. unfold lower. cbn [fst snd]. destruct (q.1 + 8 * q.2 =? a) eqn:E; bool_hyps; cbn [app].
  - split_and!; [done| |].
    + apply sorted_cons. split; [done|]. intros y Hy. destruct (Ha y Hy) as [G1 G2]. unfold gap. cbn [fst snd] in *. lia.
    + intros x y Hx [->|Hy]%elem_of_cons; [|by apply Hur]. destruct (Huq x q Hx ltac:(left)) as [G1 G2]. done.
  - split_and!; [done| |].
    + apply sorted_cons. split; [apply sorted_cons; by split|]. intros y [->|Hy]%elem_of_cons; [unfold gap; cbn [fst snd]; lia|].
      destruct (Ha y Hy) as [G1 G2]. unfold gap. cbn [fst snd] in *. lia.
    + intros x y Hx [->|[->|Hy]%elem_of_cons]%elem_of_cons; [by apply Huq; [|left]|by apply Hua|by apply Hur].
Qed.
End between.

(** The bytes of the blocks given out are the same. *)
Definition keeps live (m m' : mem) : Prop := forall i x b, live !! i = Some x -> x.1 <= b < x.1 + 8 * x.2 -> m' b = m b.

Lemma heap_nodes s bs live x : heap s bs live -> x ∈ nodes bs -> base <= x.1 /\ x.1 + 8 <= um_sz s /\ 0 <= x.2 /\ x.1 + 8 * x.2 <= um_sz s.
Proof. intros H [->|Hx]%elem_of_cons; [pose proof (hp_sz _ _ _ H); cbn; lia|]. destruct (hp_free _ _ _ H x Hx). lia. Qed.

Lemma live_node_apart s bs live i x y : heap s bs live -> live !! i = Some x -> y ∈ nodes bs -> x.1 + 8 * x.2 <= y.1 \/ (y.1 + 8 * y.2 <= x.1 /\ y.1 + 8 <= x.1).
Proof.
  intros H Hx [->|Hy]%elem_of_cons.
  - destruct (hp_live _ _ _ H i x Hx) as [[] _]. cbn. lia.
  - pose proof (hp_apart _ _ _ H i x y Hx Hy) as Ha. destruct (hp_free _ _ _ H y Hy). unfold apart in Ha. lia.
Qed.

(** Headers of the ring and of [(a, n)] only are written: the blocks given out stay as they are. *)
Lemma heap_keeps s bs live a n q m1 m2 : heap s bs live -> 0 < n -> (forall i x, live !! i = Some x -> apart x (a, n)) -> q ∈ nodes bs ->
  only_hdr (um_mem s) m1 a -> only_hdr m1 m2 q.1 -> keeps live (um_mem s) m2.
Proof.
  intros H Hn Hl Hq O1 O2 i x b Hx Hb. pose proof (Hl i x Hx) as A. unfold apart in A. cbn [fst snd] in A. pose proof (live_node_apart _ _ _ _ _ _ H Hx Hq).
  rewrite O2 by lia. apply O1. lia.
Qed.

Lemma keeps_size live m m' i x : keeps live m m' -> live !! i = Some x -> 0 < x.2 -> 0 <= x.1 -> x.1 + 8 * x.2 <= 2147483648 -> ld32 m' (x.1 + 4) = ld32 m (x.1 + 4).
Proof. intros Hk Hx H1 H2 H3. apply ld32_eq; [unfold fits; lia|]. intros b Hb. apply (Hk i x); [done|lia]. Qed.

Lemma put_between_head u q a n r bs : nodes bs = u ++ q :: r -> q.1 + 8 <= a -> 0 <= a -> exists bs', put_between u q a n r = nodes bs' /\ q.1 ∈ (nodes bs').*1 /\
  (forall x, x ∈ bs' -> x ∈ put_between u q a n r).
Proof.
  intros E Hq Ha. unfold put_between.
  assert (Hl : exists y t, lower q (a, (upper a n r).1) = (q.1, y) :: t /\ (q.1 + 8 * q.2 <> a -> y = q.2)).
  { unfold lower. cbn [fst snd]. destruct (_ =? a) eqn:Eq; bool_hyps; [by eexists _, _|]. exists q.2. destruct q. by eexists. }
  destruct Hl as (y & t & -> & Hy). destruct u as [|x u].
  - injection E as <- ->. cbn [fst snd] in *. rewrite Hy by lia. exists (t ++ (upper a n r).2). split_and!; [done|left|]. intros x Hx. by right.
  - injection E as <- ->. exists (u ++ (q.1, y) :: t ++ (upper a n r).2). split_and!; [done| |].
    + apply list_elem_of_fmap. exists (q.1, y). split; [done|]. right. apply elem_of_app. right. left.
    + intros x Hx. by right.
Qed.

Section release.
Variables (s : um) (bs : list block) (live : gmap nat block) (a n : Z) (u r : list block) (q : block).
Hypothesis (Hheap : heap s bs live) (Hpl : placed s (a, n)) (Hsize : ld32 (um_mem s) (a + 4) = n).
Hypothesis (Hfree : forall y, y ∈ bs -> apart (a, n) y) (Hlive : forall i x, live !! i = Some x -> apart x (a, n)).
Hypothesis (Hsplit : nodes bs = u ++ q :: r) (Hbelow : forall x, x ∈ u ++ [q] -> x.1 < a) (Habove : forall x, x ∈ r -> a < x.1).

Lemma below_gap x : x ∈ u ++ [q] -> x.1 + 8 * x.2 <= a /\ x.1 + 8 <= a.
Proof.
  intros Hx. pose proof (Hbelow x Hx) as Hb. assert (Hin : x ∈ nodes bs) by (rewrite Hsplit; change (q :: r) with ([q] ++ r); rewrite app_assoc; apply elem_of_app; by left).
  destruct Hpl as [P1 P2 P3]. cbn [fst snd] in *. apply elem_of_cons in Hin as [->|Hin]; [cbn in *; lia|]. destruct (hp_free _ _ _ Hheap x Hin) as [F1 F2 F3].
  pose proof (Hfree x Hin) as Ha. unfold apart in Ha. cbn [fst snd] in Ha. lia.
Qed.

Lemma above_gap x : x ∈ r -> a + 8 * n <= x.1 /\ 0 < x.2 /\ x.1 + 8 * x.2 <= um_sz s /\ x ∈ bs.
Proof.
  intros Hx. pose proof (Habove x Hx) as Hb. assert (Hin : x ∈ nodes bs) by (rewrite Hsplit; apply elem_of_app; right; by right).
  destruct Hpl as [P1 P2 P3]. cbn [fst snd] in *. apply elem_of_cons in Hin as [->|Hin]; [cbn in *; lia|]. destruct (hp_free _ _ _ Hheap x Hin) as [F1 F2 F3].
  pose proof (Hfree x Hin) as Ha. unfold apart in Ha. cbn [fst snd] in Ha. split_and!; try done; lia.
Qed.

Lemma between_placed x : x ∈ put_between u q a n r -> x = (base, 0) \/ placed s x.
Proof.
  pose proof Hpl as [P1 P2 P3]. cbn [fst snd] in *. pose proof (below_gap q ltac:(apply elem_of_app; right; left)) as [Q1 Q2].
  revert x. apply put_between_ind.
  - intros x Hx. rewrite <- Hsplit in Hx. apply elem_of_cons in Hx as [->|Hx]; [by left|]. right. by apply (hp_free _ _ _ Hheap).
  - right. done.
  - intros k Hk. right. destruct (above_gap _ Hk) as (_ & K1 & K2 & _). cbn [fst snd] in *. split; cbn; lia.
  - intros k Eq [[= ? ?]|[K1 K2 K3]]; [lia|]. cbn [fst snd] in *. right. assert (Hq : q ∈ nodes bs) by (rewrite Hsplit; apply elem_of_app; right; left).
    apply elem_of_cons in Hq as [->|Hq]; [cbn in *; lia|]. destruct (hp_free _ _ _ Hheap q Hq). split; cbn; lia.
Qed.

Lemma between_apart i z x : live !! i = Some z -> x ∈ put_between u q a n r -> apart z x.
Proof.
  intros Hz. destruct (hp_live _ _ _ Hheap i z Hz) as [[Z1 Z2 Z3] _]. pose proof (Hlive i z Hz) as Hza. pose proof Hpl as [P1 P2 P3]. unfold apart in *. cbn [fst snd] in *.
  revert x. apply put_between_ind.
  - intros x Hx. rewrite <- Hsplit in Hx. pose proof (live_node_apart _ _ _ _ _ _ Hheap Hz Hx). lia.
  - done.
  - intros k Hk. destruct (above_gap _ Hk) as (_ & K1 & _ & Hin). pose proof (hp_apart _ _ _ Hheap i z _ Hz Hin) as Hak. unfold apart in Hak. cbn [fst snd] in *. lia.
  - intros k Eq Hk. cbn [fst snd] in *. assert (Hq : q ∈ nodes bs) by (rewrite Hsplit; apply elem_of_app; right; left).
    pose proof (live_node_apart _ _ _ _ _ _ Hheap Hz Hq). lia.
Qed.

Lemma upper_tail_in x : x ∈ (upper a n r).2 -> x ∈ r.
Proof. destruct r as [|[b k] r']; cbn [upper]; [done|]. destruct (_ =? b); cbn [snd]; [by right|done]. Qed.

Lemma upper_tail_chain m : chain m r base -> chain m (upper a n r).2 base.
Proof. destruct r as [|[b k] r']; cbn [upper]; [done|]. destruct (_ =? b); cbn [snd]; [by intros (_ & _ & ?)|done]. Qed.

(** The two stores of [free]. *)
Lemma joins_run : exists m2, (join_upper a q.1 ;;; join_lower a q.1) s = Ok tt (set_um_mem m2 s) /\
  chain m2 (put_between u q a n r) base /\ keeps live (um_mem s) m2.
Proof.
  pose proof Hpl as [P1 P2 P3]. pose proof (hp_sz _ _ _ Hheap) as Hsz. pose proof (hp_chain _ _ _ Hheap) as Hc. rewrite Hsplit in Hc. apply chain_app in Hc as (Cu & Cq1 & Cq2 & Cr).
  pose proof (hp_sorted _ _ _ Hheap) as Hs. rewrite Hsplit in Hs. cbn [fst snd] in *.
  assert (Hq : q ∈ nodes bs) by (rewrite Hsplit; apply elem_of_app; right; left). destruct (heap_nodes _ _ _ _ Hheap Hq) as (Q1 & Q2 & Q3 & Q4).
  pose proof (below_gap q ltac:(apply elem_of_app; right; left)) as [Q5 Q6].
  destruct (join_upper_spec s a n q.1 r) as (m1 & E1 & O1 & N1 & S1); try done; try lia.
  { intros x Hx. destruct (above_gap x Hx) as (A1 & A2 & A3 & _). lia. }
  assert (Hok : forall x, x ∈ nodes bs -> addr_ok x.1) by (intros x Hx; destruct (heap_nodes _ _ _ _ Hheap Hx); unfold addr_ok; lia).
  destruct (upper_sorted u r q a n Hs P1) as [Hus Hup]; [intros x Hx; destruct (above_gap x Hx) as (? & ? & _); lia|].
  assert (Hut : a + 8 * (upper a n r).1 <= um_sz s).
  { destruct (upper_ind (fun x => x.1 + 8 * x.2 <= um_sz s) a n r) as [H _]; [|done| |done].
    - intros x Hx. by destruct (above_gap x Hx) as (_ & _ & ? & _).
    - intros k Hk. destruct (above_gap _ Hk) as (_ & _ & K & _). cbn [fst snd] in *. lia. }
  assert (Hnx : 0 <= next_addr (upper a n r).2 base < 4294967296).
  { destruct (upper a n r).2 as [|x t] eqn:E; cbn; [lia|]. destruct (above_gap x) as (A1 & A2 & A3 & _); [apply upper_tail_in; rewrite E; left|]. lia. }
  destruct (join_lower_spec (set_um_mem m1 s) q (a, (upper a n r).1) (next_addr (upper a n r).2 base)) as (m2 & E2 & O2 & C2); cbn [um_mem set_um_mem fst snd]; try done; try lia.
  { rewrite <- Cq2. apply (only_hdr_same _ _ a); [done|by apply Hok|lia]. }
  exists m2. cbn [fst] in E2. unfold kbind. rewrite E1, E2. split; [done|]. split; [|by apply (heap_keeps s bs live a n q m1 m2)].
  assert (Hfr : forall x, x ∈ u ++ r -> same_hdr (um_mem s) m2 x.1).
  { intros x Hx. assert (Hin : x ∈ nodes bs) by (rewrite Hsplit; apply elem_of_app; apply elem_of_app in Hx as [?|?]; [by left|right; by right]).
    apply (same_hdr_trans _ m1); [apply (only_hdr_same _ _ a)|apply (only_hdr_same _ _ q.1)]; try done; try (by apply Hok); apply elem_of_app in Hx as [Hx|Hx].
    - left. apply below_gap, elem_of_app. by left.
    - right. destruct (above_gap x Hx). lia.
    - left. apply sorted_app in Hs as (_ & _ & Hs). by destruct (Hs x q Hx ltac:(left)).
    - right. destruct (above_gap x Hx). lia. }
  unfold put_between. apply chain_app. split; [|apply chain_app; split; [done|]].
  - replace (next_addr (lower q (a, (upper a n r).1) ++ (upper a n r).2) base) with (next_addr (q :: r) base) by (unfold lower; by destruct (_ =? _)).
    apply (chain_frame_hdr (um_mem s)); [|done]. intros x Hx. apply Hfr, elem_of_app. by left.
  - apply upper_tail_chain. apply (chain_frame_hdr (um_mem s)); [|done]. intros x Hx. apply Hfr, elem_of_app. by right.
Qed.
End release.

Lemma heap_fuel s bs live : heap s bs live -> (length (nodes bs) + 2 <= um_fuel s)%nat.
Proof.
  intros H. pose proof (sorted_length (um_sz s) bs (base, 0) (hp_sorted _ _ _ H)) as Hl. unfold um_fuel, sizeof_Header. fold (nodes bs) in Hl.
  specialize (Hl ltac:(intros x Hx; destruct (heap_nodes _ _ _ _ H Hx) as (_ & ? & _); done)). cbn [fst] in Hl. mlia.
Qed.

(** A block that is apart from the free blocks goes to the free blocks. *)
Lemma free_runs s bs live a n : heap s bs live -> placed s (a, n) -> ld32 (um_mem s) (a + 4) = n ->
  (forall y, y ∈ bs -> apart (a, n) y) -> (forall i x, live !! i = Some x -> apart x (a, n)) ->
  runs (free (a + 8)) s (fun _ s' => (exists bs', heap s' bs' live /\ (length bs' <= S (length bs))%nat /\ exists y, y ∈ bs' /\ n <= y.2) /\
    um_sz s' = um_sz s /\ keeps live (um_mem s) (um_mem s')).
Proof.
  intros H Hpl Hsize Hfree Hlive. pose proof Hpl as [P1 P2 P3]. cbn [fst snd] in *. pose proof (hp_sz _ _ _ H) as Hsz.
  destruct (split_at a bs (base, 0)) as (u & q & r & Hsplit & Hbelow & Habove); [apply H|cbn; lia| |].
  { intros x Hx Ex. pose proof (Hfree x Hx) as Ha. destruct (hp_free _ _ _ H x Hx). unfold apart in Ha. cbn [fst snd] in Ha. lia. }
  fold (nodes bs) in Hsplit. unfold free. replace (hadd (a + 8) (-1)) with a by (unfold hadd, sizeof_Header, u32; rewrite Z.mod_small by lia; lia).
  apply runs_bind, runs_gets, runs_bind, runs_gets, runs_bind. eapply runs_eq.
  { pose proof (hp_freep _ _ _ H) as Hf. pose proof (heap_fuel _ _ _ H) as Hfu. pose proof (hp_chain _ _ _ H) as Hc. pose proof (hp_sorted _ _ _ H) as Hs. rewrite Hsplit in *.
    apply (find_place s a u q r); try done; [by rewrite <- Hsplit|lia]. }
  destruct (joins_run s bs live a n u r q H Hpl Hsize Hfree Hlive Hsplit Hbelow Habove) as (m2 & E & C & Hk).
  assert (E' : (join_upper a q.1 ;;; join_lower a q.1 ;;; kmod (set_um_freep q.1)) s = Ok tt (Um m2 q.1 (um_sz s))).
  { revert E. unfold kbind, kmod. destruct (join_upper a q.1 s) as [? s1| | |]; try done. by intros ->. }
  eapply runs_eq; [exact E'|]. cbn [um_mem um_sz]. split; [|done].
  pose proof (below_gap s bs live a n u r q H Hpl Hfree Hsplit Hbelow) as Hlow. pose proof (above_gap s bs live a n u r q H Hpl Hfree Hsplit Habove) as Hhigh.
  destruct (put_between_head u q a n r bs Hsplit) as (bs' & Ebs & Hq & Hin); [apply Hlow; apply elem_of_app; right; left|lia|].
  assert (Hsort : StronglySorted gap (put_between u q a n r)).
  { apply put_between_sorted; [rewrite <- Hsplit; apply H|done|done|]. intros x Hx. by destruct (Hhigh x Hx) as (? & ? & _). }
  pose proof (heap_nodes _ _ _ q H) as Hqn. rewrite Hsplit in Hqn. destruct Hqn as (_ & _ & Hq0 & _); [apply elem_of_app; right; left|].
  destruct (put_between_big u q a n r Hq0) as (y & Hy & Hyn); [intros x Hx; by destruct (Hhigh x Hx) as (_ & ? & _)|].
  assert (Hlen : (length bs' <= S (length bs))%nat).
  { pose proof (put_between_length u q a n r) as Hl. rewrite Ebs, <- Hsplit in Hl. cbn in Hl. lia. }
  exists bs'. split; [|split; [done|]; exists y; split; [|done]; rewrite Ebs in Hy; apply elem_of_cons in Hy as [->|]; [cbn in Hyn; lia|done]].
  rewrite Ebs in C, Hsort. split; try done; cbn [um_mem um_sz um_freep].
  - intros x Hx. destruct (between_placed s bs live a n u r q H Hpl Hfree Hsplit Hbelow Habove x (Hin x Hx)) as [->|[X1 X2 X3]]; [|done].
    apply sorted_cons in Hsort as [_ Hg]. destruct (Hg _ Hx). cbn in *. lia.
  - intros i x Hx. destruct (hp_live _ _ _ H i x Hx) as [[X1 X2 X3] X4]. split; [done|]. rewrite <- X4. by eapply keeps_size; [..|lia|lia].
  - intros i x z Hx Hz. apply (between_apart s bs live a n u r q H Hpl Hfree Hlive Hsplit Habove i); auto.
  - apply H.
Qed.

(** ** morecore *)

(** The kernel gives memory at the end of the process, or none. *)
Hypothesis (Hgrow : forall sz n sz', 0 < n -> grow sz n = Some sz' -> sz' = sz + n /\ sz' <= 2147483648).

Lemma heap_keep_frame s bs live m sz : heap s bs live -> (forall x, x ∈ nodes bs -> same_hdr (um_mem s) m x.1) -> keeps live (um_mem s) m ->
  um_sz s <= sz <= 2147483648 -> heap (Um m (um_freep s) sz) bs live.
Proof.
  intros [H1 H2 H3 H4 H5 H6 H7 H8] Hm Hk Hsz. split; cbn [um_mem um_freep um_sz]; try done.
  - by apply (chain_frame_hdr (um_mem s)).
  - intros x Hx. destruct (H3 x Hx). split; cbn [um_sz]; lia.
  - intros i x Hx. destruct (H5 i x Hx) as [[X1 X2 X3] X4]. split; [split; cbn [um_sz]; lia|]. rewrite <- X4. eapply keeps_size; [done..|lia|lia].
  - lia.
Qed.

Definition core_units (nu : Z) : Z := if nu <? 4096 then 4096 else nu.

Lemma keeps_trans live m1 m2 m3 : keeps live m1 m2 -> keeps live m2 m3 -> keeps live m1 m3.
Proof. intros H1 H2 i x b Hx Hb. by rewrite (H2 i x b Hx Hb), (H1 i x b Hx Hb). Qed.

Lemma morecore_runs s bs live nu : heap s bs live -> 0 < nu -> core_units nu * 8 < 2147483648 ->
  runs (morecore grow nu) s (fun p s' => (p = 0 /\ s' = s /\ grow (um_sz s) (core_units nu * 8) = None) \/
    (p <> 0 /\ p = um_freep s' /\ keeps live (um_mem s) (um_mem s') /\ um_sz s' = um_sz s + core_units nu * 8 /\ grow (um_sz s) (core_units nu * 8) = Some (um_sz s') /\
     exists bs', heap s' bs' live /\ (length bs' <= S (length bs))%nat /\ exists y, y ∈ bs' /\ nu <= y.2)).
Proof.
  intros H Hnu Hmax. assert (Hcu : nu <= core_units nu /\ 4096 <= core_units nu) by (unfold core_units; destruct (nu <? 4096) eqn:E; bool_hyps; lia).
  unfold morecore. fold (core_units nu). set (n := core_units nu) in *. pose proof (hp_sz _ _ _ H) as Hsz. unfold sbrk, sizeof_Header.
  rewrite (u32_small (n * 8)) by lia. replace (s32 (n * 8)) with (n * 8) by (unfold s32; mlia). apply runs_bind, runs_bind, runs_gets.
  destruct (grow (um_sz s) (n * 8)) as [sz'|] eqn:Eg; [|apply runs_ret, runs_ret; left; done].
  destruct (Hgrow (um_sz s) (n * 8) sz' ltac:(lia) Eg) as [-> Htop]. apply runs_bind, runs_mod, runs_ret. rewrite (proj2 (Z.eqb_neq (um_sz s) _)) by lia. apply runs_bind, runs_mod, runs_bind.
  cbn [um_mem set_um_sz]. set (m1 := st32 (um_mem s) (um_sz s + 4) n). set (s1 := set_um_mem m1 _).
  assert (Ho : only_hdr (um_mem s) m1 (um_sz s)) by (apply only_st_size; unfold addr_ok; lia).
  assert (Hk : keeps live (um_mem s) m1).
  { intros i x b Hx Hb. destruct (hp_live _ _ _ H i x Hx) as [[] _]. apply Ho. lia. }
  assert (H1 : heap s1 bs live).
  { apply (heap_keep_frame s bs live m1); [done| |done|cbn; lia]. intros x Hx. destruct (heap_nodes _ _ _ _ H Hx) as (X1 & X2 & _).
    apply (only_hdr_same _ _ (um_sz s)); [done|unfold addr_ok; lia|lia]. }
  replace (hadd (um_sz s) 1) with (um_sz s + 8) by (unfold hadd, sizeof_Header, u32; rewrite Z.mod_small by lia; lia).
  eapply runs_conseq; [apply (free_runs s1 bs live (um_sz s) n H1)|].
  - split; cbn; lia.
  - unfold s1. cbn [um_mem set_um_mem]. apply ld32_st32; [unfold fits; lia|lia].
  - intros y Hy. destruct (hp_free _ _ _ H y Hy). unfold apart. cbn. lia.
  - intros i x Hx. destruct (hp_live _ _ _ H i x Hx) as [[] _]. unfold apart. cbn. lia.
  - intros ? s2 ((bs' & H2 & Hlen & y & Hy & Hyn) & E2 & K2). apply runs_gets. right. pose proof (hp_freep _ _ _ H2) as Hf. apply list_elem_of_fmap in Hf as (x & Ex & Hx).
    destruct (heap_nodes _ _ _ _ H2 Hx) as (X1 & _). rewrite Ex. split_and!; [lia|done|by eapply keeps_trans|done|by rewrite E2|]. exists bs'. split; [done|]. split; [done|]. exists y. split; [done|lia].
Qed.

(** ** The loop of malloc *)

Lemma last_default {A} (xs : list A) : forall x d, List.last (x :: xs) d = List.last xs x.
Proof. induction xs as [|y xs IH]; intros x d; [done|]. change (List.last (x :: y :: xs) d) with (List.last (y :: xs) d). by rewrite !IH. Qed.

Definition after_core (nunits : Z) (fuel : nat) : K um Z :=
  let* p := morecore grow nunits in
  if p =? 0 then kret 0
  else
    let* next := hptr p in
    malloc_loop grow nunits p next fuel.

Lemma malloc_loop_step nunits prevp p fuel s : malloc_loop grow nunits prevp p (S fuel) s =
  if nunits <=? ld32 (um_mem s) (p + 4) then carve prevp p nunits s
  else if p =? um_freep s then after_core nunits fuel s
  else malloc_loop grow nunits p (ld32 (um_mem s) p) fuel s.
Proof.
  cbn [malloc_loop]. unfold hsize at 1, kgets at 1, kbind at 1. destruct (nunits <=? _); [done|]. unfold kgets at 1, kbind at 1. by destruct (p =? um_freep s).
Qed.

Section scan.
Variables (s : um) (bs : list block) (live : gmap nat block) (nunits : Z).
Hypothesis (Hheap : heap s bs live) (Hnu : 0 < nunits).

(** Two neighbours of the ring, the second of which is large enough. *)
Definition fit (prevp p : Z) : Prop := exists u pr x w, nodes bs = u ++ pr :: x :: w /\ prevp = pr.1 /\ p = x.1 /\ nunits <= x.2.

Lemma scan todo : forall u pr w fuel, nodes bs = u ++ pr :: todo ++ w -> (forall x, x ∈ todo -> x.1 <> um_freep s) ->
  let run := malloc_loop grow nunits pr.1 (next_addr (todo ++ w) base) (length todo + fuel) s in
  (exists prevp p, fit prevp p /\ run = carve prevp p nunits s) \/
  ((forall x, x ∈ todo -> x.2 < nunits) /\ run = malloc_loop grow nunits (List.last todo pr).1 (next_addr w base) fuel s).
Proof.
  induction todo as [|x todo IH]; intros u pr w fuel E Hf run; unfold run; cbn [length Nat.add app next_addr].
  - right. split; [by intros ? ?%elem_of_nil|done].
  - pose proof (hp_chain _ _ _ Hheap) as Hc. rewrite E in Hc. apply chain_app in Hc as [_ (_ & _ & Hx1 & Hx2 & _)]. rewrite malloc_loop_step, Hx2.
    destruct (nunits <=? x.2) eqn:Ex; bool_hyps; [left; exists pr.1, x.1; split; [by exists u, pr, x, (todo ++ w)|done]|].
    rewrite (proj2 (Z.eqb_neq _ _)) by (apply Hf; left). fold (app todo w) in Hx1. rewrite Hx1.
    destruct (IH (u ++ [pr]) x w fuel) as [(a & b & H1 & H2)|[H1 H2]]; [by rewrite <- app_assoc|intros y Hy; apply Hf; by right| |].
    + left. by exists a, b.
    + right. split; [intros y [->|Hy]%elem_of_cons; [done|by apply H1]|]. by rewrite H2, last_default.
Qed.

(** One round of the ring, from behind [freep] to [freep]. *)
Lemma malloc_round fuel : let run := malloc_loop grow nunits (um_freep s) (ld32 (um_mem s) (um_freep s)) (length (nodes bs) + fuel) s in
  (exists prevp p, fit prevp p /\ run = carve prevp p nunits s) \/ ((forall x, x ∈ bs -> x.2 < nunits) /\ run = after_core nunits fuel s).
Proof.
  intros run. unfold run. clear run. pose proof (hp_freep _ _ _ Hheap) as Hf. apply list_elem_of_fmap in Hf as (f & Ef & Hf). apply list_elem_of_split in Hf as (l1 & l2 & E).
  pose proof (hp_chain _ _ _ Hheap) as Hc. pose proof (hp_sorted _ _ _ Hheap) as Hs. rewrite E in Hc, Hs. apply chain_app in Hc as [_ (Hf1 & Hf2 & _)].
  apply sorted_app in Hs as (_ & [_ Hs2]%sorted_cons & Hs1). rewrite Ef, Hf1.
  assert (Hl2 : forall x, x ∈ l2 -> x.1 <> um_freep s) by (intros x Hx; destruct (Hs2 x Hx); lia).
  destruct l1 as [|b l1].
  - assert (f = (base, 0)) as -> by (by injection E as <- _). cbn [fst snd] in *. rewrite E. cbn [app length]. replace (S (length l2) + fuel)%nat with (length l2 + S fuel)%nat by lia.
    pose proof (scan l2 [] (base, 0) [] (S fuel)) as Hsc. cbn [app fst] in Hsc. rewrite app_nil_r in Hsc. destruct (Hsc E Hl2) as [?|[H1 ->]]; [by left|]. right.
    cbn [next_addr]. rewrite malloc_loop_step, Hf2, (proj2 (Z.leb_gt _ _)), Ef, Z.eqb_refl by lia. split; [|done]. intros x Hx. apply H1. injection E as ->. done.
  - assert (b = (base, 0)) as -> by (by injection E as <- _). assert (Hb : base <> um_freep s) by (destruct (Hs1 (base, 0) f ltac:(left) ltac:(left)); cbn in *; lia).
    assert (Hl1 : forall x, x ∈ l1 -> x.1 <> um_freep s) by (intros x Hx; destruct (Hs1 x f ltac:(by right) ltac:(left)); lia).
    rewrite E, length_app. cbn [app length]. replace (S (length l1) + S (length l2) + fuel)%nat with (length l2 + S (length l1 + S fuel))%nat by lia.
    pose proof (scan l2 ((base, 0) :: l1) f [] (S (length l1 + S fuel))) as Hsc. rewrite app_nil_r in Hsc. destruct (Hsc E Hl2) as [?|[H1 ->]]; [by left|].
    pose proof (hp_chain _ _ _ Hheap) as Hc. rewrite E in Hc. destruct Hc as (Hb1 & Hb2 & _). cbn [fst snd] in Hb1, Hb2. cbn [next_addr].
    rewrite malloc_loop_step, Hb2, (proj2 (Z.leb_gt _ 0)), (proj2 (Z.eqb_neq _ _)) by lia. rewrite Hb1. fold (app l1 (f :: l2)).
    pose proof (scan l1 [] (base, 0) (f :: l2) (S fuel) E Hl1) as Hsc1. cbn [fst] in Hsc1. destruct Hsc1 as [?|[H2 ->]]; [by left|]. cbn [next_addr]. rewrite malloc_loop_step, Hf2.
    destruct (nunits <=? f.2) eqn:Ex; bool_hyps.
    + left. exists (List.last l1 (base, 0)).1, f.1. split; [|done]. assert (El : exists u, (base, 0) :: l1 = u ++ [List.last l1 (base, 0)]).
      { exists (removelast ((base, 0) :: l1)). rewrite (app_removelast_last (base, 0)) at 1 by done. by destruct l1. }
      destruct El as [u Eu]. exists u, (List.last l1 (base, 0)), f, l2. split; [|done]. rewrite E. change ((base, 0) :: l1 ++ f :: l2) with (((base, 0) :: l1) ++ f :: l2). rewrite Eu, <- app_assoc. done.
    + right. rewrite Ef, Z.eqb_refl. split; [|done]. intros x Hx. assert (Hin : x ∈ l1 ++ f :: l2) by (injection E as <-; done).
      apply elem_of_app in Hin as [?|[->|?]%elem_of_cons]; auto.
Qed.
End scan.

(** ** carve *)

Section carve.
Variables (s : um) (bs : list block) (live : gmap nat block) (n : Z) (u w : list block) (pr x : block).
Hypothesis (Hheap : heap s bs live) (Hn : 0 < n <= x.2) (Hsplit : nodes bs = u ++ pr :: x :: w).

(** What is left of [x], and the address of the block given out. *)
Definition rest_of : list block := if x.2 =? n then [] else [(x.1, x.2 - n)].
Definition out : Z := x.1 + 8 * (x.2 - n).

Lemma rest_of_in y : y ∈ rest_of -> y.1 = x.1 /\ 0 < y.2 /\ y.1 + 8 * y.2 = out.
Proof. unfold rest_of, out. destruct (x.2 =? n) eqn:E; bool_hyps; [by intros ?%elem_of_nil|]. intros ->%list_elem_of_singleton. cbn. lia. Qed.

Lemma x_free : x ∈ bs.
Proof. unfold nodes in Hsplit. destruct u as [|y u']; injection Hsplit as <- ->; [left|]. apply elem_of_app. right. right. left. Qed.

Lemma rest_sorted : StronglySorted gap (u ++ pr :: rest_of ++ w).
Proof.
  pose proof (hp_sorted _ _ _ Hheap) as Hs. rewrite Hsplit in Hs. change (u ++ pr :: x :: w) with (u ++ [pr] ++ x :: w) in Hs. change (u ++ pr :: rest_of ++ w) with (u ++ [pr] ++ rest_of ++ w).
  rewrite app_assoc in Hs |- *. apply sorted_app in Hs as (Hu & [Hw Hx]%sorted_cons & Hg). apply sorted_app. split; [done|]. split.
  - apply sorted_app. split_and!; [|done|].
    + unfold rest_of. destruct (_ =? n); [constructor|]. apply sorted_cons. split; [constructor|]. by intros ? ?%elem_of_nil.
    + intros y z Hy Hz. destruct (rest_of_in y Hy) as (Y1 & Y2 & Y3). destruct (Hx z Hz) as [G1 G2]. unfold out, gap in *. lia.
  - intros y z Hy [Hz|Hz]%elem_of_app; [|apply Hg; [done|by right]]. destruct (rest_of_in z Hz) as (Z1 & _). destruct (Hg y x Hy ltac:(left)) as [G1 G2]. unfold gap. by rewrite Z1.
Qed.

Lemma out_apart y : y ∈ rest_of ++ w -> y.1 + 8 * y.2 <= out \/ out + 8 * n <= y.1.
Proof.
  intros [Hy|Hy]%elem_of_app; [left; destruct (rest_of_in y Hy) as (_ & _ & ?); lia|]. right. pose proof (hp_sorted _ _ _ Hheap) as Hs. rewrite Hsplit in Hs.
  apply sorted_app in Hs as (_ & [[_ Hx]%sorted_cons _]%sorted_cons & _). destruct (Hx y Hy) as [G1 G2]. unfold out. lia.
Qed.

Lemma heap_carve m' i : live !! i = None -> chain m' (u ++ pr :: rest_of ++ w) base -> ld32 m' (out + 4) = n -> keeps live (um_mem s) m' ->
  exists bs', heap (Um m' pr.1 (um_sz s)) bs' (<[i := (out, n)]> live).
Proof.
  intros Hi Hc Ho Hk. pose proof rest_sorted as Hs. pose proof x_free as Hx. destruct (hp_free _ _ _ Hheap x Hx) as [X1 X2 X3].
  assert (Hbs : exists bs', nodes bs' = u ++ pr :: rest_of ++ w /\ forall y, y ∈ bs' -> y ∈ rest_of \/ y ∈ bs).
  { unfold nodes in Hsplit |- *. destruct u as [|z u']; injection Hsplit as <- ->.
    - exists (rest_of ++ w). split; [done|]. intros y [?|?]%elem_of_app; [by left|right; by right].
    - exists (u' ++ pr :: rest_of ++ w). split; [done|]. intros y. rewrite !elem_of_app, !elem_of_cons, elem_of_app. intuition. }
  destruct Hbs as (bs' & E & Hin). exists bs'. rewrite <- E in Hc, Hs. pose proof (hp_sz _ _ _ Hheap) as Hsz.
  assert (Hy : forall y, y ∈ bs' -> apart (out, n) y).
  { intros y Hy. assert (Hy' : y ∈ nodes bs') by (by right). rewrite E in Hy'. change (u ++ pr :: rest_of ++ w) with (u ++ [pr] ++ rest_of ++ w) in Hy'. rewrite app_assoc in Hy'.
    apply elem_of_app in Hy' as [Hy'|Hy']; [|pose proof (out_apart y Hy'); unfold apart; cbn; lia].
    pose proof (hp_sorted _ _ _ Hheap) as Hs0. rewrite Hsplit in Hs0. change (u ++ pr :: x :: w) with (u ++ [pr] ++ x :: w) in Hs0. rewrite app_assoc in Hs0.
    apply sorted_app in Hs0 as (_ & _ & Hg). destruct (Hg y x Hy' ltac:(left)) as [G1 G2]. unfold apart, out. cbn [fst snd]. lia. }
  assert (Hl : forall j z, live !! j = Some z -> apart z (out, n)).
  { intros j z Hz. pose proof (hp_apart _ _ _ Hheap j z x Hz Hx) as Ha. unfold apart, out in *. cbn [fst snd]. lia. }
  split; try done; cbn [um_mem um_freep um_sz].
  - intros y Hyb. destruct (Hin y Hyb) as [Hr|Hr]; [|by destruct (hp_free _ _ _ Hheap y Hr)]. destruct (rest_of_in y Hr) as (Y1 & Y2 & Y3). unfold out in Y3. split; cbn [um_sz]; lia.
  - apply list_elem_of_fmap. exists pr. split; [done|]. rewrite E. apply elem_of_app. right. left.
  - intros j z [[<- <-]|[Hne Hz]]%lookup_insert_Some; [split; [split; unfold out; cbn [fst snd um_sz]; lia|done]|].
    destruct (hp_live _ _ _ Hheap j z Hz) as [[Z1 Z2 Z3] Z4]. split; [done|]. rewrite <- Z4. eapply keeps_size; [done..|lia|lia].
  - intros j z y [[<- <-]|[Hne Hz]]%lookup_insert_Some Hyb; [by apply Hy|]. destruct (Hin y Hyb) as [Hr|Hr]; [|by apply (hp_apart _ _ _ Hheap j)].
    destruct (rest_of_in y Hr) as (Y1 & Y2 & Y3). pose proof (hp_apart _ _ _ Hheap j z x Hz Hx) as Ha. unfold apart, out in *. lia.
  - intros j k z y Hjk [[<- <-]|[Hne Hz]]%lookup_insert_Some [[<- <-]|[Hne' Hz']]%lookup_insert_Some; try done.
    + pose proof (Hl k y Hz') as Ha. unfold apart in *. lia.
    + by apply (Hl j).
    + by apply (hp_disj _ _ _ Hheap j k).
Qed.
End carve.

(** The stores of [carve]: one block of the ring is taken out or made smaller. *)
Lemma carve_stores s bs live n u w pr x : heap s bs live -> 0 < n <= x.2 -> nodes bs = u ++ pr :: x :: w ->
  exists m', carve pr.1 x.1 n s = Ok (out n x + 8) (Um m' pr.1 (um_sz s)) /\ chain m' (u ++ pr :: rest_of n x ++ w) base /\
    ld32 m' (out n x + 4) = n /\ keeps live (um_mem s) m'.
Proof.
  intros H Hn E. pose proof (x_free s bs live u w pr x H E) as Hin. destruct (hp_free _ _ _ H x Hin) as [X1 X2 X3]. pose proof (hp_sz _ _ _ H) as Hsz.
  pose proof (hp_chain _ _ _ H) as Hc. pose proof (hp_sorted _ _ _ H) as Hs. rewrite E in Hc, Hs. apply chain_app in Hc as (Cu & Cp1 & Cp2 & Cx1 & Cx2 & Cw).
  assert (Hok : forall y, y ∈ nodes bs -> addr_ok y.1) by (intros y Hy; destruct (heap_nodes _ _ _ _ H Hy); unfold addr_ok; lia).
  assert (Hxw : forall y, y ∈ w -> x.1 + 8 * x.2 < y.1) by (apply sorted_app in Hs as (_ & [[_ Hs]%sorted_cons _]%sorted_cons & _); intros y Hy; by destruct (Hs y Hy)).
  assert (Hup : forall y, y ∈ u -> gap y pr /\ gap y x) by (apply sorted_app in Hs as (_ & _ & Hs); intros y Hy; split; apply Hs; rewrite ?elem_of_cons; auto).
  assert (Hpx : pr.1 + 8 <= x.1) by (apply sorted_app in Hs as (_ & [_ Hs]%sorted_cons & _); by destruct (Hs x ltac:(left))).
  assert (Hin' : forall y, y ∈ u \/ y = pr \/ y ∈ w -> y ∈ nodes bs) by (intros y Hy; rewrite E, elem_of_app, !elem_of_cons; intuition).
  assert (Hpr : pr ∈ nodes bs) by auto. unfold carve, hsize, hptr, set_hsize, set_hptr, kbind, kgets, kmod, kret. rewrite Cx2. unfold rest_of, out. destruct (x.2 =? n) eqn:En; bool_hyps.
  - rewrite Cx1. set (m' := st32 (um_mem s) pr.1 (next_addr w base)). exists m'. assert (Ho : only_hdr (um_mem s) m' pr.1) by (apply only_st_ptr; auto).
    assert (Hw0 : 0 <= next_addr w base < 4294967296) by (destruct w as [|y w']; cbn; [lia|]; destruct (Hok y); [apply Hin'; right; right; left|lia]).
    replace (x.2 - n) with 0 by lia. rewrite Z.mul_0_r, Z.add_0_r. split_and!.
    + unfold hadd, sizeof_Header, u32. rewrite Z.mod_small by lia. f_equal; lia.
    + cbn [app]. apply chain_app. split; [|cbn [chain]; split_and!].
      * apply (chain_frame_hdr (um_mem s)); [|done]. intros y Hy. apply (only_hdr_same _ _ pr.1); [done|by apply Hok; auto|]. left. by apply Hup.
      * apply ld32_st32; [destruct (Hok pr Hpr); unfold fits; lia|done].
      * unfold m'. destruct (Hok pr Hpr). rewrite ld32_st32_ne by (unfold fits; lia). done.
      * apply (chain_frame_hdr (um_mem s)); [|done]. intros y Hy. apply (only_hdr_same _ _ pr.1); [done|by apply Hok; auto|]. right. pose proof (Hxw y Hy). lia.
    + destruct (only_hdr_same _ _ _ x.1 Ho) as [_ Es]; [apply Hok; by right|lia|]. rewrite Es. lia.
    + intros i z b Hz Hb. apply Ho. pose proof (live_node_apart _ _ _ _ _ _ H Hz Hpr). lia.
  - rewrite u32_small by lia. cbn [um_mem set_um_mem]. rewrite (ld32_st32 (um_mem s) (x.1 + 4)) by (unfold fits; lia). set (m1 := st32 (um_mem s) (x.1 + 4) (x.2 - n)).
    replace (hadd x.1 (x.2 - n)) with (x.1 + 8 * (x.2 - n)) by (unfold hadd, sizeof_Header, u32; rewrite Z.mod_small by lia; lia).
    set (q := x.1 + 8 * (x.2 - n)). set (m' := st32 m1 (q + 4) n). exists m'. assert (Hq : x.1 + 8 <= q /\ q + 8 * n <= um_sz s) by (unfold q; lia).
    assert (O1 : only_hdr (um_mem s) m1 x.1) by (apply only_st_size; unfold addr_ok; lia). assert (O2 : only_hdr m1 m' q) by (apply only_st_size; unfold addr_ok; lia).
    assert (Hsame : forall y, y ∈ u \/ y = pr \/ y ∈ w -> same_hdr (um_mem s) m' y.1).
    { intros y Hy. assert (Hy2 : y.1 + 8 <= x.1 \/ q + 8 <= y.1 /\ x.1 + 8 <= y.1).
      { destruct Hy as [Hy|[->|Hy]]; [left; by apply Hup|by left|right]. pose proof (Hxw y Hy). lia. }
      apply (same_hdr_trans _ m1); [apply (only_hdr_same _ _ x.1)|apply (only_hdr_same _ _ q)]; try done; try (by apply Hok, Hin'); lia. }
    destruct (only_hdr_same _ _ _ x.1 O2) as [Ex1 Ex2]; [unfold addr_ok; lia|lia|]. split_and!.
    + unfold hadd, sizeof_Header, u32. rewrite Z.mod_small by lia. f_equal; lia.
    + apply chain_app. split; [apply (chain_frame_hdr (um_mem s)); [intros y Hy; apply Hsame; auto|done]|]. destruct (Hsame pr ltac:(auto)) as [P1 P2].
      cbn [chain app next_addr fst snd]. rewrite P1, P2, Ex1, Ex2. split_and!; try done.
      * unfold m1. by rewrite ld32_st32_ne by (unfold fits; lia).
      * apply ld32_st32; unfold fits; lia.
      * apply (chain_frame_hdr (um_mem s)); [intros y Hy; apply Hsame; auto|done].
    + apply ld32_st32; unfold fits; lia.
    + intros i z b Hz Hb. pose proof (hp_apart _ _ _ H i z x Hz Hin) as Ha. unfold apart in Ha. rewrite O2 by lia. apply O1. lia.
Qed.

Lemma carve_runs s bs live n prevp p i : heap s bs live -> 0 < n -> fit bs n prevp p -> live !! i = None ->
  runs (carve prevp p n) s (fun ap s' => exists a bs', ap = a + 8 /\ heap s' bs' (<[i := (a, n)]> live) /\ um_sz s' = um_sz s /\ keeps live (um_mem s) (um_mem s')).
Proof.
  intros H Hn (u & pr & x & w & E & -> & -> & Hx) Hi. destruct (carve_stores s bs live n u w pr x H ltac:(lia) E) as (m' & Er & C & Ho & Hk).
  destruct (heap_carve s bs live n u w pr x H ltac:(lia) E m' i Hi C Ho Hk) as [bs' H']. eapply runs_eq; [exact Er|]. by exists (out n x), bs'.
Qed.

(** ** malloc *)

(** The sizes for which the arithmetic of [malloc] and the argument of [sbrk] do not wrap. *)
Definition request_ok (nbytes : Z) : Prop := 0 <= nbytes < 2147483633.

Lemma units_ok nbytes : request_ok nbytes -> 0 < units nbytes /\ nbytes + 8 <= 8 * units nbytes < nbytes + 16 /\ core_units (units nbytes) * 8 < 2147483648.
Proof.
  intros H. unfold request_ok in H. unfold units, sizeof_Header. rewrite (u32_small (nbytes + 8 - 1)) by lia. rewrite u32_small by mlia.
  unfold core_units. split_and!; try mlia. destruct (_ <? 4096); mlia.
Qed.

(** The allocator before its first call, or in use. *)
Definition um_ok s live : Prop :=
  (um_freep s = 0 /\ live = ∅ /\ base + 8 <= um_sz s <= 2147483648) \/ exists bs, heap s bs live.

(** The process keeps its size, or the kernel has let it grow for a request of [n] units. *)
Definition resized (n sz sz' : Z) : Prop := sz' = sz \/ grow sz (core_units n * 8) = Some sz'.

Definition got_block s live i n (ap : Z) s' : Prop := exists a bs', ap = a + 8 /\ heap s' bs' (<[i := (a, n)]> live) /\ keeps live (um_mem s) (um_mem s') /\ resized n (um_sz s) (um_sz s').

Lemma malloc_found s bs live n fuel i : heap s bs live -> 0 < n -> live !! i = None -> (exists x, x ∈ bs /\ n <= x.2) -> (length (nodes bs) <= fuel)%nat ->
  runs (malloc_loop grow n (um_freep s) (ld32 (um_mem s) (um_freep s)) fuel) s (fun ap s' => got_block s live i n ap s' /\ um_sz s' = um_sz s).
Proof.
  intros H Hn Hi (x & Hx & Hxn) Hf. replace fuel with (length (nodes bs) + (fuel - length (nodes bs)))%nat by lia. unfold runs.
  destruct (malloc_round s bs live n H Hn (fuel - length (nodes bs))) as [(prevp & p & Hfit & ->)|[Hno _]]; [|pose proof (Hno x Hx); lia].
  eapply (runs_conseq (carve prevp p n)); [by eapply carve_runs|]. intros ap s' (a & bs' & E & H' & Es & K). split; [|done]. exists a, bs'. by split_and!; [..|left].
Qed.

Lemma malloc_loop_runs s bs live n i : heap s bs live -> 0 < n -> core_units n * 8 < 2147483648 -> live !! i = None ->
  runs (malloc_loop grow n (um_freep s) (ld32 (um_mem s) (um_freep s)) (um_fuel s + um_fuel s)) s (fun ap s' =>
    (ap = 0 /\ s' = s /\ grow (um_sz s) (core_units n * 8) = None) \/ got_block s live i n ap s').
Proof.
  intros H Hn Hmax Hi. pose proof (heap_fuel _ _ _ H) as Hf. set (fuel := (um_fuel s + um_fuel s)%nat). replace fuel with (length (nodes bs) + (fuel - length (nodes bs)))%nat by (unfold fuel; lia).
  unfold runs. destruct (malloc_round s bs live n H Hn (fuel - length (nodes bs))) as [(prevp & p & Hfit & ->)|[_ ->]].
  - eapply (runs_conseq (carve prevp p n)); [by eapply carve_runs|]. intros ap s' (a & bs' & E & H' & Es & K). right. exists a, bs'. by split_and!; [..|left].
  - apply (runs_bind (morecore grow n)). eapply runs_conseq; [by apply (morecore_runs s bs live n)|]. intros p s1 [(-> & -> & Eg)|(Hp & Ep & K1 & E1 & Eg & bs1 & H1 & Hlen & Hbig)].
    + apply runs_ret. by left.
    + rewrite (proj2 (Z.eqb_neq _ _)) by done. apply runs_bind, runs_gets. rewrite Ep.
      eapply runs_conseq; [apply (malloc_found s1 bs1 live n _ i H1 Hn Hi Hbig)|].
      * unfold nodes in *. cbn [length] in *. unfold fuel, um_fuel in *. lia.
      * intros ap s2 ((a & bs2 & E & H2 & K2 & _) & Es). right. exists a, bs2. split_and!; [done|done|by eapply keeps_trans|]. right. by rewrite Es.
Qed.

Lemma malloc_runs s live nbytes i : um_ok s live -> request_ok nbytes -> live !! i = None ->
  runs (malloc base grow nbytes) s (fun ap s' => um_ok s' live /\ keeps live (um_mem s) (um_mem s') /\ ap = 0 /\ um_sz s' = um_sz s /\ grow (um_sz s) (core_units (units nbytes) * 8) = None \/
    got_block s live i (units nbytes) ap s').
Proof.
  intros Hs Hb Hi. destruct (units_ok nbytes Hb) as (U1 & U2 & U3). unfold malloc. apply runs_bind, runs_gets, runs_bind. destruct Hs as [(E0 & -> & Hsz)|[bs H]].
  - rewrite E0. cbn [Z.eqb]. apply runs_bind, runs_mod, runs_bind, runs_mod, runs_mod. set (s1 := set_um_mem _ _).
    assert (H1 : heap s1 [] ∅).
    { assert (Ha : fits base 4 /\ fits (base + 4) 4) by (unfold fits; lia). unfold s1. split; cbn [um_mem um_freep um_sz set_um_mem set_um_freep]; try (by intros ? ?%elem_of_nil) || done.
      - cbn [nodes chain next_addr fst snd]. rewrite ld32_st32_ne, !ld32_st32 by (unfold fits in *; lia || tauto). done.
      - apply sorted_cons. split; [constructor|]. by intros ? ?%elem_of_nil.
      - left. }
    apply runs_bind, runs_gets, runs_bind, runs_gets, runs_bind, runs_gets.
    eapply runs_conseq; [by apply (malloc_loop_runs s1 [] ∅ (units nbytes) i H1)|]. intros ap s2 [(-> & -> & Eg)|(a & bs2 & E & H2 & K2 & Es)].
    + left. split_and!; [by right; exists []|by intros j x b Hx|done..].
    + right. exists a, bs2. split_and!; [done|done| |exact Es]. intros j x b Hx. by rewrite lookup_empty in Hx.
  - assert (Hf : um_freep s <> 0).
    { pose proof (hp_freep _ _ _ H) as Hf. apply list_elem_of_fmap in Hf as (x & -> & Hx). destruct (heap_nodes _ _ _ _ H Hx). lia. }
    rewrite (proj2 (Z.eqb_neq _ _)) by done. apply runs_ret. apply runs_bind, runs_gets, runs_bind, runs_gets, runs_bind, runs_gets.
    eapply runs_conseq; [by apply (malloc_loop_runs s bs live (units nbytes) i H)|]. intros ap s2 [(-> & -> & Eg)|Hg].
    + left. split_and!; [by right; exists bs|by intros j x b Hx|done..].
    + by right.
Qed.

Lemma free_live_runs s live i a n : um_ok s live -> live !! i = Some (a, n) ->
  runs (free (a + 8)) s (fun _ s' => um_ok s' (delete i live) /\ keeps (delete i live) (um_mem s) (um_mem s') /\ um_sz s' = um_sz s).
Proof.
  intros [(_ & -> & _)|[bs H]] Hi; [by rewrite lookup_empty in Hi|]. destruct (hp_live _ _ _ H i _ Hi) as [Hp Hn].
  eapply runs_conseq; [apply (free_runs s bs (delete i live) a n)|]; try done.
  - destruct H as [H1 H2 H3 H4 H5 H6 H7 H8]. split; try done.
    + intros j x [_ Hj]%lookup_delete_Some. by apply (H5 j).
    + intros j x y [_ Hj]%lookup_delete_Some. by apply (H6 j).
    + intros j k x y Hjk [_ Hj]%lookup_delete_Some [_ Hk]%lookup_delete_Some. by apply (H7 j k).
  - intros y Hy. by apply (hp_apart _ _ _ H i).
  - intros j x [Hne Hj]%lookup_delete_Some. by apply (hp_disj _ _ _ H j i).
  - intros ? s' ((bs' & H' & _) & Es & K). split_and!; [by right; exists bs'|done|done].
Qed.

(** A store into a block given out. *)
Lemma store_ok s live i a n off v : um_ok s live -> live !! i = Some (a, n) -> 8 <= off < 8 * n ->
  um_ok (set_um_mem (st (um_mem s) (a + off) v) s) live /\ st (um_mem s) (a + off) v (a + off) = u8 v /\
  (forall b, b <> a + off -> st (um_mem s) (a + off) v b = um_mem s b).
Proof.
  intros [(_ & -> & _)|[bs H]] Hi Ho; [by rewrite lookup_empty in Hi|]. destruct (hp_live _ _ _ H i _ Hi) as [[P1 P2 P3] Hn]. pose proof (hp_sz _ _ _ H) as Hsz. cbn [fst snd] in *.
  assert (Hst : forall b, st (um_mem s) (a + off) v b = if b =? a + off then u8 v else um_mem s b) by (intros; by rewrite st_at by lia).
  split_and!; [|by rewrite Hst, Z.eqb_refl|intros b Hb; by rewrite Hst, (proj2 (Z.eqb_neq _ _))].
  right. exists bs. set (m' := st _ _ _). assert (Hsame : forall c, 0 <= c -> c + 4 <= 2147483648 -> c + 4 <= a + off \/ a + off < c -> ld32 m' c = ld32 (um_mem s) c).
  { intros c H1 H2 H3. apply ld32_eq; [unfold fits; lia|]. intros b Hb. rewrite Hst. by rewrite (proj2 (Z.eqb_neq _ _)) by lia. }
  pose proof H as [H1 H2 H3 H4 H5 H6 H7 H8]. split; try done; cbn [um_mem set_um_mem].
  - apply (chain_frame_hdr (um_mem s)); [|done]. intros x Hx. destruct (heap_nodes _ _ _ _ H Hx) as (N1 & N2 & N3 & N4). pose proof (live_node_apart _ _ _ _ _ _ H Hi Hx) as Ha. cbn [fst snd] in Ha.
    split; apply Hsame; lia.
  - intros x Hx. by destruct (H3 x Hx).
  - intros j x Hx. destruct (H5 j x Hx) as [[X1 X2 X3] X4]. split; [done|]. rewrite <- X4. apply Hsame; [lia|lia|].
    destruct (decide (j = i)) as [->|Hne]; [rewrite Hi in Hx; injection Hx as <-; cbn; lia|]. pose proof (H7 j i x _ Hne Hx Hi) as Ha. unfold apart in Ha. cbn [fst snd] in Ha. lia.
Qed.

(** ** A program that uses the allocator *)

(** It asks for blocks, gives back blocks it has, and stores bytes within the sizes it asked for. *)
Inductive op := Malloc (h : nat) (nbytes : Z) | Free (h : nat) | Write (h : nat) (off v : Z).
Inductive answer := Done | Refused | Skipped.

(** The memory and the pointers and sizes of its blocks. *)
Record client := Cl { c_um : um; c_ptr : gmap nat (Z * Z) }.

Definition lift_um {A} (m : K um A) : K client A := fun c =>
  match m (c_um c) with
  | Ok a s => Ok a (Cl s (c_ptr c))
  | Panic msg s => Panic msg (Cl s (c_ptr c))
  | Block b s => Block b (Cl s (c_ptr c))
  | NoFuel => NoFuel
  end.

Definition client_op (o : op) : K client answer :=
  let* ptrs := kgets c_ptr in
  match o with
  | Malloc h n =>
      if bool_decide (ptrs !! h = None) && (0 <=? n) && (n <? 2147483633) then
        let* p := lift_um (malloc base grow n) in
        if p =? 0 then kret Refused
        else
          kmod (fun c => Cl (c_um c) (<[h := (p, n)]> (c_ptr c))) ;;;
          kret Done
      else kret Skipped
  | Free h =>
      match ptrs !! h with
      | Some (p, _) =>
          lift_um (free p) ;;;
          kmod (fun c => Cl (c_um c) (delete h (c_ptr c))) ;;;
          kret Done
      | None => kret Skipped
      end
  | Write h off v =>
      match ptrs !! h with
      | Some (p, n) =>
          if (0 <=? off) && (off <? n) then
            lift_um (kmod (fun s => set_um_mem (st (um_mem s) (p + off) v) s)) ;;;
            kret Done
          else kret Skipped
      | None => kret Skipped
      end
  end.

Fixpoint client_run (ops : list op) : K client (list answer) :=
  match ops with
  | [] => kret []
  | o :: ops' =>
      let* a := client_op o in
      let* rs := client_run ops' in
      kret (a :: rs)
  end.

(** ** The blocks as arrays: their sizes and the bytes that have been stored, in a process of some size *)

Abbreviation arrays := (gmap nat (Z * gmap Z Z)).

Definition admissible (A : arrays) (o : op) : Prop :=
  match o with
  | Malloc h n => A !! h = None /\ request_ok n
  | Free h => A !! h <> None
  | Write h off _ => exists n w, A !! h = Some (n, w) /\ 0 <= off < n
  end.

(** Only a request lets the process grow, and it is refused only when the kernel does not let a process of the present size grow for it. *)
Inductive spec_step : arrays * Z -> op -> answer -> arrays * Z -> Prop :=
  | sp_malloc A sz sz' h n : admissible A (Malloc h n) -> resized (units n) sz sz' -> spec_step (A, sz) (Malloc h n) Done (<[h := (n, ∅)]> A, sz')
  | sp_refused A sz h n : admissible A (Malloc h n) -> grow sz (core_units (units n) * 8) = None -> spec_step (A, sz) (Malloc h n) Refused (A, sz)
  | sp_free A sz h : admissible A (Free h) -> spec_step (A, sz) (Free h) Done (delete h A, sz)
  | sp_write A sz h off v n w : A !! h = Some (n, w) -> 0 <= off < n -> spec_step (A, sz) (Write h off v) Done (<[h := (n, <[off := u8 v]> w)]> A, sz)
  | sp_skip A sz o : ~ admissible A o -> spec_step (A, sz) o Skipped (A, sz).

Inductive spec_run : arrays * Z -> list op -> list answer -> arrays * Z -> Prop :=
  | sr_nil a : spec_run a [] [] a
  | sr_cons a a1 a2 o ops r rs : spec_step a o r a1 -> spec_run a1 ops rs a2 -> spec_run a (o :: ops) (r :: rs) a2.

(** The program's pointers are blocks of the allocator that are large enough and have the bytes of the arrays. *)
Definition holds_array (c : client) live (h : nat) (x : Z * gmap Z Z) : Prop :=
  exists a u, live !! h = Some (a, u) /\ c_ptr c !! h = Some (a + 8, x.1) /\ 0 <= x.1 /\ x.1 + 8 <= 8 * u /\
  forall off v, x.2 !! off = Some v -> 0 <= off < x.1 /\ um_mem (c_um c) (a + 8 + off) = v.

Definition client_inv (c : client) (a : arrays * Z) : Prop := um_sz (c_um c) = a.2 /\ exists live, um_ok (c_um c) live /\
  forall h, match a.1 !! h with Some x => holds_array c live h x | None => c_ptr c !! h = None /\ live !! h = None end.

Lemma runs_lift_um {A} (m : K um A) c (Q : A -> client -> Prop) : runs m (c_um c) (fun x s => Q x (Cl s (c_ptr c))) -> runs (lift_um m) c Q.
Proof. unfold runs, lift_um. by destruct (m (c_um c)). Qed.

(** The other arrays after a step that keeps the bytes of their blocks. *)
Lemma holds_array_keep c c' live live' h x : holds_array c live h x -> live' !! h = live !! h -> c_ptr c' !! h = c_ptr c !! h ->
  (forall a u, live !! h = Some (a, u) -> forall b, a + 8 <= b < a + 8 * u -> um_mem (c_um c') b = um_mem (c_um c) b) -> holds_array c' live' h x.
Proof.
  intros (a & u & H1 & H2 & H3 & H4 & H5) E1 E2 Hm. exists a, u. rewrite E1, E2. split_and!; try done. intros off v Hv. destruct (H5 off v Hv) as [H6 H7]. split; [done|].
  rewrite <- H7. apply (Hm a u H1). lia.
Qed.

Lemma malloc_step c A sz h n : client_inv c (A, sz) -> runs (client_op (Malloc h n)) c (fun r c' => exists a', spec_step (A, sz) (Malloc h n) r a' /\ client_inv c' a').
Proof.
  intros (Esz & live & Hok & Hinv). cbn [fst snd] in Esz, Hinv. unfold client_op. apply runs_bind, runs_gets. pose proof (Hinv h) as Hh.
  destruct (bool_decide (c_ptr c !! h = None) && (0 <=? n) && (n <? 2147483633)) eqn:E.
  2: { apply runs_ret. exists (A, sz). split; [|by split; [|exists live]]. apply sp_skip. intros [H1 H2]. unfold request_ok in H2. rewrite H1 in Hh. destruct Hh as [Hc _].
    rewrite bool_decide_eq_true_2, (proj2 (Z.leb_le _ _)), (proj2 (Z.ltb_lt _ _)) in E by (done || lia). done. }
  apply andb_prop in E as [[E1 E2]%andb_prop E3]. apply bool_decide_eq_true in E1. apply Z.leb_le in E2. apply Z.ltb_lt in E3.
  assert (HA : A !! h = None) by (destruct (A !! h); [|done]; destruct Hh as (a & u & _ & Hc & _); by rewrite E1 in Hc). rewrite HA in Hh. destruct Hh as [_ Hlh].
  assert (Hr : request_ok n) by (unfold request_ok; lia). destruct (units_ok n Hr) as (U1 & U2 & U3).
  apply runs_bind, runs_lift_um. eapply runs_conseq; [by apply (malloc_runs (c_um c) live n h)|]. intros p s' [(Hok' & Hk & -> & Es & Hg)|(a & bs' & -> & H' & Hk & Es)]; rewrite Esz in Es.
  - apply runs_ret. rewrite Esz in Hg. exists (A, sz). split; [by apply sp_refused|]. split; [exact Es|]. exists live. split; [done|]. intros k. cbn [fst]. specialize (Hinv k). destruct (A !! k) as [x|]; [|done].
    eapply holds_array_keep; [done..|]. intros a u Hl b Hb. apply (Hk k _ b Hl). cbn. lia.
  - destruct (hp_live _ _ _ H' h (a, units n)) as [[P1 P2 P3] _]; [apply lookup_insert_eq|]. cbn [fst snd] in *. rewrite (proj2 (Z.eqb_neq _ _)) by lia.
    apply runs_bind, runs_mod, runs_ret. eexists. split; [by apply sp_malloc|]. split; [done|]. exists (<[h := (a, units n)]> live). split; [by right; exists bs'|]. intros k. cbn [fst].
    destruct (decide (k = h)) as [->|Hne].
    + rewrite lookup_insert_eq. exists a, (units n). cbn [c_ptr fst snd]. rewrite !lookup_insert_eq. split_and!; done || lia.
    + rewrite lookup_insert_ne by done. specialize (Hinv k). destruct (A !! k) as [x|].
      * eapply holds_array_keep; [done|by rewrite lookup_insert_ne|cbn; by rewrite lookup_insert_ne|]. intros a' u Hl b Hb. apply (Hk k _ b Hl). cbn. lia.
      * cbn [c_ptr]. by rewrite !lookup_insert_ne.
Qed.

Lemma free_step c A sz h : client_inv c (A, sz) -> runs (client_op (Free h)) c (fun r c' => exists a', spec_step (A, sz) (Free h) r a' /\ client_inv c' a').
Proof.
  intros (Esz & live & Hok & Hinv). cbn [fst snd] in Esz, Hinv. unfold client_op. apply runs_bind, runs_gets. pose proof (Hinv h) as Hh. destruct (A !! h) as [x|] eqn:EA.
  - destruct Hh as (a & u & Hl & -> & _). apply runs_bind, runs_lift_um. eapply runs_conseq; [by apply (free_live_runs (c_um c) live h a u)|].
    intros ? s' (Hok' & Hk & Es). apply runs_bind, runs_mod, runs_ret. eexists. split; [apply sp_free; cbn; by rewrite EA|]. split; [cbn; congruence|]. cbn [fst]. exists (delete h live). split; [done|]. intros k. cbn [fst].
    destruct (decide (k = h)) as [->|Hne]; [cbn [c_ptr]; by rewrite !lookup_delete_eq|]. rewrite lookup_delete_ne by done. specialize (Hinv k). destruct (A !! k) as [y|].
    + eapply holds_array_keep; [done|by rewrite lookup_delete_ne|cbn; by rewrite lookup_delete_ne|]. intros a' u' Hl' b Hb. apply (Hk k (a', u') b); [by rewrite lookup_delete_ne|cbn; lia].
    + cbn [c_ptr]. by rewrite !lookup_delete_ne.
  - destruct Hh as [-> _]. apply runs_ret. exists (A, sz). split; [apply sp_skip; cbn; rewrite EA; tauto|by split; [|exists live]].
Qed.

Lemma write_step c A sz h off v : client_inv c (A, sz) -> runs (client_op (Write h off v)) c (fun r c' => exists a', spec_step (A, sz) (Write h off v) r a' /\ client_inv c' a').
Proof.
  intros (Esz & live & Hok & Hinv). cbn [fst snd] in Esz, Hinv. unfold client_op. apply runs_bind, runs_gets. pose proof (Hinv h) as Hh. destruct (A !! h) as [[n w]|] eqn:EA.
  2: { destruct Hh as [-> _]. apply runs_ret. exists (A, sz). split; [apply sp_skip; intros (n & w & E & _); by rewrite EA in E|by split; [|exists live]]. }
  destruct Hh as (a & u & Hl & Hp & Hn & Hu & Hw). cbn [fst snd] in *. rewrite Hp. destruct ((0 <=? off) && (off <? n)) eqn:E.
  2: { apply runs_ret. exists (A, sz). split; [|by split; [|exists live]]. apply sp_skip. intros (n' & w' & E' & Ho). rewrite EA in E'. injection E' as <- <-.
    by rewrite (proj2 (Z.leb_le _ _)), (proj2 (Z.ltb_lt _ _)) in E by lia. }
  bool_hyps. apply runs_bind, runs_lift_um, runs_mod, runs_ret. destruct (store_ok (c_um c) live h a u (8 + off) v Hok Hl) as (S1 & S2 & S3); [lia|].
  replace (a + 8 + off) with (a + (8 + off)) by lia. eexists. split; [by apply (sp_write A sz h off v n w)|]. split; [done|]. cbn [fst]. exists live. split; [done|]. intros k. cbn [fst].
  destruct (decide (k = h)) as [->|Hne].
  - rewrite lookup_insert_eq. exists a, u. cbn [fst snd c_ptr c_um um_mem set_um_mem]. split_and!; try done. intros o x [[<- <-]|[Hne Hx]]%lookup_insert_Some.
    + split; [done|]. rewrite <- S2. f_equal. lia.
    + destruct (Hw o x Hx) as [W1 W2]. split; [done|]. rewrite <- W2. apply S3. lia.
  - rewrite lookup_insert_ne by done. specialize (Hinv k). destruct (A !! k) as [y|]; [|done]. eapply holds_array_keep; [done..|]. intros a' u' Hl' b Hb. cbn [c_um um_mem set_um_mem]. apply S3.
    destruct Hok as [(_ & -> & _)|[bs Hp1]]; [by rewrite lookup_empty in Hl|]. pose proof (hp_disj _ _ _ Hp1 k h _ _ Hne Hl' Hl) as Ha. unfold apart in Ha. cbn [fst snd] in Ha. lia.
Qed.

Lemma client_run_inv ops : forall c a, client_inv c a -> runs (client_run ops) c (fun rs c' => exists a', spec_run a ops rs a' /\ client_inv c' a').
Proof.
  induction ops as [|o ops IH]; intros c [A sz] H; cbn [client_run]; [apply runs_ret; exists (A, sz); split; [constructor|done]|].
  apply runs_bind. eapply runs_conseq; [destruct o; [by apply malloc_step|by apply free_step|by apply write_step]|]. intros r c1 (A1 & S1 & H1).
  apply runs_bind. eapply runs_conseq; [by apply (IH c1 A1)|]. intros rs c2 (A2 & S2 & H2). apply runs_ret. exists A2. split; [by econstructor|done].
Qed.
End spec.

(** C9: the allocator implements arrays.  A program asks for blocks of any size below 2^31 - 15 bytes, gives back blocks it has and stores bytes inside its
    blocks, in any order.  Every call of [malloc] and [free] returns; [malloc] fails only when the kernel refuses more memory to a process
    of the size it has at that call; only [malloc] changes that size, and only by what the kernel grants.  The kernel is any one that, when it grants [n] bytes, adds them to a process of at most 2^31 bytes.
    The blocks the program has are inside the process, do not overlap, and hold the bytes that were stored into them, whatever the allocator
    has split, joined or reused in between. *)
Theorem malloc_refines_arrays base grow m sz ops : 0 < base -> base + 8 <= sz <= 2147483648 ->
  (forall sz n sz', 0 < n -> grow sz n = Some sz' -> sz' = sz + n /\ sz' <= 2147483648) ->
  runs (client_run base grow ops) (Cl (Um m 0 sz) ∅) (fun rs c => exists A, spec_run grow (∅, sz) ops rs (A, um_sz (c_um c)) /\
    (forall h, c_ptr c !! h = None <-> A !! h = None) /\
    (forall h n w, A !! h = Some (n, w) -> exists p, c_ptr c !! h = Some (p, n) /\ 0 < p /\ p + n <= um_sz (c_um c) /\
       forall off v, w !! off = Some v -> 0 <= off < n /\ um_mem (c_um c) (p + off) = v) /\
    (forall h h' p n p' n', h <> h' -> c_ptr c !! h = Some (p, n) -> c_ptr c !! h' = Some (p', n') -> p + n <= p' \/ p' + n' <= p)).
Proof.
  intros Hb Hsz Hg. eapply runs_conseq.
  { apply (client_run_inv base grow Hb Hg ops (Cl (Um m 0 sz) ∅) (∅, sz)). split; [done|]. exists ∅. split; [by left|]. intros h. by rewrite !lookup_empty. }
  intros rs c ([A sz'] & HA & Esz & live & Hok & Hinv). cbn [fst snd] in Esz, Hinv. exists A. split; [by rewrite Esz|].
  assert (Hp : forall h p n, c_ptr c !! h = Some (p, n) -> exists w, A !! h = Some (n, w)).
  { intros h p n E. specialize (Hinv h). destruct (A !! h) as [[n' w]|]; [|destruct Hinv as [Hn _]; by rewrite E in Hn]. destruct Hinv as (a & u & _ & E' & _). rewrite E in E'. injection E' as _ ->. by exists w. }
  split_and!.
  - intros h. specialize (Hinv h). destruct (A !! h) as [x|]; [|by destruct Hinv]. destruct Hinv as (a & u & _ & -> & _). done.
  - intros h n w E. specialize (Hinv h). rewrite E in Hinv. destruct Hinv as (a & u & Hl & Ep & Hn & Hu & Hw). cbn [fst snd] in *.
    destruct Hok as [(_ & -> & _)|[bs H]]; [by rewrite lookup_empty in Hl|]. destruct (hp_live _ _ _ _ H h _ Hl) as [[P1 P2 P3] _]. cbn [fst snd] in *. exists (a + 8). split_and!; try done; lia.
  - intros h h' p n p' n' Hne E1 E2. destruct (Hp _ _ _ E1) as [w1 A1]. destruct (Hp _ _ _ E2) as [w2 A2]. pose proof (Hinv h) as I1. pose proof (Hinv h') as I2. rewrite A1 in I1. rewrite A2 in I2.
    destruct I1 as (a & u & Hl & Ep & _ & Hu & _). destruct I2 as (a' & u' & Hl' & Ep' & _ & Hu' & _). cbn [fst snd] in *. rewrite E1 in Ep. rewrite E2 in Ep'. injection Ep as ->. injection Ep' as ->.
    destruct Hok as [(_ & -> & _)|[bs H]]; [by rewrite lookup_empty in Hl|]. pose proof (hp_disj _ _ _ _ H h h' _ _ Hne Hl Hl') as Ha. unfold apart in Ha. cbn [fst snd] in Ha. lia.
Qed.

(** A kernel that lets the process grow to a megabyte. *)
Definition sample_grow (sz n : Z) : option Z := if (0 <? n) && (sz + n <=? 1048576) then Some (sz + n) else None.

Lemma malloc_refines_arrays_witness :
  runs (client_run 1000 sample_grow [Malloc 0 100; Malloc 1 50; Write 1 49 7; Free 0; Malloc 2 2000000; Malloc 0 20]) (Cl (Um (fun _ => 0) 0 4096) ∅) (fun rs c =>
    exists A, spec_run sample_grow (∅, 4096) [Malloc 0 100; Malloc 1 50; Write 1 49 7; Free 0; Malloc 2 2000000; Malloc 0 20] rs (A, um_sz (c_um c)) /\
    (forall h, c_ptr c !! h = None <-> A !! h = None) /\
    (forall h n w, A !! h = Some (n, w) -> exists p, c_ptr c !! h = Some (p, n) /\ 0 < p /\ p + n <= um_sz (c_um c) /\
       forall off v, w !! off = Some v -> 0 <= off < n /\ um_mem (c_um c) (p + off) = v) /\
    (forall h h' p n p' n', h <> h' -> c_ptr c !! h = Some (p, n) -> c_ptr c !! h' = Some (p', n') -> p + n <= p' \/ p' + n' <= p)).
Proof.
  apply (malloc_refines_arrays 1000 sample_grow (fun _ => 0) 4096).
  - reflexivity.
  - split; discriminate.
  - intros sz n sz' Hn. unfold sample_grow. destruct (0 <? n); [|discriminate]. cbn [andb]. destruct (sz + n <=? 1048576) eqn:E; [|discriminate].
    apply Z.leb_le in E. intros [= <-]. lia.
Defined.

(** For the largest sizes the sum in [malloc] wraps: a request for 4294967295 bytes is served with a header alone, and the pointer that is returned
    is the end of the process. *)
Lemma malloc_wraps : exists s, malloc 1000 sample_grow 4294967295 (Um (fun _ => 0) 0 4096) = Ok (um_sz s) s.
Proof.
  assert (E : match malloc 1000 sample_grow 4294967295 (Um (fun _ => 0) 0 4096) with Ok p s => p =? um_sz s | _ => false end = true) by (by vm_compute).
  destruct (malloc _ _ _ _) as [p s| | |]; try done. exists s. apply Z.eqb_eq in E. by rewrite E.
Qed.
