(* ===== verification/Mp.v ===== *)
(** * Multiprocessor tables: mp.c and mp.h

    [m] is the kernel's memory, where the firmware has left the tables; the fields of the structures of mp.h are
    read at their offsets.  [cprintf] is recorded in [mp_msgs].  A write behind the end of [cpus] stops the model with a message that starts
    with "undefined". *)

From S2P Require Import Prelude CString Mmu Ports.

Definition NCPU : Z := 8.
Definition MPPROC : Z := 0.
Definition MPBUS : Z := 1.
Definition MPIOAPIC : Z := 2.
Definition MPIOINTR : Z := 3.
Definition MPLINTR : Z := 4.
Definition MPBOOT : Z := 2.

(** [struct mp]. *)
Definition sizeof_mp : Z := 16.
Definition mp_physaddr (m : mem) (p : Z) : Z := ld32 m (p + 4).
Definition mp_imcrp (m : mem) (p : Z) : Z := ld m (p + 12).

(** [struct mpconf]. *)
Definition ld16 (m : mem) (a : Z) : Z := ld m a + 256 * ld m (a + 1).
Definition sizeof_mpconf : Z := 44.
Definition conf_length (m : mem) (p : Z) : Z := ld16 m (p + 4).
Definition conf_version (m : mem) (p : Z) : Z := ld m (p + 6).
Definition conf_lapicaddr (m : mem) (p : Z) : Z := ld32 m (p + 36).

(** [struct mpproc] and [struct mpioapic]. *)
Definition sizeof_mpproc : Z := 20.
Definition proc_apicid (m : mem) (p : Z) : Z := ld m (p + 1).
Definition proc_flags (m : mem) (p : Z) : Z := ld m (p + 3).
Definition sizeof_mpioapic : Z := 8.
Definition ioapic_apicno (m : mem) (p : Z) : Z := ld m (p + 1).

Fixpoint sum_loop (m : mem) (addr acc : Z) (len : nat) : Z :=
  match len with
  | O => acc
  | S len' => sum_loop m (addr + 1) (acc + ld m addr) len'
  end.

Definition sum (m : mem) (addr len : Z) : Z := u8 (sum_loop m addr 0 (Z.to_nat len)).

(** [memcmp] with four characters. *)
Definition has_sig (m : mem) (p : Z) (sig : list Z) : bool := bool_decide ((fun i => ld m (p + i)) <$> [0; 1; 2; 3] = sig).

Definition SIG_MP : list Z := [95; 77; 80; 95].     (* _MP_ *)
Definition SIG_PCMP : list Z := [80; 67; 77; 80].   (* PCMP *)

Fixpoint mpsearch1_loop (m : mem) (p e : Z) (fuel : nat) : option Z :=
  match fuel with
  | O => None
  | S fuel' =>
      if p <? e then
        if has_sig m p SIG_MP && (sum m p sizeof_mp =? 0) then Some p
        else mpsearch1_loop m (p + sizeof_mp) e fuel'
      else None
  end.

Definition mpsearch1 (m : mem) (a len : Z) : option Z :=
  let addr := p2v a in
  mpsearch1_loop m addr (addr + len) (S (Z.to_nat (len / sizeof_mp))).

Definition mpsearch (m : mem) : option Z :=
  let bda := p2v 0x400 in
  let p := u32 (Z.shiftl (Z.lor (Z.shiftl (ld m (bda + 0x0F)) 8) (ld m (bda + 0x0E))) 4) in
  let first :=
    if negb (p =? 0) then mpsearch1 m p 1024
    else
      let p := u32 (Z.lor (Z.shiftl (ld m (bda + 0x14)) 8) (ld m (bda + 0x13)) * 1024) in
      mpsearch1 m (u32 (p - 1024)) 1024 in
  match first with
  | Some mp => Some mp
  | None => mpsearch1 m 0xF0000 0x10000
  end.

(** The floating pointer and the configuration table. *)
Definition mpconfig (m : mem) : option (Z * Z) :=
  match mpsearch m with
  | None => None
  | Some mp =>
      if mp_physaddr m mp =? 0 then None
      else
        let conf := p2v (mp_physaddr m mp) in
        if negb (has_sig m conf SIG_PCMP) then None
        else if negb (conf_version m conf =? 1) && negb (conf_version m conf =? 4) then None
        else if negb (sum m conf (conf_length m conf) =? 0) then None
        else Some (mp, conf)
  end.

(** The [id]s of [cpus], [bcpu - cpus], the other variables of mp.c, [lapic], the devices and what has been printed. *)
Record mpst (D : Type) := Mpst {
  mp_cpus : list Z; mp_bcpu : Z; mp_ismp : bool; mp_ncpu : Z; mp_ioapicid : Z; mp_lapic : Z; mp_dev : D; mp_msgs : list (string * list Z)
}.
Arguments Mpst {D}.
Arguments mp_cpus {D}.
Arguments mp_bcpu {D}.
Arguments mp_ismp {D}.
Arguments mp_ncpu {D}.
Arguments mp_ioapicid {D}.
Arguments mp_lapic {D}.
Arguments mp_dev {D}.
Arguments mp_msgs {D}.

Section Mp.
Context {D : Type} `{Ports D}.
Implicit Types (s : mpst D).

Definition set_cpu (n : Z) s : mpst D := Mpst (<[Z.to_nat n := n]> (mp_cpus s)) (mp_bcpu s) (mp_ismp s) (mp_ncpu s) (mp_ioapicid s) (mp_lapic s) (mp_dev s) (mp_msgs s).
Definition set_bcpu (n : Z) s : mpst D := Mpst (mp_cpus s) n (mp_ismp s) (mp_ncpu s) (mp_ioapicid s) (mp_lapic s) (mp_dev s) (mp_msgs s).
Definition set_ismp (b : bool) s : mpst D := Mpst (mp_cpus s) (mp_bcpu s) b (mp_ncpu s) (mp_ioapicid s) (mp_lapic s) (mp_dev s) (mp_msgs s).
Definition set_ncpu (n : Z) s : mpst D := Mpst (mp_cpus s) (mp_bcpu s) (mp_ismp s) n (mp_ioapicid s) (mp_lapic s) (mp_dev s) (mp_msgs s).
Definition set_ioapicid (n : Z) s : mpst D := Mpst (mp_cpus s) (mp_bcpu s) (mp_ismp s) (mp_ncpu s) n (mp_lapic s) (mp_dev s) (mp_msgs s).
Definition set_lapic (n : Z) s : mpst D := Mpst (mp_cpus s) (mp_bcpu s) (mp_ismp s) (mp_ncpu s) (mp_ioapicid s) n (mp_dev s) (mp_msgs s).
Definition mp_devices (f : D -> D) s : mpst D := Mpst (mp_cpus s) (mp_bcpu s) (mp_ismp s) (mp_ncpu s) (mp_ioapicid s) (mp_lapic s) (f (mp_dev s)) (mp_msgs s).
Definition say (fmt : string) (args : list Z) s : mpst D := Mpst (mp_cpus s) (mp_bcpu s) (mp_ismp s) (mp_ncpu s) (mp_ioapicid s) (mp_lapic s) (mp_dev s) (mp_msgs s ++ [(fmt, args)]).

Definition mpbcpu : K (mpst D) Z := kgets mp_bcpu.

(** The entry of a processor at [p]. *)
Definition mp_proc (m : mem) (p : Z) : K (mpst D) unit :=
  let* n := kgets mp_ncpu in
  (when negb (n =? proc_apicid m p) do
     (kmod (say "mpinit: ncpu=%d apicid=%d" [n; proc_apicid m p]) ;;;
      kmod (set_ismp false))) ;;;
  (when negb (Z.land (proc_flags m p) MPBOOT =? 0) do kmod (set_bcpu n)) ;;;
  (if NCPU <=? n then kpanic "undefined: cpus index" else kmod (set_cpu n)) ;;;
  kmod (set_ncpu (n + 1)).

Fixpoint mpinit_loop (m : mem) (p e : Z) (fuel : nat) : K (mpst D) unit :=
  match fuel with
  | O => knofuel
  | S fuel' =>
      if p <? e then
        let t := ld m p in
        if t =? MPPROC then
          mp_proc m p ;;;
          mpinit_loop m (p + sizeof_mpproc) e fuel'
        else if t =? MPIOAPIC then
          kmod (set_ioapicid (ioapic_apicno m p)) ;;;
          mpinit_loop m (p + sizeof_mpioapic) e fuel'
        else if (t =? MPBUS) || (t =? MPIOINTR) || (t =? MPLINTR) then
          mpinit_loop m (p + 8) e fuel'
        else
          kmod (say "mpinit: unknown config type %x" [t]) ;;;
          kmod (set_ismp false) ;;;
          mpinit_loop m p e fuel'
      else kret tt
  end.

Definition mpinit (m : mem) : K (mpst D) unit :=
  kmod (set_bcpu 0) ;;;
  match mpconfig m with
  | None => kret tt
  | Some (mp, conf) =>
      kmod (set_ismp true) ;;;
      kmod (set_lapic (conf_lapicaddr m conf)) ;;;
      mpinit_loop m (conf + sizeof_mpconf) (conf + conf_length m conf) (S (Z.to_nat (conf_length m conf))) ;;;
      let* ismp := kgets mp_ismp in
      if negb ismp then
        kmod (set_ncpu 1) ;;;
        kmod (set_lapic 0) ;;;
        kmod (set_ioapicid 0)
      else
        when negb (mp_imcrp m mp =? 0) do
          (kmod (mp_devices (outb 0x22 0x70)) ;;;
           kmod (mp_devices (fun d => let (v, d') := inb 0x23 d in outb 0x23 (Z.lor v 1) d')))
  end.
End Mp.
