(* ===== verification/MpSpec.v ===== *)
(** * What mpinit makes of the tables

    The entries of a table are a list ([entries_at]); [mpinit] counts its processors, checks that they are numbered in
    order, and otherwise falls back to one processor.  An entry of an unknown type is never passed. *)

From S2P Require Import Prelude CString Mmu Ports Mp.

(** ** The search *)

(** [mpsearch1] finds the first place with the signature and the right sum. *)
Definition is_mp (m : mem) (p : Z) : Prop := (fun i => ld m (p + i)) <$> [0; 1; 2; 3] = SIG_MP /\ sum m p sizeof_mp = 0.

Lemma mpsearch1_loop_spec m e fuel : forall p, 0 <= e - p <= 16 * Z.of_nat fuel ->
  match mpsearch1_loop m p e (S fuel) with
  | Some q => exists k, 0 <= k /\ q = p + 16 * k /\ q < e /\ is_mp m q /\ forall j, 0 <= j < k -> ~ is_mp m (p + 16 * j)
  | None => forall k, 0 <= k -> p + 16 * k < e -> ~ is_mp m (p + 16 * k)
  end.
Proof.
  assert (Hdec : forall p, has_sig m p SIG_MP && (sum m p sizeof_mp =? 0) = true <-> is_mp m p).
  { intros p. unfold has_sig, is_mp. rewrite andb_true_iff, bool_decide_eq_true, Z.eqb_eq. done. }
  induction fuel as [|fuel IH]; intros p He.
  - cbn [mpsearch1_loop]. rewrite (proj2 (Z.ltb_ge _ _)) by lia. intros k Hk Hlt. lia.
  - change (mpsearch1_loop m p e (S (S fuel))) with (if p <? e then if has_sig m p SIG_MP && (sum m p sizeof_mp =? 0) then Some p else mpsearch1_loop m (p + sizeof_mp) e (S fuel) else None).
    destruct (p <? e) eqn:Ep; bool_hyps; [|intros k Hk Hlt; lia]. destruct (has_sig m p SIG_MP && _) eqn:Es.
    + apply Hdec in Es. exists 0. split; [lia|]. split; [lia|]. split; [done|]. split; [done|]. intros j Hj. lia.
    + assert (Hn : ~ is_mp m p) by (rewrite <- Hdec; by rewrite Es). destruct (decide (16 <= e - p)) as [H16|H16].
      * specialize (IH (p + sizeof_mp)). unfold sizeof_mp in *. specialize (IH ltac:(lia)). destruct (mpsearch1_loop m (p + 16) e (S fuel)) as [q|].
        -- destruct IH as (k & H1 & -> & H3 & H4 & H5). exists (k + 1). split; [lia|]. split; [lia|]. split; [lia|]. split; [done|]. intros j Hj. destruct (decide (j = 0)) as [->|Hj0]; [by rewrite Z.mul_0_r, Z.add_0_r|].
           replace (p + 16 * j) with (p + 16 + 16 * (j - 1)) by lia. apply H5. lia.
        -- intros k Hk Hlt. destruct (decide (k = 0)) as [->|Hk0]; [by rewrite Z.mul_0_r, Z.add_0_r|]. replace (p + 16 * k) with (p + 16 + 16 * (k - 1)) by lia. apply IH; lia.
      * assert (E : mpsearch1_loop m (p + sizeof_mp) e (S fuel) = None) by (cbn [mpsearch1_loop]; unfold sizeof_mp; by rewrite (proj2 (Z.ltb_ge _ _)) by lia). rewrite E.
        intros k Hk Hlt. assert (k = 0) as -> by lia. by rewrite Z.mul_0_r, Z.add_0_r.
Qed.

(** ** The entries *)

Inductive mpentry := EProc (apicid flags : Z) | EIoapic (id : Z) | EOther (type : Z).

Definition esize (x : mpentry) : Z := match x with EProc _ _ => sizeof_mpproc | EIoapic _ => sizeof_mpioapic | EOther _ => 8 end.

Definition entry_at (m : mem) (p : Z) (x : mpentry) : Prop :=
  match x with
  | EProc id fl => ld m p = MPPROC /\ proc_apicid m p = id /\ proc_flags m p = fl
  | EIoapic id => ld m p = MPIOAPIC /\ ioapic_apicno m p = id
  | EOther t => ld m p = t /\ (t = MPBUS \/ t = MPIOINTR \/ t = MPLINTR)
  end.

(** The entries [es] lie between [p] and [q], and the table does not end before [q]. *)
Fixpoint entries_at (m : mem) (p : Z) (es : list mpentry) (q e : Z) : Prop :=
  match es with
  | [] => p = q
  | x :: es' => p < e /\ entry_at m p x /\ entries_at m (p + esize x) es' q e
  end.

Definition procs (es : list mpentry) : list (Z * Z) := omap (fun x => match x with EProc id fl => Some (id, fl) | _ => None end) es.

(** The place of the last element with a property, counted from [k], or [d]. *)
Fixpoint last_index {A} (f : A -> bool) (k d : Z) (l : list A) : Z :=
  match l with
  | [] => d
  | x :: l' => last_index f (k + 1) (if f x then k else d) l'
  end.

Definition is_boot (pr : Z * Z) : bool := negb (Z.land pr.2 MPBOOT =? 0).

Fixpoint last_ioapic (d : Z) (es : list mpentry) : Z :=
  match es with
  | [] => d
  | EIoapic id :: es' => last_ioapic id es'
  | _ :: es' => last_ioapic d es'
  end.

Lemma procs_app es1 es2 : procs (es1 ++ es2) = procs es1 ++ procs es2.
Proof. apply omap_app. Qed.

Lemma last_index_app {A} (f : A -> bool) l1 : forall l2 k d, last_index f k d (l1 ++ l2) = last_index f (k + Z.of_nat (length l1)) (last_index f k d l1) l2.
Proof. induction l1 as [|x l1 IH]; intros l2 k d; cbn [app last_index length]; [by rewrite Z.add_0_r|]. rewrite IH. f_equal. lia. Qed.

Lemma last_ioapic_app es1 : forall es2 d, last_ioapic d (es1 ++ es2) = last_ioapic (last_ioapic d es1) es2.
Proof. induction es1 as [|[] es1 IH]; intros es2 d; cbn; try done. Qed.

Lemma numbered_app (l1 l2 : list Z) n : 0 <= n -> bool_decide (l1 ++ l2 = seqZ n (Z.of_nat (length (l1 ++ l2)))) =
  bool_decide (l1 = seqZ n (Z.of_nat (length l1))) && bool_decide (l2 = seqZ (n + Z.of_nat (length l1)) (Z.of_nat (length l2))).
Proof.
  intros Hn. rewrite length_app, Nat2Z.inj_add, seqZ_app by lia. rewrite <- bool_decide_and. apply bool_decide_ext. split.
  - intros E. apply app_inj_1 in E; [done|]. rewrite length_seqZ. lia.
  - by intros [<- <-].
Qed.

Section spec.
Context {D : Type} `{Ports D}.
Implicit Types (s : mpst D).

(** What the loop does to the state: only the messages are left open. *)
Record counted (es : list mpentry) s s' : Prop := {
  co_ncpu : mp_ncpu s' = mp_ncpu s + Z.of_nat (length (procs es));
  co_ismp : mp_ismp s' = mp_ismp s && bool_decide ((procs es).*1 = seqZ (mp_ncpu s) (Z.of_nat (length (procs es))));
  co_bcpu : mp_bcpu s' = last_index is_boot (mp_ncpu s) (mp_bcpu s) (procs es);
  co_ioapic : mp_ioapicid s' = last_ioapic (mp_ioapicid s) es;
  co_cpus : forall i, mp_cpus s' !! i = if decide (mp_ncpu s <= Z.of_nat i < mp_ncpu s') then Some (Z.of_nat i) else mp_cpus s !! i;
  co_lapic : mp_lapic s' = mp_lapic s;
  co_dev : mp_dev s' = mp_dev s
}.

Lemma counted_refl s : counted [] s s.
Proof. split; cbn; try lia; try done. - by rewrite andb_true_r. - intros i. rewrite decide_False by lia. done. Qed.

Lemma mp_proc_runs m p s (Q : unit -> mpst D -> Prop) : 0 <= mp_ncpu s < NCPU -> length (mp_cpus s) = Z.to_nat NCPU ->
  (forall s', length (mp_cpus s') = Z.to_nat NCPU -> counted [EProc (proc_apicid m p) (proc_flags m p)] s s' -> Q tt s') -> runs (mp_proc m p) s Q.
Proof.
  intros Hn Hl HQ. unfold mp_proc. apply runs_bind, runs_gets, runs_bind. set (id := proc_apicid m p) in *. set (fl := proc_flags m p) in *. set (n := mp_ncpu s) in *.
  set (s1 := if n =? id then s else set_ismp false (say "mpinit: ncpu=%d apicid=%d" [n; id] s)).
  assert (E1 : mp_ncpu s1 = n /\ mp_cpus s1 = mp_cpus s /\ mp_bcpu s1 = mp_bcpu s /\ mp_ioapicid s1 = mp_ioapicid s /\ mp_lapic s1 = mp_lapic s /\ mp_dev s1 = mp_dev s /\ mp_ismp s1 = mp_ismp s && (n =? id)).
  { unfold s1. destruct (n =? id); cbn; [rewrite andb_true_r|rewrite andb_false_r]; done. }
  assert (Hrun1 : forall (R : unit -> mpst D -> Prop), R tt s1 -> runs (when negb (n =? id) do (kmod (say "mpinit: ncpu=%d apicid=%d" [n; id]) ;;; kmod (set_ismp false))) s R).
  { intros R HR. unfold s1 in HR. destruct (n =? id); cbn [negb]; [by apply runs_ret|apply runs_bind, runs_mod, runs_mod, HR]. }
  apply Hrun1. apply runs_bind. set (s2 := if is_boot (id, fl) then set_bcpu n s1 else s1).
  assert (Hrun2 : forall (R : unit -> mpst D -> Prop), R tt s2 -> runs (when negb (Z.land fl MPBOOT =? 0) do kmod (set_bcpu n)) s1 R).
  { intros R HR. unfold s2, is_boot in HR. cbn [snd] in HR. destruct (Z.land fl MPBOOT =? 0); cbn [negb] in *; [by apply runs_ret|by apply runs_mod]. }
  apply Hrun2. apply runs_bind. rewrite (proj2 (Z.leb_gt _ _)) by lia. apply runs_mod, runs_mod. destruct E1 as (F1 & F2 & F3 & F4 & F5 & F6 & F7).
  assert (E2 : mp_cpus s2 = mp_cpus s /\ mp_ioapicid s2 = mp_ioapicid s /\ mp_lapic s2 = mp_lapic s /\ mp_dev s2 = mp_dev s /\ mp_ismp s2 = mp_ismp s && (n =? id) /\
    mp_bcpu s2 = if is_boot (id, fl) then n else mp_bcpu s) by (unfold s2; destruct (is_boot _); cbn; by split_and!).
  destruct E2 as (C1 & C2 & C3 & C4 & C5 & C6). apply HQ; [cbn; by rewrite length_insert, C1|]. split; cbn; try done.
  - rewrite C5. f_equal. rewrite (bool_decide_ext ([id] = seqZ n 1) (id = n)), bool_decide_decide; [|split; [by intros [= ->]|by intros ->]].
    destruct (decide (id = n)) as [->|Hne]; [apply Z.eqb_refl|apply Z.eqb_neq; lia].
  - intros i. rewrite C1. destruct (decide (i = Z.to_nat n)) as [->|Hne].
    + rewrite list_lookup_insert_eq by lia. rewrite decide_True by lia. f_equal. lia.
    + rewrite list_lookup_insert_ne by done. rewrite decide_False; [done|lia].
Qed.

Lemma counted_app es1 es2 s s1 s2 : 0 <= mp_ncpu s -> counted es1 s s1 -> counted es2 s1 s2 -> counted (es1 ++ es2) s s2.
Proof.
  intros Hn [A1 A2 A3 A4 A5 A6 A7] [B1 B2 B3 B4 B5 B6 B7]. split; rewrite ?procs_app, ?last_ioapic_app, ?last_index_app; try congruence.
  - rewrite B1, A1, length_app. lia.
  - rewrite B2, A2, <- andb_assoc. f_equal. pose proof (numbered_app (procs es1).*1 (procs es2).*1 (mp_ncpu s) Hn) as E. rewrite <- fmap_app, !length_fmap in E. by rewrite E, A1.
  - intros i. rewrite B5, A5. rewrite B1, A1. repeat case_decide; try done; lia.
Qed.

Lemma mpinit_loop_runs m e es : forall p q s fuel, entries_at m p es q e -> (length es < fuel)%nat -> 0 <= mp_ncpu s -> mp_ncpu s + Z.of_nat (length (procs es)) <= NCPU ->
  length (mp_cpus s) = Z.to_nat NCPU ->
  exists s', counted es s s' /\ length (mp_cpus s') = Z.to_nat NCPU /\ mpinit_loop m p e fuel s = mpinit_loop m q e (fuel - length es) s'.
Proof.
  induction es as [|x es IH]; intros p q s fuel Hat Hf Hn Hmax Hl.
  - cbn in Hat. subst q. exists s. split_and!; [apply counted_refl|done|]. by rewrite Nat.sub_0_r.
  - destruct Hat as (Hp & Hx & Hat). destruct fuel as [|fuel]; [cbn in Hf; lia|]. change (x :: es) with ([x] ++ es) in Hmax. rewrite procs_app, length_app in Hmax.
    assert (Hstep : exists s1, counted [x] s s1 /\ length (mp_cpus s1) = Z.to_nat NCPU /\ mpinit_loop m p e (S fuel) s = mpinit_loop m (p + esize x) e fuel s1).
    { cbn [mpinit_loop]. rewrite (proj2 (Z.ltb_lt _ _)) by done. cbv zeta. destruct x as [id fl|id|t]; cbn [entry_at] in Hx.
      - destruct Hx as (-> & <- & <-). cbn [Z.eqb MPPROC]. assert (Hr : runs (mp_proc m p) s (fun _ s' => length (mp_cpus s') = Z.to_nat NCPU /\ counted [EProc (proc_apicid m p) (proc_flags m p)] s s')).
        { apply mp_proc_runs; [cbn in Hmax; lia|done|]. by intros s' H1 H2. }
        apply runs_Ok in Hr as (u & s1 & E & H1 & H2). exists s1. split_and!; try done. unfold kbind at 1. by rewrite E.
      - destruct Hx as (-> & <-). exists (set_ioapicid (ioapic_apicno m p) s). split_and!; try done. split; cbn; try done; try lia; [by rewrite andb_true_r|]. intros i. by rewrite decide_False by lia.
      - destruct Hx as (-> & Ht). exists s. split_and!; [|done|].
        + split; cbn; try done; try lia; [by rewrite andb_true_r|]. intros i. by rewrite decide_False by lia.
        + by destruct Ht as [->|[->| ->]]. }
    destruct Hstep as (s1 & C1 & L1 & E1). destruct (IH (p + esize x) q s1 fuel Hat) as (s' & C2 & L2 & E2); try done; try (cbn in Hf; lia).
    + rewrite (co_ncpu _ _ _ C1). lia.
    + rewrite (co_ncpu _ _ _ C1). lia.
    + exists s'. split_and!; [by eapply (counted_app [x] es)|done|]. rewrite E1, E2. done.
Qed.

(** At an entry of an unknown type the loop goes on for ever. *)
Lemma unknown_loops m q e fuel : q < e -> 4 < ld m q -> forall s, mpinit_loop m q e fuel s = NoFuel.
Proof.
  intros Hq Ht. induction fuel as [|fuel IH]; intros s; [done|]. cbn [mpinit_loop]. rewrite (proj2 (Z.ltb_lt _ _)) by done. cbv zeta.
  unfold MPPROC, MPIOAPIC, MPBUS, MPIOINTR, MPLINTR. rewrite !(proj2 (Z.eqb_neq _ _)) by lia. cbn [orb]. unfold kbind, kmod. apply IH.
Qed.
End spec.

Lemma entries_end m e es : forall p q, entries_at m p es q e -> p + 8 * Z.of_nat (length es) <= q.
Proof.
  induction es as [|x es IH]; intros p q Hat; cbn [length]; [cbn in Hat; lia|]. destruct Hat as (_ & _ & Hat). apply IH in Hat.
  assert (8 <= esize x) by (by destruct x). lia.
Qed.

Section claims.
Context {D : Type} `{Ports D}.

(** The variables of mp.c before [mpinit]. *)
Definition mp_start (d : D) : mpst D := Mpst (replicate (Z.to_nat NCPU) 0) 0 false 0 0 0 d [].

(** The table that [mpconfig] finds, its entries and where they end. *)
Record table (m : mem) (mp conf q : Z) (es : list mpentry) : Prop := {
  tb_found : mpconfig m = Some (mp, conf);
  tb_entries : entries_at m (conf + sizeof_mpconf) es q (conf + conf_length m conf);
  tb_cpus : Z.of_nat (length (procs es)) <= NCPU
}.

Lemma ld16_nonneg m a : mem_ok m -> 0 <= ld16 m a.
Proof. intros Hm. unfold ld16, ld. pose proof (Hm (u32 a)). pose proof (Hm (u32 (a + 1))). lia. Qed.

Lemma table_loop m mp conf q es (s : mpst D) : mem_ok m -> table m mp conf q es -> mp_ncpu s = 0 -> length (mp_cpus s) = Z.to_nat NCPU -> q < conf + conf_length m conf + 20 ->
  exists s' fuel, counted es s s' /\ mpinit_loop m (conf + sizeof_mpconf) (conf + conf_length m conf) (S (Z.to_nat (conf_length m conf))) s =
    mpinit_loop m q (conf + conf_length m conf) (S fuel) s'.
Proof.
  intros Hm [T1 T2 T3] Hn Hl Hq. pose proof (entries_end _ _ _ _ _ T2) as He. pose proof (ld16_nonneg m (conf + 4) Hm) as Hlen. fold (conf_length m conf) in Hlen. unfold sizeof_mpconf in *.
  destruct (mpinit_loop_runs m (conf + conf_length m conf) es (conf + 44) q s (S (Z.to_nat (conf_length m conf))) T2) as (s' & C & _ & E); try done; try lia.
  exists s', (Z.to_nat (conf_length m conf) - length es)%nat. split; [done|]. rewrite E. f_equal. lia.
Qed.

(** C26: [mpinit] reads the table of the firmware.  Let [mpconfig] find a table of at most eight processors and of known entries.  [mpinit] returns.
    If the processors are numbered from 0 in the order of their entries, it has set [ismp], the number and the ids of the processors, the boot
    processor as the last one with the boot flag, the address of the local APIC and the I/O APIC, and has switched the
    interrupt mode if the table asks for it.  Otherwise it falls back to one processor. *)
Theorem mpinit_correct (d : D) m mp conf q es : mem_ok m -> table m mp conf q es -> conf + conf_length m conf <= q < conf + conf_length m conf + 20 ->
  runs (mpinit m) (mp_start d) (fun _ s =>
    let n := Z.of_nat (length (procs es)) in
    mp_bcpu s = last_index is_boot 0 0 (procs es) /\ (forall i, Z.of_nat i < n -> mp_cpus s !! i = Some (Z.of_nat i)) /\
    if bool_decide ((procs es).*1 = seqZ 0 n) then
      mp_ismp s = true /\ mp_ncpu s = n /\ mp_lapic s = conf_lapicaddr m conf /\ mp_ioapicid s = last_ioapic 0 es /\
      mp_dev s = if mp_imcrp m mp =? 0 then d else let (v, d') := inb 0x23 (outb 0x22 0x70 d) in outb 0x23 (Z.lor v 1) d'
    else mp_ismp s = false /\ mp_ncpu s = 1 /\ mp_lapic s = 0 /\ mp_ioapicid s = 0 /\ mp_dev s = d).
Proof.
  intros Hm T Hq. pose proof T as [T1 _ T3]. unfold mpinit. apply runs_bind, runs_mod. rewrite T1. apply runs_bind, runs_mod, runs_bind, runs_mod, runs_bind.
  set (s0 := set_lapic _ _). destruct (table_loop m mp conf q es s0 Hm T eq_refl eq_refl) as (s1 & fuel & [C1 C2 C3 C4 C5 C6 C7] & E); [lia|].
  eapply runs_eq; [rewrite E; cbn [mpinit_loop]; by rewrite (proj2 (Z.ltb_ge _ _)) by lia|]. cbn in C1, C2, C3, C4, C6, C7. apply runs_bind, runs_gets. rewrite C2.
  assert (Hc : forall i, Z.of_nat i < Z.of_nat (length (procs es)) -> mp_cpus s1 !! i = Some (Z.of_nat i)) by (intros i Hi; rewrite C5; rewrite decide_True; [done|cbn; lia]).
  destruct (bool_decide _) eqn:Eb; cbn [negb].
  - destruct (mp_imcrp m mp =? 0); cbn [negb].
    + apply runs_ret. cbv zeta. by split_and!.
    + apply runs_bind, runs_mod, runs_mod. cbv zeta. cbn. rewrite C7. by split_and!.
  - apply runs_bind, runs_mod, runs_bind, runs_mod, runs_mod. cbv zeta. cbn. by split_and!.
Qed.

(** An entry of an unknown type hangs the machine: [mpinit] prints its message for ever, because the entry is not passed over. *)
Theorem mpinit_unknown_hangs (d : D) m mp conf q es : mem_ok m -> table m mp conf q es -> q < conf + conf_length m conf -> 4 < ld m q ->
  (forall fuel s, mpinit_loop (D := D) m q (conf + conf_length m conf) fuel s = NoFuel) /\ mpinit m (mp_start d) = NoFuel.
Proof.
  intros Hm T Hq Ht. split; [intros fuel s; by apply unknown_loops|]. pose proof T as [T1 _ T3]. unfold mpinit, kbind at 1, kmod at 1. rewrite T1.
  unfold kbind at 1, kmod at 1. unfold kbind at 1, kmod at 1. set (s0 := set_lapic _ _). destruct (table_loop m mp conf q es s0 Hm T eq_refl eq_refl) as (s1 & fuel & _ & E); [lia|].
  unfold kbind at 1. rewrite E. by rewrite unknown_loops.
Qed.
End claims.

(** ** A machine with two processors *)

(** The bytes with a sum of 0 modulo 256, after byte [k] is set. *)
Definition with_checksum (k : nat) (l : list Z) : list Z := <[k := u8 (- foldr Z.add 0 l)]> l.

Definition sample_mp : list Z := with_checksum 10 (SIG_MP ++ [0x10; 0xFC; 0x09; 0] ++ [1; 4; 0; 0; 128; 0; 0; 0]).

(** The table with these entries: two processors, a bus and an I/O APIC, and one more byte. *)
Definition sample_entries : list Z :=
  [0; 0; 20; 3] ++ replicate 16 0 ++ [0; 1; 20; 1] ++ replicate 16 0 ++ [1; 0; 73; 83; 65; 32; 32; 32] ++ [2; 2; 17; 1; 0; 0; 0xC0; 0xFE].
Definition sample_conf (len : Z) : list Z := SIG_PCMP ++ [len; 0; 4; 0] ++ replicate 28 0 ++ [0; 0; 0xE0; 0xFE] ++ replicate 4 0 ++ sample_entries.
Definition sample_tables (extra : list Z) : list Z := sample_mp ++ with_checksum 7 (sample_conf (100 + Z.of_nat (length extra)) ++ extra).

Definition sample_memory (extra : list Z) : mem := fun a =>
  if a =? 0x8000040E then 0xC0 else if a =? 0x8000040F then 0x9F
  else if a <? 0x8009FC00 then 0 else nth (Z.to_nat (a - 0x8009FC00)) (sample_tables extra) 0.

Lemma sample_memory_ok extra : forallb (fun v => (0 <=? v) && (v <? 256)) (sample_tables extra) = true -> mem_ok (sample_memory extra).
Proof.
  intros H a. unfold sample_memory. destruct (a =? _); [lia|]. destruct (a =? _); [lia|]. destruct (a <? _); [lia|]. rewrite nth_lookup.
  destruct (sample_tables extra !! _) as [v|] eqn:E; [|cbn; lia]. rewrite forallb_forall in H. specialize (H v ltac:(apply list_elem_of_In; by eapply list_elem_of_lookup_2)). bool_hyps. cbn. lia.
Qed.

(** Ports that remember what was written. *)
#[local] Instance trace_ports : Ports (list (Z * Z)) := {|
  inb := fun _ d => (0, d); outb := fun p v d => d ++ [(p, v)]; insl := fun _ n d => (replicate (4 * n) 0, d); outsl := fun _ _ d => d
|}.

Definition sample_es : list mpentry := [EProc 0 3; EProc 1 1; EOther 1; EIoapic 2].

Definition entry_b (m : mem) (p : Z) (x : mpentry) : bool :=
  match x with
  | EProc id fl => (ld m p =? MPPROC) && (proc_apicid m p =? id) && (proc_flags m p =? fl)
  | EIoapic id => (ld m p =? MPIOAPIC) && (ioapic_apicno m p =? id)
  | EOther t => (ld m p =? t) && ((t =? MPBUS) || (t =? MPIOINTR) || (t =? MPLINTR))
  end.

Fixpoint entries_b (m : mem) (p : Z) (es : list mpentry) (q e : Z) : bool :=
  match es with
  | [] => p =? q
  | x :: es' => (p <? e) && entry_b m p x && entries_b m (p + esize x) es' q e
  end.

Lemma entries_b_at m q e es : forall p, entries_b m p es q e = true -> entries_at m p es q e.
Proof.
  induction es as [|x es IH]; intros p E; cbn [entries_b entries_at] in *; [by apply Z.eqb_eq|].
  apply andb_prop in E as [[E1 E2]%andb_prop E3]. apply Z.ltb_lt in E1. split; [done|]. split; [|by apply IH].
  destruct x; cbn [entry_b entry_at] in *; rewrite ?andb_true_iff, ?orb_true_iff, ?Z.eqb_eq in E2; tauto.
Qed.

Lemma sample_table extra : match mpconfig (sample_memory extra) with Some (mp, conf) => (mp =? 0x8009FC00) && (conf =? 0x8009FC10) | None => false end = true ->
  entries_b (sample_memory extra) (0x8009FC10 + sizeof_mpconf) sample_es 0x8009FC74 (0x8009FC10 + conf_length (sample_memory extra) 0x8009FC10) = true ->
  table (sample_memory extra) 0x8009FC00 0x8009FC10 0x8009FC74 sample_es.
Proof.
  intros H1 H2. split; [|by apply entries_b_at|by vm_compute]. destruct (mpconfig (sample_memory extra)) as [[mp conf]|]; [|done].
  apply andb_prop in H1 as [H1 H3]. apply Z.eqb_eq in H1 as ->. apply Z.eqb_eq in H3 as ->. done.
Qed.

Lemma mpinit_correct_witness :
  runs (mpinit (sample_memory [])) (mp_start []) (fun _ s => mp_bcpu s = 0 /\ (forall i, Z.of_nat i < 2 -> mp_cpus s !! i = Some (Z.of_nat i)) /\
    mp_ismp s = true /\ mp_ncpu s = 2 /\ mp_lapic s = 0xFEE00000 /\ mp_ioapicid s = 2 /\ mp_dev s = [(0x22, 0x70); (0x23, 1)]).
Proof.
  assert (E1 : mp_imcrp (sample_memory []) 0x8009FC00 = 128) by (by vm_compute). assert (E2 : conf_lapicaddr (sample_memory []) 0x8009FC10 = 0xFEE00000) by (by vm_compute).
  eapply runs_conseq.
  - apply (mpinit_correct [] (sample_memory []) 0x8009FC00 0x8009FC10 0x8009FC74 sample_es).
    + apply sample_memory_ok. by vm_compute.
    + apply sample_table; by vm_compute.
    + assert (E3 : conf_length (sample_memory []) 0x8009FC10 = 100) by (by vm_compute). rewrite E3. lia.
  - intros ? s (H1 & H2 & H3). rewrite E1, E2 in H3. split; [exact H1|]. split; [exact H2|]. exact H3.
Defined.

Lemma mpinit_unknown_hangs_witness : (forall fuel s, mpinit_loop (D := list (Z * Z)) (sample_memory [9; 0; 0]) 0x8009FC74 0x8009FC77 fuel s = NoFuel) /\
  mpinit (sample_memory [9; 0; 0]) (mp_start (D := list (Z * Z)) []) = NoFuel.
Proof.
  assert (E3 : conf_length (sample_memory [9; 0; 0]) 0x8009FC10 = 103) by (by vm_compute). change 0x8009FC77 with (0x8009FC10 + 103). rewrite <- E3.
  apply (mpinit_unknown_hangs [] (sample_memory [9; 0; 0]) 0x8009FC00 0x8009FC10 0x8009FC74 sample_es).
  - apply sample_memory_ok. by vm_compute.
  - apply sample_table; by vm_compute.
  - by vm_compute.
  - by vm_compute.
Defined.
