(* ===== verification/Irq.v ===== *)
(** * Interrupt controllers and timers: picirq.c, ioapic.c, lapic.c and timer.c

    The 8259A controllers and the 8253 timer are behind ports, the I/O APIC and the local APIC behind memory ([Mmio]).
    [q_mask] is [irqmask]; [q_ismp], [q_ioapicid] and [q_lapic] are set by [mpinit] (Mp.v); [q_dev] is the devices and [q_msgs] what has been printed. *)

From S2P Require Import Prelude Ports.

(** Loads and stores of 32-bit words, and stores of 16-bit words, that reach devices or memory shared with them. *)
Class Mmio (D : Type) := {
  mmio_read : Z -> D -> Z * D;
  mmio_write : Z -> Z -> D -> D;
  mmio_write16 : Z -> Z -> D -> D
}.

Definition T_IRQ0 : Z := 32.
Definition IRQ_TIMER : Z := 0.
Definition IRQ_KBD : Z := 1.
Definition IRQ_COM1 : Z := 4.
Definition IRQ_IDE : Z := 14.
Definition IRQ_ERROR : Z := 19.
Definition IRQ_SPURIOUS : Z := 31.

Definition IO_PIC1 : Z := 0x20.
Definition IO_PIC2 : Z := 0xA0.
Definition IRQ_SLAVE : Z := 2.

Definition IOAPIC : Z := 0xFEC00000.
Definition REG_ID : Z := 0.
Definition REG_VER : Z := 1.
Definition REG_TABLE : Z := 0x10.
Definition INT_DISABLED : Z := 0x10000.

Definition IO_TIMER1 : Z := 0x40.
Definition TIMER_FREQ : Z := 1193182.
Definition TIMER_DIV (x : Z) : Z := (TIMER_FREQ + x / 2) / x.
Definition TIMER_MODE : Z := IO_TIMER1 + 3.
Definition TIMER_SEL0 : Z := 0.
Definition TIMER_RATEGEN : Z := 4.
Definition TIMER_16BIT : Z := 0x30.

Definition IO_RTC : Z := 0x70.

(** The two messages printed: of [ioapicinit], and of [cpunum] with its caller's address. *)
Inductive irqmsg := NotMp | CpuCalled (ra : Z).

Record irqst (D : Type) := Irqst { q_mask : Z; q_ismp : bool; q_ioapicid : Z; q_lapic : Z; q_n : Z; q_dev : D; q_msgs : list irqmsg }.
Arguments Irqst {D}.
Arguments q_mask {D}.
Arguments q_ismp {D}.
Arguments q_ioapicid {D}.
Arguments q_lapic {D}.
Arguments q_n {D}.
Arguments q_dev {D}.
Arguments q_msgs {D}.

Section Irq.
Context {D : Type} `{Ports D} `{Mmio D}.

Definition set_q_mask (v : Z) (s : irqst D) : irqst D := Irqst v (q_ismp s) (q_ioapicid s) (q_lapic s) (q_n s) (q_dev s) (q_msgs s).
Definition set_q_n (v : Z) (s : irqst D) : irqst D := Irqst (q_mask s) (q_ismp s) (q_ioapicid s) (q_lapic s) v (q_dev s) (q_msgs s).
Definition on_dev (f : D -> D) (s : irqst D) : irqst D := Irqst (q_mask s) (q_ismp s) (q_ioapicid s) (q_lapic s) (q_n s) (f (q_dev s)) (q_msgs s).
Definition q_say (m : irqmsg) (s : irqst D) : irqst D := Irqst (q_mask s) (q_ismp s) (q_ioapicid s) (q_lapic s) (q_n s) (q_dev s) (q_msgs s ++ [m]).

Definition q_outb (p v : Z) : K (irqst D) unit := kmod (on_dev (outb p (u8 v))).
Definition q_read (a : Z) : K (irqst D) Z := fun s => let (v, d) := mmio_read a (q_dev s) in Ok v (on_dev (fun _ => d) s).
Definition q_write (a v : Z) : K (irqst D) unit := kmod (on_dev (mmio_write a (u32 v))).

(** ** picirq.c *)

(** The first value of [irqmask]. *)
Definition irqmask_start : Z := Z.land 0xFFFF (Z.lnot (Z.shiftl 1 IRQ_SLAVE)).

Definition picsetmask (mask : Z) : K (irqst D) unit :=
  kmod (set_q_mask mask) ;;;
  q_outb (IO_PIC1 + 1) mask ;;;
  q_outb (IO_PIC2 + 1) (Z.shiftr mask 8).

Definition picenable (irq : Z) : K (irqst D) unit :=
  let* mask := kgets q_mask in
  picsetmask (Z.land mask (Z.lnot (Z.shiftl 1 irq)) mod 65536).

Definition picinit : K (irqst D) unit :=
  q_outb (IO_PIC1 + 1) 0xFF ;;;
  q_outb (IO_PIC2 + 1) 0xFF ;;;
  q_outb IO_PIC1 0x11 ;;;
  q_outb (IO_PIC1 + 1) T_IRQ0 ;;;
  q_outb (IO_PIC1 + 1) (Z.shiftl 1 IRQ_SLAVE) ;;;
  q_outb (IO_PIC1 + 1) 0x3 ;;;
  q_outb IO_PIC2 0x11 ;;;
  q_outb (IO_PIC2 + 1) (T_IRQ0 + 8) ;;;
  q_outb (IO_PIC2 + 1) IRQ_SLAVE ;;;
  q_outb (IO_PIC2 + 1) 0x3 ;;;
  q_outb IO_PIC1 0x68 ;;;
  q_outb IO_PIC1 0x0a ;;;
  q_outb IO_PIC2 0x68 ;;;
  q_outb IO_PIC2 0x0a ;;;
  let* mask := kgets q_mask in
  when negb (mask =? 0xFFFF) do picsetmask mask.

(** ** ioapic.c *)

Definition ioapicread (reg : Z) : K (irqst D) Z :=
  q_write IOAPIC reg ;;;
  q_read (IOAPIC + 16).

Definition ioapicwrite (reg data : Z) : K (irqst D) unit :=
  q_write IOAPIC reg ;;;
  q_write (IOAPIC + 16) data.

Definition ioapicinit : K (irqst D) unit :=
  let* ismp := kgets q_ismp in
  if negb ismp then kret tt
  else
    let* ver := ioapicread REG_VER in
    let maxintr := Z.land (Z.shiftr ver 16) 0xFF in
    let* rid := ioapicread REG_ID in
    let id := Z.shiftr rid 24 in
    let* ioapicid := kgets q_ioapicid in
    (when negb (id =? ioapicid) do kmod (q_say NotMp)) ;;;
    for_each (seqZ 0 (maxintr + 1)) (fun i =>
      ioapicwrite (REG_TABLE + 2 * i) (Z.lor INT_DISABLED (T_IRQ0 + i)) ;;;
      ioapicwrite (REG_TABLE + 2 * i + 1) 0).

Definition ioapicenable (irq cpunum : Z) : K (irqst D) unit :=
  let* ismp := kgets q_ismp in
  if negb ismp then kret tt
  else
    ioapicwrite (REG_TABLE + 2 * irq) (T_IRQ0 + irq) ;;;
    ioapicwrite (REG_TABLE + 2 * irq + 1) (Z.shiftl cpunum 24).

(** ** timer.c *)

Definition timerinit : K (irqst D) unit :=
  q_outb TIMER_MODE (Z.lor (Z.lor TIMER_SEL0 TIMER_RATEGEN) TIMER_16BIT) ;;;
  q_outb IO_TIMER1 (TIMER_DIV 100 mod 256) ;;;
  q_outb IO_TIMER1 (TIMER_DIV 100 / 256) ;;;
  picenable IRQ_TIMER.

(** ** lapic.c: registers as byte offsets from [lapic] *)

Definition ID : Z := 0x20.
Definition VER : Z := 0x30.
Definition TPR : Z := 0x80.
Definition EOI : Z := 0xB0.
Definition SVR : Z := 0xF0.
Definition ENABLE : Z := 0x100.
Definition ESR : Z := 0x280.
Definition ICRLO : Z := 0x300.
Definition INIT : Z := 0x500.
Definition STARTUP : Z := 0x600.
Definition DELIVS : Z := 0x1000.
Definition ASSERT : Z := 0x4000.
Definition LEVEL : Z := 0x8000.
Definition BCAST : Z := 0x80000.
Definition ICRHI : Z := 0x310.
Definition TIMER : Z := 0x320.
Definition X1 : Z := 0xB.
Definition PERIODIC : Z := 0x20000.
Definition PCINT : Z := 0x340.
Definition LINT0 : Z := 0x350.
Definition LINT1 : Z := 0x360.
Definition ERROR : Z := 0x370.
Definition MASKED : Z := 0x10000.
Definition TICR : Z := 0x380.
Definition TDCR : Z := 0x3E0.

Definition lapicr (index : Z) : K (irqst D) Z :=
  let* lapic := kgets q_lapic in
  q_read (lapic + index).

Definition lapicw (index value : Z) : K (irqst D) unit :=
  let* lapic := kgets q_lapic in
  q_write (lapic + index) value ;;;
  lapicr ID ;;;
  kret tt.

(** The wait for the delivery, at most [polls] times. *)
Fixpoint icr_wait (polls : nat) : K (irqst D) unit :=
  match polls with
  | O => knofuel
  | S polls' =>
      let* v := lapicr ICRLO in
      if Z.land v DELIVS =? 0 then kret tt else icr_wait polls'
  end.

Definition lapicinit (polls : nat) : K (irqst D) unit :=
  let* lapic := kgets q_lapic in
  if lapic =? 0 then kret tt
  else
    lapicw SVR (Z.lor ENABLE (T_IRQ0 + IRQ_SPURIOUS)) ;;;
    lapicw TDCR X1 ;;;
    lapicw TIMER (Z.lor PERIODIC (T_IRQ0 + IRQ_TIMER)) ;;;
    lapicw TICR 10000000 ;;;
    lapicw LINT0 MASKED ;;;
    lapicw LINT1 MASKED ;;;
    let* ver := lapicr VER in
    (when 4 <=? Z.land (Z.shiftr ver 16) 0xFF do lapicw PCINT MASKED) ;;;
    lapicw ERROR (T_IRQ0 + IRQ_ERROR) ;;;
    lapicw ESR 0 ;;;
    lapicw ESR 0 ;;;
    lapicw EOI 0 ;;;
    lapicw ICRHI 0 ;;;
    lapicw ICRLO (Z.lor (Z.lor BCAST INIT) LEVEL) ;;;
    icr_wait polls ;;;
    lapicw TPR 0.

Definition lapiceoi : K (irqst D) unit :=
  let* lapic := kgets q_lapic in
  when negb (lapic =? 0) do lapicw EOI 0.

(** [intr] is the bit [FL_IF] of the flags, [ra] the return address. *)
Definition cpunum (intr : bool) (ra : Z) : K (irqst D) Z :=
  (when intr do
    (let* n := kgets q_n in
     kmod (set_q_n (s32 (n + 1))) ;;;
     when n =? 0 do kmod (q_say (CpuCalled ra)))) ;;;
  let* lapic := kgets q_lapic in
  if negb (lapic =? 0) then
    let* id := lapicr ID in
    kret (Z.shiftr id 24)
  else kret 0.

Definition microdelay (us : Z) : K (irqst D) unit := kret tt.

(** [wrv] is at the kernel address of 40:67. *)
Definition wrv : Z := 0x80000000 + Z.lor (Z.shiftl 0x40 4) 0x67.

Definition lapicstartap (apicid addr : Z) : K (irqst D) unit :=
  q_outb IO_RTC 0xF ;;;
  q_outb (IO_RTC + 1) 0x0A ;;;
  kmod (on_dev (mmio_write16 wrv 0)) ;;;
  kmod (on_dev (mmio_write16 (wrv + 2) (Z.shiftr addr 4 mod 65536))) ;;;
  lapicw ICRHI (Z.shiftl apicid 24) ;;;
  lapicw ICRLO (Z.lor (Z.lor INIT LEVEL) ASSERT) ;;;
  microdelay 200 ;;;
  lapicw ICRLO (Z.lor INIT LEVEL) ;;;
  microdelay 100 ;;;
  for_each (seq 0 2) (fun _ =>
    lapicw ICRHI (Z.shiftl apicid 24) ;;;
    lapicw ICRLO (Z.lor STARTUP (Z.shiftr addr 12)) ;;;
    microdelay 200).
End Irq.
