(* ===== verification/IrqSpec.v ===== *)
(** * What the interrupt controllers are made to do

    The 8259A pair, the I/O APIC and the local APIC are known by the laws of [PicPair], [IoApic] and [LocalApic], which
    say what a write to their ports or registers does.  After [picinit] and [ioapicinit], an interrupt line is
    delivered exactly when a driver has enabled it, at the vector trap.c expects.  *)

From S2P Require Import Prelude Mmu Ports Irq.

(** ** The 8259A pair *)

(** What a write to the odd port means: the mask, or the next word of the initialization. *)
Inductive pic_mode := Ready | Icw2 (single icw4 : bool) | Icw3 (icw4 : bool) | Icw4.
Record chip := Chip { ch_mode : pic_mode; ch_base : Z; ch_cascade : Z; ch_aeoi : bool; ch_imr : Z }.

Definition after3 (icw4 : bool) : pic_mode := if icw4 then Icw4 else Ready.

(** The even port: a word with bit 4 starts the initialization and clears the mask. *)
Definition chip_cmd (v : Z) (c : chip) : chip :=
  if Z.testbit v 4 then Chip (Icw2 (Z.testbit v 1) (Z.testbit v 0)) (ch_base c) (ch_cascade c) false 0 else c.

Definition chip_data (v : Z) (c : chip) : chip :=
  match ch_mode c with
  | Ready => Chip Ready (ch_base c) (ch_cascade c) (ch_aeoi c) v
  | Icw2 single icw4 => Chip (if single then after3 icw4 else Icw3 icw4) (Z.land v 0xF8) (ch_cascade c) (ch_aeoi c) (ch_imr c)
  | Icw3 icw4 => Chip (after3 icw4) (ch_base c) v (ch_aeoi c) (ch_imr c)
  | Icw4 => Chip Ready (ch_base c) (ch_cascade c) (Z.testbit v 1) (ch_imr c)
  end.

Definition pic_out (p v : Z) (c : chip * chip) : chip * chip :=
  if p =? IO_PIC1 then (chip_cmd v c.1, c.2)
  else if p =? IO_PIC1 + 1 then (chip_data v c.1, c.2)
  else if p =? IO_PIC2 then (c.1, chip_cmd v c.2)
  else if p =? IO_PIC2 + 1 then (c.1, chip_data v c.2)
  else c.

Class PicPair (D : Type) `{Ports D} `{Mmio D} := {
  chips : D -> chip * chip;
  chips_out : forall p v d, chips (outb p v d) = pic_out p v (chips d);
  chips_read : forall a d, chips (mmio_read a d).2 = chips d;
  chips_write : forall a v d, chips (mmio_write a v d) = chips d
}.

(** The vector at which line [i] interrupts the processor, if it does: the slave's lines go through line 2 of the master. *)
Definition pic_vector (c : chip * chip) (i : Z) : option Z :=
  if i <? 8 then if Z.testbit (ch_imr c.1) i then None else Some (ch_base c.1 + i)
  else if Z.testbit (ch_imr c.2) (i - 8) || Z.testbit (ch_imr c.1) 2 then None else Some (ch_base c.2 + (i - 8)).

(** ** The I/O APIC *)

Record ioa := Ioa { io_sel : Z; io_ver : Z; io_id : Z; io_reg : Z -> Z }.
Definition lines (x : ioa) : Z := Z.land (Z.shiftr (io_ver x) 16) 0xFF.
Definition in_table (x : ioa) (i : Z) : bool := (REG_TABLE <=? i) && (i <? REG_TABLE + 2 * (lines x + 1)).

(** The table is kept; of the other registers only the identity can be written. *)
Definition ioa_write (a v : Z) (x : ioa) : ioa :=
  if a =? IOAPIC then Ioa v (io_ver x) (io_id x) (io_reg x)
  else if a =? IOAPIC + 16 then
    if in_table x (io_sel x) then Ioa (io_sel x) (io_ver x) (io_id x) (fun i => if i =? io_sel x then v else io_reg x i)
    else if io_sel x =? REG_ID then Ioa (io_sel x) (io_ver x) (Z.land v 0x0F000000) (io_reg x)
    else x
  else x.

Class IoApic (D : Type) `{Ports D} `{Mmio D} := {
  the_ioa : D -> ioa;
  ioa_out : forall p v d, the_ioa (outb p v d) = the_ioa d;
  ioa_written : forall a v d, the_ioa (mmio_write a v d) = ioa_write a v (the_ioa d);
  ioa_read_ver : forall d, io_sel (the_ioa d) = REG_VER -> mmio_read (IOAPIC + 16) d = (io_ver (the_ioa d), d);
  ioa_read_id : forall d, io_sel (the_ioa d) = REG_ID -> mmio_read (IOAPIC + 16) d = (io_id (the_ioa d), d)
}.

(** The vector and the processor of line [i], unless it is disabled. *)
Definition ioa_route (x : ioa) (i : Z) : option (Z * Z) :=
  let low := io_reg x (REG_TABLE + 2 * i) in
  if Z.testbit low 16 then None else Some (Z.land low 0xFF, Z.shiftr (io_reg x (REG_TABLE + 2 * i + 1)) 24).

(** ** The lines enabled *)

(** What a driver does for its line: [picenable], [ioapicenable]. *)
Definition enable_line {D} `{Ports D} `{Mmio D} (e : Z * Z) : K (irqst D) unit := picenable e.1 ;;; ioapicenable e.1 e.2.

(** The processor of the last request for line [i]. *)
Definition last_cpu (es : list (Z * Z)) (i : Z) : option Z := foldl (fun r e => if e.1 =? i then Some e.2 else r) None es.

Lemma last_cpu_snoc es e i : last_cpu (es ++ [e]) i = if e.1 =? i then Some e.2 else last_cpu es i.
Proof. unfold last_cpu. by rewrite foldl_app. Qed.

Section Routing.
Context {D : Type} `{Ports D} `{Mmio D} `{!PicPair D} `{!IoApic D}.

(** [irqmask] after the lines have been enabled. *)
Definition mask_ok (ls : list Z) (mask : Z) : Prop := 0 <= mask < 65536 /\ forall i, 0 <= i < 16 -> Z.testbit mask i = negb (bool_decide (i = IRQ_SLAVE \/ i ∈ ls)).

(** The masks of the pair are the halves of [irqmask]. *)
Definition pic_holds (mask : Z) (c : chip * chip) : Prop := c = (Chip Ready T_IRQ0 (2 ^ IRQ_SLAVE) true (u8 mask), Chip Ready (T_IRQ0 + 8) IRQ_SLAVE true (u8 (Z.shiftr mask 8))).

Lemma mask_start : mask_ok [] irqmask_start.
Proof.
  split; [vm_compute; split; done|]. intros i Hi. assert (Hin : i ∈ seqZ 0 16) by (apply elem_of_seqZ; lia). clear Hi. revert i Hin. rewrite <- Forall_forall. repeat constructor.
Qed.

Lemma mask_enable ls mask i : mask_ok ls mask -> 0 <= i < 16 -> mask_ok (ls ++ [i]) (Z.land mask (Z.lnot (Z.shiftl 1 i)) mod 65536).
Proof.
  intros (Hr & Hb) Hi. split; [mlia|]. intros j Hj. change 65536 with (2 ^ 16). rewrite Z.mod_pow2_bits_low by lia. rewrite Z.land_spec, Z.lnot_spec, Z.shiftl_1_l by lia. rewrite Z.pow2_bits_eqb, Hb by lia.
  destruct (decide (j = i)) as [->|Hne].
  - rewrite Z.eqb_refl, andb_false_r. rewrite bool_decide_true; [done|]. right. set_solver.
  - rewrite (proj2 (Z.eqb_neq _ _)) by done. rewrite andb_true_r. f_equal. apply bool_decide_ext. set_solver.
Qed.

Lemma pic_vector_holds ls mask c i : mask_ok ls mask -> pic_holds mask c -> 0 <= i < 16 -> pic_vector c i = if bool_decide (i = IRQ_SLAVE \/ i ∈ ls) then Some (T_IRQ0 + i) else None.
Proof.
  intros (Hr & Hb) -> Hi. unfold pic_vector. cbn [ch_imr ch_base fst snd]. unfold u8. change 256 with (2 ^ 8). assert (H2 : Z.testbit mask 2 = false) by (rewrite Hb by lia; rewrite bool_decide_true by (by left); done).
  destruct (i <? 8) eqn:E; [apply Z.ltb_lt in E|apply Z.ltb_ge in E].
  - rewrite Z.mod_pow2_bits_low by lia. rewrite Hb by lia. by destruct (bool_decide _).
  - rewrite !Z.mod_pow2_bits_low by lia. rewrite Z.shiftr_spec by lia. replace (i - 8 + 8) with i by lia. rewrite H2, orb_false_r, Hb by lia. destruct (bool_decide _); [|done]. cbn. f_equal. lia.
Qed.

(** ** The pair: initialization and enabling *)

Lemma chips_on_dev f (s : irqst D) : q_dev (on_dev f s) = f (q_dev s).
Proof. done. Qed.

Lemma picsetmask_runs (s : irqst D) mask : ch_mode (chips (q_dev s)).1 = Ready -> ch_mode (chips (q_dev s)).2 = Ready ->
  runs (picsetmask mask) s (fun _ s' => q_mask s' = mask /\ q_ismp s' = q_ismp s /\ q_ioapicid s' = q_ioapicid s /\ the_ioa (q_dev s') = the_ioa (q_dev s) /\
    chips (q_dev s') = (chip_data (u8 mask) (chips (q_dev s)).1, chip_data (u8 (Z.shiftr mask 8)) (chips (q_dev s)).2)).
Proof.
  intros Hm Hs. eapply runs_eq; [reflexivity|]. cbn [q_mask q_ismp q_ioapicid q_dev on_dev set_q_mask]. rewrite !ioa_out, !chips_out. done.
Qed.

Lemma picenable_runs (s : irqst D) ls i : mask_ok ls (q_mask s) -> pic_holds (q_mask s) (chips (q_dev s)) -> 0 <= i < 16 ->
  runs (picenable i) s (fun _ s' => mask_ok (ls ++ [i]) (q_mask s') /\ pic_holds (q_mask s') (chips (q_dev s')) /\
    q_ismp s' = q_ismp s /\ the_ioa (q_dev s') = the_ioa (q_dev s)).
Proof.
  intros Hm Hc Hi. unfold picenable. apply runs_bind, runs_gets. eapply runs_conseq; [apply picsetmask_runs; by rewrite Hc|].
  intros u s' (E1 & E2 & _ & E3 & E4). rewrite E1. split; [by apply mask_enable|]. split; [|done]. unfold pic_holds. rewrite E4, Hc. done.
Qed.

Lemma picinit_runs (s : irqst D) : mask_ok [] (q_mask s) ->
  runs picinit s (fun _ s' => q_mask s' = q_mask s /\ q_ismp s' = q_ismp s /\ q_ioapicid s' = q_ioapicid s /\ the_ioa (q_dev s') = the_ioa (q_dev s) /\ pic_holds (q_mask s) (chips (q_dev s'))).
Proof.
  intros (Hr & Hb). assert (Hne : (q_mask s =? 0xFFFF) = false).
  { apply Z.eqb_neq. intros E. specialize (Hb 2 ltac:(lia)). rewrite E in Hb. done. }
  eapply runs_eq; [unfold picinit, picsetmask, q_outb, kbind, kmod, kgets; cbn [q_mask on_dev]; rewrite Hne; reflexivity|].
  cbn [q_mask q_ismp q_ioapicid q_dev on_dev set_q_mask]. rewrite !ioa_out, !chips_out. destruct (chips (q_dev s)) as [c1 c2].
  do 4 (split; [done|]). destruct c1 as [m1 ? ? ? ?], c2 as [m2 ? ? ? ?]. destruct m1, m2; reflexivity.
Qed.

(** ** The I/O APIC: initialization and enabling *)

(** The part of the state [ioapicread] and [ioapicwrite] leave alone. *)
Definition same_but_ioa (s s' : irqst D) : Prop := q_mask s' = q_mask s /\ q_ismp s' = q_ismp s /\ q_ioapicid s' = q_ioapicid s /\ chips (q_dev s') = chips (q_dev s).

Lemma ioapicwrite_runs (s : irqst D) reg v : 0 <= reg < 2 ^ 32 -> in_table (the_ioa (q_dev s)) reg = true ->
  runs (ioapicwrite reg v) s (fun _ s' => same_but_ioa s s' /\ let x := the_ioa (q_dev s) in
    the_ioa (q_dev s') = Ioa reg (io_ver x) (io_id x) (fun i => if i =? reg then u32 v else io_reg x i)).
Proof.
  intros Hr Ht. eapply runs_eq; [reflexivity|]. unfold same_but_ioa. cbn [q_mask q_ismp q_ioapicid q_dev on_dev]. rewrite !chips_write, !ioa_written, (u32_small reg) by lia.
  split; [done|]. unfold ioa_write. rewrite Z.eqb_refl. cbn [io_sel io_ver io_id io_reg].
  change (IOAPIC + 16 =? IOAPIC) with false. rewrite Z.eqb_refl. cbn iota.
  change (in_table (Ioa reg (io_ver (the_ioa (q_dev s))) (io_id (the_ioa (q_dev s))) (io_reg (the_ioa (q_dev s)))) reg) with (in_table (the_ioa (q_dev s)) reg). by rewrite Ht.
Qed.

Lemma ioapicread_ver (s : irqst D) :
  runs (ioapicread REG_VER) s (fun v s' => v = io_ver (the_ioa (q_dev s)) /\ same_but_ioa s s' /\ lines (the_ioa (q_dev s')) = lines (the_ioa (q_dev s))).
Proof.
  unfold ioapicread, q_write, q_read. apply runs_bind, runs_mod. change (u32 REG_VER) with REG_VER. unfold runs. cbn [q_dev on_dev].
  rewrite ioa_read_ver by (rewrite ioa_written; done). unfold same_but_ioa. cbn. by rewrite chips_write, ioa_written.
Qed.

Lemma ioapicread_id (s : irqst D) :
  runs (ioapicread REG_ID) s (fun v s' => v = io_id (the_ioa (q_dev s)) /\ same_but_ioa s s' /\ lines (the_ioa (q_dev s')) = lines (the_ioa (q_dev s))).
Proof.
  unfold ioapicread, q_write, q_read. apply runs_bind, runs_mod. change (u32 REG_ID) with REG_ID. unfold runs. cbn [q_dev on_dev].
  rewrite ioa_read_id by (rewrite ioa_written; done). unfold same_but_ioa. cbn. by rewrite chips_write, ioa_written.
Qed.

(** The first [n] lines of the table are as requested. *)
Definition routes_upto (n : Z) (es : list (Z * Z)) (x : ioa) : Prop :=
  forall i, 0 <= i < n -> ioa_route x i = (fun c => (T_IRQ0 + i, c)) <$> last_cpu es i.

Lemma write_pair_runs (s : irqst D) i low high (x := the_ioa (q_dev s)) : 0 <= i <= lines x -> lines x < 224 ->
  runs (ioapicwrite (REG_TABLE + 2 * i) low ;;; ioapicwrite (REG_TABLE + 2 * i + 1) high) s (fun _ s' => same_but_ioa s s' /\ lines (the_ioa (q_dev s')) = lines x /\
    forall j, ioa_route (the_ioa (q_dev s')) j = if j =? i then if Z.testbit (u32 low) 16 then None else Some (Z.land (u32 low) 0xFF, Z.shiftr (u32 high) 24) else ioa_route x j).
Proof.
  intros Hi Hl. unfold REG_TABLE. apply runs_bind. eapply runs_conseq; [apply ioapicwrite_runs; [lia|unfold in_table, REG_TABLE; apply andb_true_intro; split; [apply Z.leb_le|apply Z.ltb_lt]; fold x; lia]|].
  intros ? s1 (S1 & E1). cbn zeta in E1. fold x in E1. assert (L1 : lines (the_ioa (q_dev s1)) = lines x) by (rewrite E1; done).
  eapply runs_conseq; [apply ioapicwrite_runs; [lia|unfold in_table, REG_TABLE; apply andb_true_intro; split; [apply Z.leb_le|apply Z.ltb_lt]; rewrite ?L1; lia]|].
  intros ? s2 (S2 & E2). cbn zeta in E2. rewrite E1 in E2. cbn [io_ver io_id io_reg] in E2. split; [unfold same_but_ioa in *; naive_solver congruence|]. split; [by rewrite E2|].
  intros j. unfold ioa_route. rewrite E2. cbn [io_reg]. unfold REG_TABLE. destruct (j =? i) eqn:Ej; [apply Z.eqb_eq in Ej as ->|apply Z.eqb_neq in Ej].
  - rewrite (proj2 (Z.eqb_neq (16 + 2 * i) (16 + 2 * i + 1))) by lia. by rewrite !Z.eqb_refl.
  - by rewrite !(proj2 (Z.eqb_neq _ _)) by lia.
Qed.

Lemma ioapicinit_loop_runs n : forall k (s : irqst D), 0 <= k -> k + Z.of_nat n = lines (the_ioa (q_dev s)) + 1 -> lines (the_ioa (q_dev s)) < 224 -> routes_upto k [] (the_ioa (q_dev s)) ->
  runs (for_each (seqZ k (Z.of_nat n)) (fun i => ioapicwrite (REG_TABLE + 2 * i) (Z.lor INT_DISABLED (T_IRQ0 + i)) ;;; ioapicwrite (REG_TABLE + 2 * i + 1) 0)) s
    (fun _ s' => same_but_ioa s s' /\ lines (the_ioa (q_dev s')) = lines (the_ioa (q_dev s)) /\ routes_upto (k + Z.of_nat n) [] (the_ioa (q_dev s'))).
Proof.
  induction n as [|n IH]; intros k s Hk Hn Hl Hr.
  - apply runs_ret. split; [done|]. split; [done|]. by rewrite Z.add_0_r.
  - rewrite seqZ_cons by lia. replace (Z.pred (Z.of_nat (S n))) with (Z.of_nat n) by lia. cbn [for_each]. apply runs_bind. eapply runs_conseq; [apply write_pair_runs; lia|].
    intros ? s1 (S1 & L1 & R1). eapply runs_conseq; [apply IH; rewrite ?L1; try lia|].
    + intros i Hi. rewrite R1. destruct (i =? k) eqn:Ei; [|apply Hr; apply Z.eqb_neq in Ei; lia]. apply Z.eqb_eq in Ei as ->.
      unfold T_IRQ0. change INT_DISABLED with (Z.shiftl 1 16). rewrite (lor_disjoint 1 (32 + k) 16), u32_small by lia. by rewrite <- (lor_disjoint 1 (32 + k) 16), Z.lor_spec by lia.
    + intros ? s2 (S2 & L2 & R2). split; [unfold same_but_ioa in *; naive_solver congruence|]. split; [congruence|]. replace (k + Z.of_nat (S n)) with (Z.succ k + Z.of_nat n) by lia. done.
Qed.

Lemma ioapicinit_runs (s : irqst D) : q_ismp s = true -> lines (the_ioa (q_dev s)) < 224 ->
  runs ioapicinit s (fun _ s' => same_but_ioa s s' /\ lines (the_ioa (q_dev s')) = lines (the_ioa (q_dev s)) /\
    routes_upto (lines (the_ioa (q_dev s)) + 1) [] (the_ioa (q_dev s'))).
Proof.
  intros Hm Hl. assert (Hn : 0 <= lines (the_ioa (q_dev s))) by (unfold lines; apply Z.land_nonneg; right; lia).
  unfold ioapicinit. apply runs_bind, runs_gets. rewrite Hm. cbn [negb].
  apply runs_bind. eapply runs_conseq; [apply ioapicread_ver|]. intros v s1 (-> & S1 & L1).
  apply runs_bind. eapply runs_conseq; [apply ioapicread_id|]. intros v s2 (-> & S2 & L2).
  apply runs_bind, runs_gets. apply runs_bind.
  eapply (runs_conseq _ _ _ (fun _ s3 => same_but_ioa s2 s3 /\ the_ioa (q_dev s3) = the_ioa (q_dev s2))); [by destruct (negb _)|].
  intros ? s3 (S3 & L3). fold (lines (the_ioa (q_dev s))). set (n := lines (the_ioa (q_dev s))) in *.
  replace (n + 1) with (Z.of_nat (Z.to_nat (n + 1))) by lia.
  eapply runs_conseq; [apply ioapicinit_loop_runs; rewrite ?L3, ?L2, ?L1; try lia; intros i Hi; lia|].
  intros ? s4 (S4 & L4 & R4). split; [unfold same_but_ioa in *; naive_solver congruence|]. split; [congruence|]. done.
Qed.

Lemma ioapicenable_runs (s : irqst D) es irq cpu (n := lines (the_ioa (q_dev s))) : q_ismp s = true -> 0 <= irq <= n -> n < 224 -> 0 <= cpu < 256 ->
  routes_upto (n + 1) es (the_ioa (q_dev s)) ->
  runs (ioapicenable irq cpu) s (fun _ s' => same_but_ioa s s' /\ lines (the_ioa (q_dev s')) = n /\ routes_upto (n + 1) (es ++ [(irq, cpu)]) (the_ioa (q_dev s'))).
Proof.
  intros Hm Hi Hn Hc Hr. unfold ioapicenable. apply runs_bind, runs_gets. rewrite Hm. cbn [negb]. eapply runs_conseq; [apply write_pair_runs; lia|].
  intros ? s1 (S1 & L1 & R1). split; [done|]. split; [done|]. intros i Hin. rewrite R1, last_cpu_snoc. cbn [fst snd]. rewrite (Z.eqb_sym irq i).
  destruct (i =? irq) eqn:E; [|by apply Hr]. apply Z.eqb_eq in E as ->. unfold T_IRQ0. rewrite !u32_small by (rewrite ?Z.shiftl_mul_pow2; lia).
  assert (E16 : Z.testbit (32 + irq) 16 = false) by (rewrite <- (Z.mod_small (32 + irq) (2 ^ 16)) by lia; apply Z.mod_pow2_bits_high; lia).
  rewrite E16. change 255 with (Z.ones 8). rewrite Z.land_ones, Z.mod_small by lia. rewrite Z.shiftr_shiftl_l, Z.shiftl_0_r by lia. done.
Qed.

(** ** Routing *)

(** What is true once the requests [es] have been made; [x0] is the I/O APIC at the start, which a kernel without it does not touch. *)
Definition routed (x0 : ioa) (es : list (Z * Z)) (s : irqst D) : Prop :=
  mask_ok es.*1 (q_mask s) /\ pic_holds (q_mask s) (chips (q_dev s)) /\
  if q_ismp s then lines (the_ioa (q_dev s)) = lines x0 /\ routes_upto (lines x0 + 1) es (the_ioa (q_dev s)) else the_ioa (q_dev s) = x0.

Lemma enable_line_runs x0 es e (s : irqst D) : routed x0 es s -> 0 <= e.1 < 16 -> 0 <= e.2 < 256 -> (q_ismp s = true -> 15 <= lines x0 < 224) ->
  runs (enable_line e) s (fun _ s' => routed x0 (es ++ [e]) s' /\ q_ismp s' = q_ismp s).
Proof.
  intros (Hm & Hp & Hr) Hi Hc Hl. unfold enable_line. apply runs_bind. eapply runs_conseq; [by apply picenable_runs|].
  intros ? s1 (Hm1 & Hp1 & E1 & X1). unfold routed in *. rewrite fmap_app. destruct (q_ismp s) eqn:Es.
  - destruct Hr as (L & Hr). eapply runs_conseq; [apply (ioapicenable_runs _ es); rewrite ?X1, ?L; try done; lia|].
    intros ? s2 ((M2 & I2 & _ & C2) & L2 & R2). rewrite X1, L in L2, R2. rewrite M2, I2, C2, E1. destruct e. done.
  - unfold ioapicenable. apply runs_bind, runs_gets. rewrite E1. cbn [negb]. apply runs_ret. rewrite E1. naive_solver congruence.
Qed.

Lemma enable_lines_runs x0 es : forall done (s : irqst D), routed x0 done s -> Forall (fun e => 0 <= e.1 < 16 /\ 0 <= e.2 < 256) es -> (q_ismp s = true -> 15 <= lines x0 < 224) ->
  runs (for_each es enable_line) s (fun _ s' => routed x0 (done ++ es) s' /\ q_ismp s' = q_ismp s).
Proof.
  induction es as [|e es IH]; intros dn s Hr Hf Hl.
  - apply runs_ret. by rewrite app_nil_r.
  - apply Forall_cons in Hf as ((Hi & Hc) & Hf). cbn [for_each]. apply runs_bind. eapply runs_conseq; [by apply (enable_line_runs x0 dn)|].
    intros ? s1 (R1 & E1). eapply runs_conseq; [apply (IH (dn ++ [e])); [done|done|by rewrite E1]|]. intros ? s2 (R2 & E2). rewrite <- app_assoc in R2. split; [done|congruence].
Qed.

(** The initialization of the controllers in [main], then the requests of the drivers. *)
Definition irq_boot (es : list (Z * Z)) : K (irqst D) unit := picinit ;;; ioapicinit ;;; for_each es enable_line.

(** C27: After [picinit] and [ioapicinit] and any requests [picenable(irq); ioapicenable(irq, cpu)] of drivers, the 8259A pair delivers a line exactly when it is the cascade or has been requested, and at vector
    [T_IRQ0 + irq]; on a multiprocessor the I/O APIC delivers exactly the lines requested, at the same vector and to the processor of the last request; on a uniprocessor it is not touched.
    It holds whatever state the firmware has left the controllers in. *)
Theorem irq_routing (s : irqst D) (es : list (Z * Z)) : q_mask s = irqmask_start -> Forall (fun e => 0 <= e.1 < 16 /\ 0 <= e.2 < 256) es ->
  (q_ismp s = true -> 15 <= lines (the_ioa (q_dev s)) < 224) ->
  runs (irq_boot es) s (fun _ s' =>
    (forall i, 0 <= i < 16 -> pic_vector (chips (q_dev s')) i = if bool_decide (i = IRQ_SLAVE \/ i ∈ es.*1) then Some (T_IRQ0 + i) else None) /\
    if q_ismp s then forall i, 0 <= i <= lines (the_ioa (q_dev s)) -> ioa_route (the_ioa (q_dev s')) i = (fun c => (T_IRQ0 + i, c)) <$> last_cpu es i
    else the_ioa (q_dev s') = the_ioa (q_dev s)).
Proof.
  intros Hs Hf Hl. assert (Hm0 : mask_ok [] (q_mask s)) by (rewrite Hs; apply mask_start).
  unfold irq_boot. apply runs_bind. eapply runs_conseq; [by apply picinit_runs|]. intros ? s1 (M1 & E1 & _ & X1 & P1). apply runs_bind.
  eapply (runs_conseq _ _ _ (fun _ s2 => routed (the_ioa (q_dev s)) [] s2 /\ q_ismp s2 = q_ismp s)).
  { destruct (q_ismp s) eqn:Es.
    - eapply runs_conseq; [apply ioapicinit_runs; rewrite ?E1, ?X1; [done|lia]|]. intros ? s2 ((M2 & I2 & _ & C2) & L2 & R2). rewrite X1 in *.
      unfold routed. rewrite I2, E1, M2, C2, M1. done.
    - unfold ioapicinit. apply runs_bind, runs_gets. rewrite E1. cbn [negb]. apply runs_ret. unfold routed. rewrite E1, M1. done. }
  intros ? s2 (R2 & E2). eapply runs_conseq; [apply (enable_lines_runs (the_ioa (q_dev s)) es []); [done|done|by rewrite E2]|].
  intros ? s3 ((Hm & Hp & Hr) & E3). split; [intros i Hi; by eapply pic_vector_holds|]. rewrite E3, E2 in Hr. destruct (q_ismp s); [|done].
  destruct Hr as (_ & Hr). intros i Hi. apply Hr. lia.
Qed.
End Routing.

(** ** The local APIC and the start of another processor *)

(** Its registers by offset, and the interprocessor interrupts sent: the words of [ICRHI] and [ICRLO]. *)
Record lapicst := Lst { la_reg : Z -> Z; la_sent : list (Z * Z) }.

Definition la_write (r v : Z) (x : lapicst) : lapicst :=
  Lst (fun i => if i =? r then v else la_reg x i) (if r =? ICRLO then la_sent x ++ [(la_reg x ICRHI, v)] else la_sent x).

(** The local APIC at [base]: [la_polls] is how often [DELIVS] will still be read as set, less than [la_bound]. *)
Class LocalApic (D : Type) (base : Z) `{Ports D} `{Mmio D} := {
  the_la : D -> lapicst;
  la_id : D -> Z;
  la_ver : D -> Z;
  la_polls : D -> nat;
  la_bound : nat;
  la_written : forall r v d, 0 <= r < 0x400 -> the_la (mmio_write (base + r) v d) = la_write r v (the_la d) /\
    la_id (mmio_write (base + r) v d) = la_id d /\ la_ver (mmio_write (base + r) v d) = la_ver d;
  la_read_id : forall d, mmio_read (base + ID) d = (la_id d, d);
  la_read_ver : forall d, mmio_read (base + VER) d = (la_ver d, d);
  la_read_icr : forall d, exists v d', mmio_read (base + ICRLO) d = (v, d') /\ the_la d' = the_la d /\
    la_id d' = la_id d /\ la_ver d' = la_ver d /\ (Z.land v DELIVS = 0 \/ (la_polls d' < la_polls d)%nat);
  la_polls_bound : forall d, (la_polls d < la_bound)%nat
}.

Section Local.
Context {D : Type} {base : Z} `{Ports D} `{Mmio D} `{!LocalApic D base}.

(** The parts the local APIC has no effect on. *)
Definition same_but_la (s s' : irqst D) : Prop := q_mask s' = q_mask s /\ q_ismp s' = q_ismp s /\ q_ioapicid s' = q_ioapicid s /\ q_lapic s' = q_lapic s /\ la_id (q_dev s') = la_id (q_dev s) /\ la_ver (q_dev s') = la_ver (q_dev s).

Lemma lapicw_runs (s : irqst D) r v : q_lapic s = base -> 0 <= r < 0x400 ->
  runs (lapicw r v) s (fun _ s' => same_but_la s s' /\ the_la (q_dev s') = la_write r (u32 v) (the_la (q_dev s))).
Proof.
  intros Hb Hr. unfold lapicw, lapicr. apply runs_bind, runs_gets, runs_bind, runs_mod, runs_bind, runs_bind, runs_gets. unfold runs, q_read. cbn [q_lapic q_dev on_dev]. rewrite Hb, la_read_id.
  cbn. destruct (la_written r (u32 v) (q_dev s) Hr) as (E1 & E2 & E3). unfold same_but_la. cbn. rewrite E1, E2, E3. done.
Qed.

Lemma icr_wait_runs n : forall (s : irqst D), q_lapic s = base -> (la_polls (q_dev s) < n)%nat ->
  runs (icr_wait n) s (fun _ s' => same_but_la s s' /\ the_la (q_dev s') = the_la (q_dev s)).
Proof.
  induction n as [|n IH]; intros s Hb Hn; [lia|]. cbn [icr_wait]. apply runs_bind. unfold lapicr at 1. apply runs_bind, runs_gets. unfold runs at 1, q_read at 1. rewrite Hb.
  destruct (la_read_icr (q_dev s)) as (v & d' & Er & E1 & E2 & E4 & E3). rewrite Er. destruct (Z.land v DELIVS =? 0) eqn:Ez; [apply runs_ret; done|].
  apply Z.eqb_neq in Ez. destruct E3 as [|E3]; [done|]. eapply runs_conseq; [apply IH; cbn; [done|lia]|]. intros ? s' (S1 & L1). unfold same_but_la in *. cbn in *. rewrite L1. naive_solver congruence.
Qed.

(** What [lapicinit] writes to, in this order; [pc] says whether the APIC has the register [PCINT]. *)
Definition la_program (pc : bool) : list (Z * Z) :=
  [(SVR, Z.lor ENABLE (T_IRQ0 + IRQ_SPURIOUS)); (TDCR, X1); (TIMER, Z.lor PERIODIC (T_IRQ0 + IRQ_TIMER)); (TICR, 10000000); (LINT0, MASKED); (LINT1, MASKED)]
  ++ (if pc then [(PCINT, MASKED)] else []) ++
  [(ERROR, T_IRQ0 + IRQ_ERROR); (ESR, 0); (ESR, 0); (EOI, 0); (ICRHI, 0); (ICRLO, Z.lor (Z.lor BCAST INIT) LEVEL); (TPR, 0)].

Definition la_writes (ws : list (Z * Z)) (x : lapicst) : lapicst := foldl (fun x w => la_write w.1 (u32 w.2) x) x ws.

(** The writes [ws] have been made since [s0]. *)
Definition after (s0 : irqst D) (ws : list (Z * Z)) (s : irqst D) : Prop := same_but_la s0 s /\ the_la (q_dev s) = la_writes ws (the_la (q_dev s0)).

Lemma lapicw_after s0 ws s r v : q_lapic s0 = base -> after s0 ws s -> 0 <= r < 0x400 -> runs (lapicw r v) s (fun _ s' => after s0 (ws ++ [(r, v)]) s').
Proof.
  intros Hb (S0 & L0) Hr. eapply runs_conseq; [apply lapicw_runs; unfold same_but_la in *; [naive_solver congruence|done]|]. intros ? s' (S1 & L1).
  split; [unfold same_but_la in *; naive_solver congruence|]. unfold la_writes. rewrite foldl_app. cbn. by rewrite L1, L0.
Qed.

Lemma icr_wait_after s0 ws s : q_lapic s0 = base -> after s0 ws s -> runs (icr_wait la_bound) s (fun _ s' => after s0 ws s').
Proof.
  intros Hb (S0 & L0). eapply runs_conseq; [apply icr_wait_runs; [unfold same_but_la in *; naive_solver congruence|apply la_polls_bound]|].
  intros ? s' (S1 & L1). unfold after, same_but_la in *. rewrite L1. naive_solver congruence.
Qed.

Lemma lapicr_ver_after s0 ws s : q_lapic s0 = base -> after s0 ws s -> runs (lapicr VER) s (fun v s' => v = la_ver (q_dev s0) /\ after s0 ws s').
Proof.
  intros Hb (S0 & L0). unfold lapicr. apply runs_bind, runs_gets. unfold runs, q_read, after, same_but_la in *. destruct S0 as (Q1 & Q2 & Q3 & Q4 & Q5 & Q6).
  rewrite Q4, Hb, la_read_ver. cbn. naive_solver congruence.
Qed.
End Local.

(** One write of the program. *)
Ltac la_step :=
  eapply runs_conseq; [eapply lapicw_after; [eassumption|eassumption|vm_compute; split; congruence]|]; cbn [app]; intros ? ? ?.

Section LocalSpec.
Context {D : Type} {base : Z} `{Ports D} `{Mmio D} `{!LocalApic D base}.

Lemma lapicinit_after (s : irqst D) : q_lapic s = base -> base <> 0 ->
  runs (lapicinit la_bound) s (fun _ s' => after s (la_program (4 <=? Z.land (Z.shiftr (la_ver (q_dev s)) 16) 0xFF)) s').
Proof.
  intros Hb Hz. unfold lapicinit. apply runs_bind, runs_gets. rewrite (proj2 (Z.eqb_neq _ _)) by congruence.
  assert (H0' : after s [] s) by done.
  do 6 (apply runs_bind; la_step). apply runs_bind. eapply runs_conseq; [eapply lapicr_ver_after; eassumption|]. intros v s7 (-> & A7).
  apply runs_bind. unfold la_program. destruct (4 <=? _); [la_step|apply runs_ret]; do 6 (apply runs_bind; la_step); apply runs_bind; (eapply runs_conseq; [eapply icr_wait_after; eassumption|]); cbn beta; intros ? s8 A8; la_step; assumption.
Qed.

(** [lapicinit] ends, whatever the version of the local APIC, and leaves it enabled with the spurious vector of trap.c, the timer periodic at vector [T_IRQ0 + IRQ_TIMER], errors at
    [T_IRQ0 + IRQ_ERROR], both logical lines masked, the performance counter masked where there is one, and every priority accepted; one INIT level de-assert has been broadcast.  Without a
    local APIC it does nothing. *)
Theorem lapicinit_correct (s : irqst D) (x := the_la (q_dev s)) :
  (base <> 0 -> q_lapic s = base -> runs (lapicinit la_bound) s (fun _ s' => let y := the_la (q_dev s') in
    la_reg y SVR = Z.lor ENABLE 63 /\ la_reg y TIMER = Z.lor PERIODIC 32 /\ la_reg y TDCR = X1 /\ la_reg y TICR = 10000000 /\ la_reg y LINT0 = MASKED /\ la_reg y LINT1 = MASKED /\
    la_reg y PCINT = (if 4 <=? Z.land (Z.shiftr (la_ver (q_dev s)) 16) 0xFF then MASKED else la_reg x PCINT) /\ la_reg y ERROR = 51 /\ la_reg y TPR = 0 /\
    la_sent y = la_sent x ++ [(0, Z.lor (Z.lor BCAST INIT) LEVEL)])) /\
  (q_lapic s = 0 -> lapicinit la_bound s = Ok tt s).
Proof.
  split.
  - intros Hz Hb. eapply runs_conseq; [by apply lapicinit_after|]. intros ? s' (_ & L). cbn zeta. rewrite L. fold x. destruct (4 <=? _); repeat split.
  - intros Hz. unfold lapicinit, kbind, kgets. by rewrite Hz.
Qed.

(** [cpunum] gives the identity of the processor's local APIC; with interrupts enabled, the first call prints its caller. *)
Lemma cpunum_runs (s : irqst D) intr ra : q_lapic s = base -> base <> 0 -> runs (cpunum intr ra) s (fun v s' => v = Z.shiftr (la_id (q_dev s)) 24 /\ q_dev s' = q_dev s /\
    q_msgs s' = q_msgs s ++ if intr && (q_n s =? 0) then [CpuCalled ra] else []).
Proof.
  intros Hb Hz. unfold cpunum, lapicr, q_read, runs, kbind, kgets, kmod, kret. destruct intr; cbn [andb].
  - cbn [q_n q_lapic set_q_n q_dev]. destruct (q_n s =? 0); cbn; rewrite Hb, (proj2 (Z.eqb_neq _ _)) by done; cbn; rewrite ?Hb, la_read_id; cbn; rewrite ?app_nil_r; done.
  - rewrite Hb, (proj2 (Z.eqb_neq _ _)) by done. cbn. rewrite ?Hb, la_read_id. cbn. by rewrite app_nil_r.
Qed.

(** What a processor that is started meets: the words of the warm reset vector ([wr]) and the shutdown code of the CMOS memory. *)
Class WarmReset : Type := {
  wr : D -> Z -> Z;
  cmos_sel : D -> Z;
  cmos : D -> Z -> Z;
  wr_written16 : forall a v d, (forall b, b = a \/ 2 <= Z.abs (b - a) -> wr (mmio_write16 a v d) b = if b =? a then v else wr d b) /\
    cmos (mmio_write16 a v d) = cmos d /\ the_la (mmio_write16 a v d) = the_la d;
  wr_written : forall r v d, 0 <= r < 0x400 -> wr (mmio_write (base + r) v d) = wr d /\ cmos (mmio_write (base + r) v d) = cmos d;
  cmos_select : forall v d, cmos_sel (outb IO_RTC v d) = v /\ cmos (outb IO_RTC v d) = cmos d /\ wr (outb IO_RTC v d) = wr d /\ the_la (outb IO_RTC v d) = the_la d;
  cmos_set : forall v d, (forall i, cmos (outb (IO_RTC + 1) v d) i = if i =? cmos_sel d then v else cmos d i) /\
    wr (outb (IO_RTC + 1) v d) = wr d /\ the_la (outb (IO_RTC + 1) v d) = the_la d
}.

Context `{WarmReset}.

Lemma lapicw_outside (s : irqst D) r v : q_lapic s = base -> 0 <= r < 0x400 ->
  runs (lapicw r v) s (fun _ s' => q_lapic s' = base /\ wr (q_dev s') = wr (q_dev s) /\ cmos (q_dev s') = cmos (q_dev s) /\ the_la (q_dev s') = la_write r (u32 v) (the_la (q_dev s))).
Proof.
  intros Hb Hr. unfold lapicw, lapicr. apply runs_bind, runs_gets, runs_bind, runs_mod, runs_bind, runs_bind, runs_gets. unfold runs, q_read. cbn [q_lapic q_dev on_dev]. rewrite Hb, la_read_id.
  cbn. destruct (la_written r (u32 v) (q_dev s) Hr) as (E1 & _). destruct (wr_written r (u32 v) (q_dev s) Hr) as (E2 & E3). by rewrite E1, E2, E3.
Qed.

(** The words that start processor [apicid] at [addr]: INIT, its de-assert, and twice the STARTUP with the page of [addr]. *)
Definition startup_ipis (apicid addr : Z) : list (Z * Z) :=
  let to := u32 (Z.shiftl apicid 24) in
  [(to, Z.lor (Z.lor INIT LEVEL) ASSERT); (to, Z.lor INIT LEVEL); (to, Z.lor STARTUP (addr / 4096)); (to, Z.lor STARTUP (addr / 4096))].

(** [lapicstartap(apicid, addr)], for a page below one megabyte, sends processor [apicid] the INIT, its de-assert and two STARTUP interrupts with the page of [addr], and before that sets the
    shutdown code to 0AH and the warm reset vector to the real-mode address [addr / 16 : 0], which is [addr]. *)
Theorem lapicstartap_correct (s : irqst D) (apicid addr : Z) : q_lapic s = base -> 0 <= apicid < 256 -> 0 <= addr < 2 ^ 20 ->
  runs (lapicstartap apicid addr) s (fun _ s' =>
    la_sent (the_la (q_dev s')) = la_sent (the_la (q_dev s)) ++ startup_ipis apicid addr /\
    cmos (q_dev s') 0xF = 0x0A /\ wr (q_dev s') wrv = 0 /\ wr (q_dev s') (wrv + 2) = addr / 16).
Proof.
  intros Hb Ha Hp. unfold lapicstartap, microdelay. do 4 (apply runs_bind, runs_mod). cbn [for_each seq].
  match goal with |- runs _ ?x _ => set (s1 := x) end.
  assert (F : q_lapic s1 = base /\ the_la (q_dev s1) = the_la (q_dev s) /\ cmos (q_dev s1) 0xF = 0x0A /\ wr (q_dev s1) wrv = 0 /\ wr (q_dev s1) (wrv + 2) = addr / 16).
  { subst s1. cbn [q_lapic q_dev on_dev]. split; [done|]. rewrite (Z.shiftr_div_pow2 addr 4), (Z.mod_small (addr / 2 ^ 4)) by mlia.
    change (u8 0xF) with 0xF. change (u8 0x0A) with 0x0A.
    set (d1 := outb IO_RTC 0xF (q_dev s)). set (d2 := outb (IO_RTC + 1) 0x0A d1). set (d3 := mmio_write16 wrv 0 d2).
    destruct (cmos_select 0xF (q_dev s)) as (A1 & A2 & A3 & A4). destruct (cmos_set 0x0A d1) as (B1 & B2 & B3).
    destruct (wr_written16 wrv 0 d2) as (C1 & C2 & C3). destruct (wr_written16 (wrv + 2) (addr / 2 ^ 4) d3) as (D1 & D2 & D3). fold d1 in A1, A2, A3, A4. fold d2 in B1, B2, B3. fold d3 in C1, C2, C3.
    split; [by rewrite D3, C3, B3, A4|]. split; [by rewrite D2, C2, B1, A1|]. split; [rewrite (D1 wrv) by lia; rewrite (C1 wrv) by lia; done|]. rewrite (D1 (wrv + 2)) by lia. done. }
  clearbody s1. destruct F as (Hb1 & F1 & F2 & F3 & F4).
  repeat match goal with
    | |- runs (kret _) _ _ => apply runs_ret
    | |- runs (kbind _ _) _ _ => apply runs_bind
    | |- runs (lapicw _ _) _ _ => eapply runs_conseq; [apply lapicw_outside; [assumption|vm_compute; split; congruence]|]; cbn beta; intros ? ? (? & ? & ? & ?)
    end.
  split; [|split; [congruence|split; congruence]].
  repeat match goal with Hl : the_la (q_dev ?x) = _ |- context [the_la (q_dev ?x)] => rewrite Hl end.
  cbn [la_write la_sent la_reg Z.eqb ICRHI ICRLO Pos.eqb]. rewrite <- !app_assoc. cbn [app]. unfold startup_ipis.
  assert (Hsu : u32 (Z.lor STARTUP (Z.shiftr addr 12)) = Z.lor STARTUP (addr / 4096)).
  { rewrite Z.shiftr_div_pow2 by lia. apply u32_small. change STARTUP with (Z.shiftl 3 9). rewrite lor_disjoint by mlia. mlia. }
  rewrite Hsu. done.
Qed.
End LocalSpec.

(** ** A machine with these devices *)

Record machine := Machine { mc_chips : chip * chip; mc_ioa : ioa; mc_la : lapicst; mc_busy : bool; mc_wr : Z -> Z; mc_sel : Z; mc_cmos : Z -> Z }.

Definition LAPIC_BASE : Z := 0xFEE00000.

Definition mc_set_la (x : lapicst) (b : bool) (d : machine) : machine := Machine (mc_chips d) (mc_ioa d) x b (mc_wr d) (mc_sel d) (mc_cmos d).

Definition mc_outb (p v : Z) (d : machine) : machine :=
  let d := Machine (pic_out p v (mc_chips d)) (mc_ioa d) (mc_la d) (mc_busy d) (mc_wr d) (mc_sel d) (mc_cmos d) in
  if p =? IO_RTC then Machine (mc_chips d) (mc_ioa d) (mc_la d) (mc_busy d) (mc_wr d) v (mc_cmos d)
  else if p =? IO_RTC + 1 then Machine (mc_chips d) (mc_ioa d) (mc_la d) (mc_busy d) (mc_wr d) (mc_sel d) (fun i => if i =? mc_sel d then v else mc_cmos d i)
  else d.

#[global] Instance mc_ports : Ports machine := {| inb _ d := (0, d); outb := mc_outb; insl _ _ d := ([], d); outsl _ _ d := d |}.

Definition mc_read (a : Z) (d : machine) : Z * machine :=
  if a =? IOAPIC + 16 then (if io_sel (mc_ioa d) =? REG_VER then io_ver (mc_ioa d) else io_id (mc_ioa d), d)
  else if a =? LAPIC_BASE + ID then (0, d)
  else if a =? LAPIC_BASE + VER then (0x50014, d)
  else if a =? LAPIC_BASE + ICRLO then (if mc_busy d then DELIVS else 0, mc_set_la (mc_la d) false d)
  else (0, d).

Definition mc_write (a v : Z) (d : machine) : machine :=
  let d := Machine (mc_chips d) (ioa_write a v (mc_ioa d)) (mc_la d) (mc_busy d) (mc_wr d) (mc_sel d) (mc_cmos d) in
  if (LAPIC_BASE <=? a) && (a <? LAPIC_BASE + 0x400) then mc_set_la (la_write (a - LAPIC_BASE) v (mc_la d)) (mc_busy d || (a =? LAPIC_BASE + ICRLO)) d else d.

Definition mc_write16 (a v : Z) (d : machine) : machine :=
  Machine (mc_chips d) (mc_ioa d) (mc_la d) (mc_busy d) (fun b => if b =? a then v else mc_wr d b) (mc_sel d) (mc_cmos d).

#[global] Instance mc_mmio : Mmio machine := {| mmio_read := mc_read; mmio_write := mc_write; mmio_write16 := mc_write16 |}.

#[global] Instance mc_pic : PicPair machine.
Proof.
  refine {| chips := mc_chips |}; cbn.
  - intros p v d. unfold mc_outb. by repeat case_match.
  - intros a d. unfold mc_read. by repeat case_match.
  - intros a v d. unfold mc_write. by case_match.
Defined.

#[global] Instance mc_ioapic : IoApic machine.
Proof.
  refine {| the_ioa := mc_ioa |}; cbn.
  - intros p v d. unfold mc_outb. by repeat case_match.
  - intros a v d. unfold mc_write. by case_match.
  - intros d E. unfold mc_read. by rewrite E.
  - intros d E. unfold mc_read. by rewrite E.
Defined.

#[global] Instance mc_lapic : LocalApic machine LAPIC_BASE.
Proof.
  refine {| the_la := mc_la; la_id _ := 0; la_ver _ := 0x50014; la_polls d := if mc_busy d then 1%nat else 0%nat; la_bound := 2 |}; cbn.
  - intros r v d Hr. unfold mc_write. rewrite (proj2 (Z.leb_le _ _)), (proj2 (Z.ltb_lt _ _)) by lia. cbn. by replace (LAPIC_BASE + r - LAPIC_BASE) with r by lia.
  - done.
  - done.
  - intros d. eexists _, _. split; [reflexivity|]. split; [done|]. split; [done|]. split; [done|]. cbn. destruct (mc_busy d); [right; lia|by left].
  - intros d. destruct (mc_busy d); lia.
Defined.

#[global] Instance mc_warm : WarmReset (D := machine) (base := LAPIC_BASE).
Proof.
  refine {| wr := mc_wr; cmos_sel := mc_sel; cmos := mc_cmos |}; cbn; try done.
  intros r v d Hr. unfold mc_write. by case_match.
Defined.

(** A machine with 24 lines, its controllers masked and not yet initialized. *)
Definition mc_start : machine :=
  Machine (Chip (Icw3 true) 8 0 false 255, Chip Ready 112 0 false 255) (Ioa 0 0x170011 0 (fun _ => 0)) (Lst (fun _ => 0) []) false (fun _ => 255) 0 (fun _ => 0).

Definition irq_start (ismp : bool) : irqst machine := Irqst irqmask_start ismp 0 LAPIC_BASE 0 mc_start [].

Lemma irq_routing_witness : runs (irq_boot [(IRQ_KBD, 0); (IRQ_COM1, 0); (IRQ_IDE, 1)]) (irq_start true) (fun _ s' => pic_vector (chips (q_dev s')) IRQ_IDE = Some 46 /\ ioa_route (the_ioa (q_dev s')) IRQ_IDE = Some (46, 1) /\
  ioa_route (the_ioa (q_dev s')) IRQ_TIMER = None).
Proof.
  eapply runs_conseq; [apply (irq_routing (irq_start true))|].
  - reflexivity.
  - rewrite !Forall_cons. cbn [fst snd]. unfold IRQ_KBD, IRQ_COM1, IRQ_IDE. split_and!; try lia. constructor.
  - intros _. vm_compute. split; congruence.
  - intros ? s' (P & R). rewrite (P IRQ_IDE) by (unfold IRQ_IDE; lia). cbn [irq_start q_ismp] in R. rewrite !R by (vm_compute; split; congruence). done.
Defined.

Lemma lapicinit_correct_witness : runs (lapicinit 2) (irq_start true) (fun _ s' => la_reg (the_la (q_dev s')) TIMER = 0x20020 /\ la_reg (the_la (q_dev s')) PCINT = MASKED).
Proof.
  destruct (lapicinit_correct (base := LAPIC_BASE) (irq_start true)) as (R & _). eapply runs_conseq; [apply R; done|]. cbn beta zeta. intros ? s' (_ & E1 & _ & _ & _ & _ & E2 & _). split; [exact E1|exact E2].
Defined.

Lemma lapicstartap_correct_witness : runs (lapicstartap 1 0x7000) (irq_start true) (fun _ s' => la_sent (the_la (q_dev s')) = [(0x1000000, 0xC500); (0x1000000, 0x8500); (0x1000000, 0x607); (0x1000000, 0x607)] /\ wr (q_dev s') (wrv + 2) = 0x700).
Proof.
  eapply runs_conseq; [apply (lapicstartap_correct (base := LAPIC_BASE) (irq_start true) 1 0x7000); [done|lia|lia]|]. intros ? s' (E1 & _ & _ & E2). by rewrite E1, E2.
Defined.
