(* ===== verification/Ide.v ===== *)
(** * The IDE driver: ide.c

    The buffers are those of bio.c (Bio.v) with [qnext] beside them; [i_queue] is [idequeue].  The disks and the interrupt
    controllers are behind ports ([q_dev] of [i_irq]).  [iderw] runs up to its return or its [sleep]: a process
    that is woken goes on at [iderw_woken].  [i_woken] is a history variable: the buffers [wakeup] was called for.
    [polls] bounds the reads of the status register in a loop that waits for the disk. *)

From S2P Require Import Prelude Bio Ports Irq.

Definition IDE_BSY : Z := 0x80.
Definition IDE_DRDY : Z := 0x40.
Definition IDE_DF : Z := 0x20.
Definition IDE_ERR : Z := 0x01.

Definition IDE_CMD_READ : Z := 0x20.
Definition IDE_CMD_WRITE : Z := 0x30.

Record ide (D : Type) := Ide {
  i_buf : list buf;
  i_qnext : list (option nat);
  i_queue : option nat;
  i_have1 : bool;
  i_irq : irqst D;
  i_held : list lockid;
  i_woken : list nat
}.
Arguments Ide {D}.
Arguments i_buf {D}.
Arguments i_qnext {D}.
Arguments i_queue {D}.
Arguments i_have1 {D}.
Arguments i_irq {D}.
Arguments i_held {D}.
Arguments i_woken {D}.

Section Ide.
Context {D : Type} `{Ports D} `{Mmio D}.
Variable polls : nat.

Definition set_i_buf (v : list buf) (s : ide D) : ide D := Ide v (i_qnext s) (i_queue s) (i_have1 s) (i_irq s) (i_held s) (i_woken s).
Definition set_i_qnext (v : list (option nat)) (s : ide D) : ide D := Ide (i_buf s) v (i_queue s) (i_have1 s) (i_irq s) (i_held s) (i_woken s).
Definition set_i_queue (v : option nat) (s : ide D) : ide D := Ide (i_buf s) (i_qnext s) v (i_have1 s) (i_irq s) (i_held s) (i_woken s).
Definition set_have1 (s : ide D) : ide D := Ide (i_buf s) (i_qnext s) (i_queue s) true (i_irq s) (i_held s) (i_woken s).
Definition set_i_irq (v : irqst D) (s : ide D) : ide D := Ide (i_buf s) (i_qnext s) (i_queue s) (i_have1 s) v (i_held s) (i_woken s).
Definition set_i_held (v : list lockid) (s : ide D) : ide D := Ide (i_buf s) (i_qnext s) (i_queue s) (i_have1 s) (i_irq s) v (i_woken s).
Definition ide_wakeup (b : nat) (s : ide D) : ide D := Ide (i_buf s) (i_qnext s) (i_queue s) (i_have1 s) (i_irq s) (i_held s) (i_woken s ++ [b]).

#[global] Instance ide_locks : HasLocks (ide D).
Proof. refine {| held := i_held; set_held := set_i_held |}; by intros; destruct s. Defined.

(** The functions of picirq.c and ioapic.c, and the ports. *)
Definition on_irq {A} (m : K (irqst D) A) : K (ide D) A := fun s =>
  match m (i_irq s) with
  | Ok a q => Ok a (set_i_irq q s)
  | Panic e q => Panic e (set_i_irq q s)
  | Block c q => Block c (set_i_irq q s)
  | NoFuel => NoFuel
  end.

Definition i_outb (p v : Z) : K (ide D) unit := on_irq (q_outb p v).
Definition i_inb (p : Z) : K (ide D) Z := on_irq (fun q => let (v, d) := inb p (q_dev q) in Ok v (on_dev (fun _ => d) q)).
Definition i_outsl (p : Z) (l : list Z) : K (ide D) unit := on_irq (kmod (on_dev (outsl p l))).
Definition i_insl (p : Z) (n : nat) : K (ide D) (list Z) := on_irq (fun q => let (l, d) := insl p n (q_dev q) in Ok l (on_dev (fun _ => d) q)).

Definition buf_of (s : ide D) (b : nat) : buf := nth b (i_buf s) null_buf.
Definition ibuf {A} (b : nat) (f : buf -> A) : K (ide D) A := kgets (fun s => f (buf_of s b)).
Definition set_ibuf (b : nat) (f : buf -> buf) : K (ide D) unit := kmod (fun s => set_i_buf (alter f b (i_buf s)) s).
Definition qnext (b : nat) : K (ide D) (option nat) := kgets (fun s => nth b (i_qnext s) None).
Definition set_qnext (b : nat) (v : option nat) : K (ide D) unit := kmod (fun s => set_i_qnext (alter (fun _ => v) b (i_qnext s)) s).

Fixpoint idewait_loop (fuel : nat) : K (ide D) Z :=
  match fuel with
  | O => knofuel
  | S fuel' =>
      let* r := i_inb 0x1f7 in
      if Z.land r (Z.lor IDE_BSY IDE_DRDY) =? IDE_DRDY then kret r else idewait_loop fuel'
  end.

Definition idewait (checkerr : bool) : K (ide D) Z :=
  let* r := idewait_loop polls in
  if checkerr && negb (Z.land r (Z.lor IDE_DF IDE_ERR) =? 0) then kret (-1) else kret 0.

(** [ncpu] is that of mp.c. *)
Definition ideinit (ncpu : Z) : K (ide D) unit :=
  on_irq (picenable IRQ_IDE) ;;;
  on_irq (ioapicenable IRQ_IDE (ncpu - 1)) ;;;
  idewait false ;;;
  i_outb 0x1f6 (Z.lor 0xe0 (Z.shiftl 1 4)) ;;;
  for_first (seq 0 1000) (fun _ =>
    let* r := i_inb 0x1f7 in
    if negb (r =? 0) then kmod set_have1 ;;; kret (Some tt) else kret None) ;;;
  i_outb 0x1f6 (Z.lor 0xe0 (Z.shiftl 0 4)).

Definition idestart (b : option nat) : K (ide D) unit :=
  match b with
  | None => kpanic "idestart"
  | Some b =>
      idewait false ;;;
      i_outb 0x3f6 0 ;;;
      i_outb 0x1f2 1 ;;;
      let* x := ibuf b (fun x => x) in
      i_outb 0x1f3 (Z.land (sector x) 0xff) ;;;
      i_outb 0x1f4 (Z.land (Z.shiftr (sector x) 8) 0xff) ;;;
      i_outb 0x1f5 (Z.land (Z.shiftr (sector x) 16) 0xff) ;;;
      i_outb 0x1f6 (Z.lor (Z.lor 0xe0 (Z.shiftl (Z.land (dev x) 1) 4)) (Z.land (Z.shiftr (sector x) 24) 0x0f)) ;;;
      if has (flags x) B_DIRTY then
        i_outb 0x1f7 IDE_CMD_WRITE ;;;
        i_outsl 0x1f0 (data x)
      else i_outb 0x1f7 IDE_CMD_READ
  end.

Definition ideintr : K (ide D) unit :=
  acquire lk_ide ;;;
  let* q := kgets i_queue in
  match q with
  | None => release lk_ide
  | Some b =>
      let* n := qnext b in
      kmod (set_i_queue n) ;;;
      let* f := ibuf b flags in
      (when negb (has f B_DIRTY) do
        (let* r := idewait true in
         when 0 <=? r do
           (let* l := i_insl 0x1f0 128 in
            set_ibuf b (set_data l)))) ;;;
      set_ibuf b (fun x => set_flags (Z.lor (flags x) B_VALID) x) ;;;
      set_ibuf b (fun x => set_flags (Z.land (flags x) (Z.lnot B_DIRTY)) x) ;;;
      kmod (ide_wakeup b) ;;;
      let* q := kgets i_queue in
      (match q with
       | None => kret tt
       | Some _ => idestart q
       end) ;;;
      release lk_ide
  end.

(** The last link of the queue, from buffer [b] on. *)
Fixpoint queue_end (b : nat) (fuel : nat) : K (ide D) nat :=
  match fuel with
  | O => knofuel
  | S fuel' =>
      let* n := qnext b in
      match n with
      | None => kret b
      | Some b' => queue_end b' fuel'
      end
  end.

(** The loop at the end of [iderw], with [idelock] held: one test of its condition, then the return or the [sleep]. *)
Definition iderw_wait (b : nat) : K (ide D) unit :=
  let* f := ibuf b flags in
  if Z.land f (Z.lor B_VALID B_DIRTY) =? B_VALID then release lk_ide
  else release lk_ide ;;; kblock (ch_buf b).

Definition iderw_woken (b : nat) : K (ide D) unit := acquire lk_ide ;;; iderw_wait b.

Definition iderw (b : nat) : K (ide D) unit :=
  let* x := ibuf b (fun x => x) in
  let* have1 := kgets i_have1 in
  if negb (has (flags x) B_BUSY) then kpanic "iderw: buf not busy"
  else if Z.land (flags x) (Z.lor B_VALID B_DIRTY) =? B_VALID then kpanic "iderw: nothing to do"
  else if negb (dev x =? 0) && negb have1 then kpanic "iderw: ide disk 1 not present"
  else
    acquire lk_ide ;;;
    set_qnext b None ;;;
    let* q := kgets i_queue in
    let* n := kgets (fun s => length (i_buf s)) in
    (match q with
     | None => kmod (set_i_queue (Some b))
     | Some h => let* e := queue_end h n in set_qnext e (Some b)
     end) ;;;
    let* q := kgets i_queue in
    (when bool_decide (q = Some b) do idestart (Some b)) ;;;
    iderw_wait b.
End Ide.
