(* ===== verification/IdeSpec.v ===== *)
(** * The IDE driver serves requests in order

    The disks are known by the laws of [IdeDisk].  [ide_step] is what the system can do with the driver, event by event;
    it refines [spec_step], where a request is one entry of a list and an interrupt serves the first entry at
    once, and there a request that is served has the effect of [iderw] of memide.c (Bio.v). *)

From S2P Require Import Prelude Bio Ports Irq Ide.

(** ** The disks *)

(** The command in progress: a transfer of sector [n] of drive [k] to or from the data port, or one that has failed. *)
Inductive icmd := CIdle | CRead (k n : Z) | CWrite (k n : Z) | CFail.

#[global] Instance icmd_eq_dec : EqDecision icmd.
Proof. solve_decision. Defined.

(** Registers, whether interrupts are enabled, the command, the contents, the sectors that cannot be used and whether there is a drive 1. *)
Record idev := Idev {
  v_count : Z; v_lba0 : Z; v_lba1 : Z; v_lba2 : Z; v_drive : Z; v_ien : bool; v_cmd : icmd;
  v_disk : Z -> Z -> list Z; v_bad : Z -> Z -> bool; v_disk1 : bool
}.

Definition set_cmd (c : icmd) (x : idev) : idev := Idev (v_count x) (v_lba0 x) (v_lba1 x) (v_lba2 x) (v_drive x) (v_ien x) c (v_disk x) (v_bad x) (v_disk1 x).

Definition drive_of (x : idev) : Z := if Z.testbit (v_drive x) 4 then 1 else 0.
Definition lba_of (x : idev) : Z := v_lba0 x + 256 * v_lba1 x + 65536 * v_lba2 x + 16777216 * Z.land (v_drive x) 15.
Definition present (x : idev) : bool := (drive_of x =? 0) || v_disk1 x.

Definition set_sector (disk : Z -> Z -> list Z) (k n : Z) (v : list Z) : Z -> Z -> list Z := fun k' n' => if (k' =? k) && (n' =? n) then v else disk k' n'.

(** A write to a port. *)
Definition ide_out (p v : Z) (x : idev) : idev :=
  let '(Idev c l0 l1 l2 dr ien cmd disk bad one) := x in
  if p =? 0x1f2 then Idev v l0 l1 l2 dr ien cmd disk bad one
  else if p =? 0x1f3 then Idev c v l1 l2 dr ien cmd disk bad one
  else if p =? 0x1f4 then Idev c l0 v l2 dr ien cmd disk bad one
  else if p =? 0x1f5 then Idev c l0 l1 v dr ien cmd disk bad one
  else if p =? 0x1f6 then Idev c l0 l1 l2 v ien cmd disk bad one
  else if p =? 0x3f6 then Idev c l0 l1 l2 dr (negb (Z.testbit v 1)) cmd disk bad one
  else if p =? 0x1f7 then
    let k := drive_of x in
    let n := lba_of x in
    if v =? IDE_CMD_READ then set_cmd (if bad k n then CFail else CRead k n) x
    else if v =? IDE_CMD_WRITE then set_cmd (CWrite k n) x
    else x
  else x.

(** A sector sent to the data port. *)
Definition ide_outsl (l : list Z) (x : idev) : idev :=
  match v_cmd x with
  | CWrite k n =>
      if v_bad x k n then set_cmd CFail x
      else Idev (v_count x) (v_lba0 x) (v_lba1 x) (v_lba2 x) (v_drive x) (v_ien x) CIdle (set_sector (v_disk x) k n l) (v_bad x) (v_disk1 x)
  | _ => x
  end.

(** [ide_polls] is how often the status can still be read as not ready; it is less than [ide_bound].  A read of the
    status of a drive that is there is not 0. *)
Class IdeDisk (D : Type) `{Ports D} `{Mmio D} := {
  the_ide : D -> idev;
  ide_polls : D -> nat;
  ide_bound : nat;
  ide_polls_bound : forall d, (ide_polls d < ide_bound)%nat;
  ide_outb : forall p v d, the_ide (outb p v d) = ide_out p v (the_ide d);
  ide_data_out : forall l d, Z.testbit (v_drive (the_ide d)) 6 = true -> v_count (the_ide d) = 1 -> length l = 512%nat -> the_ide (outsl 0x1f0 l d) = ide_outsl l (the_ide d);
  ide_data_in : forall d k n, v_cmd (the_ide d) = CRead k n -> exists d', insl 0x1f0 128 d = (v_disk (the_ide d) k n, d') /\ the_ide d' = set_cmd CIdle (the_ide d);
  ide_status : forall d, exists r d', inb 0x1f7 d = (r, d') /\ the_ide d' = the_ide d /\
    if present (the_ide d) then r <> 0 /\ ((Z.land r (Z.lor IDE_BSY IDE_DRDY) = IDE_DRDY /\ (Z.land r (Z.lor IDE_DF IDE_ERR) = 0 <-> v_cmd (the_ide d) <> CFail)) \/
        (Z.land r (Z.lor IDE_BSY IDE_DRDY) <> IDE_DRDY /\ (ide_polls d' < ide_polls d)%nat))
    else r = 0;
  ide_mmio : forall a v d, the_ide (mmio_write a v d) = the_ide d
}.

(** ** The specification *)

(** What the buffers need: the contents of the disks, and the requests that wait. *)
Record ispec := Ispec { p_buf : list buf; p_disk : Z -> Z -> list Z; p_queue : list nat; p_woken : list nat }.

Definition done_flags (f : Z) : Z := Z.land (Z.lor f B_VALID) (Z.lnot B_DIRTY).
Definition is_done (f : Z) : bool := Z.land f (Z.lor B_VALID B_DIRTY) =? B_VALID.
Definition drive (x : buf) : Z := Z.land (dev x) 1.

(** A request is served; nothing is transferred for a sector that cannot be used. *)
Definition served_buf (bad : Z -> Z -> bool) (disk : Z -> Z -> list Z) (x : buf) : buf :=
  set_flags (done_flags (flags x)) (if has (flags x) B_DIRTY || bad (drive x) (sector x) then x else set_data (disk (drive x) (sector x)) x).
Definition served_disk (bad : Z -> Z -> bool) (disk : Z -> Z -> list Z) (x : buf) : Z -> Z -> list Z :=
  if has (flags x) B_DIRTY && negb (bad (drive x) (sector x)) then set_sector disk (drive x) (sector x) (data x) else disk.

Definition spec_intr (bad : Z -> Z -> bool) (p : ispec) : ispec :=
  match p_queue p with
  | [] => p
  | b :: q =>
      let x := nth b (p_buf p) null_buf in
      Ispec (alter (served_buf bad (p_disk p)) b (p_buf p)) (served_disk bad (p_disk p) x) q (p_woken p ++ [b])
  end.

(** The events: a call of [iderw], a process woken up in it, an interrupt, and the owner of a buffer that is not queued changing it. *)
Inductive event := ECall (b : nat) | EWoken (b : nat) | EIntr | EOwn (b : nat) (x : buf).

(** What is seen of an event: that it returns, sleeps on a buffer, or panics. *)
Inductive seen := SRet | SSleep (b : nat) | SPanic (e : string).

Definition spec_call (have1 : bool) (b : nat) (p : ispec) : seen * ispec :=
  let x := nth b (p_buf p) null_buf in
  if negb (has (flags x) B_BUSY) then (SPanic "iderw: buf not busy", p)
  else if is_done (flags x) then (SPanic "iderw: nothing to do", p)
  else if negb (dev x =? 0) && negb have1 then (SPanic "iderw: ide disk 1 not present", p)
  else (SSleep b, Ispec (p_buf p) (p_disk p) (p_queue p ++ [b]) (p_woken p)).

Definition spec_step (have1 : bool) (bad : Z -> Z -> bool) (e : event) (p : ispec) : seen * ispec :=
  match e with
  | ECall b => spec_call have1 b p
  | EWoken b => (if is_done (flags (nth b (p_buf p) null_buf)) then SRet else SSleep b, p)
  | EIntr => (SRet, spec_intr bad p)
  | EOwn b x => (SRet, Ispec (<[b := x]> (p_buf p)) (p_disk p) (p_queue p) (p_woken p))
  end.

(** A run, up to the first panic. *)
Fixpoint spec_run (have1 : bool) (bad : Z -> Z -> bool) (es : list event) (p : ispec) : list seen * ispec :=
  match es with
  | [] => ([], p)
  | e :: es' =>
      let (o, p') := spec_step have1 bad e p in
      match o with
      | SPanic _ => ([o], p')
      | _ => let (os, p'') := spec_run have1 bad es' p' in (o :: os, p'')
      end
  end.

(** What the callers promise: a buffer of the cache, of a sector the driver can name, that is not queued already. *)
Definition buf_fits (x : buf) : bool := (0 <=? dev x) && (0 <=? sector x) && (sector x <? 2 ^ 28) && bool_decide (length (data x) = 512%nat).
Definition event_ok (e : event) (p : ispec) : bool :=
  match e with
  | ECall b | EWoken b => bool_decide (b < length (p_buf p))%nat && (match e with ECall _ => bool_decide (b ∉ p_queue p) | _ => true end)
  | EIntr => true
  | EOwn b x => bool_decide (b < length (p_buf p))%nat && bool_decide (b ∉ p_queue p) && buf_fits x
  end.

Fixpoint events_ok (have1 : bool) (bad : Z -> Z -> bool) (es : list event) (p : ispec) : bool :=
  match es with
  | [] => true
  | e :: es' => event_ok e p && match spec_step have1 bad e p with (SPanic _, _) => true | (_, p') => events_ok have1 bad es' p' end
  end.

(** ** The driver under the same events *)

Section Run.
Context {D : Type} `{Ports D} `{Mmio D}.
Variable polls : nat.

Definition ide_op (e : event) : K (ide D) unit :=
  match e with
  | ECall b => iderw polls b
  | EWoken b => iderw_woken b
  | EIntr => ideintr polls
  | EOwn b x => kmod (fun s => set_i_buf (<[b := x]> (i_buf s)) s)
  end.

(** The result, or nothing if the driver waits for the disk longer than [polls]. *)
Definition ide_step (e : event) (s : ide D) : option (seen * ide D) :=
  match ide_op e s with
  | Ok _ s' => Some (SRet, s')
  | Block (ch_buf b) s' => Some (SSleep b, s')
  | Panic m s' => Some (SPanic m, s')
  | _ => None
  end.

Fixpoint ide_run (es : list event) (s : ide D) : option (list seen * ide D) :=
  match es with
  | [] => Some ([], s)
  | e :: es' =>
      match ide_step e s with
      | Some (SPanic m, s') => Some ([SPanic m], s')
      | Some (o, s') => match ide_run es' s' with Some (os, s'') => Some (o :: os, s'') | None => None end
      | None => None
      end
  end.
End Run.

(** ** The steps of the driver on the device *)

Lemma drive_range x : drive x = 0 \/ drive x = 1.
Proof. unfold drive. pose proof (Z.land_ones (dev x) 1 ltac:(lia)) as E. change (Z.ones 1) with 1 in E. rewrite E. mlia. Qed.

(** The drive register: LBA mode, the drive and the upper bits of the sector. *)
Lemma drive_reg k m : k = 0 \/ k = 1 -> 0 <= m < 16 -> let v := u8 (Z.lor (Z.lor 0xe0 (Z.shiftl k 4)) (Z.land m 0x0f)) in
  (if Z.testbit v 4 then 1 else 0) = k /\ Z.land v 15 = m /\ Z.testbit v 6 = true.
Proof.
  intros Hk Hm. cbn zeta. assert (Hin : m ∈ seqZ 0 16) by (apply elem_of_seqZ; lia). clear Hm. revert m Hin. rewrite <- Forall_forall. destruct Hk as [-> | ->]; repeat constructor.
Qed.

Lemma land_ff v : Z.land v 0xff = v mod 256.
Proof. by change 0xff with (Z.ones 8); rewrite Z.land_ones by lia. Qed.

Lemma land_0f v : Z.land v 0x0f = v mod 16.
Proof. by change 0x0f with (Z.ones 4); rewrite Z.land_ones by lia. Qed.

Section Steps.
Context {D : Type} `{Ports D} `{Mmio D} `{!IdeDisk D}.

Definition dev_of (s : ide D) : idev := the_ide (q_dev (i_irq s)).

(** Only the device changes. *)
Definition same_driver (s s' : ide D) : Prop :=
  i_buf s' = i_buf s /\ i_qnext s' = i_qnext s /\ i_queue s' = i_queue s /\ i_have1 s' = i_have1 s /\ i_held s' = i_held s /\ i_woken s' = i_woken s.

Lemma same_driver_trans s1 s2 s3 : same_driver s1 s2 -> same_driver s2 s3 -> same_driver s1 s3.
Proof. unfold same_driver. naive_solver congruence. Qed.

Lemma i_outb_runs s p v : runs (i_outb p v) s (fun _ s' => same_driver s s' /\ dev_of s' = ide_out p (u8 v) (dev_of s)).
Proof. unfold runs, i_outb, on_irq, q_outb, kmod, dev_of. cbn. by rewrite ide_outb. Qed.

Lemma idewait_loop_runs n : forall s, present (dev_of s) = true -> (ide_polls (q_dev (i_irq s)) < n)%nat ->
  runs (idewait_loop n) s (fun r s' => same_driver s s' /\ dev_of s' = dev_of s /\ (Z.land r (Z.lor IDE_DF IDE_ERR) = 0 <-> v_cmd (dev_of s) <> CFail)).
Proof.
  induction n as [|n IH]; intros s Hp Hn; [lia|]. cbn [idewait_loop]. apply runs_bind. unfold runs at 1, i_inb, on_irq.
  destruct (ide_status (q_dev (i_irq s))) as (r & d' & Ei & Ed & Hr). rewrite Ei. fold (dev_of s) in Hr. rewrite Hp in Hr. destruct Hr as (_ & [(Hr & He)|(Hr & Hl)]).
  - rewrite Hr, Z.eqb_refl. apply runs_ret. done.
  - rewrite (proj2 (Z.eqb_neq _ _)) by done. eapply runs_conseq; [apply IH; unfold dev_of; cbn; [by rewrite Ed|lia]|].
    unfold dev_of. cbn. rewrite Ed. done.
Qed.

Lemma idewait_runs s check : present (dev_of s) = true ->
  runs (idewait ide_bound check) s (fun r s' => same_driver s s' /\ dev_of s' = dev_of s /\ (0 <=? r) = negb (check && bool_decide (v_cmd (dev_of s) = CFail))).
Proof.
  intros Hp. unfold idewait. apply runs_bind. eapply runs_conseq; [apply idewait_loop_runs; [done|apply ide_polls_bound]|].
  intros r s' (Hs & Hd & He). destruct check; cbn [andb]; [|by apply runs_ret].
  destruct (Z.land r (Z.lor IDE_DF IDE_ERR) =? 0) eqn:E; [apply Z.eqb_eq in E|apply Z.eqb_neq in E]; apply runs_ret; split; try done; split; try done.
  - rewrite bool_decide_false by (by apply He). done.
  - rewrite bool_decide_true; [done|]. destruct (v_cmd (dev_of s)); try done; exfalso; apply E, He; done.
Qed.

(** The command that [idestart] gives for a buffer. *)
Definition started (bad : Z -> Z -> bool) (x : buf) : icmd :=
  if bad (drive x) (sector x) then CFail else if has (flags x) B_DIRTY then CIdle else CRead (drive x) (sector x).

Definition drive_there (one : bool) (x : buf) : Prop := dev x = 0 \/ one = true.

(** The registers name the sector of the buffer. *)
Lemma regs_named x v : buf_fits x = true ->
  let w := Idev 1 (u8 (Z.land (sector x) 0xff)) (u8 (Z.land (Z.shiftr (sector x) 8) 0xff)) (u8 (Z.land (Z.shiftr (sector x) 16) 0xff))
      (u8 (Z.lor (Z.lor 0xe0 (Z.shiftl (Z.land (dev x) 1) 4)) (Z.land (Z.shiftr (sector x) 24) 0x0f))) true (v_cmd v) (v_disk v) (v_bad v) (v_disk1 v) in
  drive_of w = drive x /\ lba_of w = sector x /\ Z.testbit (v_drive w) 6 = true /\ (drive_there (v_disk1 v) x -> present w = true).
Proof.
  intros Hf w. unfold buf_fits in Hf. rewrite !andb_true_iff, !Z.leb_le, Z.ltb_lt, bool_decide_eq_true in Hf. destruct Hf as (((Hd & Hs) & Hs') & _).
  destruct (drive_reg (Z.land (dev x) 1) (Z.shiftr (sector x) 24)) as (E1 & E2 & E3); [apply drive_range|rewrite Z.shiftr_div_pow2 by lia; mlia|].
  assert (Ed : drive_of w = drive x) by exact E1. split; [done|]. split; [|split; [exact E3|]].
  - unfold lba_of, w. cbn [v_lba0 v_lba1 v_lba2 v_drive]. rewrite E2, !land_ff, !Z.shiftr_div_pow2 by lia. unfold u8. mlia.
  - intros Ht. unfold present. rewrite Ed. destruct Ht as [Ht|Ht]; [|by cbn; rewrite Ht, orb_true_r]. unfold drive. by rewrite Ht.
Qed.

Lemma i_outsl_runs s l : Z.testbit (v_drive (dev_of s)) 6 = true -> v_count (dev_of s) = 1 -> length l = 512%nat ->
  runs (i_outsl 0x1f0 l) s (fun _ s' => same_driver s s' /\ dev_of s' = ide_outsl l (dev_of s)).
Proof. intros H1 H2 H3. unfold runs, i_outsl, on_irq, kmod, dev_of in *. cbn [q_dev i_irq set_i_irq on_dev]. by rewrite ide_data_out. Qed.

(** A command given to a drive whose registers name the sector. *)
Lemma ide_out_cmd w v : ide_out 0x1f7 v w = if v =? IDE_CMD_READ then set_cmd (if v_bad w (drive_of w) (lba_of w) then CFail else CRead (drive_of w) (lba_of w)) w
  else if v =? IDE_CMD_WRITE then set_cmd (CWrite (drive_of w) (lba_of w)) w else w.
Proof. by destruct w. Qed.

Lemma idestart_runs s b (x := buf_of s b) (v := dev_of s) : present v = true -> buf_fits x = true -> drive_there (v_disk1 v) x ->
  runs (idestart ide_bound (Some b)) s (fun _ s' => same_driver s s' /\ let w := dev_of s' in
    present w = true /\ v_ien w = true /\ v_bad w = v_bad v /\ v_disk1 w = v_disk1 v /\ v_cmd w = started (v_bad v) x /\ v_disk w = served_disk (v_bad v) (v_disk v) x).
Proof.
  intros Hp Hf Ht. unfold idestart. apply runs_bind. eapply runs_conseq; [by apply idewait_runs|]. intros r s1 (S1 & D1 & _).
  apply runs_bind. eapply runs_conseq; [apply i_outb_runs|]. intros ? s2 (S2 & D2). apply runs_bind. eapply runs_conseq; [apply i_outb_runs|]. intros ? s3 (S3 & D3).
  apply runs_bind, runs_gets. assert (Ex : buf_of s3 b = x) by (unfold x, buf_of, same_driver in *; f_equal; naive_solver congruence). rewrite Ex.
  apply runs_bind. eapply runs_conseq; [apply i_outb_runs|]. intros ? s4 (S4 & D4). apply runs_bind. eapply runs_conseq; [apply i_outb_runs|]. intros ? s5 (S5 & D5).
  apply runs_bind. eapply runs_conseq; [apply i_outb_runs|]. intros ? s6 (S6 & D6). apply runs_bind. eapply runs_conseq; [apply i_outb_runs|]. intros ? s7 (S7 & D7).
  assert (S07 : same_driver s s7) by (unfold same_driver in *; naive_solver congruence). clear S1 S2 S3 S4 S5 S6 S7.
  rewrite D6, D5, D4, D3, D2, D1 in D7. fold v in D7. destruct (regs_named x v Hf) as (R1 & R2 & R3 & R4). specialize (R4 Ht).
  set (w := Idev 1 _ _ _ _ true _ _ _ _) in R1, R2, R3, R4. assert (Dw : dev_of s7 = w) by (rewrite D7; by destruct v). clear D1 D2 D3 D4 D5 D6 D7.
  assert (W : v_ien w = true /\ v_bad w = v_bad v /\ v_disk1 w = v_disk1 v /\ v_disk w = v_disk v) by done. destruct W as (W1 & W2 & W3 & W4).
  unfold started, served_disk. destruct (has (flags x) B_DIRTY).
  - apply runs_bind. eapply runs_conseq; [apply i_outb_runs|]. intros ? s8 (S8 & D8). change (u8 IDE_CMD_WRITE) with IDE_CMD_WRITE in D8. rewrite Dw, ide_out_cmd, R1, R2 in D8.
    cbn [Z.eqb Pos.eqb IDE_CMD_WRITE IDE_CMD_READ] in D8. eapply runs_conseq; [apply i_outsl_runs; [rewrite D8; exact R3|by rewrite D8|]|].
    { unfold buf_fits in Hf. rewrite !andb_true_iff, bool_decide_eq_true in Hf. tauto. }
    intros ? s9 (S9 & D9). rewrite D8 in D9. unfold ide_outsl in D9. cbn [v_cmd set_cmd v_bad] in D9. rewrite W2 in D9. cbn zeta.
    split; [by eapply same_driver_trans; [|eapply same_driver_trans]|]. rewrite D9. cbn [andb]. by destruct (v_bad v (drive x) (sector x)).
  - eapply runs_conseq; [apply i_outb_runs|]. intros ? s8 (S8 & D8). change (u8 IDE_CMD_READ) with IDE_CMD_READ in D8. rewrite Dw, ide_out_cmd, R1, R2, W2, Z.eqb_refl in D8. cbn zeta.
    split; [by eapply same_driver_trans|]. rewrite D8. done.
Qed.
End Steps.

(** ** The queue *)

(** The buffers [q] are linked from [o] on. *)
Fixpoint linked (nx : list (option nat)) (o : option nat) (q : list nat) : Prop :=
  match q with
  | [] => o = None
  | b :: q' => o = Some b /\ linked nx (nth b nx None) q'
  end.

Lemma nth_alter_ne {A} (l : list A) f i j d : i <> j -> nth j (alter f i l) d = nth j l d.
Proof. intros Hne. rewrite !nth_lookup. by rewrite list_lookup_alter_ne. Qed.

Lemma nth_alter_eq {A} (l : list A) f i d : (i < length l)%nat -> nth i (alter f i l) d = f (nth i l d).
Proof. intros Hl. rewrite !nth_lookup, list_lookup_alter_eq. destruct (lookup_lt_is_Some_2 l i Hl) as (x & ->). done. Qed.

Lemma linked_alter nx f b q : b ∉ q -> forall o, linked nx o q -> linked (alter f b nx) o q.
Proof.
  induction q as [|c q IH]; intros Hb o; [done|]. apply not_elem_of_cons in Hb as (Hne & Hb). intros (-> & Hl). split; [done|]. rewrite nth_alter_ne by done. by apply IH.
Qed.

Lemma linked_snoc nx b : (b < length nx)%nat -> nth b nx None = None -> forall q h e, linked nx (Some h) q -> NoDup q -> b ∉ q -> last q = Some e -> Forall (fun c => (c < length nx)%nat) q ->
  linked (alter (fun _ => Some b) e nx) (Some h) (q ++ [b]).
Proof.
  intros Hb Hn. induction q as [|c q IH]; intros h e Hl Hnd Hnb He Hf; [done|]. destruct Hl as ([= ->] & Hl). apply NoDup_cons in Hnd as (Hc & Hnd). apply not_elem_of_cons in Hnb as (Hne & Hnb). apply Forall_cons in Hf as (Hcl & Hf).
  cbn [app linked]. split; [done|]. destruct q as [|c' q].
  - cbn in He. injection He as <-. rewrite nth_alter_eq by done. split; [done|]. cbn. by rewrite nth_alter_ne.
  - assert (Hlast : last (c' :: q) = Some e) by done. assert (Hce : c <> e) by (intros ->; apply Hc; by apply last_Some_elem_of). rewrite nth_alter_ne by done.
    pose proof Hl as (E & _). rewrite E in *. by apply IH.
Qed.

Section Queue.
Context {D : Type} `{Ports D} `{Mmio D}.

Lemma queue_end_runs n : forall (s : ide D) q h, linked (i_qnext s) (Some h) q -> (length q <= n)%nat -> runs (queue_end h n) s (fun e s' => s' = s /\ last q = Some e).
Proof.
  induction n as [|n IH]; intros s [|c q] h Hl Hn; try done; [cbn in Hn; lia|]. destruct Hl as ([= ->] & Hl). cbn [queue_end]. apply runs_bind, runs_gets.
  destruct q as [|c' q]; [rewrite Hl; by apply runs_ret|]. pose proof Hl as (E & _). rewrite E in *. eapply runs_conseq; [apply (IH s (c' :: q)); [done|cbn in *; lia]|]. done.
Qed.

Lemma runs_then {S A B} (m : K S A) (f : A -> K S B) s R (Q : outcome S B -> Prop) : runs m s R -> (forall a s', R a s' -> Q (f a s')) -> Q (kbind m f s).
Proof. unfold runs, kbind. destruct (m s); naive_solver. Qed.
End Queue.

(** ** The driver and the specification *)

Section Refine.
Context {D : Type} `{Ports D} `{Mmio D} `{!IdeDisk D}.
Variables (one : bool) (bad : Z -> Z -> bool).

(** A request in the queue still has something to do, on a drive that is there. *)
Definition waits (one1 : bool) (bs : list buf) (b : nat) : Prop :=
  (b < length bs)%nat /\ is_done (flags (nth b bs null_buf)) = false /\ drive_there one1 (nth b bs null_buf).

(** The first request has been given to the disk, so that a write is there already. *)
Definition in_progress (w : idev) (p : ispec) : Prop :=
  match p_queue p with
  | [] => v_disk w = p_disk p
  | b :: _ => let x := nth b (p_buf p) null_buf in v_ien w = true /\ v_cmd w = started bad x /\ v_disk w = served_disk bad (p_disk p) x
  end.

Record related (s : ide D) (p : ispec) : Prop := Related {
  r_buf : i_buf s = p_buf p;
  r_fits : Forall (fun x => buf_fits x = true) (p_buf p);
  r_qlen : length (i_qnext s) = length (i_buf s);
  r_link : linked (i_qnext s) (i_queue s) (p_queue p);
  r_nodup : NoDup (p_queue p);
  r_wait : Forall (waits (i_have1 s) (p_buf p)) (p_queue p);
  r_free : lk_ide ∉ i_held s;
  r_woken : i_woken s = p_woken p;
  r_sectors : forall k n, length (p_disk p k n) = 512%nat;
  r_one : i_have1 s = one;
  r_have : v_disk1 (dev_of s) = i_have1 s;
  r_bad : v_bad (dev_of s) = bad;
  r_present : present (dev_of s) = true;
  r_progress : in_progress (dev_of s) p
}.

Lemma fits_nth bs b : Forall (fun x => buf_fits x = true) bs -> (b < length bs)%nat -> buf_fits (nth b bs null_buf) = true.
Proof. intros Hf Hb. rewrite nth_lookup. destruct (lookup_lt_is_Some_2 bs b Hb) as (x & E). rewrite E. cbn. by eapply Forall_lookup_1 in Hf. Qed.

(** What is seen of a run, and where it ends. *)
Definition shows (r : outcome (ide D) unit) (o : seen) (R : ide D -> Prop) : Prop :=
  match r with
  | Ok _ s' => o = SRet /\ R s'
  | Block c s' => (exists b, c = ch_buf b /\ o = SSleep b) /\ R s'
  | Panic m s' => o = SPanic m /\ R s'
  | NoFuel => False
  end.

Lemma shows_step e s o R : shows (ide_op ide_bound e s) o R -> exists s', ide_step ide_bound e s = Some (o, s') /\ R s'.
Proof. unfold ide_step, shows. destruct (ide_op _ e s); naive_solver. Qed.

Lemma acquire_locked (s : ide D) : lk_ide ∉ i_held s -> runs (acquire lk_ide) s (fun _ s' => s' = set_i_held (lk_ide :: i_held s) s).
Proof. intros Hn. by eapply runs_eq; [apply acquire_ok|]. Qed.

Lemma release_unlocked (s : ide D) h : i_held s = lk_ide :: h -> lk_ide ∉ h -> release lk_ide s = Ok tt (set_i_held h s).
Proof. intros Hh Hn. rewrite release_ok by (cbn; rewrite Hh; left). change (held s) with (i_held s). by rewrite Hh, remove_lock_cons. Qed.

Lemma iderw_wait_shows (s : ide D) b h (R : ide D -> Prop) : i_held s = lk_ide :: h -> lk_ide ∉ h -> R (set_i_held h s) ->
  shows (iderw_wait b s) (if is_done (flags (buf_of s b)) then SRet else SSleep b) R.
Proof.
  intros Hh Hn HR. unfold iderw_wait, is_done. unfold kbind at 1, ibuf, kgets. destruct (_ =? B_VALID); [by rewrite (release_unlocked s h)|].
  unfold kbind. rewrite (release_unlocked s h) by done. cbn. naive_solver.
Qed.

(** Taking and giving up the lock changes nothing else. *)
Lemma related_unlock s s' p : related s p -> i_buf s' = i_buf s -> i_qnext s' = i_qnext s -> i_queue s' = i_queue s -> i_have1 s' = i_have1 s -> i_woken s' = i_woken s -> lk_ide ∉ i_held s' -> i_irq s' = i_irq s -> related s' p.
Proof. intros [] E1 E2 E3 E4 E5 E6 E7. constructor; unfold dev_of in *; rewrite ?E1, ?E2, ?E3, ?E4, ?E5, ?E7; done. Qed.

Lemma woken_step (s : ide D) p b : related s p -> shows (iderw_woken b s) (spec_step (i_have1 s) bad (EWoken b) p).1 (fun s' => related s' p).
Proof.
  intros R. unfold iderw_woken. eapply runs_then; [apply acquire_locked, (r_free _ _ R)|]. intros ? ? ->. cbn [spec_step fst]. rewrite <- (r_buf _ _ R).
  eapply (iderw_wait_shows (set_i_held (lk_ide :: i_held s) s) b (i_held s)); [done|apply (r_free _ _ R)|]. eapply related_unlock; try done. apply (r_free _ _ R).
Qed.

Lemma own_step (s : ide D) p b x : related s p -> event_ok (EOwn b x) p = true -> shows (ide_op ide_bound (EOwn b x) s) SRet (fun s' => related s' (spec_step (i_have1 s) bad (EOwn b x) p).2).
Proof.
  intros R Ho. cbn in Ho. rewrite !andb_true_iff, !bool_decide_eq_true in Ho. destruct Ho as ((Hb & Hq) & Hx). split; [done|]. destruct R. cbn.
  assert (Hne : forall c, c ∈ p_queue p -> nth c (<[b:=x]> (p_buf p)) null_buf = nth c (p_buf p) null_buf).
  { intros c Hc. rewrite !nth_lookup. rewrite list_lookup_insert_ne; [done|]. intros ->. done. }
  constructor; cbn; try done.
  - by rewrite r_buf0.
  - by apply Forall_insert.
  - by rewrite length_insert.
  - apply Forall_forall. intros c Hc. rewrite Forall_forall in r_wait0. specialize (r_wait0 c Hc). unfold waits. rewrite length_insert, Hne by done. done.
  - unfold in_progress in *. cbn. destruct (p_queue p) as [|c q]; [done|]. by rewrite Hne by left.
Qed.

(** ** A call *)

Lemma nodup_bounded q n : NoDup q -> Forall (fun c => (c < n)%nat) q -> (length q <= n)%nat.
Proof.
  intros Hn Hf. enough (length q <= length (seq 0 n))%nat by (by rewrite length_seq in *). apply submseteq_length, NoDup_submseteq; [done|]. intros c Hc. rewrite elem_of_seq. rewrite Forall_forall in Hf. specialize (Hf c Hc). lia.
Qed.

(** Only the links change. *)
Definition same_but_queue (s s' : ide D) : Prop :=
  i_buf s' = i_buf s /\ length (i_qnext s') = length (i_qnext s) /\ i_have1 s' = i_have1 s /\ i_irq s' = i_irq s /\ i_held s' = i_held s /\ i_woken s' = i_woken s.

Lemma append_runs (s : ide D) q b : linked (i_qnext s) (i_queue s) q -> nth b (i_qnext s) None = None -> NoDup q -> b ∉ q -> (b < length (i_qnext s))%nat ->
  Forall (fun c => (c < length (i_qnext s))%nat) q ->
  runs (match i_queue s with None => kmod (set_i_queue (Some b)) | Some h => let* e := queue_end h (length (i_qnext s)) in set_qnext e (Some b) end) s
    (fun _ s' => same_but_queue s s' /\ linked (i_qnext s') (i_queue s') (q ++ [b])).
Proof.
  intros Hl Hn Hnd Hb Hlt Hf. destruct (i_queue s) as [h|] eqn:Eq.
  - apply runs_bind. eapply runs_conseq; [apply (queue_end_runs _ s q); [done|by apply nodup_bounded]|]. intros e ? (-> & He). apply runs_mod. split.
    + unfold same_but_queue. cbn. by rewrite length_alter.
    + cbn. rewrite Eq. by apply linked_snoc.
  - destruct q; [|by destruct Hl]. apply runs_mod. split; [done|]. cbn. by rewrite Hn.
Qed.

Lemma head_is_new o nx q b : linked nx o (q ++ [b]) -> b ∉ q -> bool_decide (o = Some b) = bool_decide (q = []).
Proof.
  intros Hl Hb. apply bool_decide_ext. destruct q as [|c q]; cbn in Hl; destruct Hl as (-> & _); [done|]. split; [|done]. intros [= ->]. exfalso. apply Hb. left.
Qed.

(** The request at the end of the queue, once the disk works on the first one. *)
Lemma related_call (s s2 s3 : ide D) p b : related s p -> b ∉ p_queue p -> waits (i_have1 s) (p_buf p) b ->
  same_but_queue s (set_i_held (i_held s) s2) -> linked (i_qnext s2) (i_queue s2) (p_queue p ++ [b]) -> same_driver s2 s3 ->
  v_disk1 (dev_of s3) = i_have1 s -> v_bad (dev_of s3) = bad -> present (dev_of s3) = true ->
  in_progress (dev_of s3) (Ispec (p_buf p) (p_disk p) (p_queue p ++ [b]) (p_woken p)) ->
  related (set_i_held (i_held s) s3) (Ispec (p_buf p) (p_disk p) (p_queue p ++ [b]) (p_woken p)).
Proof.
  intros [] Hb Hw (A1 & A2 & A3 & _ & _ & A6) Hl (B1 & B2 & B3 & B4 & B5 & B6) H1 H2 H3 H4. cbn in A1, A2, A3, A6.
  constructor; cbn; rewrite ?B1, ?B2, ?B3, ?B4, ?B6, ?A1, ?A3, ?A6; try done.
  - by rewrite A2.
  - apply NoDup_app. split; [done|]. split; [|apply NoDup_singleton]. intros c Hc Hc'. apply list_elem_of_singleton in Hc' as ->. done.
  - apply Forall_app. split; [done|]. by apply Forall_singleton.
Qed.

Lemma wait_lt (s : ide D) p n : related s p -> n = length (i_qnext s) -> Forall (fun c => (c < n)%nat) (p_queue p).
Proof. intros [] ->. eapply Forall_impl; [exact r_wait0|]. intros c (Hc & _). by rewrite r_qlen0, r_buf0. Qed.

(** The disk is started for a request that is alone in the queue. *)
Lemma start_if_first (s s2 : ide D) p b : related s p -> waits (i_have1 s) (p_buf p) b -> i_buf s2 = i_buf s -> i_irq s2 = i_irq s ->
  runs (when bool_decide (p_queue p = []) do idestart ide_bound (Some b)) s2 (fun _ s3 => same_driver s2 s3 /\
    v_disk1 (dev_of s3) = i_have1 s /\ v_bad (dev_of s3) = bad /\ present (dev_of s3) = true /\ in_progress (dev_of s3) (Ispec (p_buf p) (p_disk p) (p_queue p ++ [b]) (p_woken p))).
Proof.
  intros [] (Hb & Hd & Ht) Eb Ei. assert (Edev : dev_of s2 = dev_of s) by (unfold dev_of; by rewrite Ei).
  assert (Ex : buf_of s2 b = nth b (p_buf p) null_buf) by (unfold buf_of; by rewrite Eb, r_buf0).
  unfold in_progress in *. cbn [p_queue p_buf p_disk]. destruct (p_queue p) as [|c q].
  - rewrite bool_decide_true by done. eapply runs_conseq; [apply idestart_runs; rewrite ?Edev, ?Ex; [done|by apply fits_nth|by rewrite r_have0]|].
    intros ? s3 (S3 & P1 & P2 & P3 & P4 & P5 & P6). rewrite Edev, Ex, r_bad0 in P5, P6. rewrite Edev in P3, P4. cbn [app]. rewrite r_progress0 in P6. naive_solver congruence.
  - rewrite bool_decide_false by done. apply runs_ret. rewrite Edev. cbn [app]. done.
Qed.

Lemma call_step (s : ide D) p b : related s p -> (b < length (p_buf p))%nat -> b ∉ p_queue p ->
  shows (iderw ide_bound b s) (spec_call (i_have1 s) b p).1 (fun s' => related s' (spec_call (i_have1 s) b p).2).
Proof.
  intros R Hb Hq. unfold iderw, spec_call. unfold kbind at 1 2. unfold ibuf, kgets at 1 2. unfold buf_of. rewrite (r_buf _ _ R). set (x := nth b (p_buf p) null_buf). fold (is_done (flags x)).
  destruct (negb (has (flags x) B_BUSY)); [done|]. destruct (is_done (flags x)) eqn:Ed; [done|]. destruct (negb (dev x =? 0) && negb (i_have1 s)) eqn:Ep; [done|]. cbn [fst snd].
  assert (Hw : waits (i_have1 s) (p_buf p) b).
  { split; [done|]. split; [done|]. fold x. unfold drive_there. destruct (dev x =? 0) eqn:E0; [left; by apply Z.eqb_eq in E0|right]. cbn in Ep. by destruct (i_have1 s). }
  eapply runs_then; [apply acquire_locked, (r_free _ _ R)|]. intros ? ? ->. set (s1 := set_i_held _ s).
  eapply (runs_then _ _ _ (fun _ s' => s' = set_i_qnext (alter (fun _ => None) b (i_qnext s1)) s1)); [by apply runs_mod|]. intros ? ? ->. set (s1' := set_i_qnext _ s1).
  unfold kbind at 1 2, kgets at 1 2. assert (Hlen : length (i_qnext s1') = length (i_buf s1')) by (cbn; rewrite length_alter; apply (r_qlen _ _ R)). rewrite <- Hlen.
  eapply runs_then; [apply (append_runs s1' (p_queue p) b); cbn|].
  { apply linked_alter; [done|]. apply (r_link _ _ R). }
  { rewrite nth_alter_eq; [done|]. by rewrite (r_qlen _ _ R), (r_buf _ _ R). }
  { apply (r_nodup _ _ R). }
  { done. }
  { by rewrite length_alter, (r_qlen _ _ R), (r_buf _ _ R). }
  { rewrite length_alter. by eapply wait_lt. }
  intros ? s2 (S2 & L2). unfold kbind at 1, kgets at 1. rewrite (head_is_new _ _ _ _ L2 Hq).
  eapply runs_then; [apply (start_if_first s s2 p b R Hw); by destruct S2 as (? & ? & ? & ? & ?)|]. intros ? s3 (S3 & V1 & V2 & V3 & V4).
  assert (Hh : i_held s3 = lk_ide :: i_held s) by (unfold same_driver, same_but_queue in *; naive_solver congruence).
  assert (Ex : buf_of s3 b = x) by (unfold buf_of, x, same_driver, same_but_queue in *; cbn in *; f_equal; destruct R; naive_solver congruence).
  pose proof (iderw_wait_shows s3 b (i_held s) (fun s' => related s' (Ispec (p_buf p) (p_disk p) (p_queue p ++ [b]) (p_woken p))) Hh (r_free _ _ R)) as W.
  rewrite Ex, Ed in W. apply W. eapply (related_call s s2); try done. unfold same_but_queue in *. cbn in *. rewrite length_alter in S2. naive_solver.
Qed.

(** ** An interrupt *)

Definition transferred (disk : Z -> Z -> list Z) (y : buf) : buf := if has (flags y) B_DIRTY || bad (drive y) (sector y) then y else set_data (disk (drive y) (sector y)) y.

Lemma alter_same {A} (l : list A) f i d : (i < length l)%nat -> f (nth i l d) = nth i l d -> alter f i l = l.
Proof.
  intros Hi Hf. apply list_eq. intros j. destruct (decide (i = j)) as [<-|Hne]; [|by rewrite list_lookup_alter_ne].
  rewrite list_lookup_alter_eq. rewrite nth_lookup in Hf. destruct (l !! i); [|done]. cbn in *. by rewrite Hf.
Qed.

Lemma alter_twice {A} (l : list A) f g i : alter f i (alter g i l) = alter (fun x => f (g x)) i l.
Proof. apply list_eq. intros j. destruct (decide (i = j)) as [<-|Hne]; [|by rewrite !list_lookup_alter_ne]. rewrite !list_lookup_alter_eq. by destruct (l !! i). Qed.

Lemma alter_nth {A} (l : list A) f g i d : f (nth i l d) = g (nth i l d) -> alter f i l = alter g i l.
Proof.
  intros Hf. apply list_eq. intros j. destruct (decide (i = j)) as [<-|Hne]; [|by rewrite !list_lookup_alter_ne].
  rewrite !list_lookup_alter_eq. rewrite nth_lookup in Hf. destruct (l !! i); [|done]. cbn in *. by rewrite Hf.
Qed.

(** The data of a buffer, and what the device keeps. *)
Definition same_but_buf (s s' : ide D) : Prop := i_qnext s' = i_qnext s /\ i_queue s' = i_queue s /\ i_have1 s' = i_have1 s /\ i_held s' = i_held s /\ i_woken s' = i_woken s.
Definition same_disks (w w' : idev) : Prop := v_disk w' = v_disk w /\ v_bad w' = v_bad w /\ v_disk1 w' = v_disk1 w /\ present w' = present w.

Lemma transfer_runs (s : ide D) b (x := buf_of s b) : (b < length (i_buf s))%nat -> present (dev_of s) = true -> v_bad (dev_of s) = bad -> v_cmd (dev_of s) = started bad x ->
  runs (when negb (has (flags x) B_DIRTY) do
        (let* r := idewait ide_bound true in
         when 0 <=? r do (let* l := i_insl 0x1f0 128 in set_ibuf b (set_data l)))) s
    (fun _ s' => same_but_buf s s' /\ same_disks (dev_of s) (dev_of s') /\ i_buf s' = alter (transferred (v_disk (dev_of s))) b (i_buf s)).
Proof.
  intros Hb Hp Hbad Hc. unfold transferred, started in *. destruct (has (flags x) B_DIRTY) eqn:Ef; cbn [negb].
  - apply runs_ret. split; [done|]. split; [done|]. symmetry. apply (alter_same _ _ _ null_buf); [done|]. change (nth b (i_buf s) null_buf) with x. by rewrite Ef.
  - apply runs_bind. eapply runs_conseq; [by apply idewait_runs|]. intros r s1 ((A1 & A2 & A3 & A4 & A5 & A6) & D1 & ->). rewrite Hc. cbn [andb].
    destruct (bad (drive x) (sector x)) eqn:Eb.
    + rewrite bool_decide_true by done. apply runs_ret. split; [done|]. rewrite D1. split; [done|]. rewrite A1. symmetry. apply (alter_same _ _ _ null_buf); [done|]. change (nth b (i_buf s) null_buf) with x. by rewrite Ef, Eb.
    + rewrite bool_decide_false by done. cbn [negb]. apply runs_bind. unfold runs at 1, i_insl, on_irq.
      destruct (ide_data_in (q_dev (i_irq s1)) (drive x) (sector x)) as (d' & Ei & Ed); [change (v_cmd (dev_of s1) = CRead (drive x) (sector x)); by rewrite D1|].
      rewrite Ei. apply runs_mod. change (the_ide (q_dev (i_irq s1))) with (dev_of s1) in *. rewrite D1 in *. split; [done|]. split.
      * unfold dev_of at 2. cbn. by rewrite Ed.
      * cbn. rewrite A1. apply (alter_nth _ _ _ _ null_buf). change (nth b (i_buf s) null_buf) with x. by rewrite Ef, Eb.
Qed.

Lemma served_fits disk x : buf_fits x = true -> (forall k n, length (disk k n) = 512%nat) -> buf_fits (served_buf bad disk x) = true.
Proof.
  unfold buf_fits, served_buf. rewrite !andb_true_iff, !bool_decide_eq_true. destruct (_ || _); [done|]. intros (Hr & Hl) Hd. split; [done|]. by apply Hd.
Qed.

Lemma served_sectors disk x : buf_fits x = true -> (forall k n, length (disk k n) = 512%nat) -> forall k n, length (served_disk bad disk x k n) = 512%nat.
Proof.
  unfold buf_fits, served_disk, set_sector. rewrite !andb_true_iff, !bool_decide_eq_true. intros (_ & Hl) Hd k n. destruct (has _ _ && _); [|done]. by destruct (_ && _).
Qed.

(** The flags are set in two steps; the rest of the buffer is as the transfer leaves it. *)
Lemma served_alter disk (b : nat) (bs : list buf) :
  alter (fun x => set_flags (Z.land (flags x) (Z.lnot B_DIRTY)) x) b (alter (fun x => set_flags (Z.lor (flags x) B_VALID) x) b (alter (transferred disk) b bs)) = alter (served_buf bad disk) b bs.
Proof.
  rewrite !alter_twice. apply (alter_nth _ _ _ _ null_buf). unfold served_buf, transferred, done_flags. by destruct (_ || _).
Qed.

(** What is left when the first request [b] has been served and the disk works on the next one. *)
Lemma related_intr (s s' : ide D) p b q (x := nth b (p_buf p) null_buf) (p' := Ispec (alter (served_buf bad (p_disk p)) b (p_buf p)) (served_disk bad (p_disk p) x) q (p_woken p ++ [b])) :
  related s p -> p_queue p = b :: q ->
  i_buf s' = p_buf p' -> i_qnext s' = i_qnext s -> i_queue s' = nth b (i_qnext s) None -> i_have1 s' = i_have1 s -> i_held s' = i_held s -> i_woken s' = p_woken p' ->
  v_disk1 (dev_of s') = i_have1 s -> v_bad (dev_of s') = bad -> present (dev_of s') = true -> in_progress (dev_of s') p' -> buf_fits x = true ->
  related s' p'.
Proof.
  intros [] Eq E1 E2 E3 E4 E5 E6 E7 E8 E9 E10 E11. rewrite Eq in *. destruct r_link0 as (_ & Hl). apply NoDup_cons in r_nodup0 as (Hb & Hnd). apply Forall_cons in r_wait0 as ((Hlt & _) & Hw).
  constructor; rewrite ?E2, ?E3, ?E4, ?E5, ?E6; try done; cbn.
  - apply Forall_alter; [done|]. intros y Hy Hfit. by apply served_fits.
  - rewrite E1. cbn. rewrite length_alter, r_qlen0. by rewrite r_buf0.
  - eapply Forall_impl; [apply Forall_and; split; [exact Hw|]|]. 
    { apply Forall_forall. intros c Hc. exact (fun E : b = c => Hb (eq_ind_r (fun z => z ∈ q) Hc E)). }
    intros c ((H1 & H2 & H3) & Hne). unfold waits. rewrite length_alter, nth_alter_ne by done. done.
  - by apply served_sectors.
Qed.

(** The next request is given to the disk. *)
Lemma start_next (s s2 : ide D) p b q (x := nth b (p_buf p) null_buf) (p' := Ispec (alter (served_buf bad (p_disk p)) b (p_buf p)) (served_disk bad (p_disk p) x) q (p_woken p ++ [b])) :
  related s p -> p_queue p = b :: q -> i_queue s2 = nth b (i_qnext s) None -> i_buf s2 = p_buf p' -> same_disks (dev_of s) (dev_of s2) ->
  runs (match i_queue s2 with None => kret tt | Some _ => idestart ide_bound (i_queue s2) end) s2 (fun _ s3 => same_driver s2 s3 /\
    v_disk1 (dev_of s3) = i_have1 s /\ v_bad (dev_of s3) = bad /\ present (dev_of s3) = true /\ in_progress (dev_of s3) p').
Proof.
  intros [] Eq Eo Eb (W1 & W2 & W3 & W4). unfold in_progress in *. rewrite Eq in *. destruct r_link0 as (_ & Hl). destruct r_progress0 as (_ & _ & Hd). apply NoDup_cons in r_nodup0 as (Hb & _). apply Forall_cons in r_wait0 as (_ & Hw).
  cbn [p_queue p' p_buf p_disk]. rewrite Eo. destruct q as [|c q].
  - rewrite Hl. apply runs_ret. rewrite W1, W2, W3, W4. done.
  - destruct Hl as (-> & _). apply Forall_cons in Hw as ((Hc & _ & Ht) & _). apply not_elem_of_cons in Hb as (Hne & _).
    assert (Ex : buf_of s2 c = nth c (p_buf p) null_buf) by (unfold buf_of; rewrite Eb; cbn; by rewrite nth_alter_ne). rewrite nth_alter_ne by done.
    eapply runs_conseq; [apply idestart_runs; rewrite ?W3, ?W4, ?Ex; [done|by apply fits_nth|by rewrite r_have0]|].
    intros ? s3 (S3 & P1 & P2 & P3 & P4 & P5 & P6). rewrite W2, Ex, r_bad0 in P5, P6. rewrite W1, Hd in P6. rewrite W2 in P3. rewrite W3 in P4. naive_solver congruence.
Qed.

(** A buffer that is read does not change the disk it is read from. *)
Lemma served_same disk x : served_buf bad (served_disk bad disk x) x = served_buf bad disk x.
Proof. unfold served_buf, served_disk. by destruct (has (flags x) B_DIRTY). Qed.

Lemma runs_kmod {S} (f : S -> S) s : runs (kmod f) s (fun _ s' => s' = f s).
Proof. done. Qed.

Lemma intr_step (s : ide D) p : related s p -> shows (ideintr ide_bound s) SRet (fun s' => related s' (spec_intr bad p)).
Proof.
  intros R. unfold ideintr. eapply runs_then; [apply acquire_locked, (r_free _ _ R)|]. intros ? ? ->. unfold kbind at 1, kgets at 1. cbn [i_queue set_i_held]. unfold spec_intr.
  pose proof (r_link _ _ R) as Hl. destruct (p_queue p) as [|b q] eqn:Eq.
  - rewrite Hl. rewrite (release_unlocked _ (i_held s)) by (done || apply (r_free _ _ R)). split; [done|]. eapply related_unlock; try done. apply (r_free _ _ R).
  - destruct Hl as (-> & Hl). unfold kbind at 1, qnext, kgets at 1. cbn [i_qnext set_i_held].
    eapply runs_then; [apply runs_kmod|]. intros ? ? ->. set (s1 := set_i_queue _ _).
    pose proof (r_wait _ _ R) as Hw. rewrite Eq in Hw. apply Forall_cons in Hw as ((Hlt & _ & Ht) & _). pose proof (r_progress _ _ R) as Hp. unfold in_progress in Hp. rewrite Eq in Hp. destruct Hp as (_ & Hc & Hd).
    set (x := nth b (p_buf p) null_buf) in *. assert (Ex : buf_of s1 b = x) by (unfold buf_of, x; cbn; by rewrite (r_buf _ _ R)).
    unfold kbind at 1, ibuf, kgets at 1. eapply runs_then; [apply transfer_runs; cbn [i_buf s1 set_i_queue set_i_held]; rewrite ?Ex|].
    { by rewrite (r_buf _ _ R). }
    { apply (r_present _ _ R). }
    { apply (r_bad _ _ R). }
    { exact Hc. }
    intros ? s2 ((A1 & A2 & A3 & A4 & A5) & W & B2). change (dev_of s1) with (dev_of s) in *.
    do 3 (eapply runs_then; [apply runs_kmod|]; intros ? ? ->). match goal with |- shows (kbind _ _ ?y) _ _ => set (s3 := y) end.
    assert (B3 : i_buf s3 = alter (served_buf bad (p_disk p)) b (p_buf p)).
    { cbn. rewrite B2, served_alter, Hd. cbn. rewrite (r_buf _ _ R). apply (alter_nth _ _ _ _ null_buf), served_same. }
    unfold kbind at 1, kgets at 1. eapply runs_then; [apply (start_next s s3 p b q R Eq); [cbn; by rewrite A2|exact B3|exact W]|].
    intros ? s4 (S4 & V1 & V2 & V3 & V4). destruct S4 as (C1 & C2 & C3 & C4 & C5 & C6).
    rewrite (release_unlocked s4 (i_held s)); [|rewrite C5; cbn; by rewrite A4|apply (r_free _ _ R)]. split; [done|].
    eapply (related_intr s); try done; cbn; rewrite ?C1, ?C2, ?C3, ?C4, ?C6; cbn; rewrite ?A1, ?A2, ?A3, ?A5; try done.
    + by rewrite <- (r_woken _ _ R).
    + apply fits_nth; [apply (r_fits _ _ R)|done].
Qed.

Lemma step_refines (s : ide D) p e : related s p -> event_ok e p = true ->
  exists s', ide_step ide_bound e s = Some ((spec_step one bad e p).1, s') /\ related s' (spec_step one bad e p).2.
Proof.
  intros R Ho. rewrite <- (r_one _ _ R). destruct e as [b|b| |b x]; apply shows_step.
  - cbn in Ho. rewrite andb_true_iff, !bool_decide_eq_true in Ho. destruct Ho. by apply call_step.
  - apply woken_step, R.
  - by apply intr_step.
  - by apply own_step.
Qed.

Lemma run_refines es : forall (s : ide D) p, related s p -> events_ok one bad es p = true ->
  exists s', ide_run ide_bound es s = Some ((spec_run one bad es p).1, s') /\ related s' (spec_run one bad es p).2.
Proof.
  induction es as [|e es IH]; intros s p R Ho; [by exists s|]. cbn in Ho. apply andb_true_iff in Ho as (He & Hes).
  destruct (step_refines s p e R He) as (s1 & E1 & R1). cbn [ide_run spec_run]. rewrite E1. destruct (spec_step one bad e p) as [o p1]. cbn in *.
  destruct o as [|b|m]; [| |by exists s1]; destruct (IH s1 p1 R1 Hes) as (s2 & E2 & R2); rewrite E2; destruct (spec_run one bad es p1); by exists s2.
Qed.
End Refine.

(** ** The initialization *)

Section Init.
Context {D : Type} `{Ports D} `{Mmio D} `{!IdeDisk D}.

(** Writes to other ports do not concern the disks. *)
Definition ide_port (p : Z) : bool := ((0x1f2 <=? p) && (p <=? 0x1f7)) || (p =? 0x3f6).

Lemma ide_out_other p v w : ide_port p = false -> ide_out p v w = w.
Proof.
  unfold ide_port. rewrite orb_false_iff, andb_false_iff, !Z.leb_gt, Z.eqb_neq. intros (Hr & Hc). destruct w. cbn.
  rewrite !(proj2 (Z.eqb_neq _ _)) by lia. done.
Qed.

Lemma on_irq_runs {A} (m : K (irqst D) A) s (Q : A -> irqst D -> Prop) : runs m (i_irq s) Q -> runs (on_irq m) s (fun a s' => same_driver s s' /\ Q a (i_irq s')).
Proof. unfold runs, on_irq. destruct (m (i_irq s)); done. Qed.

Lemma picenable_disks (q : irqst D) irq : runs (picenable irq) q (fun _ q' => the_ide (q_dev q') = the_ide (q_dev q)).
Proof. eapply runs_eq; [reflexivity|]. cbn. by rewrite !ide_outb, !ide_out_other. Qed.

Lemma ioapicenable_disks (q : irqst D) irq cpu : runs (ioapicenable irq cpu) q (fun _ q' => the_ide (q_dev q') = the_ide (q_dev q)).
Proof. unfold ioapicenable. apply runs_bind, runs_gets. destruct (q_ismp q); [|by apply runs_ret]. eapply runs_eq; [reflexivity|]. cbn. by rewrite !ide_mmio. Qed.

(** The look for drive 1. *)
Lemma probe_runs n : forall k (s : ide D), drive_of (dev_of s) = 1 ->
  runs (for_first (seq k n) (fun _ => let* r := i_inb 0x1f7 in if negb (r =? 0) then kmod set_have1 ;;; kret (Some tt) else kret None)) s
    (fun _ s' => same_driver (if v_disk1 (dev_of s) && negb (n =? 0)%nat then set_have1 s else s) s' /\ dev_of s' = dev_of s).
Proof.
  induction n as [|n IH]; intros k s Hd; [apply runs_ret; cbn [Nat.eqb negb]; by rewrite andb_false_r|].
  cbn [seq for_first]. apply runs_bind, runs_bind. unfold runs at 1, i_inb, on_irq. destruct (ide_status (q_dev (i_irq s))) as (r & d' & Ei & Ed & Hr). rewrite Ei.
  fold (dev_of s) in Ed, Hr. unfold present in Hr. rewrite Hd in Hr. cbn [orb Z.eqb] in Hr. destruct (v_disk1 (dev_of s)) eqn:E1.
  - destruct Hr as (Hr & _). rewrite (proj2 (Z.eqb_neq _ _)) by done. apply runs_bind, runs_mod, runs_ret, runs_ret. done.
  - rewrite Hr. cbn [Z.eqb negb]. apply runs_ret. eapply runs_conseq; [apply IH; unfold dev_of; cbn; by rewrite Ed|]. unfold dev_of. cbn. rewrite Ed. fold (dev_of s). rewrite E1. done.
Qed.

(** The driver before [ideinit]: the statics are zero, drive 0 is selected. *)
Record power_on (s : ide D) : Prop := PowerOn {
  o_fits : Forall (fun x => buf_fits x = true) (i_buf s);
  o_qlen : length (i_qnext s) = length (i_buf s);
  o_queue : i_queue s = None;
  o_have1 : i_have1 s = false;
  o_free : lk_ide ∉ i_held s;
  o_drive : drive_of (dev_of s) = 0;
  o_sectors : forall k n, length (v_disk (dev_of s) k n) = 512%nat
}.

(** The specification at the start: no request, the disks as they are. *)
Definition spec_start (s : ide D) : ispec := Ispec (i_buf s) (v_disk (dev_of s)) [] (i_woken s).

Lemma ideinit_runs s ncpu : power_on s -> runs (ideinit ide_bound ncpu) s (fun _ s' => related (v_disk1 (dev_of s)) (v_bad (dev_of s)) s' (spec_start s)).
Proof.
  intros []. unfold ideinit. apply runs_bind. eapply runs_conseq; [eapply on_irq_runs, picenable_disks|]. cbn beta. intros ? s1 (S1 & D1).
  apply runs_bind. eapply runs_conseq; [eapply on_irq_runs, ioapicenable_disks|]. cbn beta. intros ? s2 (S2 & D2). rewrite D1 in D2. fold (dev_of s2) in D2. change (the_ide (q_dev (i_irq s))) with (dev_of s) in D2.
  apply runs_bind. eapply runs_conseq; [apply idewait_runs; unfold present; by rewrite D2, o_drive0|]. intros ? s3 (S3 & D3 & _). rewrite D2 in D3.
  apply runs_bind. eapply runs_conseq; [apply i_outb_runs|]. intros ? s4 (S4 & D4). rewrite D3 in D4.
  assert (Hd4 : drive_of (dev_of s4) = 1) by (rewrite D4; by destruct (dev_of s)). assert (H14 : v_disk1 (dev_of s4) = v_disk1 (dev_of s)) by (rewrite D4; by destruct (dev_of s)).
  apply runs_bind. eapply runs_conseq; [by apply probe_runs|]. intros ? s5 (S5 & D5). rewrite H14, andb_true_r in S5. rewrite D4 in D5.
  eapply runs_conseq; [apply i_outb_runs|]. intros ? s6 (S6 & D6). rewrite D5 in D6.
  assert (S45 : i_have1 s5 = v_disk1 (dev_of s) /\ i_buf s5 = i_buf s4 /\ i_qnext s5 = i_qnext s4 /\ i_queue s5 = i_queue s4 /\ i_held s5 = i_held s4 /\ i_woken s5 = i_woken s4).
  { unfold same_driver in *. destruct (v_disk1 (dev_of s)); cbn in S5; naive_solver congruence. }
  assert (S06 : i_have1 s6 = v_disk1 (dev_of s) /\ i_buf s6 = i_buf s /\ i_qnext s6 = i_qnext s /\ i_queue s6 = None /\ i_held s6 = i_held s /\ i_woken s6 = i_woken s) by (unfold same_driver in *; naive_solver congruence).
  destruct S06 as (E1 & E2 & E3 & E4 & E5 & E6). assert (W6 : v_disk1 (dev_of s6) = v_disk1 (dev_of s) /\ v_bad (dev_of s6) = v_bad (dev_of s) /\ v_disk (dev_of s6) = v_disk (dev_of s) /\ present (dev_of s6) = true)
    by (rewrite D6; by destruct (dev_of s)). destruct W6 as (W1 & W2 & W3 & W4).
  constructor; cbn; rewrite ?E2, ?E3, ?E4, ?E5, ?E6; try done; try congruence. apply NoDup_nil. done.
Qed.
End Init.

(** ** The flags of a buffer that is served *)

Lemma small_bits n : 0 <= n -> n = 0 \/ n = 1 \/ n = 2 \/ (Z.testbit 2 n = false /\ Z.testbit 4 n = false /\ Z.testbit 6 n = false).
Proof. intros Hn. destruct (decide (n < 3)); [lia|]. do 3 right. rewrite !Z.bits_above_log2; try done; cbn; lia. Qed.

Lemma done_flags_done f : is_done (done_flags f) = true.
Proof.
  unfold is_done, done_flags. apply Z.eqb_eq, Z.bits_inj'. intros n Hn. change (Z.lor B_VALID B_DIRTY) with 6. change B_VALID with 2. change B_DIRTY with 4. rewrite !Z.land_spec, Z.lor_spec, Z.lnot_spec by done.
  destruct (Z.testbit f n); destruct (small_bits n Hn) as [->|[->|[->|(E1 & E2 & E3)]]]; rewrite ?E1, ?E2, ?E3; done.
Qed.

(** memide.c sets the flags in the other order, and only clears the dirty flag after a write. *)
Lemma done_flags_memide f : done_flags f = Z.lor (if has f B_DIRTY then Z.land f (Z.lnot B_DIRTY) else f) B_VALID.
Proof.
  unfold done_flags, has. change B_VALID with 2. change B_DIRTY with 4. apply Z.bits_inj'. intros n Hn. destruct (Z.land f 4 =? 0) eqn:E; cbn [negb].
  - apply Z.eqb_eq in E. pose proof (f_equal (fun z => Z.testbit z n) E) as En. cbn beta in En. rewrite Z.land_spec, Z.bits_0 in En. rewrite Z.land_spec, !Z.lor_spec, Z.lnot_spec by done.
    destruct (Z.testbit f n); destruct (small_bits n Hn) as [->|[->|[->|(E1 & E2 & E3)]]]; rewrite ?E1, ?E2, ?E3 in *; done.
  - rewrite Z.land_spec, !Z.lor_spec, Z.land_spec, !Z.lnot_spec by done. destruct (Z.testbit f n); destruct (small_bits n Hn) as [->|[->|[->|(E1 & E2 & E3)]]]; rewrite ?E1, ?E2, ?E3; done.
Qed.

(** ** Interrupts serve the queue *)

Lemma spec_intrs one bad q : forall p, p_queue p = q -> Forall (fun b => (b < length (p_buf p))%nat) q -> let n := length q in
  let '(os, p') := spec_run one bad (replicate n EIntr) p in
  os = replicate n SRet /\ p_queue p' = [] /\ p_woken p' = p_woken p ++ q /\ length (p_buf p') = length (p_buf p) /\
  (forall b, is_done (flags (nth b (p_buf p) null_buf)) = true \/ b ∈ q -> is_done (flags (nth b (p_buf p') null_buf)) = true).
Proof.
  induction q as [|b q IH]; intros p Hq Hf; cbn [length replicate spec_run].
  - rewrite app_nil_r. repeat split; try done. intros b [Hb|Hb]; [done|]. by apply elem_of_nil in Hb.
  - apply Forall_cons in Hf as (Hb & Hf). cbn [spec_step]. unfold spec_intr. rewrite Hq. set (p1 := Ispec _ _ _ _). specialize (IH p1 eq_refl). cbn zeta in IH.
    specialize (IH ltac:(eapply Forall_impl; [exact Hf|]; cbn; intros; by rewrite length_alter)). destruct (spec_run one bad (replicate (length q) EIntr) p1) as [os p2].
    destruct IH as (-> & E2 & E3 & E4 & E5). split; [done|]. split; [done|]. split; [rewrite E3; cbn; by rewrite <- app_assoc|]. split; [rewrite E4; cbn; by rewrite length_alter|].
    intros c Hc. apply E5. cbn. destruct (decide (c = b)) as [->|Hne].
    + left. rewrite nth_alter_eq by done. apply done_flags_done.
    + rewrite nth_alter_ne by done. destruct Hc as [Hc|Hc]; [by left|right]. apply elem_of_cons in Hc. naive_solver.
Qed.

Lemma intrs_ok one bad n : forall p, events_ok one bad (replicate n EIntr) p = true.
Proof. induction n as [|n IH]; intros p; [done|]. cbn. apply IH. Qed.

(** ** The memory disk under the same events *)

(** memide.c does the whole request in the call; there is nothing for an interrupt or a wake-up to do. *)
Definition mem_op (e : event) : K bst unit :=
  match e with
  | ECall b => Bio.iderw b
  | EOwn b x => kmod (fun t => set_b_buf (<[b := x]> (b_buf t)) t)
  | EWoken _ | EIntr => kret tt
  end.

(** The buffers and the disks once all requests are served. *)
Fixpoint serve (bad : Z -> Z -> bool) (q : list nat) (bufs : list buf) (disk : Z -> Z -> list Z) : list buf * (Z -> Z -> list Z) :=
  match q with
  | [] => (bufs, disk)
  | b :: q' => serve bad q' (alter (served_buf bad disk) b bufs) (served_disk bad disk (nth b bufs null_buf))
  end.
Definition flush (bad : Z -> Z -> bool) (p : ispec) : list buf * (Z -> Z -> list Z) := serve bad (p_queue p) (p_buf p) (p_disk p).

Lemma flush_intr bad p : flush bad (spec_intr bad p) = flush bad p.
Proof. unfold flush, spec_intr. destruct (p_queue p) as [|b q] eqn:E; [by rewrite E|done]. Qed.

Lemma serve_snoc bad q b : forall bufs disk, serve bad (q ++ [b]) bufs disk =
  let '(bufs', disk') := serve bad q bufs disk in (alter (served_buf bad disk') b bufs', served_disk bad disk' (nth b bufs' null_buf)).
Proof. induction q as [|c q IH]; intros bufs disk; [done|]. cbn [app serve]. apply IH. Qed.

Lemma serve_other bad q b : b ∉ q -> forall bufs disk, nth b (serve bad q bufs disk).1 null_buf = nth b bufs null_buf.
Proof.
  induction q as [|c q IH]; intros Hb bufs disk; [done|]. apply not_elem_of_cons in Hb as (Hne & Hb). cbn [serve]. rewrite IH by done. by apply nth_alter_ne.
Qed.

Lemma insert_as_alter {A} (l : list A) i x : <[i := x]> l = alter (fun _ => x) i l.
Proof. revert i. induction l as [|y l IH]; intros [|i]; cbn; try done. f_equal. apply IH. Qed.

Lemma alter_other {A} (l : list A) f g i j : i <> j -> alter f i (alter g j l) = alter g j (alter f i l).
Proof. revert i j. induction l as [|y l IH]; intros [|i] [|j] H; cbn; try done. f_equal. apply IH. lia. Qed.

Lemma serve_insert bad q b x : b ∉ q -> forall bufs disk, serve bad q (<[b := x]> bufs) disk = (<[b := x]> (serve bad q bufs disk).1, (serve bad q bufs disk).2).
Proof.
  induction q as [|c q IH]; intros Hb bufs disk; [done|]. apply not_elem_of_cons in Hb as (Hne & Hb). cbn [serve].
  rewrite insert_as_alter, nth_alter_ne, (alter_other bufs) by done. rewrite <- insert_as_alter. by apply IH.
Qed.

(** The memory disk is ahead: it has served the requests the driver still has in its queue. *)
Definition ahead (bad : Z -> Z -> bool) (p : ispec) (t : bst) : Prop := b_buf t = (flush bad p).1 /\ forall n, b_disk t n = (flush bad p).2 1 n.

Lemma ahead_call bad b p t t' : ahead bad p t -> b ∉ p_queue p -> (forall n, n < b_size t -> bad 1 n = false) -> Bio.iderw b t = Ok tt t' ->
  spec_call true b p = (SSleep b, Ispec (p_buf p) (p_disk p) (p_queue p ++ [b]) (p_woken p)) /\ ahead bad (spec_call true b p).2 t' /\ b_size t' = b_size t.
Proof.
  intros (Et & Ed) Hq Hgood. unfold Bio.iderw. unfold kbind at 1 2, getb, kgets at 1 2.
  assert (Ex : buf_at t b = nth b (p_buf p) null_buf) by (unfold buf_at; rewrite Et; by apply serve_other). assert (Ex' : nth b (flush bad p).1 null_buf = nth b (p_buf p) null_buf) by (by apply serve_other).
  rewrite Ex in *. set (x := nth b (p_buf p) null_buf) in *. fold (is_done (flags x)). unfold spec_call. fold x. rewrite andb_false_r.
  destruct (has (flags x) B_BUSY) eqn:E1; cbn [negb]; [|done]. destruct (is_done (flags x)) eqn:E2; [done|]. destruct (dev x =? 1) eqn:E3; cbn [negb]; [apply Z.eqb_eq in E3|done].
  destruct (_ <=? sector x) eqn:E4; [done|]. apply Z.leb_gt in E4. assert (Hdr : drive x = 1) by (unfold drive; by rewrite E3). assert (Hbad : bad (drive x) (sector x) = false) by (rewrite Hdr; by apply Hgood).
  intros Hm. split; [done|]. cbn [snd]. unfold ahead, flush. cbn [p_buf p_disk p_queue]. rewrite serve_snoc. fold (flush bad p). destruct (flush bad p) as [bufs disk]. cbn [fst snd] in *. rewrite Ex'.
  unfold served_disk. rewrite Hbad.
  destruct (has (flags x) B_DIRTY) eqn:Ef; cbn in Hm; injection Hm as <-; cbn [andb negb b_buf b_disk b_size disk_write set_b_buf upd_buf fst snd].
  - split; [split|done].
    + rewrite alter_twice, Et. apply (alter_nth _ _ _ _ null_buf). rewrite Ex'. unfold served_buf. by rewrite done_flags_memide, Ef.
    + intros n. unfold set_sector. rewrite Hdr. cbn [Z.eqb Pos.eqb andb]. destruct (n =? sector x); [done|]. by rewrite Ed.
  - split; [split|done].
    + rewrite alter_twice, Et. apply (alter_nth _ _ _ _ null_buf). rewrite Ex'. unfold served_buf. rewrite done_flags_memide, Ef, Hbad, Hdr. cbn. by rewrite Ed.
    + done.
Qed.

Lemma ahead_step bad e p t t' : ahead bad p t -> event_ok e p = true -> (forall n, n < b_size t -> bad 1 n = false) -> mem_op e t = Ok tt t' ->
  let '(o, p') := spec_step true bad e p in (forall m, o <> SPanic m) /\ ahead bad p' t' /\ b_size t' = b_size t.
Proof.
  intros A He Hgood Hm. destruct e as [b|b| |b x]; cbn [mem_op spec_step] in *.
  - cbn in He. rewrite andb_true_iff, !bool_decide_eq_true in He. destruct (ahead_call bad b p t t' A (proj2 He) Hgood Hm) as (E & A' & Es). rewrite E in *. done.
  - injection Hm as <-. split; [|done]. intros m. by destruct (is_done _).
  - injection Hm as <-. split; [done|]. split; [|done]. unfold ahead. by rewrite flush_intr.
  - injection Hm as <-. split; [done|]. split; [|done]. cbn in He. rewrite !andb_true_iff, !bool_decide_eq_true in He. destruct He as ((_ & Hq) & _). destruct A as (Et & Ed).
    unfold ahead, flush. cbn [p_buf p_disk p_queue b_buf set_b_buf b_disk]. rewrite serve_insert by done. fold (flush bad p). cbn [fst snd]. by rewrite Et.
Qed.

Lemma ahead_run bad es : forall p t t', ahead bad p t -> events_ok true bad es p = true -> (forall n, n < b_size t -> bad 1 n = false) -> for_each es mem_op t = Ok tt t' ->
  let '(os, p') := spec_run true bad es p in (forall m, SPanic m ∉ os) /\ ahead bad p' t'.
Proof.
  induction es as [|e es IH]; intros p t t' A He Hgood Hm; cbn [for_each spec_run] in *; [injection Hm as <-; split; [intros m; apply not_elem_of_nil|done]|].
  apply andb_true_iff in He as (He & Hes). unfold kbind in Hm. destruct (mem_op e t) as [[] t1| | |] eqn:E1; try done.
  pose proof (ahead_step bad e p t t1 A He Hgood E1) as Hst. destruct (spec_step true bad e p) as [o p1]. destruct Hst as (Ho & A1 & Es).
  destruct o as [|b|m]; [| |by destruct (Ho m)]; specialize (IH p1 t1 t' A1 Hes ltac:(rewrite Es; done) Hm); destruct (spec_run true bad es p1) as [os p2]; destruct IH as (Hn & A2); (split; [|done]).
  all: intros m Hin; apply elem_of_cons in Hin as [Hin|Hin]; [done|by apply (Hn m)].
Qed.

(** ** What the driver promises *)

Section Promises.
Context {D : Type} `{Ports D} `{Mmio D} `{!IdeDisk D}.

(** C4: After [ideinit], under any interleaving of calls of [iderw], wake-ups, interrupts and changes of buffers by their owners, the driver behaves as a queue of requests served one by one: the same calls return,
    sleep or panic, and the buffers and the wake-ups are the same; when no request is left the disks are the same too.  It always answers: no wait for the disk is endless.  Drive 1 is used
    exactly when it is there. *)
Theorem ide_refines_queue (s : ide D) (ncpu : Z) (es : list event) (one := v_disk1 (dev_of s)) (bad := v_bad (dev_of s)) :
  power_on s -> events_ok one bad es (spec_start s) = true ->
  runs (ideinit ide_bound ncpu) s (fun _ s1 => let (os, p') := spec_run one bad es (spec_start s) in
    exists s', ide_run ide_bound es s1 = Some (os, s') /\ i_buf s' = p_buf p' /\ i_woken s' = p_woken p' /\ (p_queue p' = [] -> v_disk (dev_of s') = p_disk p')).
Proof.
  intros Ho He. eapply runs_conseq; [by apply ideinit_runs|]. intros ? s1 R1. destruct (run_refines one bad es s1 _ R1 He) as (s' & E' & R'). destruct (spec_run one bad es (spec_start s)) as [os p']. cbn in *.
  exists s'. destruct R'. split; [done|]. split; [done|]. split; [done|]. intros Hq. unfold in_progress in r_progress0. by rewrite Hq in r_progress0.
Qed.

(** C23: As many interrupts as there are requests serve them all, in the order of the calls: the queue is then empty, every buffer is valid and clean and its sleeper has been woken in turn, and a
    process woken in [iderw] returns. *)
Theorem ide_serves_all one bad (s : ide D) (p : ispec) (q := p_queue p) : related one bad s p ->
  exists s', ide_run ide_bound (replicate (length q) EIntr) s = Some (replicate (length q) SRet, s') /\
    i_queue s' = None /\ i_woken s' = i_woken s ++ q /\ forall b, b ∈ q -> exists s'', iderw_woken b s' = Ok tt s'' /\ i_buf s'' = i_buf s'.
Proof.
  intros R. assert (Hf : Forall (fun b => (b < length (p_buf p))%nat) q) by (eapply Forall_impl; [apply (r_wait _ _ _ _ R)|]; by intros b (? & _)).
  pose proof (spec_intrs one bad q p eq_refl Hf) as Hs. cbn zeta in Hs. destruct (run_refines one bad (replicate (length q) EIntr) s p R (intrs_ok _ _ _ _)) as (s' & E' & R').
  destruct (spec_run one bad (replicate (length q) EIntr) p) as [os p']. cbn in E', R'. destruct Hs as (-> & E2 & E3 & _ & E5). exists s'. split; [done|].
  split; [pose proof (r_link _ _ _ _ R') as Hl; by rewrite E2 in Hl|]. split; [by rewrite (r_woken _ _ _ _ R'), E3, (r_woken _ _ _ _ R)|].
  intros b Hb. pose proof (woken_step one bad s' p' b R') as Hw. cbn [spec_step fst] in Hw. rewrite (E5 b (or_intror Hb)) in Hw. unfold shows in Hw.
  destruct (iderw_woken b s') as [[] s''| | |] eqn:Ew; [|naive_solver..]. destruct Hw as (_ & R''). exists s''. split; [done|]. by rewrite (r_buf _ _ _ _ R''), (r_buf _ _ _ _ R').
Qed.

(** One request from the call to the return. *)
Lemma ide_one one bad (s : ide D) p b (x := nth b (p_buf p) null_buf) : related one bad s p -> p_queue p = [] -> (b < length (p_buf p))%nat ->
  has (flags x) B_BUSY = true -> is_done (flags x) = false -> dev x = 0 \/ one = true ->
  exists s', ide_run ide_bound [ECall b; EIntr; EWoken b] s = Some ([SSleep b; SRet; SRet], s') /\
    i_buf s' = alter (served_buf bad (p_disk p)) b (p_buf p) /\ v_disk (dev_of s') = served_disk bad (p_disk p) x.
Proof.
  intros R Hq Hb H1 H2 H3. assert (Hc : spec_call one b p = (SSleep b, Ispec (p_buf p) (p_disk p) [b] (p_woken p))).
  { unfold spec_call. fold x. rewrite H1, H2, Hq. cbn. destruct H3 as [-> | ->]; [done|]. by rewrite andb_false_r. }
  set (p1 := Ispec (p_buf p) (p_disk p) [b] (p_woken p)) in *.
  assert (Hd : is_done (flags (nth b (p_buf (spec_intr bad p1)) null_buf)) = true) by (cbn; rewrite nth_alter_eq by done; apply done_flags_done).
  assert (Hr : spec_run one bad [ECall b; EIntr; EWoken b] p = ([SSleep b; SRet; SRet], spec_intr bad p1)) by (cbn [spec_run spec_step]; rewrite Hc; cbn [spec_run spec_step]; by rewrite Hd).
  destruct (run_refines one bad [ECall b; EIntr; EWoken b] s p R) as (s' & E' & R').
  { cbn [events_ok spec_step]. rewrite Hc. unfold event_ok. rewrite Hq. rewrite (bool_decide_true (b < length (p_buf p))%nat) by done. rewrite (bool_decide_true (b ∉ [])) by apply not_elem_of_nil.
    rewrite bool_decide_true by (cbn; by rewrite length_alter). by rewrite Hd. }
  rewrite Hr in E', R'. exists s'. split; [done|]. split; [apply (r_buf _ _ _ _ R')|]. apply (r_progress _ _ _ _ R').
Qed.

(** C24: The interrupt-driven driver and the memory disk agree on the disk the file system uses, disk 1, when it is there and has no sector with an error.  After [ideinit], take any interleaving of calls of [iderw], wake-ups,
    interrupts and changes of buffers by their owners under which [iderw] of memide.c, called at the same points on the same buffers and the same sectors, does not panic.  Then [iderw] of ide.c does not panic either, and whenever
    its queue is empty the buffers and the sectors of disk 1 are those of the memory disk. *)
Theorem ide_as_memide (s : ide D) (ncpu : Z) (es : list event) (t t' : bst) (bad := v_bad (dev_of s)) :
  power_on s -> v_disk1 (dev_of s) = true -> (forall n, n < b_size t -> bad 1 n = false) ->
  b_buf t = i_buf s -> (forall n, b_disk t n = v_disk (dev_of s) 1 n) -> events_ok true bad es (spec_start s) = true -> for_each es mem_op t = Ok tt t' ->
  runs (ideinit ide_bound ncpu) s (fun _ s1 => exists os s', ide_run ide_bound es s1 = Some (os, s') /\ (forall m, SPanic m ∉ os) /\
    (i_queue s' = None -> i_buf s' = b_buf t' /\ forall n, v_disk (dev_of s') 1 n = b_disk t' n)).
Proof.
  intros Ho H1 Hgood Et Ed He Hm. eapply runs_conseq; [by apply ideinit_runs|]. intros ? s1 R1. rewrite H1 in R1. fold bad in R1.
  destruct (run_refines true bad es s1 _ R1 He) as (s' & E' & R'). pose proof (ahead_run bad es (spec_start s) t t') as Ha. destruct (spec_run true bad es (spec_start s)) as [os p']. cbn [fst snd] in *.
  destruct Ha as (Hn & (A1 & A2)); [by split|done..|]. exists os, s'. split; [done|]. split; [done|]. intros Hq.
  assert (Hq' : p_queue p' = []) by (pose proof (r_link _ _ _ _ R') as Hl; rewrite Hq in Hl; destruct (p_queue p'); [done|by destruct Hl]).
  pose proof (r_progress _ _ _ _ R') as Hp. unfold in_progress in Hp. rewrite Hq' in Hp. unfold flush in A1, A2. rewrite Hq' in A1, A2. cbn [serve fst snd] in A1, A2.
  split; [by rewrite (r_buf _ _ _ _ R')|]. intros n. by rewrite A2, Hp.
Qed.

(** Errors of the disk are dropped: a request for a sector that cannot be used returns like any other, the buffer marked valid and clean.  After a read its data are what was in the buffer before; after a write
    the disk has not changed. *)
Theorem ide_error_dropped one bad (s : ide D) p b (x := nth b (p_buf p) null_buf) : related one bad s p -> p_queue p = [] -> (b < length (p_buf p))%nat ->
  has (flags x) B_BUSY = true -> is_done (flags x) = false -> dev x = 0 \/ one = true -> bad (drive x) (sector x) = true ->
  exists s', ide_run ide_bound [ECall b; EIntr; EWoken b] s = Some ([SSleep b; SRet; SRet], s') /\
    buf_of s' b = set_flags (done_flags (flags x)) x /\ is_done (flags (buf_of s' b)) = true /\ v_disk (dev_of s') = v_disk (dev_of s).
Proof.
  intros R Hq Hb H1 H2 H3 Hbad. destruct (ide_one one bad s p b R Hq Hb H1 H2 H3) as (s' & Er & Eb & Ed). fold x in Ed. exists s'. split; [done|].
  assert (Ex : buf_of s' b = set_flags (done_flags (flags x)) x) by (unfold buf_of; rewrite Eb, nth_alter_eq by done; fold x; unfold served_buf; by rewrite Hbad, orb_true_r).
  split; [done|]. split; [rewrite Ex; apply done_flags_done|]. rewrite Ed. unfold served_disk. rewrite Hbad, andb_false_r. pose proof (r_progress _ _ _ _ R) as Hp. unfold in_progress in Hp. by rewrite Hq in Hp.
Qed.
End Promises.

(** ** A disk *)

(** Drive contents and registers, and whether the next read of the status finds the disk busy. *)
Record hd := Hd { h_dev : idev; h_busy : bool }.

Definition hd_status (d : hd) : Z * hd :=
  if present (h_dev d) then if h_busy d then (IDE_BSY, Hd (h_dev d) false) else (Z.lor IDE_DRDY (if bool_decide (v_cmd (h_dev d) = CFail) then IDE_ERR else 0), d)
  else (0, d).

#[global] Instance hd_ports : Ports hd := {|
  inb p d := if p =? 0x1f7 then hd_status d else (0, d);
  outb p v d := Hd (ide_out p v (h_dev d)) ((p =? 0x1f7) || h_busy d);
  insl p n d := match v_cmd (h_dev d) with CRead k m => (v_disk (h_dev d) k m, Hd (set_cmd CIdle (h_dev d)) (h_busy d)) | _ => ([], d) end;
  outsl p l d := Hd (ide_outsl l (h_dev d)) (h_busy d)
|}.

#[global] Instance hd_mmio : Mmio hd := {| mmio_read _ d := (0, d); mmio_write _ _ d := d; mmio_write16 _ _ d := d |}.

#[global] Instance hd_disk : IdeDisk hd.
Proof.
  refine {| the_ide := h_dev; ide_polls d := if h_busy d then 1%nat else 0%nat; ide_bound := 2 |}; try done.
  - intros d. destruct (h_busy d); lia.
  - intros d k n E. eexists. cbn. rewrite E. done.
  - intros d. cbn. unfold hd_status. destruct (present (h_dev d)); [|by eexists _, _].
    destruct (h_busy d) eqn:Eb; [eexists _, _; split; [reflexivity|]; cbn; split; [done|]; split; [done|]; right; split; [done|lia]|].
    destruct (decide (v_cmd (h_dev d) = CFail)) as [E|E]; [rewrite (bool_decide_true _ E)|rewrite (bool_decide_false _ E)]; (eexists _, _; split; [reflexivity|]; split; [done|]; split; [done|]; left; split; [done|]).
    + by rewrite E.
    + done.
Defined.

(** Two drives of empty sectors, of which sector 7 of drive 1 cannot be used; a buffer to read sector 5 of drive 1, one to write it, and one to read sector 7. *)
Definition hd_bad (k n : Z) : bool := (k =? 1) && (n =? 7).
Definition hd_bufs : list buf := [Buf 1 1 5 0 0 (replicate 512 0); Buf 5 1 5 0 0 (replicate 512 1); Buf 1 1 7 0 0 (replicate 512 9)].
Definition hd_start : ide hd :=
  Ide hd_bufs [None; None; None] None false (Irqst irqmask_start false 0 0 0 (Hd (Idev 0 0 0 0 0xa0 true CIdle (fun _ _ => replicate 512 0) hd_bad true) true) []) [] [].

Lemma hd_power_on : power_on hd_start.
Proof.
  constructor; try done.
  - by repeat (apply Forall_cons; split; [vm_compute; reflexivity|]).
  - set_solver.
Qed.

(** The driver after [ideinit]. *)
Definition state_of {S A} (r : outcome S A) (d : S) : S := match r with Ok _ s => s | _ => d end.
Definition hd_up : ide hd := state_of (ideinit 2 1 hd_start) hd_start.

Lemma runs_state {S A} (m : K S A) s (Q : A -> S -> Prop) d : runs m s Q -> exists a, Q a (state_of (m s) d).
Proof. unfold runs, state_of. destruct (m s); naive_solver. Qed.

Lemma hd_up_related : related true hd_bad hd_up (spec_start hd_start).
Proof. destruct (runs_state _ _ _ hd_start (ideinit_runs hd_start 1 hd_power_on)) as (? & R). exact R. Qed.

Lemma let_pair {A B} (x : A * B) (P : A -> B -> Prop) : (let (a, b) := x in P a b) -> P x.1 x.2.
Proof. by destruct x. Qed.

Definition hd_events : list event := [ECall 1; ECall 0; EWoken 0; EIntr; EIntr; EWoken 0; EWoken 1].

(** A write and a read of the same sector at once: the read, queued behind, sees what was written. *)
Lemma ide_refines_queue_witness : runs (ideinit 2 1) hd_start (fun _ s1 => exists s',
  ide_run 2 hd_events s1 = Some ([SSleep 1; SSleep 0; SSleep 0; SRet; SRet; SRet; SRet], s') /\ data (buf_of s' 0) = replicate 512 1 /\ i_woken s' = [1; 0]%nat).
Proof.
  eapply runs_conseq; [apply (ide_refines_queue hd_start 1 hd_events hd_power_on); vm_compute; reflexivity|]. cbn beta. intros ? s1 Hs. apply let_pair in Hs. destruct Hs as (s' & E1 & E2 & E3 & _).
  exists s'. split; [etrans; [exact E1|]; f_equal; f_equal; vm_compute; reflexivity|]. unfold buf_of. rewrite E2, E3. split; vm_compute; reflexivity.
Defined.

Lemma ide_serves_all_witness : exists (s : ide hd) p s', related true hd_bad s p /\ p_queue p = [1; 0]%nat /\ ide_run 2 [EIntr; EIntr] s = Some ([SRet; SRet], s') /\ i_queue s' = None.
Proof.
  destruct (run_refines true hd_bad [ECall 1; ECall 0] hd_up _ hd_up_related) as (s & _ & R); [vm_compute; reflexivity|].
  destruct (ide_serves_all true hd_bad s _ R) as (s' & E1 & E2 & _). exists s, (spec_run true hd_bad [ECall 1; ECall 0] (spec_start hd_start)).2, s'. done.
Defined.

(** The same buffers over a memory disk of ten sectors. *)
Definition mem_start : bst := Bst hd_bufs (fun _ => replicate 512 0) 10 [] [].

(** Drive 1 without errors. *)
Definition hd_good : ide hd :=
  Ide hd_bufs [None; None; None] None false (Irqst irqmask_start false 0 0 0 (Hd (Idev 0 0 0 0 0xa0 true CIdle (fun _ _ => replicate 512 0) (fun _ _ => false) true) true) []) [] [].

Lemma ide_as_memide_witness : runs (ideinit 2 1) hd_good (fun _ s1 => exists os s', ide_run 2 hd_events s1 = Some (os, s') /\
  (i_queue s' = None -> i_buf s' = b_buf (state_of (for_each hd_events mem_op mem_start) mem_start))).
Proof.
  assert (Ho : power_on hd_good).
  { constructor; try done; [by repeat (apply Forall_cons; split; [vm_compute; reflexivity|])|set_solver]. }
  eapply runs_conseq; [apply (ide_as_memide hd_good 1 hd_events mem_start (state_of (for_each hd_events mem_op mem_start) mem_start) Ho); try done; vm_compute; reflexivity|].
  intros ? s1 (os & s' & E & _ & Hb). exists os, s'. split; [exact E|]. intros Hq. by apply Hb.
Defined.

Lemma ide_error_dropped_witness : exists s', ide_run 2 [ECall 2; EIntr; EWoken 2] hd_up = Some ([SSleep 2; SRet; SRet], s') /\ data (buf_of s' 2) = replicate 512 9 /\ is_done (flags (buf_of s' 2)) = true.
Proof.
  destruct (ide_error_dropped true hd_bad hd_up (spec_start hd_start) 2 hd_up_related) as (s' & E1 & E2 & E3 & _); try done.
  - cbn. lia.
  - by right.
  - exists s'. by rewrite E2.
Defined.
