(* ===== verification/Kbd.v ===== *)
(** * The keyboard: kbd.c and kbd.h, and the set-up of the console and the serial port

    [kbdgetc] turns scan codes into characters; the static [shift] is kept beside the console (Console.v).  [consoleintr]
    is run here with the function that gives it characters, at most [fuel] times.  [consoleinit] and [uartinit] also
    program the interrupt controllers (Irq.v), whose variables [n_irq] holds, and set [devsw]. *)

From S2P Require Import Prelude Bio BufferCache Bytes Log Fs Ports Printf Console Irq.

Definition KBSTATP : Z := 0x64.
Definition KBS_DIB : Z := 0x01.
Definition KBDATAP : Z := 0x60.
Definition NO : Z := 0.
Definition SHIFT : Z := 1.
Definition CTL : Z := 2.
Definition ALT : Z := 4.
Definition CAPSLOCK : Z := 8.
Definition NUMLOCK : Z := 16.
Definition SCROLLLOCK : Z := 32.
Definition E0ESC : Z := 64.

Definition KEY_HOME : Z := 0xE0.
Definition KEY_END : Z := 0xE1.
Definition KEY_UP : Z := 0xE2.
Definition KEY_DN : Z := 0xE3.
Definition KEY_LF : Z := 0xE4.
Definition KEY_RT : Z := 0xE5.
Definition KEY_PGUP : Z := 0xE6.
Definition KEY_PGDN : Z := 0xE7.
Definition KEY_INS : Z := 0xE8.
Definition KEY_DEL : Z := 0xE9.

(** ** The tables *)

(** An array of 256 bytes from its first elements and those with an index. *)
Definition table (first : list Z) (at_index : list (nat * Z)) : list Z :=
  foldl (fun t iv => <[ iv.1 := iv.2 ]> t) (first ++ replicate (256 - length first) 0) at_index.

Definition shiftcode : list Z := table [] [(0x1D, CTL); (0x2A, SHIFT); (0x36, SHIFT); (0x38, ALT); (0x9D, CTL); (0xB8, ALT)]%nat.

Definition togglecode : list Z := table [] [(0x3A, CAPSLOCK); (0x45, NUMLOCK); (0x46, SCROLLLOCK)]%nat.

(** The codes of the characters of a string. *)
Definition chars (s : string) : list Z := (fun c => Z.of_N (Ascii.N_of_ascii c)) <$> String.list_ascii_of_string s.

(** The keys of the keypad with an escape: the same in the three tables. *)
Definition moves : list (nat * Z) :=
  [(0xC8, KEY_UP); (0xD0, KEY_DN); (0xC9, KEY_PGUP); (0xD1, KEY_PGDN); (0xCB, KEY_LF); (0xCD, KEY_RT); (0x97, KEY_HOME); (0xCF, KEY_END); (0xD2, KEY_INS); (0xD3, KEY_DEL)]%nat.

Definition normalmap : list Z := table
  ([NO; 0x1B] ++ chars "123456" ++
   chars "7890-=" ++ [8; 9] ++
   chars "qwertyui" ++
   chars "op[]" ++ [10; NO] ++ chars "as" ++
   chars "dfghjkl;" ++
   chars "'`" ++ [NO; 92] ++ chars "zxcv" ++
   chars "bnm,./" ++ [NO] ++ chars "*" ++
   [NO] ++ chars " " ++ [NO; NO; NO; NO; NO; NO] ++
   [NO; NO; NO; NO; NO; NO; NO] ++ chars "7" ++
   chars "89-456+1" ++
   chars "230." ++ [NO; NO; NO; NO])
  ((0x9C%nat, 10) :: (0xB5%nat, 47) :: moves).

Definition shiftmap : list Z := table
  ([NO; 0x1B] ++ chars "!@#$%^" ++
   chars "&*()_+" ++ [8; 9] ++
   chars "QWERTYUI" ++
   chars "OP{}" ++ [10; NO] ++ chars "AS" ++
   chars "DFGHJKL:" ++
   [34; 126; NO] ++ chars "|ZXCV" ++
   chars "BNM<>?" ++ [NO] ++ chars "*" ++
   [NO] ++ chars " " ++ [NO; NO; NO; NO; NO; NO] ++
   [NO; NO; NO; NO; NO; NO; NO] ++ chars "7" ++
   chars "89-456+1" ++
   chars "230." ++ [NO; NO; NO; NO])
  ((0x9C%nat, 10) :: (0xB5%nat, 47) :: moves).

(** [C(x)], a byte. *)
Definition kC (x : Z) : Z := u8 (x - 64).

Definition ctlmap : list Z := table
  (replicate 16 NO ++
   (kC <$> chars "QWERTYUI") ++
   (kC <$> chars "OP") ++ [NO; NO; 13; NO] ++ (kC <$> chars "AS") ++
   (kC <$> chars "DFGHJKL") ++ [NO] ++
   [NO; NO; NO; kC 92] ++ (kC <$> chars "ZXCV") ++
   (kC <$> chars "BNM") ++ [NO; NO; kC 47; NO; NO])
  ((0x9C%nat, 13) :: (0xB5%nat, kC 47) :: moves).

Definition charcode (i : Z) : list Z := nth (Z.to_nat i) [normalmap; shiftmap; ctlmap; ctlmap] [].
Definition byte_at (t : list Z) (i : Z) : Z := nth (Z.to_nat i) t 0.

(** ** kbdgetc *)

(** What [kbdgetc] does with the byte [data]: its result, and [shift]. *)
Definition kbd_code (shift data : Z) : Z * Z :=
  if data =? 0xE0 then (0, Z.lor shift E0ESC)
  else if has data 0x80 then
    let data := if has shift E0ESC then data else Z.land data 0x7F in
    (0, Z.land shift (Z.lnot (Z.lor (byte_at shiftcode data) E0ESC)))
  else
    let '(data, shift) := if has shift E0ESC then (Z.lor data 0x80, Z.land shift (Z.lnot E0ESC)) else (data, shift) in
    let shift := Z.lor shift (byte_at shiftcode data) in
    let shift := Z.lxor shift (byte_at togglecode data) in
    let c := byte_at (charcode (Z.land shift (Z.lor CTL SHIFT))) data in
    let c :=
      if has shift CAPSLOCK then
        if (97 <=? c) && (c <=? 122) then c + (65 - 97)
        else if (65 <=? c) && (c <=? 90) then c + (97 - 65)
        else c
      else c in
    (c, shift).

Section Kbd.
Context {D : Type} `{Ports D} `{Mmio D} {B : Type} {OPS : BufferOps B}.

Abbreviation S := (con D * fsys B)%type.
Abbreviation W := (Z * S)%type.

Definition lift_w {A} (m : K S A) : K W A := fun w =>
  match m w.2 with
  | Ok a s => Ok a (w.1, s)
  | Panic e s => Panic e (w.1, s)
  | Block c s => Block c (w.1, s)
  | NoFuel => NoFuel
  end.

(** The controller gives bytes. *)
Definition kbdgetc : K W Z :=
  let* st := lift_w (k_inb KBSTATP) in
  if negb (has st KBS_DIB) then kret (-1)
  else
    let* data := lift_w (k_inb KBDATAP) in
    let* shift := kgets fst in
    let '(c, shift') := kbd_code shift data in
    kmod (fun w => (shift', w.2)) ;;;
    kret c.

(** The loop of [consoleintr] (Console.v) over what [getc] gives. *)
Fixpoint intr_loop (gc : K W Z) (rows : list prow) (fuel : nat) : K W unit :=
  match fuel with
  | O => knofuel
  | Datatypes.S fuel' =>
      let* c := gc in
      if 0 <=? c then
        lift_w (input_char rows c) ;;;
        intr_loop gc rows fuel'
      else kret tt
  end.

Definition consoleintr_of (gc : K W Z) (rows : list prow) (fuel : nat) : K W unit :=
  lift_w (acquire lk_input) ;;;
  intr_loop gc rows fuel ;;;
  lift_w (release lk_input).

Definition kbdintr : list prow -> nat -> K W unit := consoleintr_of kbdgetc.
Definition uartintr : list prow -> nat -> K W unit := consoleintr_of (lift_w uartgetc).

(** ** uartinit and consoleinit *)

(** The functions in [devsw]. *)
Inductive devfn := consoleread_fn | consolewrite_fn.
Definition CONSOLE : Z := 1.

(** The variables of the interrupt controllers, without the devices; [devsw] as its two columns; the console. *)
Record cinit := Cinit { n_irq : irqst unit; n_read : Z -> option devfn; n_write : Z -> option devfn; n_con : S }.

Definition set_n_con (v : S) (s : cinit) : cinit := Cinit (n_irq s) (n_read s) (n_write s) v.

Definition lift_n {A} (m : K S A) : K cinit A := fun s =>
  match m (n_con s) with
  | Ok a c => Ok a (set_n_con c s)
  | Panic e c => Panic e (set_n_con c s)
  | Block ch c => Block ch (set_n_con c s)
  | NoFuel => NoFuel
  end.

Definition with_dev {X Y} (d : Y) (q : irqst X) : irqst Y := Irqst (q_mask q) (q_ismp q) (q_ioapicid q) (q_lapic q) (q_n q) d (q_msgs q).

Definition lift_q {A} (m : K (irqst D) A) : K cinit A := fun s =>
  let back q := Cinit (with_dev tt q) (n_read s) (n_write s) (set_dev (q_dev q) (n_con s).1, (n_con s).2) in
  match m (with_dev (c_dev (n_con s).1) (n_irq s)) with
  | Ok a q => Ok a (back q)
  | Panic e q => Panic e (back q)
  | Block ch q => Block ch (back q)
  | NoFuel => NoFuel
  end.

Definition set_uart (c : con D) : con D := Con (c_panicked c) (c_locking c) true (c_buf c) (c_r c) (c_w c) (c_e c) (c_wakeups c) (c_crt c) (c_dev c).

Definition uartinit : K cinit unit :=
  lift_n (k_outb (COM1 + 2) 0) ;;;
  lift_n (k_outb (COM1 + 3) 0x80) ;;;
  lift_n (k_outb (COM1 + 0) (115200 / 9600)) ;;;
  lift_n (k_outb (COM1 + 1) 0) ;;;
  lift_n (k_outb (COM1 + 3) 0x03) ;;;
  lift_n (k_outb (COM1 + 4) 0) ;;;
  lift_n (k_outb (COM1 + 1) 0x01) ;;;
  let* st := lift_n (k_inb (COM1 + 5)) in
  if st =? 0xFF then kret tt
  else
    lift_n (setc set_uart) ;;;
    lift_n (k_inb (COM1 + 2)) ;;;
    lift_n (k_inb (COM1 + 0)) ;;;
    lift_q (picenable IRQ_COM1) ;;;
    lift_q (ioapicenable IRQ_COM1 0) ;;;
    lift_n (for_each (chars "xv6..." ++ [10]) uartputc).

Definition consoleinit : K cinit unit :=
  kmod (fun s => Cinit (n_irq s) (n_read s) (fun m => if m =? CONSOLE then Some consolewrite_fn else n_write s m) (n_con s)) ;;;
  kmod (fun s => Cinit (n_irq s) (fun m => if m =? CONSOLE then Some consoleread_fn else n_read s m) (n_write s) (n_con s)) ;;;
  lift_n (setc (set_locking true)) ;;;
  lift_q (picenable IRQ_KBD) ;;;
  lift_q (ioapicenable IRQ_KBD 0).
End Kbd.
