(* ===== verification/KbdSpec.v ===== *)
(** * From keys to lines

    [decode] is what [kbdgetc] makes of a sequence of scan codes.  [strokes] are the
    codes a US keyboard sends for a character, written down from its layout and not from the driver's tables.  Text that is
    typed on it is decoded to itself, and the interrupt handler puts it on the line a reader gets. *)

From S2P Require Import Prelude Proc Bio BufferCache Bytes Log Fs Ports Printf Console ConsoleSpec ConsoleSys Kbd.

(** ** Scan codes *)

Fixpoint decode (shift : Z) (codes : list Z) : list Z * Z :=
  match codes with
  | [] => ([], shift)
  | data :: codes' =>
      let '(c, shift1) := kbd_code shift data in
      let '(cs, shift2) := decode shift1 codes' in (c :: cs, shift2)
  end.

Lemma decode_app shift l1 : forall l2, decode shift (l1 ++ l2) = ((decode shift l1).1 ++ (decode (decode shift l1).2 l2).1, (decode (decode shift l1).2 l2).2).
Proof.
  revert shift. induction l1 as [|x l1 IH]; intros shift l2; cbn [app decode fst snd]; [by destruct (decode shift l2)|].
  destruct (kbd_code shift x) as [c sh]. rewrite IH. by destruct (decode sh l1) as [cs sh'].
Qed.

(** The keyboard, which is not part of the program: the rows of the main block of a US keyboard, each with the scan code (set 1) of its first key, what is printed on its keys, and what is printed above it. *)
Definition us_rows : list (Z * list Z * list Z) :=
  [(0x02, chars "1234567890-=", chars "!@#$%^&*()_+");
   (0x10, chars "qwertyuiop[]", chars "QWERTYUIOP{}");
   (0x1E, chars "asdfghjkl;'`", chars "ASDFGHJKL:" ++ [34] ++ chars "~");
   (0x2B, chars "\zxcvbnm,./", chars "|ZXCVBNM<>?");
   (0x39, chars " ", chars " ")].

(** A key: its scan code, its character, and its character with shift. *)
Definition us_keys : list (Z * (Z * Z)) := concat ((fun r => zip (seqZ r.1.1 (Z.of_nat (length r.1.2))) (zip r.1.2 r.2)) <$> us_rows).

(** The keys with a name: escape, backspace, tab and return. *)
Definition us_named : list (Z * Z) := [(0x01, 27); (0x0E, 8); (0x0F, 9); (0x1C, 10)].

Definition left_shift : Z := 0x2A.
Definition left_ctrl : Z := 0x1D.

(** A key is pressed and released, or held while other keys are used. *)
Definition press (k : Z) : list Z := [k; k + 0x80].
Definition holding (m : Z) (l : list Z) : list Z := [m] ++ l ++ [m + 0x80].

(** The codes of a character: its key, with shift when it is printed above another one; a control character without a key of its own is control with the key of the character 64, or for a letter 96, places above it. *)
Definition strokes (c : Z) : list Z :=
  match find (fun kc => kc.2.1 =? c) us_keys, find (fun kc => kc.2.2 =? c) us_keys, find (fun kc => kc.2 =? c) us_named,
        find (fun kc => (c <? 32) && ((kc.2.1 =? c + 64) || (kc.2.1 =? c + 96))) us_keys with
  | Some (k, _), _, _, _ => press k
  | None, Some (k, _), _, _ => holding left_shift (press k)
  | None, None, Some (k, _), _ => press k
  | None, None, None, Some (k, _) => holding left_ctrl (press k)
  | None, None, None, None => []
  end.

(** Every ASCII character except the delete character and three control characters has a key. *)
Definition typeable (c : Z) : bool := (0 <? c) && (c <? 127) && negb (bool_decide (c ∈ [29; 30; 31])).

(** Caps lock swaps the cases of the letters. *)
Definition swap_case (c : Z) : Z := if (97 <=? c) && (c <=? 122) then c - 32 else if (65 <=? c) && (c <=? 90) then c + 32 else c.

Definition shown (cs : list Z) : list Z := filter (fun c => c <> 0) cs.

(** One character, in the two states of the lock. *)
Definition stroke_ok (c : Z) : bool :=
  negb (typeable c) ||
  (bool_decide (shown (decode 0 (strokes c)).1 = [c]) && ((decode 0 (strokes c)).2 =? 0) &&
   bool_decide (shown (decode CAPSLOCK (strokes c)).1 = [swap_case c]) && ((decode CAPSLOCK (strokes c)).2 =? CAPSLOCK)).

Lemma strokes_ok : forallb stroke_ok (seqZ 0 128) = true.
Proof. vm_compute. reflexivity. Qed.

Lemma stroke_decodes c : typeable c = true -> shown (decode 0 (strokes c)).1 = [c] /\ (decode 0 (strokes c)).2 = 0 /\
  shown (decode CAPSLOCK (strokes c)).1 = [swap_case c] /\ (decode CAPSLOCK (strokes c)).2 = CAPSLOCK.
Proof.
  intros Ht. assert (Hr : 0 <= c < 128) by (unfold typeable in Ht; rewrite !andb_true_iff, !Z.ltb_lt in Ht; lia).
  pose proof (proj1 (forallb_forall _ _) strokes_ok c) as H. assert (Hin : In c (seqZ 0 128)) by (apply list_elem_of_In, elem_of_seqZ; lia). specialize (H Hin).
  unfold stroke_ok in H. rewrite Ht in H. cbn [negb orb] in H. rewrite !andb_true_iff, !Z.eqb_eq, !bool_decide_eq_true in H. tauto.
Qed.

Lemma shown_app l1 l2 : shown (l1 ++ l2) = shown l1 ++ shown l2.
Proof. apply filter_app. Qed.

Lemma decode_typed (text : list Z) : Forall (fun c => typeable c = true) text ->
  (let '(cs, sh) := decode 0 (concat (strokes <$> text)) in shown cs = text /\ sh = 0) /\
  (let '(cs, sh) := decode CAPSLOCK (concat (strokes <$> text)) in shown cs = swap_case <$> text /\ sh = CAPSLOCK).
Proof.
  induction text as [|c text IH]; intros Hf; [done|]. apply Forall_cons in Hf as (Hc & Hf). destruct (stroke_decodes c Hc) as (E1 & E2 & E3 & E4). specialize (IH Hf).
  cbn [fmap list_fmap concat]. rewrite !decode_app, E2, E4. destruct (decode 0 (concat (strokes <$> text))) as [cs sh], (decode CAPSLOCK (concat (strokes <$> text))) as [cs' sh'].
  cbn [fst snd]. rewrite !shown_app, E1, E3. destruct IH as ((-> & ->) & (-> & ->)). done.
Qed.

Lemma decode_text (text : list Z) : Forall (fun c => typeable c = true) text -> let '(cs, sh) := decode 0 (concat (strokes <$> text)) in shown cs = text /\ sh = 0.
Proof. intros Hf. by destruct (decode_typed text Hf). Qed.

(** What is typed is what is read: the scan codes a US keyboard sends for a text, each key pressed and released with shift or control where the character needs it, are decoded to that text, and with caps lock on to the text with the cases of
    its letters swapped; the state of the keys is then as before. *)
Theorem kbd_types_text (text : list Z) : Forall (fun c => typeable c = true) text ->
  (let '(cs, sh) := decode 0 (concat (strokes <$> text)) in shown cs = text /\ sh = 0) /\
  (let '(cs, sh) := decode CAPSLOCK (concat (strokes <$> text)) in shown cs = swap_case <$> text /\ sh = CAPSLOCK).
Proof. apply decode_typed. Qed.

Lemma kbd_types_text_witness : shown (decode 0 (concat (strokes <$> chars "ls | wc"))).1 = chars "ls | wc".
Proof.
  destruct (kbd_types_text (chars "ls | wc")) as (E & _); [by repeat (apply Forall_cons; split; [reflexivity|])|].
  destruct (decode 0 (concat (strokes <$> chars "ls | wc"))) as [cs sh] eqn:Ed. exact (proj1 E).
Defined.

(** The home key, an escape and the code of the 7 of the keypad, has no entry: the tables have [KEY_HOME] at another place. *)
Lemma home_key_lost : (decode 0 [0xE0; 0x47]).1 = [0; 0] /\ (decode 0 [0xE0; 0x48]).1 = [0; KEY_UP] /\ (decode 0 [0xE0; 0x4F]).1 = [0; KEY_END].
Proof. vm_compute. done. Qed.

(** Both shift keys share a bit: with one of them still held, the release of the other ends the shift. *)
Lemma two_shifts : (decode 0 [0x2A; 0x36; 0xB6; 0x1E]).1 = [0; 0; 0; 97].
Proof. vm_compute. done. Qed.

(** ** The interrupt *)

(** The keyboard controller: the scan codes that wait.  Only its data port takes one, and reading it does not concern the screen. *)
Class Keyboard (D : Type) `{Ports D} `{!Crtc D} := {
  kb_codes : D -> list Z;
  kb_status : forall d, exists st d', inb KBSTATP d = (st, d') /\ kb_codes d' = kb_codes d /\ same_regs d d' /\ has st KBS_DIB = negb (bool_decide (kb_codes d = []));
  kb_data : forall d c q, kb_codes d = c :: q -> exists d', inb KBDATAP d = (c, d') /\ kb_codes d' = q /\ same_regs d d';
  kb_in : forall p d, p <> KBDATAP -> kb_codes (inb p d).2 = kb_codes d;
  kb_out : forall p v d, kb_codes (outb p v d) = kb_codes d
}.

(** The characters are bytes. *)
Lemma byte_at_range t i : Forall (fun v => 0 <= v < 256) t -> 0 <= byte_at t i < 256.
Proof. intros Hf. unfold byte_at. rewrite nth_lookup. destruct (t !! Z.to_nat i) eqn:E; cbn; [by eapply Forall_lookup_1 in Hf|lia]. Qed.

Lemma charcode_range i : Forall (fun v => 0 <= v < 256) (charcode i).
Proof.
  assert (Hb : forall t, forallb (fun v => (0 <=? v) && (v <? 256)) t = true -> Forall (fun v => 0 <= v < 256) t).
  { intros t Ht. apply Forall_forall. intros v Hv. apply (proj1 (forallb_forall _ _)) with (x := v) in Ht; [|by apply list_elem_of_In]. rewrite andb_true_iff, Z.leb_le, Z.ltb_lt in Ht. done. }
  apply Hb. unfold charcode. destruct (Z.to_nat i) as [|[|[|[|[|]]]]]; vm_compute; reflexivity.
Qed.

Lemma kbd_code_range shift data : 0 <= (kbd_code shift data).1 < 256.
Proof.
  unfold kbd_code. destruct (data =? 0xE0); [cbn; lia|]. destruct (has data 0x80); [cbn; lia|]. destruct (if has shift E0ESC then _ else _) as [data1 shift1]. cbn zeta. cbn [fst].
  set (sh := Z.lxor _ _). pose proof (byte_at_range (charcode (Z.land sh (Z.lor CTL SHIFT))) data1 (charcode_range _)) as Hc. revert Hc. generalize (byte_at (charcode (Z.land sh (Z.lor CTL SHIFT))) data1) as c. intros c Hc.
  destruct (has sh CAPSLOCK); [|done]. destruct ((97 <=? c) && (c <=? 122)) eqn:E1; [rewrite andb_true_iff, !Z.leb_le in E1; lia|]. destruct ((65 <=? c) && (c <=? 90)) eqn:E2; [rewrite andb_true_iff, !Z.leb_le in E2; lia|done].
Qed.

Lemma decode_range codes : forall shift, Forall (fun c => 0 <= c < 256) (decode shift codes).1.
Proof.
  induction codes as [|x codes IH]; intros shift; cbn [decode]; [constructor|]. pose proof (kbd_code_range shift x) as Hc. destruct (kbd_code shift x) as [c sh]. specialize (IH sh).
  destruct (decode sh codes). by constructor.
Qed.

Section Intr.
Context {D : Type} {PO : Ports D} {CR : Crtc D} {KB : Keyboard D} {B : Type} {OPS : BufferOps B}.
Implicit Types s : con D * fsys B.

Definition codes_of s : list Z := kb_codes (c_dev s.1).

(** Code that does not read the data port leaves the scan codes there. *)
Definition leaves {A} (m : K (con D * fsys B) A) : Prop := forall s, match m s with Ok _ s' => codes_of s' = codes_of s | _ => True end.

Lemma leaves_bind {A C} (m : K _ A) (k : A -> K _ C) : leaves m -> (forall a, leaves (k a)) -> leaves (kbind m k).
Proof. intros Hm Hk s. unfold kbind. specialize (Hm s). destruct (m s) as [a s1| | |]; try done. specialize (Hk a s1). destruct (k a s1); congruence. Qed.

Lemma leaves_ret {A} (a : A) : leaves (kret a).
Proof. done. Qed.

Lemma leaves_getc {A} (f : con D -> A) : leaves (getc f).
Proof. done. Qed.

Lemma leaves_panic {A} e : leaves (kpanic (A := A) e).
Proof. done. Qed.

Lemma leaves_nofuel {A} : leaves (knofuel (A := A)).
Proof. done. Qed.

Lemma leaves_setc f : (forall c, c_dev (f c) = c_dev c) -> leaves (setc f).
Proof. intros Hf s. cbn. unfold codes_of. cbn. by rewrite Hf. Qed.

Lemma leaves_outb p v : leaves (k_outb p v).
Proof. intros s. cbn. unfold codes_of. cbn. apply kb_out. Qed.

Lemma leaves_inb p : p <> KBDATAP -> leaves (k_inb p).
Proof. intros Hp s. unfold k_inb. pose proof (kb_in p (c_dev s.1) Hp) as E. destruct (inb p (c_dev s.1)). done. Qed.

Lemma leaves_for_each {X} (l : list X) f : (forall x, leaves (f x)) -> leaves (for_each l f).
Proof. intros Hf. induction l; cbn [for_each]; [apply leaves_ret|by apply leaves_bind]. Qed.

Lemma leaves_acquire lk : leaves (acquire lk).
Proof. intros s. unfold acquire, kbind, kget. by case_decide. Qed.

Lemma leaves_release lk : leaves (release lk).
Proof. intros s. unfold release, kbind, kget. by case_decide. Qed.
End Intr.

(** Goes through the code. *)
Ltac leaves_tac :=
  repeat match goal with
  | |- leaves (kbind _ _) => apply leaves_bind; [|intros ?]
  | |- leaves (kret _) => apply leaves_ret
  | |- leaves (getc _) => apply leaves_getc
  | |- leaves (kpanic _) => apply leaves_panic
  | |- leaves knofuel => apply leaves_nofuel
  | |- leaves (setc _) => apply leaves_setc; intros ?; reflexivity
  | |- leaves (k_outb _ _) => apply leaves_outb
  | |- leaves (k_inb _) => apply leaves_inb; vm_compute; congruence
  | |- leaves (for_each _ _) => apply leaves_for_each; intros ?
  | |- leaves (acquire _) => apply leaves_acquire
  | |- leaves (release _) => apply leaves_release
  | |- leaves (if ?b then _ else _) => destruct b
  | |- leaves (match ?x with _ => _ end) => destruct x
  | H : _ |- _ => apply H
  end.

Section KbdIntr.
Context {D : Type} {PO : Ports D} {MM : Irq.Mmio D} {CR : Crtc D} {KB : Keyboard D} {B : Type} {OPS : BufferOps B}.
Implicit Types s : con D * fsys B.

Lemma leaves_uart_wait n : leaves (D := D) (B := B) (uart_wait n).
Proof. induction n; cbn [uart_wait]; leaves_tac. Qed.

Lemma leaves_uartputc c : leaves (D := D) (B := B) (uartputc c).
Proof. unfold uartputc. leaves_tac. apply leaves_uart_wait. Qed.

Lemma leaves_crt_store i v : leaves (D := D) (B := B) (crt_store i v).
Proof. unfold crt_store. leaves_tac. Qed.

Lemma leaves_consputc c : leaves (D := D) (B := B) (consputc c).
Proof. unfold consputc, cgaputc, cga_at. pose proof leaves_uartputc. pose proof leaves_crt_store. leaves_tac. Qed.

Lemma leaves_printint xx base sign : leaves (D := D) (B := B) (con_printint xx base sign).
Proof. unfold con_printint. pose proof leaves_consputc. leaves_tac. Qed.

Lemma leaves_cprintf_loop fmt : forall args, leaves (D := D) (B := B) (cprintf_loop fmt args).
Proof.
  induction fmt as [fmt IH] using (induction_ltof1 _ (@length Z)). unfold ltof in IH. intros args. pose proof leaves_consputc. pose proof leaves_printint.
  destruct fmt as [|c fmt]; cbn [cprintf_loop]; [apply leaves_ret|]. assert (H1 : forall args, leaves (D := D) (B := B) (cprintf_loop fmt args)) by (apply IH; cbn; lia).
  destruct fmt as [|c' fmt']; [leaves_tac|]. assert (H2 : forall args, leaves (D := D) (B := B) (cprintf_loop fmt' args)) by (apply IH; cbn; lia). clear IH. leaves_tac.
Qed.

Lemma leaves_cprintf fmt args : leaves (D := D) (B := B) (cprintf fmt args).
Proof. unfold cprintf. pose proof leaves_cprintf_loop. leaves_tac. Qed.

Lemma leaves_kill_line n : leaves (D := D) (B := B) (kill_line n).
Proof. pose proof leaves_consputc. induction n; cbn [kill_line]; unfold set_e; leaves_tac. Qed.

Lemma leaves_input_char rows c : leaves (D := D) (B := B) (input_char rows c).
Proof. unfold input_char, procdump, set_e. pose proof leaves_consputc. pose proof leaves_cprintf. pose proof leaves_kill_line. leaves_tac. Qed.

(** ** Typing *)

Lemma runs_leaves {A} (m : K (con D * fsys B) A) s Q : runs m s Q -> leaves m -> runs m s (fun a s' => Q a s' /\ codes_of s' = codes_of s).
Proof. intros Hr Hl. specialize (Hl s). unfold runs in *. destruct (m s); done. Qed.

Lemma lift_w_runs {A} (m : K (con D * fsys B) A) sh s Q : runs m s Q -> runs (lift_w m) (sh, s) (fun a w => w.1 = sh /\ Q a w.2).
Proof. unfold runs, lift_w. cbn. destruct (m s); done. Qed.

(** Reading the keyboard does not concern the terminal. *)
Lemma polled_steps s l d' : terminal s l -> same_regs (c_dev s.1) d' -> stepped s (Console.set_dev d' s.1, s.2) l false.
Proof.
  intros [T1 T2] Hr. split; [|done]. split; [|by eapply input_rep_eq]. destruct T1. constructor; cbn; try done. by rewrite (cursor_same _ _ Hr).
Qed.

Lemma kbdgetc_some sh s l x q : terminal s l -> codes_of s = x :: q ->
  runs kbdgetc (sh, s) (fun c w => c = (kbd_code sh x).1 /\ w.1 = (kbd_code sh x).2 /\ codes_of w.2 = q /\ stepped s w.2 l false).
Proof.
  intros T Hq. unfold kbdgetc, codes_of in *. apply runs_bind. unfold runs at 1, lift_w at 1, k_inb at 1. cbn [snd fst].
  destruct (kb_status (c_dev s.1)) as (st & d1 & E1 & C1 & R1 & S1). rewrite E1, S1, Hq. cbn [negb]. apply runs_bind. unfold runs at 1, lift_w at 1, k_inb at 1. cbn [snd fst c_dev Console.set_dev].
  rewrite Hq in C1. destruct (kb_data d1 x q C1) as (d2 & E2 & C2 & R2). rewrite E2. apply runs_bind, runs_gets. cbn [fst snd]. destruct (kbd_code sh x) as [c sh']. apply runs_bind, runs_mod, runs_ret.
  split; [done|]. split; [done|]. split; [done|]. cbn [fst snd]. change (Console.set_dev d2 (Console.set_dev d1 s.1)) with (Console.set_dev d2 s.1). apply polled_steps; [done|].
  unfold same_regs in *. destruct R1 as (A1 & A2), R2 as (B1 & B2). split; [congruence|]. intros i. by rewrite B2, A2.
Qed.

Lemma kbdgetc_none sh s l : terminal s l -> codes_of s = [] -> runs kbdgetc (sh, s) (fun c w => c = -1 /\ w.1 = sh /\ codes_of w.2 = [] /\ stepped s w.2 l false).
Proof.
  intros T Hq. unfold kbdgetc, codes_of in *. apply runs_bind. unfold runs at 1, lift_w at 1, k_inb at 1. cbn [snd fst].
  destruct (kb_status (c_dev s.1)) as (st & d1 & E1 & C1 & R1 & S1). rewrite E1, S1, Hq. cbn [negb]. apply runs_ret. cbn [fst snd]. split; [done|]. split; [done|]. split; [cbn; congruence|]. by apply polled_steps.
Qed.

Lemma kbd_loop_runs rows codes : forall fuel sh s l, (length codes < fuel)%nat -> terminal s l -> lk_cons ∉ held s.2 -> codes_of s = codes ->
  runs (intr_loop kbdgetc rows fuel) (sh, s) (fun _ w => let '(cs, sh') := decode sh codes in w.1 = sh' /\ stepped s w.2 (keys cs l).1 (keys cs l).2 /\ codes_of w.2 = []).
Proof.
  induction codes as [|x codes IH]; intros [|fuel] sh s l Hf T Hl Hc; try (cbn in Hf; lia); cbn [intr_loop decode].
  - apply runs_bind. eapply runs_conseq; [by apply (kbdgetc_none sh s l)|]. intros ? w (-> & E1 & E2 & S1). apply runs_ret. done.
  - apply runs_bind. eapply runs_conseq; [by apply (kbdgetc_some sh s l)|]. intros ? [sh1 s1] (-> & E1 & E2 & S1). cbn [fst snd] in E1, E2, S1.
    pose proof (kbd_code_range sh x) as Hr. destruct (kbd_code sh x) as [c sh']. cbn [fst snd] in *. subst sh1. rewrite (proj2 (Z.leb_le _ _)) by lia.
    destruct S1 as (T1 & F1 & W1). apply runs_bind. eapply runs_conseq; [eapply lift_w_runs, runs_leaves, leaves_input_char; apply (input_char_runs rows s1 l c); [done|by rewrite F1|lia]|].
    intros ? [sh2 s2] (E3 & S2 & E4). cbn [fst snd] in *. subst sh2. assert (S2' : stepped s s2 (key c l).1 (key c l).2) by (apply (stepped_trans s s1 s2 l _ false); [done|done]).
    eapply runs_conseq; [apply (IH fuel sh' s2 (key c l).1); [cbn in Hf; lia|apply S2|by rewrite (proj1 (proj2 S2')) |congruence]|].
    cbn beta. intros ? w Hw. destruct (decode sh' codes) as [cs sh3]. destruct Hw as (E5 & S3 & E6). split; [done|]. split; [|done].
    cbn [keys]. destruct (key c l) as [l1 b1]. cbn [fst snd] in *. pose proof (stepped_trans _ _ _ _ _ _ _ S2' S3) as S. by destruct (keys cs l1).
Qed.

Lemma kbdintr_runs rows fuel sh s l : (length (codes_of s) < fuel)%nat -> terminal s l -> lk_cons ∉ held s.2 -> lk_input ∉ held s.2 ->
  runs (kbdintr rows fuel) (sh, s) (fun _ w => let '(cs, sh') := decode sh (codes_of s) in w.1 = sh' /\ stepped s w.2 (keys cs l).1 (keys cs l).2 /\ codes_of w.2 = []).
Proof.
  intros Hf T Hl Hi. unfold kbdintr, consoleintr_of. apply runs_bind. eapply runs_eq; [unfold lift_w; cbn [snd fst]; rewrite acquire_ok by done; reflexivity|]. cbn [fst snd].
  set (s1 := set_held (lk_input :: held s) s). apply runs_bind. eapply runs_conseq; [apply (kbd_loop_runs rows (codes_of s) fuel sh s1 l); [done|by destruct T| |done]|].
  { change (held s1.2) with (held s1). unfold s1. rewrite held_set_held. set_solver. }
  intros ? [sh2 s2] Hw. cbn [fst snd] in Hw. destruct (decode sh (codes_of s)) as [cs sh']. destruct Hw as (-> & (T2 & F2 & W2) & E2).
  assert (Eh : held s2 = lk_input :: held s) by (change (held s2) with (held s2.2); rewrite F2; change (held s1.2) with (held s1); unfold s1; by rewrite held_set_held).
  eapply runs_eq; [unfold lift_w; cbn [snd fst]; rewrite release_ok by (rewrite Eh; left); reflexivity|]. cbn [fst snd]. rewrite Eh, remove_lock_cons by done. split; [done|].
  assert (Es : (set_held (held s) s2).2 = s.2) by (change (set_held (held s.2) s2.2 = s.2); rewrite F2; change s1.2 with (set_held (lk_input :: held s.2) s.2); by rewrite set_held_set_held, set_held_held). split; [|done]. split; [by destruct T2|]. split; [done|]. exact W2.
Qed.

(** Zeros are not characters. *)
Lemma keys_shown cs : forall l, keys cs l = keys (shown cs) l.
Proof.
  induction cs as [|c cs IH]; intros l; [done|]. unfold shown. cbn [keys]. rewrite filter_cons. destruct (decide (c <> 0)) as [Hc|Hc].
  - cbn [keys]. destruct (key c l). by rewrite IH.
  - assert (c = 0) as -> by (by destruct (decide (c = 0))). change (key 0 l) with (l, false). cbn match. rewrite IH. unfold shown. by destruct (keys _ l).
Qed.

(** C28: A line typed at the keyboard reaches the reader: when the scan codes a US keyboard sends for a text (at most 126 characters, every one on the keyboard and none an editing key of the console or an end of line) and then for the return key wait in the controller, and the console has no input pending, one run of [kbdintr] leaves exactly that text and a newline for the next read, takes all codes and wakes
    the readers. *)
Theorem kbd_types_line rows fuel s (text : list Z) : con_rel s (Line [] []) -> codes_of s = concat (strokes <$> (text ++ [nl])) -> (length (codes_of s) < fuel)%nat ->
  plain text -> Forall (fun c => typeable c = true) text -> (length text <= 126)%nat ->
  runs (kbdintr rows fuel) (0, s) (fun _ w => w.1 = 0 /\ con_rel w.2 (Line (text ++ [nl]) []) /\ codes_of w.2 = [] /\ (c_wakeups s.1 < c_wakeups w.2.1)%nat).
Proof.
  intros (T & H1 & H2) Hc Hf Hp Ht Hl. eapply runs_conseq; [by apply (kbdintr_runs rows fuel 0 s (Line [] []))|]. cbn beta. intros ? w Hw. rewrite Hc in Hw.
  assert (Hall : Forall (fun c => typeable c = true) (text ++ [nl])) by (apply Forall_app; split; [done|]; by apply Forall_singleton).
  pose proof (decode_text (text ++ [nl]) Hall) as E. destruct (decode 0 (concat (strokes <$> text ++ [nl]))) as [cs sh]. destruct E as (Ecs & ->). destruct Hw as (E1 & (T2 & F2 & W2) & E2).
  rewrite keys_shown, Ecs, keys_app, (keys_plain text (Line [] [])) in T2, W2 by (done || (cbn; lia)). cbn [fst snd app l_done l_edit] in T2, W2.
  assert (Ek : keys [nl] (Line [] text) = (Line (text ++ [nl]) [], true)) by (cbn [keys]; change (key nl (Line [] text)) with (if (128 <=? length text)%nat then (Line [] text, false) else (Line (text ++ [nl]) [], true)); by rewrite (proj2 (Nat.leb_gt _ _)) by lia).
  rewrite Ek in T2, W2. split; [done|]. split; [|done]. split; [exact T2|]. by rewrite F2.
Qed.
End KbdIntr.

(** ** The machine of ConsoleSys.v with a keyboard *)

Record toyk := Toyk { tk_toy : toy; tk_codes : list Z }.

#[global] Instance toyk_ports : Ports toyk := {|
  inb := fun p d =>
    if p =? KBSTATP then (if bool_decide (tk_codes d = []) then 0 else 1, d)
    else if p =? KBDATAP then (nth 0 (tk_codes d) 0, Toyk (tk_toy d) (tail (tk_codes d)))
    else let '(v, t) := inb p (tk_toy d) in (v, Toyk t (tk_codes d));
  outb := fun p v d => Toyk (outb p v (tk_toy d)) (tk_codes d);
  insl := fun _ n d => (replicate n 0, d);
  outsl := fun _ _ d => d
|}.

#[global] Instance toyk_crtc : Crtc toyk.
Proof.
  refine {| crtc_sel := fun d => crtc_sel (tk_toy d); crtc_reg := fun d => crtc_reg (tk_toy d) |}.
  - by intros [t q].
  - intros d v. apply (crtc_select (tk_toy d)).
  - intros d v. apply (crtc_out (tk_toy d)).
  - intros d p Hp. unfold COM1 in Hp. cbn -[crtc_reg crtc_sel]. rewrite (proj2 (Z.eqb_neq p KBSTATP)), (proj2 (Z.eqb_neq p KBDATAP)) by (unfold KBSTATP, KBDATAP; lia). done.
  - intros d p v Hp. apply (crtc_serial_out (tk_toy d)), Hp.
  - intros d i. apply (crtc_byte (tk_toy d)).
Defined.

#[global] Instance toyk_keyboard : Keyboard toyk.
Proof.
  refine {| kb_codes := tk_codes |}.
  - intros d. eexists _, _. split; [reflexivity|]. split; [done|]. split; [done|]. by case_bool_decide.
  - intros d c q E. eexists. split; [cbn; rewrite E; reflexivity|]. done.
  - intros p d Hp. cbn. destruct (p =? KBSTATP); [done|]. rewrite (proj2 (Z.eqb_neq _ _)) by done. done.
  - done.
Defined.

#[global] Instance toyk_mmio : Irq.Mmio toyk := {| Irq.mmio_read _ d := (0, d); Irq.mmio_write _ _ d := d; Irq.mmio_write16 _ _ d := d |}.

(** [ls] and the return key. *)
Definition toyk_state : con toyk * fsys bst :=
  (Con false true true (replicate 128 0) 0 0 0 0 (replicate (Z.to_nat CELLS) 1792) (Toyk (Toy 14 (fun _ => 0)) (concat (strokes <$> (chars "ls" ++ [nl])))), toy_state.2).

Lemma toyk_rel : con_rel toyk_state (Line [] []).
Proof.
  assert (E : held toyk_state.2 = []) by reflexivity. unfold con_rel. rewrite E. split; [|split; apply not_elem_of_nil].
  split; [split; [done|by vm_compute|by split; vm_compute]|]. split; [|done|set_solver].
  split; cbn; try done; lia.
Qed.

Lemma kbd_types_line_witness : runs (kbdintr [] 10) (0, toyk_state) (fun _ w => con_rel w.2 (Line (chars "ls" ++ [nl]) [])).
Proof.
  eapply runs_conseq; [apply (kbd_types_line [] 10 toyk_state (chars "ls"))|].
  - apply toyk_rel.
  - reflexivity.
  - vm_compute. lia.
  - unfold plain. repeat (apply Forall_cons; split; [split; [vm_compute; split; congruence|apply (bool_decide_unpack _); vm_compute; exact I]|]). constructor.
  - by repeat (apply Forall_cons; split; [reflexivity|]).
  - vm_compute. lia.
  - intros ? w (_ & R & _). exact R.
Defined.
