(* ===== verification/Bootmain.v ===== *)
(** * The boot loader: bootmain.c

    [t_mem] is the physical memory and [t_dev] the devices.  [bootmain] returns, for bootasm.S to report an error, or jumps to the entry
    of the kernel.  [polls] bounds the reads of the status register in [waitdisk].  The theorem is about any disk with
    the laws of [IdeDisk] (IdeSpec.v): the segments of the kernel are in memory when it is entered. *)

From S2P Require Import Prelude CString Mmu Ports Irq Mp Ide IdeSpec.

Definition SECTSIZE : Z := 512.
Definition BOOT_ELF_MAGIC : Z := 0x464C457F.
Definition boot_elf : Z := 0x10000.

Record bt (D : Type) := Bt { t_mem : mem; t_dev : D }.
Arguments Bt {D}.
Arguments t_mem {D}.
Arguments t_dev {D}.

Section Bootmain.
Context {D : Type} `{Ports D}.
Variable polls : nat.

Definition t_inb (p : Z) : K (bt D) Z := fun s => let (v, d) := inb p (t_dev s) in Ok v (Bt (t_mem s) d).
Definition t_outb (p v : Z) : K (bt D) unit := kmod (fun s => Bt (t_mem s) (outb p (u8 v) (t_dev s))).

(** Bytes stored one after the other. *)
Fixpoint st_list (m : mem) (a : Z) (l : list Z) : mem :=
  match l with
  | [] => m
  | x :: l' => st_list (st m a x) (a + 1) l'
  end.

Definition t_insl (p dst : Z) (n : nat) : K (bt D) unit := fun s => let (l, d) := insl p n (t_dev s) in Ok tt (Bt (st_list (t_mem s) dst l) d).

Fixpoint waitdisk_loop (fuel : nat) : K (bt D) unit :=
  match fuel with
  | O => knofuel
  | S fuel' =>
      let* r := t_inb 0x1F7 in
      if Z.land r 0xC0 =? 0x40 then kret tt else waitdisk_loop fuel'
  end.

Definition waitdisk : K (bt D) unit := waitdisk_loop polls.

Definition readsect (dst offset : Z) : K (bt D) unit :=
  waitdisk ;;;
  t_outb 0x1F2 1 ;;;
  t_outb 0x1F3 offset ;;;
  t_outb 0x1F4 (Z.shiftr offset 8) ;;;
  t_outb 0x1F5 (Z.shiftr offset 16) ;;;
  t_outb 0x1F6 (Z.lor (Z.shiftr offset 24) 0xE0) ;;;
  t_outb 0x1F7 0x20 ;;;
  waitdisk ;;;
  t_insl 0x1F0 dst 128.

Fixpoint readseg_loop (pa epa offset : Z) (fuel : nat) : K (bt D) unit :=
  match fuel with
  | O => knofuel
  | S fuel' =>
      if pa <? epa then
        readsect pa offset ;;;
        readseg_loop (u32 (pa + SECTSIZE)) epa (u32 (offset + 1)) fuel'
      else kret tt
  end.

(** The loop runs once for each sector between [pa] and [epa]. *)
Definition readseg (pa count offset : Z) : K (bt D) unit :=
  let epa := u32 (pa + count) in
  let pa := u32 (pa - offset mod SECTSIZE) in
  let offset := u32 (offset / SECTSIZE + 1) in
  readseg_loop pa epa offset (S (S (Z.to_nat ((epa - pa) / SECTSIZE)))).

(** One turn for each program header. *)
Fixpoint load_loop (ph eph : Z) (fuel : nat) : K (bt D) unit :=
  match fuel with
  | O => knofuel
  | S fuel' =>
      if ph <? eph then
        let* pa := kgets (fun s => ld32 (t_mem s) (ph + 12)) in
        let* filesz := kgets (fun s => ld32 (t_mem s) (ph + 16)) in
        let* off := kgets (fun s => ld32 (t_mem s) (ph + 4)) in
        readseg pa filesz off ;;;
        let* memsz := kgets (fun s => ld32 (t_mem s) (ph + 20)) in
        let* filesz := kgets (fun s => ld32 (t_mem s) (ph + 16)) in
        (when filesz <? memsz do kmod (fun s => Bt (stosb (t_mem s) (u32 (pa + filesz)) 0 (Z.to_nat (memsz - filesz))) (t_dev s))) ;;;
        load_loop (u32 (ph + 32)) eph fuel'
      else kret tt
  end.

(** The entry point, or nothing if the image is no ELF file. *)
Definition bootmain : K (bt D) (option Z) :=
  readseg boot_elf 4096 0 ;;;
  let* m := kgets t_mem in
  if negb (ld32 m boot_elf =? BOOT_ELF_MAGIC) then kret None
  else
    let ph := u32 (boot_elf + ld32 m (boot_elf + 28)) in
    let eph := u32 (ph + 32 * ld16 m (boot_elf + 44)) in
    load_loop ph eph (S (Z.to_nat (ld16 m (boot_elf + 44)))) ;;;
    let* m := kgets t_mem in
    kret (Some (ld32 m (boot_elf + 24))).
End Bootmain.

(** ** The image on the disk *)

Section Image.
Variable disk : Z -> list Z.

(** The kernel's bytes, from sector 1 on, and its words. *)
Definition img (j : Z) : Z := nth (Z.to_nat (j mod 512)) (disk (j / 512 + 1)) 0.
Definition img32 (j : Z) : Z := img j + 256 * img (j + 1) + 65536 * img (j + 2) + 16777216 * img (j + 3).
Definition img16 (j : Z) : Z := img j + 256 * img (j + 1).

(** A segment as its program header describes it. *)
Record seg := Seg { sg_off : Z; sg_paddr : Z; sg_filesz : Z; sg_memsz : Z }.
Definition seg_at (ph : Z) : seg := Seg (img32 (ph + 4)) (img32 (ph + 12)) (img32 (ph + 16)) (img32 (ph + 20)).
Definition phoff : Z := img32 28.
Definition phnum : Z := img16 44.
Definition segs : list seg := (fun i => seg_at (phoff + 32 * i)) <$> seqZ 0 phnum.

(** Where its first sector goes, and its end. *)
Definition sg_first (g : seg) : Z := sg_paddr g - sg_off g mod 512.
Definition sg_end (g : seg) : Z := sg_paddr g + Z.max (sg_filesz g) (sg_memsz g).

Definition seg_fits (g : seg) : bool := (0x11000 <=? sg_first g) && (sg_end g + 512 <? 2 ^ 32) && (sg_off g + sg_filesz g <? 2 ^ 32).

(** A header without bytes, like the one that describes the stack: no sector is read for it, wherever its address is. *)
Definition seg_void (g : seg) : bool := (sg_filesz g =? 0) && (sg_memsz g =? 0) && ((sg_off g mod 512 =? 0) || (sg_paddr g <? sg_off g mod 512)).

(** Segments in the order of their addresses, the sectors of the next one above the end of the one before. *)
Fixpoint ordered (lo : Z) (gs : list seg) : bool :=
  match gs with
  | [] => true
  | g :: gs' => if seg_void g then ordered lo gs' else (lo <=? sg_first g) && ordered (sg_end g) gs'
  end.

(** The headers are in the first page, and the segments do not reach it. *)
Definition bootable : bool := (img32 0 =? BOOT_ELF_MAGIC) && (phoff + 32 * phnum <=? 4096) && forallb (fun g => seg_void g || seg_fits g) segs && ordered 0 segs.

(** The segment is in memory. *)
Definition loaded (m : mem) (g : seg) : Prop :=
  (forall k, 0 <= k < sg_filesz g -> m (sg_paddr g + k) = img (sg_off g + k)) /\ (forall k, sg_filesz g <= k < sg_memsz g -> m (sg_paddr g + k) = 0).
End Image.

(** ** Reading *)

Lemma st_list_spec l : forall m a x, 0 <= a -> a + Z.of_nat (length l) <= 2 ^ 32 -> Forall (fun v => 0 <= v < 256) l ->
  st_list m a l x = if (a <=? x) && (x <? a + Z.of_nat (length l)) then nth (Z.to_nat (x - a)) l 0 else m x.
Proof.
  induction l as [|v l IH]; intros m a x Ha Hb Hf; cbn [st_list length].
  - rewrite Z.add_0_r. destruct (a <=? x) eqn:E; [|done]. cbn. apply Z.leb_le in E. by rewrite (proj2 (Z.ltb_ge _ _)) by lia.
  - apply Forall_cons in Hf as (Hv & Hf). cbn in Hb. rewrite IH by (done || lia). unfold st. rewrite u32_small, u8_small by lia. replace (a + 1 + Z.of_nat (length l)) with (a + Z.of_nat (S (length l))) by lia.
    destruct (decide (x = a)) as [->|Hne].
    + rewrite (proj2 (Z.leb_gt _ _)) by lia. cbn [andb]. rewrite Z.eqb_refl, (proj2 (Z.leb_le _ _)), (proj2 (Z.ltb_lt _ _)) by lia. cbn [andb]. by rewrite Z.sub_diag.
    + rewrite (proj2 (Z.eqb_neq _ _)) by done. assert (E : (a + 1 <=? x) = (a <=? x)) by (destruct (a <=? x) eqn:E; [apply Z.leb_le in E; apply Z.leb_le|apply Z.leb_gt in E; apply Z.leb_gt]; lia).
      rewrite E. destruct ((a <=? x) && _) eqn:E2; [|done]. rewrite andb_true_iff, Z.leb_le in E2. replace (Z.to_nat (x - a)) with (S (Z.to_nat (x - (a + 1)))) by lia. done.
Qed.

Section Load.
Context {D : Type} `{Ports D} `{Mmio D} `{!IdeDisk D}.
Variable disk : Z -> list Z.
Hypothesis disk_bytes : forall n, length (disk n) = 512%nat /\ Forall (fun v => 0 <= v < 256) (disk n).

(** The disk that is selected is there, and drive 0, without errors, holds [disk]. *)
Record ready (d : D) : Prop := Ready {
  rd_present : present (the_ide d) = true;
  rd_disk : forall n, v_disk (the_ide d) 0 n = disk n;
  rd_good : forall n, v_bad (the_ide d) 0 n = false
}.

Lemma waitdisk_loop_runs n : forall s, present (the_ide (t_dev s)) = true -> (ide_polls (t_dev s) < n)%nat ->
  runs (waitdisk_loop n) s (fun _ s' => t_mem s' = t_mem s /\ the_ide (t_dev s') = the_ide (t_dev s)).
Proof.
  induction n as [|n IH]; intros s Hp Hn; [lia|]. cbn [waitdisk_loop]. apply runs_bind. unfold runs at 1, t_inb.
  destruct (ide_status (t_dev s)) as (r & d' & Ei & Ed & Hr). rewrite Ei. rewrite Hp in Hr. change 0xC0 with (Z.lor IDE_BSY IDE_DRDY). change 0x40 with IDE_DRDY. destruct Hr as (_ & [(Hr & _)|(Hr & Hl)]).
  - rewrite Hr, Z.eqb_refl. apply runs_ret. done.
  - rewrite (proj2 (Z.eqb_neq _ _)) by done. eapply runs_conseq; [apply IH; cbn; [by rewrite Ed|lia]|]. cbn. by rewrite Ed.
Qed.

Lemma waitdisk_runs s : present (the_ide (t_dev s)) = true -> runs (waitdisk ide_bound) s (fun _ s' => t_mem s' = t_mem s /\ the_ide (t_dev s') = the_ide (t_dev s)).
Proof. intros Hp. apply waitdisk_loop_runs; [done|apply ide_polls_bound]. Qed.

Lemma t_outb_runs p v s : runs (t_outb p v) s (fun _ s' => t_mem s' = t_mem s /\ the_ide (t_dev s') = ide_out p (u8 v) (the_ide (t_dev s))).
Proof. unfold runs, t_outb, kmod. cbn. by rewrite ide_outb. Qed.

(** The registers name sector [n] of drive 0. *)
Lemma boot_regs n w : 0 <= n < 2 ^ 28 ->
  let w' := Idev 1 (u8 n) (u8 (Z.shiftr n 8)) (u8 (Z.shiftr n 16)) (u8 (Z.lor (Z.shiftr n 24) 0xE0)) (v_ien w) (v_cmd w) (v_disk w) (v_bad w) (v_disk1 w) in
  drive_of w' = 0 /\ lba_of w' = n.
Proof.
  intros Hn. cbn zeta. assert (Hm : 0 <= Z.shiftr n 24 < 16) by (rewrite Z.shiftr_div_pow2 by lia; mlia).
  assert (Hv : Z.testbit (u8 (Z.lor (Z.shiftr n 24) 0xE0)) 4 = false /\ Z.land (u8 (Z.lor (Z.shiftr n 24) 0xE0)) 15 = Z.shiftr n 24).
  { revert Hm. generalize (Z.shiftr n 24) as m. intros m Hm. assert (Hin : m ∈ seqZ 0 16) by (apply elem_of_seqZ; lia). clear Hm. revert m Hin. rewrite <- Forall_forall. repeat constructor. }
  destruct Hv as (Hv1 & Hv2). unfold drive_of, lba_of. cbn [v_drive v_lba0 v_lba1 v_lba2]. rewrite Hv1, Hv2. split; [done|]. rewrite !Z.shiftr_div_pow2 by lia. unfold u8. mlia.
Qed.

Lemma readsect_runs dst n s : 0 <= n < 2 ^ 28 -> ready (t_dev s) -> runs (readsect ide_bound dst n) s (fun _ s' => t_mem s' = st_list (t_mem s) dst (disk n) /\ ready (t_dev s')).
Proof.
  intros Hn []. unfold readsect. apply runs_bind. eapply runs_conseq; [by apply waitdisk_runs|]. intros ? s1 (M1 & D1).
  do 5 (apply runs_bind; eapply runs_conseq; [apply t_outb_runs|]; intros ? ? (? & ?)). 
  match goal with |- runs _ ?x _ => set (s6 := x) in * end.
  set (w := the_ide (t_dev s)) in *. destruct (boot_regs n w Hn) as (R1 & R2). set (w' := Idev 1 _ _ _ _ _ _ _ _ _) in R1, R2.
  assert (M6 : t_mem s6 = t_mem s) by congruence. assert (D6 : the_ide (t_dev s6) = w').
  { repeat match goal with E : the_ide _ = _ |- _ => rewrite E; clear E end. by destruct w. }
  apply runs_bind. eapply runs_conseq; [apply t_outb_runs|]. intros ? s7 (M7 & D7). rewrite D6, ide_out_cmd, R1, R2 in D7. change (v_bad w') with (v_bad w) in D7. rewrite rd_good0 in D7.
  change (u8 32 =? IDE_CMD_READ) with true in D7. cbn iota in D7.
  assert (P7 : present (the_ide (t_dev s7)) = true) by (rewrite D7; change (present w' = true); unfold present; by rewrite R1).
  apply runs_bind. eapply runs_conseq; [by apply waitdisk_runs|]. intros ? s8 (M8 & D8). rewrite D7 in D8.
  unfold runs, t_insl. destruct (ide_data_in (t_dev s8) 0 n) as (d' & Ei & Ed); [by rewrite D8|]. rewrite Ei. rewrite D8 in *. change (v_disk (set_cmd (CRead 0 n) w')) with (v_disk w). rewrite rd_disk0. cbn. rewrite M8, M7, M6. split; [done|].
  constructor; rewrite Ed; [|apply rd_disk0|apply rd_good0]. change (present w' = true). unfold present. by rewrite R1.
Qed.

Lemma img_at n k : 1 <= n -> 0 <= k < 512 -> img disk ((n - 1) * 512 + k) = nth (Z.to_nat k) (disk n) 0.
Proof. intros Hn Hk. unfold img. replace (((n - 1) * 512 + k) mod 512) with k by mlia. replace (((n - 1) * 512 + k) / 512 + 1) with n by mlia. done. Qed.

Lemma readseg_loop_runs fuel : forall pa epa n s, 0 <= pa -> epa + 512 < 2 ^ 32 -> 1 <= n -> n + Z.of_nat fuel < 2 ^ 28 -> epa - pa < 512 * (Z.of_nat fuel - 1) + 1 -> (0 < fuel)%nat -> ready (t_dev s) ->
  runs (readseg_loop ide_bound pa epa n fuel) s (fun _ s' => ready (t_dev s') /\
    forall a, (pa <= a < epa -> t_mem s' a = img disk ((n - 1) * 512 + (a - pa))) /\ (a < pa -> t_mem s' a = t_mem s a)).
Proof.
  induction fuel as [|fuel IH]; intros pa epa n s Hpa Hepa Hn Hnf Hd Hf Hr; [lia|]. cbn [readseg_loop]. destruct (pa <? epa) eqn:E; [apply Z.ltb_lt in E|apply Z.ltb_ge in E].
  - apply runs_bind. eapply runs_conseq; [by apply readsect_runs; [lia|]|]. intros u1 s1 (M1 & R1). destruct (disk_bytes n) as (Hlen & Hby). unfold SECTSIZE. rewrite !u32_small by lia.
    eapply runs_conseq; [apply (IH (pa + 512) epa (n + 1) s1); try done; lia|]. intros u2 s2 (R2 & M2). split; [done|]. intros a. destruct (M2 a) as (A1 & A2).
    assert (Hst : a < pa + 512 -> t_mem s2 a = if pa <=? a then nth (Z.to_nat (a - pa)) (disk n) 0 else t_mem s a).
    { intros Ha. rewrite A2 by done. rewrite M1, st_list_spec, Hlen by (done || (rewrite ?Hlen; lia)). rewrite (proj2 (Z.ltb_lt a _)) by lia. by rewrite andb_true_r. }
    split; intros Ha.
    + destruct (decide (a < pa + 512)) as [Hlt|Hge].
      * rewrite Hst, (proj2 (Z.leb_le _ _)), img_at by lia. done.
      * rewrite A1 by lia. f_equal. lia.
    + rewrite Hst, (proj2 (Z.leb_gt _ _)) by lia. done.
  - apply runs_ret. split; [done|]. intros a. split; [lia|done].
Qed.

Lemma readseg_runs pa count off s : 0 <= off -> 0 <= count -> 0 <= pa - off mod 512 -> pa + count + 512 < 2 ^ 32 -> off + count < 2 ^ 32 -> ready (t_dev s) ->
  runs (readseg ide_bound pa count off) s (fun _ s' => ready (t_dev s') /\
    forall a, (pa - off mod 512 <= a < pa + count -> t_mem s' a = img disk (off + (a - pa))) /\ (a < pa - off mod 512 -> t_mem s' a = t_mem s a)).
Proof.
  intros H1 H2 H3 H4 H5 Hr. unfold readseg, SECTSIZE. rewrite (u32_small (pa + count)), (u32_small (pa - off mod 512)), (u32_small (off / 512 + 1)) by mlia.
  set (p0 := pa - off mod 512) in *. set (k := (pa + count - p0) / 512).
  assert (Hk : k * 512 <= pa + count - p0 < k * 512 + 512) by (unfold k; mlia). assert (Hk0 : 0 <= k) by (unfold k, p0; mlia).
  eapply runs_conseq; [apply readseg_loop_runs; [done|lia|mlia|unfold p0 in Hk; mlia|lia|lia|done]|]. intros u s' (R & M). split; [done|]. intros a. destruct (M a) as (A1 & A2). split; [|done].
  intros Ha. rewrite A1 by done. f_equal. unfold p0. mlia.
Qed.

(** ** Loading *)

Definition header_in (m : mem) : Prop := forall j, 0 <= j < 4096 -> m (boot_elf + j) = img disk j.

Lemma header_ld32 m j : header_in m -> 0 <= j <= 4092 -> ld32 m (boot_elf + j) = img32 disk j.
Proof. intros Hh Hj. unfold ld32, ld, img32. rewrite !u32_small by (unfold boot_elf; lia). rewrite <- !Z.add_assoc. rewrite !Hh by lia. done. Qed.

Lemma header_ld16 m j : header_in m -> 0 <= j <= 4094 -> ld16 m (boot_elf + j) = img16 disk j.
Proof. intros Hh Hj. unfold ld16, ld, img16. rewrite !u32_small by (unfold boot_elf; lia). rewrite <- !Z.add_assoc. rewrite !Hh by lia. done. Qed.

Lemma img_range j : 0 <= img disk j < 256.
Proof.
  unfold img. destruct (disk_bytes (j / 512 + 1)) as (Hl & Hf). rewrite nth_lookup. destruct (disk (j / 512 + 1) !! Z.to_nat (j mod 512)) eqn:E; cbn; [by eapply Forall_lookup_1 in Hf|lia].
Qed.

Lemma img32_range j : 0 <= img32 disk j < 2 ^ 32.
Proof. unfold img32. pose proof (img_range j). pose proof (img_range (j + 1)). pose proof (img_range (j + 2)). pose proof (img_range (j + 3)). lia. Qed.

Lemma img16_range j : 0 <= img16 disk j < 2 ^ 16.
Proof. unfold img16. pose proof (img_range j). pose proof (img_range (j + 1)). lia. Qed.

(** What a segment's turn leaves: it is in memory, and nothing below its first sector has changed. *)
Lemma load_one_runs g s : seg_fits g = true -> 0 <= sg_off g -> 0 <= sg_filesz g -> 0 <= sg_memsz g -> 0 <= sg_paddr g -> ready (t_dev s) ->
  runs (readseg ide_bound (sg_paddr g) (sg_filesz g) (sg_off g)) s (fun _ s1 => ready (t_dev s1) /\ (forall a, a < sg_first g -> t_mem s1 a = t_mem s a) /\
    loaded disk (if sg_filesz g <? sg_memsz g then stosb (t_mem s1) (u32 (sg_paddr g + sg_filesz g)) 0 (Z.to_nat (sg_memsz g - sg_filesz g)) else t_mem s1) g).
Proof.
  unfold seg_fits, sg_first, sg_end. rewrite !andb_true_iff, Z.leb_le, !Z.ltb_lt. intros ((F1 & F2) & F3) H1 H2 H3 H4 Hr.
  eapply runs_conseq; [apply readseg_runs; try done; lia|]. intros u s1 (R1 & M1). split; [done|]. split; [intros a Ha; by apply M1|].
  assert (L1 : forall k, 0 <= k < sg_filesz g -> t_mem s1 (sg_paddr g + k) = img disk (sg_off g + k)).
  { intros k Hk. rewrite (proj1 (M1 _)) by mlia. f_equal. lia. }
  unfold loaded. destruct (sg_filesz g <? sg_memsz g) eqn:E; [apply Z.ltb_lt in E|apply Z.ltb_ge in E]; [|split; [done|lia]].
  rewrite u32_small by lia. split; intros k Hk; rewrite stosb_spec, Z2Nat.id by lia.
  - rewrite (proj2 (Z.leb_gt _ _)) by lia. by apply L1.
  - by rewrite (proj2 (Z.leb_le _ _)), (proj2 (Z.ltb_lt _ _)) by lia.
Qed.

Lemma loaded_keep m m' g : loaded disk m g -> (forall a, a < sg_end g -> m' a = m a) -> loaded disk m' g.
Proof. intros (L1 & L2) Hm. unfold sg_end in Hm. split; intros k Hk; rewrite Hm by lia; auto. Qed.

Lemma readseg_void g s : seg_void g = true -> 0 <= sg_paddr g < 2 ^ 32 -> readseg ide_bound (sg_paddr g) (sg_filesz g) (sg_off g) s = Ok tt s.
Proof.
  unfold seg_void. rewrite !andb_true_iff, orb_true_iff, !Z.eqb_eq, Z.ltb_lt. intros ((-> & _) & Hv) Hp. unfold readseg, SECTSIZE. rewrite Z.add_0_r, (u32_small (sg_paddr g)) by lia. cbn [readseg_loop].
  rewrite (proj2 (Z.ltb_ge _ _)); [done|]. unfold u32. destruct Hv as [->|Hv]; mlia.
Qed.

Lemma loaded_void m g : seg_void g = true -> loaded disk m g.
Proof. unfold seg_void. rewrite !andb_true_iff, !Z.eqb_eq. intros ((E1 & E2) & _). split; lia. Qed.

Lemma load_loop_runs n : forall i lo s, 0 <= i -> i + Z.of_nat n = phnum disk -> phoff disk + 32 * phnum disk <= 4096 ->
  let gs := (fun i => seg_at disk (phoff disk + 32 * i)) <$> seqZ i (Z.of_nat n) in
  forallb (fun g => seg_void g || seg_fits g) gs = true -> ordered lo gs = true -> header_in (t_mem s) -> ready (t_dev s) ->
  runs (load_loop ide_bound (boot_elf + phoff disk + 32 * i) (boot_elf + phoff disk + 32 * phnum disk) (S n)) s (fun _ s' =>
    Forall (loaded disk (t_mem s')) gs /\ (forall a, a < lo \/ a < 0x11000 -> t_mem s' a = t_mem s a)).
Proof.
  pose proof (img32_range 28) as Hpo. fold (phoff disk) in Hpo.
  induction n as [|n IH]; intros i lo s Hi Hn Hh; cbn zeta.
  - intros _ _ _ _. cbn [load_loop]. rewrite (proj2 (Z.ltb_ge _ _)) by lia. apply runs_ret. done.
  - rewrite seqZ_cons by lia. replace (Z.pred (Z.of_nat (S n))) with (Z.of_nat n) by lia. cbn [fmap list_fmap forallb ordered]. rewrite andb_true_iff. intros (Hg & Hgs) Hord Hhd Hr.
    set (g := seg_at disk (phoff disk + 32 * i)) in *. cbn [load_loop]. rewrite (proj2 (Z.ltb_lt _ _)) by lia.
    assert (Hf : forall m, header_in m -> ld32 m (boot_elf + phoff disk + 32 * i + 12) = sg_paddr g /\ ld32 m (boot_elf + phoff disk + 32 * i + 16) = sg_filesz g /\
      ld32 m (boot_elf + phoff disk + 32 * i + 4) = sg_off g /\ ld32 m (boot_elf + phoff disk + 32 * i + 20) = sg_memsz g).
    { intros m Hm. rewrite <- !Z.add_assoc. rewrite !(Z.add_assoc (phoff disk)). rewrite !header_ld32 by (done || lia). done. }
    apply runs_bind, runs_gets, runs_bind, runs_gets, runs_bind, runs_gets. destruct (Hf _ Hhd) as (-> & -> & -> & _).
    destruct (seg_void g) eqn:Ev.
    { apply runs_bind. eapply runs_eq; [apply readseg_void; [done|apply img32_range]|]. apply runs_bind, runs_gets, runs_bind, runs_gets. destruct (Hf _ Hhd) as (_ & -> & _ & ->).
      assert (Ez : (sg_filesz g <? sg_memsz g) = false) by (unfold seg_void in Ev; rewrite !andb_true_iff, !Z.eqb_eq in Ev; destruct Ev as ((-> & ->) & _); done). rewrite Ez. apply runs_bind, runs_ret.
      rewrite u32_small by (unfold boot_elf; lia). replace (boot_elf + phoff disk + 32 * i + 32) with (boot_elf + phoff disk + 32 * (Z.succ i)) by lia.
      eapply runs_conseq; [apply (IH (Z.succ i) lo s); try done; lia|]. intros u3 s3 (L3 & M3). split; [|done]. apply Forall_cons. split; [by apply loaded_void|done]. }
    cbn [orb] in Hg. apply andb_true_iff in Hord as (Hlo & Hord). apply Z.leb_le in Hlo.
    apply runs_bind. eapply runs_conseq; [apply (load_one_runs g s Hg); try done; apply img32_range|]. intros u1 s1 (R1 & M1 & L1).
    assert (Hf1 : 0x11000 <= sg_first g) by (unfold seg_fits in Hg; rewrite !andb_true_iff, Z.leb_le in Hg; tauto).
    assert (Hhd1 : header_in (t_mem s1)) by (intros j Hj; rewrite M1 by (unfold boot_elf; lia); by apply Hhd).
    apply runs_bind, runs_gets, runs_bind, runs_gets. destruct (Hf _ Hhd1) as (_ & -> & _ & ->).
    set (m2 := if sg_filesz g <? sg_memsz g then _ else _) in L1. assert (M2 : forall a, a < sg_first g -> m2 a = t_mem s1 a).
    { intros a Ha. unfold m2. destruct (_ <? _) eqn:E; [|done]. apply Z.ltb_lt in E. unfold seg_fits, sg_end in Hg. rewrite !andb_true_iff, Z.leb_le, !Z.ltb_lt in Hg. unfold sg_first in *. pose proof (img32_range (phoff disk + 32 * i + 16)) as Hfz. change (img32 disk (phoff disk + 32 * i + 16)) with (sg_filesz g) in Hfz.
      rewrite u32_small, stosb_spec, Z2Nat.id by mlia. rewrite (proj2 (Z.leb_gt _ _)) by mlia. done. }
    apply runs_bind. eapply (runs_conseq _ _ _ (fun _ s2 => t_dev s2 = t_dev s1 /\ t_mem s2 = m2)); [unfold m2; by destruct (_ <? _)|]. intros u2 s2 (R2 & E2).
    assert (Hlow : forall a, a < sg_first g -> t_mem s2 a = t_mem s a) by (intros a Ha; rewrite E2, M2, M1 by done; done).
    rewrite u32_small by (unfold boot_elf; lia). replace (boot_elf + phoff disk + 32 * i + 32) with (boot_elf + phoff disk + 32 * (Z.succ i)) by lia.
    eapply runs_conseq; [apply (IH (Z.succ i) (sg_end g) s2); try done; try lia|].
    { intros j Hj. rewrite Hlow by (unfold boot_elf; lia). by apply Hhd. }
    { by rewrite R2. }
    intros u3 s3 (L3 & M3). split.
    + apply Forall_cons. split; [|done]. apply (loaded_keep m2); [done|]. intros a Ha. rewrite M3 by (by left). by rewrite E2.
    + intros a Ha. assert (Hfe : sg_first g <= sg_end g) by (unfold sg_first, sg_end; pose proof (img32_range (phoff disk + 32 * i + 16)) as Hfz; change (img32 disk (phoff disk + 32 * i + 16)) with (sg_filesz g) in Hfz; mlia).
      rewrite M3 by lia. apply Hlow. lia.
Qed.

(** C11: The boot loader enters the kernel with its segments in memory.  The disk that is selected is present, and drive 0 holds the image and has no errors.  The image is an ELF file with its program headers in its first 4096 bytes;
    its segments are in the order of their addresses, their sectors apart, from 0x11000 (above the page the loader uses) to below 2^32 - 512; headers without bytes and with an offset of 0 modulo 512, like that of the stack, may be anywhere between them.
    Then [bootmain] ends with a jump to the entry of the image, every segment's bytes in memory are those of the file and the rest of the segment is zero, although whole sectors are read and more is written than asked. *)
Theorem bootmain_loads s : ready (t_dev s) -> bootable disk = true ->
  runs (bootmain ide_bound) s (fun r s' => r = Some (img32 disk 24) /\ Forall (loaded disk (t_mem s')) (segs disk)).
Proof.
  intros Hr. unfold bootable. rewrite !andb_true_iff, Z.eqb_eq, Z.leb_le. intros (((Hm & Hp) & Hf) & Ho). unfold bootmain. apply runs_bind.
  eapply runs_conseq; [apply readseg_runs; try done; unfold boot_elf; rewrite ?Zmod_0_l; lia|]. intros u1 s1 (R1 & M1).
  assert (Hh : header_in (t_mem s1)) by (intros j Hj; rewrite (proj1 (M1 _)) by (rewrite Zmod_0_l; lia); f_equal; lia).
  apply runs_bind, runs_gets. pose proof (img32_range 28) as Hpo. pose proof (img16_range 44) as Hpn. fold (phoff disk) in Hpo. fold (phnum disk) in Hpn.
  replace (ld32 (t_mem s1) boot_elf) with (img32 disk 0) by (rewrite <- (header_ld32 (t_mem s1)) by (done || lia); f_equal; lia). rewrite Hm, Z.eqb_refl. cbn [negb].
  rewrite !header_ld32, !header_ld16 by (done || lia). fold (phoff disk) (phnum disk). rewrite (u32_small (boot_elf + phoff disk)), (u32_small (boot_elf + phoff disk + _)) by (unfold boot_elf; lia).
  apply runs_bind. replace (boot_elf + phoff disk) with (boot_elf + phoff disk + 32 * 0) at 1 by lia.
  assert (Es : segs disk = (fun i => seg_at disk (phoff disk + 32 * i)) <$> seqZ 0 (Z.of_nat (Z.to_nat (phnum disk)))) by (unfold segs; by rewrite Z2Nat.id by lia).
  rewrite Es in Hf, Ho. eapply runs_conseq; [apply (load_loop_runs _ 0 0 s1); try done; lia|]. cbn zeta. rewrite <- Es. intros u2 s2 (L2 & M2). apply runs_bind, runs_gets, runs_ret. split; [|done].
  f_equal. apply header_ld32; [|lia]. intros j Hj. rewrite M2 by (unfold boot_elf; lia). by apply Hh.
Qed.

(** An image that is no ELF file is not entered. *)
Lemma bootmain_refuses s : ready (t_dev s) -> img32 disk 0 <> BOOT_ELF_MAGIC -> runs (bootmain ide_bound) s (fun r s' => r = None).
Proof.
  intros Hr Hm. unfold bootmain. apply runs_bind. eapply runs_conseq; [apply readseg_runs; try done; unfold boot_elf; rewrite ?Zmod_0_l; lia|]. intros u1 s1 (R1 & M1).
  assert (Hh : header_in (t_mem s1)) by (intros j Hj; rewrite (proj1 (M1 _)) by (rewrite Zmod_0_l; lia); f_equal; lia).
  apply runs_bind, runs_gets. replace (ld32 (t_mem s1) boot_elf) with (img32 disk 0) by (rewrite <- (header_ld32 (t_mem s1)) by (done || lia); f_equal; lia).
  rewrite (proj2 (Z.eqb_neq _ _)) by done. by apply runs_ret.
Qed.
End Load.

(** ** A disk with a kernel *)

(** A sector with the bytes given, zero elsewhere. *)
Definition sector_of (bs : list (Z * Z)) : list Z := foldl (fun l b => <[ Z.to_nat b.1 := b.2 ]> l) (replicate 512 0) bs.

(** One segment of five bytes in sector 9, at 1MB, with three more bytes of zeros, and the header without bytes that the linker adds for the stack. *)
Definition boot_disk (n : Z) : list Z :=
  if n =? 1 then sector_of [(0, 0x7F); (1, 0x45); (2, 0x4C); (3, 0x46); (24, 12); (26, 16); (28, 52); (44, 2); (52, 1); (57, 16); (66, 16); (68, 5); (72, 8); (84, 0x51); (85, 0xE5); (86, 0x74); (87, 0x64); (108, 6); (112, 16)]
  else if n =? 9 then sector_of [(0, 1); (1, 2); (2, 3); (3, 4); (4, 5); (5, 9)]
  else replicate 512 0.

Definition boot_machine : bt hd := Bt (fun _ => 204) (Hd (Idev 0 0 0 0 0xa0 true CIdle (fun _ => boot_disk) (fun _ _ => false) false) true).

Lemma boot_disk_bytes n : length (boot_disk n) = 512%nat /\ Forall (fun v => 0 <= v < 256) (boot_disk n).
Proof.
  assert (Hb : forall l, (length l =? 512)%nat && forallb (fun v => (0 <=? v) && (v <? 256)) l = true -> length l = 512%nat /\ Forall (fun v => 0 <= v < 256) l).
  { intros l. rewrite andb_true_iff, Nat.eqb_eq. intros (Hl & Hf). split; [done|]. apply Forall_forall. intros v Hv. apply (proj1 (forallb_forall _ _)) with (x := v) in Hf; [|by apply list_elem_of_In]. by rewrite andb_true_iff, Z.leb_le, Z.ltb_lt in Hf. }
  apply Hb. unfold boot_disk. destruct (n =? 1); [vm_compute; reflexivity|]. destruct (n =? 9); vm_compute; reflexivity.
Qed.

Lemma boot_machine_ready : ready boot_disk (t_dev boot_machine).
Proof. constructor; intros; reflexivity. Qed.

Lemma bootmain_loads_witness : runs (bootmain 2) boot_machine (fun r s' => r = Some 0x10000C /\ t_mem s' 0x100004 = 5 /\ t_mem s' 0x100005 = 0).
Proof.
  pose proof (bootmain_loads boot_disk boot_disk_bytes boot_machine boot_machine_ready ltac:(vm_compute; reflexivity)) as R. eapply runs_conseq; [exact R|].
  intros r s' (-> & L). split; [vm_compute; reflexivity|].
  assert (Es : segs boot_disk = [Seg 0x1000 0x100000 5 8; Seg 0 0 0 0]) by (vm_compute; reflexivity). rewrite Es in L. apply Forall_cons in L as ((L1 & L2) & _). cbn in L1, L2.
  split; [etrans; [apply (L1 4); lia|vm_compute; reflexivity]|apply (L2 5); lia].
Defined.
