(* ===== verification/User.v ===== *)
(** * User programs: system calls, and the routines of ulib.c and printf.c that make them

    A program is what one process does to the system [W] it sees through its system calls ([Sys]); it ends by [exit], or by [exec] with another
    program.  What another process does between two calls, and which side of a [fork] this process is on, is up to
    [W].  A C string is the list of its bytes without the final 0; a read of a variable that was not set, or a store outside an array, is [UUndef].
    A loop that goes on as long as the system lets it has a bound, [UNoFuel] being the result when it is too small. *)

From S2P Require Import Prelude Fs Printf.

Inductive ures (W A : Type) :=
  | UOk (a : A) (w : W)
  | UExit (st : Z) (w : W)
  | UExec (path : list Z) (argv : list (list Z)) (w : W)
  | UUndef
  | UNoFuel.
Arguments UOk {W A}.
Arguments UExit {W A}.
Arguments UExec {W A}.
Arguments UUndef {W A}.
Arguments UNoFuel {W A}.

Definition U (W A : Type) : Type := W -> ures W A.

#[global] Instance u_ret {W} : MRet (U W) := fun _ a w => UOk a w.
#[global] Instance u_bind {W} : MBind (U W) := fun _ _ f m w =>
  match m w with
  | UOk a w' => f a w'
  | UExit st w' => UExit st w'
  | UExec p argv w' => UExec p argv w'
  | UUndef => UUndef
  | UNoFuel => UNoFuel
  end.

Definition uexit {W A} (st : Z) : U W A := fun w => UExit st w.
Definition unofuel {W A} : U W A := fun _ => UNoFuel.
Definition uundef {W A} : U W A := fun _ => UUndef.

(** The system calls the programs make.  [read] and [fstat] give nothing when they return -1; [wait] gives the pid it returns. *)
Class Sys (W : Type) := {
  s_read : Z -> Z -> W -> option (list Z) * W;
  s_write : Z -> list Z -> W -> Z * W;
  s_open : list Z -> Z -> W -> Z * W;
  s_close : Z -> W -> Z * W;
  s_dup : Z -> W -> Z * W;
  s_pipe : W -> option (Z * Z) * W;
  s_fstat : Z -> W -> option stat * W;
  s_link : list Z -> list Z -> W -> Z * W;
  s_unlink : list Z -> W -> Z * W;
  s_mkdir : list Z -> W -> Z * W;
  s_mknod : list Z -> Z -> Z -> W -> Z * W;
  s_chdir : list Z -> W -> Z * W;
  s_fork : W -> Z * W;
  s_exec : list Z -> list (list Z) -> W -> bool * W;
  s_wait : W -> Z * W;
  s_kill : Z -> W -> Z * W;
  s_sleep : Z -> W -> Z * W
}.

(** The bytes of a string of the source, and of one with a newline at its end. *)
Definition str (s : string) : list Z := (fun c => Z.of_N (Ascii.N_of_ascii c)) <$> String.list_ascii_of_string s.
Definition line_of (s : string) : list Z := str s ++ [10].

Section User.
Context {W : Type} `{Sys W}.

Definition call {A} (f : W -> A * W) : U W A := fun w => let (a, w') := f w in UOk a w'.

(** [exec] returns only when it fails. *)
Definition u_exec (path : list Z) (argv : list (list Z)) : U W unit := fun w =>
  let (ok, w') := s_exec path argv w in if (ok : bool) then UExec path argv w' else UOk tt w'.

Fixpoint each {A} (l : list A) (body : A -> U W unit) : U W unit :=
  match l with
  | [] => mret tt
  | x :: l' => body x ;; each l' body
  end.

(** [printf] writes byte by byte. *)
Definition u_printf (fd : Z) (fmt : list Z) (args : list arg) : U W unit :=
  match printf fmt args with
  | Some l => each l (fun c => call (s_write fd [c]) ;; mret tt)
  | None => uundef
  end.

(** The loop of [gets] with [n] characters still allowed: what is stored in [buf]. *)
Fixpoint gets_loop (n : nat) : U W (list Z) :=
  match n with
  | O => mret []
  | S n' =>
      r ← call (s_read 0 1);
      match r with
      | Some (c :: _) =>
          if (c =? 10) || (c =? 13) then mret [c]
          else l ← gets_loop n'; mret (c :: l)
      | _ => mret []
      end
  end.

Definition gets (max : Z) : U W (list Z) := gets_loop (Z.to_nat (max - 1)).

Definition O_RDONLY : Z := 0.
Definition O_RDWR : Z := 2.

Definition u_stat (n : list Z) : U W (option stat) :=
  fd ← call (s_open n O_RDONLY);
  if fd <? 0 then mret None
  else
    r ← call (s_fstat fd);
    call (s_close fd) ;;
    mret r.
End User.
