(* ===== verification/Progs.v ===== *)
(** * The user programs: cat.c, wc.c, echo.c, ls.c, ln.c, mkdir.c, rm.c, kill.c, zombie.c, init.c, and main of grep.c and sh.c

    [argv] is the list of the arguments, with the name of the program first.  [fuel] bounds the reads of a file, and the rounds of the loops
    of init and the shell, which go on as long as there is input. *)

From S2P Require Import Prelude Bytes Fs Printf Sh ShSpec ShRun Grep User.

Section Progs.
Context {W : Type} `{Sys W}.

(** ** cat.c *)

Fixpoint cat (fd : Z) (fuel : nat) : U W unit :=
  match fuel with
  | O => unofuel
  | S fuel' =>
      r ← call (s_read fd 512);
      match r with
      | Some [] => mret tt
      | Some bytes => call (s_write 1 bytes) ;; cat fd fuel'
      | None => u_printf 1 (line_of "cat: read error") [] ;; uexit 0
      end
  end.

Definition cat_main (argv : list (list Z)) (fuel : nat) : U W unit :=
  match argv with
  | [] | [_] => cat 0 fuel ;; uexit 1
  | _ :: files =>
      each files (fun f =>
        fd ← call (s_open f 0);
        if fd <? 0 then u_printf 1 (line_of "cat: cannot open %s") [AStr (Some f)] ;; uexit 1
        else cat fd fuel ;; call (s_close fd) ;; mret tt) ;;
      uexit 0
  end.

(** ** wc.c *)

Record wcount := Wc { wc_l : Z; wc_w : Z; wc_c : Z; wc_in : bool }.

Definition wc_byte (x : wcount) (c : Z) : wcount :=
  let '(Wc l w n inword) := x in
  let n := s32 (n + 1) in
  let l := if c =? 10 then s32 (l + 1) else l in
  if strchr [32; 13; 9; 10; 11] c then Wc l w n false
  else if negb inword then Wc l (s32 (w + 1)) n true
  else Wc l w n inword.

Fixpoint wc_loop (fd : Z) (x : wcount) (fuel : nat) : U W wcount :=
  match fuel with
  | O => unofuel
  | S fuel' =>
      r ← call (s_read fd 512);
      match r with
      | Some [] => mret x
      | Some bytes => wc_loop fd (foldl wc_byte x bytes) fuel'
      | None => u_printf 1 (line_of "wc: read error") [] ;; uexit 1
      end
  end.

Definition wc (fd : Z) (name : list Z) (fuel : nat) : U W unit :=
  x ← wc_loop fd (Wc 0 0 0 false) fuel;
  u_printf 1 (line_of "%d %d %d %s") [AWord (wc_l x); AWord (wc_w x); AWord (wc_c x); AStr (Some name)].

Definition wc_main (argv : list (list Z)) (fuel : nat) : U W unit :=
  match argv with
  | [] | [_] => wc 0 [] fuel ;; uexit 1
  | _ :: files =>
      each files (fun f =>
        fd ← call (s_open f 0);
        if fd <? 0 then u_printf 1 (line_of "wc: cannot open %s") [AStr (Some f)] ;; uexit 1
        else wc fd f fuel ;; call (s_close fd) ;; mret tt) ;;
      uexit 1
  end.

(** ** echo.c, ln.c, mkdir.c, rm.c, kill.c, zombie.c *)

Fixpoint echo_args (args : list (list Z)) : U W unit :=
  match args with
  | [] => mret tt
  | a :: args' =>
      u_printf 1 (str "%s%s") [AStr (Some a); AStr (Some (match args' with [] => [10] | _ => [32] end))] ;;
      echo_args args'
  end.

Definition echo_main (argv : list (list Z)) : U W unit := echo_args (tail argv) ;; uexit 0.

Definition ln_main (argv : list (list Z)) : U W unit :=
  match argv with
  | [_; old; new] =>
      r ← call (s_link old new);
      (if r <? 0 then u_printf 2 (line_of "link %s %s: failed") [AStr (Some old); AStr (Some new)] else mret tt) ;;
      uexit 1
  | _ => u_printf 2 (line_of "Usage: ln old new") [] ;; uexit 1
  end.

(** The loop of mkdir and rm: [op] on each file until one fails. *)
Fixpoint until_failure (op : list Z -> W -> Z * W) (msg : list Z) (files : list (list Z)) : U W unit :=
  match files with
  | [] => mret tt
  | f :: files' =>
      r ← call (op f);
      if r <? 0 then u_printf 2 msg [AStr (Some f)] else until_failure op msg files'
  end.

Definition mkdir_main (argv : list (list Z)) : U W unit :=
  match argv with
  | [] | [_] => u_printf 2 (line_of "Usage: mkdir files...") [] ;; uexit 1
  | _ :: files => until_failure s_mkdir (line_of "mkdir: %s failed to create") files ;; uexit 1
  end.

Definition rm_main (argv : list (list Z)) : U W unit :=
  match argv with
  | [] | [_] => u_printf 2 (line_of "Usage: rm files...") [] ;; uexit 1
  | _ :: files => until_failure s_unlink (line_of "rm: %s failed to delete") files ;; uexit 1
  end.

(** [atoi] of a C string; its characters are signed, and an overflow wraps. *)
Fixpoint atoi_from (n : Z) (s : list Z) : Z :=
  match s with
  | [] => n
  | c :: s' => if (48 <=? s8 c) && (s8 c <=? 57) then atoi_from (s32 (n * 10 + s8 c - 48)) s' else n
  end.

Definition kill_main (argv : list (list Z)) : U W unit :=
  match argv with
  | [] => u_printf 2 (line_of "usage: kill pid...") [] ;; uexit 1
  | _ :: pids => each pids (fun p => call (s_kill (atoi_from 0 p)) ;; mret tt) ;; uexit 1
  end.

Definition zombie_main : U W unit :=
  pid ← call s_fork;
  (if 0 <? pid then call (s_sleep 5) ;; mret tt else mret tt) ;;
  uexit 1.

(** ** init.c *)

(** The loop over [wait]. *)
Fixpoint init_wait (pid : Z) (fuel : nat) : U W unit :=
  match fuel with
  | O => unofuel
  | S fuel' =>
      wpid ← call s_wait;
      if (0 <=? wpid) && negb (wpid =? pid) then u_printf 1 (line_of "zombie!") [] ;; init_wait pid fuel'
      else mret tt
  end.

Fixpoint init_loop (fuel : nat) : U W unit :=
  match fuel with
  | O => unofuel
  | S fuel' =>
      u_printf 1 (line_of "init: starting sh") [] ;;
      pid ← call s_fork;
      if pid <? 0 then u_printf 1 (line_of "init: fork failed") [] ;; uexit 1
      else if pid =? 0 then
        u_exec (str "sh") [str "sh"] ;;
        u_printf 1 (line_of "init: exec sh failed") [] ;;
        uexit 1
      else init_wait pid fuel ;; init_loop fuel'
  end.

Definition init_main (fuel : nat) : U W unit :=
  fd ← call (s_open (str "console") O_RDWR);
  (if fd <? 0 then call (s_mknod (str "console") 1 1) ;; call (s_open (str "console") O_RDWR) ;; mret tt else mret tt) ;;
  call (s_dup 0) ;;
  call (s_dup 0) ;;
  init_loop fuel.

(** ** ls.c *)

(** What follows the last slash. *)
Fixpoint after_slash (path : list Z) : list Z :=
  match path with
  | [] => []
  | c :: path' => if bool_decide (47 ∈ path') then after_slash path' else if c =? 47 then path' else path
  end.

Definition fmtname (path : list Z) : list Z :=
  let p := after_slash path in
  if (14 <=? length p)%nat then p else p ++ replicate (14 - length p) 32.

Definition ls_stat (name : list Z) (st : stat) : U W unit :=
  u_printf 1 (line_of "%s %d %d %d") [AStr (Some (fmtname name)); AWord (st_type st); AWord (st_ino st); AWord (st_size st)].

(** The loop over the entries of a directory. *)
Fixpoint ls_entries (fd : Z) (path : list Z) (fuel : nat) : U W unit :=
  match fuel with
  | O => unofuel
  | S fuel' =>
      r ← call (s_read fd 16);
      match r with
      | Some de =>
          if (length de =? 16)%nat then
            (if get_le 2 0 de =? 0 then mret tt
             else
               let buf := path ++ [47] ++ cstring (take 14 (drop 2 de)) in
               st ← u_stat buf;
               match st with
               | None => u_printf 1 (line_of "ls: cannot stat %s") [AStr (Some buf)]
               | Some st => ls_stat buf st
               end) ;;
            ls_entries fd path fuel'
          else mret tt
      | None => mret tt
      end
  end.

Definition ls (path : list Z) (fuel : nat) : U W unit :=
  fd ← call (s_open path 0);
  if fd <? 0 then u_printf 2 (line_of "ls: cannot open %s") [AStr (Some path)]
  else
    st ← call (s_fstat fd);
    match st with
    | None => u_printf 2 (line_of "ls: cannot stat %s") [AStr (Some path)] ;; call (s_close fd) ;; mret tt
    | Some st =>
        (if st_type st =? T_FILE then ls_stat path st
         else if st_type st =? T_DIR then
           if 512 <? Z.of_nat (length path) + 1 + 14 + 1 then u_printf 1 (line_of "ls: path too long") []
           else ls_entries fd path fuel
         else mret tt) ;;
        call (s_close fd) ;;
        mret tt
    end.

Definition ls_main (argv : list (list Z)) (fuel : nat) : U W unit :=
  match argv with
  | [] | [_] => ls (str ".") fuel ;; uexit 1
  | _ :: files => each files (fun f => ls f fuel) ;; uexit 1
  end.

(** ** grep.c over system calls; Grep.v has the matcher *)

Fixpoint ugrep_lines (pattern buf : list Z) (p : Z) (fuel : nat) : U W (list Z * Z) :=
  match fuel with
  | O => unofuel
  | S fuel' =>
      match find_nl (from p buf) p with
      | GUndef => uundef
      | GNoFuel => unofuel
      | GOk None => mret (buf, p)
      | GOk (Some q) =>
          let buf0 := set_at q 0 buf in
          if grep_match pattern (cstr (from p buf0)) then
            let buf1 := set_at q ch_nl buf0 in
            call (s_write 1 (take (Z.to_nat (q + 1 - p)) (from p buf1))) ;;
            ugrep_lines pattern buf1 (q + 1) fuel'
          else ugrep_lines pattern buf0 (q + 1) fuel'
      end
  end.

(** [buf] is a static array: what a file leaves in it is there when the next one is read. *)
Fixpoint ugrep (pattern : list Z) (fd : Z) (buf : list Z) (m : Z) (fuel : nat) : U W (list Z) :=
  match fuel with
  | O => unofuel
  | S fuel' =>
      r ← call (s_read fd (BUFSIZE - m));
      let bytes := default [] r in
      if bool_decide (bytes = []) then mret buf
      else if m <? 0 then uundef
      else
        let buf1 := splice (Z.to_nat m) bytes buf in
        let m1 := m + Z.of_nat (length bytes) in
        x ← ugrep_lines pattern buf1 0 (S (length buf1));
        let '(buf2, p) := x in
        let m2 := if p =? 0 then 0 else m1 in
        if 0 <? m2 then ugrep pattern fd (splice 0 (take (Z.to_nat (m2 - p)) (from p buf2)) buf2) (m2 - p) fuel'
        else ugrep pattern fd buf2 m2 fuel'
  end.

(** The loop of [main] over the files. *)
Fixpoint grep_files (pattern buf : list Z) (files : list (list Z)) (fuel : nat) : U W unit :=
  match files with
  | [] => mret tt
  | f :: files' =>
      fd ← call (s_open f 0);
      if fd <? 0 then u_printf 1 (line_of "grep: cannot open %s") [AStr (Some f)] ;; uexit 1
      else
        buf' ← ugrep pattern fd buf 0 fuel;
        call (s_close fd) ;;
        grep_files pattern buf' files' fuel
  end.

Definition grep_main (argv : list (list Z)) (fuel : nat) : U W unit :=
  let buf := replicate (Z.to_nat BUFSIZE) 0 in
  match argv with
  | [] | [_] => u_printf 2 (line_of "usage: grep pattern [file ...]") [] ;; uexit 1
  | [_; pattern] => ugrep pattern 0 buf 0 fuel ;; uexit 1
  | _ :: pattern :: files => grep_files pattern buf files fuel ;; uexit 1
  end.

(** ** sh.c: the program of a command as this process runs it, and [main] *)

(** The messages on descriptor 2 of a command that fails are left out, as in ShRun.v. *)
Fixpoint run_prog (p : prog (list Z)) : U W unit :=
  match p with
  | Exit st => uexit st
  | Exec argv k => u_exec (hd [] argv) argv ;; run_prog k
  | Close fd k => call (s_close (Z.of_nat fd)) ;; run_prog k
  | Open file mode ok failed => fd ← call (s_open file mode); if fd <? 0 then run_prog failed else run_prog ok
  | Dup fd k => call (s_dup (Z.of_nat fd)) ;; run_prog k
  | MkPipe k failed =>
      r ← call s_pipe;
      match r with
      | Some (p0, p1) => run_prog (k (Z.to_nat p0) (Z.to_nat p1))
      | None => run_prog failed
      end
  | Fork child parent failed => pid ← call s_fork; if pid =? -1 then run_prog failed else if pid =? 0 then run_prog child else run_prog parent
  | Wait k => call s_wait ;; run_prog k
  end.

(** The child of the shell for a line. *)
Definition sh_child (line : list Z) : U W unit :=
  match parsecmd line with
  | POk (c, buf) _ => run_prog (runcmd (map_words (word_text buf) c))
  | PErr _ => uexit 1
  | PFuel => unofuel
  end.

(** The line in [buf], or nothing at the end of the input. *)
Definition getcmd : U W (option (list Z)) :=
  u_printf 2 (str "$ ") [] ;;
  l ← gets 100;
  mret (if nth 0 l 0 =? 0 then None else Some (cstring l)).

Definition is_cd (line : list Z) : bool := bool_decide (take 3 line = str "cd ").

Fixpoint sh_console (fuel : nat) : U W unit :=
  match fuel with
  | O => unofuel
  | S fuel' =>
      fd ← call (s_open (str "console") O_RDWR);
      if 0 <=? fd then if 3 <=? fd then call (s_close fd) ;; mret tt else sh_console fuel'
      else mret tt
  end.

Fixpoint sh_loop (fuel : nat) : U W unit :=
  match fuel with
  | O => unofuel
  | S fuel' =>
      cmd ← getcmd;
      match cmd with
      | None => mret tt
      | Some line =>
          if is_cd line then
            let dir := drop 3 (removelast line) in
            r ← call (s_chdir dir);
            (if r <? 0 then u_printf 2 (line_of "cannot cd %s") [AStr (Some dir)] else mret tt) ;;
            sh_loop fuel'
          else
            pid ← call s_fork;
            if pid =? -1 then u_printf 2 (line_of "%s") [AStr (Some (str "fork"))] ;; uexit 1
            else if pid =? 0 then sh_child line
            else call s_wait ;; sh_loop fuel'
      end
  end.

Definition sh_main (fuel : nat) : U W unit :=
  sh_console fuel ;;
  sh_loop fuel ;;
  uexit 1.
End Progs.
