(* ===== verification/ProgsSpec.v ===== *)
(** * What the user programs do

    The files and the standard output are known by the laws of [Posix], which leave open how many bytes a read returns: cat copies its files, wc counts
    lines, words and bytes as they are defined on the whole content, echo writes its arguments, grep prints what
    Grep.v says, and the shell forks one child per line.  [Jobs] adds what the shell asks of the system about processes. *)

From S2P Require Import Prelude Bytes Fs Printf Sh Grep User Progs.

(** ** Files *)

(** What is left to read on a descriptor, what has been written to one, and the content of a path. *)
Class Posix (W : Type) `{Sys W} := {
  input : W -> Z -> option (list Z);
  output : W -> Z -> list Z;
  file_at : W -> list Z -> option (list Z);
  px_read : forall w fd n l, input w fd = Some l -> 0 < n -> exists bs l' w', s_read fd n w = (Some bs, w') /\ l = bs ++ l' /\ (bs = [] -> l = []) /\ Z.of_nat (length bs) <= n /\
    input w' fd = Some l' /\ (forall fd', fd' <> fd -> input w' fd' = input w fd') /\ (forall fd', output w' fd' = output w fd') /\ (forall p, file_at w' p = file_at w p);
  px_write : forall w fd bs, fd = 1 \/ fd = 2 -> exists r w', s_write fd bs w = (r, w') /\ output w' fd = output w fd ++ bs /\
    (forall fd', fd' <> fd -> output w' fd' = output w fd') /\ (forall fd', input w' fd' = input w fd') /\ (forall p, file_at w' p = file_at w p);
  px_open : forall w p, exists fd w', s_open p 0 w = (fd, w') /\ (forall fd', output w' fd' = output w fd') /\ (forall p', file_at w' p' = file_at w p') /\
    match file_at w p with Some l => 0 <= fd /\ input w' fd = Some l | None => fd < 0 end;
  px_close : forall w fd, exists r w', s_close fd w = (r, w') /\ (forall fd', output w' fd' = output w fd') /\ (forall p, file_at w' p = file_at w p)
}.

(** The program returns, with a value and a system that satisfy [Q]. *)
Definition uruns {W A} (m : U W A) (w : W) (Q : A -> W -> Prop) : Prop := match m w with UOk a w' => Q a w' | _ => False end.

(** It exits. *)
Definition uexits {W A} (m : U W A) (w : W) (st : Z) (Q : W -> Prop) : Prop := match m w with UExit st' w' => st' = st /\ Q w' | _ => False end.

Section Triples.
Context {W : Type}.

Lemma uruns_then {A B} (m : U W A) (f : A -> U W B) w R (Q : ures W B -> Prop) : uruns m w R -> (forall a w', R a w' -> Q (f a w')) -> Q ((m ≫= f) w).
Proof. unfold uruns, mbind, u_bind. destruct (m w); naive_solver. Qed.

Lemma uruns_bind {A B} (m : U W A) (f : A -> U W B) w R (Q : B -> W -> Prop) : uruns m w R -> (forall a w', R a w' -> uruns (f a) w' Q) -> uruns (m ≫= f) w Q.
Proof. intros Hm Hf. unfold uruns at 1. eapply (uruns_then m f w R (fun r => match r with UOk a w' => Q a w' | _ => False end)); [done|]. intros a w' Ha. by apply Hf. Qed.

Lemma uexits_bind {A B} (m : U W A) (f : A -> U W B) w R st (Q : W -> Prop) : uruns m w R -> (forall a w', R a w' -> uexits (f a) w' st Q) -> uexits (m ≫= f) w st Q.
Proof. intros Hm Hf. unfold uexits at 1. eapply (uruns_then m f w R (fun r => match r with UExit st' w' => st' = st /\ Q w' | _ => False end)); [done|]. intros a w' Ha. by apply Hf. Qed.

Lemma uruns_conseq {A} (m : U W A) w (R Q : A -> W -> Prop) : uruns m w R -> (forall a w', R a w' -> Q a w') -> uruns m w Q.
Proof. unfold uruns. destruct (m w); auto. Qed.

Lemma uruns_ret {A} (a : A) w (Q : A -> W -> Prop) : Q a w -> uruns (mret a) w Q.
Proof. done. Qed.

Lemma uexits_exit {A} st w (Q : W -> Prop) : Q w -> uexits (A := A) (uexit st) w st Q.
Proof. done. Qed.

Lemma uruns_call {A} (f : W -> A * W) a w w' : f w = (a, w') -> uruns (call f) w (fun a' w'' => a' = a /\ w'' = w').
Proof. unfold uruns, call. by intros ->. Qed.
End Triples.

Section Files.
Context {W : Type} `{Sys W} `{!Posix W}.

(** Only [bs] has been written to standard output, and nothing happened to the files. *)
Definition wrote (bs : list Z) (w w' : W) : Prop := output w' 1 = output w 1 ++ bs /\ (forall fd, fd <> 1 -> output w' fd = output w fd) /\ (forall p, file_at w' p = file_at w p).

Lemma wrote_nil (w w' : W) : (forall fd, output w' fd = output w fd) -> (forall p, file_at w' p = file_at w p) -> wrote [] w w'.
Proof. intros H1 H2. split; [by rewrite app_nil_r|]. split; [|done]. intros fd _. apply H1. Qed.

Lemma wrote_trans bs1 bs2 (w w1 w2 : W) : wrote bs1 w w1 -> wrote bs2 w1 w2 -> wrote (bs1 ++ bs2) w w2.
Proof. intros (A1 & A2 & A3) (B1 & B2 & B3). split; [by rewrite B1, A1, app_assoc|]. split; [intros fd Hf; by rewrite B2, A2|intros p; by rewrite B3]. Qed.

Lemma each_write_runs bs : forall w : W, uruns (each bs (fun c => call (s_write 1 [c]) ;; mret tt)) w (fun _ w' => wrote bs w w' /\ forall fd, input w' fd = input w fd).
Proof.
  induction bs as [|c bs IH]; intros w; cbn [each]; [apply uruns_ret; split; [by apply wrote_nil|done]|].
  destruct (px_write w 1 [c] (or_introl eq_refl)) as (r & w1 & E & O1 & O2 & I1 & F1).
  eapply (uruns_bind _ _ _ (fun _ w' => w' = w1)); [eapply uruns_bind; [by apply uruns_call|]; intros ? ? (_ & ->); by apply uruns_ret|]. intros ? ? ->.
  eapply uruns_conseq; [apply IH|]. intros ? w2 (Hw & I2). split; [|intros fd; by rewrite I2]. apply (wrote_trans [c] bs w w1 w2); [|done]. done.
Qed.

Lemma printf_runs fmt args bs (w : W) : printf fmt args = Some bs -> uruns (u_printf 1 fmt args) w (fun _ w' => wrote bs w w' /\ forall fd, input w' fd = input w fd).
Proof. intros E. unfold u_printf. rewrite E. apply each_write_runs. Qed.

(** ** cat *)

Lemma cat_runs fuel : forall fd l (w : W), input w fd = Some l -> (length l < fuel)%nat -> uruns (cat fd fuel) w (fun _ w' => wrote l w w').
Proof.
  induction fuel as [|fuel IH]; intros fd l w Hi Hf; [lia|]. cbn [cat]. destruct (px_read w fd 512 l Hi ltac:(lia)) as (bs & l' & w1 & E & El & Hn & _ & I1 & I2 & O1 & F1).
  eapply uruns_bind; [by apply uruns_call|]. intros ? ? (-> & ->). destruct bs as [|c bs].
  - rewrite (Hn eq_refl). apply uruns_ret. by apply wrote_nil.
  - destruct (px_write w1 1 (c :: bs) (or_introl eq_refl)) as (r & w2 & E2 & O2 & O3 & I3 & F2).
    eapply uruns_bind; [by apply uruns_call|]. intros ? ? (-> & ->). eapply uruns_conseq; [apply (IH fd l' w2); [by rewrite I3|subst l; cbn in Hf; rewrite length_app in Hf; lia]|].
    intros ? w3 Hw. rewrite El. apply (wrote_trans (c :: bs) l' w w2 w3); [|done]. split; [by rewrite O2, O1|]. split; [intros fd' Hfd; by rewrite O3, O1|intros p; by rewrite F2].
Qed.

(** The loop over the files, where [body] writes [f l] for a file with content [l]. *)
Lemma files_runs (body : list Z -> U W unit) (f : list Z -> list Z -> list Z) files : forall ls (w : W), Forall2 (fun p l => file_at w p = Some l) files ls ->
  (forall p l w, In l ls -> file_at w p = Some l -> uruns (body p) w (fun _ w' => wrote (f p l) w w')) ->
  uruns (each files body) w (fun _ w' => wrote (concat (zip_with f files ls)) w w').
Proof.
  induction files as [|p files IH]; intros ls w Hf Hb; inversion Hf as [|? l ? ls' Hp Hfs]; subst; cbn [each zip_with concat]; [apply uruns_ret; by apply wrote_nil|].
  eapply uruns_bind; [apply (Hb p l); [by left|done]|]. intros ? w1 Hw. eapply uruns_conseq; [apply (IH ls' w1)|].
  - eapply Forall2_impl; [exact Hfs|]. intros p' l' Hp'. destruct Hw as (_ & _ & ->). done.
  - intros p' l' w' Hin. apply Hb. by right.
  - intros ? w2 Hw2. exact (wrote_trans _ _ _ _ _ Hw Hw2).
Qed.

(** A program that opens each file, handles it and closes it. *)
Lemma open_files_runs (body : list Z -> Z -> U W unit) (fail : list Z -> U W unit) (f : list Z -> list Z -> list Z) files ls (w : W) : Forall2 (fun p l => file_at w p = Some l) files ls ->
  (forall p fd l w, In l ls -> input w fd = Some l -> uruns (body p fd) w (fun _ w' => wrote (f p l) w w')) ->
  uruns (each files (fun p => fd ← call (s_open p 0); if fd <? 0 then fail p else body p fd ;; call (s_close fd) ;; mret tt)) w (fun _ w' => wrote (concat (zip_with f files ls)) w w').
Proof.
  intros Hf Hb. apply files_runs; [done|]. intros p l w1 Hin Hp. destruct (px_open w1 p) as (fd & w2 & E & O2 & F2 & Ho). rewrite Hp in Ho. destruct Ho as (Hfd & I2).
  eapply uruns_bind; [by apply uruns_call|]. intros ? ? (-> & ->). rewrite (proj2 (Z.ltb_ge _ _)) by lia.
  eapply uruns_bind; [by apply (Hb p fd l w2)|]. intros ? w3 Hw3.
  destruct (px_close w3 fd) as (r & w4 & E4 & O4 & F4). eapply uruns_bind; [by apply uruns_call|]. intros ? ? (_ & ->). apply uruns_ret.
  destruct Hw3 as (A1 & A2 & A3). split; [by rewrite O4, A1, O2|]. split; [intros fd' Hne; by rewrite O4, A2, O2|intros p'; by rewrite F4, A3, F2].
Qed.

(** Cat writes the contents of its files to standard output, one after the other, and exits with 0, however many bytes each read returns. *)
Theorem cat_copies (name : list Z) (files ls : list (list Z)) (fuel : nat) (w : W) : files <> [] -> Forall2 (fun p l => file_at w p = Some l) files ls -> Forall (fun l => length l < fuel)%nat ls ->
  uexits (cat_main (name :: files) fuel) w 0 (fun w' => output w' 1 = output w 1 ++ concat ls).
Proof.
  intros Hne Hf Hl. unfold cat_main. destruct files as [|f0 files0] eqn:Efs; [done|]. rewrite <- Efs in *. clear Hne Efs f0 files0.
  eapply uexits_bind; [eapply (open_files_runs (fun _ fd => cat fd fuel) _ (fun _ l => l) files ls w Hf)|].
  - intros p fd l w1 Hin Hi. apply cat_runs; [done|]. rewrite Forall_forall in Hl. by apply Hl, list_elem_of_In.
  - intros ? w' (Hw & _). apply uexits_exit. rewrite Hw. f_equal. f_equal. clear -Hf. induction Hf; [done|]. cbn. by f_equal.
Qed.

(** ** wc *)

Definition space (c : Z) : bool := strchr [32; 13; 9; 10; 11] c.

(** The pieces of a text between its white space; a word is a piece that is not empty. *)
Fixpoint pieces (l : list Z) : list (list Z) :=
  match l with
  | [] => [[]]
  | c :: l' =>
      if space c then [] :: pieces l'
      else match pieces l' with
           | p :: ps => (c :: p) :: ps
           | [] => [[c]]
           end
  end.
Definition words (l : list Z) : list (list Z) := filter (fun p => p <> []) (pieces l).
Definition newlines (l : list Z) : list Z := filter (fun c => c = 10) l.

(** The words that start in [l], where [inw] says that one is under way. *)
Fixpoint starts (inw : bool) (l : list Z) : Z :=
  match l with
  | [] => 0
  | c :: l' => if space c then starts false l' else (if inw then 0 else 1) + starts true l'
  end.

Lemma starts_words l : starts false l = Z.of_nat (length (words l)) /\
  starts true l = Z.of_nat (length (words l)) - match pieces l with (_ :: _) :: _ => 1 | _ => 0 end /\ pieces l <> [].
Proof.
  induction l as [|c l (IH1 & IH2 & IH3)]; [done|]. unfold words in *. cbn [starts pieces]. destruct (space c).
  - rewrite filter_cons_False by naive_solver. split_and!; [done|lia|done].
  - destruct (pieces l) as [|p ps]; [done|]. rewrite filter_cons_True by done. cbn [length]. rewrite IH2. destruct p as [|d p].
    + rewrite filter_cons_False by naive_solver. split_and!; [lia|lia|done].
    + rewrite filter_cons_True by done. cbn [length]. split_and!; [lia|lia|done].
Qed.

Lemma starts_bound l : forall inw, 0 <= starts inw l <= Z.of_nat (length l).
Proof. induction l as [|c l IH]; intros inw; cbn [starts length]; [lia|]. destruct (space c); [specialize (IH false)|specialize (IH true)]; destruct inw; lia. Qed.

Lemma wc_bytes l : forall a b n inw, 0 <= a <= n -> 0 <= b <= n -> n + Z.of_nat (length l) < 2147483648 -> exists inw',
  foldl wc_byte (Wc a b n inw) l = Wc (a + Z.of_nat (length (newlines l))) (b + starts inw l) (n + Z.of_nat (length l)) inw'.
Proof.
  induction l as [|c l IH]; intros a b n inw Ha Hb Hn; [exists inw; cbn; f_equal; lia|].
  cbn [foldl starts length] in *. unfold newlines. rewrite filter_cons. fold (newlines l). unfold wc_byte at 2. fold (space c).
  rewrite (s32_small (n + 1)), (s32_small (a + 1)), (s32_small (b + 1)) by lia.
  assert (Ea : exists a', (if c =? 10 then a + 1 else a) = a' /\ a <= a' <= a + 1 /\ a' + Z.of_nat (length (newlines l)) = a + Z.of_nat (length (if decide (c = 10) then c :: newlines l else newlines l))).
  { eexists. split; [done|]. destruct (Z.eqb_spec c 10); [rewrite decide_True by done|rewrite decide_False by done]; cbn [length]; lia. }
  destruct Ea as (a' & -> & Ha' & <-). destruct (space c).
  - destruct (IH a' b (n + 1) false ltac:(lia) ltac:(lia) ltac:(lia)) as (inw' & ->). exists inw'. f_equal; lia.
  - destruct inw; cbn [negb].
    + destruct (IH a' b (n + 1) true ltac:(lia) ltac:(lia) ltac:(lia)) as (inw' & ->). exists inw'. f_equal; lia.
    + destruct (IH a' (b + 1) (n + 1) true ltac:(lia) ltac:(lia) ltac:(lia)) as (inw' & ->). exists inw'. f_equal; lia.
Qed.

Lemma wc_loop_runs fuel : forall fd x l (w : W), input w fd = Some l -> (length l < fuel)%nat -> uruns (wc_loop fd x fuel) w (fun x' w' => x' = foldl wc_byte x l /\ wrote [] w w').
Proof.
  induction fuel as [|fuel IH]; intros fd x l w Hi Hf; [lia|]. cbn [wc_loop]. destruct (px_read w fd 512 l Hi ltac:(lia)) as (bs & l' & w1 & E & El & Hn & _ & I1 & I2 & O1 & F1).
  eapply uruns_bind; [by apply uruns_call|]. intros ? ? (-> & ->). destruct bs as [|c bs].
  - rewrite (Hn eq_refl). apply uruns_ret. split; [done|by apply wrote_nil].
  - eapply uruns_conseq; [apply (IH fd _ l' w1); [done|subst l; cbn in Hf; rewrite length_app in Hf; lia]|].
    intros ? w3 (-> & Hw). split; [by rewrite El, foldl_app|]. exact (wrote_trans [] [] _ _ _ (wrote_nil _ _ O1 F1) Hw).
Qed.

(** A number as it is printed, and the line of wc for a file. *)
Definition decimal (n : Z) : list Z := default [] (printint_bytes digits_upper n 10 true).
Definition wc_report (name l : list Z) : list Z :=
  decimal (Z.of_nat (length (newlines l))) ++ [32] ++ decimal (Z.of_nat (length (words l))) ++ [32] ++ decimal (Z.of_nat (length l)) ++ [32] ++ name ++ [10].

Lemma decimal_some n : -2147483648 <= n < 2147483648 -> printint_bytes digits_upper n 10 true = Some (decimal n).
Proof. intros Hn. unfold decimal. destruct (int_digits digits_upper n (or_introl eq_refl) Hn) as ((l & -> & _) & _). done. Qed.

Lemma wc_printf a b c name : 0 <= a < 2147483648 -> 0 <= b < 2147483648 -> 0 <= c < 2147483648 ->
  printf (line_of "%d %d %d %s") [AWord a; AWord b; AWord c; AStr (Some name)] = Some (decimal a ++ [32] ++ decimal b ++ [32] ++ decimal c ++ [32] ++ name ++ [10]).
Proof.
  intros Ha Hb Hc. change (line_of "%d %d %d %s") with [37; 100; 32; 37; 100; 32; 37; 100; 32; 37; 115; 10]. unfold printf. cbv -[s32 printint_bytes digits_upper decimal app].
  rewrite !s32_small, !decimal_some by lia. done.
Qed.

Lemma wc_runs fuel fd name l (w : W) : input w fd = Some l -> (length l < fuel)%nat -> Z.of_nat (length l) < 2147483648 -> uruns (wc fd name fuel) w (fun _ w' => wrote (wc_report name l) w w').
Proof.
  intros Hi Hf Hl. unfold wc. eapply uruns_bind; [by apply (wc_loop_runs fuel fd _ l)|]. intros ? w1 (-> & Hw).
  destruct (wc_bytes l 0 0 0 false ltac:(lia) ltac:(lia) ltac:(lia)) as (inw' & ->). cbn [wc_l wc_w wc_c]. pose proof (starts_bound l false) as Hs.
  destruct (starts_words l) as (Es & _). rewrite Es in *. rewrite !Z.add_0_l.
  assert (Hnl : (length (newlines l) <= length l)%nat) by apply length_filter.
  eapply uruns_conseq; [eapply printf_runs, wc_printf; lia|]. intros ? w2 (Hw2 & _). exact (wrote_trans [] _ _ _ _ Hw Hw2).
Qed.

(** C37: wc prints for each file, in order, its lines, words and bytes as they are defined on the whole content, its name and a newline, however many bytes each
    read returns; a word that two reads share counts once. *)
Theorem wc_counts (name : list Z) (files ls : list (list Z)) (fuel : nat) (w : W) : files <> [] -> Forall2 (fun p l => file_at w p = Some l) files ls ->
  Forall (fun l => (length l < fuel)%nat /\ Z.of_nat (length l) < 2147483648) ls ->
  uexits (wc_main (name :: files) fuel) w 1 (fun w' => output w' 1 = output w 1 ++ concat (zip_with wc_report files ls)).
Proof.
  intros Hne Hf Hl. unfold wc_main. destruct files as [|f0 files0] eqn:Efs; [done|]. rewrite <- Efs in *. clear Hne Efs f0 files0.
  eapply uexits_bind; [eapply (open_files_runs (fun p fd => wc fd p fuel) _ wc_report files ls w Hf)|].
  - intros p fd l w1 Hin Hi. rewrite Forall_forall in Hl. destruct (Hl l) as (? & ?); [by apply list_elem_of_In|]. by apply wc_runs.
  - intros ? w' (Hw & _). by apply uexits_exit.
Qed.

(** ** echo *)

(** The arguments with a blank between them, and a newline after the last. *)
Fixpoint echo_text (args : list (list Z)) : list Z :=
  match args with
  | [] => []
  | [a] => a ++ [10]
  | a :: args' => a ++ [32] ++ echo_text args'
  end.

Lemma echo_correct (name : list Z) (args : list (list Z)) (w : W) : uexits (echo_main (name :: args)) w 0 (fun w' => output w' 1 = output w 1 ++ echo_text args).
Proof.
  unfold echo_main. cbn [tail]. eapply (uexits_bind _ _ _ (fun _ w' => wrote (echo_text args) w w')); [|intros ? w' R; apply uexits_exit; exact (proj1 R)]. revert w.
  induction args as [|a args IH]; intros w; cbn [echo_args]; [apply uruns_ret; by apply (wrote_nil w w)|].
  set (sep := match args with [] => [10] | _ => [32] end). eapply uruns_bind.
  - apply (printf_runs _ _ (a ++ sep)). change (str "%s%s") with [37; 115; 37; 115]. cbn. by rewrite app_nil_r.
  - intros ? w1 (Hw1 & _). eapply uruns_conseq; [apply (IH w1)|]. intros ? w2 Hw2. pose proof (wrote_trans _ _ _ _ _ Hw1 Hw2) as Hw.
    replace (echo_text (a :: args)) with ((a ++ sep) ++ echo_text args); [exact Hw|]. destruct args; cbn; rewrite <- ?app_assoc, ?app_nil_r; done.
Qed.
(** ** grep *)

(** The loop over the lines of the buffer writes what that of Grep.v prints, *)
Lemma ugrep_lines_sim pattern fuel : forall buf p out (w : W),
  match lines_loop pattern buf p out fuel with
  | GOk (buf', p', out') => exists o, out' = out ++ o /\ uruns (ugrep_lines pattern buf p fuel) w (fun r w' => r = (buf', p') /\ wrote o w w' /\ forall fd, input w' fd = input w fd)
  | GUndef => ugrep_lines pattern buf p fuel w = UUndef
  | GNoFuel => ugrep_lines pattern buf p fuel w = UNoFuel
  end.
Proof.
  induction fuel as [|fuel IH]; intros buf p out w; cbn [lines_loop ugrep_lines]; [done|]. destruct (find_nl (from p buf) p) as [[q|]| |]; [|exists []; split; [by rewrite app_nil_r|]; apply uruns_ret; split_and!; [done|by apply wrote_nil|done]|done|done].
  destruct (grep_match pattern (cstr (from p (set_at q 0 buf)))).
  - set (o1 := take _ _). set (buf1 := set_at q ch_nl _). destruct (px_write w 1 o1 (or_introl eq_refl)) as (r & w1 & E & O1 & O2 & I1 & F1).
    assert (Hw : wrote o1 w w1) by done. specialize (IH buf1 (q + 1) (out ++ o1) w1). destruct (lines_loop pattern buf1 (q + 1) (out ++ o1) fuel) as [[[buf' p'] out']| |].
    + destruct IH as (o & -> & R). exists (o1 ++ o). split; [by rewrite app_assoc|]. eapply uruns_bind; [by apply uruns_call|]. intros ? ? (_ & ->).
      eapply uruns_conseq; [exact R|]. intros ? w2 (-> & Hw2 & I2). split_and!; [done|by eapply wrote_trans|]. intros fd. by rewrite I2, I1.
    + unfold mbind, u_bind, call. rewrite E. exact IH.
    + unfold mbind, u_bind, call. rewrite E. exact IH.
  - apply (IH _ _ out w).
Qed.

Lemma lines_loop_pos pattern fuel : forall buf p out buf' p' out', lines_loop pattern buf p out fuel = GOk (buf', p', out') -> p <= p'.
Proof.
  induction fuel as [|fuel IH]; intros buf p out buf' p' out'; cbn [lines_loop]; [done|]. destruct (find_nl_range (from p buf) p) as (_ & Hr).
  destruct (find_nl (from p buf) p) as [[q|]| |]; [|by injection 1 as <- <- <-|done..]. specialize (Hr q eq_refl). destruct (grep_match _ _); intros Hq%IH; lia.
Qed.

Lemma read_fd_piece bs rest n : Z.of_nat (length bs) <= n -> read_fd (bs :: rest) n = (bs, rest).
Proof. intros Hn. cbn [read_fd]. by rewrite (proj2 (Z.leb_le _ _)). Qed.

(** and grep on a file prints what [grep_loop] of Grep.v prints for some pieces of the file, or goes wrong with it. *)
Lemma ugrep_sim pattern fd fuel : forall buf m l out (w : W), m < BUFSIZE -> input w fd = Some l -> exists chunks, concat chunks = l /\
  match grep_loop pattern buf m chunks out fuel with
  | GOk out' => exists o, out' = out ++ o /\ uruns (ugrep pattern fd buf m fuel) w (fun _ w' => wrote o w w')
  | GUndef => ugrep pattern fd buf m fuel w = UUndef
  | GNoFuel => ugrep pattern fd buf m fuel w = UNoFuel
  end.
Proof.
  induction fuel as [|fuel IH]; intros buf m l out w Hm Hi; [exists [l]; split; [by rewrite concat_cons, app_nil_r|done]|].
  destruct (px_read w fd (BUFSIZE - m) l Hi ltac:(lia)) as (bs & l' & w1 & E & El & Hn & Hlen & I1 & I2 & O1 & F1). cbn [grep_loop ugrep].
  assert (Hw1 : wrote [] w w1) by (by apply wrote_nil). assert (Ec : concat [bs; l'] = l) by (cbn; by rewrite app_nil_r).
  destruct (decide (bs = [])) as [->|Hne].
  { rewrite (Hn eq_refl). exists []. split; [done|]. exists []. split; [by rewrite app_nil_r|]. eapply uruns_bind; [by apply uruns_call|]. intros ? ? (-> & ->). by apply uruns_ret. }
  assert (Hu : forall (k : option (list Z) -> U W (list Z)), (call (s_read fd (BUFSIZE - m)) ≫= k) w = k (Some bs) w1) by (intros k; unfold mbind, u_bind, call; by rewrite E).
  unfold uruns. rewrite Hu. change (default [] (Some bs)) with bs. rewrite bool_decide_false by done. destruct (m <? 0) eqn:Em; [exists [bs; l']; split; [done|]; rewrite read_fd_piece by lia; rewrite bool_decide_false by done; done|].
  set (buf1 := splice _ _ _). pose proof (ugrep_lines_sim pattern (S (length buf1)) buf1 0 out w1) as R.
  destruct (lines_loop pattern buf1 0 out (S (length buf1))) as [[[buf2 p] out2]| |] eqn:El2.
  - destruct R as (o1 & -> & R). pose proof (lines_loop_pos _ _ _ _ _ _ _ _ El2) as Hp. set (m2 := if p =? 0 then 0 else m + Z.of_nat (length bs)).
    set (buf3 := if 0 <? m2 then splice 0 (take (Z.to_nat (m2 - p)) (from p buf2)) buf2 else buf2). set (m3 := if 0 <? m2 then m2 - p else m2).
    unfold uruns in R. destruct (ugrep_lines pattern buf1 0 (S (length buf1)) w1) as [r w2| | | |] eqn:Er; try done. destruct R as (-> & Hw2 & I3).
    assert (Hm3 : m3 < BUFSIZE) by (subst m3 m2; destruct (Z.eqb_spec p 0); cbn; [by vm_compute|]; destruct (0 <? _) eqn:?; bool_hyps; unfold BUFSIZE in *; lia).
    destruct (IH buf3 m3 l' (out ++ o1) w2 Hm3 ltac:(by rewrite I3)) as (chunks & Ec' & R'). exists (bs :: chunks). split; [by rewrite concat_cons, Ec'|].
    rewrite read_fd_piece by lia. rewrite bool_decide_false by done. fold buf1. rewrite El2.
    fold m2. unfold mbind, u_bind. rewrite Er. fold m2. subst buf3 m3. destruct (0 <? m2).
    all: destruct (grep_loop pattern _ _ chunks (out ++ o1) fuel) as [out'| |]; [|exact R'|exact R']; destruct R' as (o & -> & R'); exists (o1 ++ o); split; [by rewrite app_assoc|];
      unfold uruns in R'; destruct (ugrep pattern fd _ _ fuel w2); try done; exact (wrote_trans [] _ _ _ _ Hw1 (wrote_trans _ _ _ _ _ Hw2 R')).
  - exists [bs; l']. split; [done|]. rewrite read_fd_piece by lia. rewrite bool_decide_false by done. fold buf1. rewrite El2. unfold mbind, u_bind. by rewrite R.
  - exists [bs; l']. split; [done|]. rewrite read_fd_piece by lia. rewrite bool_decide_false by done. fold buf1. rewrite El2. unfold mbind, u_bind. by rewrite R.
Qed.
End Files.

(** ** The shell *)

(** What the shell asks of the system about processes and directories. *)
Inductive job := Forked | Waited | Cd (dir : list Z).

(** The children leave the standard input to the shell; reading and writing are no jobs. *)
Class Jobs (W : Type) `{Posix W} := {
  jobs : W -> list job;
  jb_read : forall w fd n, jobs (s_read fd n w).2 = jobs w;
  jb_write : forall w fd bs, jobs (s_write fd bs w).2 = jobs w;
  jb_fork : forall w, exists pid w', s_fork w = (pid, w') /\ 0 < pid /\ jobs w' = jobs w ++ [Forked] /\ input w' 0 = input w 0;
  jb_wait : forall w, exists pid w', s_wait w = (pid, w') /\ jobs w' = jobs w ++ [Waited] /\ input w' 0 = input w 0;
  jb_chdir : forall w dir, exists r w', s_chdir dir w = (r, w') /\ jobs w' = jobs w ++ [Cd dir] /\ input w' 0 = input w 0
}.

Section Shell.
Context {W : Type} `{Sys W} `{!Posix W} `{!Jobs W}.

(** A line the buffer of the shell holds, with its newline. *)
Definition line_ok (l : list Z) : Prop := Forall (fun c => c <> 0 /\ c <> 10 /\ c <> 13) l /\ (length l <= 98)%nat.

Definition steps (l : list Z) : list job := if is_cd l then [Cd (drop 3 l)] else [Forked; Waited].

Lemma each_write2_runs bs : forall w : W, uruns (each bs (fun c => call (s_write 2 [c]) ;; mret tt)) w (fun _ w' => jobs w' = jobs w /\ input w' 0 = input w 0).
Proof.
  induction bs as [|c bs IH]; intros w; cbn [each]; [by apply uruns_ret|].
  destruct (px_write w 2 [c] (or_intror eq_refl)) as (r & w1 & E & _ & _ & I1 & _). pose proof (jb_write w 2 [c]) as J. rewrite E in J. cbn in J.
  eapply (uruns_bind _ _ _ (fun _ w' => w' = w1)); [eapply uruns_bind; [by apply uruns_call|]; intros ? ? (_ & ->); by apply uruns_ret|]. intros ? ? ->.
  eapply uruns_conseq; [apply IH|]. intros ? w2 (-> & ->). by rewrite J, I1.
Qed.

Lemma printf2_runs fmt args bs (w : W) : printf fmt args = Some bs -> uruns (u_printf 2 fmt args) w (fun _ w' => jobs w' = jobs w /\ input w' 0 = input w 0).
Proof. intros E. unfold u_printf. rewrite E. apply each_write2_runs. Qed.

Lemma gets_loop_line l : forall n rest (w : W), (length l < n)%nat -> Forall (fun c => c <> 0 /\ c <> 10 /\ c <> 13) l -> input w 0 = Some (l ++ [10] ++ rest) ->
  uruns (gets_loop n) w (fun r w' => r = l ++ [10] /\ jobs w' = jobs w /\ input w' 0 = Some rest).
Proof.
  induction l as [|c l IH]; intros n rest w Hn Hl Hi; destruct n as [|n]; cbn [length] in Hn; try lia; cbn [gets_loop].
  all: destruct (px_read w 0 1 _ Hi ltac:(lia)) as (bs & l' & w1 & E & El & Hne & Hlen & I1 & _); pose proof (jb_read w 0 1) as J; rewrite E in J; cbn in J.
  all: destruct bs as [|c0 [|? ?]]; [by specialize (Hne eq_refl)| |cbn [length] in Hlen; lia]; cbn in El; injection El as <- <-.
  all: eapply uruns_bind; [by apply uruns_call|]; intros ? ? (-> & ->).
  - by apply uruns_ret.
  - apply Forall_cons in Hl as ((H0 & H10 & H13) & Hl). rewrite (proj2 (Z.eqb_neq c 10)), (proj2 (Z.eqb_neq c 13)) by done. cbn [orb].
    eapply uruns_bind; [apply (IH n rest w1); [lia|done|done]|]. intros ? w2 (-> & Hj & I2). apply uruns_ret. by rewrite Hj, J.
Qed.

Lemma gets_loop_end n (w : W) : input w 0 = Some [] -> uruns (gets_loop (S n)) w (fun r w' => r = [] /\ jobs w' = jobs w /\ input w' 0 = Some []).
Proof.
  intros Hi. cbn [gets_loop]. destruct (px_read w 0 1 _ Hi ltac:(lia)) as (bs & l' & w1 & E & El & _ & _ & I1 & _). pose proof (jb_read w 0 1) as J. rewrite E in J. cbn in J.
  destruct bs; [|done]. cbn in El. subst l'. eapply uruns_bind; [by apply uruns_call|]. intros ? ? (-> & ->). by apply uruns_ret.
Qed.

Lemma cstring_line l : Forall (fun c => c <> 0 /\ c <> 10 /\ c <> 13) l -> cstring (l ++ [10]) = l ++ [10].
Proof. induction 1 as [|c l (Hc & _) Hl IH]; [done|]. cbn. rewrite (proj2 (Z.eqb_neq c 0)) by done. by f_equal. Qed.

Lemma getcmd_line l rest (w : W) : line_ok l -> input w 0 = Some (l ++ [10] ++ rest) ->
  uruns getcmd w (fun r w' => r = Some (l ++ [10]) /\ jobs w' = jobs w /\ input w' 0 = Some rest).
Proof.
  intros (Hl & Hn) Hi. unfold getcmd. eapply uruns_bind; [eapply (printf2_runs _ _ [36; 32]); reflexivity|]. intros ? w1 (J1 & I1).
  eapply uruns_bind; [apply (gets_loop_line l (Z.to_nat (100 - 1)) rest w1); [change (Z.to_nat (100 - 1)) with 99%nat; lia|done|by rewrite I1]|].
  intros ? w2 (-> & J2 & I2). apply uruns_ret. rewrite cstring_line by done. split_and!; [|by rewrite J2|done].
  destruct Hl as [|c l (Hc & _) _]; [done|]. cbn [app nth]. by rewrite (proj2 (Z.eqb_neq c 0)).
Qed.

Lemma getcmd_end (w : W) : input w 0 = Some [] -> uruns getcmd w (fun r w' => r = None /\ jobs w' = jobs w /\ input w' 0 = Some []).
Proof.
  intros Hi. unfold getcmd. eapply uruns_bind; [eapply (printf2_runs _ _ [36; 32]); reflexivity|]. intros ? w1 (J1 & I1).
  eapply uruns_bind; [change (gets 100) with (gets_loop (W := W) 99); apply gets_loop_end; by rewrite I1|]. intros ? w2 (-> & J2 & I2). apply uruns_ret. by rewrite J2.
Qed.

Lemma is_cd_line l : Forall (fun c => c <> 0 /\ c <> 10 /\ c <> 13) l -> is_cd (l ++ [10]) = is_cd l.
Proof.
  intros Hl. unfold is_cd. apply bool_decide_ext. change (str "cd ") with [99; 100; 32].
  destruct l as [|a [|b [|c l]]]; cbn; [done|..]; rewrite ?Forall_cons in Hl; [split; congruence..|]. by rewrite !take_0.
Qed.

Lemma cannot_cd dir : printf (line_of "cannot cd %s") [AStr (Some dir)] = Some (str "cannot cd " ++ dir ++ [10]).
Proof. by vm_compute. Qed.

(** One round of the loop. *)
Lemma sh_round l rest fuel (w : W) Q : line_ok l -> input w 0 = Some (l ++ [10] ++ rest) ->
  (forall w', jobs w' = jobs w ++ steps l -> input w' 0 = Some rest -> uruns (sh_loop fuel) w' Q) -> uruns (sh_loop (S fuel)) w Q.
Proof.
  intros Hl Hi HQ. cbn [sh_loop]. eapply uruns_bind; [by apply getcmd_line|]. intros ? w1 (-> & J1 & I1). unfold steps in HQ. rewrite is_cd_line by apply Hl.
  destruct (is_cd l) eqn:Ecd.
  - rewrite removelast_last. destruct (jb_chdir w1 (drop 3 l)) as (r & w2 & E & J2 & I2). eapply uruns_bind; [by apply uruns_call|]. intros ? ? (-> & ->).
    eapply (uruns_bind _ _ _ (fun _ w' => jobs w' = jobs w2 /\ input w' 0 = input w2 0)).
    + destruct (r <? 0); [eapply printf2_runs, cannot_cd|by apply uruns_ret].
    + intros ? w3 (J3 & I3). apply HQ; [by rewrite J3, J2, J1|by rewrite I3, I2].
  - destruct (jb_fork w1) as (pid & w2 & E & Hp & J2 & I2). eapply uruns_bind; [by apply uruns_call|]. intros ? ? (-> & ->).
    rewrite (proj2 (Z.eqb_neq pid (-1))), (proj2 (Z.eqb_neq pid 0)) by lia. destruct (jb_wait w2) as (pid' & w3 & E3 & J3 & I3).
    eapply uruns_bind; [by apply uruns_call|]. intros ? ? (-> & ->). apply HQ; [by rewrite J3, J2, J1, <- app_assoc|by rewrite I3, I2].
Qed.

(** C30: the shell reads its input line by line to the end: for a line that begins with "cd " it changes its own directory to the rest of the line, and for any
    other it forks one child and waits before it reads the next line. *)
Theorem sh_handles_lines (lines : list (list Z)) (fuel : nat) (w : W) : Forall line_ok lines -> input w 0 = Some (concat ((fun l => l ++ [10]) <$> lines)) -> (length lines < fuel)%nat ->
  uruns (sh_loop fuel) w (fun _ w' => jobs w' = jobs w ++ concat (steps <$> lines) /\ input w' 0 = Some []).
Proof.
  intros Hl. revert w fuel. induction Hl as [|l lines Hl Hls IH]; intros w fuel Hi Hf; (destruct fuel as [|fuel]; [lia|]).
  - cbn [sh_loop]. eapply uruns_bind; [by apply getcmd_end|]. intros ? w1 (-> & J & I). apply uruns_ret. by rewrite J, app_nil_r.
  - rewrite fmap_cons in Hi. cbn [concat] in Hi. rewrite <- app_assoc in Hi. eapply sh_round; [done|exact Hi|]. intros w1 J1 I1. cbn [length] in Hf.
    eapply uruns_conseq; [apply (IH w1 fuel I1); lia|]. intros ? w2 (J2 & I2). split; [|done]. rewrite J2, J1, fmap_cons. cbn [concat]. by rewrite <- app_assoc.
Qed.
End Shell.

(** ** A system with two files, whose reads return at most three bytes *)

Record world := World { w_in : Z -> option (list Z); w_out : Z -> list Z; w_files : list Z -> option (list Z); w_jobs : list job }.

Definition w_read (fd n : Z) (w : world) : option (list Z) * world :=
  match w_in w fd with
  | Some l =>
      let k := Z.to_nat (Z.min 3 n) in
      (Some (take k l), World (upd (w_in w) fd (Some (drop k l))) (w_out w) (w_files w) (w_jobs w))
  | None => (None, w)
  end.
Definition w_write (fd : Z) (bs : list Z) (w : world) : Z * world := (Z.of_nat (length bs), World (w_in w) (upd (w_out w) fd (w_out w fd ++ bs)) (w_files w) (w_jobs w)).
Definition w_open (p : list Z) (w : world) : Z * world :=
  match w_files w p with Some l => (3, World (upd (w_in w) 3 (Some l)) (w_out w) (w_files w) (w_jobs w)) | None => (-1, w) end.
Definition w_job (r : Z) (j : job) (w : world) : Z * world := (r, World (w_in w) (w_out w) (w_files w) (w_jobs w ++ [j])).

#[global] Instance world_sys : Sys world := {|
  s_read := w_read; s_write := w_write; s_open p _ := w_open p; s_close _ w := (0, w); s_dup _ w := (-1, w); s_pipe w := (None, w); s_fstat _ w := (None, w);
  s_link _ _ w := (-1, w); s_unlink _ w := (-1, w); s_mkdir _ w := (-1, w); s_mknod _ _ _ w := (-1, w); s_chdir d := w_job 0 (Cd d); s_fork := w_job 4 Forked;
  s_exec _ _ w := (false, w); s_wait := w_job 4 Waited; s_kill _ w := (-1, w); s_sleep _ w := (0, w) |}.

#[global] Program Instance world_posix : Posix world := {| input := w_in; output := w_out; file_at := w_files |}.
Next Obligation.
  intros w fd n l Hi Hn. unfold s_read, world_sys, w_read. rewrite Hi. do 3 eexists. split; [done|]. cbn -[take drop upd]. split; [by rewrite take_drop|].
  split; [|rewrite length_take, upd_eq; split_and!; [lia|done|intros fd' Hne; by apply upd_ne|done|done]].
  destruct l; [done|]. destruct (Z.to_nat (Z.min 3 n)) eqn:E; [lia|]. done.
Qed.
Next Obligation.
  intros w fd bs _. do 2 eexists. split; [done|]. cbn [w_out w_in w_files]. rewrite upd_eq. split_and!; [done|intros fd' Hne; by apply upd_ne|done|done].
Qed.
Next Obligation.
  intros w p. unfold s_open, world_sys, w_open. destruct (w_files w p) as [l|]; do 2 eexists; (split; [done|]); cbn [w_in w_out w_files]; rewrite ?upd_eq; split_and!; (done || lia).
Qed.
Next Obligation. intros w fd. by do 2 eexists. Qed.

#[global] Program Instance world_jobs : Jobs world := {| jobs := w_jobs |}.
Next Obligation. intros w fd n. unfold s_read, world_sys, w_read. by destruct (w_in w fd). Qed.
Next Obligation. done. Qed.
Next Obligation. intros w. by do 2 eexists. Qed.
Next Obligation. intros w. by do 2 eexists. Qed.
Next Obligation. intros w dir. by do 2 eexists. Qed.

(** Files "a" and "b" of the contents "one two\n" and "three\n", and "cd /\nls\n" on standard input. *)
Definition w0 : world := {|
  w_in := upd (fun _ => None) 0 (Some [99; 100; 32; 47; 10; 108; 115; 10]);
  w_out _ := [];
  w_files p := if decide (p = [97]) then Some (line_of "one two") else if decide (p = [98]) then Some (line_of "three") else None;
  w_jobs := [] |}.

Lemma cat_copies_witness : uexits (cat_main [str "cat"; [97]; [98]] 20) w0 0 (fun w' => output w' 1 = line_of "one two" ++ line_of "three").
Proof.
  pose proof (cat_copies (str "cat") [[97]; [98]] [line_of "one two"; line_of "three"] 20 w0) as R.
  apply R; [done|by repeat constructor|]. repeat constructor; cbn; lia.
Defined.

Lemma wc_counts_witness : uexits (wc_main [str "wc"; [97]; [98]] 20) w0 1 (fun w' => output w' 1 = line_of "1 2 8 a" ++ line_of "1 1 6 b").
Proof.
  pose proof (wc_counts (str "wc") [[97]; [98]] [line_of "one two"; line_of "three"] 20 w0) as R.
  apply R; [done|by repeat constructor|]. repeat constructor; cbn; lia.
Defined.

Lemma sh_handles_lines_witness : uruns (sh_loop 5) w0 (fun _ w' => jobs w' = [Cd [47]; Forked; Waited] /\ input w' 0 = Some []).
Proof.
  pose proof (sh_handles_lines [[99; 100; 32; 47]; [108; 115]] 5 w0) as R.
  apply R; [|done|cbn; lia]. repeat constructor; cbn; lia.
Defined.
