(* ===== verification/Kvm.v ===== *)
(** * The kernel's address space: setupkvm of vm.c

    Every page directory starts from [setupkvm]: the theorem gives the entry of each virtual address, and with it that the kernel's part is
    the same in every address space and closed to user programs. *)

From S2P Require Import Prelude CString Mmu Kalloc Vm VmSpec.

Section Kvm.
Variable kend : Z.   (* end[] *)
Variable kdata : Z.  (* data[] *)

(** The entry of [va]: the first megabyte and the data are writable, the text is not, and devices are mapped to themselves. *)
Definition kernel_pte (va : Z) : Z :=
  let page := PGROUNDDOWN va in
  if (KERNBASE <=? va) && (va <? KERNLINK) then new_pte (page - KERNBASE) PTE_W
  else if (KERNLINK <=? va) && (va <? kdata) then new_pte (page - KERNBASE) 0
  else if (kdata <=? va) && (va <? KERNBASE + PHYSTOP) then new_pte (page - KERNBASE) PTE_W
  else if DEVSPACE <=? va then new_pte page PTE_W
  else 0.

(** ** The pages it needs *)

Lemma chain_unique m l : forall h l', chain kend m h l -> chain kend m h l' -> l = l'.
Proof.
  induction l as [|p l IH]; intros h [|q l'] Hl Hl'; cbn in *; [done| | |].
  - destruct Hl' as (<- & Hp & _). apply is_page_nonzero in Hp. lia.
  - destruct Hl as (<- & Hp & _). apply is_page_nonzero in Hp. lia.
  - destruct Hl as (-> & _ & Hl), Hl' as (<- & _ & Hl'). f_equal. by eapply IH.
Qed.

Lemma inv_free_unique s pgdir tabs tabs' R R' l l' : pt_inv kend s pgdir tabs R l -> pt_inv kend s pgdir tabs' R' l' -> l = l'.
Proof. intros (_ & H & _)%inv_free (_ & H' & _)%inv_free. by eapply chain_unique. Qed.

(** A page table that is there is not allocated. *)
Lemma walk_present pgdir va s : present (pde_of (k_mem s) pgdir (PDX va)) = true -> walkpgdir pgdir va true s = Ok (pte_addr (k_mem s) pgdir va) s.
Proof. intros Hp. unfold walkpgdir, load32, kbind, kgets. change (ld32 (k_mem s) (pgdir + 4 * PDX va)) with (pde_of (k_mem s) pgdir (PDX va)). by rewrite Hp. Qed.

(** The page tables for the pages from [a] to [last], when the first is there or not. *)
Definition tables (m : mem) (pgdir a last : Z) : Z := PDX last - PDX a + (if present (pde_of m pgdir (PDX a)) then 0 else 1).

(** One turn of the loop: the page table of [a] is there afterwards. *)
Lemma map_one_count s pgdir tabs R l a v : pt_inv kend s pgdir tabs R l -> is_va a -> present (pte_of (k_mem s) pgdir a) = false -> 0 <= v < 4294967296 ->
  1 <= Z.of_nat (length l) + (if present (pde_of (k_mem s) pgdir (PDX a)) then 1 else 0) ->
  runs (walkpgdir pgdir a true) s (fun pte s1 => 0 < pte /\ present (ld32 (k_mem s1) pte) = false /\
    let s2 := set_mem (st32 (k_mem s1) pte v) s1 in
    exists tabs' l', pt_inv kend s2 pgdir tabs' R l' /\ present (pde_of (k_mem s2) pgdir (PDX a)) = true /\
      Z.of_nat (length l) <= Z.of_nat (length l') + (if present (pde_of (k_mem s) pgdir (PDX a)) then 0 else 1) /\
      (forall va, is_va va -> PGROUNDDOWN a <> PGROUNDDOWN va -> pte_of (k_mem s2) pgdir va = pte_of (k_mem s) pgdir va)).
Proof.
  intros Hi Ha Hnp Hv Hlen. pose proof (walkpgdir_alloc kend s pgdir tabs R l a Hi Ha) as (pte & s1 & E & Hw)%runs_Ok. apply (runs_eq _ _ _ _ _ E).
  assert (Hok : exists tabs' l', pt_inv kend s1 pgdir tabs' R l' /\ pte = pte_addr (k_mem s1) pgdir a /\ 0 < pte /\ present (pde_of (k_mem s1) pgdir (PDX a)) = true /\
    (forall va', is_va va' -> pte_of (k_mem s1) pgdir va' = pte_of (k_mem s) pgdir va') /\
    Z.of_nat (length l) <= Z.of_nat (length l') + (if present (pde_of (k_mem s) pgdir (PDX a)) then 0 else 1)).
  { destruct (present (pde_of (k_mem s) pgdir (PDX a))) eqn:Ep.
    - rewrite (walk_present _ _ _ Ep) in E. injection E as <- <-. exists tabs, l. split_and!; try done; [by eapply (pte_addr_nonzero kend)|lia].
    - destruct Hw as [(_ & _ & ->)|(tabs' & l' & H1 & H2 & H3 & H4 & H5 & _ & Hl)]; [cbn in Hlen; lia|]. exists tabs', l'. split_and!; try done.
      destruct Hl as [(_ & ->)|(p & _ & ->)]; cbn [length]; lia. }
  destruct Hok as (tabs' & l' & Hi1 & -> & Hpos & Hp & Hpte & Hl).
  destruct (store_pte_spec kend _ _ _ _ _ a v Hi1 Ha Hp Hv) as (Hi2 & _ & Hpde & Hpte2). split; [done|]. split.
  { specialize (Hpte a Ha). unfold pte_of at 1 in Hpte. rewrite Hp in Hpte. by rewrite Hpte. }
  exists tabs', l'. split_and!; [done| |done|].
  - cbn [k_mem set_mem]. rewrite Hpde by (by apply PDX_range). done.
  - intros va Hva Hne. cbn [k_mem set_mem]. rewrite Hpte2 by done. destruct ((PDX a =? PDX va) && (PTX a =? PTX va)) eqn:Ee; [|by apply Hpte].
    exfalso. apply Hne. bool_hyps. by apply page_index_inj.
Qed.

Lemma mappages_loop_count pgdir R n : forall s tabs l a pa perm fuel, pt_inv kend s pgdir tabs R l -> 0 <= a -> a + 4096 * (Z.of_nat n + 1) <= 4294967296 ->
  a mod 4096 = 0 -> 0 <= pa < 4294967296 -> pa mod 4096 = 0 -> 0 <= perm < 4096 -> (n < fuel)%nat ->
  (forall va, is_va va -> in_pages a n va = true -> present (pte_of (k_mem s) pgdir va) = false) ->
  tables (k_mem s) pgdir a (a + 4096 * Z.of_nat n) <= Z.of_nat (length l) ->
  runs (mappages_loop pgdir a (a + 4096 * Z.of_nat n) pa perm fuel) s (fun r s' => r = 0 /\ exists tabs' l', pt_inv kend s' pgdir tabs' R l' /\
    Z.of_nat (length l) <= Z.of_nat (length l') + tables (k_mem s) pgdir a (a + 4096 * Z.of_nat n)).
Proof.
  induction n as [|n IH]; intros s tabs l a pa perm fuel Hi Ha Hend Hal Hpa Hpal Hperm Hf Hnp Hc; (destruct fuel as [|fuel]; [lia|]); cbn [mappages_loop].
  all: assert (is_va a) as Hva by (unfold is_va; lia); assert (Hna : present (pte_of (k_mem s) pgdir a) = false) by (apply Hnp; [done|]; by apply in_pages_head).
  all: pose proof (PDX_eq a Hva) as Ed.
  all: destruct (new_pte_eq pa perm Hpal Hpa Hperm) as (Ev & Hv & _).
  all: apply runs_bind; eapply runs_conseq; [apply (map_one_count s pgdir tabs R l a (Z.lor (Z.lor pa perm) PTE_P) Hi Hva Hna); [by rewrite Ev|]|].
  1,3: unfold tables in Hc; rewrite (PDX_eq (a + _)) in Hc by lia; rewrite Ed in *; destruct (present _); mlia.
  all: intros pte s1 (Hpos & Hp0 & tabs1 & l1 & Hi1 & Hpd & Hl1 & Hpte); rewrite (proj2 (Z.eqb_neq pte 0)) by lia; unfold load32, store32; apply runs_bind, runs_gets;
    rewrite Hp0; apply runs_bind, runs_mod.
  - rewrite (proj2 (Z.eqb_eq a (a + 4096 * Z.of_nat 0))) by lia. apply runs_ret. split; [done|]. exists tabs1, l1. split; [done|].
    unfold tables. replace (a + 4096 * Z.of_nat 0) with a by lia. lia.
  - rewrite (proj2 (Z.eqb_neq a (a + 4096 * Z.of_nat (S n)))) by lia. unfold PGSIZE. rewrite (u32_small (a + 4096)) by lia.
    replace (a + 4096 * Z.of_nat (S n)) with (a + 4096 + 4096 * Z.of_nat n) in * by lia.
    set (s2 := set_mem _ s1) in *.
    assert (Ht : tables (k_mem s2) pgdir (a + 4096) (a + 4096 + 4096 * Z.of_nat n) + (if present (pde_of (k_mem s) pgdir (PDX a)) then 0 else 1) <=
      tables (k_mem s) pgdir a (a + 4096 + 4096 * Z.of_nat n)).
    { unfold tables. destruct (decide (PDX (a + 4096) = PDX a)) as [->|Hne]; [rewrite Hpd; lia|].
      assert (E1 : PDX (a + 4096) = PDX a + 1) by (revert Hne; rewrite Ed, (PDX_eq (a + 4096)) by lia; mlia). rewrite E1. destruct (present (pde_of (k_mem s2) pgdir (PDX a + 1))); lia. }
    eapply runs_conseq; [apply (IH s2 tabs1 l1 (a + 4096) (u32 (pa + 4096)) perm fuel Hi1); try lia; try mlia; [apply u32_range|unfold u32; mlia|]|].
    + intros va Hva' Hin. rewrite Hpte; [|done|].
      * apply Hnp; [done|]. rewrite in_pages_cons by done. by rewrite Hin, orb_true_r.
      * unfold in_pages in Hin. bool_hyps. rewrite (PGROUNDDOWN_eq a) by done. lia.
    + intros r s' (-> & tabs' & l' & Hi' & Hl'). split; [done|]. exists tabs', l'. split; [done|]. lia.
Qed.

Lemma mappages_count s pgdir tabs R l a size pa perm : pt_inv kend s pgdir tabs R l -> 0 <= a -> a mod 4096 = 0 -> 0 < size -> size mod 4096 = 0 -> a + size <= 4294967296 ->
  0 <= pa < 4294967296 -> pa mod 4096 = 0 -> 0 <= perm < 4096 -> (forall va, a <= va < a + size -> present (pte_of (k_mem s) pgdir va) = false) ->
  tables (k_mem s) pgdir a (a + size - 4096) <= Z.of_nat (length l) ->
  runs (mappages pgdir a size pa perm) s (fun r s' => r = 0 /\ exists tabs' l', pt_inv kend s' pgdir tabs' R l' /\
    Z.of_nat (length l) <= Z.of_nat (length l') + tables (k_mem s) pgdir a (a + size - 4096)).
Proof.
  intros Hi Ha Hal Hs Hsl Hend Hpa Hpal Hperm Hnp Hc. unfold mappages. rewrite u32_sub_l, (u32_small (a + size - 1)) by lia. rewrite !PGROUNDDOWN_eq by lia.
  replace (a - a mod 4096) with a by lia. replace (a + size - 1 - (a + size - 1) mod 4096) with (a + 4096 * Z.of_nat (Z.to_nat (size / 4096 - 1))) by mlia.
  replace (a + size - 4096) with (a + 4096 * Z.of_nat (Z.to_nat (size / 4096 - 1))) in * by mlia.
  apply (mappages_loop_count pgdir R _ s tabs l); try done; try mlia.
  - unfold PGSIZE. rewrite u32_small by mlia. mlia.
  - intros va Hva Hin. apply Hnp. unfold in_pages, PGSIZE, is_va in *. rewrite PGROUNDDOWN_eq in Hin by done. bool_hyps. mlia.
Qed.

(** What a run does besides, under a condition. *)
Lemma runs_and_if {S A} (B : Prop) (m : K S A) s P Q : runs m s P -> (B -> runs m s Q) -> runs m s (fun a s' => P a s' /\ (B -> Q a s')).
Proof. unfold runs. destruct (m s); naive_solver. Qed.

(** [c] pages are enough for the page tables of the region. *)
Lemma map_region s pgdir tabs l f a size pa perm c : pt_inv kend s pgdir tabs [] l -> (forall va, is_va va -> pte_of (k_mem s) pgdir va = f va) ->
  0 <= a -> a mod 4096 = 0 -> 0 < size -> size mod 4096 = 0 -> a + size <= 4294967296 -> 0 <= pa -> pa mod 4096 = 0 -> pa + size <= 4294967296 -> 0 <= perm < 4096 ->
  (forall va, a <= va < a + size -> f va = 0) -> tables (k_mem s) pgdir a (a + size - 4096) <= c ->
  runs (mappages pgdir a size pa perm) s (fun r s' => exists tabs' l', pt_inv kend s' pgdir tabs' [] l' /\ (forall q, q ∈ tabs' ++ l' <-> q ∈ tabs ++ l) /\
    only_pages kend (k_mem s) (k_mem s') (pgdir :: tabs ++ l) /\
    ((r = 0 /\ (forall va, is_va va -> pte_of (k_mem s') pgdir va = if (a <=? va) && (va <? a + size) then new_pte (pa + (PGROUNDDOWN va - a)) perm else f va) /\
       (c <= Z.of_nat (length l) -> Z.of_nat (length l) <= Z.of_nat (length l') + c)) \/
     (r = -1 /\ l' = [] /\ Z.of_nat (length l) < c))).
Proof.
  intros Hi Hf Ha Hal Hs Hsl Hend Hpa Hpal Hpend Hperm Hz Hc.
  assert (Ea : PGROUNDDOWN a = a) by (rewrite PGROUNDDOWN_eq by lia; lia).
  assert (Hin : forall va, is_va va -> in_pages (PGROUNDDOWN a) (Z.to_nat ((a mod 4096 + size - 1) / 4096)) va = (a <=? va) && (va <? a + size)).
  { intros va Hva. unfold in_pages. rewrite Ea, Hal, PGROUNDDOWN_eq by done. unfold PGSIZE. rewrite Z2Nat.id by mlia.
    apply eq_true_iff_eq. rewrite !andb_true_iff, !Z.leb_le, Z.ltb_lt. unfold is_va in Hva. mlia. }
  assert (Hnp : forall va, a <= va < a + size -> present (pte_of (k_mem s) pgdir va) = false) by (intros va Hva; rewrite Hf, Hz by (unfold is_va; lia); done).
  eapply runs_conseq; [apply (runs_and_if (c <= Z.of_nat (length l))); [|intros Hle; apply (mappages_count s pgdir tabs [] l); (done || lia)]|].
  - apply (mappages_spec kend s pgdir tabs [] l a size pa perm Hi); try done; try (unfold is_va; lia); [rewrite Hal; mlia|].
    intros va Hva Hr. rewrite Hin in Hr by done. apply Hnp. bool_hyps. lia.
  - intros r s' ((tabs' & l' & H1 & H2 & _ & H3 & H4) & M). exists tabs', l'. split_and!; try done. destruct H4 as [(-> & H4)|(-> & -> & _)]; [left|right].
    + split_and!; [done|intros va Hva; by rewrite H4, Hin, Ea, Hf|]. intros Hle. destruct (M Hle) as (_ & tabs2 & l2 & Hi2 & Hl2).
      rewrite (inv_free_unique _ _ _ _ _ _ _ _ H1 Hi2). lia.
    + split_and!; [done|done|]. destruct (decide (c <= Z.of_nat (length l))) as [Hle|]; [|lia]. by destruct (M Hle) as (? & _).
Qed.

(** ** The loop over [kmap] *)

Definition km_size (k : kmap_entry) : Z := u32 (km_phys_end k - km_phys_start k).
Definition in_region (k : kmap_entry) (va : Z) : bool := (km_virt k <=? va) && (va <? km_virt k + km_size k).
Definition overlay (f : Z -> Z) (k : kmap_entry) (va : Z) : Z :=
  if in_region k va then new_pte (km_phys_start k + (PGROUNDDOWN va - km_virt k)) (km_perm k) else f va.

Definition region_ok (k : kmap_entry) : Prop := 0 <= km_virt k /\ km_virt k mod 4096 = 0 /\ 0 < km_size k /\ km_size k mod 4096 = 0 /\ km_virt k + km_size k <= 4294967296 /\
  0 <= km_phys_start k /\ km_phys_start k mod 4096 = 0 /\ km_phys_start k + km_size k <= 4294967296 /\ 0 <= km_perm k < 4096.

(** The page tables of a region, one less when the first is there for another region. *)
Definition cost_ok (f : Z -> Z) (k : kmap_entry) (c : Z) : Prop := 0 <= c /\
  (PDX (km_virt k + km_size k - 4096) - PDX (km_virt k) + 1 <= c \/
   PDX (km_virt k + km_size k - 4096) - PDX (km_virt k) <= c /\ exists va, is_va va /\ PDX va = PDX (km_virt k) /\ f va <> 0).

(** The regions are aligned, nothing is mapped in them yet, and they cost [cs] page tables. *)
Fixpoint regions_ok (f : Z -> Z) (ks : list kmap_entry) (cs : list Z) : Prop :=
  match ks, cs with
  | [], [] => True
  | k :: ks', c :: cs' => region_ok k /\ (forall va, in_region k va = true -> f va = 0) /\ cost_ok f k c /\ regions_ok (overlay f k) ks' cs'
  | _, _ => False
  end.

Lemma cost_tables s pgdir f k c : (forall va, is_va va -> pte_of (k_mem s) pgdir va = f va) -> cost_ok f k c -> tables (k_mem s) pgdir (km_virt k) (km_virt k + km_size k - 4096) <= c.
Proof.
  intros Hf (_ & Hc). unfold tables. destruct (present (pde_of (k_mem s) pgdir (PDX (km_virt k)))) eqn:Ep; [lia|].
  destruct Hc as [Hc|(_ & va & Hva & Ed & Hne)]; [lia|]. exfalso. apply Hne. rewrite <- Hf by done. unfold pte_of. by rewrite Ed, Ep.
Qed.

Definition sum_cost (cs : list Z) : Z := foldr Z.add 0 cs.

Lemma regions_cost ks : forall f cs, regions_ok f ks cs -> 0 <= sum_cost cs.
Proof.
  induction ks as [|k ks IH]; intros f [|c cs] Hok; try done. destruct Hok as (_ & _ & (Hc & _) & Hok). change (sum_cost (c :: cs)) with (c + sum_cost cs).
  specialize (IH _ _ Hok). lia.
Qed.

Lemma map_regions pgdir ks : forall s tabs l f cs, pt_inv kend s pgdir tabs [] l -> (forall va, is_va va -> pte_of (k_mem s) pgdir va = f va) -> regions_ok f ks cs ->
  runs (for_first ks (fun k => let* r := mappages pgdir (km_virt k) (u32 (km_phys_end k - km_phys_start k)) (km_phys_start k) (km_perm k) in kret (if r <? 0 then Some tt else None))) s
    (fun r s' => exists tabs' l', pt_inv kend s' pgdir tabs' [] l' /\ (forall q, q ∈ tabs' ++ l' <-> q ∈ tabs ++ l) /\ only_pages kend (k_mem s) (k_mem s') (pgdir :: tabs ++ l) /\
      0 <= sum_cost cs /\
      ((r = None /\ (forall va, is_va va -> pte_of (k_mem s') pgdir va = foldl overlay f ks va) /\ (sum_cost cs <= Z.of_nat (length l) -> Z.of_nat (length l) <= Z.of_nat (length l') + sum_cost cs)) \/
       (r = Some tt /\ l' = [] /\ Z.of_nat (length l) < sum_cost cs))).
Proof.
  induction ks as [|k ks IH]; intros s tabs l f cs Hi Hf Hok; destruct cs as [|c cs]; try done; cbn [for_first].
  - apply runs_ret. exists tabs, l. split_and!; [done|done|by intros q _ _ x _|done|left; split_and!; [done|done|cbn; lia]].
  - destruct Hok as ((R1 & R2 & R3 & R4 & R5 & R6 & R7 & R8 & R9) & Hz & Hc & Hok). apply runs_bind, runs_bind. pose proof (cost_tables s pgdir f k c Hf Hc) as Ht. destruct Hc as (Hc0 & _).
    change (sum_cost (c :: cs)) with (c + sum_cost cs).
    eapply runs_conseq; [apply (map_region s pgdir tabs l f (km_virt k) (km_size k) (km_phys_start k) (km_perm k) c Hi Hf); try done|].
    + intros va Hva. apply Hz. unfold in_region. rewrite andb_true_iff, Z.leb_le, Z.ltb_lt. done.
    + intros r0 s1 (tabs1 & l1 & Hi1 & Hq1 & Ho1 & Hr). apply runs_ret. destruct Hr as [(-> & Hpte & Hl1)|(-> & -> & Hl1)]; cbn [Z.ltb Z.compare].
      * eapply runs_conseq; [apply (IH s1 tabs1 l1 (overlay f k) cs Hi1 Hpte Hok)|]. intros r s2 (tabs2 & l2 & Hi2 & Hq2 & Ho2 & Hcs & Hr2). exists tabs2, l2. split_and!; [done| | |lia|].
        -- intros q. by rewrite Hq2, Hq1.
        -- eapply only_pages_trans; [exact Ho1|]. eapply only_pages_mono; [|exact Ho2]. intros q. rewrite !elem_of_cons, Hq1. done.
        -- destruct Hr2 as [(-> & Hpte2 & Hl2)|(-> & -> & Hl2)]; [left; split_and!; [done|done|lia]|right; split_and!; [done|done|]].
           destruct (decide (c <= Z.of_nat (length l))); lia.
      * apply regions_cost in Hok. apply runs_ret. exists tabs1, []. split_and!; [done|done|done|lia|right; split_and!; [done|done|lia]].
Qed.

Hypothesis kdata_ok : kdata mod 4096 = 0 /\ KERNLINK < kdata < KERNBASE + PHYSTOP.

Lemma km_size_eq k n : km_phys_end k - km_phys_start k = n -> 0 <= n < 4294967296 -> km_size k = n.
Proof. intros <- H. by apply u32_small. Qed.

Lemma v2p_kernel a : KERNBASE <= a < 4294967296 -> v2p a = a - KERNBASE.
Proof. intros H. unfold v2p, KERNBASE in *. apply u32_small. lia. Qed.

(** The page tables: one for the first megabyte, those of the text after it, those of the data, and eight for the devices. *)
Definition kmap_cost : list Z := [1; PDX (kdata - 4096) - 512; 567 - PDX (kdata - 4096); 8].

Lemma kmap_ok : regions_ok (fun _ => 0) (kmap kdata) kmap_cost /\ forall va, is_va va -> foldl overlay (fun _ => 0) (kmap kdata) va = kernel_pte va.
Proof.
  unfold kmap. set (k1 := Build_kmap_entry KERNBASE _ _ _). set (k2 := Build_kmap_entry KERNLINK _ _ _). set (k3 := Build_kmap_entry kdata _ _ _). set (k4 := Build_kmap_entry DEVSPACE _ _ _).
  assert (E1 : km_size k1 = EXTMEM) by (by vm_compute). assert (E4 : km_size k4 = 0x2000000) by (by vm_compute).
  assert (E2 : km_size k2 = kdata - KERNLINK) by (apply km_size_eq; cbn; rewrite ?v2p_kernel; unfold KERNLINK, KERNBASE, EXTMEM, PHYSTOP in *; lia).
  assert (E3 : km_size k3 = KERNBASE + PHYSTOP - kdata) by (apply km_size_eq; cbn; rewrite ?v2p_kernel; unfold KERNLINK, KERNBASE, EXTMEM, PHYSTOP in *; lia).
  assert (P2 : km_phys_start k2 = EXTMEM) by (by vm_compute).
  assert (P3 : km_phys_start k3 = kdata - KERNBASE) by (apply v2p_kernel; unfold KERNLINK, KERNBASE, EXTMEM, PHYSTOP in *; lia).
  split.
  - cbn [regions_ok kmap_cost]. unfold region_ok, overlay, in_region, cost_ok. rewrite E1, E2, E3, E4, P2, P3. cbn [km_virt km_phys_start km_perm k1 k2 k3 k4].
    unfold KERNLINK, KERNBASE, EXTMEM, PHYSTOP, DEVSPACE, PTE_W in *. split_and!; try done; try lia; try mlia.
    all: try (intros va Hva; repeat (case_match; bool_hyps; try lia); done).
    all: clear E1 E2 E3 E4 P2 P3; destruct kdata_ok as [Hal Hr].
    1: left; by vm_compute.
    1,3: rewrite PDX_eq by lia; mlia.
    3: left; by vm_compute.
    + right. replace (2147483648 + 1048576 + (kdata - (2147483648 + 1048576)) - 4096) with (kdata - 4096) by lia. change (PDX (2147483648 + 1048576)) with 512.
      split; [lia|]. exists 2147483648. by vm_compute.
    + replace (kdata + (2147483648 + 234881024 - kdata) - 4096) with (2147483648 + 234881024 - 4096) by lia. change (PDX (2147483648 + 234881024 - 4096)) with 567.
      destruct (decide (PDX kdata = PDX (kdata - 4096))) as [Eq|Hne]; [right|left].
      * split; [lia|]. exists (kdata - 4096). split_and!; [unfold is_va; lia|done|]. rewrite (proj2 (Z.leb_le _ _)), (proj2 (Z.ltb_lt _ _)) by mlia. cbn [andb].
        unfold new_pte, PTE_P. rewrite PGROUNDDOWN_eq by lia. change (Z.lor 0 1) with 1. mlia.
      * revert Hne. rewrite !PDX_eq by lia. mlia.
  - intros va Hva. cbn [foldl]. unfold overlay, in_region, kernel_pte. rewrite E1, E2, E3, E4, P2, P3. cbn [km_virt km_phys_start km_perm k1 k2 k3 k4]. unfold is_va in Hva.
    unfold KERNLINK, KERNBASE, EXTMEM, PHYSTOP, DEVSPACE, PTE_W in *. repeat (case_match; bool_hyps; try lia); f_equal; lia.
Qed.

Lemma empty_pte m p va : is_page kend p -> is_va va -> pte_of (memset m p 0 PGSIZE) p va = 0.
Proof. intros Hp Hva. unfold pte_of. replace (pde_of (memset m p 0 PGSIZE) p (PDX va)) with 0; [done|]. symmetry. apply (memset_zero_entry kend); [done|by apply PDX_range]. Qed.

(** C13: setupkvm makes a page directory out of free pages in which every virtual address has the entry that the kernel's map gives it, and changes no page that was
    in use; it gives up, with 0, only when there were fewer than 65 free pages, and never panics. *)
Theorem setupkvm_correct s l : free_list kend s l -> lock_free s ->
  runs (setupkvm kdata) s (fun r s' => only_pages kend (k_mem s) (k_mem s') l /\
    ((r = 0 /\ free_list kend s' [] /\ (length l < 65)%nat) \/
     (exists tabs l', hd 0 l = r /\ r <> 0 /\ pt_inv kend s' r tabs [] l' /\ (forall q, q ∈ tabs ++ l' -> q ∈ l) /\ forall va, is_va va -> pte_of (k_mem s') r va = kernel_pte va))).
Proof.
  intros Hfl Hlk. unfold setupkvm. apply runs_bind. eapply runs_eq; [by apply kalloc_eq|]. destruct Hfl as (Hm & Hch & Hnd). destruct l as [|p l].
  - cbn in Hch. rewrite Hch. cbn -[only_pages]. apply runs_ret. split; [by intros q _ _ x _|]. left. split; [done|]. split; [exact (conj Hm (conj Hch Hnd))|cbn; lia].
  - pose proof Hch as (Efl & Hp & _). rewrite Efl. assert (Hp0 : p <> 0) by (pose proof (is_page_nonzero kend p Hp); lia).
    rewrite (proj2 (Z.eqb_neq p 0) Hp0). apply runs_bind, runs_mod. change (DEVSPACE <? p2v PHYSTOP) with false. cbv iota.
    pose proof (empty_pgdir kend s p l (conj Hm (conj Hch Hnd)) Hlk) as Hi. destruct kmap_ok as [Hok Hk]. apply runs_bind.
    eapply runs_conseq; [apply (map_regions p (kmap kdata) _ [] l (fun _ => 0) kmap_cost Hi); [intros va Hva; by apply empty_pte|exact Hok]|].
    intros r s' (tabs & l' & Hi' & Hq & Ho & _ & Hr). apply runs_ret. split.
    + eapply only_pages_trans; [eapply only_pages_mono; [|by apply memset_only]|exact Ho]. intros q ->%list_elem_of_singleton. by left.
    + destruct Hr as [(-> & Hpte & _)|(-> & -> & Hlen)]; [right|left; split_and!; [done|apply Hi'|]].
      * exists tabs, l'. split_and!; [done|done|done|intros q Hqin; right; by apply Hq|]. intros va Hva. rewrite Hpte by done. by apply Hk.
      * unfold sum_cost, kmap_cost in Hlen. cbn [foldr length] in *. lia.
Qed.
End Kvm.

(** No entry of the kernel's map is open to user programs. *)
Lemma kernel_pte_closed kdata va : kdata mod 4096 = 0 -> KERNLINK < kdata < KERNBASE + PHYSTOP -> is_va va -> Z.land (kernel_pte kdata va) PTE_U = 0.
Proof.
  intros Hk Hr Hva. unfold is_va in Hva. unfold kernel_pte. pose proof (PGROUNDDOWN_eq va Hva) as E.
  assert (F : forall pa perm, perm = 0 \/ perm = PTE_W -> 0 <= pa < 4294967296 -> pa mod 4096 = 0 -> Z.land (new_pte pa perm) PTE_U = 0).
  { intros pa perm Hperm Hpa Hal. unfold new_pte. rewrite <- lor_aligned by (done || (destruct Hperm as [->| ->]; by vm_compute)).
    rewrite Z.land_lor_distr_l. replace (Z.land pa PTE_U) with 0; [destruct Hperm as [->| ->]; done|]. symmetry. unfold PTE_U.
    apply Z.bits_inj'. intros i Hi. rewrite Z.land_spec, Z.bits_0. destruct (decide (i = 2)) as [->|]; [|change 4 with (2 ^ 2); rewrite Z.pow2_bits_false by lia; by rewrite andb_false_r].
    replace pa with (pa / 4096 * 2 ^ 12) by (change (2 ^ 12) with 4096; mlia). rewrite Z.mul_pow2_bits_low by lia. done. }
  unfold KERNLINK, KERNBASE, EXTMEM, PHYSTOP, DEVSPACE in *. repeat (case_match; bool_hyps); try (apply F; [by (left + right)|mlia|mlia]); try done.
Qed.

(** Sixty-five free pages, with the data of the kernel at 0x80108000: the page of the text at 0x80100000 is mapped read-only. *)
Definition kvm_pages : list Z := sample_page <$> seqZ 0 65.

Lemma kvm_free_list : free_list sample_end (free_state kvm_pages) kvm_pages.
Proof.
  split; [|split].
  - unfold kvm_pages. generalize (sample_page <$> seqZ 0 65). intros ps. induction ps as [|p ps IH]; [intros x; cbn; lia|by apply st32_ok].
  - vm_compute. repeat split; discriminate.
  - apply (bool_decide_unpack _). by vm_compute.
Qed.

Lemma setupkvm_correct_witness : runs (setupkvm 0x80108000) (free_state kvm_pages) (fun r s' => r = 0x80500000 /\ pte_of (k_mem s') r 0x80100000 = 0x100001).
Proof.
  pose proof (setupkvm_correct sample_end 0x80108000 ltac:(by vm_compute) (free_state kvm_pages) kvm_pages kvm_free_list ltac:(by intros ?%elem_of_nil)) as R.
  eapply runs_conseq; [exact R|clear R]. intros r s' (_ & [(_ & _ & Hl)|(tabs & l' & Er & _ & _ & _ & Hpte)]).
  - vm_compute in Hl. lia.
  - vm_compute in Er. subst r. split; [reflexivity|]. rewrite (Hpte 0x80100000 ltac:(by vm_compute)). by vm_compute.
Defined.
