(* ===== verification/Boot.v ===== *)
(** * Bringing up the processors: seginit and kvmalloc of vm.c, tvinit and idtinit of trap.c, entryother.S, and mpenter, mpmain and startothers of main.c

    The state is the memory with the free pages, the interrupt controllers, the descriptor tables and the registers of the processors: [o_regs] of the one that runs, [o_cpus] of the others.
    [cpus[i]] is in memory at [cpus + 188 * i], but for its descriptor table, which is [o_gdt _ i].  A function of main.c runs with interrupts
    disabled.  [entryother_start] is the code of entryother.S; the processor that is started is the argument [other] of [startothers]: the state it leaves once it has had its
    interrupts and has run, which BootSpec.v takes from the state [lapicstartap] leaves. *)

From S2P Require Import Prelude CString Mmu Kalloc Vm Ports Irq Mp Proc.

(** [struct cpu]: the offsets of its fields, after the 104 bytes of the task state and seven descriptors. *)
Definition sizeof_cpu : Z := 188.
Definition off_gdt : Z := 112.
Definition off_started : Z := 168.
Definition off_cpu : Z := 180.

Definition NSEGS : Z := 7.
Definition STA_X : Z := 0x8.
Definition STA_W : Z := 0x2.
Definition STA_R : Z := 0x2.
Definition T_SYSCALL : Z := 64.

(** CR3, the bases and limits of the descriptor tables, the segment in GS, and the stack pointer a processor was started with. *)
Record regs := Regs { g_cr3 : Z; g_gdtr : Z * Z; g_idtr : Z * Z; g_gs : segdesc; g_esp : Z }.

Record bootst (D : Type) := Boot {
  o_k : kstate;
  o_irq : irqst D;
  o_kpgdir : Z;
  o_gdt : Z -> Z -> segdesc;
  o_idt : list gatedesc;
  o_msgs : list (string * list Z);
  o_regs : regs;
  o_cpus : Z -> regs
}.
Arguments Boot {D}.
Arguments o_k {D}.
Arguments o_irq {D}.
Arguments o_kpgdir {D}.
Arguments o_gdt {D}.
Arguments o_idt {D}.
Arguments o_msgs {D}.
Arguments o_regs {D}.
Arguments o_cpus {D}.

Section Boot.
Context {D : Type} `{Ports D} `{Mmio D}.
Variable kend : Z.                    (* end[] *)
Variable kdata : Z.                   (* data[] *)
Variable cpus : Z.                    (* the address of cpus[] *)
Variable idt : Z.                     (* the address of idt[] *)
Variable vectors : Z -> Z.            (* vectors[], made by vectors.pl *)
Variable entryother : list Z.         (* the image of entryother.S *)
Variables mpenter_addr entrypgdir : Z.
Variable polls : nat.                 (* how often lapicinit reads the command register *)

#[local] Abbreviation st := (bootst D).

Definition set_o_k (v : kstate) (s : st) : st := Boot v (o_irq s) (o_kpgdir s) (o_gdt s) (o_idt s) (o_msgs s) (o_regs s) (o_cpus s).
Definition set_o_irq (v : irqst D) (s : st) : st := Boot (o_k s) v (o_kpgdir s) (o_gdt s) (o_idt s) (o_msgs s) (o_regs s) (o_cpus s).
Definition set_o_kpgdir (v : Z) (s : st) : st := Boot (o_k s) (o_irq s) v (o_gdt s) (o_idt s) (o_msgs s) (o_regs s) (o_cpus s).
Definition set_o_gdt (v : Z -> Z -> segdesc) (s : st) : st := Boot (o_k s) (o_irq s) (o_kpgdir s) v (o_idt s) (o_msgs s) (o_regs s) (o_cpus s).
Definition set_o_idt (v : list gatedesc) (s : st) : st := Boot (o_k s) (o_irq s) (o_kpgdir s) (o_gdt s) v (o_msgs s) (o_regs s) (o_cpus s).
Definition o_say (fmt : string) (args : list Z) (s : st) : st := Boot (o_k s) (o_irq s) (o_kpgdir s) (o_gdt s) (o_idt s) (o_msgs s ++ [(fmt, args)]) (o_regs s) (o_cpus s).
Definition set_o_regs (v : regs) (s : st) : st := Boot (o_k s) (o_irq s) (o_kpgdir s) (o_gdt s) (o_idt s) (o_msgs s) v (o_cpus s).
Definition set_o_cpus (v : Z -> regs) (s : st) : st := Boot (o_k s) (o_irq s) (o_kpgdir s) (o_gdt s) (o_idt s) (o_msgs s) (o_regs s) v.

Definition set_cr3 (v : Z) (r : regs) : regs := Regs v (g_gdtr r) (g_idtr r) (g_gs r) (g_esp r).
Definition set_gdtr (v : Z * Z) (r : regs) : regs := Regs (g_cr3 r) v (g_idtr r) (g_gs r) (g_esp r).
Definition set_idtr (v : Z * Z) (r : regs) : regs := Regs (g_cr3 r) (g_gdtr r) v (g_gs r) (g_esp r).
Definition set_gs (v : segdesc) (r : regs) : regs := Regs (g_cr3 r) (g_gdtr r) (g_idtr r) v (g_esp r).
Definition set_esp (v : Z) (r : regs) : regs := Regs (g_cr3 r) (g_gdtr r) (g_idtr r) (g_gs r) v.
Definition on_regs (f : regs -> regs) (s : st) : st := set_o_regs (f (o_regs s)) s.

(** The code of the components on their part of the state. *)
Definition lift {X A} (get : st -> X) (put : X -> st -> st) (m : K X A) : K st A := fun s =>
  match m (get s) with
  | Ok a x => Ok a (put x s)
  | Panic e x => Panic e (put x s)
  | Block c x => Block c (put x s)
  | NoFuel => NoFuel
  end.
Definition in_k {A} : K kstate A -> K st A := lift o_k set_o_k.
Definition in_irq {A} : K (irqst D) A -> K st A := lift o_irq set_o_irq.

(** ** vm.c *)

Definition boot_switchkvm : K st unit :=
  let* d := kgets o_kpgdir in
  kmod (on_regs (set_cr3 (v2p d))).

Definition kvmalloc : K st unit :=
  let* d := in_k (setupkvm kdata) in
  kmod (set_o_kpgdir d) ;;;
  boot_switchkvm.

Definition lgdt (p size : Z) : K st unit := kmod (on_regs (set_gdtr (u32 p, size - 1))).
Definition lidt (p size : Z) : K st unit := kmod (on_regs (set_idtr (u32 p, size - 1))).

(** The processor takes the descriptor from the table it was given last. *)
Definition loadgs (sel : Z) : K st unit :=
  kmod (fun s => on_regs (set_gs (o_gdt s (((g_gdtr (o_regs s)).1 - off_gdt - cpus) / sizeof_cpu) (Z.shiftr sel 3))) s).

(** The variables [cpu] and [proc], at 0 and 4 in the segment GS; an access past its limit is a fault. *)
Definition gs_addr (off : Z) : K st Z :=
  let* gs := kgets (fun s => g_gs (o_regs s)) in
  if seg_limit gs <? off + 3 then kpanic "undefined: outside of the segment" else kret (u32 (seg_base gs + off)).
Definition gs_store (off v : Z) : K st unit := let* a := gs_addr off in in_k (store32 a v).
Definition gs_load (off : Z) : K st Z := let* a := gs_addr off in in_k (load32 a).

Definition set_desc (i j : Z) (d : segdesc) : K st unit :=
  kmod (fun s => set_o_gdt (fun i' j' => if (i' =? i) && (j' =? j) then d else o_gdt s i' j') s).

Definition seginit : K st unit :=
  let* n := in_irq (cpunum false 0) in
  if negb ((0 <=? n) && (n <? NCPU)) then kpanic "undefined: cpus index"
  else
    let c := cpus + sizeof_cpu * n in
    set_desc n SEG_KCODE (SEG (Z.lor STA_X STA_R) 0 0xffffffff 0) ;;;
    set_desc n SEG_KDATA (SEG STA_W 0 0xffffffff 0) ;;;
    set_desc n SEG_UCODE (SEG (Z.lor STA_X STA_R) 0 0xffffffff DPL_USER) ;;;
    set_desc n SEG_UDATA (SEG STA_W 0 0xffffffff DPL_USER) ;;;
    set_desc n SEG_KCPU (SEG STA_W (c + off_cpu) 8 0) ;;;
    lgdt (c + off_gdt) (8 * NSEGS) ;;;
    loadgs (Z.shiftl SEG_KCPU 3) ;;;
    gs_store 0 c ;;;
    gs_store 4 0.

(** ** trap.c *)

Definition set_gate (i : nat) (g : gatedesc) : K st unit := kmod (fun s => set_o_idt (<[ i := g ]> (o_idt s)) s).

Definition tvinit : K st unit :=
  for_each (seq 0 256) (fun i => set_gate i (SETGATE false (Z.shiftl SEG_KCODE 3) (vectors (Z.of_nat i)) 0)) ;;;
  set_gate (Z.to_nat T_SYSCALL) (SETGATE true (Z.shiftl SEG_KCODE 3) (vectors T_SYSCALL) DPL_USER).

Definition idtinit : K st unit := lidt idt (8 * 256).

(** ** main.c *)

(** [mpmain] up to the call of [scheduler]. *)
Definition mpmain : K st unit :=
  let* c := gs_load 0 in
  let* id := in_k (kgets (fun s => ld (k_mem s) c)) in
  kmod (o_say "cpu%d: starting" [id]) ;;;
  idtinit ;;;
  let* c := gs_load 0 in
  in_k (store32 (u32 (c + off_started)) 1).

Definition mpenter : K st unit :=
  boot_switchkvm ;;;
  seginit ;;;
  in_irq (lapicinit polls) ;;;
  mpmain.

(** ** entryother.S *)

(** Where it is linked; the words before it are its arguments. *)
Definition start : Z := 0x7000.

(** What it does that matters: it loads the page directory from [start-12] and turns on paging, which only [entrypgdir] with its mapping of the first megabytes survives, takes the stack from [start-4] and calls
    the function whose address is at [start-8]. *)
Definition entryother_start : K st unit :=
  let* pgdir := in_k (load32 (p2v start - 12)) in
  if negb (pgdir =? v2p entrypgdir) then kpanic "undefined: page directory"
  else
    kmod (on_regs (set_cr3 pgdir)) ;;;
    let* esp := in_k (load32 (p2v start - 4)) in
    kmod (on_regs (set_esp esp)) ;;;
    let* entry := in_k (load32 (p2v start - 8)) in
    if entry =? mpenter_addr then mpenter else kpanic "undefined: call".

Definition store_bytes (a : Z) (bs : list Z) : K st unit := in_k (kmod (fun s => set_mem (st_bytes (k_mem s) a bs) s)).

(** The body of the loop of [startothers].  The loop that waits for [c->started] is done once: a processor that has not started keeps it going for ever. *)
Definition startother (other : Z -> K st unit) (i : Z) : K st unit :=
  let code := p2v 0x7000 in
  let c := cpus + sizeof_cpu * i in
  let* n := in_irq (cpunum false 0) in
  if i =? n then kret tt
  else
    let* stack := in_k kalloc in
    in_k (store32 (code - 4) (u32 (stack + KSTACKSIZE))) ;;;
    in_k (store32 (code - 8) mpenter_addr) ;;;
    in_k (store32 (code - 12) (v2p entrypgdir)) ;;;
    let* id := in_k (kgets (fun s => ld (k_mem s) c)) in
    in_irq (lapicstartap id (v2p code)) ;;;
    other i ;;;
    let* started := in_k (load32 (c + off_started)) in
    if started =? 0 then knofuel else kret tt.

Definition startothers (ncpu : Z) (other : Z -> K st unit) : K st unit :=
  store_bytes (p2v 0x7000) entryother ;;;
  for_each (seqZ 0 ncpu) (startother other).
End Boot.
