(* ===== verification/BootSpec.v ===== *)
(** * What bringing up the processors achieves

    [tvinit] gives every trap its vector and user programs the system call only.  [startothers] starts every other processor: with the
    code of [mpenter] run on it, each has its own segments, its own [cpu] and [proc], a stack of its own, and is marked as started. *)

From S2P Require Import Prelude CString Mmu Kalloc Vm VmSpec Ports Irq IrqSpec Mp Proc Boot.

(** ** The gates *)

Section Gates.
Context {D : Type}.
Variable vectors : Z -> Z.

Lemma set_gates_runs (g : nat -> gatedesc) n : forall a (s : bootst D), (a + n <= length (o_idt s))%nat ->
  runs (for_each (seq a n) (fun i => set_gate i (g i))) s (fun _ s' => length (o_idt s') = length (o_idt s) /\
    forall i, o_idt s' !! i = if decide (a <= i < a + n)%nat then Some (g i) else o_idt s !! i).
Proof.
  induction n as [|n IH]; intros a s Hl; cbn [seq for_each].
  - apply runs_ret. split; [done|]. intros i. rewrite decide_False by lia. done.
  - apply runs_bind, runs_mod. eapply runs_conseq; [apply IH; cbn; rewrite length_insert; lia|]. cbn [o_idt set_o_idt]. intros ? s' (El & Hg). split; [by rewrite El, length_insert|].
    intros i. rewrite Hg. destruct (decide (i = a)) as [->|Hne].
    + rewrite decide_False, decide_True by lia. rewrite list_lookup_insert_eq; [done|lia].
    + rewrite list_lookup_insert_ne by done. destruct (decide (S a <= i < S a + n)%nat); [rewrite decide_True by lia|rewrite decide_False by lia]; done.
Qed.

(** C32: tvinit leads each of the 256 vectors to its entry in the kernel's code segment; only the system call may be raised by a user program, and only it leaves interrupts
    enabled. *)
Theorem tvinit_gates (s : bootst D) : length (o_idt s) = 256%nat -> (forall i, 0 <= i < 256 -> 0 <= vectors i < 4294967296) ->
  runs (tvinit vectors) s (fun _ s' => length (o_idt s') = 256%nat /\ forall i, 0 <= i < 256 -> exists g, o_idt s' !! Z.to_nat i = Some g /\
    gate_off g = vectors i /\ gd_cs g = 8 /\ gd_p g = 1 /\ gd_s g = 0 /\ gd_dpl g = (if i =? T_SYSCALL then 3 else 0) /\ gd_type g = (if i =? T_SYSCALL then STS_TG32 else STS_IG32)).
Proof.
  intros Hl Hv. unfold tvinit. apply runs_bind. eapply runs_conseq; [apply (set_gates_runs (fun i => SETGATE false (Z.shiftl SEG_KCODE 3) (vectors (Z.of_nat i)) 0) 256 0 s); lia|].
  intros ? s1 (El & Hg). apply runs_mod. cbn [o_idt set_o_idt]. split; [rewrite length_insert; lia|]. intros i Hi. destruct (Z.eqb_spec i T_SYSCALL) as [->|Hne].
  - eexists. split; [apply list_lookup_insert_eq; rewrite El, Hl; change (Z.to_nat T_SYSCALL) with 64%nat; lia|]. rewrite SETGATE_off by (by apply Hv). done.
  - rewrite list_lookup_insert_ne by (change T_SYSCALL with 64 in *; lia). rewrite Hg, decide_True by lia. eexists. split; [done|].
    rewrite Z2Nat.id by lia. rewrite SETGATE_off by (by apply Hv). done.
Qed.
End Gates.

(** The registers of a processor that has not run yet. *)
Definition reset_regs : regs := Regs 0 (0, 0) (0, 0) (SEG 0 0 0 0) 0.

Definition boot0 : bootst unit := Boot empty_kstate (Irqst 0 false 0 0 0 tt []) 0 (fun _ _ => SEG 0 0 0 0) (replicate 256 (SETGATE false 0 0 0)) [] reset_regs (fun _ => reset_regs).

Lemma tvinit_gates_witness : runs (tvinit (fun i => 0x80105000 + 10 * i)) boot0 (fun _ s' => exists g, o_idt s' !! 64%nat = Some g /\ gate_off g = 0x80105280 /\ gd_dpl g = 3).
Proof.
  pose proof (tvinit_gates (fun i => 0x80105000 + 10 * i) boot0) as R. eapply runs_conseq; [apply R; [done|intros i Hi; lia]|clear R]. intros ? s' (_ & Hg).
  destruct (Hg 64 ltac:(lia)) as (g & E & Eo & _ & _ & _ & Ed & _). exists g. split; [exact E|]. split; [exact Eo|exact Ed].
Defined.

(** ** The other processors *)

Section Smp.
Context {D : Type} {base : Z} `{Ports D} `{Mmio D} `{!LocalApic D base} `{!WarmReset (D := D) (base := base)}.
Variables kend cpus idt mpenter_addr entrypgdir : Z.
Variable entryother : list Z.
Variable as_cpu : Z -> D -> D.   (* the devices as another processor sees them *)

Hypothesis base_ok : base <> 0.
Hypothesis cpus_ok : KERNBASE + 0x8000 <= cpus /\ cpus + sizeof_cpu * NCPU <= kend < 4294967296.
Hypothesis entryother_ok : Z.of_nat (length entryother) <= 4096 /\ Forall (fun b => 0 <= b < 256) entryother.
Hypothesis mpenter_ok : 0 <= mpenter_addr < 4294967296.
(** Each processor has its own local APIC, with its number in it. *)
Hypothesis as_cpu_id : forall i d, 0 <= i < NCPU -> Z.shiftr (la_id (as_cpu i d)) 24 = i.

#[local] Abbreviation st := (bootst D).
#[local] Abbreviation cpu_at i := (cpus + sizeof_cpu * i).
#[local] Abbreviation mem_of s := (k_mem (o_k s)).

(** [me] is the processor that runs. *)
Definition runs_on (me : Z) (s : st) : Prop := q_lapic (o_irq s) = base /\ Z.shiftr (la_id (q_dev (o_irq s))) 24 = me.

(** Processor [i] has its segments, and [cpu] and [proc] of its own. *)
Definition segments_of (i : Z) (s : st) : Prop :=
  o_gdt s i SEG_KCODE = SEG 0xA 0 0xffffffff 0 /\ o_gdt s i SEG_KDATA = SEG 0x2 0 0xffffffff 0 /\ o_gdt s i SEG_UCODE = SEG 0xA 0 0xffffffff DPL_USER /\
  o_gdt s i SEG_UDATA = SEG 0x2 0 0xffffffff DPL_USER /\ seg_base (o_gdt s i SEG_KCPU) = cpu_at i + off_cpu /\
  ld32 (mem_of s) (cpu_at i + off_cpu) = cpu_at i /\ ld32 (mem_of s) (cpu_at i + off_cpu + 4) = 0.

Definition started (i : Z) (s : st) : Prop := segments_of i s /\ ld32 (mem_of s) (cpu_at i + off_started) = 1.

(** It runs on the stack that ends at [esp], with the kernel's page directory, the interrupt table and its own GS. *)
Definition registers (i esp : Z) (s : st) (r : regs) : Prop :=
  g_esp r = esp /\ g_cr3 r = v2p (o_kpgdir s) /\ g_idtr r = (u32 idt, 2047) /\ g_gs r = SEG STA_W (cpu_at i + off_cpu) 8 0.

(** Outside of [[lo, hi)] the memory has not changed. *)
Definition outside (m m' : mem) (lo hi : Z) : Prop := forall x, x < lo \/ hi <= x -> m' x = m x.

Lemma outside_trans m1 m2 m3 lo hi : outside m1 m2 lo hi -> outside m2 m3 lo hi -> outside m1 m3 lo hi.
Proof. intros H1 H2 x Hx. by rewrite H2, H1. Qed.

Lemma outside_st32 m a v lo hi : 0 <= a -> a + 4 <= 4294967296 -> lo <= a -> a + 4 <= hi -> outside m (st32 m a v) lo hi.
Proof. intros H1 H2 Hlo Hhi x Hx. rewrite st32_bytes by lia. repeat (destruct (_ =? _) eqn:?; bool_hyps; [lia|]). done. Qed.

Lemma outside_st_bytes bs : forall m a lo hi, 0 <= a -> a + Z.of_nat (length bs) <= 4294967296 -> lo <= a -> a + Z.of_nat (length bs) <= hi -> outside m (st_bytes m a bs) lo hi.
Proof.
  induction bs as [|b bs IH]; intros m a lo hi H1 H2 Hlo Hhi; cbn [st_bytes length] in *; [done|].
  eapply outside_trans; [|apply IH; lia]. intros x Hx. rewrite st_at by lia. destruct (x =? a) eqn:E; [bool_hyps; lia|done].
Qed.

Lemma st_bytes_ok bs : forall m a, mem_ok m -> mem_ok (st_bytes m a bs).
Proof. induction bs as [|b bs IH]; intros m a Hm; cbn; [done|]. apply IH. auto with xv6. Qed.

(** What a step leaves alone that touches only the memory from [lo] to [hi], below the free pages, and the table of processor [i]. *)
Record frame (i lo hi : Z) (s s' : st) : Prop := {
  fr_mem : outside (mem_of s) (mem_of s') lo hi;
  fr_ok : mem_ok (mem_of s) -> mem_ok (mem_of s');
  fr_k : k_freelist (o_k s') = k_freelist (o_k s) /\ k_use_lock (o_k s') = k_use_lock (o_k s) /\ k_held (o_k s') = k_held (o_k s);
  fr_gdt : forall i' j, i' <> i -> o_gdt s' i' j = o_gdt s i' j;
  fr_idt : o_idt s' = o_idt s;
  fr_kpgdir : o_kpgdir s' = o_kpgdir s;
  fr_lapic : q_lapic (o_irq s') = q_lapic (o_irq s);
  fr_cpus : forall i', i' <> i -> o_cpus s' i' = o_cpus s i'
}.

Lemma frame_refl i lo hi s : frame i lo hi s s.
Proof. by split. Qed.

Lemma frame_trans i lo hi s1 s2 s3 : frame i lo hi s1 s2 -> frame i lo hi s2 s3 -> frame i lo hi s1 s3.
Proof.
  intros [A1 A2 (A3 & A4 & A5) A6 A7 A8 A9 A10] [B1 B2 (B3 & B4 & B5) B6 B7 B8 B9 B10]. split; try congruence; [by eapply outside_trans|auto|split_and!; congruence| |].
  - intros i' j Hne. by rewrite B6, A6.
  - intros i' Hne. by rewrite B10, A10.
Qed.

Lemma runs_in_k {A} (m : K kstate A) (s : st) Q : runs m (o_k s) (fun a k => Q a (set_o_k k s)) -> runs (in_k m) s Q.
Proof. unfold runs, in_k, lift. by destruct (m (o_k s)). Qed.

Lemma runs_in_irq {A} (m : K (irqst D) A) (s : st) Q : runs m (o_irq s) (fun a q => Q a (set_o_irq q s)) -> runs (in_irq m) s Q.
Proof. unfold runs, in_irq, lift. by destruct (m (o_irq s)). Qed.

Lemma cpunum_here me (s : st) (Q : Z -> st -> Prop) : runs_on me s -> Q me s -> runs (in_irq (cpunum false 0)) s Q.
Proof.
  intros (Hb & Hid) HQ. apply runs_in_irq. unfold runs, cpunum, lapicr, q_read, kbind, kgets, kret. rewrite Hb, (proj2 (Z.eqb_neq _ _)) by done. cbn [negb].
  rewrite Hb, la_read_id, Hid. replace (set_o_irq _ s) with s; [done|]. destruct s as [k q ? ? ? ? ? ?]. by destruct q.
Qed.

(** ** seginit *)

Lemma cpu_range i : 0 <= i < NCPU -> KERNBASE + 0x8000 <= cpu_at i /\ cpu_at i + sizeof_cpu <= kend /\ kend < 4294967296.
Proof. intros Hi. unfold sizeof_cpu, NCPU in *. lia. Qed.

Lemma gs_store_runs b off v (s : st) (Q : unit -> st -> Prop) : g_gs (o_regs s) = SEG STA_W b 8 0 -> 0 <= b -> 0 <= off <= 4 -> b + off + 4 <= 4294967296 ->
  Q tt (set_o_k (set_mem (st32 (mem_of s) (b + off) v) (o_k s)) s) -> runs (gs_store off v) s Q.
Proof.
  intros Hg Hb Ho Hr HQ. unfold gs_store, gs_addr. apply runs_bind, runs_bind, runs_gets. rewrite Hg. change (seg_limit (SEG STA_W b 8 0)) with 4095.
  rewrite (proj2 (Z.ltb_ge _ _)) by lia. apply runs_ret. rewrite SEG_base, u32_small by lia. apply runs_in_k, runs_mod. done.
Qed.

Lemma gs_load_runs b off (s : st) (Q : Z -> st -> Prop) : g_gs (o_regs s) = SEG STA_W b 8 0 -> 0 <= b -> 0 <= off <= 4 -> b + off + 4 <= 4294967296 ->
  Q (ld32 (mem_of s) (b + off)) s -> runs (gs_load off) s Q.
Proof.
  intros Hg Hb Ho Hr HQ. unfold gs_load, gs_addr. apply runs_bind, runs_bind, runs_gets. rewrite Hg. change (seg_limit (SEG STA_W b 8 0)) with 4095.
  rewrite (proj2 (Z.ltb_ge _ _)) by lia. apply runs_ret. rewrite SEG_base, u32_small by lia. apply runs_in_k, runs_gets. by destruct s.
Qed.

Lemma seginit_runs i (s : st) : runs_on i s -> 0 <= i < NCPU -> runs (seginit cpus) s (fun _ s' => segments_of i s' /\ g_gs (o_regs s') = SEG STA_W (cpu_at i + off_cpu) 8 0 /\
  g_cr3 (o_regs s') = g_cr3 (o_regs s) /\ g_esp (o_regs s') = g_esp (o_regs s) /\ frame i (cpu_at i) (cpu_at i + sizeof_cpu) s s' /\ o_irq s' = o_irq s /\ o_msgs s' = o_msgs s).
Proof.
  intros Hon Hi. pose proof (cpu_range i Hi) as (Hc1 & Hc2 & Hc3). unfold KERNBASE, sizeof_cpu in *. unfold seginit. apply runs_bind. eapply cpunum_here; [exact Hon|].
  rewrite (proj2 (Z.leb_le _ _)), (proj2 (Z.ltb_lt _ _)) by lia. cbn [negb andb]. do 7 (apply runs_bind, runs_mod). cbn [o_regs o_gdt set_o_gdt on_regs set_o_regs set_gdtr g_gdtr fst].
  assert (Ei : (u32 (cpu_at i + off_gdt) - off_gdt - cpus) / sizeof_cpu = i) by (unfold sizeof_cpu, off_gdt; rewrite u32_small by lia; mlia). rewrite !Ei. clear Ei.
  unfold sizeof_cpu, off_cpu.
  match goal with |- runs _ ?x _ => set (s1 := x) end. assert (Hgs : g_gs (o_regs s1) = SEG STA_W (cpus + 188 * i + 180) 8 0) by (subst s1; cbn; by rewrite Z.eqb_refl).
  apply runs_bind. eapply gs_store_runs; [exact Hgs|lia|lia|lia|]. eapply gs_store_runs; [exact Hgs|lia|lia|lia|].
  cbn [o_k set_o_k k_mem set_mem]. rewrite !Z.add_0_r.
  split; [|split; [exact Hgs|]].
  - subst s1. unfold segments_of. cbn -[Z.mul Z.add SEG seg_base ld32 st32]. rewrite Z.eqb_refl. cbn -[Z.mul Z.add SEG seg_base ld32 st32]. unfold sizeof_cpu, off_cpu. split_and!; try done.
    + apply SEG_base. lia.
    + rewrite ld32_st32_ne, ld32_st32 by (unfold fits, off_cpu; lia). done.
    + rewrite ld32_st32 by (unfold fits, off_cpu; lia). done.
  - split; [done|]. split; [done|]. split; [|done]. split; subst s1; try done.
    + cbn -[Z.mul Z.add st32]. eapply outside_trans; apply outside_st32; lia.
    + cbn -[Z.mul Z.add st32]. intros Hm. auto with xv6.
    + cbn. intros i' j Hne. rewrite (proj2 (Z.eqb_neq i' i)) by done. done.
Qed.

(** ** mpenter *)

Lemma segments_mem i (s s' : st) : 0 <= i < NCPU -> segments_of i s -> (forall j, o_gdt s' i j = o_gdt s i j) ->
  (forall x, cpu_at i + off_cpu <= x < cpu_at i + sizeof_cpu -> mem_of s' x = mem_of s x) -> segments_of i s'.
Proof.
  intros Hi (A1 & A2 & A3 & A4 & A5 & A6 & A7) Hg Hm. pose proof (cpu_range i Hi). unfold KERNBASE, sizeof_cpu, off_cpu in *. unfold segments_of. rewrite !Hg.
  split_and!; try done; (erewrite ld32_eq; [eassumption|unfold fits, sizeof_cpu, off_cpu; lia|]); intros x Hx; apply Hm; unfold sizeof_cpu, off_cpu in *; lia.
Qed.

Lemma mpenter_runs i (s : st) : runs_on i s -> 0 <= i < NCPU -> runs (mpenter cpus idt la_bound) s (fun _ s' => started i s' /\
  registers i (g_esp (o_regs s)) s (o_regs s') /\ frame i (cpu_at i) (cpu_at i + sizeof_cpu) s s').
Proof.
  intros Hon Hi. pose proof (cpu_range i Hi) as (Hc1 & Hc2 & Hc3). unfold mpenter, boot_switchkvm. apply runs_bind, runs_bind, runs_gets, runs_mod.
  set (s0 := on_regs _ s). assert (F0 : frame i (cpu_at i) (cpu_at i + sizeof_cpu) s s0) by (by split).
  apply runs_bind. eapply runs_conseq; [apply (seginit_runs i s0); done|]. intros ? s1 (G1 & Egs & Ecr & Esp & F1 & Eq1 & _).
  apply runs_bind, runs_in_irq. eapply runs_conseq; [apply lapicinit_after; [rewrite Eq1; apply Hon|done]|]. intros ? q ((_ & _ & _ & Elap & _) & _).
  set (s2 := set_o_irq q s1). assert (F2 : frame i (cpu_at i) (cpu_at i + sizeof_cpu) s1 s2) by (by split).
  pose proof G1 as (_ & _ & _ & _ & _ & Ec & _). unfold KERNBASE in *.
  unfold mpmain. apply runs_bind. eapply gs_load_runs; [exact Egs|unfold sizeof_cpu, off_cpu in *; lia..|]. rewrite Z.add_0_r. change (mem_of s2) with (mem_of s1). rewrite Ec.
  apply runs_bind, runs_in_k, runs_gets. apply runs_bind, runs_mod. apply runs_bind, runs_mod. apply runs_bind. eapply gs_load_runs; [exact Egs|unfold sizeof_cpu, off_cpu in *; lia..|].
  rewrite Z.add_0_r. cbn [o_k o_say on_regs set_o_regs set_o_k]. change (mem_of s2) with (mem_of s1). rewrite Ec.
  apply runs_in_k, runs_mod. rewrite (u32_small (cpu_at i + off_started)) by (unfold sizeof_cpu, off_started in *; lia).
  match goal with |- started _ ?x /\ _ => set (s3 := x) end.
  assert (F3 : frame i (cpu_at i) (cpu_at i + sizeof_cpu) s2 s3).
  { split; subst s3; try done; cbn -[Z.mul Z.add st32]; [|intros Hm; auto with xv6]. apply outside_st32; unfold sizeof_cpu, off_started in *; lia. }
  split_and!; [split|split_and!; [exact Esp|exact Ecr|done|exact Egs]|by repeat (eapply frame_trans; [eassumption|])].
  - apply (segments_mem i s1); try done. intros x Hx. subst s3. cbn -[Z.mul Z.add st32]. apply (outside_st32 _ _ _ (cpu_at i + off_started) (cpu_at i + off_started + 4)); unfold sizeof_cpu, off_started, off_cpu in *; lia.
  - subst s3. cbn -[Z.mul Z.add st32 ld32]. apply ld32_st32; [unfold fits, sizeof_cpu, off_started in *; lia|lia].
Qed.

(** ** startothers *)

Lemma lapicw_lapic r v (q : irqst D) : runs (lapicw r v) q (fun _ q' => q_lapic q' = q_lapic q).
Proof. unfold lapicw, lapicr, runs, kbind, kgets, q_write, kmod, kret, q_read. cbn -[mmio_read mmio_write]. match goal with |- context [mmio_read ?a ?d] => by destruct (mmio_read a d) end. Qed.

Lemma lapicstartap_lapic id a (q : irqst D) : runs (lapicstartap id a) q (fun _ q' => q_lapic q' = q_lapic q).
Proof.
  unfold lapicstartap, microdelay. do 4 (apply runs_bind, runs_mod). cbn [for_each seq].
  repeat match goal with
    | |- runs (kret _) _ _ => apply runs_ret
    | |- runs (kbind _ _) _ _ => apply runs_bind
    | |- runs (lapicw _ _) _ _ => eapply runs_conseq; [apply lapicw_lapic|]; cbn beta; intros ? ? ?
    end.
  cbn [q_lapic on_dev] in *. congruence.
Qed.

Lemma runs_both {S A} (m : K S A) s (Q Q' : A -> S -> Prop) : runs m s Q -> runs m s Q' -> runs m s (fun a s' => Q a s' /\ Q' a s').
Proof. unfold runs. by destruct (m s). Qed.

(** Processor [i] runs [m], and then [me] goes on. *)
Definition on_cpu (me i : Z) (m : K st unit) : K st unit :=
  let* r := kgets o_regs in
  kmod (fun s => set_o_regs reset_regs (set_o_irq (on_dev (as_cpu i) (o_irq s)) s)) ;;;
  m ;;;
  kmod (fun s => set_o_cpus (upd (o_cpus s) i (o_regs s)) s) ;;;
  kmod (fun s => set_o_regs r (set_o_irq (on_dev (as_cpu me) (o_irq s)) s)).

(** The bytes at [a]. *)
Definition bytes_at (m : mem) (a : Z) (n : nat) : list Z := (fun k => ld m (a + Z.of_nat k)) <$> seq 0 n.

(** The universal startup algorithm of the MultiProcessor Specification (B.4), from the side of processor [i]: it leaves its reset at page [V] when the last interrupts that were sent are, all to [i], an INIT, its de-assert, and twice
    a STARTUP with the vector [V], and the shutdown code and the warm reset vector, for processors that begin at the INIT, lead to the same page. *)
Definition sipi_page (i : Z) (sent : list (Z * Z)) : option Z :=
  match drop (length sent - 4) sent with
  | [a; b; c; d] =>
      if bool_decide (a = (16777216 * i, 0xC500)) && bool_decide (b = (16777216 * i, 0x8500)) && (c.1 =? 16777216 * i) && (c.2 / 256 =? 6) && bool_decide (d = c)
      then Some (4096 * (c.2 mod 256)) else None
  | _ => None
  end.

Definition leaves_reset (i : Z) (d : D) : option Z :=
  match sipi_page i (la_sent (the_la d)) with
  | Some page => if (cmos d 0xF =? 0x0A) && (wr d 0x80000467 =? 0) && (wr d 0x80000469 =? page / 16) then Some page else None
  | None => None
  end.

(** What becomes of processor [i] while [me] waits: nothing if it has not been told to start; if it has, it runs the code of entryother.S, provided this is what the page holds. *)
Definition ap (me i : Z) : K st unit :=
  let* s := kget in
  match leaves_reset i (q_dev (o_irq s)) with
  | None => kret tt
  | Some page =>
      if (page =? start) && bool_decide (bytes_at (mem_of s) (p2v page) (length entryother) = entryother)
      then on_cpu me i (entryother_start cpus idt mpenter_addr entrypgdir la_bound)
      else kpanic "undefined: code of the processor"
  end.

Lemma sipi_startup i sent : 0 <= i < 256 -> sipi_page i (sent ++ startup_ipis i 0x7000) = Some 0x7000.
Proof.
  intros Hi. unfold sipi_page. rewrite length_app. change (length (startup_ipis i 0x7000)) with 4%nat. rewrite Nat.add_sub, drop_app_length.
  assert (E : u32 (Z.shiftl i 24) = 16777216 * i) by (rewrite Z.shiftl_mul_pow2 by lia; rewrite u32_small by lia; lia).
  unfold startup_ipis. rewrite E. cbn [fst snd]. rewrite Z.eqb_refl, !bool_decide_eq_true_2 by reflexivity. reflexivity.
Qed.

Lemma lapicstartap_starts i (q : irqst D) : q_lapic q = base -> 0 <= i < 256 -> runs (lapicstartap i 0x7000) q (fun _ q' => q_lapic q' = base /\ leaves_reset i (q_dev q') = Some start).
Proof.
  intros Hb Hi. eapply runs_conseq; [apply runs_both; [apply lapicstartap_lapic|apply (lapicstartap_correct (base := base) q i 0x7000 Hb Hi); lia]|].
  intros ? q' (E & E1 & E2 & E3 & E4). split; [congruence|]. unfold leaves_reset. rewrite E1, sipi_startup by done. rewrite E2. change 0x80000467 with wrv. change 0x80000469 with (wrv + 2). rewrite E3, E4. reflexivity.
Qed.

(** The words before the code, as [startothers] leaves them. *)
Record arguments (esp : Z) (m : mem) : Prop := {
  ar_pgdir : ld32 m (p2v start - 12) = v2p entrypgdir;
  ar_esp : ld32 m (p2v start - 4) = esp;
  ar_entry : ld32 m (p2v start - 8) = mpenter_addr
}.

Lemma entryother_runs i esp (s : st) : runs_on i s -> 0 <= i < NCPU -> arguments esp (mem_of s) -> runs (entryother_start cpus idt mpenter_addr entrypgdir la_bound) s (fun _ s' => started i s' /\
  registers i esp s (o_regs s') /\ frame i (cpu_at i) (cpu_at i + sizeof_cpu) s s').
Proof.
  intros Hon Hi [A1 A2 A3]. unfold entryother_start. apply runs_bind, runs_in_k, runs_gets. cbn [o_k set_o_k]. rewrite A1, Z.eqb_refl. cbn [negb]. apply runs_bind, runs_mod, runs_bind, runs_in_k, runs_gets.
  apply runs_bind, runs_mod, runs_bind, runs_in_k, runs_gets. cbn [o_k set_o_k on_regs set_o_regs]. rewrite A2, A3, Z.eqb_refl.
  match goal with |- runs _ ?x _ => set (s1 := x) end. assert (F1 : frame i (cpu_at i) (cpu_at i + sizeof_cpu) s s1) by (by split).
  eapply runs_conseq; [by apply (mpenter_runs i s1)|]. intros ? s2 (G & R & F). split_and!; [done|exact R|by eapply frame_trans].
Qed.

Lemma on_cpu_runs me i esp (s : st) : q_lapic (o_irq s) = base -> 0 <= i < NCPU -> 0 <= me < NCPU -> arguments esp (mem_of s) ->
  runs (on_cpu me i (entryother_start cpus idt mpenter_addr entrypgdir la_bound)) s (fun _ s' => started i s' /\ registers i esp s (o_cpus s' i) /\ runs_on me s' /\ o_regs s' = o_regs s /\ frame i (cpu_at i) (cpu_at i + sizeof_cpu) s s').
Proof.
  intros Hb Hi Hme Ha. unfold on_cpu. apply runs_bind, runs_gets, runs_bind, runs_mod, runs_bind. set (s1 := set_o_regs _ _).
  eapply runs_conseq; [apply (entryother_runs i esp s1); [|done|done]|].
  - split; [done|]. by apply as_cpu_id.
  - intros ? s2 ((G & E1) & R & F). apply runs_bind, runs_mod, runs_mod. split_and!; [|by cbn; rewrite upd_eq|split|done|].
    + split; [|done]. by apply (segments_mem i s2).
    + destruct F as [_ _ _ _ _ _ F _]. etrans; [exact F|exact Hb].
    + by apply as_cpu_id.
    + destruct F as [F1 F2 F3 F4 F5 F6 F7 F8]. split; try done. intros i' Hne. cbn. rewrite upd_ne by done. by apply F8.
Qed.

Lemma frame_free i lo hi (s s' : st) l : frame i lo hi s s' -> hi <= kend -> free_list kend (o_k s) l -> lock_free (o_k s) -> free_list kend (o_k s') l /\ lock_free (o_k s').
Proof.
  intros [F1 F2 (F3 & _ & F4) _ _ _ _] Hhi (Hm & Hch & Hnd) Hlk. split; [|unfold lock_free in *; by rewrite F4]. split; [by apply F2|]. split; [|done]. rewrite F3. eapply chain_frame; [|exact Hch].
  intros p Hp. assert (Hpg : is_page kend p) by (apply chain_pages in Hch; by eapply Forall_forall in Hch). pose proof (is_page_fits kend p Hpg) as (P1 & P2 & P3). unfold PGSIZE in *.
  apply ld32_eq; [unfold fits; lia|]. intros x Hx. apply F1. destruct Hpg as (_ & Hk & _). lia.
Qed.

Lemma started_frame i' i lo hi (s s' : st) : 0 <= i' < NCPU -> frame i lo hi s s' -> i' <> i -> cpu_at i' + sizeof_cpu <= lo \/ hi <= cpu_at i' -> started i' s -> started i' s'.
Proof.
  intros Hi' F Hne Hd (G & E). pose proof (cpu_range i' Hi') as Hr. unfold KERNBASE, sizeof_cpu, off_started, off_cpu in *. split.
  - apply (segments_mem i' s); [done|done|intros j; by apply (fr_gdt _ _ _ _ _ F)|]. intros x Hx. apply (fr_mem _ _ _ _ _ F). unfold sizeof_cpu, off_cpu in *. lia.
  - rewrite <- E. apply ld32_eq; [unfold fits, sizeof_cpu, off_started; lia|]. intros x Hx. apply (fr_mem _ _ _ _ _ F). unfold sizeof_cpu, off_started in *. lia.
Qed.

(** The code that the others start with is in place. *)
Definition image (s : st) : Prop := bytes_at (mem_of s) (p2v start) (length entryother) = entryother.

(** The page before it, with the words for it. *)
#[local] Abbreviation low := (KERNBASE + 0x6000).
#[local] Abbreviation high := (KERNBASE + 0x7000).

Lemma bytes_at_same (m m' : mem) a n : 0 <= a -> a + Z.of_nat n <= 4294967296 -> (forall x, a <= x < a + Z.of_nat n -> m' x = m x) -> bytes_at m' a n = bytes_at m a n.
Proof.
  intros Ha Hn Hm. apply list_fmap_ext. intros k x Hx%lookup_seq. unfold ld. rewrite !u32_small by lia. apply Hm. lia.
Qed.

Lemma bytes_at_stored bs : forall m a, 0 <= a -> a + Z.of_nat (length bs) <= 4294967296 -> Forall (fun b => 0 <= b < 256) bs -> bytes_at (st_bytes m a bs) a (length bs) = bs.
Proof.
  induction bs as [|b bs IH]; intros m a Ha Hn Hb; [done|]. apply Forall_cons in Hb as (Hb & Hbs). cbn [length] in *. unfold bytes_at. cbn [seq fmap list_fmap st_bytes]. f_equal.
  - rewrite Z.add_0_r. unfold ld. rewrite u32_small by lia. rewrite (outside_st_bytes bs _ (a + 1) (a + 1) (a + 1 + Z.of_nat (length bs))) by lia. rewrite st_at by lia. rewrite Z.eqb_refl. unfold u8. apply Z.mod_small. lia.
  - rewrite <- (IH (CString.st m a b) (a + 1)) at 2 by (done || lia). unfold bytes_at. rewrite <- seq_shift. change (map S (seq 0 (length bs))) with (S <$> seq 0 (length bs)). rewrite <- list_fmap_compose. apply list_fmap_ext. intros k x _. cbn. f_equal. lia.
Qed.

Lemma image_frame i lo hi (s s' : st) : frame i lo hi s s' -> hi <= high \/ KERNBASE + 0x8000 <= lo -> image s -> image s'.
Proof.
  intros F Hd Hi. unfold image in *. rewrite <- Hi at 2. change (p2v start) with (KERNBASE + 0x7000). apply bytes_at_same; unfold KERNBASE in *; [lia|lia|]. intros x Hx. apply (fr_mem _ _ _ _ _ F). lia.
Qed.

Lemma frame_store i a v (s : st) : low <= a -> a + 4 <= high -> frame i low high s (set_o_k (set_mem (st32 (mem_of s) a v) (o_k s)) s).
Proof. intros H1 H2. unfold KERNBASE in *. split; try done; cbn -[st32]; [apply outside_st32; lia|intros Hm; auto with xv6]. Qed.

(** [cpus[i].id] is [i], as [mpinit] leaves it. *)
Definition has_id (s : st) (i : Z) : Prop := ld (mem_of s) (cpu_at i) = i.

Lemma id_frame i' i lo hi (s s' : st) : frame i lo hi s s' -> 0 <= i' < NCPU -> cpu_at i' + sizeof_cpu <= lo \/ hi <= cpu_at i' -> has_id s i' -> has_id s' i'.
Proof.
  intros F Hi' Hd Hid. pose proof (cpu_range i' Hi') as Hr. unfold has_id in *. rewrite <- Hid at 2. unfold ld, KERNBASE, sizeof_cpu in *. rewrite !u32_small by lia. apply (fr_mem _ _ _ _ _ F). lia.
Qed.

(** The stores of a turn of the loop. *)
Lemma words_stored (m : mem) esp : 0 <= esp < 4294967296 ->
  arguments esp (st32 (st32 (st32 m (p2v start - 4) esp) (p2v start - 8) mpenter_addr) (p2v start - 12) (v2p entrypgdir)).
Proof.
  intros He. change (p2v start) with (KERNBASE + 0x7000). assert (Hv : 0 <= v2p entrypgdir < 4294967296) by (unfold v2p; apply u32_range). unfold KERNBASE.
  split; change (p2v start) with (KERNBASE + 0x7000); unfold KERNBASE; repeat (rewrite ld32_st32_ne by (unfold fits; lia)); apply ld32_st32; (unfold fits; lia).
Qed.

(** What a turn of the loop leaves for the turns to come and for this processor. *)
Record turn (me : Z) (own : Z -> Prop) (s s' : st) : Prop := {
  tu_started : forall i, 0 <= i < NCPU -> ~ own i -> started i s -> started i s';
  tu_cpus : forall i, ~ own i -> o_cpus s' i = o_cpus s i;
  tu_ids : forall i, 0 <= i < NCPU -> ~ own i -> has_id s i -> has_id s' i;
  tu_image : image s -> image s';
  tu_on : runs_on me s';
  tu_regs : o_regs s' = o_regs s;
  tu_kpgdir : o_kpgdir s' = o_kpgdir s;
  tu_gdt : forall j, o_gdt s' me j = o_gdt s me j
}.

Lemma turn_trans me own1 own2 s1 s2 s3 : turn me own1 s1 s2 -> turn me own2 s2 s3 -> turn me (fun i => own1 i \/ own2 i) s1 s3.
Proof.
  intros [A1 A2 A3 A4 A5 A6 A7 A8] [B1 B2 B3 B4 B5 B6 B7 B8]. split; try congruence; auto.
  - intros i Hi Hn St. apply B1; [done|tauto|]. apply A1; [done|tauto|done].
  - intros i Hn. rewrite B2, A2 by tauto. done.
  - intros i Hi Hn St. apply B3; [done|tauto|]. apply A3; [done|tauto|done].
Qed.

Lemma turn_weaken me (own own' : Z -> Prop) s s' : (forall i, own i -> own' i) -> turn me own s s' -> turn me own' s s'.
Proof. intros Hw [A1 A2 A3 A4 A5 A6 A7 A8]. split; auto. Qed.

(** One turn of the loop for another processor, which takes a page. *)
Lemma start_one me i p l (s : st) : runs_on me s -> 0 <= i < NCPU -> 0 <= me < NCPU -> i <> me -> free_list kend (o_k s) (p :: l) -> lock_free (o_k s) -> has_id s i -> image s ->
  runs (startother cpus mpenter_addr entrypgdir (ap me) i) s (fun _ s' => started i s' /\ registers i (p + KSTACKSIZE) s (o_cpus s' i) /\
    turn me (fun i' => i' = i) s s' /\ free_list kend (o_k s') l /\ lock_free (o_k s')).
Proof.
  intros Hon Hi Hme Hne Hfl Hlk Hid Him. unfold startother. change 0x7000 with start. pose proof (cpu_range i Hi) as Hr.
  assert (Hpg : 0 <= p + KSTACKSIZE < 4294967296) by (destruct Hfl as (_ & (_ & Hp & _) & _); unfold is_page, PGSIZE, KERNBASE, PHYSTOP, KSTACKSIZE in *; lia).
  apply runs_bind. eapply cpunum_here; [exact Hon|]. rewrite (proj2 (Z.eqb_neq i me)) by done.
  apply runs_bind, runs_in_k. eapply runs_conseq; [by apply (kalloc_spec kend)|]. intros stack k1 (Est & Hfl1 & Eh1 & _ & Em1). cbn [hd tl] in Est, Hfl1. subst stack.
  rewrite (u32_small (p + KSTACKSIZE)) by done. set (s1 := set_o_k k1 s). assert (Hlk1 : lock_free (o_k s1)) by (unfold lock_free, s1; cbn; by rewrite Eh1).
  do 3 (apply runs_bind, runs_in_k, runs_mod). match goal with |- runs _ ?x _ => set (s4 := x) end.
  assert (A4 : arguments (p + KSTACKSIZE) (mem_of s4)) by (subst s4; cbn [o_k set_o_k k_mem set_mem]; by apply words_stored).
  assert (F4 : frame i low high s1 s4).
  { subst s4. change (p2v start) with (KERNBASE + 0x7000). eapply frame_trans; [apply (frame_store i (KERNBASE + 0x7000 - 4)); unfold KERNBASE; lia|].
    eapply frame_trans; [apply (frame_store i (KERNBASE + 0x7000 - 8)); unfold KERNBASE; lia|]. apply (frame_store i (KERNBASE + 0x7000 - 12)); unfold KERNBASE; lia. }
  assert (I1 : image s1) by (unfold image, s1; cbn [o_k set_o_k]; by rewrite Em1). assert (D1 : forall i', has_id s i' -> has_id s1 i') by (unfold has_id, s1; cbn [o_k set_o_k]; by rewrite Em1).
  assert (D4 : forall i', 0 <= i' < NCPU -> has_id s i' -> has_id s4 i') by (intros i' Hi' ?; eapply id_frame; [exact F4|done|pose proof (cpu_range i' Hi'); right; lia|auto]).
  assert (Hb4 : q_lapic (o_irq s4) = base) by (rewrite (fr_lapic _ _ _ _ _ F4); apply Hon).
  apply runs_bind, runs_in_k, runs_gets. replace (set_o_k (o_k s4) s4) with s4 by (by destruct s4). rewrite (D4 i Hi Hid). change (v2p (p2v start)) with 0x7000.
  apply runs_bind, runs_in_irq. eapply runs_conseq; [apply (lapicstartap_starts i); [done|unfold NCPU in Hi; lia]|]. intros ? q5 (Eq5 & Hst).
  match goal with |- runs _ ?x _ => set (s5 := x) end. assert (F5 : frame i low high s4 s5) by (split; try done; cbn; by rewrite Eq5).
  assert (F : frame i low high s1 s5) by (by eapply frame_trans). assert (I5 : image s5) by (eapply image_frame; [exact F|by left|done]).
  apply runs_bind. unfold ap at 1. apply runs_bind. unfold runs at 1, kget. change (q_dev (o_irq s5)) with (q_dev q5). rewrite Hst, Z.eqb_refl. rewrite bool_decide_eq_true_2 by exact I5. cbn [andb].
  eapply runs_conseq; [apply (on_cpu_runs me i (p + KSTACKSIZE) s5); [exact Eq5|done|done|exact A4]|].
  intros ? s6 (G6 & R6 & Hon6 & Er6 & F6). apply runs_bind, runs_in_k, runs_gets. rewrite (proj2 G6). apply runs_ret. replace (set_o_k (o_k s6) s6) with s6 by (by destruct s6).
  destruct (frame_free i low high s1 s5 l F ltac:(unfold sizeof_cpu in *; lia) Hfl1 Hlk1) as (Hfl5 & Hlk5).
  destruct (frame_free i _ _ s5 s6 l F6 ltac:(lia) Hfl5 Hlk5) as (Hfl6 & Hlk6). split_and!; try done.
  assert (Hd : forall i', 0 <= i' < NCPU -> i' <> i -> cpu_at i' + sizeof_cpu <= cpu_at i \/ cpu_at i + sizeof_cpu <= cpu_at i') by (intros i' _ Hn; unfold sizeof_cpu; lia). split; try done.
  - intros i' Hi' Hne' St. pose proof (cpu_range i' Hi') as Hr'. eapply started_frame; [done|exact F6|done|by apply Hd|].
    eapply started_frame; [done|exact F|done|right; lia|]. destruct St as (St1 & St2). split; [|unfold s1; cbn [o_k set_o_k]; by rewrite Em1].
    apply (segments_mem i' s); try done. intros x _. unfold s1. cbn [o_k set_o_k]. by rewrite Em1.
  - intros i' Hne'. rewrite (fr_cpus _ _ _ _ _ F6), (fr_cpus _ _ _ _ _ F) by done. done.
  - intros i' Hi' Hne' Hid'. eapply id_frame; [exact F6|done|by apply Hd|]. eapply id_frame; [exact F5|done|pose proof (cpu_range i' Hi'); right; lia|auto].
  - intros _. eapply image_frame; [exact F6|right; lia|done].
  - rewrite (fr_kpgdir _ _ _ _ _ F6), (fr_kpgdir _ _ _ _ _ F). done.
  - intros j. rewrite (fr_gdt _ _ _ _ _ F6), (fr_gdt _ _ _ _ _ F) by done. done.
Qed.

(** The others among [ids]. *)
#[local] Abbreviation others me ids := (filter (fun i => i <> me) ids).

(** The loop over the processors [ids]. *)
Lemma start_all me ids : forall l (s : st), 0 <= me < NCPU -> Forall (fun i => 0 <= i < NCPU) ids -> NoDup ids -> runs_on me s -> free_list kend (o_k s) l -> lock_free (o_k s) ->
  (length (others me ids) <= length l)%nat -> Forall (has_id s) (others me ids) -> image s ->
  runs (for_each ids (startother cpus mpenter_addr entrypgdir (ap me))) s (fun _ s' =>
    Forall2 (fun i p => started i s' /\ registers i (p + KSTACKSIZE) s (o_cpus s' i)) (others me ids) (take (length (others me ids)) l) /\
    turn me (fun i => i ∈ others me ids) s s' /\ free_list kend (o_k s') (drop (length (others me ids)) l)).
Proof.
  induction ids as [|i ids IH]; intros l s Hme His Hnd Hon Hfl Hlk Hlen Hids Him; cbn [for_each].
  - apply runs_ret. split_and!; [by constructor|by split|done].
  - apply Forall_cons in His as (Hi & His). apply NoDup_cons in Hnd as (Hni & Hnd). apply runs_bind. rewrite filter_cons in *. destruct (decide (i = me)) as [->|Hne].
    + rewrite decide_False in * by naive_solver. unfold startother at 1. apply runs_bind. eapply cpunum_here; [exact Hon|]. rewrite Z.eqb_refl. apply runs_ret. by apply IH.
    + rewrite decide_True in * by done. cbn [length drop take] in *. destruct l as [|p l]; [cbn in Hlen; lia|]. cbn [length drop take] in *. apply Forall_cons in Hids as (Hid & Hids).
      eapply runs_conseq; [by apply (start_one me i p l s)|]. intros ? s1 (G1 & R1 & T1 & Hfl1 & Hlk1).
      assert (Hio : forall j, j ∈ others me ids -> 0 <= j < NCPU /\ j <> i).
      { intros j Hj. apply list_elem_of_filter in Hj as (_ & Hj). rewrite Forall_forall in His. split; [by apply His|]. by intros ->. }
      eapply runs_conseq; [apply (IH l s1); try done; [apply T1|lia| |by apply T1]|].
      * rewrite Forall_forall in Hids |- *. intros j Hj. destruct (Hio j Hj). apply T1; auto.
      * intros ? s' (Hs & T' & Hfl'). assert (Hnin : i ∉ others me ids) by (rewrite list_elem_of_filter; tauto). split_and!; [|by eapply turn_weaken; [|by eapply turn_trans]; set_solver|done].
        constructor.
        -- split; [by apply T'|]. rewrite (tu_cpus _ _ _ _ T') by done. done.
        -- eapply Forall2_impl; [exact Hs|]. cbn beta. intros j q (S1 & S2). split; [done|]. unfold registers in *. by rewrite (tu_kpgdir _ _ _ _ T1) in S2.
Qed.

End Smp.

(** ** A machine with two processors *)

(** The machine of IrqSpec.v, as the processor [x_cpu] sees it. *)
Record smp := Smp { x_mc : machine; x_cpu : Z }.

#[global] Instance smp_ports : Ports smp := {| inb p d := (0, d); outb p v d := Smp (outb p v (x_mc d)) (x_cpu d); insl _ _ d := ([], d); outsl _ _ d := d |}.
#[global] Instance smp_mmio : Mmio smp := {|
  mmio_read a d := if a =? LAPIC_BASE + ID then (Z.shiftl (x_cpu d) 24, d) else let (v, m) := mmio_read a (x_mc d) in (v, Smp m (x_cpu d));
  mmio_write a v d := Smp (mmio_write a v (x_mc d)) (x_cpu d);
  mmio_write16 a v d := Smp (mmio_write16 a v (x_mc d)) (x_cpu d) |}.

#[global] Instance smp_lapic : LocalApic smp LAPIC_BASE.
Proof.
  refine {| the_la d := the_la (x_mc d); la_id d := Z.shiftl (x_cpu d) 24; la_ver d := la_ver (x_mc d); la_polls d := la_polls (x_mc d); la_bound := la_bound (D := machine) (base := LAPIC_BASE) |}.
  - intros r v d Hr. destruct (la_written (base := LAPIC_BASE) r v (x_mc d) Hr) as (E1 & _ & E3). done.
  - intros [m c]. done.
  - intros d. cbn [mmio_read smp_mmio]. change (LAPIC_BASE + VER =? LAPIC_BASE + ID) with false. cbn iota. rewrite la_read_ver. by destruct d.
  - intros d. destruct (la_read_icr (base := LAPIC_BASE) (x_mc d)) as (v & m & E & E1 & _ & E2 & E3). exists v, (Smp m (x_cpu d)). split; [|done].
    cbn [mmio_read smp_mmio]. change (LAPIC_BASE + ICRLO =? LAPIC_BASE + ID) with false. cbn iota. by rewrite E.
  - intros d. apply (la_polls_bound (x_mc d)).
Defined.

#[global] Instance smp_warm : WarmReset (D := smp) (base := LAPIC_BASE).
Proof.
  refine {| wr d := wr (x_mc d); cmos_sel d := cmos_sel (x_mc d); cmos d := cmos (x_mc d) |}.
  - intros a v d. apply (wr_written16 (base := LAPIC_BASE) a v (x_mc d)).
  - intros r v d Hr. by apply (wr_written (base := LAPIC_BASE) r v (x_mc d)).
  - intros v d. apply (cmos_select (base := LAPIC_BASE) v (x_mc d)).
  - intros v d. apply (cmos_set (base := LAPIC_BASE) v (x_mc d)).
Defined.

(** [cpus] is at 0x80112000 and the end of the kernel at 0x80400000; processor 0 runs, and there is a free page. *)
Definition smp_mem : kstate := set_mem (CString.st (k_mem (free_state [sample_page 0])) (0x80112000 + sizeof_cpu) 1) (free_state [sample_page 0]).
Definition smp0 : bootst smp := Boot smp_mem (Irqst 0 true 0 LAPIC_BASE 0 (Smp mc_start 0) []) (sample_page 1) (fun _ _ => SEG 0 0 0 0)
  (replicate 256 (SETGATE false 0 0 0)) [] reset_regs (fun _ => reset_regs).

(** The machine as processor [i] sees it. *)
Definition smp_as (i : Z) (d : smp) : smp := Smp (x_mc d) i.

